(* ===== verification/_CoqProject ===== *)
-Q . S2P
Prelude.v
FlowKey.v
Handler.v
Findings.v
Flow.v
Segment.v
Stream.v
Reassembly.v
ReassemblyFacts.v
ReassemblyProps.v
EngineCounts.v
Dispatcher.v
Modbus.v
ModbusProps.v
Iec104.v
Iec104Props.v
Dnp3.v
Dnp3Facts.v
Dnp3Props.v
Enip.v
EnipProps.v
Arp.v
ArpProps.v
S7comm.v
S7commProps.v
Reader.v
ReaderProps.v
Http.v
HttpProps.v
Tls.v
TlsProps.v
Display.v
Decoder.v
DecoderProps.v
Triage.v
Catalog.v
Coverage.v
Pipeline.v
Analyze.v
AnalyzeProps.v
CommandProps.v
Render.v
RenderProps.v
Emitted.v
OutputProps.v
