(* ===== verification/Prelude.v ===== *)
(** * wirerust: verification of the packet-forensics program

    wirerust reads packet captures, decodes their frames, reassembles the TCP
    streams and runs protocol analyzers over them that emit findings, which it
    reports as text, CSV or JSON.  This library models the program from the
    bytes of the files to the text of the report, as Rocq functions translated
    from the Rust sources, and proves what makes it correct.

    ** The program and the files

    The command (src/main.rs) resolves its targets to files and reads each with
    the capture reader (src/reader.rs).  Every frame is decoded
    (src/decoder.rs).  IP packets are counted (src/summary.rs), given to the
    DNS analyzer and to the reassembly engine (src/reassembly/), which keeps a
    table of TCP flows with an out-of-order buffer per direction and hands
    in-order chunks to a [StreamHandler].  That handler is the dispatcher
    (src/dispatcher.rs), which decides once per flow which analyzer the flow
    belongs to and forwards its chunks and its close.  The analyzers
    (src/analyzer/) cut the chunks into protocol frames, keep per-flow state and
    emit [Finding]s (src/findings.rs).  ARP frames go to the ARP analyzer.  At
    the end the engine is finalized, findings and summaries are collected, and
    a reporter (src/reporter/) renders them.

    - [Prelude]: record update, panics and machine integers, byte sequences,
      sums over maps, iteration orders.
    - [FlowKey]: [IpAddr], [FlowKey::new] (reassembly/flow.rs).
    - [Handler]: directions, close reasons, the [StreamHandler] trait as a
      class, and event traces (reassembly/handler.rs).
    - [Findings]: findings, decoded packets, summaries (findings.rs, the result
      types of decoder.rs, analyzer/mod.rs).
    - [Flow]: [FlowDirection], [TcpFlow] and the TCP events on it
      (reassembly/flow.rs).
    - [Segment]: [insert_segment], [select_gaps], [flush_contiguous]
      (reassembly/segment.rs), with their meaning as operations on a partial
      map from stream position to byte.
    - [Stream]: insertion and flush composed, over whole segment sequences.
    - [Reassembly], [ReassemblyFacts], [ReassemblyProps], [EngineCounts]: the
      engine (reassembly/mod.rs, lifecycle.rs, config.rs, stats.rs):
      translation, invariant, theorems, statistics.  [process_packet] is the
      whole packet path: expiry sweeps, admission with eviction, handshake
      flags, insertion, anomaly thresholds, flush, removal on FIN, memory cap.
    - [Dispatcher]: dispatcher.rs, with the abstract assignment of events to
      analyzers it refines; the analyzers are type parameters known through
      the classes [StreamHandler] and [FlowAnalyzer].
    - [Modbus], [Iec104], [Dnp3], [Enip], [Http], [Tls], each with its [Props]
      file (and [Dnp3Facts]): the stream analyzers of src/analyzer/.
    - [S7comm], [S7commProps]: analyzer/iso_on_tcp.rs and analyzer/s7comm.rs,
      which the dispatcher does not feed yet.
    - [Arp], [ArpProps]: analyzer/arp.rs.
    - [Reader], [ReaderProps]: reader.rs.
    - [Decoder], [DecoderProps]: decoder.rs.
    - [Triage]: summary.rs and analyzer/dns.rs.
    - [Catalog]: protocols.rs and mitre.rs.
    - [Coverage]: the coverage-gap report of main.rs.
    - [Pipeline]: engine, dispatcher and stream analyzers composed, through the
      interface [FlowTable].
    - [Analyze], [AnalyzeProps], [CommandProps]: the commands of main.rs and
      cli.rs, [run_analyze], [run_summary], [run_protocols].
    - [Display]: strings as characters, addresses and numbers as text, the two
      sanitizers of the reporters.
    - [Render], [RenderProps]: reporter/ and the rendering functions of main.rs.
    - [Emitted], [OutputProps]: what every finding, service and label of a run
      can be, and the output of the commands.

    A struct is a [Record] with the source's field names, an enum an
    [Inductive]; [&mut self] is state passing; a method is one definition, cut
    into named parts where the Rust body is long.  A [HashMap] or [BTreeMap]
    is a [gmap].  The analyzers hold strings as their UTF-8 bytes; the
    reporters see their characters.

    ** Parameters

    Code that is not in the repository is a class, over which the theorems are
    quantified, with the documented behaviour they rely on as a second class
    or a named hypothesis and a small instance that meets it:
    the iteration order of hash maps ([HashOrder], [IterOrder], [ScanOrders]);
    pcap-file ([PcapFile], with [bodies_are_slices]); etherparse ([Etherparse],
    [EtherparseLaws], [ArpSlicing]); httparse and Unicode text functions
    ([HttpLib], [HttpLaws]); tls-parser, md5 and [to_uppercase] ([TlsLib]); the
    file system (the record [filesystem]: what reading a path and writing the
    output to it answer); the colour, time, JSON and CSV crates ([ReportLib],
    with [objects_reparse]).  The standard streams take what is printed.

    ** Panics, integers, time

    The release profile turns overflow checks on, so a computation that can
    panic (plain arithmetic, [unwrap], slicing, [assert!]) has type [option];
    [None] is the panic.  Saturating and wrapping operations are written out.
    [debug_assert!] is compiled out of a release build and not modelled.  A
    capture timestamp is the [u32] number of seconds; [DateTime::from_timestamp]
    of such a number always succeeds, so a finding keeps the number.  A
    [format!] string is kept as its pieces until it is shown.  The lines that the
    commands write to stderr are values of [diagnostic]; the engine's own
    one-shot messages are dropped.

    ** Fuel

    Loops that are not structurally recursive take fuel: the flush loop
    ([flush_loop], one buffered segment per round, fuel one more than the
    number of segments); the frame walks of the analyzers ([walk], [iec_walk],
    [frame_walk], [enip_walk], [s7_walk], [drain_loop], [try_parse_records],
    [try_parse_requests], [try_parse_responses]) and of the reader
    ([idb_options_walk], [ng_walk]), which consume at least one byte per round
    and have fuel for every byte; decoding of UTF-8 ([utf8_decode],
    [decode_chars], at least one byte per character) and of numbers
    ([hex_digits], sixteen digits for 64 bits).  Running out is [None] where the
    result can fail; the theorems prove results equal to [Some], so the fuel is
    enough.

    ** What the theorems show

    - The command.  A run never panics and ends with the first error the code
      meets among a zero threshold, a target that is missing and an output file
      that cannot be written, otherwise with a report that renders
      ([run_analyze_never_panics]);
      every frame is accounted for once ([analyze_accounts_for_every_frame]);
      the report is the composition of its consumers, each on its own share of
      the frames ([analyze_composes]); unreadable files change nothing but the
      exit status ([unreadable_files_isolated]); [summary] agrees with
      [analyze] ([summary_agrees_with_analyze]); targets resolve to exactly the
      captures they name ([resolve_targets_exact]).
    - Delivery.  What leaves a direction is a prefix of the peer's stream
      whatever arrives ([delivered_bytes_are_stream_prefix]); pieces in any
      order deliver all of it ([any_arrival_order_delivers_whole_stream]);
      over a whole capture the chunks of every direction are contiguous and in
      order ([capture_delivers_in_order]).
    - The segment buffer refines first-wins insertion
      ([insert_segment_first_wins], [insert_segment_guards],
      [select_gaps_partition], [flush_contiguous_delivers_run]).
    - The engine never panics and stays within its limits
      ([process_packet_safe], [capture_respects_limits]); admission, eviction,
      expiry and [finalize] do exactly what they promise
      ([get_or_create_flow_always_admits], [evict_flows_order_and_extent],
      [expire_flows_exact], [finalize_closes_every_flow]); its statistics are
      exact ([engine_counts_every_packet]); a flow is in exactly the state its
      TCP events call for, and only moves forward ([flow_lifecycle]).
    - The dispatcher refines its specification
      ([dispatcher_refines_assignments], [one_analyzer_per_flow]) and, with
      every analyzer enabled, hands over all chunks on exactly the ports the
      catalogue lists as supported ([dispatcher_covers_catalog]).
    - The analyzers do not depend on how a stream is cut
      ([modbus_segmentation_independent], [iec104_segmentation_independent],
      [s7_segmentation_independent], [dnp3_frames_any_chunking],
      [enip_frames_any_chunking], [tls_fragments_any_chunking]), are bounded and
      do not panic ([modbus_bounded], [iec104_bounded], [dnp3_bounded],
      [enip_bounded], [http_bounded], [tls_bounded], [arp_bounded],
      [s7_bounded]), and their parsers and detectors are exact
      ([modbus_request_response_pairing], [write_burst_exact],
      [ns_desync_exact], [dnp3_timeouts_exact], [enip_header_typed],
      [cpf_roundtrip], [arp_bindings_are_last_claims], [arp_storm_exact],
      [http_poison_oracle], [ja3_exact], [tls_proof_models_faithful]).
    - The reader accepts exactly the well-formed captures and always ends
      ([read_pcapng_exact], [reader_terminates], [epb_roundtrip],
      [timestamp_exact]); the decoder is total, its result is exactly what the
      slicers' answers call for, and ARP frames are classified by their header
      ([decode_packet_exact], [arp_classification]).
    - The tables agree with each other and with the code
      ([technique_table_exact], [gap_state_exact], [gap_report_complete]).
    - The composition of engine, dispatcher and analyzers never panics and leaks
      no flow state ([pipeline_never_panics], [pipeline_releases_flow_state]).
    - The reports.  No packet can write to the terminal
      ([terminal_report_clean] for any findings, [main_terminal_clean] for the
      commands from the files to the screen) and escaping loses nothing
      ([escape_roundtrip]); every technique of a report is in the table
      ([report_techniques_known]); collapsing and grouping show every finding exactly
      once ([collapse_exact], [grouped_view_complete]); CSV cells are no
      formulas ([csv_table_inert]); JSON objects have distinct keys
      ([finding_json_exact]).
    - Where the code departs from its documentation or intent:
      [straddling_segment_stalls], [delivered_retransmission_is_kept],
      [conflicting_extension_goes_unreported], [zero_cap_still_classifies],
      [modbus_summary_keys], [dnp3_overflow_ignores_rest],
      [enip_oversized_body_reparsed], [malformed_window_edge],
      [short_first_read_rejected], [sni_keys_collide], [huge_depth_panics].

    ** Not modelled

    Parsing of the command line by clap, the progress bar, the wording of error
    messages other than those the code itself tests, and the [Drop] tripwire and
    one-shot messages of the engine: output or library code.  Code that only
    exists under test or proof configurations is left out, except for the two
    models of the TLS proofs.  Accessors and
    the helpers named [_for_testing] have no definition of their own. *)

From Stdlib Require Export ZArith Lia.
From stdpp Require Export base numbers list gmap sorting option.

#[global] Open Scope Z_scope.

(** ** Record update

    [r <| f := v |>] is [r] with field [f] replaced.  A record type declares
    its eta expansion once ([Eta]); the updater of each field is then derived
    by abstracting that field's projection in the expansion. *)

Class Eta (R : Type) := eta_record : R → R.

Class Update {R T : Type} (p : R → T) := update_field : (T → T) → R → R.

Arguments update_field {R T} p {_} _ _ /.

Ltac derive_update :=
  match goal with
  | |- @Update ?R ?T ?p =>
      let e := constr:(_ : Eta R) in
      let g := fresh "g" in
      let r := fresh "r" in
      hnf; intros g r;
      let body := eval hnf in (e r) in
      match eval pattern (p r) in body with
      | ?k _ => let t := eval cbv beta in (k (g (p r))) in exact t
      end
  end.

#[global] Hint Extern 0 (Update _) => derive_update : typeclass_instances.

Declare Scope record_update_scope.
Notation "r <| f := v |>" := (update_field f (λ _, v) r)
  (at level 1, f at level 200, v at level 200, left associativity,
   format "r  <| f  :=  v |>") : record_update_scope.
#[global] Open Scope record_update_scope.

(** ** Panics

    The release profile of [src/Cargo.toml] sets [overflow-checks = true], so
    a plain [+], [-] or [*] that leaves its machine type panics, as do
    [unwrap] of [None], a failed [assert!] and an out-of-range slice.  A
    computation that may panic has type [option A]; [None] is the panic. *)

Abbreviation panicky A := (option A) (only parsing).

Definition u8_max : Z := 2 ^ 8 - 1.
Definition u16_max : Z := 2 ^ 16 - 1.
Definition u32_max : Z := 2 ^ 32 - 1.
Definition u64_max : Z := 2 ^ 64 - 1.
(** [usize] is 64 bits wide; a Rust slice never holds more than
    [isize::MAX] bytes. *)
Definition usize_max : Z := u64_max.
Definition isize_max : Z := 2 ^ 63 - 1.

(** [a + b] on an unsigned type with maximum [m], overflow checked. *)
Definition cadd (m a b : Z) : panicky Z :=
  if a + b <=? m then Some (a + b) else None.

(** [a - b] on an unsigned type, overflow checked. *)
Definition csub (a b : Z) : panicky Z :=
  if b <=? a then Some (a - b) else None.

(** [a * b] on an unsigned type with maximum [m], overflow checked. *)
Definition cmul (m a b : Z) : panicky Z :=
  if a * b <=? m then Some (a * b) else None.

(** [a.saturating_add(b)] and [a.saturating_sub(b)]. *)
Definition sat_add (m a b : Z) : Z := Z.min m (a + b).
Definition sat_sub (a b : Z) : Z := Z.max 0 (a - b).

(** [a.wrapping_sub(b)] on [u32]. *)
Definition wrapping_sub32 (a b : Z) : Z := (a - b) mod 2 ^ 32.

(** [u64::is_multiple_of]. *)
Definition is_multiple_of (a b : Z) : bool :=
  if b =? 0 then a =? 0 else a mod b =? 0.

(** Linear arithmetic with the machine bounds unfolded. *)
Ltac ulia :=
  unfold usize_max, isize_max, u64_max, u32_max, u16_max, u8_max in *; lia.

(** Takes the next bind of a hypothesis apart. *)
Ltac peel H :=
  let x := fresh "x" in
  let E := fresh "E" in
  apply bind_Some in H as (x & E & H);
  repeat match type of x with prod _ _ => destruct x as [x ?] end; cbn [fst snd] in *.

Lemma cadd_Some m a b : a + b ≤ m → cadd m a b = Some (a + b).
Proof. intros H. unfold cadd. by rewrite (proj2 (Z.leb_le _ _) H). Qed.

Lemma cadd_inv m a b c : cadd m a b = Some c → c = a + b ∧ a + b ≤ m.
Proof. unfold cadd. destruct (Z.leb_spec (a + b) m); naive_solver. Qed.

Lemma csub_Some a b : b ≤ a → csub a b = Some (a - b).
Proof. intros H. unfold csub. by rewrite (proj2 (Z.leb_le _ _) H). Qed.

Lemma csub_inv a b c : csub a b = Some c → c = a - b ∧ b ≤ a.
Proof. unfold csub. destruct (Z.leb_spec b a); naive_solver. Qed.

Lemma cmul_Some m a b : a * b ≤ m → cmul m a b = Some (a * b).
Proof. intros H. unfold cmul. by rewrite (proj2 (Z.leb_le _ _) H). Qed.

Lemma sat_add_0 m a : a ≤ m → sat_add m a 0 = a.
Proof. unfold sat_add. lia. Qed.

(** ** Byte sequences *)

(** [v.len()] as a [usize]. *)
Definition zlen {A} (l : list A) : Z := Z.of_nat (length l).

(** [l[i..j]]: panics unless [i <= j <= l.len()]. *)
Definition slice {A} (l : list A) (i j : Z) : panicky (list A) :=
  if (0 <=? i) && (i <=? j) && (j <=? zlen l)
  then Some (take (Z.to_nat (j - i)) (drop (Z.to_nat i) l))
  else None.

(** [l[i]]: panics when out of range. *)
Definition index {A} (l : list A) (i : Z) : panicky A :=
  if 0 <=? i then l !! Z.to_nat i else None.

(** [v.truncate(n)]. *)
Definition truncate {A} (n : Z) (l : list A) : list A := take (Z.to_nat n) l.

(** [u16::from_be_bytes([hi, lo])], at the width of [u16]. *)
Definition u16_be (hi lo : Z) : Z := (hi * 256 + lo) mod 2 ^ 16.

(** [u16::from_le_bytes([lo, hi])]. *)
Definition u16_le (lo hi : Z) : Z := u16_be hi lo.

(** [u32::from_be_bytes] and [u32::from_le_bytes]. *)
Definition u32_be (b3 b2 b1 b0 : Z) : Z :=
  (b0 + b1 * 2 ^ 8 + b2 * 2 ^ 16 + b3 * 2 ^ 24) mod 2 ^ 32.
Definition u32_le (b0 b1 b2 b3 : Z) : Z := u32_be b3 b2 b1 b0.

(** A value of type [u8], [u16], [u32]. *)
Definition is_u8 (b : Z) : Prop := 0 ≤ b ≤ u8_max.
Definition is_u16 (b : Z) : Prop := 0 ≤ b ≤ u16_max.
Definition is_u32 (b : Z) : Prop := 0 ≤ b ≤ u32_max.

Lemma u16_be_u16 hi lo : is_u16 (u16_be hi lo).
Proof. unfold is_u16, u16_be, u16_max. pose proof (Z.mod_pos_bound (hi * 256 + lo) (2 ^ 16)). lia. Qed.

Lemma u16_le_u16 lo hi : is_u16 (u16_le lo hi).
Proof. apply u16_be_u16. Qed.

Lemma u16_be_small hi lo : is_u8 hi → is_u8 lo → u16_be hi lo = hi * 256 + lo.
Proof. unfold is_u8, u8_max, u16_be. intros. apply Z.mod_small. lia. Qed.

Lemma u32_be_u32 b3 b2 b1 b0 : is_u32 (u32_be b3 b2 b1 b0).
Proof.
  unfold is_u32, u32_be, u32_max.
  match goal with |- context [?x mod _] => pose proof (Z.mod_pos_bound x (2 ^ 32)) end. lia.
Qed.

Lemma zlen_nil {A} : zlen (@nil A) = 0.
Proof. done. Qed.

Lemma zlen_cons {A} (x : A) l : zlen (x :: l) = 1 + zlen l.
Proof. unfold zlen. simpl. lia. Qed.

Lemma zlen_app {A} (l k : list A) : zlen (l ++ k) = zlen l + zlen k.
Proof. unfold zlen. rewrite length_app. lia. Qed.

Lemma zlen_nonneg {A} (l : list A) : 0 ≤ zlen l.
Proof. unfold zlen. lia. Qed.

Lemma zlen_pos {A} (l : list A) : l ≠ [] → 0 < zlen l.
Proof. destruct l; [done|]. rewrite zlen_cons. pose proof (zlen_nonneg l). lia. Qed.

(** Linear arithmetic about lengths: [zlen] is pushed through the list
    constructors and every remaining length is known to be non-negative. *)
Create Rewrite HintDb zlen.
#[export] Hint Rewrite @zlen_nil @zlen_cons @zlen_app : zlen.

Ltac note_length l :=
  lazymatch goal with
  | _ : 0 ≤ zlen l |- _ => fail
  | _ => pose proof (zlen_nonneg l)
  end.

Ltac zlia :=
  autorewrite with zlen in *;
  repeat match goal with
  | |- context [zlen ?l] => note_length l
  | _ : context [zlen ?l] |- _ => note_length l
  end; lia.

Lemma zlen_truncate {A} n (l : list A) : 0 ≤ n → zlen (truncate n l) = Z.min n (zlen l).
Proof. unfold zlen, truncate. rewrite length_take. lia. Qed.

Lemma slice_Some {A} (l : list A) i j :
  0 ≤ i → i ≤ j → j ≤ zlen l →
  slice l i j = Some (take (Z.to_nat (j - i)) (drop (Z.to_nat i) l)).
Proof.
  intros ???. unfold slice.
  rewrite !(proj2 (Z.leb_le _ _)); done.
Qed.

Lemma slice_inv {A} (l k : list A) i j :
  slice l i j = Some k →
  0 ≤ i ≤ j ∧ j ≤ zlen l ∧ zlen k = j - i ∧
  ∀ n, 0 ≤ n < j - i → k !! Z.to_nat n = l !! Z.to_nat (i + n).
Proof.
  unfold slice. destruct (_ && _) eqn:E; [|done]. intros [= <-].
  apply andb_prop in E as [[E1 E2]%andb_prop E3].
  apply Z.leb_le in E1, E2, E3.
  split; [lia|]. split; [lia|]. unfold zlen in *.
  split; [rewrite length_take, length_drop; lia|].
  intros n Hn. rewrite lookup_take, decide_True by lia.
  rewrite lookup_drop. f_equal. lia.
Qed.

Lemma slice_full {A} (l : list A) : slice l 0 (zlen l) = Some l.
Proof.
  pose proof (zlen_nonneg l). rewrite slice_Some by lia.
  rewrite Z.sub_0_r. unfold zlen. rewrite Nat2Z.id. simpl.
  by rewrite firstn_all.
Qed.

Lemma slice_suffix {A} (l : list A) n :
  0 ≤ n ≤ zlen l → slice l n (zlen l) = Some (drop (Z.to_nat n) l).
Proof.
  intros. rewrite slice_Some by lia. f_equal. apply take_ge. rewrite length_drop. unfold zlen in *. lia.
Qed.

Lemma zlen_drop {A} (l : list A) n : 0 ≤ n ≤ zlen l → zlen (drop (Z.to_nat n) l) = zlen l - n.
Proof. unfold zlen. rewrite length_drop. lia. Qed.

Lemma drop_zlen_app {A} (l k : list A) : drop (Z.to_nat (zlen l)) (l ++ k) = k.
Proof. unfold zlen. rewrite Nat2Z.id. apply drop_app_length. Qed.

Lemma take_zlen_app {A} (l k : list A) : take (Z.to_nat (zlen l)) (l ++ k) = l.
Proof. unfold zlen. rewrite Nat2Z.id. apply take_app_length. Qed.

Lemma index_Some {A} (l : list A) i : 0 ≤ i < zlen l → ∃ x, index l i = Some x.
Proof.
  intros [? Hi]. unfold index. rewrite (proj2 (Z.leb_le _ _)) by done.
  apply lookup_lt_is_Some. unfold zlen in Hi. lia.
Qed.

Lemma index_app_l {A} (l k : list A) i : 0 ≤ i < zlen l → index (l ++ k) i = index l i.
Proof.
  intros [? Hi]. unfold index. rewrite (proj2 (Z.leb_le _ _)) by done.
  apply lookup_app_l. unfold zlen in Hi. lia.
Qed.

Lemma lookup_truncate {A} n (l : list A) i :
  (i < Z.to_nat n)%nat → truncate n l !! i = l !! i.
Proof. intros. unfold truncate. by rewrite lookup_take, decide_True. Qed.

Lemma zlen_fmap {A B} (g : A → B) (l : list A) : zlen (g <$> l) = zlen l.
Proof. unfold zlen. by rewrite length_fmap. Qed.

Lemma truncate_fmap {A B} (g : A → B) n (l : list A) : truncate n (g <$> l) = g <$> truncate n l.
Proof. unfold truncate. by rewrite fmap_take. Qed.

(** ** Sums over a finite map *)

Definition map_sum {K V} `{Countable K} (f : V → Z) (m : gmap K V) : Z :=
  map_fold (λ _ v acc, f v + acc) 0 m.

Section map_sum.
Context {K V : Type} `{Countable K}.
Implicit Types (f : V → Z) (m : gmap K V).

Lemma map_sum_empty f : map_sum f (∅ : gmap K V) = 0.
Proof. done. Qed.

Lemma map_sum_insert_fresh f m k v :
  m !! k = None → map_sum f (<[k:=v]> m) = f v + map_sum f m.
Proof.
  intros Hk. unfold map_sum.
  rewrite map_fold_insert_L; [done| |done].
  intros. lia.
Qed.

Lemma map_sum_delete f m k v :
  m !! k = Some v → map_sum f (delete k m) = map_sum f m - f v.
Proof.
  intros Hk. rewrite <- (insert_delete_id m k v Hk) at 2.
  rewrite map_sum_insert_fresh by apply lookup_delete_eq. lia.
Qed.

Lemma map_sum_insert f m k v v' :
  m !! k = Some v → map_sum f (<[k:=v']> m) = map_sum f m - f v + f v'.
Proof.
  intros Hk. rewrite <- (insert_delete_eq m), map_sum_insert_fresh
    by apply lookup_delete_eq.
  rewrite (map_sum_delete _ _ _ _ Hk). lia.
Qed.

Lemma map_sum_nonneg f m :
  (∀ k v, m !! k = Some v → 0 ≤ f v) → 0 ≤ map_sum f m.
Proof.
  induction m as [|k v m Hk IH] using map_ind; intros Hf; [done|].
  rewrite map_sum_insert_fresh by done.
  assert (0 ≤ f v) by (apply (Hf k), lookup_insert_eq).
  assert (0 ≤ map_sum f m); [|lia].
  apply IH. intros k' v' Hk'. apply (Hf k').
  rewrite lookup_insert_ne; naive_solver.
Qed.

Lemma map_sum_lookup_le f m k v :
  (∀ k' v', m !! k' = Some v' → 0 ≤ f v') → m !! k = Some v → f v ≤ map_sum f m.
Proof.
  intros Hf Hk. assert (0 ≤ map_sum f (delete k m)) as Hn.
  { apply map_sum_nonneg. intros k' v' [_ ?]%lookup_delete_Some. eauto. }
  rewrite (map_sum_delete _ _ _ _ Hk) in Hn. lia.
Qed.

Lemma map_sum_ext f f' m :
  (∀ k v, m !! k = Some v → f v = f' v) → map_sum f m = map_sum f' m.
Proof.
  induction m as [|k v m Hk IH] using map_ind; intros Hf; [done|].
  rewrite !map_sum_insert_fresh by done.
  rewrite (Hf k v) by apply lookup_insert_eq. rewrite IH; [done|].
  intros k' v' Hk'. apply (Hf k'). rewrite lookup_insert_ne; naive_solver.
Qed.
Lemma map_sum_le f g m :
  (∀ k v, m !! k = Some v → 0 ≤ f v ≤ g v) → 0 ≤ map_sum f m ≤ map_sum g m.
Proof.
  intros Hle. split; [apply map_sum_nonneg; intros k v ?%Hle; lia|].
  revert Hle. induction m as [|k v m Hk IH] using map_ind; intros Hle; [done|].
  rewrite !map_sum_insert_fresh by done.
  assert (f v ≤ g v) by (eapply (Hle k), lookup_insert_eq).
  assert (map_sum f m ≤ map_sum g m); [|lia].
  apply IH. intros k' v' Hk'. apply (Hle k'). rewrite lookup_insert_ne; naive_solver.
Qed.
End map_sum.

(** [sum::<u64>()], overflow checked; the terms are unsigned, so the order of
    the map does not matter. *)
Definition checked_sum (l : list Z) : panicky Z :=
  foldl (λ acc x, n ← acc; cadd u64_max n x) (Some 0) l.

Lemma checked_sum_Some l acc :
  Forall (λ x, 0 ≤ x) l → acc + foldr Z.add 0 l ≤ u64_max →
  foldl (λ acc x, n ← acc; cadd u64_max n x) (Some acc) l = Some (acc + foldr Z.add 0 l).
Proof.
  intros Hl. revert acc. induction Hl as [|x l Hx Hl IH]; intros acc Hb; simpl in *.
  { by rewrite Z.add_0_r. }
  assert (0 ≤ foldr Z.add 0 l) by (clear - Hl; induction Hl; simpl; lia).
  rewrite cadd_Some by lia. rewrite IH by lia. f_equal. lia.
Qed.

Lemma sum_map_to_list {K V} `{Countable K} (g : V → Z) (m : gmap K V) :
  foldr Z.add 0 (g <$> (map_to_list m).*2) = map_sum g m.
Proof.
  unfold map_sum. rewrite map_fold_foldr. induction (map_to_list m) as [|[k v] l IH]; [done|].
  simpl. f_equal. exact IH.
Qed.

(** ** Ordered maps

    A [BTreeMap<u64, V>] is a [gmap Z V]; iterating it yields the entries in
    ascending key order. *)

Definition key_le {V} (x y : Z * V) : Prop := x.1 ≤ y.1.

#[global] Instance key_le_dec {V} : RelDecision (@key_le V).
Proof. intros x y. unfold key_le. apply _. Defined.

#[global] Instance key_le_total {V} : Total (@key_le V).
Proof. intros x y. unfold key_le. lia. Qed.

#[global] Instance key_le_trans {V} : Transitive (@key_le V).
Proof. intros x y z. unfold key_le. lia. Qed.

Definition btree_iter {V} (m : gmap Z V) : list (Z * V) :=
  merge_sort key_le (map_to_list m).

(** [m.range(..hi)]. *)
Definition btree_range_to {V} (m : gmap Z V) (hi : Z) : list (Z * V) :=
  filter (λ kv, kv.1 < hi) (btree_iter m).

Lemma elem_of_btree_iter {V} (m : gmap Z V) k v :
  (k, v) ∈ btree_iter m ↔ m !! k = Some v.
Proof.
  unfold btree_iter. rewrite merge_sort_Permutation. apply elem_of_map_to_list.
Qed.

Lemma elem_of_btree_range_to {V} (m : gmap Z V) hi k v :
  (k, v) ∈ btree_range_to m hi ↔ m !! k = Some v ∧ k < hi.
Proof.
  unfold btree_range_to. rewrite list_elem_of_filter, elem_of_btree_iter. simpl. tauto.
Qed.

Lemma StronglySorted_filter {A} (R : relation A) (P : A → Prop) `{∀ x, Decision (P x)} l :
  StronglySorted R l → StronglySorted R (filter P l).
Proof.
  induction 1 as [|x l HS IH HF]; [constructor|].
  rewrite filter_cons. case_decide; [|done].
  constructor; [done|]. rewrite list.Forall_forall in *.
  intros y [_ Hy]%list_elem_of_filter. auto.
Qed.

Lemma btree_range_to_sorted {V} (m : gmap Z V) hi :
  StronglySorted key_le (btree_range_to m hi).
Proof. apply StronglySorted_filter, StronglySorted_merge_sort; apply _. Qed.

(** ** Lists *)

Lemma list_ne_lookup {A} `{EqDecision A} (l k : list A) :
  length l = length k → l ≠ k → ∃ i x y, l !! i = Some x ∧ k !! i = Some y ∧ x ≠ y.
Proof.
  revert k. induction l as [|a l IH]; intros [|b k] Hlen Hne; try done.
  destruct (decide (a = b)) as [<-|Hab]; [|by exists 0%nat, a, b].
  destruct (IH k) as (i & x & y & ?); [simpl in *; lia|congruence|].
  by exists (S i), x, y.
Qed.

Lemma map_size_delete_S {K V} `{Countable K} (m : gmap K V) k v :
  m !! k = Some v → size m = S (size (delete k m)).
Proof.
  intros Hk. rewrite <- (insert_delete_id m k v Hk) at 1.
  apply map_size_insert_None, lookup_delete_eq.
Qed.

(** ** Hash maps

    A [HashMap] iterates in an unspecified order; a definition whose source
    iterates one is translated for every function that lists the entries in
    some order. *)

Class IterOrder (K V : Type) `{Countable K} := {
  map_iter : gmap K V → list (K * V);
  map_iter_perm : ∀ m, map_iter m ≡ₚ map_to_list m
}.

(** The order of [map_to_list], for concrete runs. *)
Definition list_iter_order {K V} `{Countable K} : IterOrder K V :=
  {| map_iter m := map_to_list m; map_iter_perm m := reflexivity _ |}.

(** [iter.min_by_key(f)]: the first of the smallest entries. *)
Definition keep_min {A} (f : A → Z) (best : option A) (x : A) : option A :=
  match best with
  | None => Some x
  | Some b => if f x <? f b then Some x else Some b
  end.

Definition min_by_key {A} (f : A → Z) (l : list A) : option A := foldl (keep_min f) None l.

Lemma keep_min_fold {A} (f : A → Z) (l : list A) b :
  ∃ x, foldl (keep_min f) (Some b) l = Some x ∧ x ∈ b :: l ∧ Forall (λ y, f x ≤ f y) (b :: l).
Proof.
  revert b. induction l as [|y l IH]; intros b; simpl.
  { exists b. split; [done|]. split; [set_solver|]. by repeat constructor. }
  destruct (Z.ltb_spec (f y) (f b)) as [Hlt|Hge].
  - destruct (IH y) as (x & -> & Hin & [? ?]%list.Forall_cons). exists x.
    split; [done|]. split; [set_solver|]. repeat constructor; [lia|done|done].
  - destruct (IH b) as (x & -> & Hin & [? ?]%list.Forall_cons). exists x.
    split; [done|]. split; [set_solver|]. repeat constructor; [done|lia|done].
Qed.

Lemma min_by_key_spec {A} (f : A → Z) (l : list A) :
  l ≠ [] → ∃ x, min_by_key f l = Some x ∧ x ∈ l ∧ Forall (λ y, f x ≤ f y) l.
Proof. destruct l as [|b l]; [done|]. intros _. apply keep_min_fold. Qed.

(** Making room in a bounded table: the entry of the least age goes, the first
    one in iteration order among equals. *)
Definition evict_oldest {K V} `{IterOrder K V} (age : V → Z) (m : gmap K V) : gmap K V :=
  match min_by_key (λ kv, age kv.2) (map_iter m) with
  | Some (oldest, _) => delete oldest m
  | None => m
  end.

Lemma evict_oldest_spec {K V} `{IterOrder K V} (age : V → Z) (m : gmap K V) :
  m ≠ ∅ → ∃ k v, m !! k = Some v ∧ (∀ k' v', m !! k' = Some v' → age v ≤ age v') ∧
    evict_oldest age m = delete k m.
Proof.
  intros Hm. unfold evict_oldest.
  destruct (min_by_key_spec (λ kv, age kv.2) (map_iter m)) as ([k v] & -> & Hin & Hmin).
  { intros E. pose proof (map_iter_perm m) as Hp. rewrite E in Hp.
    apply Permutation_nil_l in Hp. symmetry in Hp. by apply map_to_list_empty_iff in Hp. }
  rewrite map_iter_perm in Hin, Hmin. apply elem_of_map_to_list in Hin.
  exists k, v. split_and!; [done| |done]. intros k' v' Hk'.
  rewrite list.Forall_forall in Hmin. by apply (Hmin (k', v')), elem_of_map_to_list.
Qed.

Lemma evict_oldest_size {K V} `{IterOrder K V} (age : V → Z) (m : gmap K V) :
  m ≠ ∅ → S (size (evict_oldest age m)) = size m.
Proof.
  intros Hm. destruct (evict_oldest_spec age m Hm) as (k & v & Hk & _ & ->).
  symmetry. by apply map_size_delete_S with v.
Qed.

Lemma evict_oldest_subseteq {K V} `{IterOrder K V} (age : V → Z) (m : gmap K V) :
  evict_oldest age m ⊆ m.
Proof.
  unfold evict_oldest. destruct (min_by_key _ _) as [[k v]|]; [apply delete_subseteq|done].
Qed.

(** The table with room for [k], and that the insertion stays within the cap. *)
Definition make_room {K V} `{IterOrder K V} (age : V → Z) (cap : Z) (m : gmap K V) (k : K) : gmap K V :=
  if bool_decide (m !! k = None) && (cap <=? Z.of_nat (size m)) then evict_oldest age m else m.

Lemma make_room_known {K V} `{IterOrder K V} (age : V → Z) cap (m : gmap K V) k v :
  m !! k = Some v → make_room age cap m k = m.
Proof. intros E. unfold make_room. by rewrite E. Qed.

Lemma make_room_cap {K V} `{IterOrder K V} (age : V → Z) cap (m : gmap K V) k v :
  0 < cap → Z.of_nat (size m) ≤ cap → Z.of_nat (size (<[k := v]> (make_room age cap m k))) ≤ cap.
Proof.
  intros Hc Hm. unfold make_room. destruct (bool_decide_reflect (m !! k = None)) as [E|E]; cbn [andb].
  2:{ rewrite map_size_insert_Some; [done|]. by apply not_eq_None_Some. }
  destruct (Z.leb_spec cap (Z.of_nat (size m))) as [Hle|Hlt].
  - assert (m ≠ ∅) as Hne by (intros ->; rewrite map_size_empty in Hle; lia).
    rewrite map_size_insert_None, <- (evict_oldest_size age m Hne) in *; [lia|].
    by eapply lookup_weaken_None, evict_oldest_subseteq.
  - rewrite map_size_insert_None by done. lia.
Qed.

(** ** Counters kept in a map *)

(** [*counts.entry(key).or_insert(0) += 1], overflow checked. *)
Definition bump_count (counts : gmap Z Z) (key : Z) : panicky (gmap Z Z) :=
  n ← cadd u64_max (default 0 (counts !! key)) 1;
  Some (<[key := n]> counts).

(** A counter that was never touched is 0. *)
Definition fcount (m : gmap Z Z) (key : Z) : Z := default 0 (m !! key).

Lemma bump_count_inv m key m' :
  bump_count m key = Some m' →
  ∀ k, fcount m' k = fcount m k + if decide (k = key) then 1 else 0.
Proof.
  unfold bump_count. destruct (cadd _ _ _) as [n|] eqn:E; [|done]. cbn [mbind option_bind].
  intros [= <-] k. apply cadd_inv in E as [-> _]. unfold fcount. case_decide as Ed.
  - subst. by rewrite lookup_insert_eq.
  - rewrite lookup_insert_ne by done. lia.
Qed.

Lemma bump_count_Some m key :
  fcount m key < u64_max →
  ∃ m', bump_count m key = Some m' ∧ ∀ k, fcount m' k = fcount m k + if decide (k = key) then 1 else 0.
Proof.
  intros H. destruct (bump_count m key) as [m'|] eqn:E.
  - exists m'. split; [done|]. by apply bump_count_inv.
  - unfold bump_count, fcount in *. rewrite cadd_Some in E by lia. done.
Qed.

Lemma bump_count_sum m key m' :
  bump_count m key = Some m' → map_sum id m' = map_sum id m + 1.
Proof.
  unfold bump_count. destruct (cadd _ _ _) as [n|] eqn:E; [|done]. cbn [mbind option_bind].
  intros [= <-]. apply cadd_inv in E as [-> _].
  destruct (m !! key) as [v|] eqn:Ev; simpl.
  - rewrite (map_sum_insert _ _ _ _ _ Ev). unfold id. lia.
  - rewrite map_sum_insert_fresh by done. unfold id. lia.
Qed.

Lemma bump_count_nonneg m key m' :
  bump_count m key = Some m' → (∀ k, 0 ≤ fcount m k) → ∀ k, 0 ≤ fcount m' k.
Proof. intros E H k. rewrite (bump_count_inv _ _ _ E). specialize (H k). case_decide; lia. Qed.

Lemma fcount_le_sum m key : (∀ k, 0 ≤ fcount m k) → fcount m key ≤ map_sum id m.
Proof.
  intros H. assert (∀ k v, m !! k = Some v → 0 ≤ id v) as Hn.
  { intros k v Hk. specialize (H k). unfold fcount in H. by rewrite Hk in H. }
  unfold fcount. destruct (m !! key) as [v|] eqn:E; simpl.
  - exact (map_sum_lookup_le id m key v Hn E).
  - by apply map_sum_nonneg.
Qed.

(** The checked sum of the counters. *)
Lemma checked_sum_counts m :
  (∀ k, 0 ≤ fcount m k) → map_sum id m ≤ u64_max →
  checked_sum (map_to_list m).*2 = Some (map_sum id m).
Proof.
  intros H Hle. unfold checked_sum. rewrite <- (list_fmap_id (map_to_list m).*2).
  rewrite checked_sum_Some; rewrite ?sum_map_to_list; [done| |done].
  apply list.Forall_fmap, list.Forall_fmap, list.Forall_forall. intros [k v] Hin. simpl.
  apply elem_of_map_to_list in Hin. specialize (H k). unfold fcount in H. by rewrite Hin in H.
Qed.

(** ** Streams of frames *)

(** Cutting a stream of frames anywhere leaves frames and a partial frame,
    for frames whose proper prefixes are partial. *)
Lemma cut_frames {A} (frame partial : list A → Prop) frames s t q :
  partial [] → (∀ u x v, frame (u ++ x :: v) → partial u) →
  (∀ u v, partial (u ++ v) → partial u) →
  Forall frame frames → partial q → s ++ t = concat frames ++ q →
  ∃ fs fs' p, frames = fs ++ fs' ∧ s = concat fs ++ p ∧ p ++ t = concat fs' ++ q ∧ partial p.
Proof.
  intros Hnil Hpre Hcl Hv Hq. revert s. induction frames as [|fr frames IH]; intros s Hs.
  { exists [], [], s. split_and!; [done..|]. apply (Hcl s t). by rewrite Hs. }
  apply list.Forall_cons in Hv as [Hfr Hv]. cbn [concat] in Hs. rewrite <- app_assoc in Hs.
  apply app_eq_inv in Hs as [(k & -> & Ht)|(k & Hs & Ht)].
  - destruct (IH Hv k) as (fs & fs' & p & -> & -> & Ep & Hp); [done|].
    exists (fr :: fs), fs', p. split_and!; try done. cbn [concat]. by rewrite app_assoc.
  - destruct k as [|x k].
    + rewrite app_nil_r in Hs. subst s. exists [fr], frames, [].
      split_and!; [done|by rewrite app_nil_r; cbn; rewrite app_nil_r|by rewrite Ht|done].
    + exists [], (fr :: frames), s. split_and!; [done|done| |].
      * cbn [concat]. by rewrite Hs, Ht, !app_assoc.
      * apply (Hpre s x k). by rewrite <- Hs.
Qed.
