(* ===== verification/FlowKey.v ===== *)
(** * Endpoints and the canonical flow key (src/reassembly/flow.rs)

    [IpAddr] with its derived total order and [FlowKey], the unordered
    4-tuple that both directions of a connection share. *)

From S2P Require Import Prelude.

(** [std::net::IpAddr]: an IPv4 address is a 32-bit, an IPv6 address a
    128-bit number in network order, so the octet-wise order of the standard
    library is the numeric order. *)
Inductive IpAddr :=
  | V4 (a : Z)
  | V6 (a : Z).

#[global] Instance IpAddr_eq_dec : EqDecision IpAddr.
Proof. solve_decision. Defined.

#[global] Instance IpAddr_countable : Countable IpAddr.
Proof.
  apply (inj_countable'
    (λ ip, match ip with V4 a => inl a | V6 a => inr a end)
    (λ s, match s with inl a => V4 a | inr a => V6 a end)).
  by intros [].
Defined.

(** The derived order: every [V4] is below every [V6]. *)
Definition ip_cmp (x y : IpAddr) : comparison :=
  match x, y with
  | V4 a, V4 b => Z.compare a b
  | V4 _, V6 _ => Lt
  | V6 _, V4 _ => Gt
  | V6 a, V6 b => Z.compare a b
  end.

(** The tuple order of [(ip, port) <= (ip, port)]. *)
Definition endpoint_cmp (x y : IpAddr * Z) : comparison :=
  match ip_cmp x.1 y.1 with
  | Eq => Z.compare x.2 y.2
  | c => c
  end.

Definition endpoint_le (x y : IpAddr * Z) : bool :=
  match endpoint_cmp x y with Gt => false | _ => true end.

Record FlowKey := mkFlowKey {
  lower_ip : IpAddr;
  lower_port : Z;
  upper_ip : IpAddr;
  upper_port : Z
}.

#[global] Instance FlowKey_eq_dec : EqDecision FlowKey.
Proof. solve_decision. Defined.

#[global] Instance FlowKey_countable : Countable FlowKey.
Proof.
  apply (inj_countable'
    (λ k, (lower_ip k, lower_port k, upper_ip k, upper_port k))
    (λ '(a, b, c, d), mkFlowKey a b c d)).
  by intros [].
Defined.

Definition FlowKey_new (ip_a : IpAddr) (port_a : Z) (ip_b : IpAddr) (port_b : Z) : FlowKey :=
  if endpoint_le (ip_a, port_a) (ip_b, port_b)
  then mkFlowKey ip_a port_a ip_b port_b
  else mkFlowKey ip_b port_b ip_a port_a.

Definition lower_end (k : FlowKey) : IpAddr * Z := (lower_ip k, lower_port k).
Definition upper_end (k : FlowKey) : IpAddr * Z := (upper_ip k, upper_port k).

(** ** The order is total and antisymmetric *)

Lemma ip_cmp_eq x y : ip_cmp x y = Eq ↔ x = y.
Proof.
  destruct x, y; simpl; rewrite ?Z.compare_eq_iff; naive_solver.
Qed.

Lemma ip_cmp_antisym x y : ip_cmp y x = CompOpp (ip_cmp x y).
Proof. destruct x, y; simpl; auto using Z.compare_antisym. Qed.

Lemma endpoint_cmp_eq x y : endpoint_cmp x y = Eq ↔ x = y.
Proof.
  unfold endpoint_cmp. destruct x as [i p], y as [j q]; simpl.
  destruct (ip_cmp i j) eqn:E; rewrite ?Z.compare_eq_iff.
  - apply ip_cmp_eq in E as ->. naive_solver.
  - split; [done|]. intros [= -> ->]. by rewrite (proj2 (ip_cmp_eq j j)) in E.
  - split; [done|]. intros [= -> ->]. by rewrite (proj2 (ip_cmp_eq j j)) in E.
Qed.

Lemma endpoint_cmp_antisym x y : endpoint_cmp y x = CompOpp (endpoint_cmp x y).
Proof.
  unfold endpoint_cmp. rewrite (ip_cmp_antisym x.1 y.1).
  destruct (ip_cmp x.1 y.1); simpl; auto using Z.compare_antisym.
Qed.

Lemma endpoint_le_total x y : endpoint_le x y || endpoint_le y x.
Proof.
  unfold endpoint_le. rewrite (endpoint_cmp_antisym x y).
  by destruct (endpoint_cmp x y).
Qed.

Lemma endpoint_le_antisym x y : endpoint_le x y → endpoint_le y x → x = y.
Proof.
  unfold endpoint_le. rewrite (endpoint_cmp_antisym x y).
  destruct (endpoint_cmp x y) eqn:E; simpl; try done.
  intros _ _. by apply endpoint_cmp_eq.
Qed.

Lemma FlowKey_new_ends a p b q :
  let k := FlowKey_new a p b q in
  (lower_end k = (a, p) ∧ upper_end k = (b, q)) ∨
  (lower_end k = (b, q) ∧ upper_end k = (a, p)).
Proof. unfold FlowKey_new. destruct (endpoint_le _ _); auto. Qed.

Lemma FlowKey_new_comm a p b q : FlowKey_new a p b q = FlowKey_new b q a p.
Proof.
  unfold FlowKey_new.
  destruct (endpoint_le (a, p) (b, q)) eqn:E1, (endpoint_le (b, q) (a, p)) eqn:E2; try done.
  - apply Is_true_true in E1, E2.
    by pose proof (endpoint_le_antisym _ _ E1 E2) as [= -> ->].
  - pose proof (endpoint_le_total (a, p) (b, q)) as T. by rewrite E1, E2 in T.
Qed.

Lemma FlowKey_new_ordered a p b q :
  endpoint_le (lower_end (FlowKey_new a p b q)) (upper_end (FlowKey_new a p b q)).
Proof.
  unfold FlowKey_new. destruct (endpoint_le (a, p) (b, q)) eqn:E.
  - unfold lower_end, upper_end. simpl. by rewrite E.
  - pose proof (endpoint_le_total (a, p) (b, q)) as T. rewrite E in T. exact T.
Qed.

(** [FlowKey::new] is a canonical form: two packets get the same key exactly
    when they have the same unordered pair of (address, port) endpoints, the
    address and the port of an endpoint staying paired; and the stored pair is
    ordered. *)
Theorem FlowKey_canonical a p b q c r d s :
  (FlowKey_new a p b q = FlowKey_new c r d s ↔
     ((a, p) = (c, r) ∧ (b, q) = (d, s)) ∨ ((a, p) = (d, s) ∧ (b, q) = (c, r))) ∧
  endpoint_le (lower_end (FlowKey_new a p b q)) (upper_end (FlowKey_new a p b q)).
Proof.
  split; [|apply FlowKey_new_ordered]. split.
  - intros E. pose proof (FlowKey_new_ends a p b q) as H1.
    pose proof (FlowKey_new_ends c r d s) as H2. rewrite E in H1.
    simpl in *. destruct H1 as [[]|[]], H2 as [[]|[]]; (left + right); split; congruence.
  - intros [[[= -> ->] [= -> ->]]|[[= -> ->] [= -> ->]]]; [done|].
    apply FlowKey_new_comm.
Qed.
