(* ===== verification/Handler.v ===== *)
(** * Stream events and the handler interface (src/reassembly/handler.rs)

    [StreamHandler] is the callback surface of the reassembly engine.  The
    engine is parametric in it; [trace] is the handler that records the events
    it is given, and every other handler is a fold over that record. *)

From S2P Require Import Prelude FlowKey.

Inductive Direction :=
  | ClientToServer
  | ServerToClient.

#[global] Instance Direction_eq_dec : EqDecision Direction.
Proof. solve_decision. Defined.

Inductive CloseReason :=
  | Fin
  | Rst
  | Timeout
  | MemoryPressure.

#[global] Instance CloseReason_eq_dec : EqDecision CloseReason.
Proof. solve_decision. Defined.

(** The trait: [&mut self] is state passing on [H]. *)
Class StreamHandler (H : Type) := {
  on_data : H → FlowKey → Direction → list Z → Z → Z → H;
  on_flow_close : H → FlowKey → CloseReason → H
}.

(** ** Recording the calls *)

Inductive event :=
  | EData (key : FlowKey) (dir : Direction) (data : list Z) (offset timestamp : Z)
  | EClose (key : FlowKey) (reason : CloseReason).

#[global] Instance event_eq_dec : EqDecision event.
Proof. solve_decision. Defined.

(** Oldest event first. *)
Abbreviation trace := (list event).

#[global] Instance trace_handler : StreamHandler trace := {
  on_data h key dir data offset ts := h ++ [EData key dir data offset ts];
  on_flow_close h key reason := h ++ [EClose key reason]
}.

(** One call on an arbitrary handler, and a sequence of them. *)
Definition replay1 {H} `{StreamHandler H} (h : H) (e : event) : H :=
  match e with
  | EData key dir data offset ts => on_data h key dir data offset ts
  | EClose key reason => on_flow_close h key reason
  end.

Definition replay {H} `{StreamHandler H} (h : H) (es : trace) : H := foldl replay1 h es.

Lemma replay_app {H} `{StreamHandler H} (h : H) es1 es2 :
  replay h (es1 ++ es2) = replay (replay h es1) es2.
Proof. apply foldl_app. Qed.

Lemma replay_trace (t es : trace) : replay t es = t ++ es.
Proof.
  revert t. unfold replay. induction es as [|e es IH]; intros t; simpl.
  - by rewrite app_nil_r.
  - rewrite IH. destruct e; simpl; by rewrite <- app_assoc.
Qed.

(** Bytes delivered by an event and by a trace. *)
Definition event_bytes (e : event) : Z :=
  match e with EData _ _ data _ _ => zlen data | EClose _ _ => 0 end.

Definition trace_bytes (es : trace) : Z := foldr (λ e n, event_bytes e + n) 0 es.

Lemma event_bytes_nonneg e : 0 ≤ event_bytes e.
Proof. destruct e; [apply zlen_nonneg|done]. Qed.

Lemma trace_bytes_nonneg es : 0 ≤ trace_bytes es.
Proof. induction es as [|e es IH]; simpl; [done|]. pose proof (event_bytes_nonneg e). lia. Qed.

Lemma trace_bytes_cons e es : trace_bytes (e :: es) = event_bytes e + trace_bytes es.
Proof. done. Qed.

Lemma trace_bytes_app es1 es2 : trace_bytes (es1 ++ es2) = trace_bytes es1 + trace_bytes es2.
Proof. induction es1 as [|e es1 IH]; simpl; [done|]. rewrite IH. lia. Qed.

(** An invariant of the deliveries, indexed by the bytes delivered so far and
    good for at most [B] of them, holds along every trace. *)
Lemma replay_preserves {A} `{StreamHandler (option A)} (B : Z) (I : Z → A → Prop) es n a :
  (∀ n a k dir data off ts, I n a → n + zlen data ≤ B →
    ∃ a', on_data (Some a) k dir data off ts = Some a' ∧ I (n + zlen data) a') →
  (∀ n a k r, I n a → ∃ a', on_flow_close (Some a) k r = Some a' ∧ I n a') →
  I n a → n + trace_bytes es ≤ B →
  ∃ a', replay (Some a) es = Some a' ∧ I (n + trace_bytes es) a'.
Proof.
  intros Hdata Hclose. revert n a. induction es as [|e es IH]; intros n a Ha Hn.
  { exists a. split; [done|]. cbn [trace_bytes foldr]. by rewrite Z.add_0_r. }
  rewrite trace_bytes_cons in *. pose proof (trace_bytes_nonneg es).
  unfold replay in *. destruct e as [k dir data off ts|k reason]; cbn [event_bytes foldl replay1] in *.
  - destruct (Hdata n a k dir data off ts Ha) as (a1 & -> & H1); [lia|].
    rewrite Z.add_assoc. apply IH; [done|lia].
  - destruct (Hclose n a k reason Ha) as (a1 & -> & H1). apply IH; [done|lia].
Qed.

(** The same for an invariant that needs the deliveries themselves to satisfy
    [Q]. *)
Lemma replay_invariant {A} `{StreamHandler (option A)} (Q : event → Prop) (I : A → Prop) es a :
  (∀ a e, I a → Q e → ∃ a', replay1 (Some a) e = Some a' ∧ I a') →
  Forall Q es → I a → ∃ a', replay (Some a) es = Some a' ∧ I a'.
Proof.
  intros Hstep Hes. revert a. induction Hes as [|e es He Hes IH]; intros a Ha; [by exists a|].
  unfold replay in *. cbn [foldl]. destruct (Hstep a e Ha He) as (a1 & -> & H1). by apply IH.
Qed.

(** The deliveries of a trace are bytes. *)
Definition event_u8 (e : event) : Prop :=
  match e with EData _ _ data _ _ => Forall is_u8 data | EClose _ _ => True end.

#[global] Instance event_u8_dec e : Decision (event_u8 e).
Proof. destruct e; simpl; unfold is_u8; apply _. Defined.
