(* ===== verification/Findings.v ===== *)
(** * Findings (src/findings.rs) and decoded packets (src/decoder.rs)

    The record every analyzer emits.  A [format!] string is kept as the list
    of its literal pieces and formatted arguments. *)

From stdpp Require Export strings pretty.
From S2P Require Import Prelude FlowKey Handler.

#[global] Open Scope Z_scope.

Inductive Verdict := Likely | Unlikely | Inconclusive | Possible.
Inductive Confidence := High | Medium | Low.
Inductive ThreatCategory :=
  | Reconnaissance | LateralMovement | C2 | Exfiltration | CredentialAccess
  | Persistence | Execution | Anomaly | Suspicious | Impact.

#[global] Instance Verdict_eq_dec : EqDecision Verdict.
Proof. solve_decision. Defined.
#[global] Instance Confidence_eq_dec : EqDecision Confidence.
Proof. solve_decision. Defined.
#[global] Instance ThreatCategory_eq_dec : EqDecision ThreatCategory.
Proof. solve_decision. Defined.

(** A piece of a [format!] string: literal text, a decimal number ([{}]), a
    hexadecimal number of a given width ([0x{:02X}] and, in lower case,
    [{:#04x}]), a flow key, an address. *)
Inductive fmt :=
  | Lit (s : string)
  | Num (n : Z)
  | Hex (width n : Z)
  | HexLower (width n : Z)
  | FKey (k : FlowKey)
  | FIp (ip : IpAddr).

#[global] Instance fmt_eq_dec : EqDecision fmt.
Proof. solve_decision. Defined.

Abbreviation text := (list fmt).

(** [timestamp] holds the capture second that [DateTime::from_timestamp] is
    applied to. *)
Record Finding := mkFinding {
  category : ThreatCategory;
  verdict : Verdict;
  confidence : Confidence;
  summary : text;
  evidence : list text;
  mitre_techniques : list string;
  source_ip : option IpAddr;
  timestamp : option Z;
  direction : option Direction
}.

#[global] Instance Finding_eta : Eta Finding := λ f,
  mkFinding (category f) (verdict f) (confidence f) (summary f) (evidence f)
    (mitre_techniques f) (source_ip f) (timestamp f) (direction f).

#[global] Instance Finding_eq_dec : EqDecision Finding.
Proof. solve_decision. Defined.

(** ** Numbers as text *)

Definition hex_digit (n : Z) : string :=
  match n with
  | 0 => "0" | 1 => "1" | 2 => "2" | 3 => "3" | 4 => "4" | 5 => "5" | 6 => "6" | 7 => "7"
  | 8 => "8" | 9 => "9" | 10 => "A" | 11 => "B" | 12 => "C" | 13 => "D" | 14 => "E" | _ => "F"
  end%string.

(** [{:02X}] and [0x{:02X}] of a byte. *)
Definition hex_pair (n : Z) : string := (hex_digit (n / 16) +:+ hex_digit (n mod 16))%string.

Definition hex_byte (n : Z) : string := ("0x" +:+ hex_pair n)%string.

(** [format!("0x{cmd:04X}")] of a 16-bit number. *)
Definition hex_word (n : Z) : string :=
  ("0x" +:+ hex_digit (n / 4096) +:+ hex_digit ((n / 256) mod 16)
     +:+ hex_digit ((n / 16) mod 16) +:+ hex_digit (n mod 16))%string.

(** [n.to_string()] of an unsigned number. *)
Definition decimal (n : Z) : string := pretty (Z.to_N n).

(** [s.contains(sub)]; on UTF-8 this is containment of the bytes. *)
Definition contains (sub s : string) : bool :=
  match String.index 0 sub s with Some _ => true | None => false end.

(** ** What the decoder hands to the pipeline *)

Inductive Protocol :=
  | PTcp
  | PUdp
  | PIcmp
  | POther (n : Z).

#[global] Instance Protocol_eq_dec : EqDecision Protocol.
Proof. solve_decision. Defined.

Inductive TransportInfo :=
  | TTcp (src_port dst_port seq_number : Z) (syn ack fin rst : bool)
  | TUdp (src_port dst_port : Z)
  | TNone.

Record ParsedPacket := mkPacket {
  src_ip : IpAddr;
  dst_ip : IpAddr;
  protocol : Protocol;
  transport : TransportInfo;
  payload : list Z;
  packet_len : Z
}.

(** [[u8; 4]] and [[u8; 6]]. *)
Abbreviation Ip4 := (Z * Z * Z * Z)%type.
Abbreviation Mac := (Z * Z * Z * Z * Z * Z)%type.

Record ArpFrame := mkArpFrame {
  operation : Z;
  sender_mac : Mac;
  sender_ip : Ip4;
  target_mac : Mac;
  target_ip : Ip4;
  outer_src_mac : option Mac;
  arp_packet_len : Z
}.

(** ** Analyzer summaries (src/analyzer/mod.rs)

    [detail] is a [BTreeMap<String, serde_json::Value>]; of JSON values the
    modelled analyzers use numbers, strings, arrays of strings, objects whose
    values are numbers, and objects of such values. *)

Inductive json :=
  | JNum (n : Z)
  | JStr (s : string)
  | JArr (l : list string)
  | JObj (m : gmap string Z)
  | JMap (fields : list (string * json)).

Record AnalysisSummary := mkSummary {
  analyzer_name : string;
  packets_analyzed : Z;
  detail : gmap string json
}.
