(* ===== verification/Flow.v ===== *)
(** * Per-flow state and the TCP state machine (src/reassembly/flow.rs) *)

From S2P Require Import Prelude FlowKey Handler.

Inductive FlowState :=
  | New
  | SynSent
  | Established
  | Closing
  | Closed.

#[global] Instance FlowState_eq_dec : EqDecision FlowState.
Proof. solve_decision. Defined.

Record FlowDirection := mkFlowDirection {
  isn : option Z;
  base_offset : Z;
  segments : gmap Z (list Z);
  buffered_bytes : Z;
  reassembled_bytes : Z;
  overlap_count : Z;
  overlap_alert_fired : bool;
  small_segment_run : Z;
  small_segment_alert_fired : bool;
  out_of_window_count : Z;
  out_of_window_alert_fired : bool;
  fin_seen : bool;
  rst_seen : bool;
  depth_exceeded : bool
}.

#[global] Instance FlowDirection_eta : Eta FlowDirection := λ d,
  mkFlowDirection (isn d) (base_offset d) (segments d) (buffered_bytes d)
    (reassembled_bytes d) (overlap_count d) (overlap_alert_fired d)
    (small_segment_run d) (small_segment_alert_fired d) (out_of_window_count d)
    (out_of_window_alert_fired d) (fin_seen d) (rst_seen d) (depth_exceeded d).

Definition FlowDirection_new : FlowDirection := {|
  isn := None;
  base_offset := 0;
  segments := ∅;
  buffered_bytes := 0;
  reassembled_bytes := 0;
  overlap_count := 0;
  overlap_alert_fired := false;
  small_segment_run := 0;
  small_segment_alert_fired := false;
  out_of_window_count := 0;
  out_of_window_alert_fired := false;
  fin_seen := false;
  rst_seen := false;
  depth_exceeded := false
|}.

Definition set_isn (d : FlowDirection) (isn' : Z) : FlowDirection :=
  match isn d with
  | None => d <| isn := Some isn' |> <| base_offset := 1 |>
  | Some _ => d
  end.

Definition infer_isn (d : FlowDirection) (first_seq : Z) : FlowDirection :=
  match isn d with
  | None => d <| isn := Some (wrapping_sub32 first_seq 1) |> <| base_offset := 1 |>
  | Some _ => d
  end.

(** [FlowDirection::memory_used]; the [debug_assert_eq!] is compiled out. *)
Definition dir_memory_used (d : FlowDirection) : Z := buffered_bytes d.

Record TcpFlow := mkTcpFlow {
  key : FlowKey;
  client_to_server : FlowDirection;
  server_to_client : FlowDirection;
  state : FlowState;
  partial : bool;
  first_seen : Z;
  last_seen : Z;
  last_activity_index : Z;
  initiator : option (IpAddr * Z);
  fin_count : Z
}.

#[global] Instance TcpFlow_eta : Eta TcpFlow := λ f,
  mkTcpFlow (key f) (client_to_server f) (server_to_client f) (state f) (partial f)
    (first_seen f) (last_seen f) (last_activity_index f) (initiator f) (fin_count f).

Definition TcpFlow_new (k : FlowKey) (timestamp : Z) : TcpFlow := {|
  key := k;
  client_to_server := FlowDirection_new;
  server_to_client := FlowDirection_new;
  state := New;
  partial := false;
  first_seen := timestamp;
  last_seen := timestamp;
  last_activity_index := 0;
  initiator := None;
  fin_count := 0
|}.

Definition set_initiator (f : TcpFlow) (ip : IpAddr) (port : Z) : TcpFlow :=
  match initiator f with
  | None => f <| initiator := Some (ip, port) |>
  | Some _ => f
  end.

Definition flow_direction (f : TcpFlow) (src_ip : IpAddr) (src_port : Z) : Direction :=
  if decide (initiator f = Some (src_ip, src_port))
  then ClientToServer
  else ServerToClient.

(** [get_direction_mut] is a reference into the flow: its read and its write. *)
Definition get_direction (f : TcpFlow) (dir : Direction) : FlowDirection :=
  match dir with
  | ClientToServer => client_to_server f
  | ServerToClient => server_to_client f
  end.

Definition set_direction (f : TcpFlow) (dir : Direction) (d : FlowDirection) : TcpFlow :=
  match dir with
  | ClientToServer => f <| client_to_server := d |>
  | ServerToClient => f <| server_to_client := d |>
  end.

Definition on_syn (f : TcpFlow) : TcpFlow :=
  if decide (state f = New) then f <| state := SynSent |> else f.

Definition on_syn_ack (f : TcpFlow) : TcpFlow :=
  if decide (state f = SynSent ∨ state f = New) then f <| state := Established |> else f.

Definition on_data_without_syn (f : TcpFlow) : TcpFlow :=
  if decide (state f = New)
  then f <| state := Established |> <| partial := true |>
  else f.

Definition on_fin (f : TcpFlow) : TcpFlow :=
  let f := f <| fin_count := sat_add u8_max (fin_count f) 1 |> in
  if 2 <=? fin_count f then f <| state := Closed |>
  else if decide (state f = Established ∨ state f = SynSent) then f <| state := Closing |>
  else f.

Definition on_rst (f : TcpFlow) : TcpFlow := f <| state := Closed |>.

(** [TcpFlow::memory_used]. *)
Definition memory_used (f : TcpFlow) : panicky Z :=
  cadd usize_max (dir_memory_used (client_to_server f)) (dir_memory_used (server_to_client f)).

(** ** Frame lemmas *)

Lemma get_set_direction f dir d : get_direction (set_direction f dir d) dir = d.
Proof. by destruct dir. Qed.

Lemma get_set_direction_ne f dir dir' d :
  dir ≠ dir' → get_direction (set_direction f dir d) dir' = get_direction f dir'.
Proof. by destruct dir, dir'. Qed.

Lemma get_direction_set_initiator f ip p dir :
  get_direction (set_initiator f ip p) dir = get_direction f dir.
Proof. unfold set_initiator. by destruct (initiator f), dir. Qed.

Lemma get_direction_on_syn f dir : get_direction (on_syn f) dir = get_direction f dir.
Proof. unfold on_syn. by case_decide; destruct dir. Qed.

Lemma get_direction_on_syn_ack f dir : get_direction (on_syn_ack f) dir = get_direction f dir.
Proof. unfold on_syn_ack. by case_decide; destruct dir. Qed.

Lemma get_direction_on_data_without_syn f dir :
  get_direction (on_data_without_syn f) dir = get_direction f dir.
Proof. unfold on_data_without_syn. by case_decide; destruct dir. Qed.

Lemma get_direction_on_fin f dir : get_direction (on_fin f) dir = get_direction f dir.
Proof. unfold on_fin. repeat case_match; by destruct dir. Qed.

Create Rewrite HintDb flow.
#[export] Hint Rewrite get_set_direction get_direction_set_initiator get_direction_on_syn
  get_direction_on_syn_ack get_direction_on_data_without_syn get_direction_on_fin : flow.

(** ** The flow state machine *)

(** The transitions a packet can cause. *)
Inductive flow_event := FSyn | FSynAck | FDataWithoutSyn | FFin | FRst.

#[global] Instance flow_event_eq_dec : EqDecision flow_event.
Proof. solve_decision. Defined.

Definition apply_event (f : TcpFlow) (e : flow_event) : TcpFlow :=
  match e with
  | FSyn => on_syn f
  | FSynAck => on_syn_ack f
  | FDataWithoutSyn => on_data_without_syn f
  | FFin => on_fin f
  | FRst => on_rst f
  end.

(** *** What a list of events amounts to, read off the list *)

Definition opening (e : flow_event) : bool :=
  match e with FSyn | FSynAck | FDataWithoutSyn => true | FFin | FRst => false end.

(** The state a handshake has reached, from its opening events alone. *)
Definition handshake_state (os : list flow_event) : FlowState :=
  match os with
  | [] => New
  | FSyn :: rest => if decide (FSynAck ∈ rest) then Established else SynSent
  | _ => Established
  end.

Definition fins (es : list flow_event) : Z := zlen (filter (λ e, e = FFin) es).

(** The state after a whole history: a reset or a second FIN closes; a single
    FIN half-closes unless it came before anything else; otherwise the opening
    events decide. *)
Definition history_state (es : list flow_event) : FlowState :=
  if decide (FRst ∈ es ∨ 2 ≤ fins es) then Closed
  else if decide (fins es = 1 ∧ head es ≠ Some FFin) then Closing
  else handshake_state (filter opening es).

(** The flow is mid-stream when data came before any handshake (a lone FIN
    before it opens nothing). *)
Definition history_partial (es : list flow_event) : bool :=
  match es with
  | FDataWithoutSyn :: _ | FFin :: FDataWithoutSyn :: _ => true
  | _ => false
  end.

(** Position of a state along New, SynSent, Established, Closing, Closed. *)
Definition state_rank (s : FlowState) : Z :=
  match s with New => 0 | SynSent => 1 | Established => 2 | Closing => 3 | Closed => 4 end.

Definition fin_inv (f : TcpFlow) : Prop :=
  0 ≤ fin_count f ≤ u8_max ∧
  (2 ≤ fin_count f → state f = Closed) ∧
  (state f = Closing → fin_count f = 1).

Lemma apply_event_fin_inv f e : fin_inv f → fin_inv (apply_event f e).
Proof.
  destruct f as [k c s st pa fs ls la ini fc]. unfold fin_inv, u8_max. simpl.
  intros (H1 & H2 & H3).
  destruct e, st; simpl;
    unfold on_syn, on_syn_ack, on_data_without_syn, on_fin, on_rst, sat_add, u8_max; simpl;
    repeat (case_decide; simpl);
    try (destruct (Z.leb_spec 2 (Z.min (2 ^ 8 - 1) (fc + 1))); simpl;
         repeat (case_decide; simpl));
    intuition (try congruence; try lia).
Qed.

Lemma apply_event_rank f e :
  state_rank (state f) ≤ state_rank (state (apply_event f e)).
Proof.
  destruct f as [k c s st pa fs ls la ini fc]; destruct e, st;
    unfold apply_event, on_syn, on_syn_ack, on_data_without_syn, on_fin, on_rst;
    simpl; repeat case_decide; try destruct (2 <=? _); simpl; try lia; exfalso; tauto || naive_solver.
Qed.

Lemma foldl_event_rank es f :
  state_rank (state f) ≤ state_rank (state (foldl apply_event f es)).
Proof.
  revert f. induction es as [|e es IH]; intros f; simpl; [lia|].
  pose proof (apply_event_rank f e). pose proof (IH (apply_event f e)). lia.
Qed.

Lemma fins_app es es' : fins (es ++ es') = fins es + fins es'.
Proof. unfold fins. by rewrite list.filter_app, zlen_app. Qed.

Lemma fins_nonneg es : 0 ≤ fins es.
Proof. apply zlen_nonneg. Qed.

(** Events that are neither a reset nor a FIN are opening events. *)
Lemma opening_only es : FRst ∉ es → fins es = 0 → filter opening es = es.
Proof.
  induction es as [|e es IH]; intros Hr Hf; [done|].
  assert (0 ≤ fins es) by apply fins_nonneg.
  assert (fins (e :: es) = fins [e] + fins es) as He by apply (fins_app [e]).
  rewrite not_elem_of_cons in Hr. destruct Hr as [Hr1 Hr2].
  destruct e; try done; rewrite filter_cons_True by done; f_equal; (apply IH; [done|]);
    unfold fins, zlen in *; simpl in *; lia.
Qed.

Lemma handshake_new os : handshake_state os = New ↔ os = [].
Proof. destruct os as [|[] os]; simpl; try case_decide; naive_solver. Qed.

Lemma handshake_not_over os : handshake_state os ≠ Closing ∧ handshake_state os ≠ Closed.
Proof. destruct os as [|[] os]; simpl; try case_decide; naive_solver. Qed.

Lemma handshake_snoc f os e :
  opening e = true → state f = handshake_state os →
  state (apply_event f e) = handshake_state (os ++ [e]).
Proof.
  intros He Hs. destruct os as [|o os]; destruct e; try done; simpl in *;
    unfold on_syn, on_syn_ack, on_data_without_syn; rewrite Hs; try done;
    destruct o; simpl; repeat case_decide; simpl in *; set_solver.
Qed.

(** A history leaves the flow New only when it is empty or a lone FIN. *)
Lemma history_new es : history_state es = New ↔ es = [] ∨ es = [FFin].
Proof.
  split; [|by intros [-> | ->]]. unfold history_state. case_decide as H1; [done|].
  case_decide as H2; [done|]. intros Hn%handshake_new. pose proof (fins_nonneg es).
  assert ((FRst ∉ es) ∧ fins es < 2) as [Hr Hf] by (split; [tauto|lia]).
  destruct (decide (fins es = 0)) as [H0|H0].
  { left. by rewrite (opening_only es) in Hn. }
  right. destruct es as [|e es]; [done|]. destruct e; try (exfalso; apply H2; split; [lia|done]).
  f_equal. rewrite filter_cons_False in Hn by (simpl; tauto).
  assert (fins (FFin :: es) = 1 + fins es) by apply (fins_app [FFin]).
  rewrite (opening_only es) in Hn; [done| |lia]. intros ?. apply Hr. by right.
Qed.

Lemma history_state_snoc f es e :
  state f = history_state es → fin_count f = Z.min u8_max (fins es) →
  state (apply_event f e) = history_state (es ++ [e]).
Proof.
  intros Hs Hc. pose proof (fins_nonneg es). unfold history_state in *.
  rewrite fins_app, list.filter_app.
  assert (FRst ∈ es ++ [e] ↔ FRst ∈ es ∨ FRst = e) as Hin
    by by rewrite elem_of_app, list_elem_of_singleton.
  destruct (decide (e = FRst)) as [-> |Hne]; [by rewrite decide_True by tauto|].
  destruct (decide (e = FFin)) as [-> |Hnf].
  - change (fins [FFin]) with 1. unfold apply_event, on_fin, sat_add. simpl. rewrite Hc.
    destruct (Z.leb_spec 2 (Z.min u8_max (Z.min u8_max (fins es) + 1))) as [H2|H2]; simpl.
    { rewrite decide_True; [done|]. unfold u8_max in H2. lia. }
    assert (fins es = 0) as H0 by (unfold u8_max in H2; lia). rewrite H0 in *.
    destruct (decide (FRst ∈ es)) as [Hr|Hr].
    { rewrite decide_True in Hs by tauto. rewrite (decide_True (P := _ ∨ 2 ≤ _)) by tauto.
      rewrite Hs. case_decide; naive_solver. }
    rewrite decide_False in Hs by (intros [?|?]; [done|lia]).
    rewrite decide_False in Hs by lia.
    rewrite (decide_False (P := _ ∨ 2 ≤ _)) by (rewrite Hin; intros [[?|?]|?]; [done..|lia]).
    rewrite (opening_only es) in * by done. rewrite Hs.
    pose proof (handshake_not_over es) as [N1 N2].
    destruct es as [|e es]; [done|]. pose proof (proj1 (handshake_new (e :: es))) as N3.
    rewrite (decide_True (P := 0 + 1 = 1 ∧ _)).
    2:{ split; [done|]. simpl. intros [= ->]. done. }
    case_decide as Hd; [done|]. exfalso. apply Hd.
    destruct (handshake_state (e :: es)); naive_solver.
  - assert (opening e = true) as Ho by by destruct e.
    assert (fins [e] = 0) as -> by by destruct e. rewrite Z.add_0_r.
    rewrite (filter_cons_True opening e) by by rewrite Ho.
    destruct (decide (FRst ∈ es ∨ 2 ≤ fins es)) as [Hd|Hd].
    { rewrite decide_True by tauto. destruct e; try done; simpl;
        unfold on_syn, on_syn_ack, on_data_without_syn; rewrite Hs; case_decide; naive_solver. }
    rewrite (decide_False (P := _ ∨ _)) by naive_solver.
    destruct (decide (fins es = 1 ∧ head es ≠ Some FFin)) as [[H1 H2]|Hd2].
    + rewrite decide_True. 2:{ split; [done|]. by destruct es. }
      destruct e; try done; simpl;
        unfold on_syn, on_syn_ack, on_data_without_syn; rewrite Hs; case_decide; naive_solver.
    + rewrite decide_False. 2:{ intros [H1 H2]. apply Hd2. split; [done|]. by destruct es. }
      by apply handshake_snoc.
Qed.

Lemma history_partial_snoc es e :
  history_partial (es ++ [e]) =
  history_partial es || bool_decide (history_state es = New ∧ e = FDataWithoutSyn).
Proof.
  destruct es as [|[] [|e2 es]].
  all: rewrite ?(bool_decide_eq_false_2 (_ ∧ _)) by (rewrite history_new; naive_solver).
  all: by destruct e; try destruct e2.
Qed.

Lemma history_exact k ts es :
  foldl apply_event (TcpFlow_new k ts) es =
  (TcpFlow_new k ts) <| state := history_state es |> <| partial := history_partial es |>
                   <| fin_count := Z.min u8_max (fins es) |>.
Proof.
  induction es as [|e es IH] using rev_ind; [done|].
  rewrite foldl_app. simpl. pose proof (fins_nonneg es).
  rewrite <- (history_state_snoc _ es e (f_equal state IH) (f_equal fin_count IH)).
  rewrite IH, fins_app, history_partial_snoc. clear IH.
  assert (fins [e] = if decide (e = FFin) then 1 else 0) as -> by by destruct e.
  destruct e; simpl; unfold on_syn, on_syn_ack, on_data_without_syn, on_fin, on_rst, sat_add;
    simpl; repeat case_decide; try destruct (2 <=? _); simpl; try tauto;
    f_equal; rewrite ?orb_true_r, ?orb_false_r; naive_solver lia.
Qed.

(** ** Theorems *)

(** C19. The life of a flow, exactly.  After any sequence of SYN, SYN+ACK,
    mid-stream data, FIN and RST events from a new flow, the flow is the new
    flow with three fields set.  Its state is the one read off the list: Closed
    once a RST or a second FIN has come, Closing after exactly one FIN that was
    not the first event of all, and otherwise what the opening events decide
    (none: New; a SYN: SynSent until a SYN+ACK follows; a SYN+ACK or data first:
    Established).  It is marked partial exactly when data opened it.  Its
    counter is the number of FINs, saturated at a byte.  Whatever comes next,
    the state only moves forward along New, SynSent, Established, Closing,
    Closed. *)
Theorem flow_lifecycle k ts es :
  let f := foldl apply_event (TcpFlow_new k ts) es in
  f = (TcpFlow_new k ts) <| state := history_state es |>
                       <| partial := history_partial es |>
                       <| fin_count := Z.min u8_max (fins es) |> ∧
  ∀ es', state_rank (state f) ≤ state_rank (state (foldl apply_event f es')).
Proof. split; [apply history_exact|intros; apply foldl_event_rank]. Qed.
