(* ===== verification/Segment.v ===== *)
(** * The out-of-order segment buffer (src/reassembly/segment.rs)

    One direction of a flow keeps the segments that have arrived but not been
    delivered in a map from stream offset to bytes.  This file translates
    insertion under the first-wins overlap policy and the contiguous flush,
    gives the buffer its meaning as a partial map from stream position to
    byte, and proves the two against that meaning. *)

From S2P Require Import Prelude FlowKey Handler Flow.

(** ** Translation *)

Inductive InsertResult :=
  | Inserted
  | Duplicate
  | PartialOverlap
  | ConflictingOverlap
  | Truncated
  | DepthExceeded
  | SegmentLimitReached
  | OutOfWindow
  | IsnMissing.

#[global] Instance InsertResult_eq_dec : EqDecision InsertResult.
Proof. solve_decision. Defined.

Definition seq_offset (seq isn : Z) : Z := wrapping_sub32 seq isn.

Definition ranges_overlap (new_start new_end existing_offset existing_end : Z) : bool :=
  (new_start <? existing_end) && (existing_offset <? new_end).

Definition segment_overlap (new_start : Z) (new_data : list Z)
    (existing_offset : Z) (existing_data : list Z) : panicky (bool * bool) :=
  new_end ← cadd u64_max new_start (zlen new_data);
  existing_end ← cadd u64_max existing_offset (zlen existing_data);
  if ranges_overlap new_start new_end existing_offset existing_end then
    let overlap_start := Z.max new_start existing_offset in
    let overlap_end := Z.min new_end existing_end in
    new_slice_start ← csub overlap_start new_start;
    new_slice_end ← csub overlap_end new_start;
    existing_slice_start ← csub overlap_start existing_offset;
    existing_slice_end ← csub overlap_end existing_offset;
    conflicts ←
      (if (new_slice_end <=? zlen new_data) && (existing_slice_end <=? zlen existing_data) then
         new_bytes ← slice new_data new_slice_start new_slice_end;
         existing_bytes ← slice existing_data existing_slice_start existing_slice_end;
         Some (bool_decide (new_bytes ≠ existing_bytes))
       else Some false);
    Some (true, conflicts)
  else Some (false, false).

(** The cursor sweep of [select_gaps]: state [fully_covered], [gaps], [cursor]. *)
Fixpoint sweep_gaps (new_start new_end : Z) (existing : list (Z * Z))
    (fully_covered : bool) (gaps : list (Z * Z)) (cursor : Z) : bool * list (Z * Z) * Z :=
  match existing with
  | [] => (fully_covered, gaps, cursor)
  | (es, ee) :: rest =>
      if negb (ranges_overlap new_start new_end es ee)
      then sweep_gaps new_start new_end rest fully_covered gaps cursor
      else
        let fully_covered :=
          if (es <=? new_start) && (new_end <=? ee) then true else fully_covered in
        let gaps :=
          if cursor <? es then gaps ++ [(cursor, Z.min es new_end)] else gaps in
        sweep_gaps new_start new_end rest fully_covered gaps (Z.max cursor ee)
  end.

Definition select_gaps (new_start new_end : Z) (existing : list (Z * Z)) :
    bool * list (Z * Z) :=
  let '(fully_covered, gaps, cursor) :=
    sweep_gaps new_start new_end existing false [] new_start in
  (fully_covered, if cursor <? new_end then gaps ++ [(cursor, new_end)] else gaps).

(** The overlap scan of [insert_segment]: state [has_overlap], [has_conflict],
    [overlapping_ranges]. *)
Fixpoint scan_overlaps (new_start : Z) (segment_data : list Z)
    (existing : list (Z * list Z)) (has_overlap has_conflict : bool)
    (overlapping_ranges : list (Z * Z)) : panicky (bool * bool * list (Z * Z)) :=
  match existing with
  | [] => Some (has_overlap, has_conflict, overlapping_ranges)
  | (existing_offset, existing_data) :: rest =>
      existing_end ← cadd u64_max existing_offset (zlen existing_data);
      '(overlaps, conflicts) ←
        segment_overlap new_start segment_data existing_offset existing_data;
      if overlaps : bool
      then scan_overlaps new_start segment_data rest true
             (if conflicts : bool then true else has_conflict)
             (overlapping_ranges ++ [(existing_offset, existing_end)])
      else scan_overlaps new_start segment_data rest has_overlap has_conflict overlapping_ranges
  end.

(** [self.segments.insert(at, data)] with its [buffered_bytes] accounting. *)
Definition store_segment (d : FlowDirection) (at_ : Z) (data : list Z) : panicky FlowDirection :=
  let old := segments d !! at_ in
  let d := d <| segments := <[at_ := data]> (segments d) |> in
  buffered ← match old with
             | Some old => csub (buffered_bytes d) (zlen old)
             | None => Some (buffered_bytes d)
             end;
  buffered ← cadd usize_max buffered (zlen data);
  Some (d <| buffered_bytes := buffered |>).

(** The gap insertion loop; the flag is [segments_exhausted]. *)
Fixpoint insert_gaps (max_segments new_start : Z) (segment_data : list Z)
    (gaps : list (Z * Z)) (d : FlowDirection) : panicky (FlowDirection * bool) :=
  match gaps with
  | [] => Some (d, false)
  | (gap_start, gap_end) :: rest =>
      if max_segments <=? Z.of_nat (size (segments d)) then Some (d, true) else
      start_idx ← csub gap_start new_start;
      end_idx ← csub gap_end new_start;
      if (start_idx <? zlen segment_data) && (end_idx <=? zlen segment_data) then
        gap_data ← slice segment_data start_idx end_idx;
        if decide (gap_data = []) then insert_gaps max_segments new_start segment_data rest d else
        d ← store_segment d gap_start gap_data;
        insert_gaps max_segments new_start segment_data rest d
      else insert_gaps max_segments new_start segment_data rest d
  end.

(** [insert_segment] once the bytes to keep are known: overlap scan, winner
    selection, insertion. *)
Definition insert_bytes (d : FlowDirection) (offset : Z) (segment_data : list Z)
    (truncated : bool) (max_segments : Z) : panicky (InsertResult * FlowDirection) :=
  let new_start := offset in
  new_end ← cadd u64_max offset (zlen segment_data);
  '(has_overlap, has_conflict, overlapping_ranges) ←
    scan_overlaps new_start segment_data (btree_range_to (segments d) new_end) false false [];
  if has_overlap : bool then
    let d := d <| overlap_count := sat_add u32_max (overlap_count d) 1 |> in
    let '(fully_covered, gaps) := select_gaps new_start new_end overlapping_ranges in
    if fully_covered : bool then
      Some (if has_conflict : bool then ConflictingOverlap else Duplicate, d)
    else
    let had_gap := negb (bool_decide (gaps = [])) in
    '(d, segments_exhausted) ← insert_gaps max_segments new_start segment_data gaps d;
    Some (if negb had_gap && has_conflict then ConflictingOverlap
          else if negb had_gap then Duplicate
          else if segments_exhausted : bool then SegmentLimitReached
          else if truncated then Truncated
          else PartialOverlap, d)
  else
    d ← store_segment d offset segment_data;
    Some (if truncated then Truncated else Inserted, d).

Definition insert_segment (d : FlowDirection) (seq : Z) (data : list Z)
    (max_depth max_segments max_receive_window : Z) :
    panicky (InsertResult * FlowDirection) :=
  if decide (data = []) then Some (Inserted, d) else
  match isn d with
  | None => Some (IsnMissing, d)
  | Some isn =>
    let offset := seq_offset seq isn in
    end_offset ← cadd u64_max offset (zlen data);
    if end_offset <? base_offset d then
      Some (OutOfWindow,
            d <| out_of_window_count := sat_add u32_max (out_of_window_count d) 1 |>)
    else if sat_add u64_max (base_offset d) max_receive_window <? offset then
      Some (OutOfWindow,
            d <| out_of_window_count := sat_add u32_max (out_of_window_count d) 1 |>)
    else if max_segments <=? Z.of_nat (size (segments d)) then
      Some (SegmentLimitReached, d)
    else
    let remaining_depth := sat_sub max_depth (reassembled_bytes d) in
    if remaining_depth =? 0 then Some (DepthExceeded, d <| depth_exceeded := true |>) else
    let buffered := buffered_bytes d in
    held ← cadd usize_max (reassembled_bytes d) buffered;
    total_after ← cadd usize_max held (zlen data);
    if max_depth <? total_after then
      let allowed := sat_sub max_depth held in
      if allowed =? 0 then Some (DepthExceeded, d <| depth_exceeded := true |>) else
      insert_bytes (d <| depth_exceeded := true |>) offset (truncate allowed data) true
        max_segments
    else insert_bytes d offset data false max_segments
  end.

(** The [while let] loop of [flush_contiguous].  Every round removes an entry
    of the map, so [S (size segments)] rounds are enough ([flush_loop_spec]). *)
Fixpoint flush_loop (fuel : nat) (d : FlowDirection) (flushed : list (Z * list Z)) :
    panicky (FlowDirection * list (Z * list Z)) :=
  match fuel with
  | O => None
  | S fuel =>
    match segments d !! base_offset d with
    | None => Some (d, flushed)
    | Some data =>
        let offset := base_offset d in
        let d := d <| segments := delete offset (segments d) |> in
        buffered ← csub (buffered_bytes d) (zlen data);
        base ← cadd u64_max (base_offset d) (zlen data);
        reassembled ← cadd usize_max (reassembled_bytes d) (zlen data);
        flush_loop fuel
          (d <| buffered_bytes := buffered |> <| base_offset := base |>
             <| reassembled_bytes := reassembled |>)
          (flushed ++ [(offset, data)])
    end
  end.

Definition flush_contiguous (d : FlowDirection) : panicky (FlowDirection * list (Z * list Z)) :=
  flush_loop (S (size (segments d))) d [].

(** ** What a buffer means *)

(** [p] is a position held by the entry [o], [d]. *)
Definition in_seg (o : Z) (d : list Z) (p : Z) : Prop := o ≤ p < o + zlen d.

#[global] Instance in_seg_dec o d p : Decision (in_seg o d p).
Proof. unfold in_seg. apply _. Defined.

(** Byte [b] of the stream is buffered at position [p]. *)
Definition has_byte (m : gmap Z (list Z)) (p b : Z) : Prop :=
  ∃ o d, m !! o = Some d ∧ o ≤ p ∧ d !! Z.to_nat (p - o) = Some b.

Definition covered (m : gmap Z (list Z)) (p : Z) : Prop :=
  ∃ o d, m !! o = Some d ∧ in_seg o d p.

(** The buffered byte at a stream position, if any. *)
Definition byte_at (m : gmap Z (list Z)) (p : Z) : option Z :=
  foldr (λ od acc, if decide (in_seg od.1 od.2 p) then od.2 !! Z.to_nat (p - od.1) else acc)
    None (btree_iter m).

(** Entries are non-empty, lie in the [u64] range, and do not overlap. *)
Record segs_wf (m : gmap Z (list Z)) : Prop := {
  segs_entry : ∀ o d, m !! o = Some d → 0 ≤ o ∧ d ≠ [] ∧ o + zlen d ≤ u64_max;
  segs_disjoint : ∀ o1 d1 o2 d2 p, m !! o1 = Some d1 → m !! o2 = Some d2 →
    in_seg o1 d1 p → in_seg o2 d2 p → o1 = o2
}.

Lemma in_seg_lookup o d p : in_seg o d p → ∃ b, d !! Z.to_nat (p - o) = Some b.
Proof.
  unfold in_seg, zlen. intros. apply lookup_lt_is_Some. lia.
Qed.

Lemma lookup_in_seg o d p b : o ≤ p → d !! Z.to_nat (p - o) = Some b → in_seg o d p.
Proof. intros ? ?%lookup_lt_Some. unfold in_seg, zlen. lia. Qed.

Lemma covered_has_byte m p : covered m p ↔ ∃ b, has_byte m p b.
Proof.
  split.
  - intros (o & d & Ho & Hp). destruct (in_seg_lookup _ _ _ Hp) as [b Hb].
    exists b, o, d. unfold in_seg in Hp. split_and!; [done|lia|done].
  - intros (b & o & d & ? & ? & ?). exists o, d. eauto using lookup_in_seg.
Qed.

Lemma has_byte_fun m p b b' : segs_wf m → has_byte m p b → has_byte m p b' → b = b'.
Proof.
  intros [_ Hd] (o & d & Ho & Hp & Hb) (o' & d' & Ho' & Hp' & Hb').
  assert (o = o') as <- by (eapply Hd; eauto using lookup_in_seg). congruence.
Qed.

Lemma byte_at_elim m p b : byte_at m p = Some b → has_byte m p b.
Proof.
  unfold byte_at. assert (∀ o d, (o, d) ∈ btree_iter m → m !! o = Some d) as Hl
    by (intros; by apply elem_of_btree_iter).
  induction (btree_iter m) as [|[o d] l IH]; simpl; [done|]. case_decide as Hp.
  - intros. exists o, d. unfold in_seg in Hp.
    split_and!; [|lia|done]. apply Hl. by left.
  - apply IH. intros. apply Hl. by right.
Qed.

Lemma byte_at_None m p : byte_at m p = None → ¬ covered m p.
Proof.
  unfold byte_at, covered. setoid_rewrite <- elem_of_btree_iter.
  induction (btree_iter m) as [|[o d] l IH]; simpl.
  - intros _ (? & ? & []%not_elem_of_nil & _).
  - case_decide as Hp.
    + destruct (in_seg_lookup _ _ _ Hp). congruence.
    + intros Hn (o' & d' & [[= -> ->]|Hin]%elem_of_cons & ?); [done|].
      apply IH; eauto.
Qed.

Lemma byte_at_spec m p b : segs_wf m → byte_at m p = Some b ↔ has_byte m p b.
Proof.
  intros Hwf. split; [apply byte_at_elim|]. intros Hb.
  destruct (byte_at m p) as [b'|] eqn:E.
  - apply byte_at_elim in E. by rewrite (has_byte_fun m p b b').
  - apply byte_at_None in E. destruct E. apply covered_has_byte. eauto.
Qed.

Lemma covered_dec m p : covered m p ∨ ¬ covered m p.
Proof.
  destruct (byte_at m p) as [b|] eqn:E.
  - left. apply covered_has_byte. exists b. by apply byte_at_elim.
  - right. by apply byte_at_None.
Qed.

Lemma segs_wf_empty : segs_wf ∅.
Proof. split; intros *; rewrite lookup_empty; done. Qed.

Lemma segs_wf_delete m o : segs_wf m → segs_wf (delete o m).
Proof.
  intros [He Hd]. split.
  - intros o' d' [_ ?]%lookup_delete_Some. eauto.
  - intros ????? [_ ?]%lookup_delete_Some [_ ?]%lookup_delete_Some. eauto.
Qed.

(** Adding an entry over uncovered positions. *)
Lemma segs_wf_insert m o d :
  segs_wf m → 0 ≤ o → d ≠ [] → o + zlen d ≤ u64_max →
  (∀ p, in_seg o d p → ¬ covered m p) →
  m !! o = None ∧ segs_wf (<[o:=d]> m).
Proof.
  intros [He Hd] Ho Hne Hb Hfree.
  assert (m !! o = None) as Hfresh.
  { destruct (m !! o) as [d'|] eqn:E; [|done]. exfalso.
    apply (Hfree o); [pose proof (zlen_pos d Hne); unfold in_seg; lia|].
    exists o, d'. pose proof (zlen_pos d' (proj1 (proj2 (He _ _ E)))).
    unfold in_seg. split; [done|lia]. }
  split; [done|]. split.
  - intros o' d' [[<- <-]|[_ ?]]%lookup_insert_Some; eauto.
  - intros o1 d1 o2 d2 p [[<- <-]|[? H1]]%lookup_insert_Some
      [[<- <-]|[? H2]]%lookup_insert_Some ??; eauto; exfalso; eapply Hfree; eauto;
      eexists _, _; eauto.
Qed.

Lemma has_byte_insert m o d p b :
  m !! o = None →
  has_byte (<[o:=d]> m) p b ↔
    has_byte m p b ∨ (o ≤ p ∧ d !! Z.to_nat (p - o) = Some b).
Proof.
  intros Hfresh. split.
  - intros (o' & d' & [[<- <-]|[_ ?]]%lookup_insert_Some & ? & ?); [by right|].
    left. by exists o', d'.
  - intros [(o' & d' & ? & ? & ?)|[??]].
    + exists o', d'. split_and!; [|done..]. rewrite lookup_insert_ne; naive_solver.
    + exists o, d. split_and!; [apply lookup_insert_eq|done..].
Qed.

(** ** Overlap classification *)

Lemma ranges_overlap_spec a b c d :
  ranges_overlap a b c d = true ↔ a < d ∧ c < b.
Proof. unfold ranges_overlap. rewrite andb_true_iff, !Z.ltb_lt. done. Qed.

(** Position [p] holds byte [b] in the segment [d] starting at [o]. *)
Definition seg_byte (o : Z) (d : list Z) (p b : Z) : Prop :=
  o ≤ p ∧ d !! Z.to_nat (p - o) = Some b.

(** Two segments disagree on a byte they both carry. *)
Definition seg_conflict (o1 : Z) (d1 : list Z) (o2 : Z) (d2 : list Z) : Prop :=
  ∃ p b1 b2, seg_byte o1 d1 p b1 ∧ seg_byte o2 d2 p b2 ∧ b1 ≠ b2.

Lemma seg_byte_in o d p b : seg_byte o d p b → in_seg o d p.
Proof. intros [??]. eauto using lookup_in_seg. Qed.

(** Two slices over the common positions [lo..hi) of the segments differ
    exactly when the segments conflict. *)
Lemma slices_conflict o1 d1 o2 d2 s1 s2 :
  let lo := Z.max o1 o2 in
  let hi := Z.min (o1 + zlen d1) (o2 + zlen d2) in
  slice d1 (lo - o1) (hi - o1) = Some s1 →
  slice d2 (lo - o2) (hi - o2) = Some s2 →
  s1 ≠ s2 ↔ seg_conflict o1 d1 o2 d2.
Proof.
  intros lo hi (Hr1 & _ & Hl1 & H1)%slice_inv (Hr2 & _ & Hl2 & H2)%slice_inv. split.
  - intros Hne. apply list_ne_lookup in Hne as (i & x & y & Hx & Hy & Hxy);
      [|unfold zlen in *; lia].
    pose proof (lookup_lt_Some _ _ _ Hx). exists (lo + Z.of_nat i), x, y.
    unfold seg_byte, zlen in *.
    rewrite <- (Nat2Z.id i), H1 in Hx by lia. rewrite <- (Nat2Z.id i), H2 in Hy by lia.
    split_and!; [lia| |lia| |done].
    + rewrite <- Hx. f_equal. lia.
    + rewrite <- Hy. f_equal. lia.
  - intros (p & b1 & b2 & B1 & B2 & Hb) ->.
    pose proof (seg_byte_in _ _ _ _ B1) as P1. pose proof (seg_byte_in _ _ _ _ B2) as P2.
    destruct B1 as [_ B1], B2 as [_ B2]. unfold in_seg in *.
    specialize (H1 (p - lo)). specialize (H2 (p - lo)).
    replace (lo - o1 + (p - lo)) with (p - o1) in H1 by lia.
    replace (lo - o2 + (p - lo)) with (p - o2) in H2 by lia.
    rewrite H1, B1, B2 in H2 by lia. specialize (H2 ltac:(lia)). congruence.
Qed.

Lemma segment_overlap_spec o1 d1 o2 d2 :
  0 ≤ o1 → 0 ≤ o2 → d1 ≠ [] → d2 ≠ [] → o1 + zlen d1 ≤ u64_max → o2 + zlen d2 ≤ u64_max →
  ∃ cf, segment_overlap o1 d1 o2 d2 =
          Some (ranges_overlap o1 (o1 + zlen d1) o2 (o2 + zlen d2), cf) ∧
        (cf = true ↔ seg_conflict o1 d1 o2 d2).
Proof.
  intros. pose proof (zlen_nonneg d1). pose proof (zlen_nonneg d2).
  assert (0 < zlen d1) by by apply zlen_pos. assert (0 < zlen d2) by by apply zlen_pos.
  unfold segment_overlap. rewrite !cadd_Some by lia. simpl.
  destruct (ranges_overlap _ _ _ _) eqn:E.
  - apply ranges_overlap_spec in E as [??].
    rewrite !csub_Some by lia. simpl.
    rewrite !(proj2 (Z.leb_le _ _)) by lia. simpl.
    rewrite (slice_Some d1), (slice_Some d2) by lia. simpl.
    eexists. split; [done|]. rewrite bool_decide_eq_true.
    apply slices_conflict; apply slice_Some; lia.
  - exists false. split; [done|]. split; [done|].
    intros (p & b1 & b2 & P1%seg_byte_in & P2%seg_byte_in & _). unfold in_seg in *.
    assert (ranges_overlap o1 (o1 + zlen d1) o2 (o2 + zlen d2) = true); [|congruence].
    apply ranges_overlap_spec. lia.
Qed.

(** ** Gap selection *)

Definition in_range (g : Z * Z) (p : Z) : Prop := g.1 ≤ p < g.2.
Definition in_ranges (gs : list (Z * Z)) (p : Z) : Prop := Exists (λ g, in_range g p) gs.

(** Ascending, non-empty, non-overlapping ranges inside [lo, hi). *)
Fixpoint ascending (lo hi : Z) (gs : list (Z * Z)) : Prop :=
  match gs with
  | [] => True
  | g :: gs => lo ≤ g.1 ∧ g.1 < g.2 ∧ g.2 ≤ hi ∧ ascending g.2 hi gs
  end.

Lemma ascending_weaken lo lo' hi gs : lo' ≤ lo → ascending lo hi gs → ascending lo' hi gs.
Proof. destruct gs; simpl; [done|]. intros ? (? & ? & ? & ?). split_and!; [lia|done..]. Qed.

Lemma ascending_snoc lo mid hi gs g :
  ascending lo mid gs → lo ≤ mid → mid ≤ g.1 → g.1 < g.2 → g.2 ≤ hi →
  ascending lo hi (gs ++ [g]).
Proof.
  intros Hg Hm ???. assert (mid ≤ hi) by lia.
  revert lo Hm Hg. induction gs as [|h gs IH]; simpl; intros lo Hm.
  - intros _. split_and!; [lia..|done].
  - intros (? & ? & ? & ?). split_and!; [lia..|]. apply IH; [lia|done].
Qed.

Lemma ascending_bound lo hi gs p : ascending lo hi gs → in_ranges gs p → lo ≤ p < hi.
Proof.
  intros Hg Hp. revert lo Hg.
  induction Hp as [g gs Hp|g gs _ IH]; simpl; intros lo (? & ? & ? & ?).
  - unfold in_range in Hp. lia.
  - specialize (IH _ ltac:(done)). lia.
Qed.

Lemma ascending_mono lo hi hi' gs : hi ≤ hi' → ascending lo hi gs → ascending lo hi' gs.
Proof.
  intros Hh. revert lo. induction gs as [|g gs IH]; simpl; [done|].
  intros lo (? & ? & ? & ?). split_and!; [lia..|auto].
Qed.

(** The gap a sweep step emits before the range [es, ee). *)
Definition step_gaps (cur es ne : Z) (gaps : list (Z * Z)) : list (Z * Z) :=
  if cur <? es then gaps ++ [(cur, Z.min es ne)] else gaps.

Lemma step_gaps_in cur es ne gaps p :
  in_ranges (step_gaps cur es ne gaps) p ↔ in_ranges gaps p ∨ (cur ≤ p < es ∧ p < ne).
Proof.
  unfold step_gaps, in_ranges. destruct (Z.ltb_spec cur es).
  - rewrite Exists_app, Exists_cons, Exists_nil. unfold in_range at 2. simpl.
    split; [intros [?|[?|[]]]; [by left|right; lia]|].
    intros [?|?]; [by left|right; left; lia].
  - split; [by left|]. intros [?|?]; [done|lia].
Qed.

Lemma step_gaps_ascending ns ne cur es ee gaps :
  ns ≤ cur → es ≤ ee → es < ne → ns ≤ ne → ascending ns (Z.min cur ne) gaps →
  ascending ns (Z.min (Z.max cur ee) ne) (step_gaps cur es ne gaps).
Proof.
  intros. unfold step_gaps. destruct (Z.ltb_spec cur es).
  - apply (ascending_snoc _ (Z.min cur ne)); simpl; [done|lia..].
  - eapply ascending_mono; [|done]. lia.
Qed.

Lemma sorted_head_low es ee l p :
  Forall (key_le (es, ee)) l → p < es → ¬ in_ranges l p.
Proof.
  intros Hle Hp (g & Hg & Hin)%list.Exists_exists. rewrite list.Forall_forall in Hle.
  specialize (Hle g Hg). unfold key_le, in_range in *. simpl in Hle. lia.
Qed.

Lemma sweep_gaps_spec ns ne l fc gaps cur :
  ns ≤ cur → ns ≤ ne → StronglySorted key_le l → Forall (λ r, r.1 ≤ r.2) l →
  ascending ns (Z.min cur ne) gaps →
  let '(fc', gaps', cur') := sweep_gaps ns ne l fc gaps cur in
  (fc' = true ↔ fc = true ∨
     Exists (λ r, (r.1 ≤ ns ∧ ne ≤ r.2) ∧ ranges_overlap ns ne r.1 r.2 = true) l) ∧
  ns ≤ cur' ∧ ascending ns (Z.min cur' ne) gaps' ∧
  ∀ p, in_ranges gaps' p ∨ cur' ≤ p < ne ↔
       in_ranges gaps p ∨ (cur ≤ p < ne ∧ ¬ in_ranges l p).
Proof.
  revert fc gaps cur.
  induction l as [|[es ee] l IH]; intros fc gaps cur Hcur Hne Hs Hr Hg; simpl.
  { unfold in_ranges. setoid_rewrite Exists_nil. split_and!; [tauto|done|done|tauto]. }
  apply StronglySorted_inv in Hs as [Hs Hle]. apply Forall_cons_1 in Hr as [Hr1 Hr].
  simpl in Hr1. destruct (ranges_overlap ns ne es ee) eqn:E; simpl.
  - pose proof (proj1 (ranges_overlap_spec _ _ _ _) E) as E'.
    specialize (IH (if (es <=? ns) && (ne <=? ee) then true else fc)
      (step_gaps cur es ne gaps) (Z.max cur ee)). unfold step_gaps at 1 in IH.
    destruct (sweep_gaps _ _ _ _ _ _) as [[fc' gaps'] cur'].
    destruct IH as (IHf & IHc & IHg & IHp);
      [lia|done|done|done|apply step_gaps_ascending; [lia..|done]|].
    split_and!; [|done|done|].
    + rewrite IHf, Exists_cons. simpl.
      destruct (Z.leb_spec es ns), (Z.leb_spec ne ee); simpl; intuition lia.
    + intros p. rewrite IHp, step_gaps_in. unfold in_ranges at 4. rewrite Exists_cons.
      fold (in_ranges l p). unfold in_range. simpl.
      pose proof (sorted_head_low es ee l p Hle).
      destruct (decide (p < es)), (decide (p < ee)); intuition lia.
  - specialize (IH fc gaps cur).
    destruct (sweep_gaps _ _ _ _ _ _) as [[fc' gaps'] cur'].
    destruct IH as (IHf & IHc & IHg & IHp); [done..|].
    split_and!; [|done|done|].
    + rewrite IHf, Exists_cons. simpl. rewrite E. intuition congruence.
    + intros p. rewrite IHp. unfold in_ranges at 4. rewrite Exists_cons.
      fold (in_ranges l p). unfold in_range. simpl.
      assert (¬ (ns < ee ∧ es < ne)) by (rewrite <- ranges_overlap_spec, E; done).
      intuition lia.
Qed.

Lemma select_gaps_spec ns ne l :
  ns ≤ ne → StronglySorted key_le l → Forall (λ r, r.1 ≤ r.2) l →
  let '(fc, gaps) := select_gaps ns ne l in
  (fc = true ↔
     Exists (λ r, (r.1 ≤ ns ∧ ne ≤ r.2) ∧ ranges_overlap ns ne r.1 r.2 = true) l) ∧
  ascending ns ne gaps ∧
  ∀ p, in_ranges gaps p ↔ ns ≤ p < ne ∧ ¬ in_ranges l p.
Proof.
  intros Hne Hs Hr. unfold select_gaps.
  pose proof (sweep_gaps_spec ns ne l false [] ns) as H.
  destruct (sweep_gaps _ _ _ _ _ _) as [[fc gaps] cur].
  destruct H as (Hf & Hc & Hg & Hp); [lia|done|done|done|done|]. split_and!.
  - rewrite Hf. intuition congruence.
  - destruct (Z.ltb_spec cur ne).
    + apply (ascending_snoc _ (Z.min cur ne)); simpl; [done|lia..].
    + eapply ascending_mono; [|done]. lia.
  - intros p. assert (in_ranges (if cur <? ne then gaps ++ [(cur, ne)] else gaps) p ↔
      in_ranges gaps p ∨ cur ≤ p < ne) as ->.
    { destruct (Z.ltb_spec cur ne); [|intuition lia].
      unfold in_ranges. rewrite Exists_app, Exists_cons, Exists_nil.
      unfold in_range at 2. simpl. tauto. }
    rewrite Hp. unfold in_ranges at 1. rewrite Exists_nil. tauto.
Qed.

(** ** The overlap scan *)

Definition seg_range (od : Z * list Z) : Z * Z := (od.1, od.1 + zlen od.2).

Definition overlapping (ns ne : Z) (l : list (Z * list Z)) : list (Z * list Z) :=
  filter (λ od, ranges_overlap ns ne od.1 (od.1 + zlen od.2) = true) l.

Definition entry_ok (od : Z * list Z) : Prop :=
  0 ≤ od.1 ∧ od.2 ≠ [] ∧ od.1 + zlen od.2 ≤ u64_max.

Lemma scan_overlaps_spec ns data l ho hc rs :
  0 ≤ ns → data ≠ [] → ns + zlen data ≤ u64_max → Forall entry_ok l →
  ∃ hc', scan_overlaps ns data l ho hc rs =
    Some (ho || negb (bool_decide (overlapping ns (ns + zlen data) l = [])), hc',
          rs ++ (seg_range <$> overlapping ns (ns + zlen data) l)) ∧
    (hc' = true ↔ hc = true ∨ Exists (λ od, seg_conflict ns data od.1 od.2) l).
Proof.
  intros Hns Hdata Hb Hl. revert ho hc rs.
  induction Hl as [|[o d] l (Ho & Hd & Hod) Hl IH]; intros ho hc rs; simpl.
  { exists hc. rewrite orb_false_r, app_nil_r, Exists_nil. split; [done|tauto]. }
  rewrite cadd_Some by done. simpl.
  destruct (segment_overlap_spec ns data o d) as (cf & -> & Hcf); [done..|]. simpl.
  unfold overlapping. rewrite filter_cons. simpl.
  destruct (ranges_overlap ns (ns + zlen data) o (o + zlen d)) eqn:E.
  - rewrite decide_True by done.
    destruct (IH true (if cf then true else hc) (rs ++ [(o, o + zlen d)])) as (hc' & -> & Hhc).
    exists hc'. split.
    + simpl. rewrite orb_true_r, <- app_assoc. done.
    + rewrite Hhc, Exists_cons, <- Hcf. destruct cf; intuition congruence.
  - rewrite decide_False by done.
    destruct (IH ho hc rs) as (hc' & -> & Hhc). exists hc'. split; [done|].
    rewrite Hhc, Exists_cons. simpl.
    assert (¬ seg_conflict ns data o d); [|tauto].
    intros (p & ? & ? & P1%seg_byte_in & P2%seg_byte_in & _). unfold in_seg in *.
    assert (ranges_overlap ns (ns + zlen data) o (o + zlen d) = true); [|congruence].
    apply ranges_overlap_spec. lia.
Qed.

(** The ranges that reach [select_gaps] are its precondition, and they cover a
    new position exactly when the buffer does. *)
Lemma overlapping_sorted m ns ne :
  StronglySorted key_le (seg_range <$> overlapping ns ne (btree_range_to m ne)).
Proof.
  assert (StronglySorted key_le (overlapping ns ne (btree_range_to m ne))) as H
    by apply StronglySorted_filter, btree_range_to_sorted.
  induction H as [|od l _ IH Hf]; [constructor|]. simpl. constructor; [done|].
  apply Forall_fmap. exact Hf.
Qed.

Lemma elem_of_overlapping m ns ne o d :
  (o, d) ∈ overlapping ns ne (btree_range_to m ne) ↔
  m !! o = Some d ∧ ns < o + zlen d ∧ o < ne.
Proof.
  unfold overlapping.
  rewrite list_elem_of_filter, elem_of_btree_range_to, ranges_overlap_spec. simpl. tauto.
Qed.

Lemma overlapping_covers m ns ne p :
  ns ≤ p < ne →
  in_ranges (seg_range <$> overlapping ns ne (btree_range_to m ne)) p ↔ covered m p.
Proof.
  intros Hp. unfold in_ranges, covered. rewrite list.Exists_exists. split.
  - intros (r & ([o d] & -> & Hin)%list_elem_of_fmap & Hr).
    apply elem_of_overlapping in Hin as (? & _). exists o, d. done.
  - intros (o & d & Ho & Hin). exists (seg_range (o, d)). split; [|done].
    apply list_elem_of_fmap. exists (o, d). split; [done|].
    apply elem_of_overlapping. unfold in_seg in Hin. split; [done|lia].
Qed.

(** ** Storing segments *)

(** The accounting part of the invariant of a direction's buffer. *)
Record buf_wf (max_segments : Z) (d : FlowDirection) : Prop := {
  buf_segs : segs_wf (segments d);
  buf_bytes : buffered_bytes d = map_sum zlen (segments d);
  buf_count : Z.of_nat (size (segments d)) ≤ max_segments
}.

(** [d] with another buffer. *)
Definition with_buf (d : FlowDirection) (m : gmap Z (list Z)) (n : Z) : FlowDirection :=
  d <| segments := m |> <| buffered_bytes := n |>.

Lemma with_buf_id d : with_buf d (segments d) (buffered_bytes d) = d.
Proof. by destruct d. Qed.

Lemma store_segment_spec max_segments d o data :
  buf_wf max_segments d → Z.of_nat (size (segments d)) < max_segments →
  0 ≤ o → data ≠ [] → o + zlen data ≤ u64_max → buffered_bytes d + zlen data ≤ usize_max →
  (∀ p, in_seg o data p → ¬ covered (segments d) p) →
  let d' := with_buf d (<[o:=data]> (segments d)) (buffered_bytes d + zlen data) in
  segments d !! o = None ∧ store_segment d o data = Some d' ∧ buf_wf max_segments d'.
Proof.
  intros [Hs Hb Hc] Hlt Ho Hne Hu Hm Hfree.
  destruct (segs_wf_insert (segments d) o data) as [Hfresh Hwf]; [done..|].
  split; [done|]. split.
  - unfold store_segment. rewrite Hfresh. simpl. by rewrite cadd_Some by done.
  - split; simpl; [done| |].
    + rewrite map_sum_insert_fresh by done. lia.
    + rewrite map_size_insert_None by done. lia.
Qed.

Lemma gap_slice ns data gs ge :
  ns ≤ gs → gs < ge → ge ≤ ns + zlen data →
  ∃ g, slice data (gs - ns) (ge - ns) = Some g ∧ g ≠ [] ∧ zlen g = ge - gs ∧
    ∀ p b, seg_byte gs g p b ↔ in_range (gs, ge) p ∧ seg_byte ns data p b.
Proof.
  intros ???. destruct (slice data (gs - ns) (ge - ns)) as [g|] eqn:E;
    [|by rewrite slice_Some in E by lia].
  apply slice_inv in E as (_ & _ & Hl & Hg). exists g. split; [done|].
  assert (zlen g = ge - gs) as Hlen by lia. split_and!; [|done|].
  - intros ->. rewrite zlen_nil in Hlen. lia.
  - intros p b. unfold seg_byte, in_range. simpl. split.
    + intros [Hp Hb]. pose proof (lookup_in_seg _ _ _ _ Hp Hb) as Hin. unfold in_seg in Hin.
      rewrite Hg in Hb by lia. split_and!; [lia..|]. rewrite <- Hb. f_equal. lia.
    + intros (Hp & ? & Hb). split; [lia|]. rewrite Hg by lia. rewrite <- Hb. f_equal. lia.
Qed.

Lemma insert_gaps_spec max_segments ns data gaps d lo :
  buf_wf max_segments d → 0 ≤ ns → ns ≤ lo → lo ≤ ns + zlen data → ns + zlen data ≤ u64_max →
  ascending lo (ns + zlen data) gaps →
  (∀ p, in_ranges gaps p → ¬ covered (segments d) p) →
  buffered_bytes d + (ns + zlen data - lo) ≤ usize_max →
  ∃ m' n' ex k, insert_gaps max_segments ns data gaps d = Some (with_buf d m' n', ex) ∧
    buf_wf max_segments (with_buf d m' n') ∧
    buffered_bytes d ≤ n' ≤ buffered_bytes d + (ns + zlen data - lo) ∧
    lo ≤ k ≤ ns + zlen data ∧ (ex = false → k = ns + zlen data) ∧
    (∀ p b, has_byte m' p b ↔
      has_byte (segments d) p b ∨ (in_ranges gaps p ∧ p < k ∧ seg_byte ns data p b)) ∧
    segments d ⊆ m'.
Proof.
  intros Hwf Hns. revert d lo Hwf.
  induction gaps as [|[gs ge] gaps IH]; intros d lo Hwf Hlo Hlo' Hu Hasc Hfree Hm; simpl.
  { exists (segments d), (buffered_bytes d), false, (ns + zlen data).
    split_and!; try lia; [by rewrite with_buf_id|by rewrite with_buf_id| |done].
    intros. unfold in_ranges. rewrite Exists_nil. tauto. }
  destruct Hasc as (H1 & H2 & H3 & Hasc). simpl in *.
  destruct (Z.leb_spec max_segments (Z.of_nat (size (segments d)))) as [|Hlt].
  { exists (segments d), (buffered_bytes d), true, lo.
    split_and!; try lia; [by rewrite with_buf_id|by rewrite with_buf_id| |done].
    intros p b. split; [by left|]. intros [?|(Hin & ? & _)]; [done|].
    eapply (ascending_bound lo (ns + zlen data)) in Hin; [lia|]. simpl. split_and!; done. }
  rewrite !csub_Some by lia. simpl.
  rewrite (proj2 (Z.ltb_lt _ _)), (proj2 (Z.leb_le _ _)) by lia. simpl.
  destruct (gap_slice ns data gs ge) as (g & -> & Hg & Hgl & Hgb); [lia..|]. simpl.
  rewrite decide_False by done.
  destruct (store_segment_spec max_segments d gs g) as (Hfresh & -> & Hwf');
    [done|lia|lia|done|lia|lia|..].
  { intros p Hp. apply Hfree. left. unfold in_seg, in_range in *. simpl. lia. }
  simpl. set (d1 := with_buf d _ _) in *.
  destruct (IH d1 ge) as (m' & n' & ex & k & -> & ? & ? & ? & ? & Hk & Hsub);
    [done|lia|lia|done|done| |simpl; lia|].
  { intros p Hp (o & dd & Ho & Hin). unfold d1 in Ho. simpl in Ho.
    apply lookup_insert_Some in Ho as [[<- <-]|[_ Ho]].
    - eapply ascending_bound in Hp; [|done]. unfold in_seg in Hin. lia.
    - apply (Hfree p); [by right|]. by exists o, dd. }
  exists m', n', ex, k. simpl in *. split_and!; [done|done|lia..|done| |].
  2:{ etransitivity; [|exact Hsub]. by apply insert_subseteq. }
  intros p b. rewrite Hk. unfold d1. simpl. rewrite has_byte_insert by done.
  specialize (Hgb p b). unfold seg_byte at 1 in Hgb. rewrite Hgb.
  unfold in_ranges. rewrite Exists_cons. unfold in_range. simpl. intuition lia.
Qed.

(** ** Insertion *)

(** Outcome of [insert_bytes]: [k] leading bytes of [sd] were offered to the
    uncovered positions. *)
Definition bytes_result (m : gmap Z (list Z)) (off : Z) (sd : list Z) (truncated : bool)
    (r : InsertResult) (k : Z) : Prop :=
  match r with
  | Inserted | PartialOverlap => truncated = false ∧ k = zlen sd
  | Truncated => truncated = true ∧ k = zlen sd
  | Duplicate => k = zlen sd ∧ ∀ p b, seg_byte off sd p b → has_byte m p b
  | ConflictingOverlap => k = zlen sd ∧ (∀ p, in_seg off sd p → covered m p) ∧
      ∃ p b b', seg_byte off sd p b ∧ has_byte m p b' ∧ b ≠ b'
  | SegmentLimitReached => True
  | DepthExceeded | OutOfWindow | IsnMissing => False
  end.

Lemma scan_conflict_spec m off sd :
  Exists (λ od, seg_conflict off sd od.1 od.2) (btree_range_to m (off + zlen sd)) ↔
  ∃ p b b', seg_byte off sd p b ∧ has_byte m p b' ∧ b ≠ b'.
Proof.
  rewrite list.Exists_exists. split.
  - intros ([o d] & [Ho _]%elem_of_btree_range_to & p & b & b' & Hb & [??] & ?).
    exists p, b, b'. split_and!; [done| |done]. by exists o, d.
  - intros (p & b & b' & Hb & (o & d & Ho & Hp & Hd) & Hne). exists (o, d).
    pose proof (seg_byte_in _ _ _ _ Hb) as Hin. unfold in_seg in Hin.
    split; [apply elem_of_btree_range_to; split; [done|lia]|].
    exists p, b, b'. split_and!; [done| |done]. done.
Qed.

(** Everything covered: the verdict is Duplicate or ConflictingOverlap
    according to the byte comparison. *)
Lemma covered_result m off sd truncated (hc : bool) :
  segs_wf m → (∀ p, in_seg off sd p → covered m p) →
  (hc = true ↔ ∃ p b b', seg_byte off sd p b ∧ has_byte m p b' ∧ b ≠ b') →
  bytes_result m off sd truncated (if hc then ConflictingOverlap else Duplicate) (zlen sd).
Proof.
  intros Hwf Hcov Hc. destruct hc; simpl; (split; [done|]).
  - split; [done|]. by apply Hc.
  - intros p b Hb. destruct (proj1 (covered_has_byte m p)) as [b' Hb'];
      [eauto using seg_byte_in|].
    destruct (decide (b = b')) as [->|Hne]; [done|].
    assert (false = true); [|done]. apply Hc. eauto 10.
Qed.

Lemma no_overlap_free m off sd :
  overlapping off (off + zlen sd) (btree_range_to m (off + zlen sd)) = [] →
  ∀ p, in_seg off sd p → ¬ covered m p.
Proof.
  intros E p Hp. rewrite <- (overlapping_covers m off (off + zlen sd)) by exact Hp.
  rewrite E. unfold in_ranges. simpl. intros H. by apply Exists_nil in H.
Qed.

(** A buffer of entries as produced by the scan. *)
Lemma btree_entries_ok m hi : segs_wf m → Forall entry_ok (btree_range_to m hi).
Proof.
  intros [He _]. apply list.Forall_forall. intros [o d] [? _]%elem_of_btree_range_to.
  by apply He.
Qed.

Lemma overlapping_nonempty_ranges m ns ne :
  segs_wf m → Forall (λ r, r.1 ≤ r.2) (seg_range <$> overlapping ns ne (btree_range_to m ne)).
Proof.
  intros _. apply Forall_fmap, list.Forall_forall. intros [o d] _. simpl.
  pose proof (zlen_nonneg d). lia.
Qed.

(** The buffer after an insertion: first arrivals keep their bytes, and the
    [k] leading bytes offered fill what was free. *)
Definition first_wins_rel (m m' : gmap Z (list Z)) (off : Z) (sd : list Z) (k : Z) : Prop :=
  ∀ p b, has_byte m' p b ↔
    has_byte m p b ∨ (¬ covered m p ∧ p < off + k ∧ seg_byte off sd p b).

Lemma first_wins_rel_covered m off sd k :
  (∀ p, in_seg off sd p → covered m p) → first_wins_rel m m off sd k.
Proof.
  intros Hc p b. split; [by left|]. intros [?|(Hn & _ & Hb)]; [done|].
  destruct Hn. eauto using seg_byte_in.
Qed.

Definition insert_bytes_ok (max_segments : Z) (d : FlowDirection) (off : Z) (sd : list Z)
    (truncated : bool) (res : panicky (InsertResult * FlowDirection)) : Prop :=
  ∃ r oc m n k, res = Some (r, with_buf (d <| overlap_count := oc |>) m n) ∧
    (oc = overlap_count d ∨ oc = sat_add u32_max (overlap_count d) 1) ∧
    buf_wf max_segments (with_buf d m n) ∧
    buffered_bytes d ≤ n ≤ buffered_bytes d + zlen sd ∧ 0 ≤ k ≤ zlen sd ∧
    first_wins_rel (segments d) m off sd k ∧
    bytes_result (segments d) off sd truncated r k ∧ segments d ⊆ m.

Section insert_bytes.
Context (max_segments : Z) (d : FlowDirection) (off : Z) (sd : list Z) (truncated : bool).
Context (Hwf : buf_wf max_segments d).
Context (Hlt : Z.of_nat (size (segments d)) < max_segments).
Context (Hoff : 0 ≤ off) (Hsd : sd ≠ []) (Hu : off + zlen sd ≤ u64_max).
Context (Hm : buffered_bytes d + zlen sd ≤ usize_max).

Let ne := off + zlen sd.
Let l := btree_range_to (segments d) ne.
Let bumped := d <| overlap_count := sat_add u32_max (overlap_count d) 1 |>.

(** No overlap: the segment is stored as it is. *)
Lemma insert_bytes_fresh :
  overlapping off ne l = [] →
  insert_bytes_ok max_segments d off sd truncated
    (d ← store_segment d off sd; Some (if truncated then Truncated else Inserted, d)).
Proof using Hwf Hlt Hoff Hsd Hu Hm.
  intros Eov. pose proof (no_overlap_free _ _ _ Eov) as Hfree. pose proof (zlen_nonneg sd).
  destruct (store_segment_spec max_segments d off sd) as (Hf & -> & Hwf'); [done..|].
  simpl. eexists _, (overlap_count d), _, _, (zlen sd). split.
  { reflexivity. }
  split_and!; [by left|done|lia|lia|lia|lia| |by destruct truncated|by apply insert_subseteq].
  intros p b. rewrite has_byte_insert by done. fold (seg_byte off sd p b).
  split; (intros [?|Hb]; [by left|right]); [|tauto].
  pose proof (seg_byte_in _ _ _ _ Hb) as Hin.
  split_and!; [by apply Hfree|unfold in_seg in Hin; lia|done].
Qed.

(** Every position already held: nothing is stored. *)
Lemma insert_bytes_covered (hc : bool) :
  (∀ p, in_seg off sd p → covered (segments d) p) →
  (hc = true ↔ ∃ p b b', seg_byte off sd p b ∧ has_byte (segments d) p b' ∧ b ≠ b') →
  insert_bytes_ok max_segments d off sd truncated
    (Some (if hc then ConflictingOverlap else Duplicate, bumped)).
Proof using Hwf.
  intros Hcov Hconf. pose proof (zlen_nonneg sd).
  eexists _, _, (segments d), (buffered_bytes d), (zlen sd).
  split; [by rewrite <- (with_buf_id bumped)|].
  split_and!; [by right|by rewrite with_buf_id|lia|lia|lia|lia| | |done].
  - by apply first_wins_rel_covered.
  - apply covered_result; [by destruct Hwf|done..].
Qed.

(** Some positions free: exactly those are filled. *)
Lemma insert_bytes_gaps gaps :
  gaps ≠ [] → ascending off ne gaps →
  (∀ p, in_ranges gaps p ↔ in_seg off sd p ∧ ¬ covered (segments d) p) →
  insert_bytes_ok max_segments d off sd truncated
    ('(d, segments_exhausted) ← insert_gaps max_segments off sd gaps bumped;
     Some (if segments_exhausted : bool then SegmentLimitReached
           else if truncated then Truncated else PartialOverlap, d)).
Proof using Hwf Hoff Hu Hm.
  intros Hne Hasc Hfree. pose proof (zlen_nonneg sd).
  destruct (insert_gaps_spec max_segments off sd gaps bumped off)
    as (m & n & ex & k & -> & Hwf' & Hn & Hk & Hex & Hby & Hsub);
    [by destruct Hwf|done|lia|lia|done|done|by intros ? [??]%Hfree|simpl; lia|].
  simpl in *. eexists _, _, m, n, (k - off). split; [reflexivity|].
  split_and!; [by right|by destruct Hwf'|lia|lia|lia|lia| | |done].
  - intros p b. rewrite Hby. split; (intros [?|Hb]; [by left|right]).
    + destruct Hb as ([??]%Hfree & ? & ?). split_and!; [done|lia|done].
    + destruct Hb as (? & ? & Hb). split_and!; [|lia|done].
      apply Hfree. eauto using seg_byte_in.
  - destruct ex; [done|]. specialize (Hex eq_refl). destruct truncated; simpl; lia.
Qed.

Lemma insert_bytes_spec :
  insert_bytes_ok max_segments d off sd truncated
    (insert_bytes d off sd truncated max_segments).
Proof using Hwf Hlt Hoff Hsd Hu Hm.
  pose proof (zlen_pos sd Hsd). pose proof (buf_segs _ _ Hwf) as Hsegs.
  unfold insert_bytes. rewrite cadd_Some by done. simpl.
  destruct (scan_overlaps_spec off sd l false false []) as (hc & Hscan & Hhc);
    [done..|by apply btree_entries_ok|]. unfold l, ne in Hscan. rewrite Hscan. clear Hscan.
  simpl. fold ne l.
  assert (hc = true ↔ ∃ p b b', seg_byte off sd p b ∧ has_byte (segments d) p b' ∧ b ≠ b')
    as Hconf. { rewrite <- scan_conflict_spec. unfold l, ne in Hhc. intuition congruence. }
  case_bool_decide as Eov; simpl; [by apply insert_bytes_fresh|].
  pose proof (select_gaps_spec off ne (seg_range <$> overlapping off ne l)
    ltac:(lia) (overlapping_sorted _ _ _) (overlapping_nonempty_ranges _ _ _ Hsegs)) as Hsel.
  destruct (select_gaps _ _ _) as [fc gaps]. destruct Hsel as (Hfc & Hasc & Hgaps).
  assert (∀ p, in_ranges gaps p ↔ in_seg off sd p ∧ ¬ covered (segments d) p) as Hfree.
  { intros p. rewrite Hgaps. unfold in_seg. fold ne.
    pose proof (overlapping_covers (segments d) off ne p). tauto. }
  destruct fc; [apply insert_bytes_covered; [|done]|].
  - intros p Hp. apply (overlapping_covers _ off ne); [exact Hp|].
    destruct (proj1 (list.Exists_exists _ _) (proj1 Hfc eq_refl)) as (r & Hr & [[??] _]).
    apply list.Exists_exists. exists r. split; [done|]. unfold in_range, in_seg in *. lia.
  - destruct (decide (gaps = [])) as [->|Hne].
    + simpl. apply (insert_bytes_covered hc); [|done]. intros p Hp.
      destruct (covered_dec (segments d) p) as [?|Hn]; [done|].
      assert (in_ranges [] p) as Hf by by apply Hfree. by apply Exists_nil in Hf.
    + rewrite (bool_decide_eq_false_2 (gaps = [])) by done. by apply insert_bytes_gaps.
Qed.
End insert_bytes.

(** ** The invariant of one direction *)

Record dir_wf (max_depth max_segments : Z) (d : FlowDirection) : Prop := {
  dw_buf : buf_wf max_segments d;
  dw_reassembled : 0 ≤ reassembled_bytes d;
  (** delivered and buffered bytes never exceed the depth limit *)
  dw_depth : reassembled_bytes d + buffered_bytes d ≤ max_depth;
  (** the flush cursor counts from the byte after the initial sequence number *)
  dw_isn : match isn d with
           | Some i => is_u32 i ∧ base_offset d = 1 + reassembled_bytes d
           | None => segments d = ∅ ∧ base_offset d = 0 ∧ reassembled_bytes d = 0
           end;
  dw_overlap : is_u32 (overlap_count d);
  dw_window : is_u32 (out_of_window_count d)
}.

(** Depth and segment limits a 64-bit build can be configured with. *)
Definition limits_ok (max_depth max_segments : Z) : Prop :=
  0 < max_depth ≤ isize_max ∧ 0 < max_segments.

Lemma seq_offset_range seq i : 0 ≤ seq_offset seq i < 2 ^ 32.
Proof. apply Z.mod_pos_bound. lia. Qed.

Lemma buffered_nonneg max_segments d : buf_wf max_segments d → 0 ≤ buffered_bytes d.
Proof.
  intros [_ -> _]. apply map_sum_nonneg. intros. apply zlen_nonneg.
Qed.

Lemma sat_add_u32 n : is_u32 n → is_u32 (sat_add u32_max n 1).
Proof. unfold is_u32, sat_add, u32_max. lia. Qed.

Lemma dir_wf_new max_depth max_segments :
  limits_ok max_depth max_segments → dir_wf max_depth max_segments FlowDirection_new.
Proof.
  intros [??]. split; simpl; try done; [|lia].
  split; simpl; [apply segs_wf_empty|done|]. rewrite map_size_empty. lia.
Qed.

Lemma dir_wf_set_isn max_depth max_segments d i :
  dir_wf max_depth max_segments d → is_u32 i →
  dir_wf max_depth max_segments (set_isn d i).
Proof.
  intros [? ? ? Hi ? ?] ?. unfold set_isn. destruct (isn d) eqn:E.
  - split; try done. by rewrite E.
  - destruct Hi as (? & ? & ?). split; simpl; try done; [by destruct dw_buf0|].
    split; [done|lia].
Qed.

Lemma infer_isn_set_isn d seq : infer_isn d seq = set_isn d (wrapping_sub32 seq 1).
Proof. done. Qed.

(** Counters and flags that the stream content does not depend on. *)
Definition same_stream (d d' : FlowDirection) : Prop :=
  isn d' = isn d ∧ base_offset d' = base_offset d ∧
  reassembled_bytes d' = reassembled_bytes d.

Lemma dir_wf_frame max_depth max_segments d d' :
  dir_wf max_depth max_segments d → same_stream d d' →
  segments d' = segments d → buffered_bytes d' = buffered_bytes d →
  is_u32 (overlap_count d') → is_u32 (out_of_window_count d') →
  dir_wf max_depth max_segments d'.
Proof.
  intros [[Hs Hb Hc] ? ? ? ? ?] (E1 & E2 & E3) E4 E5 ??.
  split; rewrite ?E1, ?E2, ?E3, ?E4, ?E5; try done. split; by rewrite ?E4, ?E5.
Qed.

(** The abstract insertion: positions already held keep their byte, and the
    free positions among the first [k] of [data] take the new one. *)
Definition first_wins (old : Z → option Z) (off : Z) (data : list Z) (k p : Z) : option Z :=
  match old p with
  | Some b => Some b
  | None => if decide (off ≤ p < off + k) then data !! Z.to_nat (p - off) else None
  end.

(** What each verdict says about the number [k] of bytes taken. *)
Definition insert_verdict (max_depth : Z) (d : FlowDirection) (off : Z) (data : list Z)
    (r : InsertResult) (k : Z) : Prop :=
  let room := max_depth - (reassembled_bytes d + buffered_bytes d) in
  match r with
  | Inserted | PartialOverlap => k = zlen data
  | Truncated => k = room ∧ room < zlen data
  | Duplicate => k = Z.min (zlen data) room ∧
      ∀ p, off ≤ p < off + k → byte_at (segments d) p = data !! Z.to_nat (p - off)
  | ConflictingOverlap => k = Z.min (zlen data) room ∧
      (∀ p, off ≤ p < off + k → is_Some (byte_at (segments d) p)) ∧
      ∃ p, off ≤ p < off + k ∧ byte_at (segments d) p ≠ data !! Z.to_nat (p - off)
  | DepthExceeded | OutOfWindow => k = 0
  | SegmentLimitReached => k ≤ zlen data
  | IsnMissing => False
  end.

Lemma first_wins_rel_fun m m' off sd k :
  segs_wf m → segs_wf m' → 0 ≤ k ≤ zlen sd → first_wins_rel m m' off sd k →
  ∀ p, byte_at m' p = first_wins (byte_at m) off sd k p.
Proof.
  intros Hm Hm' Hk Hrel p. unfold first_wins.
  destruct (byte_at m p) as [b|] eqn:E.
  - apply byte_at_spec; [done|]. apply Hrel. left. by apply byte_at_elim.
  - pose proof (byte_at_None _ _ E) as Hn.
    destruct (byte_at m' p) as [b|] eqn:E'.
    + apply byte_at_elim, Hrel in E' as [?|(_ & ? & Hb)].
      * destruct Hn. apply covered_has_byte. eauto.
      * pose proof (seg_byte_in _ _ _ _ Hb) as Hin. unfold in_seg in Hin.
        rewrite decide_True by lia. symmetry. by apply Hb.
    + case_decide as Hp; [|done]. destruct (sd !! _) as [b|] eqn:Eb; [|done].
      apply byte_at_None in E'. destruct E'. apply covered_has_byte.
      exists b. apply Hrel. right. split_and!; [done|lia|by split; [lia|]].
Qed.

Lemma bytes_result_verdict max_depth d off data sd truncated r k :
  segs_wf (segments d) →
  (truncated = false ∧ sd = data ∧
     reassembled_bytes d + buffered_bytes d + zlen data ≤ max_depth) ∨
  (truncated = true ∧
     sd = truncate (max_depth - (reassembled_bytes d + buffered_bytes d)) data ∧
     0 ≤ max_depth - (reassembled_bytes d + buffered_bytes d) < zlen data) →
  0 ≤ k ≤ zlen sd → bytes_result (segments d) off sd truncated r k →
  insert_verdict max_depth d off data r k.
Proof.
  intros Hwf Hsd Hk Hr.
  assert (zlen sd = Z.min (zlen data) (max_depth - (reassembled_bytes d + buffered_bytes d)))
    as Hlen by (destruct Hsd as [(-> & -> & ?)|(-> & -> & ?)]; rewrite ?zlen_truncate; lia).
  assert (∀ i, (i < Z.to_nat (zlen sd))%nat → sd !! i = data !! i) as Hl.
  { intros i Hi. destruct Hsd as [(-> & -> & ?)|(-> & -> & ?)]; [done|].
    apply lookup_truncate. lia. }
  assert (∀ p, off ≤ p < off + zlen sd → ∃ b, data !! Z.to_nat (p - off) = Some b ∧
    seg_byte off sd p b) as Hb.
  { intros p Hp. destruct (in_seg_lookup off sd p) as [b Hb]; [done|].
    exists b. rewrite <- Hl by lia. unfold seg_byte. split_and!; [done|lia|done]. }
  destruct r; simpl in *; try done; try (destruct Hsd as [(-> & -> & ?)|(-> & -> & ?)]; lia).
  - destruct Hr as [-> Hr]. split; [lia|]. intros p Hp.
    destruct (Hb p Hp) as (b & -> & ?). apply byte_at_spec; auto.
  - destruct Hr as (-> & Hc & p & b & b' & Hsb & Hhb & Hne). split; [lia|]. split.
    + intros q Hq. destruct (proj1 (covered_has_byte _ _) (Hc q Hq)) as [c Hcb].
      exists c. by apply byte_at_spec.
    + exists p. pose proof (seg_byte_in _ _ _ _ Hsb) as Hin. unfold in_seg in Hin.
      split; [lia|]. rewrite (proj2 (byte_at_spec _ _ _ Hwf) Hhb).
      rewrite <- Hl by lia. destruct Hsb as [_ ->]. congruence.
Qed.

Lemma first_wins_0 old off data p : first_wins old off data 0 p = old p.
Proof.
  unfold first_wins. destruct (old p); [done|]. by rewrite decide_False by lia.
Qed.

Lemma first_wins_truncate old off n data k p :
  k ≤ n → first_wins old off (truncate n data) k p = first_wins old off data k p.
Proof.
  intros. unfold first_wins. destruct (old p); [done|]. case_decide; [|done].
  apply lookup_truncate. lia.
Qed.

(** The whole contract of [insert_segment] on a direction whose initial
    sequence number is known. *)
Definition insert_ok (max_depth max_segments : Z) (d : FlowDirection) (off : Z)
    (data : list Z) (res : panicky (InsertResult * FlowDirection)) : Prop :=
  ∃ r d' k, res = Some (r, d') ∧ dir_wf max_depth max_segments d' ∧ same_stream d d' ∧
    buffered_bytes d ≤ buffered_bytes d' ≤ buffered_bytes d + zlen data ∧
    0 ≤ k ≤ zlen data ∧
    (∀ p, byte_at (segments d') p = first_wins (byte_at (segments d)) off data k p) ∧
    insert_verdict max_depth d off data r k ∧ segments d ⊆ segments d'.

(** Verdicts that leave the buffer alone. *)
Lemma insert_ok_rejected max_depth max_segments d d' off data r :
  dir_wf max_depth max_segments d' → same_stream d d' →
  segments d' = segments d → buffered_bytes d' = buffered_bytes d →
  r = OutOfWindow ∨ r = DepthExceeded ∨ r = SegmentLimitReached →
  insert_ok max_depth max_segments d off data (Some (r, d')).
Proof.
  intros ?? Hs Hb Hr. pose proof (zlen_nonneg data). exists r, d', 0.
  split_and!; try done; try lia.
  - intros p. by rewrite first_wins_0, Hs.
  - destruct Hr as [->|[->| ->]]; simpl; lia.
  - by rewrite Hs.
Qed.

Lemma insert_ok_bytes max_depth max_segments d d1 off data sd truncated i :
  dir_wf max_depth max_segments d → isn d = Some i →
  d1 = d ∨ d1 = d <| depth_exceeded := true |> →
  (truncated = false ∧ sd = data ∧
     reassembled_bytes d + buffered_bytes d + zlen data ≤ max_depth) ∨
  (truncated = true ∧
     sd = truncate (max_depth - (reassembled_bytes d + buffered_bytes d)) data ∧
     0 ≤ max_depth - (reassembled_bytes d + buffered_bytes d) < zlen data) →
  insert_bytes_ok max_segments d1 off sd truncated
    (insert_bytes d1 off sd truncated max_segments) →
  insert_ok max_depth max_segments d off data
    (insert_bytes d1 off sd truncated max_segments).
Proof.
  intros Hwf Hisn Hd1 Hsd (r & oc & m & n & k & -> & Hoc & Hb & Hn & Hk & Hrel & Hr & Hsub).
  assert (segments d1 = segments d ∧ buffered_bytes d1 = buffered_bytes d ∧
    overlap_count d1 = overlap_count d) as (E1 & E2 & E3) by by destruct Hd1 as [-> | ->].
  rewrite E1, E2, E3 in *.
  assert (zlen sd = Z.min (zlen data) (max_depth - (reassembled_bytes d + buffered_bytes d)))
    as Hlen by (destruct Hsd as [(-> & -> & ?)|(-> & -> & ?)]; rewrite ?zlen_truncate; lia).
  pose proof Hwf as [Hbuf ? ? Hi Ho ?]. rewrite Hisn in Hi.
  eexists r, _, k. split; [done|]. split_and!; try (simpl; lia).
  - split; simpl; try (by destruct Hd1 as [-> | ->]).
    + by destruct Hb.
    + destruct Hd1 as [-> | ->]; simpl; lia.
    + destruct Hd1 as [-> | ->]; simpl; by rewrite Hisn.
    + destruct Hoc as [-> | ->]; [done|]. by apply sat_add_u32.
  - unfold same_stream. by destruct Hd1 as [-> | ->].
  - simpl. intros p. rewrite (first_wins_rel_fun (segments d) m off sd k)
      by (by destruct Hbuf, Hb || done).
    destruct Hsd as [(-> & -> & ?)|(-> & -> & ?)]; [done|].
    apply first_wins_truncate. lia.
  - eapply bytes_result_verdict; eauto. by destruct Hbuf.
  - done.
Qed.

Lemma insert_segment_spec max_depth max_segments window d seq data i :
  limits_ok max_depth max_segments → dir_wf max_depth max_segments d →
  isn d = Some i → zlen data ≤ isize_max → 0 ≤ window →
  insert_ok max_depth max_segments d (seq_offset seq i) data
    (insert_segment d seq data max_depth max_segments window).
Proof.
  intros [Hmd Hms] Hwf Hi Hlen Hw. pose proof Hwf as [Hbuf Hr Hd Hisn Ho Hoow].
  pose proof (seq_offset_range seq i). pose proof (zlen_nonneg data).
  pose proof (buffered_nonneg _ _ Hbuf).
  unfold insert_segment.
  destruct (decide (data = [])) as [->|Hne].
  { exists Inserted, d, 0. split_and!; try done; try lia.
    intros p. by rewrite first_wins_0. }
  rewrite Hi. rewrite (cadd_Some _ (seq_offset seq i)) by ulia. simpl.
  pose proof (zlen_pos data Hne).
  destruct (Z.ltb_spec (seq_offset seq i + zlen data) (base_offset d)).
  { apply insert_ok_rejected; try done; [|auto].
    eapply dir_wf_frame; try done. by apply sat_add_u32. }
  destruct (Z.ltb_spec (sat_add u64_max (base_offset d) window) (seq_offset seq i)).
  { apply insert_ok_rejected; try done; [|auto].
    eapply dir_wf_frame; try done. by apply sat_add_u32. }
  destruct (Z.leb_spec max_segments (Z.of_nat (size (segments d)))).
  { apply insert_ok_rejected; try done. auto. }
  assert (insert_ok max_depth max_segments d (seq_offset seq i) data
    (Some (DepthExceeded, d <| depth_exceeded := true |>))) as Hdepth.
  { apply insert_ok_rejected; try done; [|auto]. by eapply dir_wf_frame. }
  destruct (Z.eqb_spec (sat_sub max_depth (reassembled_bytes d)) 0); [done|].
  rewrite cadd_Some by ulia. simpl.
  rewrite cadd_Some by ulia. simpl.
  unfold sat_sub in *. rewrite Z.max_r by lia.
  destruct (Z.ltb_spec max_depth (reassembled_bytes d + buffered_bytes d + zlen data)).
  - destruct (Z.eqb_spec (max_depth - (reassembled_bytes d + buffered_bytes d)) 0); [done|].
    assert (zlen (truncate (max_depth - (reassembled_bytes d + buffered_bytes d)) data) =
      max_depth - (reassembled_bytes d + buffered_bytes d)) as Ht
      by (rewrite zlen_truncate; lia).
    eapply insert_ok_bytes; [done|done|by right|right; split_and!; [done..|lia|lia]|].
    apply insert_bytes_spec; simpl; try ulia; [by destruct Hbuf|].
    intros E. rewrite E, zlen_nil in Ht. lia.
  - eapply insert_ok_bytes; [done|done|by left|left; split_and!; [done..|lia]|].
    apply insert_bytes_spec; try ulia; done.
Qed.

(** ** Flushing *)

(** [chunks] tile the stream from [base] on without gap or overlap. *)
Fixpoint contiguous (base : Z) (chunks : list (Z * list Z)) : Prop :=
  match chunks with
  | [] => True
  | (o, data) :: rest => o = base ∧ data ≠ [] ∧ contiguous (base + zlen data) rest
  end.

(** The bytes of a sequence of chunks. *)
Definition chunk_bytes (chunks : list (Z * list Z)) : list Z := concat (chunks.*2).

Lemma chunk_bytes_cons o data chunks :
  zlen (chunk_bytes ((o, data) :: chunks)) = zlen data + zlen (chunk_bytes chunks).
Proof. unfold chunk_bytes. simpl. apply zlen_app. Qed.

Lemma chunk_bytes_app l k :
  zlen (chunk_bytes (l ++ k)) = zlen (chunk_bytes l) + zlen (chunk_bytes k).
Proof. unfold chunk_bytes. by rewrite fmap_app, concat_app, zlen_app. Qed.

(** [d] after delivering [n] bytes, with buffer [m] left. *)
Definition delivered (d : FlowDirection) (m : gmap Z (list Z)) (n : Z) : FlowDirection :=
  d <| segments := m |> <| buffered_bytes := buffered_bytes d - n |>
    <| base_offset := base_offset d + n |>
    <| reassembled_bytes := reassembled_bytes d + n |>.

Lemma delivered_delivered d m m' n n' :
  delivered (delivered d m n) m' n' = delivered d m' (n + n').
Proof. unfold delivered. simpl. f_equal; lia. Qed.

Lemma seg_byte_app o l k p b :
  seg_byte o (l ++ k) p b ↔ seg_byte o l p b ∨ seg_byte (o + zlen l) k p b.
Proof.
  unfold seg_byte, zlen. split.
  - intros [Hp [Hb|[Hge Hb]]%lookup_app_Some]; [by left|right]. split; [lia|].
    rewrite <- Hb. f_equal. lia.
  - intros [[??]|[? Hb]]; (split; [lia|]); apply lookup_app_Some; [by left|right].
    split; [lia|]. rewrite <- Hb. f_equal. lia.
Qed.

Lemma has_byte_delete m o d p b :
  m !! o = Some d →
  has_byte m p b ↔ has_byte (delete o m) p b ∨ seg_byte o d p b.
Proof.
  intros Ho. rewrite <- (insert_delete_id m o d Ho) at 1.
  by rewrite has_byte_insert by apply lookup_delete_eq.
Qed.

(** One round of the loop. *)
Lemma flush_round max_depth max_segments d data :
  limits_ok max_depth max_segments → dir_wf max_depth max_segments d →
  segments d !! base_offset d = Some data →
  data ≠ [] ∧
  csub (buffered_bytes d) (zlen data) = Some (buffered_bytes d - zlen data) ∧
  cadd u64_max (base_offset d) (zlen data) = Some (base_offset d + zlen data) ∧
  cadd usize_max (reassembled_bytes d) (zlen data) = Some (reassembled_bytes d + zlen data) ∧
  dir_wf max_depth max_segments
    (delivered d (delete (base_offset d) (segments d)) (zlen data)).
Proof.
  intros [Hmd _] [[Hs Hb Hc] Hr Hd Hi Ho Hw] Hl.
  destruct (segs_entry _ Hs _ _ Hl) as (H0 & Hne & Hu).
  assert (zlen data ≤ buffered_bytes d).
  { rewrite Hb. apply (map_sum_lookup_le zlen _ (base_offset d)); [|done].
    intros. apply zlen_nonneg. }
  split_and!; [done|apply csub_Some; lia|apply cadd_Some; lia|apply cadd_Some; ulia|].
  pose proof (zlen_nonneg data). split; simpl; try done; try lia.
  - split; simpl; [by apply segs_wf_delete| |].
    + rewrite (map_sum_delete _ _ _ _ Hl). lia.
    + rewrite map_size_delete, Hl. lia.
  - destruct (isn d); [split; [tauto|lia]|]. destruct Hi as (E & _).
    by rewrite E, lookup_empty in Hl.
Qed.

Lemma flush_loop_spec max_depth max_segments fuel d acc :
  limits_ok max_depth max_segments → dir_wf max_depth max_segments d →
  (size (segments d) < fuel)%nat →
  ∃ m chunks, let n := zlen (chunk_bytes chunks) in
    flush_loop fuel d acc = Some (delivered d m n, acc ++ chunks) ∧
    dir_wf max_depth max_segments (delivered d m n) ∧
    m !! (base_offset d + n) = None ∧ contiguous (base_offset d) chunks ∧
    ∀ p b, has_byte (segments d) p b ↔
      has_byte m p b ∨ seg_byte (base_offset d) (chunk_bytes chunks) p b.
Proof.
  intros Hlim. revert d acc. induction fuel as [|fuel IH]; intros d acc Hwf Hf; [lia|].
  simpl. destruct (segments d !! base_offset d) as [data|] eqn:E.
  - destruct (flush_round _ _ _ _ Hlim Hwf E) as (Hne & -> & -> & -> & Hwf'). simpl.
    destruct (IH _ (acc ++ [(base_offset d, data)]) Hwf') as (m & ch & Hfl & Hw & Hm & Hc & Hb).
    { pose proof (map_size_delete_S _ _ _ E). simpl. lia. }
    unfold delivered in Hfl at 1. simpl in Hfl. rewrite Hfl.
    exists m, ((base_offset d, data) :: ch). unfold chunk_bytes in *. simpl in *.
    rewrite zlen_app. rewrite delivered_delivered in *.
    split_and!; [by rewrite <- app_assoc|done|by rewrite Z.add_assoc|done|done|done|].
    intros p b. rewrite (has_byte_delete _ _ _ _ _ E), Hb, seg_byte_app. tauto.
  - assert (delivered d (segments d) 0 = d) as Ed.
    { destruct d. unfold delivered. simpl. f_equal; lia. }
    exists (segments d), []. unfold chunk_bytes. simpl.
    rewrite app_nil_r, zlen_nil, Ed, Z.add_0_r. split_and!; try done.
    intros p b. split; [by left|]. intros [?|[_ Hn]]; [done|]. by rewrite lookup_nil in Hn.
Qed.

Lemma flush_contiguous_spec max_depth max_segments d :
  limits_ok max_depth max_segments → dir_wf max_depth max_segments d →
  ∃ m chunks, let n := zlen (chunk_bytes chunks) in
    flush_contiguous d = Some (delivered d m n, chunks) ∧
    dir_wf max_depth max_segments (delivered d m n) ∧
    m !! (base_offset d + n) = None ∧ contiguous (base_offset d) chunks ∧
    ∀ p b, has_byte (segments d) p b ↔
      has_byte m p b ∨ seg_byte (base_offset d) (chunk_bytes chunks) p b.
Proof. intros. apply (flush_loop_spec max_depth max_segments _ d []); [done..|lia]. Qed.

(** The chain of entries that starts at an offset: each entry begins where the
    one before it ended, and no entry begins where the last one ended. *)
Inductive drains (m : gmap Z (list Z)) : Z → list (Z * list Z) → Prop :=
  | drains_done o : m !! o = None → drains m o []
  | drains_next o data chunks :
      m !! o = Some data → drains m (o + zlen data) chunks →
      drains m o ((o, data) :: chunks).

Lemma drains_delete m k o chunks : k < o → drains (delete k m) o chunks → drains m o chunks.
Proof.
  intros Hk H. induction H as [o Hn|o data chunks Hl _ IH].
  - constructor. by rewrite lookup_delete_ne in Hn by lia.
  - rewrite lookup_delete_ne in Hl by lia. constructor; [done|].
    apply IH. pose proof (zlen_nonneg data). lia.
Qed.

(** The flush hands over the whole chain at the cursor. *)
Lemma flush_loop_drains fuel d acc d' out :
  (∀ o data, segments d !! o = Some data → data ≠ []) →
  flush_loop fuel d acc = Some (d', out) →
  ∃ chunks, out = acc ++ chunks ∧ drains (segments d) (base_offset d) chunks.
Proof.
  revert d acc. induction fuel as [|fuel IH]; intros d acc Hne E; [done|]. simpl in E.
  destruct (segments d !! base_offset d) as [data|] eqn:Hl.
  - peel E. peel E. peel E. apply IH in E as (chunks & -> & Hd).
    2:{ simpl. intros o y [_ ?]%lookup_delete_Some. eauto. }
    exists ((base_offset d, data) :: chunks). rewrite <-app_assoc. split; [done|].
    simpl in *. apply cadd_inv in E1 as [-> _]. constructor; [done|].
    pose proof (zlen_pos _ (Hne _ _ Hl)). apply (drains_delete _ (base_offset d)); [lia|].
    done.
  - simplify_eq. exists []. rewrite app_nil_r. split; [done|by constructor].
Qed.

(** ** Theorems *)

(** C5. First-wins insertion.  On a well-formed direction [insert_segment]
    never panics, keeps the direction well formed, touches neither the cursor
    nor the delivered bytes, and acts on the buffer, read as a partial map from
    stream position to byte, exactly as the abstract [first_wins] insertion of
    the first [k] bytes of the payload: a position already held keeps its byte,
    a free one takes the new byte, nothing else changes.  The verdict says what
    [k] is: all of the payload, what the depth limit leaves, or nothing; and
    [Duplicate] and [ConflictingOverlap] tell an identical retransmission from
    a contradicting one. *)
Theorem insert_segment_first_wins max_depth max_segments window d seq data i :
  limits_ok max_depth max_segments → dir_wf max_depth max_segments d →
  isn d = Some i → zlen data ≤ isize_max → 0 ≤ window →
  ∃ r d' k,
    insert_segment d seq data max_depth max_segments window = Some (r, d') ∧
    dir_wf max_depth max_segments d' ∧ same_stream d d' ∧ 0 ≤ k ≤ zlen data ∧
    (∀ p, byte_at (segments d') p =
       first_wins (byte_at (segments d)) (seq_offset seq i) data k p) ∧
    insert_verdict max_depth d (seq_offset seq i) data r k.
Proof.
  intros. destruct (insert_segment_spec max_depth max_segments window d seq data i)
    as (r & d' & k & ? & ? & ? & _ & ? & ? & ? & _); [done..|]. exists r, d', k. done.
Qed.

(** A direction with bytes 2 and 3 buffered receives bytes 1 to 4, the third
    of them different. *)
Lemma insert_segment_first_wins_witness :
  ∃ d r d', insert_segment (set_isn FlowDirection_new 100) 102 [20; 30] 1000 10 100 =
      Some (Inserted, d) ∧
    insert_segment d 101 [10; 20; 31; 40] 1000 10 100 = Some (r, d') ∧ r = PartialOverlap ∧
    (byte_at (segments d') <$> [1; 2; 3; 4; 5] =
      [Some 10; Some 20; Some 30; Some 40; None]).
Proof.
  assert (limits_ok 1000 10) as Hl by (split; [unfold isize_max|]; lia).
  destruct (insert_segment_spec 1000 10 100 (set_isn FlowDirection_new 100) 102 [20; 30] 100)
    as (r0 & d & k0 & E0 & W0 & (S0 & _) & _).
  - exact Hl.
  - apply dir_wf_set_isn; [by apply dir_wf_new|]. unfold is_u32, u32_max. lia.
  - reflexivity.
  - vm_compute. discriminate.
  - lia.
  - destruct (insert_segment_first_wins 1000 10 100 d 101 [10; 20; 31; 40] 100)
      as (r & d' & k & E1 & _).
    + exact Hl.
    + exact W0.
    + rewrite S0. reflexivity.
    + vm_compute. discriminate.
    + lia.
    + exists d, r, d'. pose proof E0 as E0'. vm_compute in E0. injection E0 as <- <-.
      split; [exact E0'|]. split; [exact E1|].
      vm_compute in E1. injection E1 as <- <-. vm_compute. split; reflexivity.
Defined.

(** The guards of [insert_segment], in the order the code applies them: a
    segment that ends before the cursor or starts beyond the receive window is
    [OutOfWindow] and only bumps its counter; a full buffer answers
    [SegmentLimitReached]; a direction at its depth limit answers
    [DepthExceeded] and latches the flag; none of them stores anything. *)
Theorem insert_segment_guards max_depth max_segments window d seq data i :
  let off := seq_offset seq i in
  let late := off + zlen data < base_offset d ∨ base_offset d + window < off in
  let full := max_segments ≤ Z.of_nat (size (segments d)) in
  let deep := reassembled_bytes d + buffered_bytes d = max_depth in
  limits_ok max_depth max_segments → dir_wf max_depth max_segments d →
  isn d = Some i → data ≠ [] → zlen data ≤ isize_max → 0 ≤ window ≤ isize_max →
  (late → insert_segment d seq data max_depth max_segments window =
     Some (OutOfWindow,
           d <| out_of_window_count := sat_add u32_max (out_of_window_count d) 1 |>)) ∧
  (¬ late → full → insert_segment d seq data max_depth max_segments window =
     Some (SegmentLimitReached, d)) ∧
  (¬ late → ¬ full → deep → insert_segment d seq data max_depth max_segments window =
     Some (DepthExceeded, d <| depth_exceeded := true |>)).
Proof.
  intros off late full deep [Hmd _] [Hbuf Hr Hd Hisn _ _] Hi Hne Hlen Hw.
  pose proof (seq_offset_range seq i) as Ho. fold off in Ho. pose proof (zlen_nonneg data).
  pose proof (buffered_nonneg _ _ Hbuf). rewrite Hi in Hisn.
  assert (sat_add u64_max (base_offset d) window = base_offset d + window) as Hsat
    by (unfold sat_add; ulia).
  unfold insert_segment. rewrite decide_False, Hi by done. fold off.
  rewrite (cadd_Some _ off) by ulia. cbn [mbind option_bind]. rewrite Hsat.
  unfold late, full, deep.
  destruct (Z.ltb_spec (off + zlen data) (base_offset d)); [split_and!; done || lia|].
  destruct (Z.ltb_spec (base_offset d + window) off); [split_and!; done || lia|].
  destruct (Z.leb_spec max_segments (Z.of_nat (size (segments d)))); [split_and!; done || lia|].
  split_and!; [lia|lia|]. intros _ _ Hdeep. unfold sat_sub.
  destruct (Z.eqb_spec (Z.max 0 (max_depth - reassembled_bytes d)) 0); [done|].
  rewrite cadd_Some by ulia. cbn [mbind option_bind]. rewrite cadd_Some by ulia.
  cbn [mbind option_bind]. pose proof (zlen_pos _ Hne).
  rewrite (proj2 (Z.ltb_lt _ _)) by lia. rewrite (proj2 (Z.eqb_eq _ _)) by lia. done.
Qed.

Lemma insert_segment_guards_witness :
  let d := set_isn FlowDirection_new 100 in
  insert_segment d 300 [1] 1000 10 100 =
    Some (OutOfWindow, d <| out_of_window_count := 1 |>).
Proof.
  apply (insert_segment_guards 1000 10 100 (set_isn FlowDirection_new 100) 300 [1] 100).
  - split; [unfold isize_max|]; lia.
  - apply dir_wf_set_isn; [apply dir_wf_new; split; [unfold isize_max|]; lia|].
    unfold is_u32, u32_max. lia.
  - reflexivity.
  - discriminate.
  - vm_compute. discriminate.
  - unfold isize_max. lia.
  - right. vm_compute. reflexivity.
Defined.

(** Gap selection is a partition.  For existing ranges in ascending start
    order, the gaps chosen by [select_gaps] are non-empty, ascending and
    disjoint, and a position of the new range lies in a gap exactly when no
    existing range holds it; [fully_covered] is set exactly when one range
    overlaps and contains the whole new range. *)
Theorem select_gaps_partition new_start new_end existing :
  new_start ≤ new_end → StronglySorted key_le existing → Forall (λ r, r.1 ≤ r.2) existing →
  let '(fully_covered, gaps) := select_gaps new_start new_end existing in
  ascending new_start new_end gaps ∧
  (∀ p, in_ranges gaps p ↔ new_start ≤ p < new_end ∧ ¬ in_ranges existing p) ∧
  (fully_covered = true ↔ Exists (λ r, (r.1 ≤ new_start ∧ new_end ≤ r.2) ∧
     ranges_overlap new_start new_end r.1 r.2 = true) existing).
Proof.
  intros H1 H2 H3. pose proof (select_gaps_spec _ _ _ H1 H2 H3) as H.
  destruct (select_gaps _ _ _). tauto.
Qed.

Lemma select_gaps_partition_witness :
  select_gaps 10 20 [(5, 12); (14, 16); (18, 30)] = (false, [(12, 14); (16, 18)]) ∧
  ascending 10 20 [(12, 14); (16, 18)].
Proof.
  split; [reflexivity|].
  apply (select_gaps_partition 10 20 [(5, 12); (14, 16); (18, 30)]).
  - lia.
  - unfold key_le. repeat constructor; simpl; lia.
  - repeat constructor; simpl; lia.
Defined.

(** The flush delivers exactly the contiguous run at the cursor.  It
    terminates without panicking; the chunks tile the stream from
    [base_offset] on; the cursor, the delivered count and the buffered count
    move by the bytes delivered; no entry starts at the new cursor; and every
    buffered byte is either in the chunks, at its position, or still
    buffered. *)
Theorem flush_contiguous_delivers_run max_depth max_segments d :
  limits_ok max_depth max_segments → dir_wf max_depth max_segments d →
  ∃ d' chunks, let n := zlen (chunk_bytes chunks) in
    flush_contiguous d = Some (d', chunks) ∧ dir_wf max_depth max_segments d' ∧
    contiguous (base_offset d) chunks ∧ base_offset d' = base_offset d + n ∧
    reassembled_bytes d' = reassembled_bytes d + n ∧
    buffered_bytes d' = buffered_bytes d - n ∧ segments d' !! base_offset d' = None ∧
    ∀ p b, byte_at (segments d) p = Some b ↔
      byte_at (segments d') p = Some b ∨ seg_byte (base_offset d) (chunk_bytes chunks) p b.
Proof.
  intros Hl Hw. destruct (flush_contiguous_spec _ _ _ Hl Hw) as (m & ch & E & W & N & C & B).
  exists (delivered d m (zlen (chunk_bytes ch))), ch. split_and!; try done.
  intros p b. rewrite !byte_at_spec; [apply B| |]; [apply W|apply Hw].
Qed.

Lemma flush_contiguous_delivers_run_witness :
  ∃ d d', insert_segment (set_isn FlowDirection_new 100) 101 [10; 20] 1000 10 100 =
      Some (Inserted, d) ∧
    flush_contiguous d = Some (d', [(1, [10; 20])]) ∧ base_offset d' = 3.
Proof.
  assert (limits_ok 1000 10) as Hl by (split; [unfold isize_max|]; lia).
  destruct (insert_segment_spec 1000 10 100 (set_isn FlowDirection_new 100) 101 [10; 20] 100)
    as (r0 & d & k0 & E0 & W0 & (S0 & _) & _).
  - exact Hl.
  - apply dir_wf_set_isn; [by apply dir_wf_new|]. unfold is_u32, u32_max. lia.
  - reflexivity.
  - vm_compute. discriminate.
  - lia.
  - destruct (flush_contiguous_delivers_run 1000 10 d) as (d' & ch & E1 & _).
    + exact Hl.
    + exact W0.
    + exists d, d'. pose proof E0 as E0'. vm_compute in E0. injection E0 as <- <-.
      split; [exact E0'|]. vm_compute in E1. injection E1 as <- <-.
      vm_compute. split; reflexivity.
Defined.
