(* ===== verification/Stream.v ===== *)
(** * What one direction delivers, over any sequence of segments

    The engine treats every payload the same way: [insert_segment], then
    [flush_contiguous] on the same direction.  This file composes the two and
    relates the bytes handed out to the stream the peer sent: nothing but a
    prefix of the stream ever leaves the buffer, segments that tile the stream
    deliver all of it in any arrival order, and a segment that straddles the
    delivery cursor blocks the direction for good. *)

From S2P Require Import Prelude FlowKey Handler Flow Segment.

#[local] Open Scope Z_scope.

Section stream.
Context (max_depth max_segments window : Z).

(** One payload: insert, then flush.  The bytes are those delivered. *)
Definition receive (d : FlowDirection) (seg : Z * list Z) :
    panicky (FlowDirection * list Z) :=
  '(_, d) ← insert_segment d seg.1 seg.2 max_depth max_segments window;
  '(d, chunks) ← flush_contiguous d;
  Some (d, chunk_bytes chunks).

Fixpoint receive_all (d : FlowDirection) (segs : list (Z * list Z)) :
    panicky (FlowDirection * list Z) :=
  match segs with
  | [] => Some (d, [])
  | seg :: rest =>
      '(d, out) ← receive d seg;
      '(d, out') ← receive_all d rest;
      Some (d, out ++ out')
  end.

Context (Hlim : limits_ok max_depth max_segments) (Hwin : 0 ≤ window).

(** ** Soundness: only the stream comes out *)

Section sound.
Context (stream : Z → Z) (i : Z).

(** A segment cut from the stream at its sequence number. *)
Definition genuine (seg : Z * list Z) : Prop :=
  zlen seg.2 ≤ isize_max ∧
  ∀ j b, seg.2 !! j = Some b → b = stream (seq_offset seg.1 i + Z.of_nat j).

(** Every buffered byte is the stream's. *)
Definition holds_stream (d : FlowDirection) : Prop :=
  dir_wf max_depth max_segments d ∧ isn d = Some i ∧
  ∀ p b, byte_at (segments d) p = Some b → b = stream p.

Lemma chunk_bytes_stream base bytes :
  (∀ p b, seg_byte base bytes p b → b = stream p) →
  bytes = stream <$> seqZ base (zlen bytes).
Proof using Type.
  intros Hs. apply list_eq. intros j. rewrite list_lookup_fmap.
  destruct (bytes !! j) as [b|] eqn:E.
  - pose proof (lookup_lt_Some _ _ _ E) as Hj. rewrite lookup_seqZ_lt by (unfold zlen; lia).
    simpl. f_equal. apply Hs. split; [lia|]. rewrite <- E. f_equal. lia.
  - apply lookup_ge_None in E. by rewrite lookup_seqZ_ge by (unfold zlen; lia).
Qed.

Lemma receive_sound d seg :
  holds_stream d → genuine seg →
  ∃ d' out, receive d seg = Some (d', out) ∧ holds_stream d' ∧
    base_offset d' = base_offset d + zlen out ∧
    out = stream <$> seqZ (base_offset d) (zlen out).
Proof using Hlim Hwin.
  intros (Hw & Hi & Hs) [Hlen Hg]. destruct seg as [sq data]. simpl in *.
  destruct (insert_segment_spec _ _ window d sq data i Hlim Hw Hi Hlen Hwin)
    as (r & d1 & k & Hr & Hw1 & (E1 & E2 & E3) & _ & _ & Hb & _).
  assert (∀ p b, byte_at (segments d1) p = Some b → b = stream p) as Hs1.
  { intros p b. rewrite Hb. unfold first_wins.
    destruct (byte_at (segments d) p) as [b'|] eqn:Eb; [naive_solver|].
    case_decide; [|done]. intros ->%Hg. f_equal. lia. }
  destruct (flush_contiguous_spec _ _ _ Hlim Hw1) as (m & ch & Hf & Hw2 & _ & _ & Hhb).
  pose proof (buf_segs _ _ (dw_buf _ _ _ Hw1)) as Hwf1.
  eexists _, _. unfold receive. simpl. rewrite Hr. simpl. rewrite Hf. simpl.
  split; [done|]. split_and!.
  - split_and!; [done|simpl; congruence|]. simpl. intros p b Hpb%byte_at_elim. apply Hs1.
    apply byte_at_spec; [done|]. apply Hhb. by left.
  - simpl. congruence.
  - apply chunk_bytes_stream. intros p b Hpb. apply Hs1, byte_at_spec; [done|].
    apply Hhb. right. congruence.
Qed.

Lemma receive_all_sound segs d :
  holds_stream d → Forall genuine segs →
  ∃ d' out, receive_all d segs = Some (d', out) ∧ holds_stream d' ∧
    base_offset d' = base_offset d + zlen out ∧
    out = stream <$> seqZ (base_offset d) (zlen out).
Proof using Hlim Hwin.
  revert d. induction segs as [|seg segs IH]; intros d Hd Hg; simpl.
  { exists d, []. rewrite zlen_nil. split_and!; [done|done|lia|done]. }
  apply list.Forall_cons in Hg as [Hg Hgs].
  destruct (receive_sound d seg) as (d1 & o1 & -> & H1 & B1 & E1); [done..|]. simpl.
  destruct (IH d1) as (d2 & o2 & -> & H2 & B2 & E2); [done..|]. simpl.
  eexists _, _. split; [done|]. rewrite zlen_app. split_and!; [done|lia|].
  pose proof (zlen_nonneg o1). pose proof (zlen_nonneg o2).
  rewrite seqZ_app by lia. rewrite fmap_app, <- B1. congruence.
Qed.
End sound.

Lemma holds_stream_start stream i :
  is_u32 i → holds_stream stream i (set_isn FlowDirection_new i).
Proof using Hlim.
  intros Hi. split_and!; [|done|done]. apply dir_wf_set_isn; [|done]. by apply dir_wf_new.
Qed.

(** ** Liveness: a tiled stream comes out whole *)

(** Entries left by a flush, when none starts below the cursor. *)
Definition above_base (d : FlowDirection) : Prop :=
  ∀ o data, segments d !! o = Some data → base_offset d ≤ o.

Lemma flush_loop_rest fuel d acc d' out :
  segs_wf (segments d) → above_base d → flush_loop fuel d acc = Some (d', out) →
  segments d' ⊆ segments d ∧ above_base d' ∧ base_offset d ≤ base_offset d' ∧
  ∀ o data, segments d !! o = Some data →
    segments d' !! o = Some data ∨ o + zlen data ≤ base_offset d'.
Proof using Type.
  revert d acc. induction fuel as [|fuel IH]; intros d acc Hwf Hab; [done|].
  simpl. destruct (segments d !! base_offset d) as [data|] eqn:E.
  2:{ intros [= <- <-]. split_and!; [done|done|done|]. by left. }
  destruct (csub _ _) as [b|]; [|done]. simpl.
  destruct (cadd u64_max _ _) as [base|] eqn:Eb; [|done].
  apply cadd_inv in Eb as [-> _]. simpl.
  destruct (cadd usize_max _ _) as [rb|]; [|done]. simpl. intros Hfl.
  pose proof (zlen_nonneg data).
  apply IH in Hfl as (Hsub & Hab' & Hle & Hk); simpl in *; [|by apply segs_wf_delete|].
  - split_and!; [|done|lia|].
    + etransitivity; [done|]. apply delete_subseteq.
    + intros o data' Ho. destruct (decide (base_offset d = o)) as [<-|].
      * right. rewrite E in Ho. injection Ho as <-. lia.
      * apply Hk. by rewrite lookup_delete_ne.
  - intros o data' Ho. simpl in Ho |- *. apply lookup_delete_Some in Ho as [Hne Ho]. pose proof (Hab _ _ Ho).
    destruct (decide (base_offset d + zlen data ≤ o)); [done|].
    destruct (segs_entry _ Hwf _ _ Ho) as (_ & Hd' & _). pose proof (zlen_pos _ Hd').
    destruct Hne. apply (segs_disjoint _ Hwf _ _ _ _ o E Ho); unfold in_seg; lia.
Qed.

(** A segment over free positions, inside every limit, is stored as it is. *)
Lemma insert_segment_fresh d sq data i :
  let off := seq_offset sq i in
  dir_wf max_depth max_segments d → isn d = Some i → data ≠ [] → zlen data ≤ isize_max →
  base_offset d ≤ off + zlen data → off ≤ base_offset d + window →
  Z.of_nat (size (segments d)) < max_segments →
  reassembled_bytes d + buffered_bytes d + zlen data ≤ max_depth →
  (∀ p, in_seg off data p → ¬ covered (segments d) p) →
  insert_segment d sq data max_depth max_segments window =
    Some (Inserted, with_buf d (<[off := data]> (segments d)) (buffered_bytes d + zlen data)).
Proof using Hlim.
  intros off Hw Hi Hne Hlen Hoff Hoff' Hsz Hdep Hfree. pose proof Hw as [Hbuf Hr Hd _ _ _].
  pose proof Hlim as [Hmd _]. pose proof (zlen_pos data Hne).
  pose proof (seq_offset_range sq i). fold off in H0.
  pose proof (buffered_nonneg _ _ Hbuf). unfold insert_segment.
  rewrite decide_False, Hi by done. fold off. rewrite (cadd_Some _ off) by ulia. simpl.
  rewrite (proj2 (Z.ltb_ge _ _)) by lia.
  rewrite (proj2 (Z.ltb_ge _ _)) by (unfold sat_add; ulia).
  rewrite (proj2 (Z.leb_gt _ _)) by lia.
  unfold sat_sub. rewrite (proj2 (Z.eqb_neq _ _)) by lia.
  rewrite cadd_Some by ulia. simpl. rewrite cadd_Some by ulia. simpl.
  rewrite (proj2 (Z.ltb_ge _ _)) by lia.
  unfold insert_bytes. rewrite cadd_Some by ulia. simpl.
  pose proof (buf_segs _ _ Hbuf) as Hsegs.
  destruct (scan_overlaps_spec off data (btree_range_to (segments d) (off + zlen data))
    false false []) as (hc & -> & _); [lia|done|ulia|by apply btree_entries_ok|]. simpl.
  assert (overlapping off (off + zlen data) (btree_range_to (segments d) (off + zlen data)) = [])
    as ->.
  { destruct (overlapping _ _ _) as [|[o d'] l] eqn:E; [done|exfalso].
    destruct (proj1 (elem_of_overlapping (segments d) off (off + zlen data) o d'))
      as (Ho & ? & ?); [rewrite E; by left|].
    destruct (segs_entry _ Hsegs _ _ Ho) as (_ & Hd' & _). pose proof (zlen_pos _ Hd').
    apply (Hfree (Z.max off o)); [unfold in_seg; lia|]. exists o, d'. unfold in_seg.
    split; [done|lia]. }
  simpl. destruct (store_segment_spec max_segments d off data) as (_ & -> & _);
    [done|done|lia|done|ulia|ulia|done|done].
Qed.

Lemma in_contiguous base chunks p :
  contiguous base chunks → base ≤ p < base + zlen (chunk_bytes chunks) →
  ∃ o data, (o, data) ∈ chunks ∧ in_seg o data p.
Proof using Type.
  revert base. induction chunks as [|[o data] chunks IH]; intros base Hc Hp.
  { unfold chunk_bytes in Hp. simpl in Hp. rewrite zlen_nil in Hp. lia. }
  destruct Hc as (-> & Hne & Hc). rewrite chunk_bytes_cons in Hp.
  destruct (decide (p < base + zlen data)).
  - exists base, data. split; [left|unfold in_seg; lia].
  - destruct (IH _ Hc) as (o & d' & ? & ?); [lia|]. exists o, d'. split; [by right|done].
Qed.

Lemma contiguous_bounds base chunks o data :
  contiguous base chunks → (o, data) ∈ chunks →
  base ≤ o ∧ data ≠ [] ∧ o + zlen data ≤ base + zlen (chunk_bytes chunks).
Proof using Type.
  revert base. induction chunks as [|[o' data'] chunks IH]; intros base Hc Hin;
    [by apply not_elem_of_nil in Hin|].
  destruct Hc as (-> & Hne & Hc). rewrite chunk_bytes_cons.
  pose proof (zlen_nonneg data'). pose proof (zlen_nonneg (chunk_bytes chunks)).
  apply elem_of_cons in Hin as [[= -> ->]|Hin]; [split_and!; [lia|done|lia]|].
  destruct (IH _ Hc Hin) as (? & ? & ?). split_and!; [lia|done|lia].
Qed.

(** Two different chunks of a tiling share no position. *)
Lemma contiguous_disjoint base chunks o1 d1 o2 d2 p :
  contiguous base chunks → (o1, d1) ∈ chunks → (o2, d2) ∈ chunks →
  in_seg o1 d1 p → in_seg o2 d2 p → (o1, d1) = (o2, d2).
Proof using Type.
  revert base. induction chunks as [|[o data] chunks IH]; intros base Hc H1 H2 P1 P2;
    [by apply not_elem_of_nil in H1|].
  destruct Hc as (-> & _ & Hc). unfold in_seg in *.
  apply elem_of_cons in H1 as [[= -> ->]|H1]; apply elem_of_cons in H2 as [[= -> ->]|H2].
  - done.
  - destruct (contiguous_bounds _ _ _ _ Hc H2). lia.
  - destruct (contiguous_bounds _ _ _ _ Hc H1). lia.
  - by eapply IH.
Qed.

Lemma contiguous_NoDup base chunks : contiguous base chunks → NoDup chunks.
Proof using Type.
  revert base. induction chunks as [|[o data] chunks IH]; intros base Hc; [constructor|].
  destruct Hc as (-> & Hne & Hc). constructor; [|by eapply IH].
  intros Hin. destruct (contiguous_bounds _ _ _ _ Hc Hin). pose proof (zlen_pos _ Hne). lia.
Qed.

Lemma chunk_bytes_perm l k : l ≡ₚ k → zlen (chunk_bytes l) = zlen (chunk_bytes k).
Proof using Type.
  induction 1 as [|[o d] l k _ IH|[o1 d1] [o2 d2] l|]; rewrite ?chunk_bytes_cons; lia.
Qed.

Section tiling.
Context (i : Z) (chunks : list (Z * list Z)).

Context (Htile : contiguous 1 chunks) (Hdepth : zlen (chunk_bytes chunks) ≤ max_depth)
  (Hn32 : zlen (chunk_bytes chunks) < 2 ^ 32) (Hnw : zlen (chunk_bytes chunks) ≤ window)
  (Hcount : zlen chunks ≤ max_segments).

(** The segment that carries a chunk: the sequence number of its offset. *)
Definition carry (od : Z * list Z) : Z * list Z := ((i + od.1) mod 2 ^ 32, od.2).

Lemma carry_offset o : 0 ≤ o < 2 ^ 32 → seq_offset ((i + o) mod 2 ^ 32) i = o.
Proof using Type.
  intros. unfold seq_offset, wrapping_sub32. rewrite Zminus_mod_idemp_l.
  rewrite Z.add_simpl_l. by apply Z.mod_small.
Qed.

(** The chunks [arrived] are delivered or buffered under their own offset. *)
Record tiled (arrived : list (Z * list Z)) (d : FlowDirection) : Prop := {
  t_wf : dir_wf max_depth max_segments d;
  t_isn : isn d = Some i;
  t_base : above_base d;
  t_flushed : segments d !! base_offset d = None;
  t_in : ∀ o data, segments d !! o = Some data → (o, data) ∈ arrived;
  t_out : ∀ o data, (o, data) ∈ arrived →
    segments d !! o = Some data ∨ o + zlen data ≤ base_offset d;
  t_passed : ∀ p, 1 ≤ p < base_offset d → ∃ o data, (o, data) ∈ arrived ∧ in_seg o data p;
  t_bytes : reassembled_bytes d + buffered_bytes d = zlen (chunk_bytes arrived);
  t_size : (size (segments d) ≤ length arrived)%nat
}.

Lemma tiled_start : is_u32 i → tiled [] (set_isn FlowDirection_new i).
Proof using Hlim.
  intros Hi. split; try done.
  - apply dir_wf_set_isn; [|done]. by apply dir_wf_new.
  - intros o data []%not_elem_of_nil.
  - simpl. lia.
Qed.

(** A chunk that has not arrived meets no buffered or delivered position. *)
Lemma tiled_free arrived rest d o data :
  tiled arrived d → (o, data) :: rest ++ arrived ≡ₚ chunks →
  base_offset d ≤ o ∧ ∀ p, in_seg o data p → ¬ covered (segments d) p.
Proof using All.
  intros Ht Hp. pose proof (contiguous_NoDup _ _ Htile) as Hnd.
  rewrite <- Hp in Hnd. apply list.NoDup_cons in Hnd as [Hnew _].
  assert (∀ od, od ∈ (o, data) :: rest ++ arrived → od ∈ chunks) as Hin
    by (intros; by rewrite <- Hp).
  assert (∀ o' data' p, (o', data') ∈ arrived → in_seg o data p → in_seg o' data' p → False)
    as Hdis.
  { intros o' data' p Ha P1 P2. apply Hnew. apply elem_of_app. right.
    by rewrite (contiguous_disjoint 1 chunks o data o' data' p) by
      (done || (apply Hin; set_solver)). }
  destruct (contiguous_bounds 1 chunks o data) as (? & Hne & _); [done|apply Hin; left|].
  pose proof (zlen_pos _ Hne). split.
  - destruct (decide (base_offset d ≤ o)); [done|exfalso].
    destruct (t_passed _ _ Ht o) as (o' & data' & ? & ?); [lia|].
    eapply Hdis; [done| |done]. unfold in_seg. lia.
  - intros p P1 (o' & data' & Ho & P2). eapply Hdis; [by eapply t_in|done|done].
Qed.

(** A new chunk is stored whole. *)
Lemma insert_tiled arrived rest d o data :
  tiled arrived d → (o, data) :: rest ++ arrived ≡ₚ chunks →
  let d1 := with_buf d (<[o := data]> (segments d)) (buffered_bytes d + zlen data) in
  insert_segment d ((i + o) mod 2 ^ 32) data max_depth max_segments window =
    Some (Inserted, d1) ∧
  dir_wf max_depth max_segments d1 ∧ above_base d1 ∧ segments d !! o = None.
Proof using All.
  intros Ht Hp d1. destruct (tiled_free _ _ _ _ _ Ht Hp) as [Hb Hfree].
  destruct (contiguous_bounds 1 chunks o data) as (? & Hne & ?); [done|rewrite <- Hp; left|].
  pose proof (zlen_pos _ Hne). pose proof (carry_offset o ltac:(lia)) as Hoff.
  pose proof (chunk_bytes_perm _ _ Hp) as Hlen.
  rewrite chunk_bytes_cons, chunk_bytes_app in Hlen.
  pose proof (zlen_nonneg (chunk_bytes rest)). pose proof (Permutation_length Hp) as Hl.
  simpl in Hl. rewrite length_app in Hl. pose proof (t_size _ _ Ht). pose proof (t_bytes _ _ Ht).
  pose proof (t_wf _ _ Ht) as Hw. pose proof Hlim as [Hmd _].
  pose proof (dw_isn _ _ _ Hw) as Hdi. rewrite (t_isn _ _ Ht) in Hdi.
  pose proof (dw_reassembled _ _ _ Hw).
  assert (insert_segment d ((i + o) mod 2 ^ 32) data max_depth max_segments window =
    Some (Inserted, d1)) as Hins.
  { unfold d1. rewrite <- Hoff at 2. apply insert_segment_fresh; rewrite ?Hoff; try done;
      try apply Ht; unfold zlen in *; lia. }
  destruct (insert_segment_spec _ _ window d ((i + o) mod 2 ^ 32) data i Hlim Hw (t_isn _ _ Ht)
    ltac:(lia) Hwin) as (r & d2 & k & Hr & Hw1 & _). rewrite Hins in Hr. simplify_eq.
  split_and!; [done|done| |].
  - intros o' data' Ho. simpl in Ho. apply lookup_insert_Some in Ho as [[<- <-]|[_ Ho]];
      [done|exact (t_base _ _ Ht _ _ Ho)].
  - destruct (segments d !! o) as [data'|] eqn:E; [|done]. exfalso.
    destruct (segs_entry _ (buf_segs _ _ (dw_buf _ _ _ Hw)) _ _ E) as (_ & Hne' & _).
    pose proof (zlen_pos _ Hne'). apply (Hfree o); [unfold in_seg; lia|].
    exists o, data'. unfold in_seg. split; [done|lia].
Qed.

Lemma receive_tiled arrived rest d od :
  tiled arrived d → od :: rest ++ arrived ≡ₚ chunks →
  ∃ d' out, receive d (carry od) = Some (d', out) ∧ tiled (od :: arrived) d'.
Proof using All.
  destruct od as [o data]. intros Ht Hp.
  destruct (insert_tiled _ _ _ _ _ Ht Hp) as (Hins & Hw1 & Hab1 & Hnew).
  set (d1 := with_buf _ _ _) in *.
  destruct (flush_contiguous_spec _ _ _ Hlim Hw1) as (m & ch & Hf & Hw2 & Hm & _ & Hby).
  pose proof Hf as Hf'. apply flush_loop_rest in Hf' as (Hsub & Hab2 & Hle & Hk);
    [|by destruct Hw1 as [[] _ _ _ _ _]|done].
  eexists _, _. unfold receive, carry. simpl. rewrite Hins. simpl. rewrite Hf. simpl.
  split; [done|]. simpl in *. pose proof (zlen_nonneg (chunk_bytes ch)).
  assert (∀ o' data', <[o:=data]> (segments d) !! o' = Some data' →
    (o', data') ∈ (o, data) :: arrived) as Hin.
  { intros o' data' [[<- <-]|[_ Ho']]%lookup_insert_Some; [left|right; by eapply t_in]. }
  pose proof (t_bytes _ _ Ht). pose proof (t_size _ _ Ht).
  split; try done; simpl in *.
  - apply Ht.
  - intros o' data' Ho. apply Hin. by eapply lookup_weaken.
  - intros o' data' [[= -> ->]|Ha]%elem_of_cons; [apply Hk, lookup_insert_eq|].
    destruct (t_out _ _ Ht _ _ Ha) as [Ho|?]; [|right; lia]. apply Hk.
    rewrite lookup_insert_ne by congruence. done.
  - intros p Hpp. destruct (decide (p < base_offset d)).
    + destruct (t_passed _ _ Ht p) as (o' & data' & ? & ?); [lia|].
      exists o', data'. split; [by right|done].
    + destruct (in_seg_lookup (base_offset d) (chunk_bytes ch) p) as [b Hpb];
        [unfold in_seg; lia|].
      assert (covered (<[o:=data]> (segments d)) p) as (o' & data' & Ho' & ?); [|by eauto].
      apply covered_has_byte. exists b. apply Hby. right. split; [lia|done].
  - rewrite chunk_bytes_cons. lia.
  - apply map_subseteq_size in Hsub. rewrite map_size_insert_None in Hsub by done. lia.
Qed.

Lemma receive_all_tiled todo arrived d :
  tiled arrived d → todo ++ arrived ≡ₚ chunks →
  ∃ d' out, receive_all d (carry <$> todo) = Some (d', out) ∧
    reassembled_bytes d' = zlen (chunk_bytes chunks).
Proof using All.
  revert arrived d. induction todo as [|od todo IH]; intros arrived d Ht Hp.
  - simpl in *. exists d, []. split; [done|]. pose proof (t_wf _ _ Ht) as Hw.
    pose proof (dw_isn _ _ _ Hw) as Hdi. rewrite (t_isn _ _ Ht) in Hdi.
    pose proof (chunk_bytes_perm _ _ Hp). pose proof (t_bytes _ _ Ht).
    pose proof (buffered_nonneg _ _ (dw_buf _ _ _ Hw)).
    destruct (decide (reassembled_bytes d < zlen (chunk_bytes chunks))); [exfalso|lia].
    pose proof (dw_reassembled _ _ _ Hw).
    destruct (in_contiguous 1 chunks (base_offset d)) as (o & data & Hin & Hb); [done|lia|].
    rewrite <- Hp in Hin. unfold in_seg in Hb.
    destruct (t_out _ _ Ht _ _ Hin) as [Ho|?]; [|lia].
    pose proof (t_base _ _ Ht _ _ Ho). pose proof (t_flushed _ _ Ht) as Hfl.
    assert (o = base_offset d) as -> by lia. congruence.
  - rewrite fmap_cons. cbn [receive_all].
    destruct (receive_tiled arrived todo d od) as (d1 & o1 & -> & H1); [done..|].
    cbn [mbind option_bind].
    destruct (IH (od :: arrived) d1) as (d2 & o2 & -> & H2); [done| |].
    { rewrite <- Hp. by rewrite <- Permutation_middle. }
    simpl. eauto.
Qed.
End tiling.

(** ** Entries behind the cursor *)

(** A flush never removes an entry that starts below the cursor. *)
Lemma flush_loop_keeps fuel d acc d' out o data :
  segments d !! o = Some data → o < base_offset d →
  flush_loop fuel d acc = Some (d', out) →
  segments d' !! o = Some data ∧ o < base_offset d'.
Proof using Type.
  revert d acc. induction fuel as [|fuel IH]; intros d acc Ho Hlt; [done|]. simpl.
  destruct (segments d !! base_offset d) as [data'|] eqn:E; [|by intros [= <- <-]].
  destruct (csub _ _) as [b|]; [|done]. simpl.
  destruct (cadd u64_max _ _) as [base|] eqn:Eb; [|done]. simpl.
  apply cadd_inv in Eb as [-> _].
  destruct (cadd usize_max _ _) as [rb|]; [|done]. simpl. apply IH; simpl.
  - by rewrite lookup_delete_ne by lia.
  - pose proof (zlen_nonneg data'). lia.
Qed.

(** The entry at [o] stays, whatever arrives. *)
Definition behind (i o : Z) (data : list Z) (d : FlowDirection) : Prop :=
  dir_wf max_depth max_segments d ∧ isn d = Some i ∧
  segments d !! o = Some data ∧ o < base_offset d.

Lemma receive_behind i o data d seg :
  behind i o data d → zlen seg.2 ≤ isize_max →
  ∃ d' out, receive d seg = Some (d', out) ∧ behind i o data d' ∧
    (base_offset d < o + zlen data → out = [] ∧ base_offset d' = base_offset d).
Proof using Hlim Hwin.
  intros (Hw & Hi & Ho & Hlt) Hlen. destruct seg as [sq data']. simpl in *.
  destruct (insert_segment_spec _ _ window d sq data' i Hlim Hw Hi Hlen Hwin)
    as (r & d1 & k & Hr & Hw1 & (E1 & E2 & E3) & _ & _ & _ & _ & Hsub).
  pose proof (lookup_weaken _ _ _ _ Ho Hsub) as Ho1.
  destruct (flush_contiguous_spec _ _ _ Hlim Hw1) as (m & ch & Hf & Hw2 & _).
  pose proof Hf as Hf'. eapply flush_loop_keeps in Hf' as [Ho2 Hlt2]; [|done|lia].
  eexists _, _. unfold receive. simpl. rewrite Hr. simpl. rewrite Hf. simpl.
  split; [done|]. split; [split_and!; [done|simpl; congruence|done|done]|].
  intros Hst. unfold flush_contiguous in Hf. simpl in Hf.
  destruct (segments d1 !! base_offset d1) as [data2|] eqn:E.
  - exfalso. pose proof (buf_segs _ _ (dw_buf _ _ _ Hw1)) as Hsegs.
    destruct (segs_entry _ Hsegs _ _ E) as (_ & Hne & _). pose proof (zlen_pos _ Hne).
    assert (o = base_offset d1); [|lia].
    apply (segs_disjoint _ Hsegs _ _ _ _ (base_offset d1) Ho1 E); unfold in_seg; lia.
  - injection Hf as Hd <-. unfold chunk_bytes. simpl. rewrite zlen_nil. split; [done|lia].
Qed.

Lemma receive_all_behind i o data segs d :
  behind i o data d → Forall (λ seg, zlen seg.2 ≤ isize_max) segs →
  ∃ d' out, receive_all d segs = Some (d', out) ∧ behind i o data d' ∧
    (base_offset d < o + zlen data → out = [] ∧ base_offset d' = base_offset d).
Proof using Hlim Hwin.
  revert d. induction segs as [|seg segs IH]; intros d Hd Hs; simpl; [by eauto 10|].
  apply list.Forall_cons in Hs as [Hs Hss].
  destruct (receive_behind i o data d seg) as (d1 & o1 & -> & H1 & B1); [done..|]. simpl.
  destruct (IH d1) as (d2 & o2 & -> & H2 & B2); [done..|]. simpl.
  eexists _, _. split; [done|]. split; [done|]. intros Hst.
  destruct (B1 Hst) as [-> Hb1]. destruct B2 as [-> Hb2]; [lia|]. split; [done|lia].
Qed.
End stream.

(** ** Theorems *)

(** C4. Soundness of delivery.  Start a direction at initial sequence number
    [i] and feed it any segments whose bytes are cut from one stream: in any
    order, overlapping, repeated, out of the window or past the depth limit.
    Nothing panics, and the concatenation of everything delivered is exactly
    the first [reassembled_bytes] bytes of that stream. *)
Theorem delivered_bytes_are_stream_prefix max_depth max_segments window stream i segs :
  limits_ok max_depth max_segments → 0 ≤ window → is_u32 i → Forall (genuine stream i) segs →
  ∃ d out,
    receive_all max_depth max_segments window (set_isn FlowDirection_new i) segs = Some (d, out) ∧
    dir_wf max_depth max_segments d ∧ zlen out = reassembled_bytes d ∧
    out = stream <$> seqZ 1 (reassembled_bytes d).
Proof.
  intros Hlim Hwin Hi Hg.
  destruct (receive_all_sound _ _ window Hlim Hwin stream i segs (set_isn FlowDirection_new i))
    as (d & out & Hr & (Hw & Hisn & _) & Hb & Ho); [by apply holds_stream_start|done|].
  pose proof (dw_isn _ _ _ Hw) as Hd. rewrite Hisn in Hd. simpl in Hb.
  assert (zlen out = reassembled_bytes d) as Hz by lia.
  exists d, out. split_and!; [done..|]. rewrite Ho, <- Hz at 1. done.
Qed.

(** Out of order, overlapping and repeated segments of the stream [p ↦ p]. *)
Lemma delivered_bytes_are_stream_prefix_witness :
  ∃ d, receive_all 1000 10 100 (set_isn FlowDirection_new 7)
    [(10, [3; 4]); (8, [1; 2; 3]); (8, [1; 2])] = Some (d, seqZ 1 4) ∧ reassembled_bytes d = 4.
Proof.
  destruct (delivered_bytes_are_stream_prefix 1000 10 100 id 7
    [(10, [3; 4]); (8, [1; 2; 3]); (8, [1; 2])]) as (d & out & Hr & _ & _ & _).
  - split; [unfold isize_max|]; lia.
  - lia.
  - unfold is_u32, u32_max. lia.
  - repeat (constructor; [split; [vm_compute; discriminate|]; intros [|[|[|?]]] ?; simpl; intros;
      simplify_eq; vm_compute; reflexivity|]). constructor.
  - exists d. vm_compute in Hr. injection Hr as <- <-. vm_compute. split; reflexivity.
Defined.

Lemma lookup_chunk_bytes base chunks o data j b :
  contiguous base chunks → (o, data) ∈ chunks → data !! j = Some b →
  chunk_bytes chunks !! (Z.to_nat (o - base) + j)%nat = Some b.
Proof.
  revert base. induction chunks as [|[o' data'] chunks IH]; intros base Hc Hin Hj;
    [by apply not_elem_of_nil in Hin|].
  destruct Hc as (-> & Hne & Hc). unfold chunk_bytes. simpl.
  apply elem_of_cons in Hin as [[= -> ->]|Hin].
  - rewrite Z.sub_diag. simpl. by apply lookup_app_l_Some.
  - destruct (contiguous_bounds _ _ _ _ Hc Hin) as (? & _ & _).
    specialize (IH _ Hc Hin Hj). rewrite lookup_app_r by (unfold zlen in *; lia).
    rewrite <- IH. unfold chunk_bytes. f_equal. unfold zlen in *. lia.
Qed.

Lemma genuine_chunk chunks i o data :
  contiguous 1 chunks → zlen (chunk_bytes chunks) < 2 ^ 32 → (o, data) ∈ chunks →
  genuine (λ p, default 0 (chunk_bytes chunks !! Z.to_nat (p - 1))) i (carry i (o, data)).
Proof.
  intros Hc Hn Hin. destruct (contiguous_bounds _ _ _ _ Hc Hin) as (? & Hne & ?).
  pose proof (zlen_pos _ Hne). split; simpl; [unfold isize_max; lia|]. intros j b Hj.
  rewrite carry_offset by lia.
  pose proof (lookup_chunk_bytes 1 chunks o data j b Hc Hin Hj) as Hl.
  replace (Z.to_nat (o + Z.of_nat j - 1)) with (Z.to_nat (o - 1) + j)%nat by lia.
  by rewrite Hl.
Qed.

(** C10. Completeness of delivery.  Cut a stream of at most [max_depth] bytes,
    within the receive window, into at most [max_segments] contiguous pieces
    and let the pieces arrive in any order: every byte is delivered, in
    stream order. *)
Theorem any_arrival_order_delivers_whole_stream max_depth max_segments window i chunks arrival :
  limits_ok max_depth max_segments → 0 ≤ window → is_u32 i → contiguous 1 chunks →
  zlen (chunk_bytes chunks) ≤ max_depth → zlen (chunk_bytes chunks) < 2 ^ 32 →
  zlen (chunk_bytes chunks) ≤ window → zlen chunks ≤ max_segments → arrival ≡ₚ chunks →
  ∃ d, receive_all max_depth max_segments window (set_isn FlowDirection_new i)
         (carry i <$> arrival) = Some (d, chunk_bytes chunks) ∧
    reassembled_bytes d = zlen (chunk_bytes chunks).
Proof.
  intros Hlim Hwin Hi Ht Hd H32 Hw Hc Hp.
  destruct (receive_all_tiled _ _ _ Hlim Hwin i chunks Ht Hd H32 Hw Hc arrival []
    (set_isn FlowDirection_new i)) as (d & out & Hr & Hn);
    [by apply tiled_start|by rewrite app_nil_r|].
  exists d. split; [|done]. rewrite Hr. do 2 f_equal.
  set (stream p := default 0 (chunk_bytes chunks !! Z.to_nat (p - 1))).
  destruct (receive_all_sound _ _ window Hlim Hwin stream i (carry i <$> arrival)
    (set_isn FlowDirection_new i)) as (d' & out' & Hr' & (Hw' & Hisn & _) & Hb & Ho).
  - by apply holds_stream_start.
  - apply Forall_fmap, list.Forall_forall. intros [o data] Hin. rewrite Hp in Hin.
    by apply genuine_chunk.
  - rewrite Hr in Hr'. simplify_eq. pose proof (dw_isn _ _ _ Hw') as Hdi. rewrite Hisn in Hdi.
    simpl in Hb. rewrite Ho. symmetry. simpl.
    rewrite (chunk_bytes_stream stream 1 (chunk_bytes chunks)) at 1.
    + do 2 f_equal. lia.
    + intros p b [Hpp Hb']. unfold stream. by rewrite Hb'.
Qed.

(** Four pieces, last one first. *)
Lemma any_arrival_order_delivers_whole_stream_witness :
  ∃ d, receive_all 1000 10 100 (set_isn FlowDirection_new 4294967290)
    (carry 4294967290 <$> [(7, [70; 80]); (3, [30]); (4, [40; 50; 60]); (1, [10; 20])]) =
      Some (d, [10; 20; 30; 40; 50; 60; 70; 80]) ∧ reassembled_bytes d = 8.
Proof.
  apply (any_arrival_order_delivers_whole_stream 1000 10 100 4294967290
    [(1, [10; 20]); (3, [30]); (4, [40; 50; 60]); (7, [70; 80])]).
  - split; [unfold isize_max|]; lia.
  - lia.
  - unfold is_u32, u32_max. lia.
  - vm_compute. repeat split; discriminate.
  - vm_compute. discriminate.
  - vm_compute. reflexivity.
  - vm_compute. discriminate.
  - vm_compute. discriminate.
  - apply (bool_decide_eq_true_1 _). vm_compute. reflexivity.
Defined.

(** C20. A buffered segment that straddles the delivery cursor blocks its
    direction for good: whatever arrives afterwards, nothing more is delivered
    and the cursor never moves, although insertion keeps succeeding. *)
Theorem straddling_segment_stalls max_depth max_segments window i o data d segs :
  limits_ok max_depth max_segments → 0 ≤ window → dir_wf max_depth max_segments d →
  isn d = Some i → segments d !! o = Some data → o < base_offset d < o + zlen data →
  Forall (λ seg, zlen seg.2 ≤ isize_max) segs →
  ∃ d', receive_all max_depth max_segments window d segs = Some (d', []) ∧
    base_offset d' = base_offset d ∧ reassembled_bytes d' = reassembled_bytes d.
Proof.
  intros Hlim Hwin Hw Hi Ho Hb Hs.
  destruct (receive_all_behind _ _ window Hlim Hwin i o data segs d)
    as (d' & out & Hr & (Hw' & Hi' & _) & Hst); [split_and!; [done..|lia]|done|].
  destruct (Hst ltac:(lia)) as [-> Hb']. exists d'. split_and!; [done|done|].
  pose proof (dw_isn _ _ _ Hw). pose proof (dw_isn _ _ _ Hw').
  rewrite Hi in *. rewrite Hi' in *. lia.
Qed.

(** The state is reached by a retransmission that carries one new byte: after
    bytes 1 to 3 are delivered, a segment with bytes 2 to 4 is accepted; bytes
    4, 5, 6 then arrive and are not delivered. *)
Lemma straddling_segment_stalls_witness :
  ∃ d d',
    receive_all 1000 10 100 (set_isn FlowDirection_new 0) [(1, [1; 2; 3]); (2, [2; 3; 4])] =
      Some (d, [1; 2; 3]) ∧
    receive_all 1000 10 100 d [(4, [4; 5]); (6, [6])] = Some (d', []) ∧
    base_offset d' = base_offset d ∧ reassembled_bytes d' = reassembled_bytes d.
Proof.
  assert (limits_ok 1000 10) as Hlim by (split; [unfold isize_max|]; lia).
  destruct (receive_all_sound 1000 10 100 Hlim ltac:(lia) id 0 [(1, [1; 2; 3]); (2, [2; 3; 4])]
    (set_isn FlowDirection_new 0)) as (d & out & Hr & (Hw & Hi & _) & _ & _).
  - apply holds_stream_start; [done|]. unfold is_u32, u32_max. lia.
  - repeat (constructor; [split; [vm_compute; discriminate|]; intros [|[|[|?]]] ?; simpl; intros;
      simplify_eq; vm_compute; reflexivity|]). constructor.
  - vm_compute in Hr. injection Hr as <- <-.
    match type of Hi with isn ?d = _ => exists d;
      destruct (straddling_segment_stalls 1000 10 100 0 2 [2; 3; 4] d [(4, [4; 5]); (6, [6])])
        as (d' & Hs & Hbr); [done|lia|exact Hw|exact Hi|reflexivity|split; reflexivity|
        repeat (constructor; [vm_compute; discriminate|]); constructor|] end.
    exists d'. split; [vm_compute; reflexivity|]. split; [exact Hs|exact Hbr].
Defined.

(** A retransmission of bytes already delivered that ends exactly at the
    delivery cursor is accepted as new data, and its buffer entry is never
    released by any later segment: it holds memory, a segment slot and stream
    depth until the flow closes. *)
Theorem delivered_retransmission_is_kept max_depth max_segments window i d sq data segs :
  let off := seq_offset sq i in
  limits_ok max_depth max_segments → 0 ≤ window → dir_wf max_depth max_segments d →
  isn d = Some i → data ≠ [] → off + zlen data = base_offset d → above_base d →
  Z.of_nat (size (segments d)) < max_segments →
  reassembled_bytes d + buffered_bytes d + zlen data ≤ max_depth →
  Forall (λ seg, zlen seg.2 ≤ isize_max) segs →
  ∃ d1, insert_segment d sq data max_depth max_segments window = Some (Inserted, d1) ∧
    ∃ d' out, receive_all max_depth max_segments window d1 segs = Some (d', out) ∧
      segments d' !! off = Some data ∧ off < base_offset d'.
Proof.
  intros off Hlim Hwin Hw Hi Hne Hend Hab Hsz Hdep Hs. pose proof (zlen_pos _ Hne).
  pose proof (dw_depth _ _ _ Hw). pose proof (dw_reassembled _ _ _ Hw).
  pose proof (buffered_nonneg _ _ (dw_buf _ _ _ Hw)). pose proof Hlim as [[_ ?] _].
  assert (zlen data ≤ isize_max) as Hlen by lia.
  assert (insert_segment d sq data max_depth max_segments window = Some (Inserted,
    with_buf d (<[off := data]> (segments d)) (buffered_bytes d + zlen data))) as Hins.
  { apply insert_segment_fresh; try done; fold off; try lia.
    intros p Hp (o & d' & Ho & Hin). pose proof (Hab _ _ Ho). unfold in_seg in *. lia. }
  destruct (insert_segment_spec _ _ window d sq data i Hlim Hw Hi Hlen Hwin)
    as (r & d1 & k & Hr & Hw1 & _). rewrite Hins in Hr. simplify_eq.
  eexists. split; [exact Hins|].
  destruct (receive_all_behind _ _ window Hlim Hwin i off data segs _ ltac:(split_and!;
    [exact Hw1|exact Hi|apply lookup_insert_eq|simpl; lia]) Hs) as (d' & out & Hr' & Hb & _).
  exists d', out. split_and!; [exact Hr'|apply Hb..].
Qed.

(** A plain retransmission of the only segment delivered so far. *)
Lemma delivered_retransmission_is_kept_witness :
  ∃ d d1,
    receive_all 1000 10 100 (set_isn FlowDirection_new 0) [(1, [1; 2; 3])] =
      Some (d, [1; 2; 3]) ∧
    insert_segment d 1 [1; 2; 3] 1000 10 100 = Some (Inserted, d1) ∧
    ∃ d' out, receive_all 1000 10 100 d1 [(4, [4; 5])] = Some (d', out) ∧
      segments d' !! 1 = Some [1; 2; 3] ∧ 1 < base_offset d'.
Proof.
  assert (limits_ok 1000 10) as Hlim by (split; [unfold isize_max|]; lia).
  destruct (receive_all_sound 1000 10 100 Hlim ltac:(lia) id 0 [(1, [1; 2; 3])]
    (set_isn FlowDirection_new 0)) as (d & out & Hr & (Hw & Hi & _) & _ & _).
  - apply holds_stream_start; [done|]. unfold is_u32, u32_max. lia.
  - repeat (constructor; [split; [vm_compute; discriminate|]; intros [|[|[|?]]] ?; simpl; intros;
      simplify_eq; vm_compute; reflexivity|]). constructor.
  - vm_compute in Hr. injection Hr as <- <-.
    match type of Hi with isn ?d = _ => exists d;
      destruct (delivered_retransmission_is_kept 1000 10 100 0 d 1 [1; 2; 3] [(4, [4; 5])])
        as (d1 & Hs & Hbr); [done|lia|exact Hw|exact Hi|done|reflexivity|
        intros ? ? Ho; discriminate Ho|vm_compute; reflexivity|vm_compute; discriminate|
        repeat (constructor; [vm_compute; discriminate|]); constructor|] end.
    exists d1. split; [vm_compute; reflexivity|]. split; [exact Hs|exact Hbr].
Defined.
