(* ===== verification/Reassembly.v ===== *)
(** * The TCP reassembly engine (src/reassembly/{mod,lifecycle,config,stats}.rs)

    The flow table and everything a packet does to it, for an arbitrary
    [StreamHandler].  This file is the translation; [ReassemblyFacts] proves
    the engine invariant and [ReassemblyProps] the properties. *)

From S2P Require Import Prelude FlowKey Handler Findings Flow Segment.

#[local] Open Scope Z_scope.

Definition MAX_FINDINGS : Z := 10000.

Record ReassemblyConfig := mkConfig {
  max_depth : Z;
  memcap : Z;
  flow_timeout_secs : Z;
  max_flows : Z;
  max_segments_per_direction : Z;
  max_receive_window : Z;
  overlap_alert_threshold : Z;
  small_segment_alert_threshold : Z;
  small_segment_max_bytes : Z;
  small_segment_ignore_ports : list Z;
  out_of_window_alert_threshold : Z;
  expiry_sweep_interval : Z;
  idle_packet_threshold : Z
}.

(** [ReassemblyConfig::default()]. *)
Definition ReassemblyConfig_default : ReassemblyConfig := {|
  max_depth := 10 * 1024 * 1024;
  memcap := 1024 * 1024 * 1024;
  flow_timeout_secs := 300;
  max_flows := 100000;
  max_segments_per_direction := 10000;
  max_receive_window := 1048576;
  overlap_alert_threshold := 50;
  small_segment_alert_threshold := 100;
  small_segment_max_bytes := 16;
  small_segment_ignore_ports := [23; 513];
  out_of_window_alert_threshold := 100;
  expiry_sweep_interval := 8192;
  idle_packet_threshold := 65536
|}.

Record ReassemblyStats := mkStats {
  packets_processed : Z;
  packets_tcp : Z;
  packets_skipped_non_tcp : Z;
  flows_total : Z;
  flows_partial : Z;
  flows_expired : Z;
  flows_rst : Z;
  flows_fin : Z;
  segments_inserted : Z;
  segments_duplicates : Z;
  segments_overlaps : Z;
  segments_out_of_window : Z;
  segments_segment_limit : Z;
  segments_depth_exceeded : Z;
  bytes_reassembled : Z;
  evictions : Z;
  dropped_findings : Z
}.

#[global] Instance ReassemblyStats_eta : Eta ReassemblyStats := λ s,
  mkStats (packets_processed s) (packets_tcp s) (packets_skipped_non_tcp s) (flows_total s)
    (flows_partial s) (flows_expired s) (flows_rst s) (flows_fin s) (segments_inserted s)
    (segments_duplicates s) (segments_overlaps s) (segments_out_of_window s)
    (segments_segment_limit s) (segments_depth_exceeded s) (bytes_reassembled s)
    (evictions s) (dropped_findings s).

(** [ReassemblyStats::default()]. *)
Definition ReassemblyStats_default : ReassemblyStats :=
  mkStats 0 0 0 0 0 0 0 0 0 0 0 0 0 0 0 0 0.

(** [s.field = s.field.saturating_add(1)] on a [u64] counter. *)
Notation "s ++| f" := (update_field f%function (λ n, sat_add u64_max n 1) s)
  (at level 12, left associativity) : record_update_scope.

Record TcpReassembler := mkReassembler {
  config : ReassemblyConfig;
  flows : gmap FlowKey TcpFlow;
  stats : ReassemblyStats;
  findings : list Finding;
  total_memory : Z;
  finalized : bool;
  last_expiry_sweep_secs : Z;
  packet_index : Z
}.

#[global] Instance TcpReassembler_eta : Eta TcpReassembler := λ r,
  mkReassembler (config r) (flows r) (stats r) (findings r) (total_memory r) (finalized r)
    (last_expiry_sweep_secs r) (packet_index r).

Record TcpFields := mkTcpFields {
  src_port : Z;
  dst_port : Z;
  seq : Z;
  syn : bool;
  ack : bool;
  fin : bool;
  rst : bool
}.

Inductive PostHandshake := Continue | FlowClosed.

Inductive EvictionTrigger := MaxFlows | MemCap.

(** [TcpReassembler::new]; the five [assert!]s. *)
Definition TcpReassembler_new (c : ReassemblyConfig) : panicky TcpReassembler :=
  if (0 <? max_depth c) && (0 <? memcap c) && (0 <? max_flows c) &&
     (0 <? max_segments_per_direction c) && (0 <? max_receive_window c)
  then Some {|
    config := c;
    flows := ∅;
    stats := ReassemblyStats_default;
    findings := [];
    total_memory := 0;
    finalized := false;
    last_expiry_sweep_secs := 0;
    packet_index := 0
  |}
  else None.

(** A [HashMap] iterates in an unspecified order: the engine is translated for
    every function that lists the entries of the flow table in some order. *)
Class HashOrder := {
  hash_iter : gmap FlowKey TcpFlow → list (FlowKey * TcpFlow);
  hash_iter_perm : ∀ m, hash_iter m ≡ₚ map_to_list m
}.

(** Emission under the [MAX_FINDINGS] cap. *)
Definition push_finding (r : TcpReassembler) (f : Finding) : TcpReassembler :=
  if zlen (findings r) <? MAX_FINDINGS
  then r <| findings := findings r ++ [f] |>
  else r <| stats := stats r ++| dropped_findings |>.

Definition generate_conflicting_overlap_finding (r : TcpReassembler) (k : FlowKey)
    (src : IpAddr) (ts : Z) : TcpReassembler :=
  if MAX_FINDINGS <=? zlen (findings r)
  then r <| stats := stats r ++| dropped_findings |>
  else r <| findings := findings r ++ [{|
    category := Anomaly; verdict := Likely; confidence := High;
    summary := [Lit "Conflicting TCP segment overlap on flow "; FKey k];
    evidence := [[Lit "Retransmitted segment contains different data"]];
    mitre_techniques := ["T1036"%string];
    source_ip := Some src; timestamp := Some ts; direction := None |}] |>.

Definition generate_truncated_finding (r : TcpReassembler) (k : FlowKey)
    (src : IpAddr) (ts : Z) : TcpReassembler :=
  if MAX_FINDINGS <=? zlen (findings r)
  then r <| stats := stats r ++| dropped_findings |>
  else r <| findings := findings r ++ [{|
    category := Anomaly; verdict := Inconclusive; confidence := Low;
    summary := [Lit "Stream depth exceeded on flow "; FKey k];
    evidence := [[Lit "Max depth "; Num (max_depth (config r)); Lit " bytes reached"]];
    mitre_techniques := [];
    source_ip := Some src; timestamp := Some ts; direction := None |}] |>.

Section engine.
Context {H : Type} `{StreamHandler H} `{HashOrder}.

(** Hand the flushed chunks of one direction to the handler. *)
Fixpoint deliver_all (k : FlowKey) (dir : Direction) (ts : Z)
    (flushed : list (Z * list Z)) (r : TcpReassembler) (h : H) :
    panicky (TcpReassembler * H) :=
  match flushed with
  | [] => Some (r, h)
  | (offset, data) :: rest =>
      total ← cadd u64_max (bytes_reassembled (stats r)) (zlen data);
      deliver_all k dir ts rest
        (r <| stats := (stats r) <| bytes_reassembled := total |> |>)
        (on_data h k dir data offset ts)
  end.

(** The body of the direction loop of [close_flow]. *)
Definition close_flush_dir (k : FlowKey) (ts : Z) (dir : Direction)
    (flow : TcpFlow) (r : TcpReassembler) (h : H) :
    panicky (TcpFlow * TcpReassembler * H) :=
  '(d, flushed) ← flush_contiguous (get_direction flow dir);
  '(r, h) ← deliver_all k dir ts flushed r h;
  Some (set_direction flow dir d, r, h).

Definition close_flow (r : TcpReassembler) (h : H) (k : FlowKey) (reason : CloseReason) :
    panicky (TcpReassembler * H) :=
  match flows r !! k with
  | None => Some (r, h)
  | Some flow =>
      let r := r <| flows := delete k (flows r) |> in
      let close_timestamp := last_seen flow in
      flow_mem ← memory_used flow;
      '(flow, r, h) ← close_flush_dir k close_timestamp ClientToServer flow r h;
      '(flow, r, h) ← close_flush_dir k close_timestamp ServerToClient flow r h;
      total ← csub (total_memory r) flow_mem;
      Some (r <| total_memory := total |>, on_flow_close h k reason)
  end.

(** Victim order: non-established flows first, then least recently seen. *)
Definition victim_le (a b : FlowKey * bool * Z) : Prop :=
  let '(_, ea, sa) := a in
  let '(_, eb, sb) := b in
  Z.b2z ea < Z.b2z eb ∨ (ea = eb ∧ sa ≤ sb).

#[global] Instance victim_le_dec : RelDecision victim_le.
Proof. intros [[ka ea] sa] [[kb eb] sb]. unfold victim_le. apply _. Defined.

Definition candidates (m : gmap FlowKey TcpFlow) : list (FlowKey * bool * Z) :=
  merge_sort victim_le
    ((λ kf : FlowKey * TcpFlow,
        (kf.1, bool_decide (state kf.2 = Established), last_seen kf.2)) <$> hash_iter m).

Definition flow_count_target (c : ReassemblyConfig) (trigger : EvictionTrigger) : panicky Z :=
  match trigger with
  | MaxFlows =>
      nine ← cmul usize_max (max_flows c) 9;
      Some (Z.min (nine / 10) (sat_sub (max_flows c) 1))
  | MemCap => Some (sat_sub (max_flows c) 1)
  end.

Fixpoint evict_loop (target : Z) (victims : list (FlowKey * bool * Z))
    (r : TcpReassembler) (h : H) : panicky (TcpReassembler * H) :=
  match victims with
  | [] => Some (r, h)
  | (k, _, _) :: rest =>
      if (total_memory r <=? memcap (config r)) &&
         (Z.of_nat (size (flows r)) <=? target)
      then Some (r, h)
      else
        '(r, h) ← close_flow (r <| stats := stats r ++| evictions |>) h k MemoryPressure;
        evict_loop target rest r h
  end.

Definition evict_flows (r : TcpReassembler) (h : H) (trigger : EvictionTrigger) :
    panicky (TcpReassembler * H) :=
  let victims := candidates (flows r) in
  target ← flow_count_target (config r) trigger;
  evict_loop target victims r h.

Definition extract_tcp_context (r : TcpReassembler) (packet : ParsedPacket) :
    TcpReassembler * option (FlowKey * TcpFields) :=
  if decide (protocol packet ≠ PTcp)
  then (r <| stats := stats r ++| packets_skipped_non_tcp |>, None)
  else
    match transport packet with
    | TTcp sp dp sq sy ak fi rs =>
        (r, Some (FlowKey_new (src_ip packet) sp (dst_ip packet) dp,
                  mkTcpFields sp dp sq sy ak fi rs))
    | _ => (r, None)
    end.

(** [flows.get_mut(key).unwrap()] and the write through the reference. *)
Definition get_flow (r : TcpReassembler) (k : FlowKey) : panicky TcpFlow := flows r !! k.
Definition put_flow (r : TcpReassembler) (k : FlowKey) (f : TcpFlow) : TcpReassembler :=
  r <| flows := <[k := f]> (flows r) |>.

(** The admission part of [get_or_create_flow]: [false] means the table is
    full even after eviction. *)
Definition admit_flow (r : TcpReassembler) (h : H) (k : FlowKey) (ts : Z) :
    panicky (TcpReassembler * H * bool) :=
  if decide (is_Some (flows r !! k)) then Some (r, h, true) else
  '(r, h, full) ← (if max_flows (config r) <=? Z.of_nat (size (flows r)) then
                     '(r, h) ← evict_flows r h MaxFlows;
                     Some (r, h, max_flows (config r) <=? Z.of_nat (size (flows r)))
                   else Some (r, h, false));
  if full : bool then Some (r, h, false) else
  let r := r <| flows := <[k := TcpFlow_new k ts]> (flows r) |> in
  Some (r <| stats := stats r ++| flows_total |>, h, true).

Definition get_or_create_flow (r : TcpReassembler) (h : H) (k : FlowKey) (ts : Z) :
    panicky (TcpReassembler * H * bool) :=
  '(r, h, admitted) ← admit_flow r h k ts;
  if negb admitted then Some (r, h, false) else
  flow ← get_flow r k;
  Some (put_flow r k (flow <| last_seen := ts |> <| last_activity_index := packet_index r |>),
        h, true).

(** The SYN and SYN+ACK arms of [apply_handshake_flags], on the flow. *)
Definition handshake_syn (flow : TcpFlow) (packet : ParsedPacket) (tcp : TcpFields) : TcpFlow :=
  if syn tcp && negb (ack tcp) then
    let flow := set_initiator flow (src_ip packet) (src_port tcp) in
    let dir := flow_direction flow (src_ip packet) (src_port tcp) in
    on_syn (set_direction flow dir (set_isn (get_direction flow dir) (seq tcp)))
  else flow.

Definition handshake_syn_ack (flow : TcpFlow) (packet : ParsedPacket) (tcp : TcpFields) : TcpFlow :=
  if syn tcp && ack tcp then
    let flow := set_initiator flow (dst_ip packet) (dst_port tcp) in
    let dir := flow_direction flow (src_ip packet) (src_port tcp) in
    on_syn_ack (set_direction flow dir (set_isn (get_direction flow dir) (seq tcp)))
  else flow.

Definition handshake_fin (flow : TcpFlow) (packet : ParsedPacket) (tcp : TcpFields) : TcpFlow :=
  if fin tcp then
    let dir := flow_direction flow (src_ip packet) (src_port tcp) in
    on_fin (set_direction flow dir ((get_direction flow dir) <| fin_seen := true |>))
  else flow.

Definition apply_handshake_flags (r : TcpReassembler) (h : H) (packet : ParsedPacket)
    (k : FlowKey) (tcp : TcpFields) : panicky (TcpReassembler * H * PostHandshake) :=
  flow ← get_flow r k;
  let flow := handshake_syn flow packet tcp in
  let flow := handshake_syn_ack flow packet tcp in
  if rst tcp then
    let r := put_flow r k (on_rst flow) in
    let r := r <| stats := stats r ++| flows_rst |> in
    '(r, h) ← close_flow r h k Rst;
    Some (r, h, FlowClosed)
  else
    Some (put_flow r k (handshake_fin flow packet tcp), h, Continue).

(** Mid-stream join: the state a payload finds when no SYN was seen. *)
Definition infer_join (r : TcpReassembler) (flow : TcpFlow) (packet : ParsedPacket)
    (tcp : TcpFields) : TcpReassembler * TcpFlow :=
  if decide (state flow = New) then
    let flow := on_data_without_syn flow in
    let flow := set_initiator flow (src_ip packet) (src_port tcp) in
    let dir := flow_direction flow (src_ip packet) (src_port tcp) in
    let flow := set_direction flow dir (infer_isn (get_direction flow dir) (seq tcp)) in
    (r <| stats := stats r ++| flows_partial |>, flow)
  else (r, flow).

Definition ensure_isn (d : FlowDirection) (sq : Z) : FlowDirection :=
  match isn d with
  | None => infer_isn d sq
  | Some _ => d
  end.

(** The consecutive small-segment run of a direction. *)
Definition update_small_run (d : FlowDirection) (max_bytes : Z) (data : list Z)
    (result : InsertResult) : FlowDirection :=
  match data, result with
  | [], _ => d
  | _, (OutOfWindow | SegmentLimitReached | DepthExceeded | IsnMissing) => d
  | _, _ =>
      if zlen data <? max_bytes
      then d <| small_segment_run := sat_add u32_max (small_segment_run d) 1 |>
      else d <| small_segment_run := 0 |>
  end.

(** The per-result counters and findings. *)
Definition record_result (r : TcpReassembler) (k : FlowKey) (src : IpAddr) (ts : Z)
    (bytes_added : Z) (result : InsertResult) : TcpReassembler :=
  match result with
  | Inserted => r <| stats := stats r ++| segments_inserted |>
  | Duplicate => r <| stats := stats r ++| segments_duplicates |>
  | PartialOverlap =>
      r <| stats := stats r ++| segments_overlaps ++| segments_inserted |>
  | ConflictingOverlap =>
      generate_conflicting_overlap_finding
        (r <| stats := stats r ++| segments_overlaps |>) k src ts
  | Truncated =>
      generate_truncated_finding
        (r <| stats := stats r ++| segments_inserted |>) k src ts
  | DepthExceeded => r <| stats := stats r ++| segments_depth_exceeded |>
  | SegmentLimitReached =>
      let r := r <| stats := stats r ++| segments_segment_limit |> in
      if 0 <? bytes_added
      then r <| stats := stats r ++| segments_overlaps ++| segments_inserted |>
      else r
  | OutOfWindow => r <| stats := stats r ++| segments_out_of_window |>
  | IsnMissing => r
  end.

Definition insert_payload_segment (r : TcpReassembler) (packet : ParsedPacket)
    (k : FlowKey) (tcp : TcpFields) (ts : Z) : panicky (TcpReassembler * Direction) :=
  let data := payload packet in
  flow ← get_flow r k;
  let '(r, flow) := infer_join r flow packet tcp in
  let dir := flow_direction flow (src_ip packet) (src_port tcp) in
  let d := ensure_isn (get_direction flow dir) (seq tcp) in
  let before_insert := buffered_bytes d in
  '(result, d) ← insert_segment d (seq tcp) data (max_depth (config r))
                   (max_segments_per_direction (config r)) (max_receive_window (config r));
  let bytes_added := sat_sub (buffered_bytes d) before_insert in
  total ← cadd usize_max (total_memory r) bytes_added;
  let r := r <| total_memory := total |> in
  let d := update_small_run d (small_segment_max_bytes (config r)) data result in
  let r := put_flow r k (set_direction flow dir d) in
  Some (record_result r k (src_ip packet) ts bytes_added result, dir).

(** The three latched alerts of [check_anomaly_thresholds], each on the
    direction it borrows. *)
Definition overlap_alert (r : TcpReassembler) (d : FlowDirection) (packet : ParsedPacket)
    (k : FlowKey) (dir : Direction) (ts : Z) : TcpReassembler * FlowDirection :=
  if (overlap_alert_threshold (config r) <? overlap_count d) && negb (overlap_alert_fired d)
  then (push_finding r {|
          category := Anomaly; verdict := Likely; confidence := Medium;
          summary := [Lit "Excessive segment overlaps ("; Num (overlap_count d);
                      Lit ") on flow "; FKey k];
          evidence := [[Lit "Possible evasion attempt"]];
          mitre_techniques := ["T1036"%string];
          source_ip := Some (src_ip packet); timestamp := Some ts;
          direction := Some dir |},
        d <| overlap_alert_fired := true |>)
  else (r, d).

Definition small_segment_alert (r : TcpReassembler) (d : FlowDirection)
    (packet : ParsedPacket) (k : FlowKey) (dir : Direction) (ts : Z) :
    TcpReassembler * FlowDirection :=
  if (small_segment_alert_threshold (config r) <? small_segment_run d) &&
     negb (small_segment_alert_fired d) &&
     negb (existsb (λ p, (p =? lower_port k) || (p =? upper_port k))
             (small_segment_ignore_ports (config r)))
  then (push_finding r {|
          category := Anomaly; verdict := Inconclusive; confidence := Medium;
          summary := [Lit "Excessive consecutive small segments ("; Num (small_segment_run d);
                      Lit ") on flow "; FKey k];
          evidence := [[Lit "Long unbroken run of undersized TCP segments; possible segmentation-based IDS evasion"]];
          mitre_techniques := [];
          source_ip := Some (src_ip packet); timestamp := Some ts;
          direction := Some dir |},
        d <| small_segment_alert_fired := true |>)
  else (r, d).

Definition out_of_window_alert (r : TcpReassembler) (d : FlowDirection)
    (packet : ParsedPacket) (k : FlowKey) (dir : Direction) (ts : Z) :
    TcpReassembler * FlowDirection :=
  if (out_of_window_alert_threshold (config r) <? out_of_window_count d) &&
     negb (out_of_window_alert_fired d)
  then (push_finding r {|
          category := Anomaly; verdict := Inconclusive; confidence := Low;
          summary := [Lit "Excessive out-of-window segments ("; Num (out_of_window_count d);
                      Lit ") on flow "; FKey k];
          evidence := [[Lit "max_receive_window="; Num (max_receive_window (config r));
                        Lit " bytes; possible misconfiguration, evasion, or capture corruption"]];
          mitre_techniques := [];
          source_ip := Some (src_ip packet); timestamp := Some ts;
          direction := Some dir |},
        d <| out_of_window_alert_fired := true |>)
  else (r, d).

Definition check_anomaly_thresholds (r : TcpReassembler) (packet : ParsedPacket)
    (k : FlowKey) (dir : Direction) (ts : Z) : panicky TcpReassembler :=
  flow ← get_flow r k;
  let d := get_direction flow dir in
  let '(r, d) := overlap_alert r d packet k dir ts in
  let '(r, d) := small_segment_alert r d packet k dir ts in
  let '(r, d) := out_of_window_alert r d packet k dir ts in
  Some (put_flow r k (set_direction flow dir d)).

Definition flush_contiguous_data (r : TcpReassembler) (h : H) (k : FlowKey)
    (dir : Direction) (ts : Z) : panicky (TcpReassembler * H) :=
  flow ← get_flow r k;
  let d := get_direction flow dir in
  let before_flush := buffered_bytes d in
  '(d, flushed) ← flush_contiguous d;
  let r := put_flow r k (set_direction flow dir d) in
  freed ← csub before_flush (buffered_bytes d);
  total ← csub (total_memory r) freed;
  deliver_all k dir ts flushed (r <| total_memory := total |>) h.

(** Close every listed flow as expired. *)
Fixpoint expire_keys (keys : list FlowKey) (r : TcpReassembler) (h : H) :
    panicky (TcpReassembler * H) :=
  match keys with
  | [] => Some (r, h)
  | k :: rest =>
      '(r, h) ← close_flow (r <| stats := stats r ++| flows_expired |>) h k Timeout;
      expire_keys rest r h
  end.

Definition idle_by_timeout (timeout current_time : Z) (flow : TcpFlow) : bool :=
  (last_seen flow <? current_time) && (timeout <? current_time - last_seen flow).

Definition idle_by_packets (threshold current : Z) (flow : TcpFlow) : bool :=
  threshold <? sat_sub current (last_activity_index flow).

(** [self.flows.iter().filter(p).map(|(key, _)| key.clone()).collect()]. *)
Definition matching_keys (r : TcpReassembler) (p : TcpFlow → bool) : list FlowKey :=
  (filter (λ kf : FlowKey * TcpFlow, p kf.2 = true) (hash_iter (flows r))).*1.

Definition expire_idle_by_timeout (r : TcpReassembler) (h : H) (current_time : Z) :
    panicky (TcpReassembler * H) :=
  expire_keys (matching_keys r (idle_by_timeout (flow_timeout_secs (config r)) current_time)) r h.

Definition expire_idle_by_packet_index (r : TcpReassembler) (h : H) :
    panicky (TcpReassembler * H) :=
  expire_keys
    (matching_keys r (idle_by_packets (idle_packet_threshold (config r)) (packet_index r))) r h.

Definition expire_flows (r : TcpReassembler) (h : H) (current_time : Z) :
    panicky (TcpReassembler * H) :=
  expire_keys
    (matching_keys r (λ flow, bool_decide (state flow = Closed) ||
       idle_by_timeout (flow_timeout_secs (config r)) current_time flow)) r h.

(** The two sweeps that open [process_packet]. *)
Definition sweep_by_time (r : TcpReassembler) (h : H) (ts : Z) : panicky (TcpReassembler * H) :=
  if last_expiry_sweep_secs r <? ts
  then expire_idle_by_timeout (r <| last_expiry_sweep_secs := ts |>) h ts
  else Some (r, h).

Definition sweep_by_index (r : TcpReassembler) (h : H) : panicky (TcpReassembler * H) :=
  if is_multiple_of (packet_index r) (expiry_sweep_interval (config r))
  then expire_idle_by_packet_index r h
  else Some (r, h).

(** Payload handling: insert, thresholds, flush. *)
Definition process_payload (r : TcpReassembler) (h : H) (packet : ParsedPacket)
    (k : FlowKey) (tcp : TcpFields) (ts : Z) : panicky (TcpReassembler * H) :=
  if decide (payload packet = []) then Some (r, h) else
  '(r, dir) ← insert_payload_segment r packet k tcp ts;
  r ← check_anomaly_thresholds r packet k dir ts;
  flush_contiguous_data r h k dir ts.

(** Removal of a flow that FIN-closed, and memcap eviction. *)
Definition remove_if_closed (r : TcpReassembler) (h : H) (k : FlowKey) :
    panicky (TcpReassembler * H) :=
  match flows r !! k with
  | Some f =>
      if decide (state f = Closed)
      then close_flow (r <| stats := stats r ++| flows_fin |>) h k Fin
      else Some (r, h)
  | None => Some (r, h)
  end.

Definition enforce_memcap (r : TcpReassembler) (h : H) : panicky (TcpReassembler * H) :=
  if memcap (config r) <? total_memory r then evict_flows r h MemCap else Some (r, h).

Definition process_packet (r : TcpReassembler) (h : H) (packet : ParsedPacket) (ts : Z) :
    panicky (TcpReassembler * H) :=
  let r := r <| stats := stats r ++| packets_processed |> in
  index ← cadd u64_max (packet_index r) 1;
  let r := r <| packet_index := index |> in
  '(r, h) ← sweep_by_time r h ts;
  '(r, h) ← sweep_by_index r h;
  match extract_tcp_context r packet with
  | (r, None) => Some (r, h)
  | (r, Some (k, tcp)) =>
      let r := r <| stats := stats r ++| packets_tcp |> in
      '(r, h, admitted) ← get_or_create_flow r h k ts;
      if negb admitted then Some (r, h) else
      '(r, h, post) ← apply_handshake_flags r h packet k tcp;
      match post with
      | FlowClosed => Some (r, h)
      | Continue =>
          '(r, h) ← process_payload r h packet k tcp ts;
          '(r, h) ← remove_if_closed r h k;
          enforce_memcap r h
      end
  end.

Fixpoint close_all (keys : list FlowKey) (r : TcpReassembler) (h : H) :
    panicky (TcpReassembler * H) :=
  match keys with
  | [] => Some (r, h)
  | k :: rest => '(r, h) ← close_flow r h k Timeout; close_all rest r h
  end.

Definition plural_s (count : Z) : string := if count =? 1 then "" else "s".

Definition segment_limit_finding (count : Z) : Finding := {|
  category := Anomaly; verdict := Inconclusive; confidence := Medium;
  summary := [Num count; Lit " segment"; Lit (plural_s count);
              Lit " dropped due to per-flow segment count limit"];
  evidence := [[Lit "Segment count limit prevents BTreeMap overhead explosion"];
               [Lit "May indicate segmentation-based evasion attempt"]];
  mitre_techniques := [];
  source_ip := None; timestamp := None; direction := None |}.

Definition finalize (r : TcpReassembler) (h : H) : panicky (TcpReassembler * H) :=
  if finalized r then Some (r, h) else
  let r := r <| finalized := true |> in
  '(r, h) ← close_all (hash_iter (flows r)).*1 r h;
  let count := segments_segment_limit (stats r) in
  Some (if 0 <? count
        then r <| findings := findings r ++ [segment_limit_finding count] |>
        else r, h).
End engine.

(** A whole capture: the packets in order, each with its timestamp. *)
Fixpoint run_packets {H} `{StreamHandler H} `{HashOrder} (r : TcpReassembler) (h : H)
    (packets : list (ParsedPacket * Z)) : panicky (TcpReassembler * H) :=
  match packets with
  | [] => Some (r, h)
  | (p, ts) :: rest => '(r, h) ← process_packet r h p ts; run_packets r h rest
  end.

(** [summarize]. *)
Definition summarize (r : TcpReassembler) : panicky AnalysisSummary :=
  let s := stats r in
  completed ← cadd u64_max (flows_fin s) (flows_rst s);
  Some {|
    analyzer_name := "TCP Reassembly";
    packets_analyzed := packets_tcp s;
    detail := list_to_map [
      ("packets_processed"%string, JNum (packets_processed s));
      ("packets_skipped_non_tcp"%string, JNum (packets_skipped_non_tcp s));
      ("flows_total"%string, JNum (flows_total s));
      ("flows_partial"%string, JNum (flows_partial s));
      ("flows_fin"%string, JNum (flows_fin s));
      ("flows_rst"%string, JNum (flows_rst s));
      ("flows_completed"%string, JNum completed);
      ("flows_expired"%string, JNum (flows_expired s));
      ("evictions"%string, JNum (evictions s));
      ("segments_inserted"%string, JNum (segments_inserted s));
      ("segments_duplicates"%string, JNum (segments_duplicates s));
      ("segments_overlaps"%string, JNum (segments_overlaps s));
      ("segments_out_of_window"%string, JNum (segments_out_of_window s));
      ("segments_segment_limit"%string, JNum (segments_segment_limit s));
      ("segments_depth_exceeded"%string, JNum (segments_depth_exceeded s));
      ("bytes_reassembled"%string, JNum (bytes_reassembled s));
      ("dropped_findings"%string, JNum (dropped_findings s))]
  |}.
