(* ===== verification/ReassemblyFacts.v ===== *)
(** * The engine invariant

    Every operation of [Reassembly] runs without panicking on a state that
    satisfies the invariant, preserves it, and calls the handler with an
    ordered sequence of events that does not depend on the handler. *)

From S2P Require Import Prelude FlowKey Handler Findings Flow Segment Reassembly.

#[local] Open Scope Z_scope.

(** ** Ordered traces *)

(** Next stream offset due for each flow and direction. *)
Abbreviation cursors := (FlowKey → Direction → Z).

Definition advance (c : cursors) (k : FlowKey) (dir : Direction) (n : Z) : cursors :=
  λ k' dir', if decide (k' = k ∧ dir' = dir) then n else c k' dir'.

(** Closing a flow starts its key afresh at offset 1. *)
Definition restart (c : cursors) (k : FlowKey) : cursors :=
  λ k' dir', if decide (k' = k) then 1 else c k' dir'.

(** [ordered c es c']: read from cursors [c], every chunk of [es] starts
    exactly where the previous one of its flow and direction ended, no chunk
    is empty, and the cursors end at [c']. *)
Inductive ordered : cursors → trace → cursors → Prop :=
  | ordered_nil c c' : (∀ k dir, c' k dir = c k dir) → ordered c [] c'
  | ordered_data c c' k dir data off ts es :
      off = c k dir → data ≠ [] → ordered (advance c k dir (off + zlen data)) es c' →
      ordered c (EData k dir data off ts :: es) c'
  | ordered_close c c' k reason es :
      ordered (restart c k) es c' → ordered c (EClose k reason :: es) c'.

Lemma ordered_ext c1 c2 es c' :
  (∀ k dir, c2 k dir = c1 k dir) → ordered c1 es c' → ordered c2 es c'.
Proof.
  intros Heq Ho. revert c2 Heq. induction Ho as [c c' He|c c' k dir data off ts es -> Hd _ IH|
    c c' k reason es _ IH]; intros c2 Heq; constructor; auto.
  - intros. by rewrite He, Heq.
  - apply IH. intros k' dir'. unfold advance. case_decide; auto.
  - apply IH. intros k' dir'. unfold restart. case_decide; auto.
Qed.

Lemma ordered_app c1 c2 c3 es1 es2 :
  ordered c1 es1 c2 → ordered c2 es2 c3 → ordered c1 (es1 ++ es2) c3.
Proof.
  induction 1; intros; simpl; [|constructor; auto..].
  eapply ordered_ext; [|done]. auto.
Qed.

(** ** The invariant *)

Definition flow_mem (f : TcpFlow) : Z :=
  buffered_bytes (client_to_server f) + buffered_bytes (server_to_client f).

Record cfg_ok (c : ReassemblyConfig) : Prop := {
  cfg_limits : limits_ok (max_depth c) (max_segments_per_direction c);
  cfg_memcap : 0 < memcap c;
  cfg_flows : 0 < max_flows c ∧ max_flows c * 9 ≤ usize_max;
  cfg_window : 0 < max_receive_window c
}.

Record flow_wf (c : ReassemblyConfig) (k : FlowKey) (f : TcpFlow) : Prop := {
  fw_key : key f = k;
  fw_dirs : ∀ dir, dir_wf (max_depth c) (max_segments_per_direction c) (get_direction f dir);
  fw_fin : fin_inv f
}.

Record eng_wf (r : TcpReassembler) : Prop := {
  ew_cfg : cfg_ok (config r);
  ew_flows : ∀ k f, flows r !! k = Some f → flow_wf (config r) k f;
  ew_memory : total_memory r = map_sum flow_mem (flows r);
  ew_count : Z.of_nat (size (flows r)) ≤ max_flows (config r);
  ew_findings : zlen (findings r) ≤ MAX_FINDINGS + Z.b2z (finalized r);
  ew_index : 0 ≤ packet_index r;
  ew_bytes : 0 ≤ bytes_reassembled (stats r)
}.

(** Bytes delivered plus bytes that may still be. *)
Definition budget (r : TcpReassembler) : Z := bytes_reassembled (stats r) + total_memory r.

(** Where the next chunk of a flow and direction starts. *)
Definition stream_cursor (r : TcpReassembler) : cursors := λ k dir,
  match flows r !! k with
  | Some f => Z.max 1 (base_offset (get_direction f dir))
  | None => 1
  end.

(** One engine step from [r] to [r'], emitting [es], on at most [extra] new
    bytes. *)
Record step_ok (r : TcpReassembler) (es : trace) (r' : TcpReassembler) (extra : Z) : Prop := {
  so_wf : eng_wf r';
  so_config : config r' = config r;
  so_finalized : finalized r' = finalized r;
  so_index : packet_index r' = packet_index r;
  so_budget : budget r' ≤ budget r + extra;
  so_memory : total_memory r' ≤ total_memory r + extra;
  so_ordered : ordered (stream_cursor r) es (stream_cursor r');
  so_delivered : bytes_reassembled (stats r') = bytes_reassembled (stats r) + trace_bytes es
}.

Lemma step_ok_trans r1 r2 r3 es1 es2 n1 n2 :
  step_ok r1 es1 r2 n1 → step_ok r2 es2 r3 n2 → step_ok r1 (es1 ++ es2) r3 (n1 + n2).
Proof.
  intros [] []. split; try congruence; [lia|lia|eapply ordered_app; eauto|].
  rewrite trace_bytes_app. lia.
Qed.

Lemma step_ok_weaken r es r' n m : n ≤ m → step_ok r es r' n → step_ok r es r' m.
Proof. intros ? []. split; try done; lia. Qed.

Lemma step_ok_refl r : eng_wf r → step_ok r [] r 0.
Proof. intros. split; try done; [lia|lia|by constructor|simpl; lia]. Qed.

Lemma dir_wf_nonneg md ms d : dir_wf md ms d → 0 ≤ buffered_bytes d.
Proof. intros [Hb _ _ _ _ _]. by eapply buffered_nonneg. Qed.

Lemma flow_mem_nonneg c k f : flow_wf c k f → 0 ≤ flow_mem f.
Proof.
  intros [_ Hd _]. unfold flow_mem.
  pose proof (dir_wf_nonneg _ _ _ (Hd ClientToServer)).
  pose proof (dir_wf_nonneg _ _ _ (Hd ServerToClient)). simpl in *. lia.
Qed.

Lemma eng_mem_nonneg r : eng_wf r → 0 ≤ total_memory r.
Proof.
  intros []. rewrite ew_memory0. apply map_sum_nonneg. intros. by eapply flow_mem_nonneg, ew_flows0.
Qed.

Lemma eng_mem_le r k f : eng_wf r → flows r !! k = Some f → flow_mem f ≤ total_memory r.
Proof.
  intros [] Hk. rewrite ew_memory0. eapply map_sum_lookup_le; [|done].
  intros. by eapply flow_mem_nonneg, ew_flows0.
Qed.

Lemma memory_used_spec c k f :
  cfg_ok c → flow_wf c k f → memory_used f = Some (flow_mem f).
Proof.
  intros [[[_ ?] _] _ _ _] [_ Hd _]. unfold memory_used, dir_memory_used. apply cadd_Some.
  destruct (Hd ClientToServer) as [_ ? ? _ _ _]. destruct (Hd ServerToClient) as [_ ? ? _ _ _].
  simpl in *. ulia.
Qed.

(** ** Delivery *)

Definition data_events (k : FlowKey) (dir : Direction) (ts : Z) (chunks : list (Z * list Z)) :
    trace := (λ od : Z * list Z, EData k dir od.2 od.1 ts) <$> chunks.

Definition add_bytes (r : TcpReassembler) (n : Z) : TcpReassembler :=
  r <| stats := (stats r) <| bytes_reassembled := bytes_reassembled (stats r) + n |> |>.

Lemma add_bytes_0 r : add_bytes r 0 = r.
Proof.
  destruct r as [c fl [] fi tm fz ls pi]. unfold add_bytes. simpl. do 2 f_equal. lia.
Qed.

Lemma add_bytes_add r n m : add_bytes (add_bytes r n) m = add_bytes r (n + m).
Proof. unfold add_bytes. simpl. do 2 f_equal. lia. Qed.

Lemma deliver_all_spec {H} `{StreamHandler H} k dir ts chunks r (h : H) :
  bytes_reassembled (stats r) + zlen (chunk_bytes chunks) ≤ u64_max →
  deliver_all k dir ts chunks r h =
    Some (add_bytes r (zlen (chunk_bytes chunks)), replay h (data_events k dir ts chunks)).
Proof.
  revert r h. induction chunks as [|[o data] chunks IH]; intros r h Hb.
  - unfold chunk_bytes. simpl. by rewrite zlen_nil, add_bytes_0.
  - simpl. rewrite chunk_bytes_cons in Hb |- *.
    pose proof (zlen_nonneg (chunk_bytes chunks)).
    rewrite cadd_Some by lia. simpl. rewrite IH by (simpl; lia).
    do 2 f_equal. apply (add_bytes_add r).
Qed.

Lemma advance_eq c k dir n : advance c k dir n k dir = n.
Proof. unfold advance. by rewrite decide_True. Qed.

Lemma advance_advance c k dir n m k' dir' :
  advance (advance c k dir n) k dir m k' dir' = advance c k dir m k' dir'.
Proof. unfold advance. by case_decide. Qed.

Lemma ordered_chunks c k dir ts chunks :
  contiguous (c k dir) chunks →
  ordered c (data_events k dir ts chunks)
    (advance c k dir (c k dir + zlen (chunk_bytes chunks))).
Proof.
  revert c. induction chunks as [|[o data] chunks IH]; intros c Hc.
  - constructor. intros k' dir'. unfold advance. case_decide as E; [|done].
    destruct E as [-> ->]. unfold chunk_bytes. simpl. rewrite zlen_nil. lia.
  - destruct Hc as (-> & Hne & Hc). rewrite chunk_bytes_cons.
    simpl. constructor; [done|done|].
    specialize (IH (advance c k dir (c k dir + zlen data))).
    rewrite advance_eq in IH. specialize (IH Hc). rewrite <- Z.add_assoc in IH.
    rewrite <- (app_nil_r (data_events _ _ _ _)). eapply ordered_app; [exact IH|].
    constructor. intros. by rewrite advance_advance.
Qed.

(** A chunk sequence from a cursor that is clamped at 1: only a direction with
    no initial sequence number has its cursor below 1, and it buffers nothing. *)
Lemma contiguous_clamped md ms d m chunks :
  dir_wf md ms d → contiguous (base_offset d) chunks →
  (∀ p b, has_byte (segments d) p b ↔
     has_byte m p b ∨ seg_byte (base_offset d) (chunk_bytes chunks) p b) →
  contiguous (Z.max 1 (base_offset d)) chunks.
Proof.
  intros [[Hs _ _] Hr _ Hi _ _] Hc Hb. destruct (isn d) as [i|].
  - by rewrite Z.max_r by lia.
  - destruct Hi as (E & _ & _). destruct chunks as [|[o data] ch]; [done|].
    destruct Hc as (-> & Hne & _). destruct data as [|x data]; [done|].
    assert (has_byte (segments d) (base_offset d) x) as (o & d' & Ho & _).
    { apply Hb. right. unfold chunk_bytes. simpl. split; [lia|].
      by rewrite Z.sub_diag. }
    by rewrite E, lookup_empty in Ho.
Qed.

(** Flushing one direction of a flow that is being closed. *)
Lemma close_flush_dir_spec c k ts dir flow r :
  cfg_ok c → dir_wf (max_depth c) (max_segments_per_direction c) (get_direction flow dir) →
  bytes_reassembled (stats r) + buffered_bytes (get_direction flow dir) ≤ u64_max →
  ∃ d chunks, let n := zlen (chunk_bytes chunks) in
    (∀ H (SH : StreamHandler H) (h : H), close_flush_dir k ts dir flow r h =
       Some (set_direction flow dir d, add_bytes r n, replay h (data_events k dir ts chunks))) ∧
    contiguous (Z.max 1 (base_offset (get_direction flow dir))) chunks ∧
    0 ≤ n ≤ buffered_bytes (get_direction flow dir).
Proof.
  intros Hc Hd Hb. pose proof (cfg_limits _ Hc) as Hl.
  destruct (flush_contiguous_spec _ _ _ Hl Hd) as (m & ch & Hf & Hw & _ & Hct & Hby).
  eexists _, ch. simpl. pose proof (dir_wf_nonneg _ _ _ Hw) as Hn. simpl in Hn.
  pose proof (zlen_nonneg (chunk_bytes ch)).
  split_and!; [|by eapply contiguous_clamped|lia|lia].
  intros H' SH h. unfold close_flush_dir. rewrite Hf. simpl.
  rewrite deliver_all_spec by lia. done.
Qed.

Lemma trace_bytes_data k dir ts chunks :
  trace_bytes (data_events k dir ts chunks) = zlen (chunk_bytes chunks).
Proof.
  induction chunks as [|[o data] chunks IH]; [done|].
  by rewrite chunk_bytes_cons, <- IH.
Qed.

(** Removing a flow from the table. *)
Lemma eng_wf_delete r k f n :
  eng_wf r → flows r !! k = Some f → 0 ≤ n →
  eng_wf (add_bytes r n) <| flows := delete k (flows r) |>
    <| total_memory := total_memory r - flow_mem f |>.
Proof.
  intros [] Hk Hn. split; simpl; try done.
  - intros k' f' [_ ?]%lookup_delete_Some. eauto.
  - rewrite (map_sum_delete _ _ _ _ Hk). lia.
  - rewrite (map_size_delete_S _ _ _ Hk) in ew_count0. lia.
  - lia.
Qed.

Definition close_events (k : FlowKey) (ts : Z) (reason : CloseReason)
    (ch1 ch2 : list (Z * list Z)) : trace :=
  data_events k ClientToServer ts ch1 ++ data_events k ServerToClient ts ch2 ++ [EClose k reason].

(** What closing the flow at [k] leaves. *)
Definition closed_engine (r : TcpReassembler) (k : FlowKey) (f : TcpFlow) (n : Z) :
    TcpReassembler :=
  (add_bytes r n) <| flows := delete k (flows r) |>
    <| total_memory := total_memory r - flow_mem f |>.

Lemma ordered_close_events r k f ts reason ch1 ch2 n :
  flows r !! k = Some f →
  contiguous (Z.max 1 (base_offset (client_to_server f))) ch1 →
  contiguous (Z.max 1 (base_offset (server_to_client f))) ch2 →
  ordered (stream_cursor r) (close_events k ts reason ch1 ch2)
    (stream_cursor (closed_engine r k f n)).
Proof.
  intros Hk H1 H2. unfold close_events.
  eapply ordered_app; [apply ordered_chunks|eapply ordered_app; [apply ordered_chunks|]].
  - unfold stream_cursor. by rewrite Hk.
  - unfold advance, stream_cursor. rewrite decide_False by (intros [_ ?]; done). by rewrite Hk.
  - constructor. constructor. intros k' dir'. unfold restart, advance, stream_cursor. simpl.
    destruct (decide (k' = k)) as [->|Hne]; [by rewrite lookup_delete_eq|].
    rewrite lookup_delete_ne by done. by rewrite !decide_False by (intros [??]; done).
Qed.

Lemma close_flow_spec r k f reason :
  eng_wf r → budget r ≤ u64_max → flows r !! k = Some f →
  ∃ ch1 ch2 n, let es := close_events k (last_seen f) reason ch1 ch2 in
    (∀ H (SH : StreamHandler H) (h : H),
       close_flow r h k reason = Some (closed_engine r k f n, replay h es)) ∧
    step_ok r es (closed_engine r k f n) 0.
Proof.
  intros Hwf Hbud Hk. pose proof Hwf as [Hcfg Hfl _ _ _ _ Hby].
  pose proof (Hfl _ _ Hk) as Hfw. pose proof (fw_dirs _ _ _ Hfw) as Hd.
  pose proof (eng_mem_le _ _ _ Hwf Hk). pose proof (eng_mem_nonneg _ Hwf).
  pose proof (dir_wf_nonneg _ _ _ (Hd ClientToServer)).
  pose proof (dir_wf_nonneg _ _ _ (Hd ServerToClient)).
  unfold budget, flow_mem in *. simpl in *. set (r1 := r <| flows := delete k (flows r) |>).
  destruct (close_flush_dir_spec (config r) k (last_seen f) ClientToServer f r1)
    as (d1 & ch1 & E1 & C1 & N1); [done..|simpl; lia|]. simpl in C1, N1.
  set (f1 := set_direction f ClientToServer d1) in *.
  destruct (close_flush_dir_spec (config r) k (last_seen f) ServerToClient f1
    (add_bytes r1 (zlen (chunk_bytes ch1)))) as (d2 & ch2 & E2 & C2 & N2);
    [done|exact (Hd ServerToClient)|simpl; lia|]. simpl in C2, N2.
  exists ch1, ch2, (zlen (chunk_bytes ch1) + zlen (chunk_bytes ch2)).
  split; [|split; try done].
  - intros H' SH h. unfold close_flow. rewrite Hk.
    rewrite (memory_used_spec _ _ _ Hcfg Hfw). cbn [mbind option_bind].
    fold r1. rewrite E1. cbn [mbind option_bind]. rewrite E2. cbn [mbind option_bind].
    rewrite csub_Some by (unfold flow_mem; simpl; lia). simpl.
    unfold close_events. rewrite !replay_app. unfold closed_engine. do 2 f_equal.
    unfold add_bytes. simpl. do 2 f_equal. lia.
  - apply eng_wf_delete; [done..|lia].
  - unfold budget, closed_engine, flow_mem. simpl. lia.
  - unfold closed_engine, flow_mem. simpl. lia.
  - by apply ordered_close_events.
  - unfold close_events. rewrite !trace_bytes_app, !trace_bytes_data. simpl. lia.
Qed.

(** ** Steps that leave the flow table alone *)

Lemma step_ok_meta r r' :
  eng_wf r → config r' = config r → flows r' = flows r → total_memory r' = total_memory r →
  finalized r' = finalized r → packet_index r' = packet_index r →
  bytes_reassembled (stats r') = bytes_reassembled (stats r) →
  zlen (findings r') ≤ MAX_FINDINGS + Z.b2z (finalized r) →
  step_ok r [] r' 0.
Proof.
  intros [] E1 E2 E3 E4 E5 E6 ?. split; try done.
  - split; rewrite ?E1, ?E2, ?E3, ?E4, ?E5, ?E6; done.
  - unfold budget. lia.
  - lia.
  - constructor. intros. unfold stream_cursor. by rewrite E2.
  - simpl. lia.
Qed.

(** Several flows closed one after the other. *)
Definition remove_keys (ks : list FlowKey) (m : gmap FlowKey TcpFlow) : gmap FlowKey TcpFlow :=
  foldl (λ m k, delete k m) m ks.

Lemma lookup_remove_keys ks m k :
  remove_keys ks m !! k = if decide (k ∈ ks) then None else m !! k.
Proof.
  revert m. induction ks as [|x ks IH]; intros m; simpl.
  - done.
  - unfold remove_keys in *. rewrite IH. destruct (decide (k ∈ ks)).
    + by rewrite decide_True by (right; done).
    + destruct (decide (k = x)) as [->|].
      * by rewrite lookup_delete_eq, decide_True by left.
      * rewrite lookup_delete_ne by done. rewrite decide_False; [done|].
        intros [?|?]%elem_of_cons; done.
Qed.

(** The closings recorded in a trace, in order. *)
Definition closings (es : trace) : list (FlowKey * CloseReason) :=
  omap (λ e, match e with EClose k reason => Some (k, reason) | _ => None end) es.

Lemma closings_app es1 es2 : closings (es1 ++ es2) = closings es1 ++ closings es2.
Proof. apply omap_app. Qed.

Lemma closings_data k dir ts chunks : closings (data_events k dir ts chunks) = [].
Proof. by induction chunks. Qed.

Lemma closings_close_events k ts reason ch1 ch2 :
  closings (close_events k ts reason ch1 ch2) = [(k, reason)].
Proof. unfold close_events. by rewrite !closings_app, !closings_data. Qed.

(** The result of closing flows [ks] with [reason], stats aside. *)
Record closes (r : TcpReassembler) (ks : list FlowKey) (reason : CloseReason)
    (es : trace) (r' : TcpReassembler) : Prop := {
  cl_step : step_ok r es r' 0;
  cl_flows : flows r' = remove_keys ks (flows r);
  cl_findings : findings r' = findings r;
  cl_closings : closings es = (λ k, (k, reason)) <$> ks
}.

Lemma closes_nil r reason : eng_wf r → closes r [] reason [] r.
Proof. intros. split; try done. by apply step_ok_refl. Qed.

(** Close one flow after bumping a counter, then go on. *)
Lemma closes_cons r r1 k reason :
  eng_wf r → budget r ≤ u64_max → is_Some (flows r !! k) →
  config r1 = config r → flows r1 = flows r → total_memory r1 = total_memory r →
  finalized r1 = finalized r → packet_index r1 = packet_index r → findings r1 = findings r →
  bytes_reassembled (stats r1) = bytes_reassembled (stats r) →
  ∃ r2 es1, (∀ H (SH : StreamHandler H) (h : H),
      close_flow r1 h k reason = Some (r2, replay h es1)) ∧
    eng_wf r2 ∧ budget r2 ≤ u64_max ∧ flows r2 = delete k (flows r) ∧
    ∀ ks es r', closes r2 ks reason es r' → closes r (k :: ks) reason (es1 ++ es) r'.
Proof.
  intros Hwf Hb [f Hk] E1 E2 E3 E4 E5 E6 E7.
  assert (step_ok r [] r1 0) as Hs1.
  { apply step_ok_meta; try done. rewrite E6. by destruct Hwf. }
  pose proof (so_wf _ _ _ _ Hs1) as Hwf1. rewrite <- E2 in Hk.
  destruct (close_flow_spec r1 k f reason) as (ch1 & ch2 & n & Hc & Hs2);
    [done|unfold budget in *; lia|done|].
  eexists _, _. split; [exact Hc|]. pose proof (step_ok_trans _ _ _ _ _ _ _ Hs1 Hs2) as Hs.
  simpl in Hs. split_and!; [by destruct Hs|destruct Hs; lia|simpl; by rewrite E2|].
  intros ks es r' [Hs3 F3 Fi3 C3]. split.
  - exact (step_ok_trans _ _ _ _ _ _ _ Hs Hs3).
  - rewrite F3. simpl. by rewrite E2.
  - rewrite Fi3. simpl. by rewrite E6.
  - by rewrite closings_app, closings_close_events, C3.
Qed.

Lemma expire_keys_spec ks r :
  eng_wf r → budget r ≤ u64_max → NoDup ks → (∀ k, k ∈ ks → is_Some (flows r !! k)) →
  ∃ r' es, (∀ H (SH : StreamHandler H) (h : H), expire_keys ks r h = Some (r', replay h es)) ∧
    closes r ks Timeout es r'.
Proof.
  revert r. induction ks as [|k ks IH]; intros r Hwf Hb Hnd Hin.
  { exists r, []. split; [done|]. by apply closes_nil. }
  apply NoDup_cons in Hnd as [Hk Hnd].
  destruct (closes_cons r (r <| stats := stats r ++| flows_expired |>) k Timeout)
    as (r2 & es1 & Hc & Hw2 & Hb2 & Hf2 & Hgo); [done|done|by apply Hin; left|done..|].
  destruct (IH r2) as (r' & es & He & Hcl); [done|done|done| |].
  { intros k' Hk'. rewrite Hf2, lookup_delete_ne by (intros ->; done). apply Hin. by right. }
  exists r', (es1 ++ es). split; [|by apply Hgo].
  intros H' SH h. simpl. rewrite Hc. simpl. by rewrite He, replay_app.
Qed.

Lemma close_all_spec ks r :
  eng_wf r → budget r ≤ u64_max → NoDup ks → (∀ k, k ∈ ks → is_Some (flows r !! k)) →
  ∃ r' es, (∀ H (SH : StreamHandler H) (h : H), close_all ks r h = Some (r', replay h es)) ∧
    closes r ks Timeout es r'.
Proof.
  revert r. induction ks as [|k ks IH]; intros r Hwf Hb Hnd Hin.
  { exists r, []. split; [done|]. by apply closes_nil. }
  apply NoDup_cons in Hnd as [Hk Hnd].
  destruct (closes_cons r r k Timeout)
    as (r2 & es1 & Hc & Hw2 & Hb2 & Hf2 & Hgo); [done|done|by apply Hin; left|done..|].
  destruct (IH r2) as (r' & es & He & Hcl); [done|done|done| |].
  { intros k' Hk'. rewrite Hf2, lookup_delete_ne by (intros ->; done). apply Hin. by right. }
  exists r', (es1 ++ es). split; [|by apply Hgo].
  intros H' SH h. simpl. rewrite Hc. simpl. by rewrite He, replay_app.
Qed.

(** Both resource constraints hold of a flow table. *)
Definition fits (cap target : Z) (m : gmap FlowKey TcpFlow) : Prop :=
  map_sum flow_mem m ≤ cap ∧ Z.of_nat (size m) ≤ target.

(** Eviction closes a prefix of the victim list, the shortest one after which
    both resource constraints hold. *)
Lemma evict_loop_spec target (victims : list (FlowKey * bool * Z)) r :
  let ks := (λ v : FlowKey * bool * Z, v.1.1) <$> victims in
  eng_wf r → budget r ≤ u64_max → NoDup ks → (∀ k, k ∈ ks → is_Some (flows r !! k)) →
  ∃ r' es n, (∀ H (SH : StreamHandler H) (h : H),
      evict_loop target victims r h = Some (r', replay h es)) ∧
    closes r (take n ks) MemoryPressure es r' ∧ (n ≤ length victims)%nat ∧
    (∀ j, (j < n)%nat → ¬ fits (memcap (config r)) target (remove_keys (take j ks) (flows r))) ∧
    (n = length victims ∨
     (total_memory r' ≤ memcap (config r) ∧ Z.of_nat (size (flows r')) ≤ target)).
Proof.
  revert r. induction victims as [|[[k e] s] victims IH]; intros r ks Hwf Hb Hnd Hin.
  { exists r, [], 0%nat. split_and!; [done|by apply closes_nil|done|lia|by left]. }
  apply NoDup_cons in Hnd as [Hk Hnd]. simpl in *.
  destruct (_ && _) eqn:E.
  { apply andb_prop in E as [E1%Z.leb_le E2%Z.leb_le].
    exists r, [], 0%nat. split_and!; [done|by apply closes_nil|lia|lia|by right]. }
  destruct (closes_cons r (r <| stats := stats r ++| evictions |>) k MemoryPressure)
    as (r2 & es1 & Hc & Hw2 & Hb2 & Hf2 & Hgo); [done|done|by apply Hin; left|done..|].
  destruct (IH r2) as (r' & es & n & He & Hcl & Hn & Hmin & Hstop); [done|done|done| |].
  { intros k' Hk'. rewrite Hf2, lookup_delete_ne by (intros ->; done). apply Hin. by right. }
  exists r', (es1 ++ es), (S n). apply Hgo in Hcl as Hcl'. split_and!; [|done|lia| |].
  - intros H' SH h. rewrite Hc. simpl. by rewrite He, replay_app.
  - intros [|j] Hj; simpl.
    + intros [F1 F2]. rewrite <- (ew_memory _ Hwf) in F1.
      rewrite (proj2 (Z.leb_le _ _) F1), (proj2 (Z.leb_le _ _) F2) in E. done.
    + unfold remove_keys in *. rewrite <- Hf2.
      rewrite <- (so_config _ _ _ _ (cl_step _ _ _ _ _ Hcl')),
        (so_config _ _ _ _ (cl_step _ _ _ _ _ Hcl)). apply Hmin. lia.
  - destruct Hstop as [->|[Hs1 Hs2]]; [by left|right].
    split; [|done]. rewrite <- (so_config _ _ _ _ (cl_step _ _ _ _ _ Hcl')).
    by rewrite (so_config _ _ _ _ (cl_step _ _ _ _ _ Hcl)).
Qed.

Lemma closes_subseteq r ks reason es r' : closes r ks reason es r' → flows r' ⊆ flows r.
Proof.
  intros C. rewrite (cl_flows _ _ _ _ _ C). apply map_subseteq_spec. intros k f.
  rewrite lookup_remove_keys. by case_decide.
Qed.

Section hash.
Context `{HO : HashOrder}.

Lemma elem_of_hash_iter (m : gmap FlowKey TcpFlow) k f :
  (k, f) ∈ hash_iter m ↔ m !! k = Some f.
Proof. rewrite hash_iter_perm. apply elem_of_map_to_list. Qed.

Lemma NoDup_hash_keys (m : gmap FlowKey TcpFlow) : NoDup (hash_iter m).*1.
Proof. rewrite hash_iter_perm. apply NoDup_fst_map_to_list. Qed.

Lemma elem_of_matching_keys r p k :
  k ∈ matching_keys r p ↔ ∃ f, flows r !! k = Some f ∧ p f = true.
Proof.
  unfold matching_keys. rewrite list_elem_of_fmap. split.
  - intros ([k' f] & -> & [? ?%elem_of_hash_iter]%list_elem_of_filter). eauto.
  - intros (f & Hf & Hp). exists (k, f). split; [done|].
    apply list_elem_of_filter. by rewrite elem_of_hash_iter.
Qed.

Lemma NoDup_matching_keys r p : NoDup (matching_keys r p).
Proof.
  unfold matching_keys. eapply sublist_NoDup; [apply (NoDup_hash_keys (flows r))|].
  apply fmap_sublist, sublist_filter.
Qed.

Lemma expire_matching_spec p r :
  eng_wf r → budget r ≤ u64_max →
  ∃ r' es, (∀ H (SH : StreamHandler H) (h : H),
      expire_keys (matching_keys r p) r h = Some (r', replay h es)) ∧
    closes r (matching_keys r p) Timeout es r'.
Proof.
  intros. apply expire_keys_spec; [done..|apply NoDup_matching_keys|].
  intros k (f & Hf & _)%elem_of_matching_keys. eauto.
Qed.

Lemma victim_keys_perm m :
  (λ v : FlowKey * bool * Z, v.1.1) <$> candidates m ≡ₚ (hash_iter m).*1.
Proof.
  unfold candidates. rewrite merge_sort_Permutation, <- list_fmap_compose. done.
Qed.

Lemma remove_all_keys ks m : ks ≡ₚ (hash_iter m).*1 → remove_keys ks m = ∅.
Proof.
  intros Hp. apply map_eq. intros k. rewrite lookup_remove_keys, lookup_empty.
  case_decide as Hk; [done|]. destruct (m !! k) as [f|] eqn:E; [|done].
  destruct Hk. rewrite Hp. apply list_elem_of_fmap. exists (k, f).
  by rewrite elem_of_hash_iter.
Qed.

Lemma evict_flows_spec trigger r :
  eng_wf r → budget r ≤ u64_max →
  ∃ target r' es n, flow_count_target (config r) trigger = Some target ∧
    0 ≤ target < max_flows (config r) ∧
    (∀ H (SH : StreamHandler H) (h : H),
      evict_flows r h trigger = Some (r', replay h es)) ∧
    closes r (take n ((λ v, v.1.1) <$> candidates (flows r))) MemoryPressure es r' ∧
    total_memory r' ≤ memcap (config r) ∧ Z.of_nat (size (flows r')) ≤ target ∧
    ∀ j, (j < n)%nat → ¬ fits (memcap (config r)) target
      (remove_keys (take j ((λ v, v.1.1) <$> candidates (flows r))) (flows r)).
Proof.
  intros Hwf Hb. pose proof (ew_cfg _ Hwf) as [_ Hmc [Hmf Hmf9] _].
  assert (∃ t, flow_count_target (config r) trigger = Some t ∧
    0 ≤ t < max_flows (config r)) as (t & Ht & Htr).
  { unfold flow_count_target, sat_sub. destruct trigger; [|eexists; split; [done|lia]].
    rewrite cmul_Some by done. simpl. eexists. split; [done|].
    pose proof (Z.div_pos (max_flows (config r) * 9) 10). lia. }
  destruct (evict_loop_spec t (candidates (flows r)) r) as (r' & es & n & He & Hcl & Hn & Hmin & Hs);
    [done|done|by rewrite victim_keys_perm; apply NoDup_hash_keys| |].
  { intros k. rewrite victim_keys_perm, list_elem_of_fmap.
    intros ([k' f] & -> & ?%elem_of_hash_iter). eauto. }
  assert (n = length (candidates (flows r)) → flows r' = ∅ ∧ total_memory r' = 0) as Hall.
  { intros ->. destruct Hcl as [Hst Hf _ _].
    rewrite take_ge in Hf by (rewrite length_fmap; lia).
    rewrite remove_all_keys in Hf by apply victim_keys_perm. split; [done|].
    rewrite (ew_memory _ (so_wf _ _ _ _ Hst)), Hf. done. }
  exists t, r', es, n. split_and!; [done|lia|lia| |done|..].
  - intros H' SH h. unfold evict_flows. by rewrite Ht; simpl; rewrite He.
  - destruct Hs as [->|[? _]]; [|done]. destruct Hall as [_ ->]; [done|lia].
  - destruct Hs as [->|[_ ?]]; [|done]. destruct Hall as [-> _]; [done|].
    rewrite map_size_empty. lia.
  - done.
Qed.
End hash.

(** ** Updating a flow in place *)

(** [f'] is a well-formed successor of [f] with the same buffered bytes and the
    same stream cursors. *)
Record quiet (c : ReassemblyConfig) (k : FlowKey) (f f' : TcpFlow) : Prop := {
  q_wf : flow_wf c k f';
  q_bytes : ∀ dir, buffered_bytes (get_direction f' dir) = buffered_bytes (get_direction f dir);
  q_cursor : ∀ dir, Z.max 1 (base_offset (get_direction f' dir)) =
                    Z.max 1 (base_offset (get_direction f dir))
}.

Lemma quiet_refl c k f : flow_wf c k f → quiet c k f f.
Proof. by split. Qed.

Lemma quiet_trans c k f1 f2 f3 : quiet c k f1 f2 → quiet c k f2 f3 → quiet c k f1 f3.
Proof. intros [] []. split; [done|intros; congruence..]. Qed.

(** A change that touches neither buffers nor the key. *)
Lemma quiet_frame c k f f' :
  flow_wf c k f → key f' = key f → fin_inv f' →
  (∀ dir, get_direction f' dir = get_direction f dir) → quiet c k f f'.
Proof.
  intros [] E ? Hd. split; [|intros; by rewrite Hd..].
  split; [congruence| |done]. intros. by rewrite Hd.
Qed.

Lemma set_direction_meta f dir d :
  key (set_direction f dir d) = key f ∧ state (set_direction f dir d) = state f ∧
  fin_count (set_direction f dir d) = fin_count f ∧
  initiator (set_direction f dir d) = initiator f.
Proof. by destruct dir. Qed.

Lemma flow_wf_set_direction c k f dir d :
  flow_wf c k f → dir_wf (max_depth c) (max_segments_per_direction c) d →
  flow_wf c k (set_direction f dir d).
Proof.
  intros [Hk Hd Hf] Hw. destruct (set_direction_meta f dir d) as (M1 & M2 & M3 & _).
  split; [congruence| |unfold fin_inv in *; by rewrite M2, M3].
  intros dir'. destruct (decide (dir = dir')) as [<-|];
    rewrite ?get_set_direction, ?get_set_direction_ne by done; done.
Qed.

Lemma quiet_set_direction c k f dir d :
  flow_wf c k f → dir_wf (max_depth c) (max_segments_per_direction c) d →
  buffered_bytes d = buffered_bytes (get_direction f dir) →
  Z.max 1 (base_offset d) = Z.max 1 (base_offset (get_direction f dir)) →
  quiet c k f (set_direction f dir d).
Proof.
  intros Hf Hw Hb Hc. split; [by apply flow_wf_set_direction|..];
    intros dir'; destruct (decide (dir = dir')) as [<-|];
    rewrite ?get_set_direction, ?get_set_direction_ne by done; done.
Qed.

Lemma quiet_set_isn c k f dir i :
  flow_wf c k f → is_u32 i → quiet c k f (set_direction f dir (set_isn (get_direction f dir) i)).
Proof.
  intros Hw Hi. pose proof (fw_dirs _ _ _ Hw dir) as Hd. apply quiet_set_direction; [done|..].
  - by apply dir_wf_set_isn.
  - unfold set_isn. by destruct (isn _).
  - unfold set_isn. pose proof (dw_isn _ _ _ Hd). destruct (isn _); [done|].
    simpl. destruct H as (_ & -> & _). done.
Qed.

Lemma quiet_event c k f e :
  flow_wf c k f → (∀ dir, get_direction (apply_event f e) dir = get_direction f dir) →
  quiet c k f (apply_event f e).
Proof.
  intros Hw Hd. apply quiet_frame; [done| |apply apply_event_fin_inv, Hw|done].
  destruct e; simpl; unfold on_syn, on_syn_ack, on_data_without_syn, on_fin;
    repeat case_decide; try destruct (2 <=? _); done.
Qed.

Lemma quiet_set_initiator c k f ip p :
  flow_wf c k f → quiet c k f (set_initiator f ip p).
Proof.
  intros Hw. apply quiet_frame; [done|..].
  - unfold set_initiator. by destruct (initiator f).
  - unfold set_initiator, fin_inv. destruct (initiator f); apply Hw.
  - intros. apply get_direction_set_initiator.
Qed.

Lemma quiet_handshake_syn c k f packet tcp :
  flow_wf c k f → is_u32 (seq tcp) → quiet c k f (handshake_syn f packet tcp).
Proof.
  intros Hw Hs. unfold handshake_syn. destruct (_ && _); [|by apply quiet_refl].
  set (f1 := set_initiator f _ _). assert (quiet c k f f1) as Q1 by by apply quiet_set_initiator.
  eapply quiet_trans; [exact Q1|]. pose proof (q_wf _ _ _ _ Q1) as Hw1.
  set (f2 := set_direction _ _ _). assert (quiet c k f1 f2) as Q2 by by apply quiet_set_isn.
  eapply quiet_trans; [exact Q2|].
  apply (quiet_event _ _ _ FSyn); [apply Q2|]. intros. apply get_direction_on_syn.
Qed.

Lemma quiet_handshake_syn_ack c k f packet tcp :
  flow_wf c k f → is_u32 (seq tcp) → quiet c k f (handshake_syn_ack f packet tcp).
Proof.
  intros Hw Hs. unfold handshake_syn_ack. destruct (_ && _); [|by apply quiet_refl].
  set (f1 := set_initiator f _ _). assert (quiet c k f f1) as Q1 by by apply quiet_set_initiator.
  eapply quiet_trans; [exact Q1|]. pose proof (q_wf _ _ _ _ Q1) as Hw1.
  set (f2 := set_direction _ _ _). assert (quiet c k f1 f2) as Q2 by by apply quiet_set_isn.
  eapply quiet_trans; [exact Q2|].
  apply (quiet_event _ _ _ FSynAck); [apply Q2|]. intros. apply get_direction_on_syn_ack.
Qed.

Lemma quiet_handshake_fin c k f packet tcp :
  flow_wf c k f → quiet c k f (handshake_fin f packet tcp).
Proof.
  intros Hw. unfold handshake_fin. destruct (fin tcp); [|by apply quiet_refl].
  set (f2 := set_direction _ _ _). assert (quiet c k f f2) as Q2.
  { apply quiet_set_direction; try done.
    eapply dir_wf_frame; [apply (fw_dirs _ _ _ Hw)|done..| |]; simpl; apply Hw. }
  eapply quiet_trans; [exact Q2|].
  apply (quiet_event _ _ _ FFin); [apply Q2|]. intros. apply get_direction_on_fin.
Qed.

Lemma quiet_mem c k f f' : quiet c k f f' → flow_mem f' = flow_mem f.
Proof.
  intros [_ Hb _]. unfold flow_mem.
  by rewrite <- (Hb ClientToServer : _ = buffered_bytes (client_to_server f)),
    <- (Hb ServerToClient : _ = buffered_bytes (server_to_client f)).
Qed.

Lemma eng_wf_put r k f f' total :
  eng_wf r → flows r !! k = Some f → flow_wf (config r) k f' →
  total = total_memory r - flow_mem f + flow_mem f' →
  eng_wf (put_flow r k f') <| total_memory := total |>.
Proof.
  intros [] Hk Hf' ->. split; simpl; try done.
  - intros k' g [[<- <-]|[_ ?]]%lookup_insert_Some; eauto.
  - rewrite (map_sum_insert _ _ _ _ _ Hk). lia.
  - rewrite map_size_insert_Some by eauto. done.
Qed.

Lemma step_ok_put r k f f' :
  eng_wf r → flows r !! k = Some f → quiet (config r) k f f' →
  step_ok r [] (put_flow r k f') 0.
Proof.
  intros Hw Hk Hq. pose proof (quiet_mem _ _ _ _ Hq) as Hm. split; try done.
  - pose proof (eng_wf_put r k f f' (total_memory r) Hw Hk (q_wf _ _ _ _ Hq)) as Hp.
    destruct Hp as []; [lia|]. by split.
  - unfold budget. simpl. lia.
  - simpl. lia.
  - constructor. intros k' dir. unfold stream_cursor. simpl.
    destruct (decide (k = k')) as [<-|].
    + rewrite lookup_insert_eq, Hk. apply Hq.
    + by rewrite lookup_insert_ne.
  - simpl. lia.
Qed.

(** ** The steps of [process_packet] *)

(** Flows other than [k] are untouched or gone. *)
Definition only_touches (k : FlowKey) (r r' : TcpReassembler) : Prop :=
  ∀ k' f, k' ≠ k → flows r' !! k' = Some f → flows r !! k' = Some f.

Lemma only_touches_trans k r1 r2 r3 :
  only_touches k r1 r2 → only_touches k r2 r3 → only_touches k r1 r3.
Proof. unfold only_touches. eauto. Qed.

Lemma only_touches_sub k r r' : flows r' ⊆ flows r → only_touches k r r'.
Proof. intros Hs k' f _ Hf. eapply lookup_weaken; eauto. Qed.

Lemma only_touches_insert k r r' f :
  flows r' = <[k := f]> (flows r) → only_touches k r r'.
Proof. intros E k' g ?. rewrite E. by rewrite lookup_insert_ne. Qed.

Lemma only_touches_delete k r r' :
  flows r' = delete k (flows r) → only_touches k r r'.
Proof. intros E k' g ?. rewrite E. by rewrite lookup_delete_ne. Qed.

Lemma flow_wf_new c k ts : cfg_ok c → flow_wf c k (TcpFlow_new k ts).
Proof.
  intros [Hl _ _ _]. split; [done| |].
  - intros []; by apply dir_wf_new.
  - unfold fin_inv. simpl. split_and!; [done|done|lia|done].
Qed.

Lemma step_ok_create r k ts :
  eng_wf r → flows r !! k = None → Z.of_nat (size (flows r)) < max_flows (config r) →
  step_ok r [] (r <| flows := <[k := TcpFlow_new k ts]> (flows r) |>) 0.
Proof.
  intros [] Hk Hlt. split; try done.
  - split; simpl; try done.
    + intros k' f [[<- <-]|[_ ?]]%lookup_insert_Some; [by apply flow_wf_new|eauto].
    + rewrite map_sum_insert_fresh by done. done.
    + rewrite map_size_insert_None by done. lia.
  - unfold budget. simpl. lia.
  - simpl. lia.
  - constructor. intros k' dir. unfold stream_cursor. simpl.
    destruct (decide (k = k')) as [<-|].
    + rewrite lookup_insert_eq, Hk. by destruct dir.
    + by rewrite lookup_insert_ne.
  - simpl. lia.
Qed.

Lemma step_ok_stats r s :
  eng_wf r → bytes_reassembled s = bytes_reassembled (stats r) →
  step_ok r [] (r <| stats := s |>) 0.
Proof. intros Hw ?. apply step_ok_meta; try done. by destruct Hw. Qed.

(** Compose two steps that add no bytes. *)
Lemma step_ok_trans0 r1 r2 r3 es1 es2 n :
  step_ok r1 es1 r2 0 → step_ok r2 es2 r3 n → step_ok r1 (es1 ++ es2) r3 n.
Proof. apply step_ok_trans. Qed.

Section steps.
Context `{HO : HashOrder}.

(** Admission never fails: eviction always makes room. *)
Lemma admit_flow_spec r k ts :
  eng_wf r → budget r ≤ u64_max →
  ∃ r' es, (∀ H (SH : StreamHandler H) (h : H),
      admit_flow r h k ts = Some (r', replay h es, true)) ∧
    step_ok r es r' 0 ∧ is_Some (flows r' !! k) ∧ only_touches k r r'.
Proof.
  intros Hw Hb. unfold admit_flow.
  destruct (decide (is_Some (flows r !! k))) as [Hk|Hk].
  { exists r, []. split_and!; [done|by apply step_ok_refl|done|by apply only_touches_sub]. }
  assert (∃ r1 es, (∀ H (SH : StreamHandler H) (h : H),
    (if max_flows (config r) <=? Z.of_nat (size (flows r)) then
       '(r, h) ← evict_flows r h MaxFlows;
       Some (r, h, max_flows (config r) <=? Z.of_nat (size (flows r)))
     else Some (r, h, false)) = Some (r1, replay h es, false)) ∧
    step_ok r es r1 0 ∧ flows r1 !! k = None ∧
    Z.of_nat (size (flows r1)) < max_flows (config r1) ∧ flows r1 ⊆ flows r)
    as (r1 & es & E1 & S1 & F1 & L1 & U1).
  { apply eq_None_not_Some in Hk.
    destruct (Z.leb_spec (max_flows (config r)) (Z.of_nat (size (flows r)))).
    - destruct (evict_flows_spec MaxFlows r) as (t & r1 & es & n & _ & Ht & He & Hc & _ & Hs & _);
        [done..|]. exists r1, es. pose proof (cl_step _ _ _ _ _ Hc) as Hst.
      rewrite (so_config _ _ _ _ Hst).
      split_and!; [|done| |lia|by eapply closes_subseteq].
      { intros H' SH h. rewrite He. simpl. rewrite (so_config _ _ _ _ Hst).
        by rewrite (proj2 (Z.leb_gt _ _)) by lia. }
      rewrite (cl_flows _ _ _ _ _ Hc), lookup_remove_keys.
      by case_decide.
    - exists r, []. split_and!; [done|by apply step_ok_refl|done|lia|done]. }
  pose proof (so_wf _ _ _ _ S1) as Hw1. pose proof (step_ok_create r1 k ts Hw1 F1 L1) as S2.
  eexists _, (es ++ [] ++ []). split_and!.
  - intros H' SH h. rewrite E1. simpl. by rewrite app_nil_r.
  - eapply step_ok_trans0; [exact S1|]. eapply step_ok_trans0; [exact S2|].
    apply step_ok_meta; try done; [apply S2|]. apply (ew_findings _ Hw1).
  - simpl. rewrite lookup_insert_eq. eauto.
  - eapply only_touches_trans; [by apply only_touches_sub|].
    by apply (only_touches_insert _ _ _ (TcpFlow_new k ts)).
Qed.

Lemma get_or_create_flow_spec r k ts :
  eng_wf r → budget r ≤ u64_max →
  ∃ r' es, (∀ H (SH : StreamHandler H) (h : H),
      get_or_create_flow r h k ts = Some (r', replay h es, true)) ∧
    step_ok r es r' 0 ∧ is_Some (flows r' !! k) ∧ only_touches k r r'.
Proof.
  intros Hw Hb. destruct (admit_flow_spec r k ts) as (r1 & es & E & S & [f Hf] & T); [done..|].
  pose proof (so_wf _ _ _ _ S) as Hw1. eexists _, (es ++ []). split_and!.
  - intros H' SH h. unfold get_or_create_flow. rewrite E. simpl.
    unfold get_flow. rewrite Hf. simpl. by rewrite app_nil_r.
  - eapply step_ok_trans0; [exact S|]. eapply step_ok_put; [done|done|].
    apply quiet_frame; [by eapply ew_flows|done| |by intros []].
    apply (fw_fin _ _ _ (ew_flows _ Hw1 _ _ Hf)).
  - simpl. rewrite lookup_insert_eq. eauto.
  - eapply only_touches_trans; [done|]. by eapply only_touches_insert.
Qed.

Lemma apply_handshake_flags_spec r packet k tcp :
  eng_wf r → budget r ≤ u64_max → is_Some (flows r !! k) → is_u32 (seq tcp) →
  ∃ r' es post, (∀ H (SH : StreamHandler H) (h : H),
      apply_handshake_flags r h packet k tcp = Some (r', replay h es, post)) ∧
    step_ok r es r' 0 ∧ (post = if rst tcp then FlowClosed else Continue) ∧
    (if rst tcp then flows r' !! k = None else is_Some (flows r' !! k)) ∧
    only_touches k r r'.
Proof.
  intros Hw Hb [f Hf] Hs. unfold apply_handshake_flags, get_flow. rewrite Hf. simpl.
  set (f1 := handshake_syn_ack (handshake_syn f packet tcp) packet tcp).
  pose proof (ew_flows _ Hw _ _ Hf) as Hfw.
  assert (quiet (config r) k f f1) as Q1.
  { pose proof (quiet_handshake_syn _ _ _ packet tcp Hfw Hs) as Q.
    eapply quiet_trans; [exact Q|]. apply quiet_handshake_syn_ack; [apply Q|done]. }
  destruct (rst tcp).
  - assert (quiet (config r) k f (on_rst f1)) as Q2.
    { eapply quiet_trans; [exact Q1|]. apply (quiet_event _ _ _ FRst); [apply Q1|by intros []]. }
    pose proof (step_ok_put r k f _ Hw Hf Q2) as S1.
    set (r1 := put_flow r k (on_rst f1)) in *.
    assert (step_ok r1 [] (r1 <| stats := stats r1 ++| flows_rst |>) 0) as S2
      by (apply step_ok_stats; [apply S1|done]).
    destruct (close_flow_spec (r1 <| stats := stats r1 ++| flows_rst |>) k (on_rst f1) Rst)
      as (ch1 & ch2 & n & Hc & S3);
      [apply S2|unfold budget in *; simpl; lia|simpl; apply lookup_insert_eq|].
    eexists _, _, FlowClosed. split; [|split; [|split; [done|]]].
    + intros H' SH h. rewrite Hc. simpl. reflexivity.
    + exact (step_ok_trans0 _ _ _ _ _ _ S1 (step_ok_trans0 _ _ _ _ _ _ S2 S3)).
    + split; simpl; [apply lookup_delete_eq|].
      apply only_touches_trans with r1; [by eapply only_touches_insert|].
      by apply only_touches_delete.
  - eexists _, [], Continue. split_and!; [done| |done| |].
    + eapply step_ok_put; [done|done|]. eapply quiet_trans; [exact Q1|].
      apply quiet_handshake_fin, Q1.
    + simpl. rewrite lookup_insert_eq. eauto.
    + by eapply only_touches_insert.
Qed.
End steps.

(** *** Findings *)

Lemma push_finding_ok r f : eng_wf r → step_ok r [] (push_finding r f) 0.
Proof.
  intros Hw. pose proof (ew_findings _ Hw). unfold push_finding.
  destruct (Z.ltb_spec (zlen (findings r)) MAX_FINDINGS); apply step_ok_meta; try done.
  simpl. rewrite zlen_app, zlen_cons, zlen_nil. destruct (finalized r); simpl; lia.
Qed.

Lemma generate_conflicting_overlap_push r k src ts :
  ∃ f, generate_conflicting_overlap_finding r k src ts = push_finding r f.
Proof.
  unfold generate_conflicting_overlap_finding, push_finding. eexists.
  destruct (Z.leb_spec MAX_FINDINGS (zlen (findings r))), (Z.ltb_spec (zlen (findings r)) MAX_FINDINGS);
    done || lia.
Qed.

Lemma generate_truncated_push r k src ts :
  ∃ f, generate_truncated_finding r k src ts = push_finding r f.
Proof.
  unfold generate_truncated_finding, push_finding. eexists.
  destruct (Z.leb_spec MAX_FINDINGS (zlen (findings r))), (Z.ltb_spec (zlen (findings r)) MAX_FINDINGS);
    done || lia.
Qed.

Lemma push_finding_flows r f : flows (push_finding r f) = flows r.
Proof. unfold push_finding. by destruct (_ <? _). Qed.

Lemma record_result_ok r k src ts n res :
  eng_wf r → step_ok r [] (record_result r k src ts n res) 0 ∧
    flows (record_result r k src ts n res) = flows r.
Proof.
  intros Hw. pose proof (ew_findings _ Hw). unfold record_result. destruct res.
  1-3, 6, 8: by split; [apply step_ok_meta|].
  - destruct (generate_conflicting_overlap_push (r <| stats := stats r ++| segments_overlaps |>)
      k src ts) as [f ->]. rewrite push_finding_flows. split; [|done].
    assert (step_ok r [] (r <| stats := stats r ++| segments_overlaps |>) 0) as S
      by by apply step_ok_meta.
    exact (step_ok_trans0 _ _ _ _ _ _ S (push_finding_ok _ f (so_wf _ _ _ _ S))).
  - destruct (generate_truncated_push (r <| stats := stats r ++| segments_inserted |>)
      k src ts) as [f ->]. rewrite push_finding_flows. split; [|done].
    assert (step_ok r [] (r <| stats := stats r ++| segments_inserted |>) 0) as S
      by by apply step_ok_meta.
    exact (step_ok_trans0 _ _ _ _ _ _ S (push_finding_ok _ f (so_wf _ _ _ _ S))).
  - destruct (0 <? n); by split; [apply step_ok_meta|].
  - split; [by apply step_ok_refl|done].
Qed.

(** *** Payload *)

Lemma infer_isn_quiet c k f dir sq :
  flow_wf c k f → quiet c k f (set_direction f dir (infer_isn (get_direction f dir) sq)).
Proof.
  intros. rewrite infer_isn_set_isn. apply quiet_set_isn; [done|].
  unfold wrapping_sub32, is_u32, u32_max.
  pose proof (Z.mod_pos_bound (sq - 1) (2 ^ 32)). lia.
Qed.

Lemma infer_join_spec r k f packet tcp :
  flow_wf (config r) k f →
  ∃ s f', infer_join r f packet tcp = (r <| stats := s |>, f') ∧
    bytes_reassembled s = bytes_reassembled (stats r) ∧ quiet (config r) k f f'.
Proof.
  intros Hf. unfold infer_join. case_decide; [|exists (stats r), f].
  - eexists _, _. split; [done|]. split; [done|].
    eapply quiet_trans; [|apply infer_isn_quiet]; [|].
    + eapply quiet_trans; [apply (quiet_event _ _ f FDataWithoutSyn Hf)|apply quiet_set_initiator].
      * intros. apply get_direction_on_data_without_syn.
      * apply (quiet_event _ _ f FDataWithoutSyn Hf), get_direction_on_data_without_syn.
    + eapply quiet_set_initiator.
      apply (quiet_event _ _ f FDataWithoutSyn Hf), get_direction_on_data_without_syn.
  - split; [by destruct r|]. split; [done|]. by apply quiet_refl.
Qed.

Lemma ensure_isn_spec c k f dir sq :
  flow_wf c k f →
  (∃ i, isn (ensure_isn (get_direction f dir) sq) = Some i) ∧
  dir_wf (max_depth c) (max_segments_per_direction c) (ensure_isn (get_direction f dir) sq) ∧
  buffered_bytes (ensure_isn (get_direction f dir) sq) = buffered_bytes (get_direction f dir) ∧
  Z.max 1 (base_offset (ensure_isn (get_direction f dir) sq)) =
  Z.max 1 (base_offset (get_direction f dir)).
Proof.
  intros Hf. unfold ensure_isn. destruct (isn (get_direction f dir)) as [i|] eqn:E.
  { split_and!; eauto. apply Hf. }
  pose proof (infer_isn_quiet c k f dir sq Hf) as [Hw Hb Hc].
  specialize (Hb dir). specialize (Hc dir). pose proof (fw_dirs _ _ _ Hw dir) as Hd.
  rewrite get_set_direction in Hb, Hc, Hd. split_and!; [|done..].
  unfold infer_isn. rewrite E. simpl. eauto.
Qed.

Lemma update_small_run_frame md ms d n data res :
  dir_wf md ms d →
  dir_wf md ms (update_small_run d n data res) ∧
  buffered_bytes (update_small_run d n data res) = buffered_bytes d ∧
  base_offset (update_small_run d n data res) = base_offset d.
Proof.
  intros Hd. assert (∀ x, dir_wf md ms (d <| small_segment_run := x |>)).
  { intros x. eapply dir_wf_frame; try done; by destruct Hd. }
  unfold update_small_run. destruct data as [|b data]; [done|].
  destruct res; try done; destruct (_ <? n); (split; [auto|done]).
Qed.

(** Replacing a direction by one that holds [n] more bytes, cursor unchanged. *)
Lemma step_ok_grow r k f f2 dir d n :
  eng_wf r → flows r !! k = Some f → quiet (config r) k f f2 →
  dir_wf (max_depth (config r)) (max_segments_per_direction (config r)) d →
  buffered_bytes d = buffered_bytes (get_direction f2 dir) + n →
  Z.max 1 (base_offset d) = Z.max 1 (base_offset (get_direction f2 dir)) →
  step_ok r [] (put_flow (r <| total_memory := total_memory r + n |>) k (set_direction f2 dir d)) n.
Proof.
  intros Hw Hk Hq Hd Hb Hc. pose proof (quiet_mem _ _ _ _ Hq) as Hm.
  pose proof (q_wf _ _ _ _ Hq) as Hf2.
  assert (flow_mem (set_direction f2 dir d) = flow_mem f + n) as Hm'.
  { rewrite <- Hm. unfold flow_mem. destruct dir; simpl in *; lia. }
  assert (flow_wf (config r) k (set_direction f2 dir d)) as Hf3.
  { by apply flow_wf_set_direction. }
  split; try done.
  - pose proof (eng_wf_put r k f _ (total_memory r + n) Hw Hk Hf3 ltac:(lia)) as [].
    by split.
  - unfold budget. simpl. lia.
  - constructor. intros k' dir'. unfold stream_cursor. simpl.
    destruct (decide (k = k')) as [<-|]; [|by rewrite lookup_insert_ne].
    rewrite lookup_insert_eq, Hk. rewrite <- (q_cursor _ _ _ _ Hq dir').
    destruct (decide (dir = dir')) as [<-|].
    + by rewrite get_set_direction.
    + by rewrite get_set_direction_ne.
  - simpl. lia.
Qed.

Lemma insert_payload_segment_spec r packet k tcp ts :
  eng_wf r → budget r + zlen (payload packet) ≤ u64_max → is_Some (flows r !! k) →
  zlen (payload packet) ≤ isize_max →
  ∃ r' dir, insert_payload_segment r packet k tcp ts = Some (r', dir) ∧
    step_ok r [] r' (zlen (payload packet)) ∧ is_Some (flows r' !! k) ∧ only_touches k r r'.
Proof.
  intros Hw Hb [f Hk] Hp. pose proof (ew_flows _ Hw _ _ Hk) as Hf.
  pose proof (ew_cfg _ Hw) as [Hl _ _ Hwin]. pose proof (ew_bytes _ Hw).
  unfold insert_payload_segment, get_flow. rewrite Hk. simpl.
  destruct (infer_join_spec r k f packet tcp Hf) as (s & f2 & -> & Hs & Hq).
  set (dir := flow_direction f2 _ _).
  destruct (ensure_isn_spec _ _ f2 dir (seq tcp) (q_wf _ _ _ _ Hq)) as ([i Hi] & Hd & Hdb & Hdc).
  set (d := ensure_isn _ _) in *. simpl.
  destruct (insert_segment_spec _ _ (max_receive_window (config r)) d (seq tcp) (payload packet) i
    Hl Hd Hi Hp ltac:(lia)) as (res & d' & n & -> & Hd' & (_ & Hbase & _) & Hbuf & _ & _ & _).
  simpl. unfold sat_sub. rewrite Z.max_r by lia.
  unfold budget in Hb. rewrite cadd_Some by ulia. simpl.
  destruct (update_small_run_frame _ _ d' (small_segment_max_bytes (config r))
    (payload packet) res Hd') as (Hd2 & Hb2 & Hc2).
  set (d2 := update_small_run _ _ _ _) in *.
  assert (step_ok r [] (r <| stats := s |>) 0) as S1 by by apply step_ok_stats.
  assert (step_ok (r <| stats := s |>) []
    (put_flow ((r <| stats := s |>) <| total_memory := total_memory (r <| stats := s |>) +
       (buffered_bytes d' - buffered_bytes d) |>) k (set_direction f2 dir d2))
    (buffered_bytes d' - buffered_bytes d)) as S2.
  { apply (step_ok_grow _ k f); [apply S1|done|done|done|lia|]. by rewrite Hc2, Hbase. }
  destruct (record_result_ok _ k (src_ip packet) ts (buffered_bytes d' - buffered_bytes d) res
    (so_wf _ _ _ _ S2)) as [S3 F3].
  eexists _, dir. split; [reflexivity|].
  pose proof (step_ok_trans0 _ _ _ _ _ _ S1 (step_ok_trans _ _ _ _ _ _ _ S2 S3)) as S.
  split_and!.
  - eapply step_ok_weaken; [|exact S]. lia.
  - eexists. etransitivity; [exact (f_equal (lookup k) F3)|]. apply lookup_insert_eq.
  - eapply only_touches_insert. exact F3.
Qed.

(** *** Thresholds *)

(** An alert pushes at most one finding and flips a latch. *)
Definition alert_ok (r : TcpReassembler) (d : FlowDirection)
    (res : TcpReassembler * FlowDirection) : Prop :=
  (res.1 = r ∨ ∃ f, res.1 = push_finding r f) ∧
  same_stream d res.2 ∧ segments res.2 = segments d ∧
  buffered_bytes res.2 = buffered_bytes d ∧
  overlap_count res.2 = overlap_count d ∧ out_of_window_count res.2 = out_of_window_count d.

Lemma overlap_alert_ok r d packet k dir ts : alert_ok r d (overlap_alert r d packet k dir ts).
Proof. unfold overlap_alert, alert_ok. destruct (_ && _); simpl; split_and!; eauto; done. Qed.

Lemma small_segment_alert_ok r d packet k dir ts :
  alert_ok r d (small_segment_alert r d packet k dir ts).
Proof. unfold small_segment_alert, alert_ok. destruct (_ && _); simpl; split_and!; eauto; done. Qed.

Lemma out_of_window_alert_ok r d packet k dir ts :
  alert_ok r d (out_of_window_alert r d packet k dir ts).
Proof. unfold out_of_window_alert, alert_ok. destruct (_ && _); simpl; split_and!; eauto; done. Qed.

Lemma alert_step r d res md ms :
  alert_ok r d res → eng_wf r → dir_wf md ms d →
  step_ok r [] res.1 0 ∧ flows res.1 = flows r ∧ dir_wf md ms res.2 ∧
  buffered_bytes res.2 = buffered_bytes d ∧ base_offset res.2 = base_offset d.
Proof.
  intros (Hr & Hs & E1 & E2 & E3 & E4) Hw Hd.
  assert (step_ok r [] res.1 0 ∧ flows res.1 = flows r) as [? ?].
  { destruct Hr as [->|[f ->]]; [by split; [apply step_ok_refl|]|].
    by split; [apply push_finding_ok|apply push_finding_flows]. }
  split_and!; [done|done| |done|by apply Hs].
  eapply dir_wf_frame; [done|done|done|done|rewrite E3|rewrite E4]; by destruct Hd.
Qed.

Lemma check_anomaly_thresholds_spec r packet k dir ts :
  eng_wf r → is_Some (flows r !! k) →
  ∃ r', check_anomaly_thresholds r packet k dir ts = Some r' ∧
    step_ok r [] r' 0 ∧ is_Some (flows r' !! k) ∧ only_touches k r r'.
Proof.
  intros Hw [f Hk]. unfold check_anomaly_thresholds, get_flow. rewrite Hk. simpl.
  pose proof (ew_flows _ Hw _ _ Hk) as Hf. pose proof (fw_dirs _ _ _ Hf dir) as Hd0.
  destruct (alert_step _ _ _ _ _ (overlap_alert_ok r (get_direction f dir) packet k dir ts) Hw Hd0)
    as (S1 & F1 & Hd1 & B1 & C1).
  destruct (overlap_alert _ _ _ _ _ _) as [r1 d1]. simpl in *.
  destruct (alert_step _ _ _ _ _ (small_segment_alert_ok r1 d1 packet k dir ts)
    (so_wf _ _ _ _ S1) Hd1) as (S2 & F2 & Hd2 & B2 & C2).
  destruct (small_segment_alert _ _ _ _ _ _) as [r2 d2]. simpl in *.
  destruct (alert_step _ _ _ _ _ (out_of_window_alert_ok r2 d2 packet k dir ts)
    (so_wf _ _ _ _ S2) Hd2) as (S3 & F3 & Hd3 & B3 & C3).
  destruct (out_of_window_alert _ _ _ _ _ _) as [r3 d3]. simpl in *.
  pose proof (step_ok_trans0 _ _ _ _ _ _ S1 (step_ok_trans0 _ _ _ _ _ _ S2 S3)) as S.
  eexists. split; [done|]. split; [|split; [simpl; rewrite lookup_insert_eq; eauto|]].
  2:{ eapply only_touches_insert. simpl. by rewrite F3, F2, F1. }
  refine (step_ok_trans0 _ _ _ _ [] _ S _).
  eapply step_ok_put; [apply S|by rewrite F3, F2, F1|].
  rewrite (so_config _ _ _ _ S). apply quiet_set_direction; [done|done|congruence|].
  by rewrite C3, C2, C1.
Qed.

(** *** Flush *)

Lemma contiguous_both b b' ch :
  contiguous b ch → contiguous b' ch → zlen (chunk_bytes ch) = 0 ∨ b = b'.
Proof.
  destruct ch as [|[o data] ch]; [by left|]. intros (-> & _) (-> & _). by right.
Qed.

(** Where the cursors stand once [ch] has left direction [dir] of the flow. *)
Lemma flush_cursor r k f dir m ch total b k' dir' :
  flows r !! k = Some f →
  contiguous (base_offset (get_direction f dir)) ch →
  contiguous (Z.max 1 (base_offset (get_direction f dir))) ch →
  let n := zlen (chunk_bytes ch) in
  let f' := set_direction f dir (delivered (get_direction f dir) m n) in
  stream_cursor (add_bytes ((put_flow r k f') <| total_memory := total |>) b) k' dir' =
  advance (stream_cursor r) k dir (Z.max 1 (base_offset (get_direction f dir)) + n) k' dir'.
Proof.
  intros Hk H1 H2 n f'. unfold advance, stream_cursor. simpl.
  destruct (decide (k = k')) as [<-|].
  - rewrite lookup_insert_eq, Hk. unfold f'. destruct (decide (dir = dir')) as [<-|].
    + rewrite get_set_direction, decide_True by done. simpl.
      pose proof (zlen_nonneg (chunk_bytes ch)).
      destruct (contiguous_both _ _ _ H1 H2) as [E|E]; unfold n in *; lia.
    + rewrite get_set_direction_ne, decide_False by (done || intros [_ ?]; congruence). done.
  - rewrite lookup_insert_ne, decide_False by (done || intros [? _]; congruence). done.
Qed.

Lemma flush_contiguous_data_spec r k dir ts :
  eng_wf r → budget r ≤ u64_max → is_Some (flows r !! k) →
  ∃ r' es, (∀ H (SH : StreamHandler H) (h : H),
      flush_contiguous_data r h k dir ts = Some (r', replay h es)) ∧
    step_ok r es r' 0 ∧ is_Some (flows r' !! k) ∧ closings es = [] ∧ only_touches k r r'.
Proof.
  intros Hw Hb [f Hk]. pose proof (ew_flows _ Hw _ _ Hk) as Hf.
  pose proof (fw_dirs _ _ _ Hf dir) as Hd. pose proof (ew_bytes _ Hw).
  destruct (flush_contiguous_spec _ _ _ (cfg_limits _ (ew_cfg _ Hw)) Hd)
    as (m & ch & Hfl & Hd' & _ & Hc & Hby).
  pose proof (contiguous_clamped _ _ _ _ _ Hd Hc Hby) as Hcl.
  pose proof (dir_wf_nonneg _ _ _ Hd') as Hn. simpl in Hn.
  pose proof (zlen_nonneg (chunk_bytes ch)). set (n := zlen (chunk_bytes ch)) in *.
  pose proof (eng_mem_le _ _ _ Hw Hk) as Hm. unfold budget in Hb.
  assert (n ≤ flow_mem f) as Hnm.
  { unfold flow_mem. pose proof (dir_wf_nonneg _ _ _ (fw_dirs _ _ _ Hf ClientToServer)).
    pose proof (dir_wf_nonneg _ _ _ (fw_dirs _ _ _ Hf ServerToClient)).
    destruct dir; simpl in *; lia. }
  set (d' := delivered _ _ _) in *. set (f' := set_direction f dir d').
  exists (add_bytes ((put_flow r k f') <| total_memory := total_memory r - n |>) n),
    (data_events k dir ts ch). split_and!.
  - intros H' SH h. unfold flush_contiguous_data, get_flow. rewrite Hk. simpl. rewrite Hfl. simpl.
    rewrite csub_Some by lia. simpl. rewrite csub_Some by lia. simpl.
    rewrite deliver_all_spec by (simpl; fold n; lia). fold n.
    replace (buffered_bytes (get_direction f dir) - (buffered_bytes (get_direction f dir) - n))
      with n by lia. done.
  - split; try done.
    + assert (flow_wf (config r) k f') as Hf' by by apply flow_wf_set_direction.
      pose proof (eng_wf_put r k f f' (total_memory r - n) Hw Hk Hf') as [].
      { unfold f', flow_mem. destruct dir; simpl; lia. }
      split; try done. simpl. lia.
    + unfold budget. simpl. lia.
    + simpl. lia.
    + assert (stream_cursor r k dir = Z.max 1 (base_offset (get_direction f dir))) as Hsc
        by (unfold stream_cursor; by rewrite Hk).
      rewrite <- (app_nil_r (data_events _ _ _ _)). eapply ordered_app.
      { apply ordered_chunks. by rewrite Hsc. }
      constructor. intros k' dir'. rewrite Hsc. apply flush_cursor; done.
    + rewrite trace_bytes_data. done.
  - simpl. rewrite lookup_insert_eq. eauto.
  - apply closings_data.
  - by eapply only_touches_insert.
Qed.

(** ** Whole packets *)

(** What the decoder guarantees of a packet: [seq_number] is a [u32] and the
    payload a Rust slice. *)
Definition packet_ok (p : ParsedPacket) : Prop :=
  zlen (payload p) ≤ isize_max ∧
  match transport p with TTcp _ _ sq _ _ _ _ => is_u32 sq | _ => True end.

Section packets.
Context `{HO : HashOrder}.

Lemma process_payload_spec r packet k tcp ts :
  eng_wf r → budget r + zlen (payload packet) ≤ u64_max → is_Some (flows r !! k) →
  zlen (payload packet) ≤ isize_max →
  ∃ r' es, (∀ H (SH : StreamHandler H) (h : H),
      process_payload r h packet k tcp ts = Some (r', replay h es)) ∧
    step_ok r es r' (zlen (payload packet)) ∧ is_Some (flows r' !! k) ∧ only_touches k r r'.
Proof.
  intros Hw Hb Hk Hp. unfold process_payload.
  destruct (decide (payload packet = [])) as [->|Hne].
  { exists r, []. split_and!; [done|by apply step_ok_refl|done|by apply only_touches_sub]. }
  destruct (insert_payload_segment_spec r packet k tcp ts)
    as (r1 & dir & E1 & S1 & K1 & T1); [done..|].
  destruct (check_anomaly_thresholds_spec r1 packet k dir ts) as (r2 & E2 & S2 & K2 & T2);
    [apply S1|done|].
  destruct (flush_contiguous_data_spec r2 k dir ts) as (r3 & es & E3 & S3 & K3 & _ & T3);
    [apply S2|destruct S1, S2; lia|done|].
  exists r3, es. split_and!; [| |done|eauto using only_touches_trans].
  - intros H' SH h. rewrite E1. simpl. rewrite E2. simpl. apply E3.
  - pose proof (step_ok_trans _ _ _ _ _ _ _ S1 (step_ok_trans _ _ _ _ _ _ _ S2 S3)) as S.
    eapply step_ok_weaken; [|exact S]. lia.
Qed.

Lemma remove_if_closed_spec r k :
  eng_wf r → budget r ≤ u64_max →
  ∃ r' es, (∀ H (SH : StreamHandler H) (h : H),
      remove_if_closed r h k = Some (r', replay h es)) ∧
    step_ok r es r' 0 ∧ (∀ f, flows r' !! k = Some f → state f ≠ Closed) ∧
    flows r' ⊆ flows r.
Proof.
  intros Hw Hb. unfold remove_if_closed. destruct (flows r !! k) as [f|] eqn:Hk.
  2:{ exists r, []. split_and!; [done|by apply step_ok_refl|naive_solver|done]. }
  case_decide as Hst.
  2:{ exists r, []. split_and!; [done|by apply step_ok_refl|naive_solver|done]. }
  assert (step_ok r [] (r <| stats := stats r ++| flows_fin |>) 0) as S1
    by by apply step_ok_stats.
  destruct (close_flow_spec (r <| stats := stats r ++| flows_fin |>) k f Fin)
    as (ch1 & ch2 & n & E & S2); [apply S1|done|done|].
  eexists _, _. split_and!; [exact E|exact (step_ok_trans0 _ _ _ _ _ _ S1 S2)|..].
  - intros f'. simpl. by rewrite lookup_delete_eq.
  - apply delete_subseteq.
Qed.

Lemma enforce_memcap_spec r :
  eng_wf r → budget r ≤ u64_max →
  ∃ r' es, (∀ H (SH : StreamHandler H) (h : H),
      enforce_memcap r h = Some (r', replay h es)) ∧
    step_ok r es r' 0 ∧ total_memory r' ≤ memcap (config r') ∧ flows r' ⊆ flows r.
Proof.
  intros Hw Hb. unfold enforce_memcap. destruct (Z.ltb_spec (memcap (config r)) (total_memory r)).
  - destruct (evict_flows_spec MemCap r) as (t & r' & es & n & _ & _ & E & C & M & _); [done..|].
    exists r', es. pose proof (cl_step _ _ _ _ _ C) as S.
    split_and!; [done|done|by rewrite (so_config _ _ _ _ S)|by eapply closes_subseteq].
  - exists r, []. split_and!; [done|by apply step_ok_refl|lia|done].
Qed.

Lemma sweep_by_time_spec r ts :
  eng_wf r → budget r ≤ u64_max →
  ∃ r' es, (∀ H (SH : StreamHandler H) (h : H),
      sweep_by_time r h ts = Some (r', replay h es)) ∧
    step_ok r es r' 0 ∧ flows r' ⊆ flows r.
Proof.
  intros Hw Hb. unfold sweep_by_time. destruct (_ <? ts).
  - assert (step_ok r [] (r <| last_expiry_sweep_secs := ts |>) 0) as S1.
    { apply step_ok_meta; try done. by destruct Hw. }
    destruct (expire_matching_spec (idle_by_timeout (flow_timeout_secs (config r)) ts)
      (r <| last_expiry_sweep_secs := ts |>)) as (r' & es & E & C); [apply S1|done|].
    exists r', es. split_and!; [exact E| |exact (closes_subseteq _ _ _ _ _ C)].
    exact (step_ok_trans0 _ _ _ _ _ _ S1 (cl_step _ _ _ _ _ C)).
  - exists r, []. split_and!; [done|by apply step_ok_refl|done].
Qed.

Lemma sweep_by_index_spec r :
  eng_wf r → budget r ≤ u64_max →
  ∃ r' es, (∀ H (SH : StreamHandler H) (h : H), sweep_by_index r h = Some (r', replay h es)) ∧
    step_ok r es r' 0 ∧ flows r' ⊆ flows r.
Proof.
  intros Hw Hb. unfold sweep_by_index. destruct (is_multiple_of _ _).
  - destruct (expire_matching_spec (idle_by_packets (idle_packet_threshold (config r))
      (packet_index r)) r) as (r' & es & E & C); [done..|].
    exists r', es. split_and!; [exact E|by destruct C|exact (closes_subseteq _ _ _ _ _ C)].
  - exists r, []. split_and!; [done|by apply step_ok_refl|done].
Qed.
End packets.

(** ** [process_packet] *)

(** A FIN-closed flow is removed by the packet that closed it. *)
Definition no_closed (r : TcpReassembler) : Prop :=
  ∀ k f, flows r !! k = Some f → state f ≠ Closed.

Lemma no_closed_sub r r' : flows r' ⊆ flows r → no_closed r → no_closed r'.
Proof. intros Hs Hn k f Hf. eapply Hn, lookup_weaken; eauto. Qed.

Lemma no_closed_touched k r r' :
  only_touches k r r' → (∀ f, flows r' !! k = Some f → state f ≠ Closed) →
  no_closed r → no_closed r'.
Proof.
  intros Ht Hk Hn k' f Hf. destruct (decide (k' = k)) as [->|]; [by apply Hk|].
  by eapply Hn, Ht.
Qed.

(** The state [process_packet] works on: one more packet counted. *)
Definition ticked (r : TcpReassembler) : TcpReassembler :=
  r <| stats := stats r ++| packets_processed |> <| packet_index := packet_index r + 1 |>.

Lemma eng_wf_ticked r : eng_wf r → eng_wf (ticked r).
Proof. intros []. split; simpl; try done; lia. Qed.

Section whole_packet.
Context `{HO : HashOrder}.

(** The part of [process_packet] after admission. *)
Definition after_admission {H} `{StreamHandler H} (r : TcpReassembler) (h : H)
    (packet : ParsedPacket) (k : FlowKey) (tcp : TcpFields) (ts : Z) :
    panicky (TcpReassembler * H) :=
  '(r, h, post) ← apply_handshake_flags r h packet k tcp;
  match post with
  | FlowClosed => Some (r, h)
  | Continue =>
      '(r, h) ← process_payload r h packet k tcp ts;
      '(r, h) ← remove_if_closed r h k;
      enforce_memcap r h
  end.

Lemma after_admission_spec r packet k tcp ts :
  eng_wf r → budget r + zlen (payload packet) ≤ u64_max → is_Some (flows r !! k) →
  zlen (payload packet) ≤ isize_max → is_u32 (seq tcp) →
  ∃ r' es, (∀ H (SH : StreamHandler H) (h : H),
      after_admission r h packet k tcp ts = Some (r', replay h es)) ∧
    step_ok r es r' (zlen (payload packet)) ∧
    (∀ r0, only_touches k r0 r → no_closed r0 → no_closed r') ∧
    (total_memory r ≤ memcap (config r) → total_memory r' ≤ memcap (config r')).
Proof.
  intros Hw Hb Hk Hp Hs. pose proof (zlen_nonneg (payload packet)).
  destruct (apply_handshake_flags_spec r packet k tcp) as (r1 & es1 & post & E1 & S1 & -> & K1 & T1);
    [done|lia|done|done|]. pose proof (so_budget _ _ _ _ S1).
  destruct (rst tcp).
  { exists r1, es1. split_and!.
    - intros H' SH h. unfold after_admission. by rewrite E1.
    - eapply step_ok_weaken; [|exact S1]. lia.
    - intros r0 T0. eapply no_closed_touched; [by eapply only_touches_trans|]. by rewrite K1.
    - rewrite (so_config _ _ _ _ S1). pose proof (so_memory _ _ _ _ S1). lia. }
  destruct (process_payload_spec r1 packet k tcp ts) as (r2 & es2 & E2 & S2 & K2 & T2);
    [apply S1|lia|done|done|]. pose proof (so_budget _ _ _ _ S2).
  destruct (remove_if_closed_spec r2 k) as (r3 & es3 & E3 & S3 & K3 & U3); [apply S2|lia|].
  pose proof (so_budget _ _ _ _ S3).
  destruct (enforce_memcap_spec r3) as (r4 & es4 & E4 & S4 & M4 & U4); [apply S3|lia|].
  exists r4, (es1 ++ es2 ++ es3 ++ es4). split_and!.
  - intros H' SH h. unfold after_admission. rewrite E1. simpl. rewrite E2. simpl.
    rewrite E3. simpl. by rewrite E4, !replay_app.
  - pose proof (step_ok_trans _ _ _ _ _ _ _ S1 (step_ok_trans _ _ _ _ _ _ _ S2
      (step_ok_trans _ _ _ _ _ _ _ S3 S4))) as S.
    eapply step_ok_weaken; [|exact S]. lia.
  - intros r0 T0 Hn. apply (no_closed_sub r3); [done|].
    eapply (no_closed_touched k r0); [|done|done].
    eauto using only_touches_trans, only_touches_sub.
  - done.
Qed.

Lemma sweeps_spec r ts :
  eng_wf r → budget r ≤ u64_max →
  ∃ r' es, (∀ H (SH : StreamHandler H) (h : H),
      ('(r, h) ← sweep_by_time r h ts; sweep_by_index r h) = Some (r', replay h es)) ∧
    step_ok r es r' 0 ∧ flows r' ⊆ flows r.
Proof.
  intros Hw Hb. destruct (sweep_by_time_spec r ts) as (r1 & es1 & E1 & S1 & U1); [done..|].
  destruct (sweep_by_index_spec r1) as (r2 & es2 & E2 & S2 & U2);
    [apply S1|destruct S1; lia|].
  exists r2, (es1 ++ es2). split_and!; [|eapply step_ok_trans0; eauto|by etransitivity].
  intros H' SH h. rewrite E1. simpl. by rewrite E2, replay_app.
Qed.

(** [process_packet] by its parts. *)
Lemma process_packet_parts {H} `{StreamHandler H} r (h : H) packet ts :
  0 ≤ packet_index r → packet_index r + 1 ≤ u64_max →
  process_packet r h packet ts =
    '(r, h) ← ('(r, h) ← sweep_by_time (ticked r) h ts; sweep_by_index r h);
    match extract_tcp_context r packet with
    | (r, None) => Some (r, h)
    | (r, Some (k, tcp)) =>
      '(r, h, admitted) ← get_or_create_flow (r <| stats := stats r ++| packets_tcp |>) h k ts;
      if negb admitted then Some (r, h) else after_admission r h packet k tcp ts
    end.
Proof.
  intros. unfold process_packet. cbn zeta. rewrite cadd_Some by (simpl; lia).
  cbn [mbind option_bind]. unfold ticked. simpl.
  by destruct (sweep_by_time _ h ts) as [[ra ha]|].
Qed.

(** A packet that is not TCP only moves counters. *)
Lemma skip_packet_spec r1 packet r2 :
  extract_tcp_context r1 packet = (r2, None) → eng_wf r1 →
  step_ok r1 [] r2 0 ∧ flows r2 = flows r1.
Proof.
  unfold extract_tcp_context. intros E Hw. case_decide.
  - injection E as <-. by split; [apply step_ok_stats|].
  - destruct (transport packet); simplify_eq; by split; [apply step_ok_refl|].
Qed.

Lemma extract_tcp_context_Some r1 packet r2 k tcp :
  extract_tcp_context r1 packet = (r2, Some (k, tcp)) → packet_ok packet →
  r2 = r1 ∧ is_u32 (seq tcp).
Proof.
  unfold extract_tcp_context, packet_ok. intros E [_ Hs]. case_decide; [done|].
  by destruct (transport packet); simplify_eq.
Qed.

Lemma process_packet_spec r packet ts :
  eng_wf r → packet_ok packet → packet_index r + 1 ≤ u64_max →
  budget r + zlen (payload packet) ≤ u64_max →
  ∃ r' es, (∀ H (SH : StreamHandler H) (h : H),
      process_packet r h packet ts = Some (r', replay h es)) ∧
    step_ok (ticked r) es r' (zlen (payload packet)) ∧
    (no_closed r → no_closed r') ∧
    (total_memory r ≤ memcap (config r) → total_memory r' ≤ memcap (config r')).
Proof.
  intros Hw Hpk Hi Hb. pose proof Hpk as [Hp _]. pose proof (zlen_nonneg (payload packet)).
  pose proof (eng_wf_ticked _ Hw) as Hw0. pose proof (ew_index _ Hw).
  assert (budget (ticked r) = budget r) as Hb0 by done.
  destruct (sweeps_spec (ticked r) ts) as (r1 & es1 & E1 & S1 & U1); [done|lia|].
  pose proof (so_budget _ _ _ _ S1). pose proof (so_memory _ _ _ _ S1) as M1.
  pose proof (so_config _ _ _ _ S1) as C1. pose proof (so_wf _ _ _ _ S1) as Hw1.
  destruct (extract_tcp_context r1 packet) as [r2 [[k tcp]|]] eqn:Ex.
  2:{ destruct (skip_packet_spec _ _ _ Ex Hw1) as [S2 F2]. exists r2, (es1 ++ []). split_and!.
    - intros H' SH h. rewrite process_packet_parts, E1 by done. simpl.
      by rewrite Ex, app_nil_r.
    - apply step_ok_weaken with 0; [done|]. by eapply step_ok_trans0.
    - apply (no_closed_sub (ticked r)). by rewrite F2.
    - rewrite (so_config _ _ _ _ S2), C1. pose proof (so_memory _ _ _ _ S2).
      simpl in *. lia. }
  destruct (extract_tcp_context_Some _ _ _ _ _ Ex Hpk) as [-> Hs].
  set (r2 := r1 <| stats := stats r1 ++| packets_tcp |>).
  assert (step_ok r1 [] r2 0) as S2 by by apply step_ok_stats.
  destruct (get_or_create_flow_spec r2 k ts) as (r3 & es3 & E3 & S3 & K3 & T3);
    [apply S2|destruct S2; lia|].
  pose proof (step_ok_trans0 _ _ _ _ _ _ S1 (step_ok_trans0 _ _ _ _ _ _ S2 S3)) as S.
  destruct (after_admission_spec r3 packet k tcp ts) as (r4 & es4 & E4 & S4 & N4 & M4);
    [apply S|destruct S; lia|done|done|done|].
  exists r4, ((es1 ++ [] ++ es3) ++ es4). split_and!.
  - intros H' SH h. rewrite process_packet_parts, E1 by done. simpl. rewrite Ex.
    fold r2. rewrite E3. simpl. by rewrite E4, !replay_app.
  - exact (step_ok_trans0 _ _ _ _ _ _ S S4).
  - intros Hn. apply (N4 r2); [done|]. by apply (no_closed_sub (ticked r)).
  - intros Hm. apply M4. rewrite (so_config _ _ _ _ S). pose proof (so_memory _ _ _ _ S).
    simpl in *. lia.
Qed.

(** ** Whole captures *)

Definition payload_total (ps : list (ParsedPacket * Z)) : Z :=
  foldr (λ pt n, zlen (payload pt.1) + n) 0 ps.

Lemma run_packets_spec ps r :
  eng_wf r → Forall (λ pt, packet_ok pt.1) ps → packet_index r + zlen ps ≤ u64_max →
  budget r + payload_total ps ≤ u64_max →
  ∃ r' es, (∀ H (SH : StreamHandler H) (h : H),
      run_packets r h ps = Some (r', replay h es)) ∧
    eng_wf r' ∧ config r' = config r ∧ finalized r' = finalized r ∧
    budget r' ≤ budget r + payload_total ps ∧
    ordered (stream_cursor r) es (stream_cursor r') ∧
    (no_closed r → no_closed r') ∧
    (total_memory r ≤ memcap (config r) → total_memory r' ≤ memcap (config r')) ∧
    bytes_reassembled (stats r') = bytes_reassembled (stats r) + trace_bytes es.
Proof.
  revert r. induction ps as [|[p ts] ps IH]; intros r Hw Hok Hi Hb.
  { exists r, []. split_and!; try done; [simpl; lia|by constructor|simpl; lia]. }
  apply Forall_cons in Hok as [Hp Hok]. rewrite zlen_cons in Hi. simpl in Hb, Hp.
  assert (0 ≤ payload_total ps) as H0.
  { clear. induction ps as [|[p ts] ps IH]; simpl; [done|]. pose proof (zlen_nonneg (payload p)).
    lia. }
  pose proof (zlen_nonneg ps).
  destruct (process_packet_spec r p ts) as (r1 & es1 & E1 & S1 & N1 & M1);
    [done|done|lia|lia|]. pose proof (so_config _ _ _ _ S1) as C1.
  pose proof (so_index _ _ _ _ S1) as I1. pose proof (so_budget _ _ _ _ S1) as B1.
  assert (budget (ticked r) = budget r) as Hb0 by done. simpl in I1, C1.
  destruct (IH r1) as (r2 & es2 & E2 & W2 & C2 & F2 & B2 & O2 & N2 & M2 & D2);
    [apply S1|done|lia|lia|].
  exists r2, (es1 ++ es2). split_and!.
  - intros H' SH h. simpl. rewrite E1. simpl. by rewrite E2, replay_app.
  - done.
  - congruence.
  - rewrite F2. apply S1.
  - simpl. lia.
  - eapply ordered_app; [apply S1|done].
  - auto.
  - auto.
  - rewrite D2, trace_bytes_app. pose proof (so_delivered _ _ _ _ S1) as D1. simpl in D1. lia.
Qed.

Lemma finalize_spec r :
  eng_wf r → budget r ≤ u64_max → finalized r = false →
  ∃ r' es, (∀ H (SH : StreamHandler H) (h : H), finalize r h = Some (r', replay h es)) ∧
    eng_wf r' ∧ finalized r' = true ∧ flows r' = ∅ ∧ total_memory r' = 0 ∧
    closings es = (λ k, (k, Timeout)) <$> (hash_iter (flows r)).*1 ∧
    ordered (stream_cursor r) es (stream_cursor r') ∧
    (∃ fs, findings r' = findings r ++ fs ∧ zlen fs ≤ 1) ∧
    bytes_reassembled (stats r') = bytes_reassembled (stats r) + trace_bytes es ∧
    budget r' ≤ budget r.
Proof.
  intros Hw Hb Hf. set (r0 := r <| finalized := true |>).
  assert (eng_wf r0) as Hw0.
  { destruct Hw. split; try done. simpl. rewrite Hf in *. simpl in *. lia. }
  destruct (close_all_spec (hash_iter (flows r)).*1 r0) as (r1 & es & E & C);
    [done|done|apply NoDup_hash_keys| |].
  { intros k. rewrite list_elem_of_fmap. intros ([k' f] & -> & ?%elem_of_hash_iter). eauto. }
  pose proof (cl_step _ _ _ _ _ C) as S. pose proof (so_wf _ _ _ _ S) as Hw1.
  assert (flows r1 = ∅) as F1 by (rewrite (cl_flows _ _ _ _ _ C); by apply remove_all_keys).
  assert (total_memory r1 = 0) as M1 by (by rewrite (ew_memory _ Hw1), F1).
  pose proof (cl_findings _ _ _ _ _ C) as Hfi.
  assert (∃ fs, zlen fs ≤ 1 ∧ ∀ H (SH : StreamHandler H) (h : H), finalize r h =
    Some (r1 <| findings := findings r1 ++ fs |>, replay h es)) as (fs & Hfs & Efs).
  { destruct (0 <? segments_segment_limit (stats r1)) eqn:Ec.
    - eexists [_]. split; [done|]. intros H' SH h. unfold finalize. rewrite Hf.
      fold r0. simpl. rewrite E. simpl. by rewrite Ec.
    - exists []. split; [done|]. intros H' SH h. unfold finalize. rewrite Hf.
      fold r0. simpl. rewrite E. simpl. rewrite Ec, app_nil_r. by destruct r1. }
  eexists _, es. split; [exact Efs|]. split_and!; try done.
  - destruct Hw1. split; try done. simpl. rewrite (so_finalized _ _ _ _ S), Hfi. simpl.
    pose proof (ew_findings _ Hw) as Hn. rewrite Hf in Hn. simpl in Hn.
    rewrite zlen_app. lia.
  - apply S.
  - by rewrite (cl_closings _ _ _ _ _ C).
  - pose proof (so_ordered _ _ _ _ S) as O. exact O.
  - exists fs. by simpl; rewrite Hfi.
  - exact (so_delivered _ _ _ _ S).
  - pose proof (so_budget _ _ _ _ S) as B. unfold budget in *. simpl in *. lia.
Qed.
End whole_packet.
