(* ===== verification/ReassemblyProps.v ===== *)
(** * Properties of the TCP reassembly engine

    Statements about [process_packet], whole captures, eviction, expiry and
    [finalize], proved from the step lemmas of [ReassemblyFacts]. *)

From S2P Require Import Prelude FlowKey Handler Findings Flow Segment Reassembly ReassemblyFacts.

#[local] Open Scope Z_scope.

(** Iteration in the order of [map_to_list]: one of the orders a [HashMap] may
    use, for the concrete runs below. *)
#[local] Instance list_order : HashOrder := {
  hash_iter := map_to_list;
  hash_iter_perm m := reflexivity _
}.

Lemma cfg_ok_default : cfg_ok ReassemblyConfig_default.
Proof. split; [split|..]; simpl; try lia; vm_compute; split; discriminate || reflexivity. Qed.

Lemma TcpReassembler_new_Some c :
  cfg_ok c → ∃ r, TcpReassembler_new c = Some r ∧ eng_wf r ∧ config r = c ∧ flows r = ∅ ∧
    finalized r = false ∧ packet_index r = 0 ∧ budget r = 0 ∧ total_memory r = 0.
Proof.
  intros Hc. pose proof Hc as [[? ?] ? [? ?] ?]. unfold TcpReassembler_new.
  rewrite !(proj2 (Z.ltb_lt _ _)) by lia. simpl. eexists. split; [done|].
  split_and!; try done. split; simpl; try done. rewrite map_size_empty. lia.
Qed.

(** ** A concrete capture *)

Definition client_ip : IpAddr := V4 0x0a000001.
Definition server_ip : IpAddr := V4 0x0a000002.

(** Client-to-server data at sequence number [sq]. *)
Definition data_packet (sq : Z) (data : list Z) : ParsedPacket := {|
  src_ip := client_ip; dst_ip := server_ip; protocol := PTcp;
  transport := TTcp 40000 80 sq false true false false;
  payload := data; packet_len := 54 + zlen data
|}.

Definition syn_packet (sq : Z) : ParsedPacket := {|
  src_ip := client_ip; dst_ip := server_ip; protocol := PTcp;
  transport := TTcp 40000 80 sq true false false false;
  payload := []; packet_len := 54
|}.

Lemma data_packet_ok sq data :
  is_u32 sq → zlen data ≤ isize_max → packet_ok (data_packet sq data).
Proof. by split. Qed.

Lemma syn_packet_ok sq : is_u32 sq → packet_ok (syn_packet sq).
Proof. split; [|done]. vm_compute. discriminate. Qed.

(** ** Packets *)

(** C8. Processing a packet never panics on a well-formed engine, whatever
    the handler does: no arithmetic overflows, no flow lookup fails, no slice
    is out of range.  The new engine state and the sequence of handler calls
    do not depend on the handler, the state is again well formed (buffers
    disjoint and accounted for byte by byte, limits respected), the memory cap
    holds again, and no FIN-closed flow is left in the table. *)
Theorem process_packet_safe (HO : HashOrder) r packet ts :
  eng_wf r → packet_ok packet → packet_index r + 1 ≤ u64_max →
  budget r + zlen (payload packet) ≤ u64_max →
  ∃ r' es, (∀ H (SH : StreamHandler H) (h : H),
      process_packet r h packet ts = Some (r', replay h es)) ∧
    eng_wf r' ∧ config r' = config r ∧ packet_index r' = packet_index r + 1 ∧
    budget r' ≤ budget r + zlen (payload packet) ∧
    (total_memory r ≤ memcap (config r) → total_memory r' ≤ memcap (config r)) ∧
    (no_closed r → no_closed r').
Proof.
  intros Hw Hp Hi Hb. destruct (process_packet_spec r packet ts) as (r' & es & E & S & N & M);
    [done..|]. pose proof (so_config _ _ _ _ S) as C. rewrite C in M.
  exists r', es. destruct S. done.
Qed.

Lemma process_packet_safe_witness :
  ∃ r r' es, TcpReassembler_new ReassemblyConfig_default = Some r ∧
    process_packet r ([] : trace) (data_packet 1000 [71; 69; 84]) 5 = Some (r', es) ∧
    es = [EData (FlowKey_new client_ip 40000 server_ip 80) ClientToServer [71; 69; 84] 1 5] ∧
    eng_wf r'.
Proof.
  destruct (TcpReassembler_new_Some _ cfg_ok_default) as (r & E & Hw & _ & _ & _ & Hi & Hb & _).
  destruct (process_packet_safe list_order r (data_packet 1000 [71; 69; 84]) 5)
    as (r' & es & Ep & Hw' & _).
  - exact Hw.
  - apply data_packet_ok; [unfold is_u32, u32_max; lia|vm_compute; discriminate].
  - rewrite Hi. vm_compute. discriminate.
  - rewrite Hb. vm_compute. discriminate.
  - exists r, r', es. split; [exact E|]. specialize (Ep trace _ []).
    rewrite replay_trace in Ep. split; [exact Ep|]. split; [|exact Hw'].
    vm_compute in E. injection E as <-. vm_compute in Ep. injection Ep as <- <-.
    vm_compute. reflexivity.
Defined.

(** Admission never fails: when the table is full, eviction has always
    made room before the capacity is checked again, so a packet of a new flow
    is never dropped and the flow is in the table afterwards. *)
Theorem get_or_create_flow_always_admits (HO : HashOrder) r k ts :
  eng_wf r → budget r ≤ u64_max →
  ∃ r' es, (∀ H (SH : StreamHandler H) (h : H),
      get_or_create_flow r h k ts = Some (r', replay h es, true)) ∧
    eng_wf r' ∧ is_Some (flows r' !! k) ∧ Z.of_nat (size (flows r')) ≤ max_flows (config r).
Proof.
  intros Hw Hb. destruct (get_or_create_flow_spec r k ts) as (r' & es & E & S & K & _); [done..|].
  exists r', es. pose proof (so_wf _ _ _ _ S) as Hw'. split_and!; [done..|].
  rewrite <- (so_config _ _ _ _ S). apply Hw'.
Qed.

(** A one-flow table that is full. *)
Definition one_flow_config : ReassemblyConfig :=
  mkConfig 1000 1000 300 1 10 100 50 100 16 [] 100 8192 65536.

Lemma cfg_ok_one_flow : cfg_ok one_flow_config.
Proof. split; [split|..]; simpl; try lia; vm_compute; split; discriminate || reflexivity. Qed.

Lemma get_or_create_flow_always_admits_witness :
  ∃ r r1 h1 r2 es, TcpReassembler_new one_flow_config = Some r ∧
    process_packet r ([] : trace) (data_packet 1000 [1; 2]) 5 = Some (r1, h1) ∧
    size (flows r1) = 1%nat ∧
    get_or_create_flow r1 ([] : trace) (FlowKey_new client_ip 1 server_ip 2) 6 =
      Some (r2, es, true) ∧
    is_Some (flows r2 !! FlowKey_new client_ip 1 server_ip 2).
Proof.
  destruct (TcpReassembler_new_Some _ cfg_ok_one_flow) as (r & E & Hw & _ & _ & _ & Hi & Hb & _).
  destruct (process_packet_spec r (data_packet 1000 [1; 2]) 5) as (r1 & es1 & Ep & S1 & _).
  - exact Hw.
  - apply data_packet_ok; [unfold is_u32, u32_max; lia|vm_compute; discriminate].
  - rewrite Hi. vm_compute. discriminate.
  - rewrite Hb. vm_compute. discriminate.
  - destruct (get_or_create_flow_always_admits list_order r1 (FlowKey_new client_ip 1 server_ip 2) 6)
      as (r2 & es2 & E2 & _ & K2 & _).
    + apply S1.
    + pose proof (so_budget _ _ _ _ S1) as Hb1. change (budget (ticked r)) with (budget r) in Hb1.
      rewrite Hb in Hb1. etransitivity; [exact Hb1|]. vm_compute. discriminate.
    + specialize (Ep trace _ []). specialize (E2 trace _ []).
      exists r, r1, (replay [] es1), r2, (replay [] es2). split; [exact E|].
      split; [exact Ep|]. split; [|split; [exact E2|exact K2]].
      vm_compute in E. injection E as <-. vm_compute in Ep. injection Ep as <- _.
      vm_compute. reflexivity.
Defined.

(** ** Captures *)

Lemma stream_cursor_empty r k dir : flows r = ∅ → stream_cursor r k dir = 1.
Proof. intros E. unfold stream_cursor. by rewrite E, lookup_empty. Qed.

(** A whole capture: construction, every packet, [finalize]. *)
Lemma whole_capture_spec (HO : HashOrder) c packets :
  cfg_ok c → Forall (λ pt, packet_ok pt.1) packets →
  zlen packets ≤ u64_max → payload_total packets ≤ u64_max →
  ∃ r0 r1 r2 es1 es2, TcpReassembler_new c = Some r0 ∧
    (∀ H (SH : StreamHandler H) (h : H), run_packets r0 h packets = Some (r1, replay h es1)) ∧
    (∀ H (SH : StreamHandler H) (h : H), finalize r1 h = Some (r2, replay h es2)) ∧
    ordered (λ _ _, 1) (es1 ++ es2) (λ _ _, 1) ∧
    bytes_reassembled (stats r2) = trace_bytes (es1 ++ es2) ∧
    trace_bytes (es1 ++ es2) ≤ payload_total packets.
Proof.
  intros Hc Hp Hn Hb.
  destruct (TcpReassembler_new_Some c Hc) as (r0 & E0 & W0 & _ & F0 & Z0 & I0 & B0 & M0).
  destruct (run_packets_spec packets r0) as (r1 & es1 & E1 & W1 & _ & Z1 & B1 & O1 & _ & _ & D1);
    [done|done|lia|lia|].
  destruct (finalize_spec r1) as (r2 & es2 & E2 & _ & _ & F2 & M2 & _ & O2 & _ & D2 & B2);
    [done|lia|congruence|].
  exists r0, r1, r2, es1, es2. rewrite trace_bytes_app. unfold budget in *.
  split_and!; [done..| |lia|lia].
  pose proof (ordered_app _ _ _ _ _ O1 O2) as O.
  rewrite <- (app_nil_r (es1 ++ es2)). eapply ordered_app.
  - eapply ordered_ext; [|exact O]. intros. by rewrite stream_cursor_empty.
  - constructor. intros. by rewrite stream_cursor_empty.
Qed.

(** C1. A whole capture, from [TcpReassembler::new] through every packet to
    [finalize], always completes, and the calls the handler sees are in stream
    order: within each direction of each flow, the first chunk starts at
    offset 1 and every chunk starts exactly where the previous one ended, no
    chunk is empty, and after a close the same key starts afresh.  No
    more bytes are handed over than the capture's payloads hold. *)
Theorem capture_delivers_in_order (HO : HashOrder) c packets :
  cfg_ok c → Forall (λ pt, packet_ok pt.1) packets →
  zlen packets ≤ u64_max → payload_total packets ≤ u64_max →
  ∃ r0 r1 r2 es1 es2, TcpReassembler_new c = Some r0 ∧
    (∀ H (SH : StreamHandler H) (h : H), run_packets r0 h packets = Some (r1, replay h es1)) ∧
    (∀ H (SH : StreamHandler H) (h : H), finalize r1 h = Some (r2, replay h es2)) ∧
    ordered (λ _ _, 1) (es1 ++ es2) (λ _ _, 1) ∧
    trace_bytes (es1 ++ es2) ≤ payload_total packets.
Proof.
  intros Hc Hp Hn Hb.
  destruct (whole_capture_spec HO c packets) as (r0 & r1 & r2 & es1 & es2 & H); [done..|].
  exists r0, r1, r2, es1, es2. tauto.
Qed.

(** A handshake, two data segments out of order, end of capture. *)
Definition sample_capture : list (ParsedPacket * Z) :=
  [(syn_packet 1000, 1); (data_packet 1003 [3; 4], 2); (data_packet 1001 [1; 2], 3)].

Lemma sample_capture_ok : Forall (λ pt, packet_ok pt.1) sample_capture.
Proof.
  unfold sample_capture. repeat constructor; simpl; try (vm_compute; split; discriminate).
  all: vm_compute; discriminate.
Qed.

Lemma capture_delivers_in_order_witness :
  ∃ r0 r1 r2 es1 es2, TcpReassembler_new ReassemblyConfig_default = Some r0 ∧
    run_packets r0 ([] : trace) sample_capture = Some (r1, es1) ∧
    finalize r1 ([] : trace) = Some (r2, es2) ∧
    ordered (λ _ _, 1) (es1 ++ es2) (λ _ _, 1) ∧
    es1 ++ es2 =
      [EData (FlowKey_new client_ip 40000 server_ip 80) ClientToServer [1; 2] 1 3;
       EData (FlowKey_new client_ip 40000 server_ip 80) ClientToServer [3; 4] 3 3;
       EClose (FlowKey_new client_ip 40000 server_ip 80) Timeout].
Proof.
  destruct (capture_delivers_in_order list_order ReassemblyConfig_default sample_capture)
    as (r0 & r1 & r2 & es1 & es2 & E0 & E1 & E2 & O & _).
  - exact cfg_ok_default.
  - exact sample_capture_ok.
  - vm_compute. discriminate.
  - vm_compute. discriminate.
  - specialize (E1 trace _ []). specialize (E2 trace _ []). rewrite replay_trace in E1, E2.
    exists r0, r1, r2, es1, es2.
    split; [exact E0|split; [exact E1|split; [exact E2|split; [exact O|]]]].
    vm_compute in E0. injection E0 as <-. vm_compute in E1. injection E1 as <- <-.
    vm_compute in E2. injection E2 as <- <-. vm_compute. reflexivity.
Defined.

(** C9. After any number of packets the engine is within every configured
    limit: [total_memory] is exactly the bytes buffered in the table and at
    most [memcap], at most [max_flows] flows are tracked, each direction holds
    at most [max_segments_per_direction] segments and has delivered plus
    buffered at most [max_depth] bytes, at most [MAX_FINDINGS] findings are
    kept, no FIN-closed flow lingers, [bytes_reassembled] is exactly the bytes
    handed to the handler, and no more bytes were delivered and buffered than
    arrived. *)
Theorem capture_respects_limits (HO : HashOrder) c packets :
  cfg_ok c → Forall (λ pt, packet_ok pt.1) packets →
  zlen packets ≤ u64_max → payload_total packets ≤ u64_max →
  ∃ r0 r1 es, TcpReassembler_new c = Some r0 ∧
    (∀ H (SH : StreamHandler H) (h : H), run_packets r0 h packets = Some (r1, replay h es)) ∧
    total_memory r1 = map_sum flow_mem (flows r1) ∧ total_memory r1 ≤ memcap c ∧
    Z.of_nat (size (flows r1)) ≤ max_flows c ∧ zlen (findings r1) ≤ MAX_FINDINGS ∧
    (∀ k f dir, flows r1 !! k = Some f → state f ≠ Closed ∧
       Z.of_nat (size (segments (get_direction f dir))) ≤ max_segments_per_direction c ∧
       reassembled_bytes (get_direction f dir) + buffered_bytes (get_direction f dir)
         ≤ max_depth c) ∧
    bytes_reassembled (stats r1) = trace_bytes es ∧
    trace_bytes es + total_memory r1 ≤ payload_total packets.
Proof.
  intros Hc Hp Hn Hb.
  destruct (TcpReassembler_new_Some c Hc) as (r0 & E0 & W0 & C0 & F0 & Z0 & I0 & B0 & M0).
  destruct (run_packets_spec packets r0) as (r1 & es & E1 & W1 & C1 & Z1 & B1 & _ & N1 & M1 & D1);
    [done|done|lia|lia|].
  exists r0, r1, es. rewrite C0 in C1. split_and!; [done..|apply W1| | | | |unfold budget in *; lia|unfold budget in *; lia].
  - rewrite <- C1. apply M1. rewrite M0, C0. pose proof (cfg_memcap _ Hc). lia.
  - rewrite <- C1. apply W1.
  - pose proof (ew_findings _ W1) as Hf. rewrite Z1, Z0 in Hf. simpl in Hf. lia.
  - intros k f dir Hk. pose proof (fw_dirs _ _ _ (ew_flows _ W1 _ _ Hk) dir) as [[_ _ ?] _ ? _ _ _].
    rewrite C1 in *. split; [|done]. apply (N1 ltac:(intros ??; by rewrite F0, lookup_empty) k f Hk).
Qed.

Lemma capture_respects_limits_witness :
  ∃ r0 r1 es, TcpReassembler_new one_flow_config = Some r0 ∧
    run_packets r0 ([] : trace) sample_capture = Some (r1, es) ∧
    total_memory r1 ≤ 1000 ∧ Z.of_nat (size (flows r1)) ≤ 1.
Proof.
  destruct (capture_respects_limits list_order one_flow_config sample_capture)
    as (r0 & r1 & es & E0 & E1 & _ & M & S & _).
  - exact cfg_ok_one_flow.
  - exact sample_capture_ok.
  - vm_compute. discriminate.
  - vm_compute. discriminate.
  - exists r0, r1, (replay [] es). split; [exact E0|]. split; [exact (E1 trace _ [])|].
    split; [exact M|exact S].
Defined.

(** ** What closing a flow hands over

    The calls a recording handler sees, when the engine returns. *)

(** The buffered segments of a flow hold bytes. *)
Definition solid (f : TcpFlow) : Prop :=
  ∀ dir o data, segments (get_direction f dir) !! o = Some data → data ≠ [].

Lemma flow_wf_solid c k f : flow_wf c k f → solid f.
Proof.
  intros Hw dir o data Hl. pose proof (fw_dirs _ _ _ Hw dir) as [[Hs _ _] _ _ _ _ _].
  by apply (segs_entry _ Hs) in Hl as (_ & ? & _).
Qed.

(** The last calls about a flow: all that is in order in each direction, client
    first, stamped with the time the flow was last seen, then the close. *)
Definition last_words (reason : CloseReason) (kf : FlowKey * TcpFlow) (es : trace) : Prop :=
  ∃ c s, drains (segments (client_to_server kf.2)) (base_offset (client_to_server kf.2)) c ∧
    drains (segments (server_to_client kf.2)) (base_offset (server_to_client kf.2)) s ∧
    es = data_events kf.1 ClientToServer (last_seen kf.2) c ++
         data_events kf.1 ServerToClient (last_seen kf.2) s ++ [EClose kf.1 reason].

(** Only the byte counter of the engine moves. *)
Definition bytes_only (r r' : TcpReassembler) : Prop :=
  ∃ n, r' = r <| stats := (stats r) <| bytes_reassembled := n |> |>.

Lemma deliver_all_trace k dir ts chunks r (h : trace) r' h' :
  deliver_all k dir ts chunks r h = Some (r', h') →
  h' = h ++ data_events k dir ts chunks ∧ bytes_only r r'.
Proof.
  revert r h. induction chunks as [|[o data] chunks IH]; intros r h E; simpl in E.
  - simplify_eq. rewrite app_nil_r. split; [done|]. exists (bytes_reassembled (stats r')). by destruct r' as [? ? [] ? ? ? ? ?].
  - peel E. apply IH in E as [-> [n ->]]. simpl. rewrite <-app_assoc. split; [done|]. by exists n.
Qed.

Lemma close_flush_dir_trace k ts dir f r (h : trace) f' r' h' :
  (∀ o data, segments (get_direction f dir) !! o = Some data → data ≠ []) →
  close_flush_dir k ts dir f r h = Some (f', r', h') →
  ∃ chunks, drains (segments (get_direction f dir)) (base_offset (get_direction f dir)) chunks ∧
    h' = h ++ data_events k dir ts chunks ∧ bytes_only r r' ∧ ∃ d, f' = set_direction f dir d.
Proof.
  intros Hs E. unfold close_flush_dir in E. peel E. peel E. simplify_eq.
  apply flush_loop_drains in E0 as (chunks & -> & Hd); [|exact Hs].
  apply deliver_all_trace in E1 as [-> Hb]. exists chunks. eauto.
Qed.

Lemma close_flow_trace r (h : trace) k f reason r' h' :
  flows r !! k = Some f → solid f → close_flow r h k reason = Some (r', h') →
  ∃ es, h' = h ++ es ∧ last_words reason (k, f) es ∧ flows r' = delete k (flows r) ∧
    findings r' = findings r ∧
    segments_segment_limit (stats r') = segments_segment_limit (stats r).
Proof.
  intros Hk Hs E. unfold close_flow in E. rewrite Hk in E. peel E. peel E. peel E. peel E.
  simplify_eq. apply close_flush_dir_trace in E1 as (c & Hc & -> & [n ->] & [d ->]); [|apply Hs].
  apply close_flush_dir_trace in E2 as (s & Hsv & -> & [m ->] & _).
  2:{ apply (Hs ServerToClient). }
  eexists. split; [simpl; by rewrite <-!app_assoc|]. split; [by exists c, s|done].
Qed.

Lemma close_all_trace kfs r (h : trace) r' h' :
  NoDup kfs.*1 → (∀ k f, (k, f) ∈ kfs → flows r !! k = Some f ∧ solid f) →
  close_all kfs.*1 r h = Some (r', h') →
  ∃ ess, h' = h ++ concat ess ∧ Forall2 (last_words Timeout) kfs ess ∧
    findings r' = findings r ∧
    segments_segment_limit (stats r') = segments_segment_limit (stats r).
Proof.
  revert r h. induction kfs as [|[k f] kfs IH]; intros r h Hnd Hin E; simpl in E.
  { simplify_eq. exists []. by rewrite app_nil_r. }
  rewrite fmap_cons in Hnd. apply NoDup_cons in Hnd as [Hk Hnd]. simpl in Hk. peel E.
  destruct (Hin k f) as [Hl Hs]; [by left|].
  destruct (close_flow_trace _ _ _ _ _ _ _ Hl Hs E0) as (es & -> & Hw & Hf & Hfi & Hc).
  apply IH in E as (ess & -> & Hws & Hfi' & Hc'); [|done|].
  - exists (es :: ess). simpl. rewrite <-app_assoc. split_and!; [done|by constructor|congruence..].
  - intros k' f' Hkf. destruct (Hin k' f') as [? ?]; [by right|]. split; [|done].
    rewrite Hf, lookup_delete_ne; [done|]. intros <-. apply Hk.
    by apply (list_elem_of_fmap_2 fst) in Hkf.
Qed.

(** C17. [finalize] empties the engine.  Every remaining flow is closed exactly
    once with reason [Timeout], in the order the table is walked, and before
    the close each of its directions hands over the whole chain of segments
    that is in order at its cursor, client first ([last_words]).  No memory
    stays accounted; the one finding added is the count of segments dropped at
    the segment limit, and only when that count is not zero; a second call does
    nothing. *)
Theorem finalize_closes_every_flow (HO : HashOrder) r :
  eng_wf r → budget r ≤ u64_max → finalized r = false →
  ∃ r' ess, let es := concat ess in
    (∀ H (SH : StreamHandler H) (h : H), finalize r h = Some (r', replay h es)) ∧
    Forall2 (last_words Timeout) (hash_iter (flows r)) ess ∧
    closings es ≡ₚ (λ kf : FlowKey * TcpFlow, (kf.1, Timeout)) <$> map_to_list (flows r) ∧
    ordered (stream_cursor r) es (λ _ _, 1) ∧
    flows r' = ∅ ∧ total_memory r' = 0 ∧
    findings r' = findings r ++
      (let count := segments_segment_limit (stats r) in
       if 0 <? count then [segment_limit_finding count] else []) ∧
    zlen (findings r') ≤ MAX_FINDINGS + 1 ∧
    (∀ H (SH : StreamHandler H) (h : H), finalize r' h = Some (r', h)).
Proof.
  intros Hw Hb Hf.
  destruct (finalize_spec r) as (r' & es & E & W & Z & F & M & C & O & _); [done..|].
  pose proof (E trace _ []) as Et. rewrite replay_trace in Et.
  unfold finalize in Et. rewrite Hf in Et. peel Et.
  apply close_all_trace in E0 as (ess & Hes & Hlw & Hfi & Hc); [|apply NoDup_hash_keys|].
  2:{ simpl. intros k f Hkf%elem_of_hash_iter. split; [done|].
      by eapply flow_wf_solid, (ew_flows _ Hw). }
  exists r', ess. simpl in *. assert (es = concat ess) as <- by (by simplify_eq).
  split_and!; [done|done| | |done|done| | |].
  - rewrite C, <- list_fmap_compose. by rewrite hash_iter_perm.
  - rewrite <- (app_nil_r es). eapply ordered_app; [exact O|]. constructor. intros.
    by rewrite stream_cursor_empty.
  - rewrite <-Hc, <-Hfi. injection Et as <- _. case_match; simpl; [done|by rewrite app_nil_r].
  - pose proof (ew_findings _ W) as Hn. by rewrite Z in Hn.
  - intros H' SH h. unfold finalize. by rewrite Z.
Qed.

Lemma finalize_closes_every_flow_witness :
  ∃ r1 h1 r2 es, (∃ r0, TcpReassembler_new ReassemblyConfig_default = Some r0 ∧
      run_packets r0 ([] : trace) sample_capture = Some (r1, h1)) ∧
    size (flows r1) = 1%nat ∧
    finalize r1 ([] : trace) = Some (r2, es) ∧ flows r2 = ∅ ∧
    finalize r2 ([] : trace) = Some (r2, []).
Proof.
  destruct (TcpReassembler_new_Some _ cfg_ok_default) as (r & E & Hw & _ & _ & Hz & Hi & Hb & _).
  destruct (run_packets_spec sample_capture r) as (r1 & es1 & E1 & W1 & _ & Z1 & B1 & _).
  - exact Hw.
  - exact sample_capture_ok.
  - rewrite Hi. vm_compute. discriminate.
  - rewrite Hb. vm_compute. discriminate.
  - destruct (finalize_closes_every_flow list_order r1)
      as (r2 & ess & E2 & _ & _ & _ & F2 & _ & _ & _ & E3).
    + exact W1.
    + rewrite Hb in B1. etransitivity; [exact B1|]. vm_compute. discriminate.
    + congruence.
    + specialize (E1 trace _ []). exists r1, (replay [] es1), r2, (replay [] (concat ess)).
      split; [exists r; split; [exact E|exact E1]|]. split.
      * vm_compute in E. injection E as <-. vm_compute in E1. injection E1 as <- _.
        vm_compute. reflexivity.
      * split; [exact (E2 trace _ [])|]. split; [exact F2|exact (E3 trace _ [])].
Defined.

(** ** Eviction *)

#[local] Instance victim_le_trans : Transitive victim_le.
Proof. intros [[? []] ?] [[? []] ?] [[? []] ?]; simpl; intros; intuition (lia || congruence). Qed.

#[local] Instance victim_le_total : Total victim_le.
Proof.
  intros [[? []] sa] [[? []] sb]; simpl; [destruct (decide (sa ≤ sb))| | |destruct (decide (sa ≤ sb))];
    intuition lia.
Qed.

(** How eviction ranks a flow. *)
Definition victim_of (k : FlowKey) (f : TcpFlow) : FlowKey * bool * Z :=
  (k, bool_decide (state f = Established), last_seen f).

Section eviction.
Context `{HO : HashOrder}.

Lemma elem_of_candidates m v :
  v ∈ candidates m ↔ ∃ k f, m !! k = Some f ∧ v = victim_of k f.
Proof.
  unfold candidates. rewrite merge_sort_Permutation, list_elem_of_fmap. split.
  - intros ([k f] & -> & ?%elem_of_hash_iter). eauto.
  - intros (k & f & ? & ->). exists (k, f). by rewrite elem_of_hash_iter.
Qed.

Lemma candidates_sorted m : StronglySorted victim_le (candidates m).
Proof. apply StronglySorted_merge_sort; apply _. Qed.

(** Every flow in an evicted prefix ranks no later than every other. *)
Lemma evicted_before_kept m n k f k' f' :
  m !! k = Some f → m !! k' = Some f' →
  k ∈ take n ((λ v : FlowKey * bool * Z, v.1.1) <$> candidates m) →
  k' ∉ take n ((λ v : FlowKey * bool * Z, v.1.1) <$> candidates m) →
  victim_le (victim_of k f) (victim_of k' f').
Proof.
  intros Hk Hk' Hin Hnin. rewrite <- fmap_take in Hin, Hnin.
  assert (∀ k f, m !! k = Some f → ∀ v, v ∈ candidates m → v.1.1 = k → v = victim_of k f) as Hu.
  { intros k0 f0 Hk0 v (k1 & f1 & Hk1 & ->)%elem_of_candidates. simpl. intros ->. congruence. }
  pose proof (candidates_sorted m) as Hs. rewrite <- (take_drop n (candidates m)) in Hs.
  apply list_elem_of_fmap in Hin as (v & -> & Hv).
  assert (victim_of k' f' ∈ drop n (candidates m)) as Hv'.
  { assert (victim_of k' f' ∈ candidates m) as Ha by (apply elem_of_candidates; eauto).
    rewrite <- (take_drop n (candidates m)) in Ha. apply elem_of_app in Ha as [Ha|?]; [|done].
    destruct Hnin. apply list_elem_of_fmap. by exists (victim_of k' f'). }
  rewrite <- (Hu _ _ Hk v); [|rewrite <- (take_drop n); apply elem_of_app; by left|done].
  eapply StronglySorted_app_1_elem_of; [exact Hs|done|done].
Qed.
End eviction.

(** Eviction order and extent.  [evict_flows] always brings memory under
    [memcap] and the table under the trigger's flow target; it closes victims
    with reason [MemoryPressure], every victim ranks no later than every
    survivor (flows that are not established before established ones, then
    least recently seen first), and it stops as early as possible: one victim
    fewer would leave a limit exceeded. *)
Theorem evict_flows_order_and_extent (HO : HashOrder) r trigger :
  eng_wf r → budget r ≤ u64_max →
  ∃ target victims r' es, flow_count_target (config r) trigger = Some target ∧
    (∀ H (SH : StreamHandler H) (h : H), evict_flows r h trigger = Some (r', replay h es)) ∧
    total_memory r' ≤ memcap (config r) ∧ Z.of_nat (size (flows r')) ≤ target ∧
    flows r' = remove_keys victims (flows r) ∧
    closings es = (λ k, (k, MemoryPressure)) <$> victims ∧
    (∀ k f k' f', flows r !! k = Some f → k ∈ victims → flows r' !! k' = Some f' →
       victim_le (victim_of k f) (victim_of k' f')) ∧
    (∀ early last, victims = early ++ [last] →
       ¬ fits (memcap (config r)) target (remove_keys early (flows r))).
Proof.
  intros Hw Hb.
  destruct (evict_flows_spec trigger r) as (t & r' & es & n & Ht & _ & E & C & M & S & Hmin);
    [done..|]. set (ks := (λ v : FlowKey * bool * Z, v.1.1) <$> candidates (flows r)) in *.
  pose proof (cl_flows _ _ _ _ _ C) as F.
  exists t, (take n ks), r', es. split_and!; try done; [apply C| |].
  - intros k f k' f' Hk Hin Hk'. rewrite F, lookup_remove_keys in Hk'.
    case_decide; [done|]. by eapply evicted_before_kept.
  - intros early last Hel. pose proof (f_equal length Hel) as Hl.
    rewrite length_take, length_app in Hl. simpl in Hl.
    assert (take (length early) ks = early) as He.
    { rewrite <- (take_app_length early [last]) at 2. rewrite <- Hel, take_take. f_equal. lia. }
    rewrite <- He. apply Hmin. lia.
Qed.

Lemma evict_flows_order_and_extent_witness :
  ∃ r r1 r2 es, TcpReassembler_new one_flow_config = Some r ∧
    run_packets r ([] : trace) sample_capture = Some (r1, es) ∧
    evict_flows r1 ([] : trace) MaxFlows = Some (r2, [EClose
      (FlowKey_new client_ip 40000 server_ip 80) MemoryPressure]) ∧
    Z.of_nat (size (flows r2)) ≤ 0.
Proof.
  destruct (TcpReassembler_new_Some _ cfg_ok_one_flow) as (r & E & Hw & _ & _ & Hz & Hi & Hb & _).
  destruct (run_packets_spec sample_capture r) as (r1 & es1 & E1 & W1 & _ & Z1 & B1 & _).
  - exact Hw.
  - exact sample_capture_ok.
  - rewrite Hi. vm_compute. discriminate.
  - rewrite Hb. vm_compute. discriminate.
  - destruct (evict_flows_order_and_extent list_order r1 MaxFlows)
      as (t & vs & r2 & es2 & Ht & E2 & _ & S2 & _).
    + exact W1.
    + rewrite Hb in B1. etransitivity; [exact B1|]. vm_compute. discriminate.
    + specialize (E1 trace _ []). specialize (E2 trace _ []). rewrite replay_trace in E2.
      exists r, r1, r2, (replay [] es1). split; [exact E|]. split; [exact E1|].
      vm_compute in E. injection E as <-. vm_compute in E1. injection E1 as <- _.
      vm_compute in Ht. injection Ht as <-. split; [|exact S2].
      rewrite E2. vm_compute in E2. injection E2 as _ <-. vm_compute. reflexivity.
Defined.

(** ** Expiry *)

(** Expiry is exact: [expire_flows] closes, once each and with reason
    [Timeout], precisely the flows that are FIN-closed or have been silent for
    more than [flow_timeout_secs] at [now], and leaves every other flow
    untouched. *)
Theorem expire_flows_exact (HO : HashOrder) r now :
  let expired f := state f = Closed ∨
    (last_seen f < now ∧ flow_timeout_secs (config r) < now - last_seen f) in
  eng_wf r → budget r ≤ u64_max →
  ∃ r' es, (∀ H (SH : StreamHandler H) (h : H), expire_flows r h now = Some (r', replay h es)) ∧
    eng_wf r' ∧
    (∀ k f, flows r' !! k = Some f ↔ flows r !! k = Some f ∧ ¬ expired f) ∧
    NoDup (closings es) ∧
    (∀ k reason, (k, reason) ∈ closings es ↔
       reason = Timeout ∧ ∃ f, flows r !! k = Some f ∧ expired f).
Proof.
  intros expired Hw Hb. set (p := λ flow, bool_decide (state flow = Closed) ||
    idle_by_timeout (flow_timeout_secs (config r)) now flow).
  assert (∀ f, p f = true ↔ expired f) as Hp.
  { intros f. unfold p, expired, idle_by_timeout.
    rewrite orb_true_iff, bool_decide_eq_true, andb_true_iff, !Z.ltb_lt. done. }
  destruct (expire_matching_spec p r Hw Hb) as (r' & es & E & C).
  exists r', es. split_and!; [exact E|apply C| | |].
  - intros k f. rewrite (cl_flows _ _ _ _ _ C), lookup_remove_keys. case_decide as Hk.
    + split; [done|]. intros [Hf Hn]. apply elem_of_matching_keys in Hk as (f' & ? & ?).
      simplify_eq. destruct Hn. by apply Hp.
    + split; [|by intros []]. intros Hf. split; [done|]. intros He. destruct Hk.
      apply elem_of_matching_keys. exists f. split; [done|by apply Hp].
  - rewrite (cl_closings _ _ _ _ _ C). apply NoDup_fmap; [by intros ?? [= ->]|].
    apply NoDup_matching_keys.
  - intros k reason. rewrite (cl_closings _ _ _ _ _ C), list_elem_of_fmap.
    setoid_rewrite elem_of_matching_keys. setoid_rewrite Hp. clear. split.
    + intros (k' & [= -> ->] & ?). done.
    + intros [-> ?]. eauto.
Qed.

Lemma expire_flows_exact_witness :
  ∃ r r1 r2 es1 es2, TcpReassembler_new ReassemblyConfig_default = Some r ∧
    run_packets r ([] : trace) sample_capture = Some (r1, es1) ∧
    size (flows r1) = 1%nat ∧
    expire_flows r1 ([] : trace) 304 = Some (r2, es2) ∧ size (flows r2) = 0%nat ∧
    ∀ k f, flows r2 !! k = Some f → ¬ (last_seen f < 304 ∧ 300 < 304 - last_seen f).
Proof.
  destruct (TcpReassembler_new_Some _ cfg_ok_default) as (r & E & Hw & _ & _ & Hz & Hi & Hb & _).
  destruct (run_packets_spec sample_capture r) as (r1 & es1 & E1 & W1 & C1 & Z1 & B1 & _).
  - exact Hw.
  - exact sample_capture_ok.
  - rewrite Hi. vm_compute. discriminate.
  - rewrite Hb. vm_compute. discriminate.
  - destruct (expire_flows_exact list_order r1 304) as (r2 & es2 & E2 & _ & F2 & _ & _).
    + exact W1.
    + rewrite Hb in B1. etransitivity; [exact B1|]. vm_compute. discriminate.
    + specialize (E1 trace _ []). specialize (E2 trace _ []).
      exists r, r1, r2, (replay [] es1), (replay [] es2). split; [exact E|]. split; [exact E1|].
      vm_compute in E. injection E as <-. vm_compute in E1. injection E1 as <- _.
      split; [vm_compute; reflexivity|]. split; [exact E2|]. split.
      * vm_compute in E2. injection E2 as <- _. vm_compute. reflexivity.
      * intros k f Hf. apply F2 in Hf as [_ Hn]. intros Hx. apply Hn. right. exact Hx.
Defined.

(** ** Conflicting retransmissions *)

(** A contradicting retransmission that also carries new bytes is not
    reported.  If any position of a segment is still free (and the depth limit
    leaves room), the verdict is never [ConflictingOverlap], however many of
    its other bytes differ from the buffered ones, and the engine adds no
    finding for it. *)
Theorem conflicting_extension_goes_unreported max_depth max_segments window d seq data i q :
  limits_ok max_depth max_segments → dir_wf max_depth max_segments d →
  isn d = Some i → zlen data ≤ isize_max → 0 ≤ window →
  reassembled_bytes d + buffered_bytes d + zlen data ≤ max_depth →
  seq_offset seq i ≤ q < seq_offset seq i + zlen data → byte_at (segments d) q = None →
  ∃ result d', insert_segment d seq data max_depth max_segments window = Some (result, d') ∧
    result ≠ ConflictingOverlap ∧
    ∀ r k src ts n, findings (record_result r k src ts n result) = findings r.
Proof.
  intros Hl Hw Hi Hlen Hwin Hd Hq Hfree.
  destruct (insert_segment_spec max_depth max_segments window d seq data i)
    as (res & d' & n & E & _ & _ & _ & Hn & _ & Hv & _); [done..|].
  exists res, d'. split; [done|].
  assert (res ≠ ConflictingOverlap) as Hres.
  { intros ->. destruct Hv as (-> & Hall & _). destruct (Hall q) as [b Hb]; [lia|congruence]. }
  split; [done|]. intros r k src ts m. destruct res; simpl in *; try done; [lia|].
  by destruct (0 <? m).
Qed.

(** Bytes 2 and 3 are buffered; a segment with two other bytes for them and a
    new byte 4 arrives. *)
Lemma conflicting_extension_goes_unreported_witness :
  ∃ d result d',
    insert_segment (set_isn FlowDirection_new 100) 102 [20; 30] 1000 10 100 =
      Some (Inserted, d) ∧
    insert_segment d 102 [98; 99; 40] 1000 10 100 = Some (result, d') ∧
    result = PartialOverlap ∧
    ∀ r k src ts n, findings (record_result r k src ts n result) = findings r.
Proof.
  assert (limits_ok 1000 10) as Hl by (split; [unfold isize_max|]; lia).
  destruct (insert_segment_spec 1000 10 100 (set_isn FlowDirection_new 100) 102 [20; 30] 100)
    as (r0 & d & k0 & E0 & W0 & (S0 & _) & _).
  - exact Hl.
  - apply dir_wf_set_isn; [by apply dir_wf_new|]. unfold is_u32, u32_max. lia.
  - reflexivity.
  - vm_compute. discriminate.
  - lia.
  - pose proof E0 as E0'. vm_compute in E0. injection E0 as <- <-.
    match type of W0 with dir_wf _ _ ?d => set (d0 := d) in * end.
    destruct (conflicting_extension_goes_unreported 1000 10 100 d0 102 [98; 99; 40] 100 4)
      as (result & d' & E1 & _ & F).
    + exact Hl.
    + exact W0.
    + reflexivity.
    + vm_compute. discriminate.
    + lia.
    + vm_compute. discriminate.
    + vm_compute. split; [discriminate|reflexivity].
    + vm_compute. reflexivity.
    + exists d0, result, d'. split; [exact E0'|]. split; [exact E1|].
      split; [|exact F]. vm_compute in E1. injection E1 as <- _. reflexivity.
Defined.
