(* ===== verification/EngineCounts.v ===== *)
(** * The packet counters of the engine

    Which operations of [Reassembly] move the counters of packets and of
    completed flows, and what the counters are after a capture. *)

From S2P Require Import Prelude FlowKey Handler Findings Flow Segment Reassembly.
From S2P Require Import ReassemblyFacts ReassemblyProps.

#[local] Open Scope Z_scope.

Record packet_counts := mkPacketCounts {
  n_processed : Z;
  n_tcp : Z;
  n_skipped : Z;
  n_rst : Z;
  n_fin : Z
}.

Definition packet_counters (r : TcpReassembler) : packet_counts :=
  let s := stats r in
  mkPacketCounts (packets_processed s) (packets_tcp s) (packets_skipped_non_tcp s) (flows_rst s) (flows_fin s).

Ltac counts_solve := unfold packet_counters in *; cbn in *; simplify_eq; intuition congruence.

Section counters.
Context {H : Type} `{SH : StreamHandler H} `{HO : HashOrder}.

Lemma deliver_all_counters k dir ts flushed r (h : H) r' h' :
  deliver_all k dir ts flushed r h = Some (r', h') → packet_counters r' = packet_counters r.
Proof.
  revert r h. induction flushed as [|[o d] l IH]; intros r h E; cbn [deliver_all] in E; [by simplify_eq|].
  peel E. by apply IH in E as ->.
Qed.

Lemma close_flush_dir_counters k ts dir f r (h : H) f' r' h' :
  close_flush_dir k ts dir f r h = Some (f', r', h') → packet_counters r' = packet_counters r.
Proof. intros E. unfold close_flush_dir in E. peel E. peel E. simplify_eq. by eapply deliver_all_counters. Qed.

Lemma close_flow_counters r (h : H) k reason r' h' :
  close_flow r h k reason = Some (r', h') → packet_counters r' = packet_counters r.
Proof.
  unfold close_flow. destruct (flows r !! k) as [f|]; [|by intros [= <- <-]]. intros E.
  peel E. peel E. peel E. peel E. simplify_eq.
  apply close_flush_dir_counters in E1, E2. unfold packet_counters in *. cbn in *. congruence.
Qed.

Lemma evict_loop_counters target victims r (h : H) r' h' :
  evict_loop target victims r h = Some (r', h') → packet_counters r' = packet_counters r.
Proof.
  revert r h. induction victims as [|[[k ?] ?] l IH]; intros r h E; cbn [evict_loop] in E; [by simplify_eq|].
  destruct (_ && _); [by simplify_eq|]. peel E. apply IH in E as ->. by apply close_flow_counters in E0 as ->.
Qed.

Lemma evict_flows_counters r (h : H) trigger r' h' :
  evict_flows r h trigger = Some (r', h') → packet_counters r' = packet_counters r.
Proof. unfold evict_flows. intros E. peel E. by eapply evict_loop_counters. Qed.

Lemma expire_keys_counters keys r (h : H) r' h' :
  expire_keys keys r h = Some (r', h') → packet_counters r' = packet_counters r.
Proof.
  revert r h. induction keys as [|k l IH]; intros r h E; cbn [expire_keys] in E; [by simplify_eq|].
  peel E. apply IH in E as ->. by apply close_flow_counters in E0 as ->.
Qed.

Lemma sweeps_counters r (h : H) ts r1 h1 r' h' :
  sweep_by_time r h ts = Some (r1, h1) → sweep_by_index r1 h1 = Some (r', h') → packet_counters r' = packet_counters r.
Proof.
  unfold sweep_by_time, sweep_by_index. intros E1 E2.
  assert (packet_counters r' = packet_counters r1) as ->.
  { destruct (is_multiple_of _ _); [by eapply expire_keys_counters|by simplify_eq]. }
  destruct (_ <? _); [|by simplify_eq]. by apply expire_keys_counters in E1.
Qed.

Lemma get_or_create_flow_counters r (h : H) k ts r' h' b :
  get_or_create_flow r h k ts = Some (r', h', b) → packet_counters r' = packet_counters r.
Proof.
  unfold get_or_create_flow. intros E. peel E.
  assert (packet_counters x = packet_counters r) as <-.
  { unfold admit_flow in E0. case_decide; [by simplify_eq|]. peel E0.
    assert (packet_counters x0 = packet_counters r) as <-.
    { destruct (_ <=? _); [|by simplify_eq]. peel E1. simplify_eq. by eapply evict_flows_counters. }
    destruct b1; by simplify_eq. }
  destruct (negb b0); [by simplify_eq|]. peel E. by simplify_eq.
Qed.

(** A reset counts once, nothing else does. *)
Lemma apply_handshake_flags_counters r (h : H) packet k tcp r' h' post :
  apply_handshake_flags r h packet k tcp = Some (r', h', post) →
  packet_counters r' =
    match post with
    | FlowClosed => packet_counters (r <| stats := stats r ++| flows_rst |>)
    | Continue => packet_counters r
    end.
Proof.
  unfold apply_handshake_flags. intros E. peel E. destruct (rst tcp); [|by simplify_eq].
  peel E. simplify_eq. by apply close_flow_counters in E1 as ->.
Qed.

Lemma record_result_counters r k src ts n res : packet_counters (record_result r k src ts n res) = packet_counters r.
Proof.
  destruct res; cbn [record_result]; try done;
    unfold generate_conflicting_overlap_finding, generate_truncated_finding; by case_match.
Qed.

Lemma push_finding_counters r f : packet_counters (push_finding r f) = packet_counters r.
Proof. unfold push_finding. by case_match. Qed.

Lemma process_payload_counters r (h : H) packet k tcp ts r' h' :
  process_payload r h packet k tcp ts = Some (r', h') → packet_counters r' = packet_counters r.
Proof.
  unfold process_payload. case_decide; [by intros [= <- <-]|]. intros E. peel E. peel E.
  assert (packet_counters x = packet_counters r) as <-.
  { unfold insert_payload_segment in E0. peel E0. destruct (infer_join r x1 packet tcp) as [r1 f1] eqn:Ej.
    assert (packet_counters r1 = packet_counters r) as <- by (unfold infer_join in Ej; case_decide; by simplify_eq).
    peel E0. peel E0. simplify_eq. by rewrite record_result_counters. }
  assert (packet_counters x0 = packet_counters x) as <-.
  { unfold check_anomaly_thresholds in E1. peel E1.
    unfold overlap_alert, small_segment_alert, out_of_window_alert in E1. repeat case_match; simplify_eq;
      unfold put_flow; change (packet_counters (?r <| flows := _ |>)) with (packet_counters r);
      by rewrite ?push_finding_counters. }
  unfold flush_contiguous_data in E. peel E. peel E. peel E. peel E. by apply deliver_all_counters in E as ->.
Qed.

(** A packet of the engine's protocol. *)
Definition is_tcp_packet (p : ParsedPacket) : bool :=
  bool_decide (protocol p = PTcp) && match transport p with TTcp _ _ _ _ _ _ _ => true | _ => false end.

(** What one packet does to the counters. *)
Lemma process_packet_counters r (h : H) p ts r' h' :
  process_packet r h p ts = Some (r', h') →
  let c := packet_counters r in let c' := packet_counters r' in
  n_processed c' = sat_add u64_max (n_processed c) 1 ∧
  n_tcp c' = (if is_tcp_packet p then sat_add u64_max (n_tcp c) 1 else n_tcp c) ∧
  n_skipped c' = (if bool_decide (protocol p = PTcp) then n_skipped c else sat_add u64_max (n_skipped c) 1) ∧
  ((n_rst c' = n_rst c ∧ n_fin c' = n_fin c) ∨
   is_tcp_packet p = true ∧
   ((n_rst c' = sat_add u64_max (n_rst c) 1 ∧ n_fin c' = n_fin c) ∨
    (n_rst c' = n_rst c ∧ n_fin c' = sat_add u64_max (n_fin c) 1))).
Proof.
  unfold process_packet, is_tcp_packet. intros E. peel E. peel E. peel E. rename x0 into r1, x1 into r2.
  pose proof (sweeps_counters _ _ _ _ _ _ _ E1 E2) as Es. cbn zeta.
  assert (packet_counters r2 = packet_counters (r <| stats := stats r ++| packets_processed |>)) as Es' by done. clear Es E1 E2.
  unfold extract_tcp_context in E. destruct (decide (protocol p = PTcp)) as [Hp|Hp].
  2: { rewrite decide_True in E by done. simplify_eq. rewrite bool_decide_eq_false_2 by done.
       counts_solve. }
  rewrite decide_False in E by tauto. rewrite bool_decide_eq_true_2 by done.
  destruct (transport p) as [sp dp sq sy ak fi rs| |]; simplify_eq;
    [|counts_solve..].
  peel E. rename x0 into r3. apply get_or_create_flow_counters in E1.
  assert (packet_counters r3 = packet_counters (r <| stats := stats r ++| packets_processed ++| packets_tcp |>)) as E3.
  { rewrite E1. unfold packet_counters in *. cbn in *. congruence. }
  clear E1. destruct (negb b); [counts_solve|].
  peel E. rename x0 into r4. apply apply_handshake_flags_counters in E1. destruct p0.
  2: { counts_solve. }
  peel E. rename x0 into r5. apply process_payload_counters in E2. rewrite E1, E3 in E2. clear E1 E3.
  peel E. rename x0 into r6.
  assert (packet_counters r' = packet_counters r6) as ->.
  { unfold enforce_memcap in E. destruct (_ <? _); [by eapply evict_flows_counters|by simplify_eq]. }
  clear E. unfold remove_if_closed in E1. destruct (flows r5 !! _) as [f|]; [|counts_solve].
  case_decide; [|counts_solve].
  apply close_flow_counters in E1 as ->. counts_solve.
Qed.
End counters.

(** ** A whole capture *)

Definition tcp_packets (ps : list (ParsedPacket * Z)) : Z := zlen (filter (λ pt, is_tcp_packet pt.1 = true) ps).

Definition non_tcp_packets (ps : list (ParsedPacket * Z)) : Z := zlen (filter (λ pt, protocol pt.1 ≠ PTcp) ps).

Lemma tcp_packets_cons p ts ps :
  tcp_packets ((p, ts) :: ps) = (if is_tcp_packet p then 1 else 0) + tcp_packets ps.
Proof. unfold tcp_packets. rewrite filter_cons. cbn [fst]. destruct (is_tcp_packet p); [rewrite decide_True by done; apply zlen_cons|by rewrite decide_False]. Qed.

Lemma non_tcp_packets_cons p ts ps :
  non_tcp_packets ((p, ts) :: ps) = (if bool_decide (protocol p = PTcp) then 0 else 1) + non_tcp_packets ps.
Proof.
  unfold non_tcp_packets. rewrite filter_cons. cbn [fst]. destruct (decide (protocol p = PTcp)) as [Hp|Hp].
  - rewrite bool_decide_eq_true_2, decide_False by tauto. done.
  - rewrite bool_decide_eq_false_2, decide_True by done. apply zlen_cons.
Qed.

Lemma tcp_packets_bounds ps : 0 ≤ tcp_packets ps ∧ 0 ≤ non_tcp_packets ps ∧ tcp_packets ps + non_tcp_packets ps ≤ zlen ps.
Proof.
  induction ps as [|[p ts] ps IH]; [by vm_compute|]. rewrite tcp_packets_cons, non_tcp_packets_cons, zlen_cons.
  unfold is_tcp_packet. destruct (bool_decide _); [destruct (transport p)|]; simpl; lia.
Qed.

(** The counters after [ps], from counters that leave room for them. *)
Lemma run_packets_counters {H} `{SH : StreamHandler H} `{HO : HashOrder} ps r (h : H) r' h' :
  run_packets r h ps = Some (r', h') →
  let c := packet_counters r in let c' := packet_counters r' in
  0 ≤ n_rst c → 0 ≤ n_fin c → n_processed c + zlen ps ≤ u64_max → n_tcp c + zlen ps ≤ u64_max →
  n_skipped c + zlen ps ≤ u64_max → n_rst c + n_fin c + zlen ps ≤ u64_max →
  n_processed c' = n_processed c + zlen ps ∧ n_tcp c' = n_tcp c + tcp_packets ps ∧
  n_skipped c' = n_skipped c + non_tcp_packets ps ∧ 0 ≤ n_rst c' ∧ 0 ≤ n_fin c' ∧
  n_rst c' + n_fin c' ≤ n_rst c + n_fin c + tcp_packets ps.
Proof.
  revert r h. induction ps as [|[p ts] ps IH]; intros r h E; cbn zeta.
  { injection E as <- <-. change (tcp_packets []) with 0. change (non_tcp_packets []) with 0. change (zlen (@nil (ParsedPacket * Z))) with 0. lia. }
  cbn [run_packets] in E. peel E. rename x into r1. apply process_packet_counters in E0. cbn zeta in E0.
  specialize (IH _ _ E). cbn zeta in IH. clear E. pose proof (zlen_nonneg ps).
  rewrite tcp_packets_cons, non_tcp_packets_cons, zlen_cons. unfold sat_add in E0.
  destruct (is_tcp_packet p), (bool_decide (protocol p = PTcp)); lia.
Qed.

Lemma finalize_counters {H} `{SH : StreamHandler H} `{HO : HashOrder} r (h : H) r' h' :
  finalize r h = Some (r', h') → packet_counters r' = packet_counters r.
Proof.
  unfold finalize. destruct (finalized r); [by intros [= <- <-]|]. intros E. peel E.
  assert (∀ ks (r r' : TcpReassembler) (h h' : H), close_all ks r h = Some (r', h') → packet_counters r' = packet_counters r) as Hall.
  { clear. induction ks as [|k ks IH]; intros r r' h h' E; cbn [close_all] in E; [by simplify_eq|].
    peel E. apply IH in E as ->. by eapply close_flow_counters. }
  apply Hall in E0. injection E as <- <-. transitivity (packet_counters x); [by destruct (_ <? _)|exact E0].
Qed.

(** [summarize] needs only that the completed flows fit. *)
Lemma summarize_ok r :
  let c := packet_counters r in
  n_rst c + n_fin c ≤ u64_max →
  ∃ s, summarize r = Some s ∧ packets_analyzed s = n_tcp c ∧
    detail s !! "packets_processed"%string = Some (JNum (n_processed c)) ∧
    detail s !! "packets_skipped_non_tcp"%string = Some (JNum (n_skipped c)) ∧
    detail s !! "flows_completed"%string = Some (JNum (n_rst c + n_fin c)).
Proof.
  intros c Hc. unfold summarize. rewrite cadd_Some by (unfold c in Hc; cbn in Hc; lia). cbn [mbind option_bind].
  eexists. split; [done|]. unfold c. cbn. by rewrite Z.add_comm.
Qed.

(** The summary of a finished engine. *)
Lemma engine_summary_counts {H} `{SH : StreamHandler H} `{HO : HashOrder} c ps r0 r1 r2 (h h1 h2 : H) :
  TcpReassembler_new c = Some r0 → run_packets r0 h ps = Some (r1, h1) → finalize r1 h1 = Some (r2, h2) →
  zlen ps ≤ u64_max →
  ∃ s, summarize r2 = Some s ∧ packets_analyzed s = tcp_packets ps ∧
    detail s !! "packets_processed"%string = Some (JNum (zlen ps)) ∧
    detail s !! "packets_skipped_non_tcp"%string = Some (JNum (non_tcp_packets ps)) ∧
    ∃ n, detail s !! "flows_completed"%string = Some (JNum n) ∧ 0 ≤ n ≤ tcp_packets ps.
Proof.
  intros E0 E1 E2 Hn.
  assert (packet_counters r0 = mkPacketCounts 0 0 0 0 0) as C0.
  { unfold TcpReassembler_new in E0. destruct (_ && _); by simplify_eq. }
  pose proof (run_packets_counters _ _ _ _ _ E1) as C1. cbn zeta in C1. rewrite C0 in C1.
  cbn [n_processed n_tcp n_skipped n_rst n_fin] in C1.
  destruct C1 as (P1 & P2 & P3 & P4 & P5 & P6); try lia. pose proof (tcp_packets_bounds ps).
  pose proof (finalize_counters _ _ _ _ E2) as C2. rewrite <- C2 in P1, P2, P3, P4, P5, P6.
  destruct (summarize_ok r2) as (s & Es & S1 & S2 & S3 & S4); [lia|].
  exists s. split_and!; [done|by rewrite S1, P2|by rewrite S2, P1|by rewrite S3, P3|].
  eexists. split; [exact S4|]. lia.
Qed.

(** The engine's summary counts every packet once.  After any capture of at
    most 2^64 - 1 packets and payload bytes [summarize] returns, reports the
    number of packets it was given, the number of TCP packets and the number of
    packets of other protocols exactly, and no more completed flows than TCP
    packets; the counters never overflow. *)
Theorem engine_counts_every_packet (HO : HashOrder) {H} (SH : StreamHandler H) (h : H) c packets :
  cfg_ok c → Forall (λ pt, packet_ok pt.1) packets → zlen packets ≤ u64_max → payload_total packets ≤ u64_max →
  ∃ r0 r1 r2 h1 h2 s, TcpReassembler_new c = Some r0 ∧ run_packets r0 h packets = Some (r1, h1) ∧
    finalize r1 h1 = Some (r2, h2) ∧ summarize r2 = Some s ∧
    packets_analyzed s = tcp_packets packets ∧
    detail s !! "packets_processed"%string = Some (JNum (zlen packets)) ∧
    detail s !! "packets_skipped_non_tcp"%string = Some (JNum (non_tcp_packets packets)) ∧
    ∃ n, detail s !! "flows_completed"%string = Some (JNum n) ∧ 0 ≤ n ≤ tcp_packets packets.
Proof.
  intros Hc Hp Hn Hb. destruct (whole_capture_spec HO c packets) as (r0 & r1 & r2 & es1 & es2 & E0 & E1 & E2 & _); [done..|].
  destruct (engine_summary_counts _ _ _ _ _ _ _ _ E0 (E1 H SH h) (E2 H SH _) Hn) as (s & Es & Hs).
  eexists r0, r1, r2, _, _, s. split_and!; [done|apply E1|apply E2|done|apply Hs..].
Qed.

#[local] Existing Instance list_order.

(** Two data packets and a datagram. *)
Definition counted_capture : list (ParsedPacket * Z) :=
  [(mkPacket (V4 1) (V4 2) PTcp (TTcp 40000 80 100 false true false false) [1; 2] 42, 1);
   (mkPacket (V4 1) (V4 2) PUdp (TUdp 5353 5353) [] 28, 1);
   (mkPacket (V4 1) (V4 2) PTcp (TTcp 40000 80 102 false true false true) [] 40, 2)].

Lemma engine_counts_every_packet_witness :
  ∃ r0 r1 r2 h1 h2 s, TcpReassembler_new ReassemblyConfig_default = Some r0 ∧
    run_packets r0 ([] : trace) counted_capture = Some (r1, h1) ∧ finalize r1 h1 = Some (r2, h2) ∧
    summarize r2 = Some s ∧ packets_analyzed s = 2 ∧
    detail s !! "packets_skipped_non_tcp"%string = Some (JNum 1).
Proof.
  destruct (engine_counts_every_packet list_order trace_handler [] ReassemblyConfig_default counted_capture)
    as (r0 & r1 & r2 & h1 & h2 & s & E0 & E1 & E2 & Es & Ht & _ & Hn & _).
  - exact cfg_ok_default.
  - repeat constructor; vm_compute; discriminate.
  - vm_compute. discriminate.
  - vm_compute. discriminate.
  - exists r0, r1, r2, h1, h2, s. split; [exact E0|split; [exact E1|split; [exact E2|split; [exact Es|split; [exact Ht|exact Hn]]]]].
Defined.
