(* ===== verification/Dispatcher.v ===== *)
(** * Protocol dispatch (src/dispatcher.rs)

    The dispatcher sits between the reassembly engine and the protocol
    analyzers: it is the engine's [StreamHandler], decides once per flow which
    analyzer the flow belongs to, and forwards the flow's events to it.  The
    analyzers are parameters here, known only through their interfaces. *)

From S2P Require Import Prelude FlowKey Handler Findings.

#[local] Open Scope Z_scope.

(** The calling convention of the DNP3, EtherNet/IP and IEC-104 analyzers:
    [on_data(flow_key, data, timestamp, direction)] and
    [on_flow_close(flow_key)], without offset and close reason. *)
Class FlowAnalyzer (A : Type) := {
  flow_on_data : A → FlowKey → list Z → Z → Direction → A;
  flow_on_close : A → FlowKey → A
}.

Inductive TransportProto := Tcp | Udp.

#[global] Instance TransportProto_eq_dec : EqDecision TransportProto.
Proof. solve_decision. Defined.

#[global] Instance TransportProto_countable : Countable TransportProto.
Proof.
  refine (inj_countable' (λ t, match t with Tcp => true | Udp => false end)
    (λ b : bool, if b then Tcp else Udp) _). by intros [].
Defined.

Inductive DispatchTarget :=
  | Http
  | Tls
  | Modbus
  | Dnp3
  | Enip
  | Iec104
  | NoTarget.

#[global] Instance DispatchTarget_eq_dec : EqDecision DispatchTarget.
Proof. solve_decision. Defined.

Definition DEFAULT_MAX_CLASSIFICATION_ATTEMPTS : Z := 8.

(** [data.starts_with(prefix)]. *)
Fixpoint starts_with (data prefix : list Z) : bool :=
  match prefix, data with
  | [], _ => true
  | p :: prefix, b :: data => (b =? p) && starts_with data prefix
  | _ :: _, [] => false
  end.

(** The HTTP method tokens of Rule 2, as ASCII bytes. *)
Definition http_tokens : list (list Z) := [
  [71; 69; 84; 32];                    (* GET *)
  [80; 79; 83; 84; 32];                (* POST *)
  [80; 85; 84; 32];                    (* PUT *)
  [68; 69; 76; 69; 84; 69; 32];        (* DELETE *)
  [72; 69; 65; 68; 32];                (* HEAD *)
  [79; 80; 84; 73; 79; 78; 83; 32];    (* OPTIONS *)
  [80; 65; 84; 67; 72; 32];            (* PATCH *)
  [67; 79; 78; 78; 69; 67; 84; 32];    (* CONNECT *)
  [84; 82; 65; 67; 69; 32];            (* TRACE *)
  [72; 84; 84; 80; 47]                 (* HTTP/ *)
].

Definition is_tls_record (data : list Z) : bool :=
  (5 <=? zlen data) && starts_with data [0x16; 0x03].

Definition is_http (data : list Z) : bool := existsb (starts_with data) http_tokens.

(** [ports.contains(&p)]. *)
Definition on_port (k : FlowKey) (p : Z) : bool := (lower_port k =? p) || (upper_port k =? p).

Definition classify (data : list Z) (k : FlowKey) : DispatchTarget :=
  if is_tls_record data then Tls
  else if is_http data then Http
  else if on_port k 443 || on_port k 8443 then Tls
  else if on_port k 80 || on_port k 8080 then Http
  else if on_port k 502 then Modbus
  else if on_port k 20000 then Dnp3
  else if on_port k 44818 then Enip
  else if on_port k 2404 then Iec104
  else NoTarget.

(** [udp_gap_key]. *)
Definition udp_gap_key (parsed : ParsedPacket) (dns_handles : bool) :
    option (TransportProto * Z) :=
  if dns_handles then None else
  match transport parsed with
  | TUdp sp dp => Some (Udp, Z.min sp dp)
  | _ => None
  end.

Section dispatcher.
Context {HTTP TLS MODBUS DNP3 ENIP IEC104 : Type}.
Context `{!StreamHandler HTTP, !StreamHandler TLS, !StreamHandler MODBUS}.
Context `{!FlowAnalyzer DNP3, !FlowAnalyzer ENIP, !FlowAnalyzer IEC104}.

Record StreamDispatcher := mkDispatcher {
  routes : gmap FlowKey DispatchTarget;
  classification_attempts : gmap FlowKey Z;
  max_classification_attempts : Z;
  http : option HTTP;
  tls : option TLS;
  modbus : option MODBUS;
  dnp3 : option DNP3;
  enip : option ENIP;
  iec104 : option IEC104;
  unclassified_flows : Z;
  unclassified_port_counts : gmap (TransportProto * Z) Z;
  coverage_gaps_enabled : bool
}.

#[global] Instance StreamDispatcher_eta : Eta StreamDispatcher := λ d,
  mkDispatcher (routes d) (classification_attempts d) (max_classification_attempts d)
    (http d) (tls d) (modbus d) (dnp3 d) (enip d) (iec104 d) (unclassified_flows d)
    (unclassified_port_counts d) (coverage_gaps_enabled d).

Definition StreamDispatcher_new (http : option HTTP) (tls : option TLS)
    (modbus : option MODBUS) (dnp3 : option DNP3) (enip : option ENIP)
    (iec104 : option IEC104) : StreamDispatcher := {|
  routes := ∅;
  classification_attempts := ∅;
  max_classification_attempts := DEFAULT_MAX_CLASSIFICATION_ATTEMPTS;
  http := http; tls := tls; modbus := modbus; dnp3 := dnp3; enip := enip; iec104 := iec104;
  unclassified_flows := 0;
  unclassified_port_counts := ∅;
  coverage_gaps_enabled := false
|}.

Definition with_max_classification_attempts (d : StreamDispatcher) (n : Z) :
    StreamDispatcher := d <| max_classification_attempts := n |>.

Definition with_coverage_gaps (d : StreamDispatcher) (enabled : bool) : StreamDispatcher :=
  d <| coverage_gaps_enabled := enabled |>.

(** Some analyzer is configured. *)
Definition any_analyzer (d : StreamDispatcher) : bool :=
  bool_decide (is_Some (http d)) || bool_decide (is_Some (tls d)) ||
  bool_decide (is_Some (modbus d)) || bool_decide (is_Some (dnp3 d)) ||
  bool_decide (is_Some (enip d)) || bool_decide (is_Some (iec104 d)).

(** The cached target, or a classification with its bookkeeping. *)
Definition route (d : StreamDispatcher) (k : FlowKey) (data : list Z) :
    StreamDispatcher * DispatchTarget :=
  match routes d !! k with
  | Some cached => (d, cached)
  | None =>
      let target := classify data k in
      if decide (target = NoTarget) then
        let count := sat_add u32_max (default 0 (classification_attempts d !! k)) 1 in
        if max_classification_attempts d <=? count then
          (d <| routes := <[k := NoTarget]> (routes d) |>
             <| classification_attempts := delete k (classification_attempts d) |>, target)
        else
          (d <| classification_attempts := <[k := count]> (classification_attempts d) |>, target)
      else
        (d <| routes := <[k := target]> (routes d) |>
           <| classification_attempts := delete k (classification_attempts d) |>, target)
  end.

(** The [match target] of [on_data]. *)
Definition forward_data (d : StreamDispatcher) (target : DispatchTarget) (k : FlowKey)
    (dir : Direction) (data : list Z) (offset ts : Z) : StreamDispatcher :=
  match target with
  | Http => d <| http := (λ a, on_data a k dir data offset ts) <$> http d |>
  | Tls => d <| tls := (λ a, on_data a k dir data offset ts) <$> tls d |>
  | Modbus => d <| modbus := (λ a, on_data a k dir data offset ts) <$> modbus d |>
  | Dnp3 => d <| dnp3 := (λ a, flow_on_data a k data ts dir) <$> dnp3 d |>
  | Enip => d <| enip := (λ a, flow_on_data a k data ts dir) <$> enip d |>
  | Iec104 => d <| iec104 := (λ a, flow_on_data a k data ts dir) <$> iec104 d |>
  | NoTarget => d
  end.

Definition dispatcher_on_data (d : StreamDispatcher) (k : FlowKey) (dir : Direction)
    (data : list Z) (offset ts : Z) : StreamDispatcher :=
  if negb (any_analyzer d) then d else
  let '(d, target) := route d k data in
  forward_data d target k dir data offset ts.

(** The counters of a flow that closes without a target. *)
Definition count_unclassified (d : StreamDispatcher) (k : FlowKey) : StreamDispatcher :=
  if any_analyzer d then
    let d := d <| unclassified_flows := sat_add u64_max (unclassified_flows d) 1 |> in
    if coverage_gaps_enabled d then
      let port := (Tcp, Z.min (lower_port k) (upper_port k)) in
      let c := sat_add u64_max (default 0 (unclassified_port_counts d !! port)) 1 in
      d <| unclassified_port_counts := <[port := c]> (unclassified_port_counts d) |>
    else d
  else d.

Definition dispatcher_on_flow_close (d : StreamDispatcher) (k : FlowKey)
    (reason : CloseReason) : StreamDispatcher :=
  let d := d <| classification_attempts := delete k (classification_attempts d) |> in
  let target := routes d !! k in
  let d := d <| routes := delete k (routes d) |> in
  match target with
  | Some Http => d <| http := (λ a, on_flow_close a k reason) <$> http d |>
  | Some Tls => d <| tls := (λ a, on_flow_close a k reason) <$> tls d |>
  | Some Modbus => d <| modbus := (λ a, on_flow_close a k reason) <$> modbus d |>
  | Some Dnp3 => d <| dnp3 := (λ a, flow_on_close a k) <$> dnp3 d |>
  | Some Enip => d <| enip := (λ a, flow_on_close a k) <$> enip d |>
  | Some Iec104 => d <| iec104 := (λ a, flow_on_close a k) <$> iec104 d |>
  | Some NoTarget | None => count_unclassified d k
  end.

#[global] Instance dispatcher_handler : StreamHandler StreamDispatcher := {
  on_data := dispatcher_on_data;
  on_flow_close := dispatcher_on_flow_close
}.
End dispatcher.

Arguments StreamDispatcher : clear implicits.

(** ** What the dispatcher promises

    Abstractly, each flow is either still being tried or committed to a
    target, and the dispatcher splits the event sequence among the targets. *)

Inductive fate :=
  | Trying (attempts : Z)
  | Committed (target : DispatchTarget).

(** The fate of a flow after a chunk, and where the chunk goes. *)
Definition note_chunk (max : Z) (s : fate) (k : FlowKey) (data : list Z) :
    fate * DispatchTarget :=
  match s with
  | Committed t => (Committed t, t)
  | Trying n =>
      let t := classify data k in
      (if decide (t = NoTarget) then
         if max <=? n + 1 then Committed NoTarget else Trying (n + 1)
       else Committed t, t)
  end.

Definition fates := FlowKey → fate.

Definition set_fate (s : fates) (k : FlowKey) (x : fate) : fates :=
  λ k', if decide (k' = k) then x else s k'.

(** Where an event goes, and the fates after it. *)
Definition assign (max : Z) (s : fates) (e : event) : fates * DispatchTarget :=
  match e with
  | EData k _ data _ _ => let '(x, t) := note_chunk max (s k) k data in (set_fate s k x, t)
  | EClose k _ =>
      (set_fate s k (Trying 0), match s k with Committed t => t | Trying _ => NoTarget end)
  end.

Fixpoint assignments (max : Z) (s : fates) (es : trace) : list (DispatchTarget * event) :=
  match es with
  | [] => []
  | e :: es => let '(s, t) := assign max s e in (t, e) :: assignments max s es
  end.

(** The events sent to [t]. *)
Definition seen_by (t : DispatchTarget) (l : list (DispatchTarget * event)) : trace :=
  (filter (λ te, te.1 = t) l).*2.

Definition no_fates : fates := λ _, Trying 0.

Definition is_close (e : event) : bool := match e with EClose _ _ => true | _ => false end.

(** Flows that closed without a target. *)
Definition unclaimed (l : list (DispatchTarget * event)) : list event :=
  filter (λ e, is_close e = true) (seen_by NoTarget l).

Lemma unclaimed_cons te l :
  zlen (unclaimed (te :: l)) =
  (if decide (te.1 = NoTarget ∧ is_close te.2 = true) then 1 else 0) + zlen (unclaimed l).
Proof.
  destruct te as [[] []]; unfold unclaimed, seen_by; simpl; try reflexivity. apply zlen_cons.
Qed.

Lemma assignments_events max s es : (assignments max s es).*2 = es.
Proof.
  revert s. induction es as [|e es IH]; intros s; simpl; [done|].
  destruct (assign max s e) as [s' t]. simpl. by rewrite IH.
Qed.

Section refinement.
Context {HTTP TLS MODBUS DNP3 ENIP IEC104 : Type}.
Context `{!StreamHandler HTTP, !StreamHandler TLS, !StreamHandler MODBUS}.
Context `{!FlowAnalyzer DNP3, !FlowAnalyzer ENIP, !FlowAnalyzer IEC104}.

Abbreviation dispatcher := (StreamDispatcher HTTP TLS MODBUS DNP3 ENIP IEC104).

(** A [FlowAnalyzer] reads the same events without offset and reason. *)
#[local] Instance flow_handler {A} `{FlowAnalyzer A} : StreamHandler A := {
  on_data a k dir data offset ts := flow_on_data a k data ts dir;
  on_flow_close a k reason := flow_on_close a k
}.

(** The analyzers of [d'] are those of [d] after the events [l] assigns them. *)
Record fed (d : dispatcher) (l : list (DispatchTarget * event)) (d' : dispatcher) : Prop := {
  fed_http : http d' = (λ a, replay a (seen_by Http l)) <$> http d;
  fed_tls : tls d' = (λ a, replay a (seen_by Tls l)) <$> tls d;
  fed_modbus : modbus d' = (λ a, replay a (seen_by Modbus l)) <$> modbus d;
  fed_dnp3 : dnp3 d' = (λ a, replay a (seen_by Dnp3 l)) <$> dnp3 d;
  fed_enip : enip d' = (λ a, replay a (seen_by Enip l)) <$> enip d;
  fed_iec104 : iec104 d' = (λ a, replay a (seen_by Iec104 l)) <$> iec104 d
}.

(** The tables of [d] are those of the fates [s]. *)
Definition tracks (s : fates) (d : dispatcher) : Prop := ∀ k,
  match s k with
  | Trying n => routes d !! k = None ∧ default 0 (classification_attempts d !! k) = n ∧
      (n = 0 ∨ 0 < n < max_classification_attempts d)
  | Committed t => routes d !! k = Some t ∧ classification_attempts d !! k = None
  end.

Lemma tracks_update s d d' k x :
  tracks s d → max_classification_attempts d' = max_classification_attempts d →
  (∀ k', k' ≠ k → routes d' !! k' = routes d !! k' ∧
     classification_attempts d' !! k' = classification_attempts d !! k') →
  match x with
  | Trying n => routes d' !! k = None ∧ default 0 (classification_attempts d' !! k) = n ∧
      (n = 0 ∨ 0 < n < max_classification_attempts d)
  | Committed t => routes d' !! k = Some t ∧ classification_attempts d' !! k = None
  end → tracks (set_fate s k x) d'.
Proof.
  intros Ht Hm Ho Hx k'. rewrite Hm. unfold set_fate. case_decide as E; [by subst|].
  destruct (Ho k' E) as [-> ->]. apply Ht.
Qed.

(** Routing one chunk. *)
Lemma route_refines s d k data x t :
  tracks s d → max_classification_attempts d ≤ u32_max →
  note_chunk (max_classification_attempts d) (s k) k data = (x, t) →
  ∃ rs att, route d k data =
      (d <| routes := rs |> <| classification_attempts := att |>, t) ∧
    tracks (set_fate s k x) (d <| routes := rs |> <| classification_attempts := att |>).
Proof.
  intros Ht Hmax Hn. pose proof (Ht k) as Hk. unfold route.
  assert (∀ rs att, (∀ k', k' ≠ k → rs !! k' = routes d !! k' ∧
    att !! k' = classification_attempts d !! k') →
    match x with
    | Trying n => rs !! k = None ∧ default 0 (att !! k) = n ∧
        (n = 0 ∨ 0 < n < max_classification_attempts d)
    | Committed t => rs !! k = Some t ∧ att !! k = None
    end → tracks (set_fate s k x) (d <| routes := rs |> <| classification_attempts := att |>))
    as Hup by (intros; by apply (tracks_update s d)).
  unfold note_chunk in Hn. destruct (s k) as [n|t'].
  - destruct Hk as (Hr & Hatt & Hrange). rewrite Hr. case_decide as Et.
    + rewrite Et in *. rewrite Hatt. unfold sat_add. destruct (Z.leb_spec (max_classification_attempts d) (n + 1)).
      * rewrite (proj2 (Z.leb_le _ _)) by ulia. simplify_eq. eexists _, _.
        split; [reflexivity|]. apply Hup; [|by rewrite lookup_insert_eq, lookup_delete_eq].
        intros k' ?. by rewrite lookup_insert_ne, lookup_delete_ne.
      * rewrite Z.min_r by lia. rewrite (proj2 (Z.leb_gt _ _)) by lia. simplify_eq.
        eexists (routes d), _. split; [by destruct d|].
        apply Hup; [|rewrite lookup_insert_eq; split_and!; [done|done|lia]].
        intros k' ?. by rewrite lookup_insert_ne.
    + simplify_eq. eexists _, _. split; [reflexivity|].
      apply Hup; [|by rewrite lookup_insert_eq, lookup_delete_eq].
      intros k' ?. by rewrite lookup_insert_ne, lookup_delete_ne.
  - destruct Hk as [Hr Hatt]. rewrite Hr. simplify_eq.
    exists (routes d), (classification_attempts d). split; [by destruct d|]. by apply Hup.
Qed.

Lemma fed_nil d : fed d [] d.
Proof. split; unfold seen_by, replay; simpl; by rewrite option_fmap_id. Qed.

Lemma seen_by_app t l1 l2 : seen_by t (l1 ++ l2) = seen_by t l1 ++ seen_by t l2.
Proof. unfold seen_by. by rewrite filter_app, fmap_app. Qed.

Lemma fed_trans d1 d2 d3 l1 l2 : fed d1 l1 d2 → fed d2 l2 d3 → fed d1 (l1 ++ l2) d3.
Proof.
  intros [A1 A2 A3 A4 A5 A6] [B1 B2 B3 B4 B5 B6]. split; rewrite seen_by_app.
  1: rewrite B1, A1. 2: rewrite B2, A2. 3: rewrite B3, A3.
  4: rewrite B4, A4. 5: rewrite B5, A5. 6: rewrite B6, A6.
  all: rewrite <- option_fmap_compose; apply option_fmap_ext; intros a; simpl;
    by rewrite replay_app.
Qed.

Lemma any_analyzer_fed d l d' : fed d l d' → any_analyzer d' = any_analyzer d.
Proof.
  intros [E1 E2 E3 E4 E5 E6]. unfold any_analyzer. rewrite E1, E2, E3, E4, E5, E6.
  by destruct (http d), (tls d), (modbus d), (dnp3 d), (enip d), (iec104 d).
Qed.

(** Nothing but the analyzers and the tables depends on the events. *)
Definition same_setup (d d' : dispatcher) : Prop :=
  max_classification_attempts d' = max_classification_attempts d ∧
  coverage_gaps_enabled d' = coverage_gaps_enabled d.

(** Closes without a target move the counters, other events do not. *)
Definition counted (d : dispatcher) (te : DispatchTarget * event) (d' : dispatcher) : Prop :=
  if decide (te.1 = NoTarget ∧ is_close te.2 = true)
  then unclassified_flows d' = sat_add u64_max (unclassified_flows d) 1
  else unclassified_flows d' = unclassified_flows d.

Lemma forward_data_ok d rs att t k dir data off ts :
  let d1 := d <| routes := rs |> <| classification_attempts := att |> in
  let d' := forward_data d1 t k dir data off ts in
  fed d [(t, EData k dir data off ts)] d' ∧ routes d' = rs ∧
  classification_attempts d' = att ∧ same_setup d d' ∧
  counted d (t, EData k dir data off ts) d'.
Proof.
  destruct t; simpl; (split_and!; [|done..|]; [split; unfold seen_by; simpl|]);
    try (by destruct d; simpl; rewrite ?option_fmap_id; try reflexivity);
    try (by rewrite option_fmap_id); unfold counted; simpl; by rewrite decide_False by (intros []).
Qed.

Lemma count_unclassified_ok d rs att k reason :
  let d1 := d <| classification_attempts := att |> <| routes := rs |> in
  let d' := count_unclassified d1 k in
  any_analyzer d = true →
  fed d [(NoTarget, EClose k reason)] d' ∧ routes d' = rs ∧
  classification_attempts d' = att ∧ same_setup d d' ∧
  counted d (NoTarget, EClose k reason) d'.
Proof.
  intros d1 d' Ha. unfold d', count_unclassified.
  assert (any_analyzer d1 = true) as -> by done. simpl.
  destruct (coverage_gaps_enabled d) eqn:Ec;
    (split_and!; [split; simpl; by rewrite option_fmap_id|done|done|by split|]);
    reflexivity.
Qed.

Lemma on_flow_close_ok d k reason :
  let t := default NoTarget (routes d !! k) in
  let d' := dispatcher_on_flow_close d k reason in
  any_analyzer d = true →
  fed d [(t, EClose k reason)] d' ∧ routes d' = delete k (routes d) ∧
  classification_attempts d' = delete k (classification_attempts d) ∧ same_setup d d' ∧
  counted d (t, EClose k reason) d'.
Proof.
  intros t d' Ha. unfold t, d', dispatcher_on_flow_close. cbn zeta.
  change (routes (d <| classification_attempts := delete k (classification_attempts d) |>))
    with (routes d).
  destruct (routes d !! k) as [[]|];
    try exact (count_unclassified_ok d (delete k (routes d))
                 (delete k (classification_attempts d)) k reason Ha); simpl;
    (split_and!; [split; unfold seen_by; simpl; by rewrite ?option_fmap_id|done|done|done|]);
    reflexivity.
Qed.

Lemma tracks_ext s d d' :
  tracks s d → routes d' = routes d → classification_attempts d' = classification_attempts d →
  max_classification_attempts d' = max_classification_attempts d → tracks s d'.
Proof. intros Ht E1 E2 E3 k. rewrite E1, E2, E3. apply Ht. Qed.

Lemma replay1_refines s d e s' t :
  tracks s d → any_analyzer d = true → max_classification_attempts d ≤ u32_max →
  assign (max_classification_attempts d) s e = (s', t) →
  fed d [(t, e)] (replay1 d e) ∧ tracks s' (replay1 d e) ∧ same_setup d (replay1 d e) ∧
  counted d (t, e) (replay1 d e).
Proof.
  intros Ht Ha Hm He. destruct e as [k dir data off ts|k reason]; simpl in *.
  - unfold dispatcher_on_data. rewrite Ha. simpl.
    destruct (note_chunk _ _ _ _) as [x t'] eqn:En. injection He as <- <-.
    destruct (route_refines _ _ _ _ _ _ Ht Hm En) as (rs & att & -> & Ht').
    destruct (forward_data_ok d rs att t' k dir data off ts) as (F & R & A & S & C).
    split_and!; [done| |done..]. eapply tracks_ext; [exact Ht'|done|done|apply S].
  - injection He as <- <-. destruct (on_flow_close_ok d k reason Ha) as (F & R & A & S & C).
    pose proof (Ht k) as Hk.
    assert (default NoTarget (routes d !! k) =
      match s k with Committed t => t | Trying _ => NoTarget end) as Et.
    { destruct (s k); destruct Hk as [-> _]; done. }
    rewrite Et in *. split_and!; [done| |done..].
    apply (tracks_update s d); [done|apply S|..]; rewrite R, A.
    + intros k' ?. by rewrite !lookup_delete_ne.
    + rewrite !lookup_delete_eq. split_and!; [done..|by left].
Qed.

Lemma replay_refines es s d :
  tracks s d → any_analyzer d = true → max_classification_attempts d ≤ u32_max →
  unclassified_flows d ≤ u64_max →
  let l := assignments (max_classification_attempts d) s es in
  fed d l (replay d es) ∧ same_setup d (replay d es) ∧
  unclassified_flows (replay d es) =
    Z.min u64_max (unclassified_flows d + zlen (unclaimed l)).
Proof.
  revert s d. induction es as [|e es IH]; intros s d Ht Ha Hm Hu; simpl.
  { split_and!; [apply fed_nil|done|].
    change (unclaimed []) with (@nil event). unfold replay. simpl. rewrite zlen_nil. lia. }
  destruct (assign _ s e) as [s' t] eqn:He.
  destruct (replay1_refines _ _ _ _ _ Ht Ha Hm He) as (F & T & [Sm Sc] & C).
  destruct (IH s' (replay1 d e)) as (F' & [Sm' Sc'] & C');
    [done|by rewrite (any_analyzer_fed _ _ _ F)|lia| |].
  { unfold counted in C. case_decide; unfold sat_add in C; lia. }
  rewrite Sm in *. split_and!.
  - exact (fed_trans _ _ _ _ _ F F').
  - split; [exact Sm'|]. rewrite <- Sc. exact Sc'.
  - change (replay d (e :: es)) with (replay (replay1 d e) es). rewrite C'.
    rewrite unclaimed_cons. unfold counted in C.
    pose proof (zlen_nonneg (unclaimed (assignments (max_classification_attempts d) s' es))).
    case_decide; unfold sat_add in C; lia.
Qed.

Lemma tracks_new h t m d e i n :
  tracks no_fates (with_max_classification_attempts
    (StreamDispatcher_new (HTTP := HTTP) (TLS := TLS) (MODBUS := MODBUS) (DNP3 := DNP3)
      (ENIP := ENIP) (IEC104 := IEC104) h t m d e i) n).
Proof. intros k. simpl. rewrite !lookup_empty. split_and!; [done..|by left]. Qed.
End refinement.

(** ** One flow, one analyzer *)

Definition event_key (e : event) : FlowKey :=
  match e with EData k _ _ _ _ | EClose k _ => k end.

(** Once committed, a flow's events keep their target until it closes. *)
Lemma committed_until_close max es s k t i t' e :
  s k = Committed t → assignments max s es !! i = Some (t', e) → event_key e = k →
  (∀ j k' reason, (j < i)%nat → es !! j = Some (EClose k' reason) → k' ≠ k) → t' = t.
Proof.
  revert s i. induction es as [|e0 es IH]; intros s i Hs Hi Hk Hopen; [done|].
  simpl in Hi. destruct (assign max s e0) as [s' t0] eqn:Ha. destruct i as [|i]; simpl in Hi.
  - simplify_eq. destruct e as [k dir data off ts|k reason]; simpl in *; rewrite Hs in Ha;
      simpl in Ha; by simplify_eq.
  - eapply (IH s' i); [|done|done|]; [|intros j k' reason ??; by apply (Hopen (S j) k' reason); [lia|]].
    destruct e0 as [k0 dir data off ts|k0 reason]; simpl in Ha.
    + destruct (note_chunk max (s k0) k0 data) as [x tx] eqn:En. simplify_eq.
      unfold set_fate. case_decide as E; [|done]. rewrite <- E, Hs in En. simpl in En. by simplify_eq.
    + simplify_eq. unfold set_fate. rewrite decide_False; [done|].
      intros E. by apply (Hopen 0%nat k0 reason); [lia|done|].
Qed.

Lemma assigned_commits max s e s' t :
  assign max s e = (s', t) → t ≠ NoTarget → is_close e = false → s' (event_key e) = Committed t.
Proof.
  destruct e as [k dir data off ts|]; [|done]. simpl. unfold note_chunk, set_fate.
  intros Ha Ht _. destruct (s k); simplify_eq; rewrite decide_True by done; [|done].
  by rewrite decide_False.
Qed.

(** ** Theorems *)

(** C7. Dispatch refines its abstract specification.  Fed any sequence of
    engine events, the dispatcher hands each of its six analyzers exactly the
    events that [assignments] gives to that analyzer, in order and unchanged,
    whatever the analyzers do with them; a flow is committed by the first
    chunk that classifies, or to no analyzer once the retry budget is used up;
    and [unclassified_flows] counts the flows that closed without a target
    (saturating). *)
Theorem dispatcher_refines_assignments
    {HTTP TLS MODBUS DNP3 ENIP IEC104 : Type}
    `{!StreamHandler HTTP, !StreamHandler TLS, !StreamHandler MODBUS}
    `{!FlowAnalyzer DNP3, !FlowAnalyzer ENIP, !FlowAnalyzer IEC104}
    (h : option HTTP) (t : option TLS) (m : option MODBUS) (d3 : option DNP3)
    (en : option ENIP) (i : option IEC104) max es :
  let d := with_max_classification_attempts (StreamDispatcher_new h t m d3 en i) max in
  let l := assignments max no_fates es in
  any_analyzer d = true → max ≤ u32_max →
  fed d l (replay d es) ∧
  unclassified_flows (replay d es) = Z.min u64_max (zlen (unclaimed l)).
Proof.
  intros d l Ha Hm. destruct (replay_refines es no_fates d) as (F & _ & C);
    [apply tracks_new|done|done|by vm_compute|]. split; [exact F|exact C].
Qed.

#[local] Instance trace_analyzer : FlowAnalyzer trace := {
  flow_on_data a k data ts dir := a ++ [EData k dir data 0 ts];
  flow_on_close a k := a ++ [EClose k Fin]
}.

(** An HTTP flow on an odd port, a Modbus flow and one nobody claims. *)
Definition sample_events : trace :=
  let k1 := FlowKey_new (V4 1) 5000 (V4 2) 9999 in
  let k2 := FlowKey_new (V4 1) 5001 (V4 2) 502 in
  let k3 := FlowKey_new (V4 1) 5002 (V4 2) 9998 in
  [EData k1 ClientToServer [71; 69; 84; 32; 47] 1 10;
   EData k2 ClientToServer [0; 1] 1 11;
   EData k3 ClientToServer [1; 2] 1 12;
   EData k1 ServerToClient [0] 1 13;
   EClose k3 Fin; EClose k1 Rst].

Lemma dispatcher_refines_assignments_witness :
  let d := with_max_classification_attempts
    (StreamDispatcher_new (Some ([] : trace)) (None : option trace) (Some ([] : trace))
      (None : option trace) (None : option trace) (None : option trace)) 8 in
  let k1 := FlowKey_new (V4 1) 5000 (V4 2) 9999 in
  http (replay d sample_events) = Some [EData k1 ClientToServer [71; 69; 84; 32; 47] 1 10;
    EData k1 ServerToClient [0] 1 13; EClose k1 Rst] ∧
  unclassified_flows (replay d sample_events) = 1.
Proof.
  destruct (dispatcher_refines_assignments (Some ([] : trace)) (None : option trace)
    (Some ([] : trace)) (None : option trace) (None : option trace) (None : option trace) 8
    sample_events) as [F C].
  - reflexivity.
  - vm_compute. discriminate.
  - split.
    + etransitivity; [exact (fed_http _ _ _ F)|]. vm_compute. reflexivity.
    + etransitivity; [exact C|]. vm_compute. reflexivity.
Defined.

(** One analyzer per flow.  As soon as an event of a flow has gone to an
    analyzer, every later event of that flow, the closing one included, goes to
    the same analyzer until the flow closes, whatever its bytes look like. *)
Theorem one_analyzer_per_flow max es s i j t t' e e' :
  let l := assignments max s es in
  l !! i = Some (t, e) → l !! j = Some (t', e') → (i < j)%nat →
  t ≠ NoTarget → event_key e' = event_key e →
  (∀ n k reason, (i ≤ n < j)%nat → es !! n = Some (EClose k reason) → k ≠ event_key e) →
  t' = t.
Proof.
  intros l. unfold l. clear l. revert s i j.
  induction es as [|e0 es IH]; intros s i j Hi Hj Hlt Ht Hk Hopen; [done|].
  simpl in Hi, Hj. destruct (assign max s e0) as [s' t0] eqn:Ha.
  destruct j as [|j]; [lia|]. destruct i as [|i]; simpl in Hi, Hj.
  - simplify_eq. eapply (committed_until_close max es s' (event_key e)); [|done|done|].
    + eapply assigned_commits; [done|done|]. destruct e as [|k reason]; [done|exfalso].
      by apply (Hopen 0%nat k reason); [lia|done|].
    + intros n k reason ? Hn. by apply (Hopen (S n) k reason); [lia|].
  - eapply (IH s' i j); try done; [lia|]. intros n k reason ? Hn.
    by apply (Hopen (S n) k reason); [lia|].
Qed.

(** The second chunk of the HTTP flow looks like nothing. *)
Lemma one_analyzer_per_flow_witness :
  (assignments 8 no_fates sample_events !! 3%nat) =
    Some (Http, EData (FlowKey_new (V4 1) 5000 (V4 2) 9999) ServerToClient [0] 1 13).
Proof.
  destruct (assignments 8 no_fates sample_events !! 3%nat) as [[t' e']|] eqn:E; [|done].
  assert (t' = Http) as ->.
  { eapply (one_analyzer_per_flow 8 sample_events no_fates 0 3 Http t'
      (EData (FlowKey_new (V4 1) 5000 (V4 2) 9999) ClientToServer [71; 69; 84; 32; 47] 1 10)).
    - reflexivity.
    - exact E.
    - lia.
    - discriminate.
    - vm_compute in E. injection E as _ <-. reflexivity.
    - intros [|[|[|?]]] k reason ? Hn; [discriminate Hn..|lia]. }
  vm_compute in E |- *. injection E as <-. reflexivity.
Defined.

(** A retry cap of zero does not disable classification: a first chunk
    that classifies is still routed and cached, for every cap.  Only a chunk
    that does not classify is affected: it commits its flow to no analyzer at
    once. *)
Theorem zero_cap_still_classifies {HTTP TLS MODBUS DNP3 ENIP IEC104 : Type}
    (d : StreamDispatcher HTTP TLS MODBUS DNP3 ENIP IEC104) k data :
  routes d !! k = None → classification_attempts d !! k = None →
  let '(d', t) := route (with_max_classification_attempts d 0) k data in
  t = classify data k ∧ routes d' !! k = Some (classify data k).
Proof.
  intros Hr Ha. unfold route, with_max_classification_attempts. simpl. rewrite Hr, Ha.
  case_decide as E; simpl; [rewrite E|]; by rewrite lookup_insert_eq.
Qed.

Lemma zero_cap_still_classifies_witness :
  let d := StreamDispatcher_new (Some ([] : trace)) (None : option trace) (None : option trace)
    (None : option trace) (None : option trace) (None : option trace) in
  let k := FlowKey_new (V4 1) 5000 (V4 2) 9999 in
  routes (route (with_max_classification_attempts d 0) k [71; 69; 84; 32; 47]).1 !! k = Some Http.
Proof.
  refine (proj2 (zero_cap_still_classifies
    (StreamDispatcher_new (Some ([] : trace)) (None : option trace) (None : option trace)
      (None : option trace) (None : option trace) (None : option trace))
    (FlowKey_new (V4 1) 5000 (V4 2) 9999) [71; 69; 84; 32; 47] _ _)); reflexivity.
Defined.
