(* ===== verification/Modbus.v ===== *)
(** * The Modbus TCP analyzer (src/analyzer/modbus.rs)

    Framing of the byte stream into ADUs with a carry buffer per direction,
    the bounded table of outstanding requests, and the detectors.  The
    translation comes first; the theorems are in [ModbusProps]. *)

From S2P Require Import Prelude FlowKey Handler Findings.

#[local] Open Scope Z_scope.

Record MbapHeader := mkMbap {
  transaction_id : Z;
  protocol_id : Z;
  length_field : Z;
  unit_id : Z;
  function_code : Z
}.

Inductive FunctionCodeClass := FcRead | FcWrite | FcDiagnostic | FcException | FcUnknown.

#[global] Instance FunctionCodeClass_eq_dec : EqDecision FunctionCodeClass.
Proof. solve_decision. Defined.

Definition MAX_PENDING_TRANSACTIONS : Z := 256.
Definition MODBUS_MAX_FINDINGS : Z := 10000.
Definition MAX_ADU_CARRY_BYTES : Z := 260.
Definition T0831_WINDOW_SECS : Z := 5.
Definition WRITE_BURST_WINDOW_SECS : Z := 1.
Definition WRITE_SUSTAINED_WINDOW_SECS : Z := 2.
Definition EXCEPTION_RATE_THRESHOLD : Z := 5.
Definition EXCEPTION_WINDOW_SECS : Z := 10.

Record ModbusFlowState := mkModbusFlow {
  pending : gmap (Z * Z) (Z * Z);
  write_count : Z;
  exception_count : Z;
  pdu_count : Z;
  last_ts : Z;
  window_write_count : Z;
  window_start_ts : Z;
  window_burst_emitted : bool;
  sustained_window_start_ts : Z;
  sustained_window_write_count : Z;
  sustained_burst_emitted : bool;
  t0831_window_start_ts : Z;
  t0831_window_write_count : Z;
  t0831_burst_emitted : bool;
  exception_window_counts : gmap Z Z;
  exception_window_start_ts : gmap Z Z;
  exception_burst_emitted : gmap Z bool;
  is_non_modbus : bool;
  carry_c2s : list Z;
  carry_s2c : list Z
}.

#[global] Instance ModbusFlowState_eta : Eta ModbusFlowState := λ f,
  mkModbusFlow (pending f) (write_count f) (exception_count f) (pdu_count f) (last_ts f)
    (window_write_count f) (window_start_ts f) (window_burst_emitted f)
    (sustained_window_start_ts f) (sustained_window_write_count f) (sustained_burst_emitted f)
    (t0831_window_start_ts f) (t0831_window_write_count f) (t0831_burst_emitted f)
    (exception_window_counts f) (exception_window_start_ts f) (exception_burst_emitted f)
    (is_non_modbus f) (carry_c2s f) (carry_s2c f).

(** [ModbusFlowState::default()]. *)
Definition ModbusFlowState_default : ModbusFlowState :=
  mkModbusFlow ∅ 0 0 0 0 0 0 false 0 0 false 0 0 false ∅ ∅ ∅ false [] [].

Record ModbusAnalyzer := mkModbusAnalyzer {
  write_burst_threshold : Z;
  write_sustained_threshold : Z;
  duplicate_inflight_txn : Z;
  total_pdu_count : Z;
  total_write_count : Z;
  total_exception_count : Z;
  parse_errors : Z;
  fn_code_counts : gmap Z Z;
  all_findings : list Finding;
  dropped_findings : Z;
  dropped_transactions : Z;
  total_flows_analyzed : Z;
  flows : gmap FlowKey ModbusFlowState
}.

#[global] Instance ModbusAnalyzer_eta : Eta ModbusAnalyzer := λ a,
  mkModbusAnalyzer (write_burst_threshold a) (write_sustained_threshold a)
    (duplicate_inflight_txn a) (total_pdu_count a) (total_write_count a)
    (total_exception_count a) (parse_errors a) (fn_code_counts a) (all_findings a)
    (dropped_findings a) (dropped_transactions a) (total_flows_analyzed a) (flows a).

Definition ModbusAnalyzer_new (burst sustained : Z) : ModbusAnalyzer :=
  mkModbusAnalyzer burst sustained 0 0 0 0 0 ∅ [] 0 0 0 ∅.

(** ** Headers and function codes *)

Definition parse_mbap_header (data : list Z) : option MbapHeader :=
  match data with
  | b0 :: b1 :: b2 :: b3 :: b4 :: b5 :: b6 :: b7 :: _ =>
      Some (mkMbap (u16_be b0 b1) (u16_be b2 b3) (u16_be b4 b5) b6 b7)
  | _ => None
  end.

Definition is_valid_modbus_adu (h : MbapHeader) : bool :=
  (protocol_id h =? 0) && (2 <=? length_field h) && (length_field h <=? 254).

Definition classify_fc (fc : Z) : FunctionCodeClass :=
  if 0x80 <=? fc then FcException
  else if bool_decide (fc ∈ [0x05; 0x06; 0x0F; 0x10; 0x15; 0x16; 0x17]) then FcWrite
  else if bool_decide (fc ∈ [0x08; 0x2B]) then FcDiagnostic
  else if bool_decide (fc ∈ [0x01; 0x02; 0x03; 0x04; 0x07; 0x0B; 0x0C; 0x11; 0x14; 0x18])
  then FcRead
  else FcUnknown.

(** ** The pending-request table *)

(** The result is the value overwritten. *)
Definition insert_request (f : ModbusFlowState) (txn unit fc ts : Z) :
    ModbusFlowState * option (Z * Z) :=
  let key := (txn, unit) in
  if decide (is_Some (pending f !! key)) then
    (f <| pending := <[key := (fc, ts)]> (pending f) |>, pending f !! key)
  else if MAX_PENDING_TRANSACTIONS <=? Z.of_nat (size (pending f)) then (f, None)
  else (f <| pending := <[key := (fc, ts)]> (pending f) |>, pending f !! key).

Definition match_response (f : ModbusFlowState) (txn unit : Z) :
    ModbusFlowState * option (Z * Z) :=
  (f <| pending := delete (txn, unit) (pending f) |>, pending f !! (txn, unit)).

Definition attribute_exception (f : ModbusFlowState) (txn unit exception_fc : Z) :
    ModbusFlowState * option Z :=
  let original_fc := Z.land exception_fc 0x7F in
  match pending f !! (txn, unit) with
  | Some (stored_fc, _) =>
      if stored_fc =? original_fc
      then (f <| pending := delete (txn, unit) (pending f) |>, Some original_fc)
      else (f, None)
  | None => (f, None)
  end.

(** ** Detectors *)

(** What every detector reads: the flow's endpoints as [process_pdu] resolves
    them, and the PDU at hand. *)
Record pdu_context := mkPduContext {
  client_ip : IpAddr;
  server_ip : IpAddr;
  dir : Direction;
  header : MbapHeader;
  fc : Z;
  data : list Z;
  now : Z
}.

(** [(client_ip, server_ip)] from the port-502 heuristic. *)
Definition endpoints (k : FlowKey) : IpAddr * IpAddr :=
  if lower_port k =? 502 then (upper_ip k, lower_ip k) else (lower_ip k, upper_ip k).

Definition sender_ip (c : pdu_context) : IpAddr :=
  match dir c with ClientToServer => client_ip c | ServerToClient => server_ip c end.

Definition txn_unit_text (c : pdu_context) : text :=
  [Lit " TxnID="; Hex 4 (transaction_id (header c)); Lit " UnitID="; Num (unit_id (header c))].

(** The direction-independent recon and unknown-code findings. *)
Definition recon_findings (c : pdu_context) : list Finding :=
  if fc c =? 0x11 then
    [{| category := Anomaly; verdict := Inconclusive; confidence := Medium;
        summary := [Lit "Modbus recon: Report Server ID (FC 0x11) from unit ";
                    Num (unit_id (header c))];
        evidence := [Lit "FC=0x11" :: txn_unit_text c];
        mitre_techniques := ["T0888"%string];
        source_ip := Some (sender_ip c); timestamp := Some (now c);
        direction := Some (dir c) |}]
  else if fc c =? 0x2B then
    match data c !! 8%nat with
    | Some mei_type =>
        if mei_type =? 0x0E then
          [{| category := Anomaly; verdict := Inconclusive; confidence := Medium;
              summary := [Lit "Modbus recon: Read Device Identification (MEI 0x2B/0x0E) on unit ";
                          Num (unit_id (header c))];
              evidence := [Lit "FC=0x2B MEI type=0x0E" :: txn_unit_text c];
              mitre_techniques := ["T0888"%string];
              source_ip := Some (sender_ip c); timestamp := Some (now c);
              direction := Some (dir c) |}]
        else []
    | None => []
    end
  else if decide (classify_fc (fc c) = FcUnknown) then
    [{| category := Anomaly; verdict := Inconclusive; confidence := Low;
        summary := [Lit "Modbus unknown function code: "; Hex 2 (fc c); Lit " on unit ";
                    Num (unit_id (header c))];
        evidence := [Lit "FC=" :: Hex 2 (fc c) :: txn_unit_text c];
        mitre_techniques := [];
        source_ip := Some (sender_ip c); timestamp := Some (now c);
        direction := Some (dir c) |}]
  else [].

Definition is_register_write (fc : Z) : bool := bool_decide (fc ∈ [0x06; 0x10; 0x16; 0x17]).
Definition is_coil_write (fc : Z) : bool := bool_decide (fc ∈ [0x05; 0x0F]).

(** The T0831 window: whether this write is co-tagged. *)
Definition t0831_window (f : ModbusFlowState) (c : pdu_context) : ModbusFlowState * bool :=
  if is_register_write (fc c) then
    if T0831_WINDOW_SECS <? sat_sub (now c) (t0831_window_start_ts f) then
      (f <| t0831_window_start_ts := now c |> <| t0831_window_write_count := 1 |>
         <| t0831_burst_emitted := false |>, false)
    else
      let f := f <| t0831_window_write_count := sat_add u32_max (t0831_window_write_count f) 1 |> in
      if (2 <=? t0831_window_write_count f) && negb (t0831_burst_emitted f)
      then (f <| t0831_burst_emitted := true |>, true)
      else (f, false)
  else (f, false).

Definition write_finding (c : pdu_context) (emit_t0831 : bool) : Finding := {|
  category := Execution; verdict := Likely; confidence := Medium;
  summary := [Lit "Modbus write command observed: FC "; Hex 2 (fc c); Lit " from unit ";
              Num (unit_id (header c))];
  evidence := [Lit "FC=" :: Hex 2 (fc c) :: txn_unit_text c ++
               [Lit " ADU bytes 0.."; Num (zlen (data c))]];
  mitre_techniques :=
    ["T1692.001"%string] ++
    (if is_register_write (fc c) then ["T0836"%string]
     else if is_coil_write (fc c) then ["T0835"%string] else []) ++
    (if emit_t0831 then ["T0831"%string] else []);
  source_ip := Some (client_ip c); timestamp := Some (now c); direction := Some (dir c)
|}.

Definition burst_finding (f : ModbusFlowState) (c : pdu_context) (threshold : Z) : Finding := {|
  category := Execution; verdict := Likely; confidence := High;
  summary := [Lit "Modbus write burst: "; Num (window_write_count f); Lit " writes within ";
              Num WRITE_BURST_WINDOW_SECS; Lit "s window (unit "; Num (unit_id (header c));
              Lit ", threshold "; Num threshold; Lit "/s)"];
  evidence := [[Lit "Burst threshold exceeded: "; Num (window_write_count f);
                Lit " write FCs in 1s window; window_write_count="; Num (window_write_count f);
                Lit " window_start_ts="; Num (window_start_ts f);
                Lit " threshold="; Num threshold; Lit " FC="; Hex 2 (fc c);
                Lit " UnitID="; Num (unit_id (header c))]];
  mitre_techniques := ["T0806"%string; "T1692.001"%string];
  source_ip := Some (client_ip c); timestamp := Some (now c); direction := Some (dir c)
|}.

(** The one-second burst window. *)
Definition burst_detector (f : ModbusFlowState) (c : pdu_context) (threshold : Z) :
    ModbusFlowState * list Finding :=
  if WRITE_BURST_WINDOW_SECS <? sat_sub (now c) (window_start_ts f) then
    (f <| window_start_ts := now c |> <| window_write_count := 1 |>
       <| window_burst_emitted := false |>, [])
  else
    let f := f <| window_write_count := sat_add u32_max (window_write_count f) 1 |> in
    if (threshold <? window_write_count f) && negb (window_burst_emitted f)
    then let f := f <| window_burst_emitted := true |> in (f, [burst_finding f c threshold])
    else (f, []).

Definition sustained_finding (f : ModbusFlowState) (c : pdu_context) (threshold elapsed : Z) :
    Finding := {|
  category := Execution; verdict := Likely; confidence := High;
  summary := [Lit "Modbus write burst: "; Num (sustained_window_write_count f);
              Lit " writes over "; Num elapsed; Lit "s window (unit ";
              Num (unit_id (header c)); Lit ", >"; Num threshold; Lit "/s avg)"];
  evidence := [[Lit "Sustained write rate exceeded: "; Num (sustained_window_write_count f);
                Lit " writes over "; Num elapsed; Lit " seconds (>"; Num threshold;
                Lit "/s average); sustained_window_start_ts="; Num (sustained_window_start_ts f);
                Lit " FC="; Hex 2 (fc c); Lit " UnitID="; Num (unit_id (header c))]];
  mitre_techniques := ["T0806"%string; "T1692.001"%string];
  source_ip := Some (client_ip c); timestamp := Some (now c); direction := Some (dir c)
|}.

(** The sustained-rate window.  The product of two [u32] values is taken in
    [u64] and cannot overflow. *)
Definition sustained_detector (f : ModbusFlowState) (c : pdu_context) (threshold : Z) :
    ModbusFlowState * list Finding :=
  if sustained_window_write_count f =? 0 then
    (f <| sustained_window_start_ts := now c |> <| sustained_window_write_count := 1 |>
       <| sustained_burst_emitted := false |>, [])
  else
    let f := f <| sustained_window_write_count :=
                    sat_add u32_max (sustained_window_write_count f) 1 |> in
    let elapsed := sat_sub (now c) (sustained_window_start_ts f) in
    let '(f, found) :=
      if (WRITE_SUSTAINED_WINDOW_SECS <=? elapsed) && negb (sustained_burst_emitted f) &&
         (threshold * elapsed <? sustained_window_write_count f)
      then let f := f <| sustained_burst_emitted := true |> in
           (f, [sustained_finding f c threshold elapsed])
      else (f, []) in
    if WRITE_SUSTAINED_WINDOW_SECS <=? elapsed then
      (f <| sustained_window_start_ts := now c |> <| sustained_window_write_count := 1 |>
         <| sustained_burst_emitted := false |>, found)
    else (f, found).

(** The sub-functions of FC 0x08. *)
Definition diagnostic_findings (c : pdu_context) : list Finding :=
  if fc c =? 0x08 then
    match data c !! 8%nat, data c !! 9%nat with
    | Some hi, Some lo =>
        let sub_func := u16_be hi lo in
        if (sub_func =? 0x0001) || (sub_func =? 0x0004) then
          [{| category := Anomaly; verdict := Likely; confidence := High;
              summary := [Lit "Modbus Diagnostics DoS sub-function "; Hex 4 sub_func;
                          Lit " detected"];
              evidence := [[Lit "FC=0x08 sub-func="; Hex 4 sub_func; Lit " unit_id=";
                            Hex 2 (unit_id (header c))]];
              mitre_techniques := ["T0814"%string];
              source_ip := Some (client_ip c); timestamp := Some (now c);
              direction := Some (dir c) |}]
        else if sub_func =? 0x000A then
          [{| category := Anomaly; verdict := Inconclusive; confidence := Medium;
              summary := [Lit "Modbus anti-forensic: Clear Counters (0x08/0x000A) sent to unit ";
                          Num (unit_id (header c))];
              evidence := [Lit "FC=0x08 SubFunc=0x000A" :: txn_unit_text c];
              mitre_techniques := [];
              source_ip := Some (client_ip c); timestamp := Some (now c);
              direction := Some (dir c) |}]
        else []
    | _, _ => []
    end
  else [].

Definition exception_summary (c : pdu_context) (exc_code count : Z) : text :=
  let unit := Num (unit_id (header c)) in
  if exc_code =? 0x01 then
    [Lit "Modbus recon: "; Num count; Lit " Illegal Function exceptions in window (unit "; unit;
     Lit ") — possible FC scanning"]
  else if exc_code =? 0x02 then
    [Lit "Modbus recon: "; Num count; Lit " Illegal Data Address exceptions in window (unit "; unit;
     Lit ") — possible register map enumeration"]
  else
    [Lit "Modbus exception anomaly: "; Num count; Lit " exceptions code "; Hex 2 exc_code;
     Lit " in window (unit "; unit; Lit ")"].

Definition exception_finding (c : pdu_context) (exc_code count : Z) : Finding := {|
  category := Anomaly; verdict := Inconclusive; confidence := Medium;
  summary := exception_summary c exc_code count;
  evidence := [[Lit "exception_fc="; Hex 2 (fc c); Lit " exception_code="; Hex 2 exc_code;
                Lit " window_count="; Num count; Lit " original_fc=";
                Hex 2 (Z.land (fc c) 0x7F)]];
  mitre_techniques :=
    if (exc_code =? 0x01) || (exc_code =? 0x02) then ["T0888"%string] else [];
  source_ip := Some (server_ip c); timestamp := Some (now c); direction := Some (dir c)
|}.

(** The per-code exception window; [*count += 1] is a checked [u32] addition. *)
Definition exception_window (f : ModbusFlowState) (c : pdu_context) (exc_code : Z) :
    panicky (ModbusFlowState * list Finding) :=
  let exc_elapsed :=
    sat_sub (now c) (default (now c) (exception_window_start_ts f !! exc_code)) in
  if EXCEPTION_WINDOW_SECS <? exc_elapsed then
    Some (f <| exception_window_counts := <[exc_code := 1]> (exception_window_counts f) |>
            <| exception_window_start_ts := <[exc_code := now c]> (exception_window_start_ts f) |>
            <| exception_burst_emitted := <[exc_code := false]> (exception_burst_emitted f) |>, [])
  else
    let start := default (now c) (exception_window_start_ts f !! exc_code) in
    cur_count ← cadd u32_max (default 0 (exception_window_counts f !! exc_code)) 1;
    let f := f <| exception_window_start_ts := <[exc_code := start]> (exception_window_start_ts f) |>
               <| exception_window_counts := <[exc_code := cur_count]> (exception_window_counts f) |> in
    let emitted := default false (exception_burst_emitted f !! exc_code) in
    if (EXCEPTION_RATE_THRESHOLD <? cur_count) && negb emitted then
      Some (f <| exception_burst_emitted := <[exc_code := true]> (exception_burst_emitted f) |>,
            [exception_finding c exc_code cur_count])
    else Some (f, []).

(** ** [process_pdu] *)

(** The write arm of the request path. *)
Definition write_request (a : ModbusAnalyzer) (f : ModbusFlowState) (c : pdu_context) :
    ModbusAnalyzer * ModbusFlowState * list Finding :=
  let a := a <| total_write_count := sat_add u64_max (total_write_count a) 1 |> in
  let f := f <| write_count := sat_add u64_max (write_count f) 1 |> in
  let '(f, emit_t0831) := t0831_window f c in
  let '(f, burst) := burst_detector f c (write_burst_threshold a) in
  let '(f, sustained) := sustained_detector f c (write_sustained_threshold a) in
  (a, f, [write_finding c emit_t0831] ++ burst ++ sustained).

(** The bookkeeping of a request in the pending table. *)
Definition record_request (a : ModbusAnalyzer) (f : ModbusFlowState) (c : pdu_context) :
    ModbusAnalyzer * ModbusFlowState :=
  let txn := transaction_id (header c) in
  let unit := unit_id (header c) in
  let a :=
    if bool_decide (pending f !! (txn, unit) = None) &&
       (MAX_PENDING_TRANSACTIONS <=? Z.of_nat (size (pending f)))
    then a <| dropped_transactions := sat_add u64_max (dropped_transactions a) 1 |>
    else a in
  let '(f, overwrite) := insert_request f txn unit (fc c) (now c) in
  match overwrite with
  | Some _ => (a <| duplicate_inflight_txn := sat_add u64_max (duplicate_inflight_txn a) 1 |>, f)
  | None => (a, f)
  end.

Definition request_path (a : ModbusAnalyzer) (f : ModbusFlowState) (c : pdu_context) :
    ModbusAnalyzer * ModbusFlowState * list Finding :=
  let cls := classify_fc (fc c) in
  let '(a, f) := if decide (cls ≠ FcException) then record_request a f c else (a, f) in
  match cls with
  | FcWrite => write_request a f c
  | FcDiagnostic => (a, f, diagnostic_findings c)
  | FcRead | FcUnknown | FcException => (a, f, [])
  end.

Definition response_path (a : ModbusAnalyzer) (f : ModbusFlowState) (c : pdu_context) :
    panicky (ModbusAnalyzer * ModbusFlowState * list Finding) :=
  let txn := transaction_id (header c) in
  let unit := unit_id (header c) in
  if decide (classify_fc (fc c) = FcException) then
    let a := a <| total_exception_count := sat_add u64_max (total_exception_count a) 1 |> in
    let f := f <| exception_count := sat_add u64_max (exception_count f) 1 |> in
    let '(f, _) := attribute_exception f txn unit (fc c) in
    let exc_code := default 0xFF (data c !! 8%nat) in
    '(f, found) ← exception_window f c exc_code;
    Some (a, f, found)
  else
    let '(f, _) := match_response f txn unit in
    Some (a, f, []).

(** The poison-skip loop over [local_findings]. *)
Definition push_one (a : ModbusAnalyzer) (f : Finding) : ModbusAnalyzer :=
  if MODBUS_MAX_FINDINGS <=? zlen (all_findings a)
  then a <| dropped_findings := sat_add u64_max (dropped_findings a) 1 |>
  else a <| all_findings := all_findings a ++ [f] |>.

Definition push_findings (a : ModbusAnalyzer) (local_findings : list Finding) : ModbusAnalyzer :=
  foldl push_one a local_findings.

(** The per-flow and analyzer-level PDU counters; [+= 1] on the distribution
    is a checked [u64] addition. *)
Definition count_pdu (a : ModbusAnalyzer) (f : ModbusFlowState) (fc ts : Z) :
    panicky (ModbusAnalyzer * ModbusFlowState) :=
  let a := if pdu_count f =? 0
           then a <| total_flows_analyzed := sat_add u64_max (total_flows_analyzed a) 1 |>
           else a in
  let f := f <| pdu_count := sat_add u64_max (pdu_count f) 1 |> <| last_ts := ts |> in
  let a := a <| total_pdu_count := sat_add u64_max (total_pdu_count a) 1 |> in
  count ← cadd u64_max (default 0 (fn_code_counts a !! fc)) 1;
  Some (a <| fn_code_counts := <[fc := count]> (fn_code_counts a) |>, f).

Definition process_pdu (a : ModbusAnalyzer) (f : ModbusFlowState) (k : FlowKey)
    (dir : Direction) (header : MbapHeader) (fc : Z) (data : list Z) (ts : Z) :
    panicky (ModbusAnalyzer * ModbusFlowState * list Finding) :=
  let '(client_ip, server_ip) := endpoints k in
  let c := mkPduContext client_ip server_ip dir header fc data ts in
  '(a, f) ← count_pdu a f fc ts;
  let recon := recon_findings c in
  '(a, f, found) ← match dir with
                   | ClientToServer => Some (request_path a f c)
                   | ServerToClient => response_path a f c
                   end;
  let local_findings := recon ++ found in
  Some (push_findings a local_findings, f, local_findings).

(** ** Framing *)

Definition carry (f : ModbusFlowState) (dir : Direction) : list Z :=
  match dir with ClientToServer => carry_c2s f | ServerToClient => carry_s2c f end.

Definition set_carry (f : ModbusFlowState) (dir : Direction) (c : list Z) : ModbusFlowState :=
  match dir with
  | ClientToServer => f <| carry_c2s := c |>
  | ServerToClient => f <| carry_s2c := c |>
  end.

(** Keep an incomplete ADU for the next chunk. *)
Definition stash (a : ModbusAnalyzer) (f : ModbusFlowState) (dir : Direction)
    (remaining : list Z) : ModbusAnalyzer * ModbusFlowState :=
  if MAX_ADU_CARRY_BYTES <? zlen (carry f dir) + zlen remaining then
    (a <| parse_errors := sat_add u64_max (parse_errors a) 1 |>, f <| is_non_modbus := true |>)
  else (a, set_carry f dir (carry f dir ++ remaining)).

(** The [while pos < buf.len()] loop on the bytes from [pos] on.  Every round
    consumes at least eight bytes, so the length of the buffer is enough fuel
    ([walk_fuel]). *)
Fixpoint walk (fuel : nat) (a : ModbusAnalyzer) (f : ModbusFlowState) (k : FlowKey)
    (dir : Direction) (ts : Z) (remaining : list Z) :
    panicky (ModbusAnalyzer * ModbusFlowState) :=
  match remaining with
  | [] => Some (a, f)
  | _ =>
    match fuel with
    | O => None
    | S fuel =>
      match parse_mbap_header remaining with
      | None => Some (stash a f dir remaining)
      | Some header =>
          if negb (is_valid_modbus_adu header) then
            Some (a <| parse_errors := sat_add u64_max (parse_errors a) 1 |>,
                  f <| is_non_modbus := true |> <| carry_c2s := [] |> <| carry_s2c := [] |>)
          else
            let adu_len := 6 + length_field header in
            if zlen remaining <? adu_len then Some (stash a f dir remaining)
            else
              adu_bytes ← slice remaining 0 adu_len;
              '(a, f, _) ← process_pdu a f k dir header (function_code header) adu_bytes ts;
              walk fuel a f k dir ts (drop (Z.to_nat adu_len) remaining)
      end
    end
  end.

Definition modbus_on_data (a : ModbusAnalyzer) (k : FlowKey) (dir : Direction)
    (data : list Z) (offset ts : Z) : panicky ModbusAnalyzer :=
  let flow := default ModbusFlowState_default (flows a !! k) in
  let a := a <| flows := delete k (flows a) |> in
  if is_non_modbus flow then Some (a <| flows := <[k := flow]> (flows a) |>) else
  let buf := carry flow dir ++ data in
  let flow := set_carry flow dir [] in
  '(a, flow) ← walk (length buf) a flow k dir ts buf;
  Some (a <| flows := <[k := flow]> (flows a) |>).

Definition modbus_on_flow_close (a : ModbusAnalyzer) (k : FlowKey) (reason : CloseReason) :
    ModbusAnalyzer := a <| flows := delete k (flows a) |>.

(** As the dispatcher's handler; [None] is an analyzer that has panicked. *)
#[global] Instance modbus_handler : StreamHandler (option ModbusAnalyzer) := {
  on_data oa k dir data offset ts := a ← oa; modbus_on_data a k dir data offset ts;
  on_flow_close oa k reason := (λ a, modbus_on_flow_close a k reason) <$> oa
}.

(** ** Summary *)

Definition modbus_summarize (a : ModbusAnalyzer) : AnalysisSummary := {|
  analyzer_name := "modbus";
  packets_analyzed := total_pdu_count a;
  detail := list_to_map [
    ("pdu_count"%string, JNum (total_pdu_count a));
    ("write_count"%string, JNum (total_write_count a));
    ("exception_count"%string, JNum (total_exception_count a));
    ("parse_errors"%string, JNum (parse_errors a));
    ("dropped_findings"%string, JNum (dropped_findings a));
    ("dropped_transactions"%string, JNum (dropped_transactions a));
    ("function_code_distribution"%string,
      JObj (list_to_map (omap (λ fc_count : Z * Z,
        if 0 <? fc_count.2 then Some (hex_byte fc_count.1, fc_count.2) else None)
        (map_to_list (fn_code_counts a)))))]
|}.
