(* ===== verification/ModbusProps.v ===== *)
(** * Properties of the Modbus TCP analyzer

    Framing does not depend on how the stream is cut into chunks; tables,
    buffers and the finding list are bounded whatever the traffic; the
    transaction table pairs requests with responses. *)

From S2P Require Import Prelude FlowKey Handler Findings Modbus.

#[local] Open Scope Z_scope.

(** ** Frames *)

(** The parts of a flow's state that belong to framing. *)
Definition same_framing (f f' : ModbusFlowState) : Prop :=
  carry_c2s f' = carry_c2s f ∧ carry_s2c f' = carry_s2c f ∧ is_non_modbus f' = is_non_modbus f.

Lemma same_framing_refl f : same_framing f f.
Proof. done. Qed.

Lemma same_framing_trans f1 f2 f3 : same_framing f1 f2 → same_framing f2 f3 → same_framing f1 f3.
Proof. unfold same_framing. intuition congruence. Qed.

(** What a detector leaves alone. *)
Definition detector_frame (f f' : ModbusFlowState) : Prop :=
  same_framing f f' ∧ pending f' = pending f ∧
  exception_window_counts f' = exception_window_counts f.

Lemma detector_frame_trans f1 f2 f3 :
  detector_frame f1 f2 → detector_frame f2 f3 → detector_frame f1 f3.
Proof. unfold detector_frame, same_framing. intuition congruence. Qed.

Lemma t0831_window_frame f c : detector_frame f (t0831_window f c).1.
Proof. unfold t0831_window. by repeat (case_match; simpl). Qed.

Lemma burst_detector_frame f c t : detector_frame f (burst_detector f c t).1.
Proof. unfold burst_detector. by repeat (case_match; simpl). Qed.

Lemma sustained_detector_frame f c t : detector_frame f (sustained_detector f c t).1.
Proof.
  unfold sustained_detector. destruct (sustained_window_write_count f =? 0); [done|]. simpl.
  destruct (_ && _), (WRITE_SUSTAINED_WINDOW_SECS <=? _); done.
Qed.

Lemma write_request_frame a f c :
  let '(a', f', _) := write_request a f c in
  detector_frame f f' ∧ flows a' = flows a ∧ fn_code_counts a' = fn_code_counts a ∧
  all_findings a' = all_findings a.
Proof.
  unfold write_request. set (f0 := f <| write_count := _ |>).
  pose proof (t0831_window_frame f0 c) as H1. destruct (t0831_window f0 c) as [f1 e].
  pose proof (burst_detector_frame f1 c (write_burst_threshold a)) as H2.
  simpl. destruct (burst_detector f1 c _) as [f2 b].
  pose proof (sustained_detector_frame f2 c (write_sustained_threshold a)) as H3.
  simpl. destruct (sustained_detector f2 c _) as [f3 s]. simpl in *.
  split_and!; [|done..]. apply (detector_frame_trans f f0); [done|].
  eauto using detector_frame_trans.
Qed.

(** ** The pending table *)

Definition pending_ok (f : ModbusFlowState) : Prop :=
  Z.of_nat (size (pending f)) ≤ MAX_PENDING_TRANSACTIONS.

Lemma insert_request_ok f txn unit fc ts :
  pending_ok f →
  let f' := (insert_request f txn unit fc ts).1 in
  pending_ok f' ∧ same_framing f f' ∧ exception_window_counts f' = exception_window_counts f.
Proof.
  intros Hp. unfold insert_request. case_decide as Hk; simpl.
  - split_and!; [|done..]. unfold pending_ok in *. simpl. rewrite map_size_insert_Some; done.
  - destruct (Z.leb_spec MAX_PENDING_TRANSACTIONS (Z.of_nat (size (pending f)))); [done|].
    split_and!; [|done..]. unfold pending_ok in *. simpl. apply eq_None_not_Some in Hk.
    rewrite map_size_insert_None by done. lia.
Qed.

Lemma pending_ok_delete f key : pending_ok f → pending_ok (f <| pending := delete key (pending f) |>).
Proof.
  unfold pending_ok. simpl. intros Hp. rewrite map_size_delete. pose proof (Nat.le_pred_l (size (pending f))). destruct (pending f !! key); [|done]. etransitivity; [|exact Hp]. by apply Nat2Z.inj_le.
Qed.

(** ** Bounds *)

(** No counter that is incremented by a checked addition exceeds [n]. *)
Definition flow_counts_le (n : Z) (f : ModbusFlowState) : Prop :=
  ∀ code c, exception_window_counts f !! code = Some c → c ≤ n.

Record counts_le (n : Z) (a : ModbusAnalyzer) : Prop := {
  cl_codes : ∀ fc c, fn_code_counts a !! fc = Some c → c ≤ n;
  cl_flows : ∀ k f, flows a !! k = Some f → flow_counts_le n f
}.

Lemma flow_counts_le_mono n m f : n ≤ m → flow_counts_le n f → flow_counts_le m f.
Proof. intros ? Hf code c Hc. specialize (Hf code c Hc). lia. Qed.

Lemma counts_le_mono n m a : n ≤ m → counts_le n a → counts_le m a.
Proof.
  intros Hle [H1 H2]. split.
  - intros fc c Hc. specialize (H1 fc c Hc). lia.
  - intros k f Hk. eapply flow_counts_le_mono; eauto.
Qed.

Definition findings_ok (a : ModbusAnalyzer) : Prop := zlen (all_findings a) ≤ MODBUS_MAX_FINDINGS.

Lemma push_one_ok a x :
  (findings_ok a → findings_ok (push_one a x)) ∧ flows (push_one a x) = flows a ∧
  fn_code_counts (push_one a x) = fn_code_counts a.
Proof.
  unfold push_one, findings_ok.
  destruct (Z.leb_spec MODBUS_MAX_FINDINGS (zlen (all_findings a))); [done|].
  split_and!; [|done..]. simpl. rewrite zlen_app, zlen_cons, zlen_nil. lia.
Qed.

Lemma push_findings_ok a l :
  (findings_ok a → findings_ok (push_findings a l)) ∧
  flows (push_findings a l) = flows a ∧
  fn_code_counts (push_findings a l) = fn_code_counts a.
Proof.
  unfold push_findings. revert a. induction l as [|x l IH]; intros a; simpl; [done|].
  destruct (push_one_ok a x) as (H1 & H2 & H3), (IH (push_one a x)) as (H4 & H5 & H6).
  split_and!; [auto|congruence..].
Qed.

(** The contract of one PDU. *)
Definition pdu_ok (n : Z) (a : ModbusAnalyzer) (f : ModbusFlowState)
    (res : panicky (ModbusAnalyzer * ModbusFlowState * list Finding)) : Prop :=
  ∃ a' f' l, res = Some (a', f', l) ∧ same_framing f f' ∧ pending_ok f' ∧
    flow_counts_le (n + 1) f' ∧ flows a' = flows a ∧
    (∀ fc c, fn_code_counts a' !! fc = Some c → c ≤ n + 1) ∧
    (findings_ok a → findings_ok a').

Lemma exception_window_ok n f c code :
  flow_counts_le n f → 0 ≤ n < u32_max →
  ∃ f' l, exception_window f c code = Some (f', l) ∧ same_framing f f' ∧
    pending f' = pending f ∧ flow_counts_le (n + 1) f'.
Proof.
  intros Hf Hn. unfold exception_window.
  assert (∀ x, x ≤ n + 1 → ∀ f', exception_window_counts f' =
    <[code := x]> (exception_window_counts f) → flow_counts_le (n + 1) f') as Hins.
  { intros x Hx f' E code' c'. rewrite E. intros [[<- <-]|[_ Hc]]%lookup_insert_Some; [done|].
    specialize (Hf _ _ Hc). lia. }
  destruct (EXCEPTION_WINDOW_SECS <? _).
  { eexists _, _. split_and!; [done..|]. by apply (Hins 1); [lia|]. }
  assert (default 0 (exception_window_counts f !! code) ≤ n) as Hc.
  { destruct (exception_window_counts f !! code) eqn:E; simpl; [by eapply Hf|lia]. }
  rewrite cadd_Some by lia. simpl.
  destruct (_ && _); (eexists _, _; split_and!; [done..|];
    apply (Hins (default 0 (exception_window_counts f !! code) + 1)); [lia|done]).
Qed.

Lemma record_request_ok a f c :
  pending_ok f →
  let '(a', f') := record_request a f c in
  pending_ok f' ∧ same_framing f f' ∧
  exception_window_counts f' = exception_window_counts f ∧ flows a' = flows a ∧
  fn_code_counts a' = fn_code_counts a ∧ all_findings a' = all_findings a.
Proof.
  intros Hp. unfold record_request.
  pose proof (insert_request_ok f (transaction_id (header c)) (unit_id (header c)) (fc c) (now c) Hp).
  destruct (insert_request _ _ _ _ _) as [f' o]. simpl in *.
  destruct o, (_ && _); tauto.
Qed.

Lemma request_path_ok a f c :
  pending_ok f →
  let '(a', f', _) := request_path a f c in
  pending_ok f' ∧ same_framing f f' ∧
  exception_window_counts f' = exception_window_counts f ∧ flows a' = flows a ∧
  fn_code_counts a' = fn_code_counts a ∧ all_findings a' = all_findings a.
Proof.
  intros Hp. unfold request_path.
  assert (let '(a', f') := if decide (classify_fc (fc c) ≠ FcException)
            then record_request a f c else (a, f) in
    pending_ok f' ∧ same_framing f f' ∧
    exception_window_counts f' = exception_window_counts f ∧ flows a' = flows a ∧
    fn_code_counts a' = fn_code_counts a ∧ all_findings a' = all_findings a) as H.
  { case_decide; [by apply record_request_ok|done]. }
  destruct (if decide _ then _ else _) as [a1 f1]. destruct (classify_fc (fc c)); try done.
  destruct H as (H1 & H2 & H3 & H4 & H5 & H6).
  pose proof (write_request_frame a1 f1 c) as Hw. destruct (write_request a1 f1 c) as [[a2 f2] l].
  destruct Hw as ((F1 & F2 & F3) & F4 & F5 & F6). unfold pending_ok in *. rewrite F2.
  split_and!; [done|by eapply same_framing_trans|congruence..].
Qed.

Lemma response_path_ok n a f c :
  pending_ok f → flow_counts_le n f → 0 ≤ n < u32_max →
  ∃ a' f' l, response_path a f c = Some (a', f', l) ∧ pending_ok f' ∧ same_framing f f' ∧
    flow_counts_le (n + 1) f' ∧ flows a' = flows a ∧
    fn_code_counts a' = fn_code_counts a ∧ all_findings a' = all_findings a.
Proof.
  intros Hp Hf Hn. unfold response_path. case_decide.
  - set (f0 := f <| exception_count := _ |>).
    assert (pending_ok (attribute_exception f0 (transaction_id (header c)) (unit_id (header c))
      (fc c)).1 ∧ same_framing f (attribute_exception f0 (transaction_id (header c))
      (unit_id (header c)) (fc c)).1 ∧ flow_counts_le n (attribute_exception f0
      (transaction_id (header c)) (unit_id (header c)) (fc c)).1) as H'.
    { unfold attribute_exception. repeat case_match; simpl; split_and!; try done.
      by apply (pending_ok_delete f0). }
    destruct (attribute_exception f0 _ _ _) as [f1 o]. destruct H' as (P1 & F1 & C1). simpl in *.
    destruct (exception_window_ok n f1 c (default 255 (data c !! 8%nat))) as (f2 & l & -> & F2 & P2 & C2);
      [done..|]. simpl. eexists _, _, _. split_and!; try done; [|by eapply same_framing_trans].
    unfold pending_ok in *. by rewrite P2.
  - simpl. eexists _, _, _. split_and!; try done; [by apply pending_ok_delete|].
    eapply flow_counts_le_mono; [|done]. lia.
Qed.

Lemma count_pdu_ok n a f fc ts :
  (∀ fc c, fn_code_counts a !! fc = Some c → c ≤ n) → 0 ≤ n < u32_max →
  ∃ a' f', count_pdu a f fc ts = Some (a', f') ∧ same_framing f f' ∧ pending f' = pending f ∧
    exception_window_counts f' = exception_window_counts f ∧ flows a' = flows a ∧
    all_findings a' = all_findings a ∧
    (∀ fc c, fn_code_counts a' !! fc = Some c → c ≤ n + 1).
Proof.
  intros Hc Hn. unfold count_pdu.
  assert (default 0 (fn_code_counts a !! fc) ≤ n) as Hd.
  { destruct (fn_code_counts a !! fc) eqn:E; simpl; [by eapply Hc|lia]. }
  destruct (pdu_count f =? 0); simpl; rewrite cadd_Some by ulia; simpl;
    (eexists _, _; split_and!; [done..|]; simpl; intros fc' c';
     intros [[<- <-]|[_ H]]%lookup_insert_Some; [lia|]; specialize (Hc _ _ H); lia).
Qed.

Lemma process_pdu_ok n a f k dir h fc data ts :
  pending_ok f → flow_counts_le n f → (∀ fc c, fn_code_counts a !! fc = Some c → c ≤ n) →
  0 ≤ n < u32_max → pdu_ok n a f (process_pdu a f k dir h fc data ts).
Proof.
  intros Hp Hf Hc Hn. unfold process_pdu. destruct (endpoints k) as [cip sip].
  destruct (count_pdu_ok n a f fc ts) as (a1 & f1 & -> & F1 & P1 & X1 & B1 & A1 & C1); [done..|].
  cbn [mbind option_bind]. set (c := mkPduContext _ _ _ _ _ _ _).
  assert (pending_ok f1) as Hp1 by (unfold pending_ok; by rewrite P1).
  assert (flow_counts_le n f1) as Hf1 by (unfold flow_counts_le; by rewrite X1).
  assert (∃ a' f' l, match dir with
      | ClientToServer => Some (request_path a1 f1 c)
      | ServerToClient => response_path a1 f1 c
      end = Some (a', f', l) ∧ pending_ok f' ∧ same_framing f1 f' ∧ flow_counts_le (n + 1) f' ∧
      flows a' = flows a1 ∧ fn_code_counts a' = fn_code_counts a1 ∧
      all_findings a' = all_findings a1)
    as (a2 & f2 & l & -> & P2 & F2 & C2 & B2 & D2 & E2).
  { destruct dir.
    - pose proof (request_path_ok a1 f1 c Hp1) as H. destruct (request_path a1 f1 c) as [[a' f'] l].
      destruct H as (P & F & C & B & D & E). exists a', f', l. split_and!; try done.
      unfold flow_counts_le. rewrite C. exact (flow_counts_le_mono n (n + 1) f1 ltac:(lia) Hf1).
    - destruct (response_path_ok n a1 f1 c) as (a' & f' & l & E & P & F & C & B & D & A); [done..|].
      by exists a', f', l. }
  simpl. destruct (push_findings_ok a2 (recon_findings c ++ l)) as (P3 & F3 & C3).
  eexists _, _, _. split_and!; [done|by eapply same_framing_trans|done|done|congruence| |].
  - by rewrite C3, D2.
  - intros Ha. apply P3. unfold findings_ok. by rewrite E2, A1.
Qed.

(** ** Framing frames *)

Lemma insert_request_framing f txn unit fc ts :
  same_framing f (insert_request f txn unit fc ts).1.
Proof. unfold insert_request. by repeat (case_match; simpl). Qed.

Lemma request_path_framing a f c :
  let '(a', f', _) := request_path a f c in same_framing f f' ∧ flows a' = flows a.
Proof.
  unfold request_path.
  assert (let '(a', f') := if decide (classify_fc (fc c) ≠ FcException)
            then record_request a f c else (a, f) in
    same_framing f f' ∧ flows a' = flows a) as H.
  { case_decide; [|done]. unfold record_request.
    pose proof (insert_request_framing f (transaction_id (header c)) (unit_id (header c))
      (fc c) (now c)). destruct (insert_request _ _ _ _ _) as [f' []]; by destruct (_ && _). }
  destruct (if decide _ then _ else _) as [a1 f1]. destruct H as [H1 H2].
  destruct (classify_fc (fc c)); try done.
  pose proof (write_request_frame a1 f1 c) as Hw. destruct (write_request a1 f1 c) as [[a2 f2] l].
  destruct Hw as ((F1 & _) & F4 & _). split; [by eapply same_framing_trans|congruence].
Qed.

Lemma exception_window_framing f c code f' l :
  exception_window f c code = Some (f', l) → same_framing f f'.
Proof.
  unfold exception_window. destruct (_ <? _); [by intros [= <- _]|].
  destruct (cadd _ _ _); simpl; [|done]. by destruct (_ && _); intros [= <- _].
Qed.

Lemma response_path_framing a f c a' f' l :
  response_path a f c = Some (a', f', l) → same_framing f f' ∧ flows a' = flows a.
Proof.
  unfold response_path. case_decide; [|by intros [= <- <- _]].
  set (f0 := f <| exception_count := _ |>).
  assert (same_framing f (attribute_exception f0 (transaction_id (header c))
    (unit_id (header c)) (fc c)).1) as H1
    by (unfold attribute_exception; by repeat case_match).
  destruct (attribute_exception f0 _ _ _) as [f1 o]. simpl in H1.
  destruct (exception_window f1 c _) as [[f2 l2]|] eqn:E; [|done]. simpl. intros [= <- <- _].
  split; [|done]. eapply same_framing_trans; [done|]. by eapply exception_window_framing.
Qed.

Lemma process_pdu_framing a f k dir h fc data ts a' f' l :
  process_pdu a f k dir h fc data ts = Some (a', f', l) →
  same_framing f f' ∧ flows a' = flows a.
Proof.
  unfold process_pdu. destruct (endpoints k) as [cip sip].
  destruct (count_pdu a f fc ts) as [[a1 f1]|] eqn:E1; [|done]. cbn [mbind option_bind].
  assert (same_framing f f1 ∧ flows a1 = flows a) as [H1 H2].
  { unfold count_pdu in E1. destruct (pdu_count f =? 0); simpl in E1;
      (destruct (cadd _ _ _); simpl in E1; [|done]); by simplify_eq. }
  set (c := mkPduContext _ _ _ _ _ _ _).
  destruct (match dir with ClientToServer => _ | _ => _ end) as [[[a2 f2] l2]|] eqn:E2; [|done].
  simpl. intros [= <- <- _]. destruct (push_findings_ok a2 (recon_findings c ++ l2)) as (_ & F & _).
  assert (same_framing f1 f2 ∧ flows a2 = flows a1) as [H3 H4].
  { destruct dir.
    - pose proof (request_path_framing a1 f1 c) as H. injection E2 as E2. by rewrite E2 in H.
    - by eapply response_path_framing. }
  split; [by eapply same_framing_trans|congruence].
Qed.

(** ** The walk *)

Lemma parse_mbap_header_Some l h :
  parse_mbap_header l = Some h → 8 ≤ zlen l ∧ ∀ k, parse_mbap_header (l ++ k) = Some h.
Proof.
  do 8 (destruct l as [|? l]; [done|]). intros E. split; [|by intros].
  rewrite !zlen_cons. pose proof (zlen_nonneg l). lia.
Qed.

Lemma parse_mbap_header_None l : parse_mbap_header l = None → zlen l < 8.
Proof.
  do 8 (destruct l as [|? l]; [intros _; rewrite ?zlen_cons, zlen_nil; lia|]). done.
Qed.

Lemma is_valid_modbus_adu_true h :
  is_valid_modbus_adu h = true → 8 ≤ 6 + length_field h ≤ 260.
Proof.
  unfold is_valid_modbus_adu. rewrite !andb_true_iff, !Z.leb_le. lia.
Qed.

(** Enough fuel is enough. *)
Lemma walk_fuel n m a f k dir ts l :
  (length l ≤ n)%nat → (length l ≤ m)%nat → walk n a f k dir ts l = walk m a f k dir ts l.
Proof.
  revert m a f l. induction n as [|n IH]; intros m a f l Hn Hm.
  { destruct l; [by destruct m|simpl in Hn; lia]. }
  destruct l as [|b l]; [by destruct m|]. destruct m as [|m]; [simpl in Hm; lia|].
  cbn [walk]. destruct (parse_mbap_header (b :: l)) as [h|]; [|done].
  destruct (is_valid_modbus_adu h) eqn:Ev; [|done]. apply is_valid_modbus_adu_true in Ev. simpl.
  destruct (zlen (b :: l) <? 6 + length_field h); [done|].
  destruct (slice _ _ _); [|done]. simpl. destruct (process_pdu _ _ _ _ _ _ _ _) as [[[a' f'] ?]|];
    [|done]. simpl. apply IH.
  all: rewrite length_drop; simpl in *; lia.
Qed.

Lemma carry_set_carry f dir c : carry (set_carry f dir c) dir = c.
Proof. by destruct dir. Qed.

Lemma set_carry_set_carry f dir c c' : set_carry (set_carry f dir c) dir c' = set_carry f dir c'.
Proof. by destruct dir. Qed.

Lemma set_carry_id f dir : set_carry f dir (carry f dir) = f.
Proof. destruct dir, f; done. Qed.

Lemma set_carry_nil f dir : carry f dir = [] → set_carry f dir [] = f.
Proof. intros <-. apply set_carry_id. Qed.

Lemma is_non_modbus_set_carry f dir c : is_non_modbus (set_carry f dir c) = is_non_modbus f.
Proof. by destruct dir. Qed.

Lemma carry_framing f f' dir : same_framing f f' → carry f' dir = carry f dir.
Proof. intros (? & ? & ?). by destruct dir. Qed.

Lemma stash_short a f dir l :
  carry f dir = [] → zlen l ≤ 260 → stash a f dir l = (a, set_carry f dir l).
Proof.
  intros Hc Hl. unfold stash. rewrite Hc, zlen_nil.
  rewrite (proj2 (Z.ltb_ge _ _)) by (unfold MAX_ADU_CARRY_BYTES; lia). done.
Qed.

(** The walk with the fuel [on_data] gives it. *)
Definition walk_all (a : ModbusAnalyzer) (f : ModbusFlowState) (k : FlowKey) (dir : Direction)
    (ts : Z) (l : list Z) : panicky (ModbusAnalyzer * ModbusFlowState) :=
  walk (length l) a f k dir ts l.

Definition latched (a : ModbusAnalyzer) (f : ModbusFlowState) : ModbusAnalyzer * ModbusFlowState :=
  (a <| parse_errors := sat_add u64_max (parse_errors a) 1 |>,
   f <| is_non_modbus := true |> <| carry_c2s := [] |> <| carry_s2c := [] |>).

(** One round of the walk. *)
Lemma walk_all_unfold a f k dir ts l :
  l ≠ [] →
  walk_all a f k dir ts l =
    match parse_mbap_header l with
    | None => Some (stash a f dir l)
    | Some h =>
        if negb (is_valid_modbus_adu h) then Some (latched a f)
        else if zlen l <? 6 + length_field h then Some (stash a f dir l)
        else
          adu ← slice l 0 (6 + length_field h);
          '(a, f, _) ← process_pdu a f k dir h (function_code h) adu ts;
          walk_all a f k dir ts (drop (Z.to_nat (6 + length_field h)) l)
    end.
Proof.
  intros Hne. unfold walk_all. destruct l as [|b l]; [done|]. cbn [length walk].
  destruct (parse_mbap_header (b :: l)) as [h|]; [|done].
  destruct (is_valid_modbus_adu h) eqn:Ev; [|done]. apply is_valid_modbus_adu_true in Ev. simpl.
  destruct (zlen (b :: l) <? 6 + length_field h); [done|].
  destruct (slice _ _ _); [|done]. simpl. destruct (process_pdu _ _ _ _ _ _ _ _) as [[[a' f'] ?]|];
    [|done]. simpl. apply walk_fuel; rewrite length_drop; simpl in *; lia.
Qed.

(** What the next chunk starts from. *)
Definition resume (a : ModbusAnalyzer) (f : ModbusFlowState) (k : FlowKey) (dir : Direction)
    (ts : Z) (data : list Z) : panicky (ModbusAnalyzer * ModbusFlowState) :=
  if is_non_modbus f then Some (a, f)
  else walk_all a (set_carry f dir []) k dir ts (carry f dir ++ data).

Lemma resume_fresh a f k dir ts l :
  carry f dir = [] → is_non_modbus f = false → resume a f k dir ts l = walk_all a f k dir ts l.
Proof. intros Hc Hm. unfold resume. by rewrite Hm, Hc, set_carry_nil. Qed.

Lemma resume_stashed a f k dir ts l1 l2 :
  carry f dir = [] → is_non_modbus f = false → zlen l1 ≤ 260 →
  (let '(a, f) := stash a f dir l1 in resume a f k dir ts l2) = walk_all a f k dir ts (l1 ++ l2).
Proof.
  intros Hc Hm Hl. rewrite stash_short by done. unfold resume.
  by rewrite is_non_modbus_set_carry, Hm, carry_set_carry, set_carry_set_carry, set_carry_nil.
Qed.

(** Walking two chunks one after the other is walking their concatenation. *)
Lemma walk_app n a f k dir ts l1 l2 :
  (length l1 ≤ n)%nat → carry f dir = [] → is_non_modbus f = false →
  walk_all a f k dir ts (l1 ++ l2) =
    ('(a, f) ← walk_all a f k dir ts l1; resume a f k dir ts l2).
Proof.
  revert a f l1. induction n as [|n IH]; intros a f l1 Hn Hc Hm.
  { destruct l1; [|simpl in Hn; lia]. simpl. by rewrite resume_fresh. }
  destruct (decide (l1 = [])) as [->|Hne]; [simpl; by rewrite resume_fresh|].
  pose proof (zlen_pos _ Hne) as Hpos.
  rewrite (walk_all_unfold a f k dir ts l1) by done.
  destruct (parse_mbap_header l1) as [h|] eqn:Eh.
  2:{ apply parse_mbap_header_None in Eh. cbn [mbind option_bind]. by rewrite resume_stashed by (done || lia). }
  destruct (parse_mbap_header_Some _ _ Eh) as [H8 Hh].
  destruct (is_valid_modbus_adu h) eqn:Ev; cbn [negb].
  2:{ rewrite walk_all_unfold by (by destruct l1). rewrite Hh, Ev. done. }
  pose proof (is_valid_modbus_adu_true _ Ev) as Hlen.
  destruct (Z.ltb_spec (zlen l1) (6 + length_field h)).
  { cbn [mbind option_bind]. by rewrite resume_stashed by (done || lia). }
  rewrite walk_all_unfold by (by destruct l1). rewrite Hh, Ev. cbn [negb]. rewrite zlen_app.
  pose proof (zlen_nonneg l2). rewrite (proj2 (Z.ltb_ge _ _)) by lia.
  rewrite !slice_Some by (rewrite ?zlen_app; lia). cbn [mbind option_bind].
  rewrite !Z.sub_0_r. simpl. rewrite !drop_0, take_app_le by (unfold zlen in *; lia).
  destruct (process_pdu _ _ _ _ _ _ _ _) as [[[a' f'] ?]|] eqn:Ep; [|done].
  cbn [mbind option_bind]. apply process_pdu_framing in Ep as [F _].
  rewrite drop_app_le by (unfold zlen in *; lia). apply IH.
  - rewrite length_drop. lia.
  - by rewrite (carry_framing f).
  - destruct F as (_ & _ & ->). done.
Qed.

Lemma walk_all_flows n a f k dir ts l a' f' :
  (length l ≤ n)%nat → walk_all a f k dir ts l = Some (a', f') → flows a' = flows a.
Proof.
  revert a f l. induction n as [|n IH]; intros a f l Hn.
  { destruct l; [|simpl in Hn; lia]. by intros [= <- <-]. }
  destruct (decide (l = [])) as [->|Hne]; [by intros [= <- <-]|].
  rewrite walk_all_unfold by done.
  assert (∀ l', flows (stash a f dir l').1 = flows a) as Hst
    by (intros l'; unfold stash; by destruct (_ <? _)).
  destruct (parse_mbap_header l) as [h|]; [|intros [= E]; by rewrite <- (Hst l), E].
  destruct (is_valid_modbus_adu h) eqn:Ev; cbn [negb]; [|by intros [= <- <-]].
  apply is_valid_modbus_adu_true in Ev. pose proof (zlen_pos _ Hne).
  destruct (_ <? _); [intros [= E]; by rewrite <- (Hst l), E|].
  destruct (slice _ _ _); [|done]. cbn [mbind option_bind].
  destruct (process_pdu _ _ _ _ _ _ _ _) as [[[a1 f1] ?]|] eqn:Ep; [|done].
  cbn [mbind option_bind]. apply process_pdu_framing in Ep as [_ F]. intros E.
  rewrite <- F. eapply IH; [|exact E]. rewrite length_drop. unfold zlen in *. lia.
Qed.

(** ** The analyzer invariant *)

(** The beginning of an ADU that has not arrived in full. *)
Definition incomplete (l : list Z) : Prop :=
  match parse_mbap_header l with
  | None => True
  | Some h => is_valid_modbus_adu h = true ∧ zlen l < 6 + length_field h
  end.

Lemma incomplete_short l : incomplete l → zlen l ≤ 259.
Proof.
  unfold incomplete. destruct (parse_mbap_header l) eqn:E.
  - intros [?%is_valid_modbus_adu_true ?]. lia.
  - apply parse_mbap_header_None in E. lia.
Qed.

Record flow_ok (n : Z) (f : ModbusFlowState) : Prop := {
  fo_pending : pending_ok f;
  fo_counts : flow_counts_le n f;
  fo_c2s : incomplete (carry_c2s f);
  fo_s2c : incomplete (carry_s2c f)
}.

Lemma flow_ok_framing n m f f' :
  flow_ok n f → same_framing f f' → pending_ok f' → flow_counts_le m f' → flow_ok m f'.
Proof. intros [] (E1 & E2 & _) ??. split; try done; by rewrite ?E1, ?E2. Qed.

Lemma flow_ok_mono n m f : n ≤ m → flow_ok n f → flow_ok m f.
Proof. intros ? []. split; try done. by eapply flow_counts_le_mono. Qed.

Lemma flow_ok_set_carry n f dir l : flow_ok n f → incomplete l → flow_ok n (set_carry f dir l).
Proof. intros [] ?. by destruct dir; split. Qed.

Lemma flow_ok_carry n f dir : flow_ok n f → incomplete (carry f dir).
Proof. intros []. by destruct dir. Qed.

Lemma flow_ok_default n : flow_ok n ModbusFlowState_default.
Proof. split; [done|intros code c; simpl; by rewrite lookup_empty|done|done]. Qed.

(** The analyzer and the flow taken out of its table. *)
Record working (n : Z) (a : ModbusAnalyzer) (f : ModbusFlowState) : Prop := {
  wk_flow : flow_ok n f;
  wk_codes : ∀ fc c, fn_code_counts a !! fc = Some c → c ≤ n;
  wk_findings : findings_ok a
}.

Definition walk_ok (n : Z) (a : ModbusAnalyzer)
    (res : panicky (ModbusAnalyzer * ModbusFlowState)) : Prop :=
  ∃ a' f', res = Some (a', f') ∧ working n a' f' ∧ flows a' = flows a.

Lemma working_mono n m a f : n ≤ m → working n a f → working m a f.
Proof.
  intros ? [? Hc ?]. split; [by eapply flow_ok_mono| |done]. intros fc c H'.
  specialize (Hc fc c H'). lia.
Qed.

Lemma walk_ok_stash n m a f dir l :
  working n a f → carry f dir = [] → incomplete l → n ≤ m → walk_ok m a (Some (stash a f dir l)).
Proof.
  intros Hw Hc Hl Hle. pose proof (incomplete_short _ Hl).
  rewrite stash_short by (done || lia). eexists _, _. split; [done|]. split; [|done].
  apply (working_mono n); [done|]. destruct Hw. split; try done. by apply flow_ok_set_carry.
Qed.

Lemma walk_ok_latched n m a f : working n a f → n ≤ m → walk_ok m a (Some (latched a f)).
Proof.
  intros Hw Hle. eexists _, _. split; [done|]. split; [|done].
  apply (working_mono n); [done|]. destruct Hw as [[] ? ?]. by split.
Qed.

(** One round, given what the rest of the walk does. *)
Lemma walk_round n m a f k dir ts l :
  working n a f → carry f dir = [] → 0 ≤ n → n ≤ m → l ≠ [] →
  (∀ h, parse_mbap_header l = Some h → 8 ≤ 6 + length_field h ≤ zlen l → n < u32_max ∧
     ∀ a' f', working (n + 1) a' f' → carry f' dir = [] → flows a' = flows a →
       walk_ok m a (walk_all a' f' k dir ts (drop (Z.to_nat (6 + length_field h)) l))) →
  walk_ok m a (walk_all a f k dir ts l).
Proof.
  intros Hw Hc Hn Hm Hne Hrest. rewrite walk_all_unfold by done.
  destruct (parse_mbap_header l) as [h|] eqn:Eh.
  2:{ eapply walk_ok_stash; eauto. unfold incomplete. by rewrite Eh. }
  destruct (is_valid_modbus_adu h) eqn:Ev; cbn [negb]; [|by eapply walk_ok_latched].
  pose proof (is_valid_modbus_adu_true _ Ev).
  destruct (Z.ltb_spec (zlen l) (6 + length_field h)).
  { eapply walk_ok_stash; eauto. unfold incomplete. rewrite Eh. by split; [|lia]. }
  destruct (Hrest h eq_refl ltac:(lia)) as [Hlt Hgo].
  rewrite slice_Some by lia. cbn [mbind option_bind]. destruct Hw as [Hf Hcodes Hfi].
  destruct (process_pdu_ok n a f k dir h (function_code h)
    (take (Z.to_nat (6 + length_field h - 0)) (drop (Z.to_nat 0) l)) ts)
    as (a' & f' & fs & -> & F & P & C & B & D & E); [apply Hf|apply Hf|done|lia|].
  cbn [mbind option_bind]. apply Hgo; [|by rewrite (carry_framing f)|done].
  split; [by eapply flow_ok_framing|done|auto].
Qed.

Lemma walk_all_ok j n a f k dir ts l :
  (length l ≤ j)%nat → working n a f → carry f dir = [] → 0 ≤ n → n + zlen l ≤ u32_max →
  walk_ok (n + zlen l) a (walk_all a f k dir ts l).
Proof.
  revert n a f l. induction j as [|j IH]; intros n a f l Hj Hw Hc Hn Hb.
  all: destruct (decide (l = [])) as [->|Hne];
    [rewrite zlen_nil, Z.add_0_r; by eexists _, _|].
  { destruct l; [done|simpl in Hj; lia]. }
  pose proof (zlen_pos _ Hne). apply (walk_round n); try done; [lia|]. intros h _ Hlen.
  split; [lia|]. intros a' f' Hw' Hc' Hfl. set (l' := drop _ l).
  assert (zlen l' = zlen l - (6 + length_field h)) as Hl'
    by (unfold l', zlen in *; rewrite length_drop; lia).
  destruct (IH (n + 1) a' f' l') as (a2 & f2 & E & W & F); [|done|done|lia|lia|].
  - unfold zlen in *. lia.
  - exists a2, f2. split_and!; [done| |congruence]. eapply working_mono; [|done]. lia.
Qed.

(** After a carry, the new PDUs are at most the new bytes. *)
Lemma walk_carry_ok n a f k dir ts c data :
  working n a f → carry f dir = [] → 0 ≤ n → n + zlen data ≤ u32_max → incomplete c →
  walk_ok (n + zlen data) a (walk_all a f k dir ts (c ++ data)).
Proof.
  intros Hw Hc Hn Hb Hinc. pose proof (zlen_nonneg data).
  destruct (decide (c ++ data = [])) as [E|Hne].
  { rewrite E. eexists _, _. split; [done|]. split; [|done]. eapply working_mono; [|done]. lia. }
  apply (walk_round n); try done; [lia|]. intros h Eh Hlen.
  assert (zlen c < 6 + length_field h) as Hshort.
  { unfold incomplete in Hinc. destruct (parse_mbap_header c) as [h'|] eqn:Ec.
    - destruct (parse_mbap_header_Some _ _ Ec) as [_ Hx]. rewrite Hx in Eh. injection Eh as <-.
      apply Hinc.
    - apply parse_mbap_header_None in Ec. lia. }
  rewrite zlen_app in Hlen. split; [lia|]. intros a' f' Hw' Hc' Hfl. set (l' := drop _ _).
  assert (zlen l' = zlen c + zlen data - (6 + length_field h)) as Hl'
    by (unfold l', zlen in *; rewrite length_drop, length_app; lia).
  destruct (walk_all_ok (length l') (n + 1) a' f' k dir ts l') as (a2 & f2 & E & W & F);
    [done|done|done|lia|lia|].
  exists a2, f2. split_and!; [done| |congruence]. eapply working_mono; [|done]. lia.
Qed.

(** The invariant of the analyzer: [n] bounds every checked counter. *)
Record modbus_ok (n : Z) (a : ModbusAnalyzer) : Prop := {
  mo_findings : findings_ok a;
  mo_codes : ∀ fc c, fn_code_counts a !! fc = Some c → c ≤ n;
  mo_flows : ∀ k f, flows a !! k = Some f → flow_ok n f
}.

Lemma modbus_ok_mono n m a : n ≤ m → modbus_ok n a → modbus_ok m a.
Proof.
  intros Hle [Hf Hc Hfl]. split; [done| |].
  - intros fc c H. specialize (Hc fc c H). lia.
  - intros k f H. eapply flow_ok_mono; eauto.
Qed.

Lemma modbus_on_data_ok n a k dir data off ts :
  modbus_ok n a → 0 ≤ n → n + zlen data ≤ u32_max →
  ∃ a', modbus_on_data a k dir data off ts = Some a' ∧ modbus_ok (n + zlen data) a'.
Proof.
  intros [Hfi Hco Hfl] Hn Hb. pose proof (zlen_nonneg data). unfold modbus_on_data.
  set (f := default ModbusFlowState_default (flows a !! k)).
  assert (flow_ok n f) as Hf.
  { unfold f. destruct (flows a !! k) eqn:E; simpl; [by eapply Hfl|apply flow_ok_default]. }
  set (a0 := a <| flows := delete k (flows a) |>).
  assert (∀ a' f', working (n + zlen data) a' f' → flows a' = flows a0 →
    modbus_ok (n + zlen data) (a' <| flows := <[k := f']> (flows a') |>)) as Hdone.
  { intros a' f' [W1 W2 W3] E. split; [done|done|]. simpl. rewrite E. simpl.
    intros k' g [[_ <-]|[? [_ Hg]%lookup_delete_Some]]%lookup_insert_Some; [done|].
    eapply flow_ok_mono; [|by eapply Hfl]. lia. }
  assert (working n a0 f) as Hw by by split.
  destruct (is_non_modbus f).
  { eexists. split; [done|]. apply (Hdone a0); [|done]. eapply working_mono; [|done]. lia. }
  destruct (walk_carry_ok n a0 (set_carry f dir []) k dir ts (carry f dir) data)
    as (a' & f' & E & W & F); [|apply carry_set_carry|done|done|by eapply flow_ok_carry|].
  { split; [by apply flow_ok_set_carry|done|done]. }
  unfold walk_all in E. rewrite E. cbn [mbind option_bind]. eauto.
Qed.

Lemma modbus_on_flow_close_ok n a k reason :
  modbus_ok n a → modbus_ok n (modbus_on_flow_close a k reason).
Proof.
  intros []. split; try done. simpl. intros k' f [_ ?]%lookup_delete_Some. eauto.
Qed.

Lemma modbus_ok_new n burst sustained : modbus_ok n (ModbusAnalyzer_new burst sustained).
Proof. split; [done|intros ??; simpl; by rewrite lookup_empty..]. Qed.

Lemma modbus_replay_ok es n a :
  modbus_ok n a → 0 ≤ n → n + trace_bytes es ≤ u32_max →
  ∃ a', replay (Some a) es = Some a' ∧ modbus_ok (n + trace_bytes es) a'.
Proof.
  intros Ha Hn Hb. destruct (replay_preserves u32_max (λ n a, modbus_ok n a ∧ 0 ≤ n) es n a)
    as (a' & E & Ha' & _); [| |done|done|by exists a'].
  - intros m b k dir data off ts [Hok Hm] Hle.
    destruct (modbus_on_data_ok m b k dir data off ts) as (b' & E & Hb'); [done..|].
    exists b'. split_and!; [done|done|]. pose proof (zlen_nonneg data). lia.
  - intros m b k r [Hok Hm]. eexists. split_and!; [done| |done]. by apply modbus_on_flow_close_ok.
Qed.

(** ** Theorems *)

(** C6. Segmentation does not matter.  Delivering a chunk [d1] and then a
    chunk [d2] of one direction leaves the analyzer in exactly the state that
    delivering [d1 ++ d2] at once does, findings, counters, carry buffers and
    panics included, for every state of the analyzer and every split. *)
Theorem modbus_segmentation_independent a k dir d1 d2 off off' ts :
  modbus_on_data a k dir (d1 ++ d2) off ts =
    (a ← modbus_on_data a k dir d1 off ts; modbus_on_data a k dir d2 off' ts).
Proof.
  unfold modbus_on_data. set (f := default ModbusFlowState_default (flows a !! k)).
  set (a0 := a <| flows := delete k (flows a) |>).
  destruct (is_non_modbus f) eqn:Hm.
  { simpl. rewrite lookup_insert_eq. simpl. rewrite Hm. simpl.
    by rewrite !insert_delete_eq, insert_insert_eq. }
  rewrite app_assoc. fold (walk_all a0 (set_carry f dir []) k dir ts ((carry f dir ++ d1) ++ d2)).
  fold (walk_all a0 (set_carry f dir []) k dir ts (carry f dir ++ d1)).
  rewrite (walk_app (length (carry f dir ++ d1))); [|done|apply carry_set_carry|
    by rewrite is_non_modbus_set_carry].
  destruct (walk_all a0 _ k dir ts (carry f dir ++ d1)) as [[a1 f1]|] eqn:E; [|done].
  apply (walk_all_flows _ _ _ _ _ _ _ _ _ (le_n _)) in E. cbn [mbind option_bind].
  unfold resume. simpl. rewrite lookup_insert_eq. simpl.
  destruct (is_non_modbus f1); simpl.
  - by rewrite E, !insert_delete_eq, insert_insert_eq.
  - fold (walk_all a1 (set_carry f1 dir []) k dir ts (carry f1 dir ++ d2)).
    assert (a1 <| flows := <[k := f1]> (flows a1) |>
               <| flows := delete k (<[k := f1]> (flows a1)) |> = a1) as Ha.
    { rewrite E. simpl. rewrite delete_insert_eq, delete_delete_eq. destruct a1. simpl in *.
      by rewrite E. }
    simpl in Ha. rewrite Ha. done.
Qed.

(** Resource bounds and absence of panics.  Over any sequence of chunks
    and closes totalling at most 2^32 - 1 payload bytes, in any interleaving
    of flows and directions and whatever the bytes are, the analyzer never
    panics; afterwards no flow has more than 256 pending transactions or more
    than 259 carried bytes per direction, and at most 10,000 findings are
    kept. *)
Theorem modbus_bounded burst sustained es :
  trace_bytes es ≤ u32_max →
  ∃ a, replay (Some (ModbusAnalyzer_new burst sustained)) es = Some a ∧
    zlen (all_findings a) ≤ MODBUS_MAX_FINDINGS ∧
    ∀ k f, flows a !! k = Some f →
      Z.of_nat (size (pending f)) ≤ MAX_PENDING_TRANSACTIONS ∧
      zlen (carry_c2s f) ≤ 259 ∧ zlen (carry_s2c f) ≤ 259.
Proof.
  intros Hb. destruct (modbus_replay_ok es 0 (ModbusAnalyzer_new burst sustained))
    as (a & E & [H1 _ H3]); [apply modbus_ok_new|done|lia|].
  exists a. split_and!; [done|done|]. intros k f Hk. destruct (H3 _ _ Hk).
  split_and!; [done|by apply incomplete_short..].
Qed.

(** A write command split over two chunks, then its response. *)
Definition sample_modbus : trace :=
  let k := FlowKey_new (V4 1) 40000 (V4 2) 502 in
  [EData k ClientToServer [0; 7; 0; 0; 0] 1 100;
   EData k ClientToServer [6; 1; 6; 0; 1; 0; 3] 6 100;
   EData k ServerToClient [0; 7; 0; 0; 0; 6; 1; 6; 0; 1; 0; 3] 1 101].

Lemma modbus_bounded_witness :
  ∃ a, replay (Some (ModbusAnalyzer_new 20 10)) sample_modbus = Some a ∧
    zlen (all_findings a) ≤ MODBUS_MAX_FINDINGS ∧ total_pdu_count a = 2 ∧ total_write_count a = 1.
Proof.
  destruct (modbus_bounded 20 10 sample_modbus) as (a & E & H & _).
  - vm_compute. discriminate.
  - exists a. split; [exact E|]. split; [exact H|]. vm_compute in E. injection E as <-.
    vm_compute. split; reflexivity.
Defined.

(** Requests and responses pair up.  A request that is recorded (its key
    is already pending or the table has room) is what the matching response
    takes out again, with the request's function code and time; an exception
    response claims it only if its code is the request's with the high bit
    set, and otherwise leaves the table as it was; other transactions are not
    touched.  A new key that meets a full table leaves the table as it was. *)
Theorem modbus_request_response_pairing f txn unit fc ts efc :
  let key := (txn, unit) in
  let f1 := (insert_request f txn unit fc ts).1 in
  (is_Some (pending f !! key) ∨ Z.of_nat (size (pending f)) < MAX_PENDING_TRANSACTIONS →
    (match_response f1 txn unit).2 = Some (fc, ts) ∧
    pending (match_response f1 txn unit).1 = delete key (pending f) ∧
    attribute_exception f1 txn unit efc =
      (if fc =? Z.land efc 0x7F then ((match_response f1 txn unit).1, Some fc) else (f1, None)) ∧
    ∀ key', key' ≠ key → pending f1 !! key' = pending f !! key') ∧
  (pending f !! key = None → MAX_PENDING_TRANSACTIONS ≤ Z.of_nat (size (pending f)) → f1 = f).
Proof.
  intros key f1. unfold f1, insert_request. fold key. split.
  - intros Hroom.
    assert ((if decide (is_Some (pending f !! key))
             then (f <| pending := <[key := (fc, ts)]> (pending f) |>, pending f !! key)
             else if MAX_PENDING_TRANSACTIONS <=? Z.of_nat (size (pending f)) then (f, None)
             else (f <| pending := <[key := (fc, ts)]> (pending f) |>, pending f !! key)) =
      (f <| pending := <[key := (fc, ts)]> (pending f) |>, pending f !! key)) as ->.
    { case_decide; [done|]. destruct Hroom as [?|?]; [done|].
      by rewrite (proj2 (Z.leb_gt _ _)) by lia. }
    simpl. unfold match_response, attribute_exception. fold key. simpl.
    rewrite lookup_insert_eq, delete_insert_eq. split_and!; [done|done| |].
    + destruct (Z.eqb_spec fc (Z.land efc 127)) as [->|]; done.
    + intros key' ?. by rewrite lookup_insert_ne.
  - intros Hnone Hfull. rewrite decide_False by (by rewrite Hnone; intros []).
    by rewrite (proj2 (Z.leb_le _ _) Hfull).
Qed.

Lemma modbus_request_response_pairing_witness :
  (match_response (insert_request ModbusFlowState_default 7 1 3 100).1 7 1).2 = Some (3, 100).
Proof.
  apply (modbus_request_response_pairing ModbusFlowState_default 7 1 3 100 0x83).
  right. vm_compute. reflexivity.
Defined.

(** The write-burst detector over a run of writes. *)
Fixpoint run_burst (f : ModbusFlowState) (cs : list pdu_context) (threshold : Z) : list Finding :=
  match cs with
  | [] => []
  | c :: cs => let '(f, l) := burst_detector f c threshold in l ++ run_burst f cs threshold
  end.

(** Inside a window that has [n] writes so far. *)
Lemma run_burst_window f cs threshold t :
  Forall (λ c, now c = t) cs → sat_sub t (window_start_ts f) ≤ WRITE_BURST_WINDOW_SECS →
  0 ≤ window_write_count f → window_write_count f + zlen cs ≤ u32_max →
  (window_burst_emitted f = true ↔ threshold < window_write_count f) →
  zlen (run_burst f cs threshold) =
    if decide (window_write_count f ≤ threshold < window_write_count f + zlen cs) then 1 else 0.
Proof.
  intros Hcs. revert f. induction Hcs as [|c cs Hc Hcs IH]; intros f Hw Hn Hb He.
  { unfold zlen. simpl. by rewrite decide_False by lia. }
  rewrite zlen_cons in *. pose proof (zlen_nonneg cs). cbn [run_burst].
  unfold burst_detector. rewrite Hc. rewrite (proj2 (Z.ltb_ge _ _)) by lia. simpl.
  unfold sat_add. rewrite Z.min_r by lia.
  destruct (Z.ltb_spec threshold (window_write_count f + 1)), (window_burst_emitted f) eqn:Eb;
    cbn [andb negb].
  - rewrite app_nil_l, IH; simpl; [|lia|lia|lia|intuition lia].
    assert (threshold < window_write_count f) by by apply He. by rewrite !decide_False by lia.
  - rewrite zlen_app, zlen_cons, zlen_nil, IH; simpl; [|lia|lia|lia|intuition lia].
    assert (¬ threshold < window_write_count f) by (intros ?%He; congruence).
    rewrite decide_False by lia. by rewrite decide_True by lia.
  - assert (threshold < window_write_count f) by by apply He. lia.
  - rewrite app_nil_l, IH; simpl; [|lia|lia|lia|intuition (lia || congruence)].
    apply decide_ext. lia.
Qed.

(** The write-burst alarm is exact: [n] writes in one second on a flow
    whose previous window is over raise exactly one burst finding if [n]
    exceeds the threshold, and none otherwise. *)
Theorem write_burst_exact f cs threshold t :
  Forall (λ c, now c = t) cs → cs ≠ [] →
  WRITE_BURST_WINDOW_SECS < sat_sub t (window_start_ts f) →
  0 < threshold → zlen cs ≤ u32_max →
  zlen (run_burst f cs threshold) = if decide (threshold < zlen cs) then 1 else 0.
Proof.
  intros Hcs Hne Hw Ht Hb. destruct cs as [|c cs]; [done|].
  apply list.Forall_cons in Hcs as [Hc Hcs]. rewrite zlen_cons in *.
  pose proof (zlen_nonneg cs). cbn [run_burst]. unfold burst_detector.
  rewrite Hc, (proj2 (Z.ltb_lt _ _)) by lia. rewrite app_nil_l.
  rewrite (run_burst_window _ cs threshold t); simpl; [|done|unfold sat_sub, WRITE_BURST_WINDOW_SECS; lia|lia|lia|].
  - apply decide_ext. lia.
  - intuition (done || lia).
Qed.

Definition sample_write (t : Z) : pdu_context :=
  mkPduContext (V4 1) (V4 2) ClientToServer (mkMbap 7 0 6 1 6) 6 [] t.

Lemma write_burst_exact_witness :
  zlen (run_burst ModbusFlowState_default (replicate 4 (sample_write 100)) 3) = 1.
Proof.
  apply (write_burst_exact ModbusFlowState_default (replicate 4 (sample_write 100)) 3 100).
  - repeat constructor.
  - discriminate.
  - vm_compute. reflexivity.
  - lia.
  - vm_compute. discriminate.
Defined.

(** The Modbus summary always has seven keys: the six the documentation
    lists and [dropped_transactions]. *)
Theorem modbus_summary_keys a :
  dom (detail (modbus_summarize a)) =
    {["pdu_count"; "write_count"; "exception_count"; "parse_errors"; "dropped_findings";
      "dropped_transactions"; "function_code_distribution"]} ∧
  size (detail (modbus_summarize a)) = 7%nat.
Proof.
  unfold modbus_summarize. cbn [detail]. set (dist := JObj _). split; [|reflexivity].
  rewrite dom_list_to_map_L. simpl. set_solver.
Qed.
