(* ===== verification/Iec104.v ===== *)
(** * The IEC 60870-5-104 analyzer (src/analyzer/iec104.rs)

    APCI framing with a carry buffer per direction, the U-format session
    machine, ASDU parsing and threat detection, the N(S) sequence tracker and
    the flow life cycle.  The translation comes first; the theorems are in
    [Iec104Props].  [debug_assert!] is compiled out of the release profile. *)

From S2P Require Import Prelude FlowKey Handler Findings Dispatcher.

#[local] Open Scope Z_scope.

Record ApciHeader := mkApci {
  start : Z;
  len : Z;
  cf1 : Z;
  cf2 : Z;
  cf3 : Z;
  cf4 : Z
}.

Inductive FrameFormat := IFormat | SFormat | UFormat.

#[global] Instance FrameFormat_eq_dec : EqDecision FrameFormat.
Proof. solve_decision. Defined.

Definition U_STARTDT_ACT : Z := 0x07.
Definition U_STARTDT_CON : Z := 0x0B.
Definition U_STOPDT_ACT : Z := 0x13.
Definition U_STOPDT_CON : Z := 0x23.
Definition U_TESTFR_ACT : Z := 0x43.
Definition U_TESTFR_CON : Z := 0x83.

Definition MAX_IEC104_CARRY_BYTES : Z := 255.
Definition MAX_IEC104_FINDINGS : Z := 10000.

Record Iec104FlowState := mkIecFlow {
  carry_c2s : list Z;
  carry_s2c : list Z;
  session_started : bool;
  last_ns_c2s : option Z;
  last_ns_s2c : option Z;
  malformed_len_reported_c2s : bool;
  malformed_len_reported_s2c : bool;
  carry_overflow_reported_c2s : bool;
  carry_overflow_reported_s2c : bool;
  frame_count : Z
}.

#[global] Instance Iec104FlowState_eta : Eta Iec104FlowState := λ s,
  mkIecFlow (carry_c2s s) (carry_s2c s) (session_started s) (last_ns_c2s s) (last_ns_s2c s)
    (malformed_len_reported_c2s s) (malformed_len_reported_s2c s)
    (carry_overflow_reported_c2s s) (carry_overflow_reported_s2c s) (frame_count s).

(** [Iec104FlowState::default()]. *)
Definition Iec104FlowState_default : Iec104FlowState :=
  mkIecFlow [] [] false None None false false false false 0.

(** Where a finding comes from: direction, sender and capture second. *)
Record origin := mkOrigin {
  from_dir : Direction;
  from_ip : option IpAddr;
  from_ts : option Z
}.

(** ** Frame formats and the U-format session machine *)

Definition classify_frame_format (cf1 : Z) : FrameFormat :=
  if Z.land cf1 0x01 =? 0x00 then IFormat
  else if Z.land cf1 0x03 =? 0x01 then SFormat
  else UFormat.

Definition stopdt_finding (cf1 : Z) (was_started : bool) (o : origin) : Finding := {|
  category := Impact;
  verdict := if was_started then Possible else Likely;
  confidence := Medium;
  summary := [Lit "IEC-104 STOPDT-act received: CF1="; Hex 2 cf1;
              Lit " — ICS data-transfer service stop request observed (T0881 inhibit-response-function; BC-2.19.011/012)"];
  evidence := [Lit "CF1="; Hex 2 cf1; Lit " (STOPDT-act)"] ::
              (if was_started then []
               else [[Lit "STOPDT received without prior STARTDT on this flow"]]);
  mitre_techniques := ["T0881"%string];
  source_ip := from_ip o; timestamp := from_ts o; direction := Some (from_dir o)
|}.

Definition noncanonical_u_finding (cf1 : Z) (o : origin) : Finding := {|
  category := Anomaly; verdict := Possible; confidence := Medium;
  summary := [Lit "IEC-104 non-canonical U-frame CF1="; Hex 2 cf1;
              Lit ": CF1 bits1:0=0b11 but not in canonical set {0x07,0x0B,0x13,0x23,0x43,0x83} — potential CVE-2026-1773 denial-of-service attack (T0814; BC-2.19.014)"];
  evidence := [[Lit "CF1="; Hex 2 cf1;
                Lit " not in canonical U-frame set {STARTDT-act=0x07, STARTDT-con=0x0B, STOPDT-act=0x13, STOPDT-con=0x23, TESTFR-act=0x43, TESTFR-con=0x83}"]];
  mitre_techniques := ["T0814"%string];
  source_ip := from_ip o; timestamp := from_ts o; direction := Some (from_dir o)
|}.

Definition process_u_frame (s : Iec104FlowState) (cf1 : Z) (o : origin) :
    Iec104FlowState * option Finding :=
  if (cf1 =? U_STARTDT_ACT) || (cf1 =? U_STARTDT_CON) then (s <| session_started := true |>, None)
  else if cf1 =? U_STOPDT_ACT then
    let was_started := session_started s in
    (s <| session_started := false |>, Some (stopdt_finding cf1 was_started o))
  else if cf1 =? U_STOPDT_CON then (s <| session_started := false |>, None)
  else if (cf1 =? U_TESTFR_ACT) || (cf1 =? U_TESTFR_CON) then (s, None)
  else (s, Some (noncanonical_u_finding cf1 o)).

(** ** Headers *)

Definition parse_apci_header (data : list Z) : option ApciHeader :=
  match data with
  | b0 :: len :: b2 :: b3 :: b4 :: b5 :: _ =>
      if negb (b0 =? 0x68) then None
      else if len <? 4 then None
      else if 253 <? len then None
      else Some (mkApci 0x68 len b2 b3 b4 b5)
  | _ => None
  end.

Definition is_valid_iec104_frame (data : list Z) : bool :=
  match data with
  | b0 :: len :: _ => (b0 =? 0x68) && (4 <=? len) && (len <=? 253)
  | _ => false
  end.

Record Asdu := mkAsdu {
  type_id : Z;
  sq : bool;
  count : Z;
  cot_cause : Z;
  cot_pn : bool;
  cot_test : bool;
  cot_originator : Z;
  casdu : Z;
  first_ioa : option Z
}.

(** [u32::from_le_bytes([b0, b1, b2, 0])]. *)
Definition u24_le (b0 b1 b2 : Z) : Z := b0 + b1 * 2 ^ 8 + b2 * 2 ^ 16.

Definition parse_asdu (asdu_body : list Z) : option Asdu :=
  match asdu_body with
  | b0 :: b1 :: b2 :: b3 :: b4 :: b5 :: rest =>
      let count := Z.land b1 0x7F in
      Some {| type_id := b0;
              sq := negb (Z.land b1 0x80 =? 0);
              count := count;
              cot_cause := Z.land b2 0x3F;
              cot_pn := negb (Z.land b2 0x40 =? 0);
              cot_test := negb (Z.land b2 0x80 =? 0);
              cot_originator := b3;
              casdu := u16_le b4 b5;
              first_ioa :=
                match rest with
                | b6 :: b7 :: b8 :: _ => if 0 <? count then Some (u24_le b6 b7 b8) else None
                | _ => None
                end |}
  | _ => None
  end.

(** ** Threat detection on an ASDU *)

(** The target-address lines of the evidence. *)
Definition target_lines (a : Asdu) : list text :=
  [Lit "CASDU="; Num (casdu a)] ::
  match first_ioa a with Some ioa => [[Lit "first_ioa="; Num ioa]] | None => [] end.

Definition asdu_finding (c : ThreatCategory) (v : Verdict) (summary : text) (what : text)
    (technique : string) (a : Asdu) (o : origin) : Finding := {|
  category := c; verdict := v; confidence := Medium;
  summary := summary; evidence := what :: target_lines a;
  mitre_techniques := [technique];
  source_ip := from_ip o; timestamp := from_ts o; direction := Some (from_dir o)
|}.

(** The arms of time-tagged set-points, of the reset and of reserved types. *)
Definition tagged_write_threats (a : Asdu) (o : origin) : list Finding :=
  let id := Num (type_id a) in
  [asdu_finding Impact Possible
     [Lit "IEC-104 time-tagged control command TypeID="; id;
      Lit " (C_SE_TA/C_SE_TB/C_SE_TC/C_BO_TA): time-tagged set-point or bitstring write command observed on passive monitor (T1692.001 unauthorized command message; BC-2.19.030)"]
     [Lit "TypeID="; id;
      Lit " is a time-tagged set-point/bitstring write command (C_SE_TA/C_SE_TB/C_SE_TC/C_BO_TA)"]
     "T1692.001" a o;
   asdu_finding Impact Possible
     [Lit "IEC-104 time-tagged parameter modification TypeID="; id;
      Lit " (C_SE_TA/C_SE_TB/C_SE_TC/C_BO_TA): time-tagged set-point or bitstring write modifies ICS control parameters (T0836 modify parameter; BC-2.19.030 postcondition 2)"]
     [Lit "TypeID="; id;
      Lit " is a time-tagged set-point/bitstring write; parameter modification (C_SE_TA/C_SE_TB/C_SE_TC/C_BO_TA)"]
     "T0836" a o].

Definition reset_threats (a : Asdu) (o : origin) : list Finding :=
  [asdu_finding Impact Likely
     [Lit "IEC-104 Reset Process command TypeID=105 (C_RP_NA_1): potential unauthorized RTU/IED process reset observed; adversarial use causes equipment to revert to default state (T0827 loss of control; BC-2.19.020)"]
     [Lit "TypeID=105 (C_RP_NA_1: Reset Process Command)"]
     "T0827" a o].

Definition reserved_threats (a : Asdu) (o : origin) : list Finding :=
  let id := Num (type_id a) in
  [asdu_finding Anomaly Possible
     [Lit "IEC-104 reserved or invalid TypeID="; id;
      Lit ": undefined or private-use TypeID indicates implementation error or adversarial protocol probe (T0814 denial of service; BC-2.19.022)"]
     [Lit "TypeID="; id; Lit " is ";
      Lit (if type_id a =? 0 then "undefined (TypeID 0 has no assigned meaning)"
           else "in the private-use/reserved range [128, 255]");
      Lit " per IEC 60870-5-104"]
     "T0814" a o].

Definition threats_of (a : Asdu) (o : origin) : list Finding :=
  let id := Num (type_id a) in
  if (45 <=? type_id a) && (type_id a <=? 47) then
    [asdu_finding Impact Possible
       [Lit "IEC-104 control command TypeID="; id;
        Lit " (C_SC/C_DC/C_RC): switching control command observed on passive monitor (T1692.001 unauthorized command message; BC-2.19.019)"]
       [Lit "TypeID="; id; Lit " is a switching control command (C_SC/C_DC/C_RC)"]
       "T1692.001" a o]
  else if (48 <=? type_id a) && (type_id a <=? 51) then
    [asdu_finding Impact Possible
       [Lit "IEC-104 control command TypeID="; id;
        Lit " (C_SE/C_BO): set-point or bitstring write command observed on passive monitor (T1692.001 unauthorized command message; BC-2.19.019)"]
       [Lit "TypeID="; id; Lit " is a set-point/bitstring write command (C_SE_NA/NB/NC or C_BO)"]
       "T1692.001" a o;
     asdu_finding Impact Possible
       [Lit "IEC-104 parameter modification TypeID="; id;
        Lit " (C_SE/C_BO): set-point or bitstring write modifies ICS control parameters (T0836 modify parameter; BC-2.19.019 postcondition 2)"]
       [Lit "TypeID="; id; Lit " is a set-point/bitstring write; parameter modification"]
       "T0836" a o]
  else if (58 <=? type_id a) && (type_id a <=? 60) then
    [asdu_finding Impact Possible
       [Lit "IEC-104 time-tagged control command TypeID="; id;
        Lit " (C_SC_TA/C_DC_TA/C_RC_TA): time-tagged switching control command observed on passive monitor (T1692.001 unauthorized command message; BC-2.19.029)"]
       [Lit "TypeID="; id;
        Lit " is a time-tagged switching control command (C_SC_TA/C_DC_TA/C_RC_TA)"]
       "T1692.001" a o]
  else if (61 <=? type_id a) && (type_id a <=? 64) then tagged_write_threats a o
  else if type_id a =? 105 then reset_threats a o
  else if bool_decide (type_id a ∈ [100; 101; 103]) then []
  else if (type_id a =? 0) || ((128 <=? type_id a) && (type_id a <=? 255)) then reserved_threats a o
  else [].

Definition tag_test (f : Finding) : Finding := f <| summary := summary f ++ [Lit " [TEST]"] |>.

(** Only the findings pushed by this call are tagged. *)
Definition detect_iec104_threats (a : Asdu) (findings : list Finding) (o : origin) :
    list Finding :=
  findings ++ (if cot_test a then tag_test <$> threats_of a o else threats_of a o).

(** ** Sequence numbers *)

Definition extract_ns (cf1 cf2 : Z) : Z := Z.lor (Z.shiftr cf1 1) (Z.shiftl cf2 7).
Definition extract_nr (cf3 cf4 : Z) : Z := Z.lor (Z.shiftr cf3 1) (Z.shiftl cf4 7).

Definition last_ns (s : Iec104FlowState) (dir : Direction) : option Z :=
  match dir with ClientToServer => last_ns_c2s s | ServerToClient => last_ns_s2c s end.

Definition set_last_ns (s : Iec104FlowState) (dir : Direction) (ns : Z) : Iec104FlowState :=
  match dir with
  | ClientToServer => s <| last_ns_c2s := Some ns |>
  | ServerToClient => s <| last_ns_s2c := Some ns |>
  end.

Definition desync_finding (current_ns prev gap : Z) (o : origin) : Finding := {|
  category := Impact; verdict := Possible; confidence := Medium;
  summary := [Lit "IEC-104 N(S) sequence desync: N(S)="; Num current_ns; Lit " prev="; Num prev;
              Lit " gap="; Num gap;
              Lit " > k=12 — sequence-number desynchronization detected; possible replay injection or adversarial manipulation (T1692.001 unauthorized command message; BC-2.19.024)"];
  evidence := [[Lit "N(S) gap="; Num gap; Lit " exceeds k=12 window (current_ns=";
                Num current_ns; Lit ", prev_ns="; Num prev; Lit ")"]];
  mitre_techniques := ["T1692.001"%string];
  source_ip := from_ip o; timestamp := from_ts o; direction := Some (from_dir o)
|}.

(** [current_ns.wrapping_sub(prev)] wraps at 16 bits. *)
Definition track_ns_desync (s : Iec104FlowState) (current_ns : Z) (o : origin) :
    Iec104FlowState * option Finding :=
  match last_ns s (from_dir o) with
  | None => (set_last_ns s (from_dir o) current_ns, None)
  | Some prev =>
      let gap := Z.land ((current_ns - prev) mod 2 ^ 16) 0x7FFF in
      (set_last_ns s (from_dir o) current_ns,
       if 12 <? gap then Some (desync_finding current_ns prev gap o) else None)
  end.

(** ** The analyzer *)

Record Iec104Analyzer := mkIecAnalyzer {
  flows : gmap FlowKey Iec104FlowState;
  all_findings : list Finding;
  dropped_findings : Z;
  flows_analyzed : Z;
  total_frames_closed : Z
}.

#[global] Instance Iec104Analyzer_eta : Eta Iec104Analyzer := λ a,
  mkIecAnalyzer (flows a) (all_findings a) (dropped_findings a) (flows_analyzed a)
    (total_frames_closed a).

Definition Iec104Analyzer_new : Iec104Analyzer := mkIecAnalyzer ∅ [] 0 0 0.

(** The sender of this direction, port 2404 being the server's. *)
Definition iec_source_ip (k : FlowKey) (dir : Direction) : IpAddr :=
  let '(client_ip, server_ip) :=
    if lower_port k =? 2404 then (upper_ip k, lower_ip k) else (lower_ip k, upper_ip k) in
  match dir with ClientToServer => client_ip | ServerToClient => server_ip end.

Definition iec_carry (s : Iec104FlowState) (dir : Direction) : list Z :=
  match dir with ClientToServer => carry_c2s s | ServerToClient => carry_s2c s end.

Definition set_iec_carry (s : Iec104FlowState) (dir : Direction) (c : list Z) : Iec104FlowState :=
  match dir with
  | ClientToServer => s <| carry_c2s := c |>
  | ServerToClient => s <| carry_s2c := c |>
  end.

Definition carry_overflow_finding (o : origin) : Finding := {|
  category := Anomaly; verdict := Possible; confidence := Medium;
  summary := [Lit "IEC-104 directional carry residual overflow: carry buffer exceeded MAX_IEC104_CARRY_BYTES=";
              Num MAX_IEC104_CARRY_BYTES;
              Lit " — adversarial or non-conformant byte sequence; carry cleared and analyzer resyncs on next delivery (T0814; BC-2.19.025 v1.3 F-172-001)"];
  evidence := [[Lit "carry overflow (>"; Num MAX_IEC104_CARRY_BYTES; Lit "); carry cleared"]];
  mitre_techniques := ["T0814"%string];
  source_ip := from_ip o; timestamp := from_ts o; direction := Some (from_dir o)
|}.

(** The check of the carry before the walk. *)
Definition check_carry_overflow (s : Iec104FlowState) (o : origin) :
    Iec104FlowState * list Finding :=
  if MAX_IEC104_CARRY_BYTES <? zlen (iec_carry s (from_dir o)) then
    let s := set_iec_carry s (from_dir o) [] in
    match from_dir o with
    | ClientToServer =>
        if carry_overflow_reported_c2s s then (s, [])
        else (s <| carry_overflow_reported_c2s := true |>, [carry_overflow_finding o])
    | ServerToClient =>
        if carry_overflow_reported_s2c s then (s, [])
        else (s <| carry_overflow_reported_s2c := true |>, [carry_overflow_finding o])
    end
  else (s, []).

Definition malformed_len_finding (len pos : Z) (o : origin) : Finding := {|
  category := Anomaly; verdict := Possible; confidence := Medium;
  summary := [Lit "IEC-104 malformed LEN byte: 0x68 start byte followed by LEN="; HexLower 2 len;
              Lit " ("; Num len;
              Lit ") outside valid range [4, 253] — protocol anomaly or adversarial framing attack (T0814; BC-2.19.026 invariant 5)"];
  evidence := [[Lit "LEN="; Num len; Lit " not in [4, 253]; start byte=0x68 at buffer offset ";
                Num pos]];
  mitre_techniques := ["T0814"%string];
  source_ip := from_ip o; timestamp := from_ts o; direction := Some (from_dir o)
|}.

(** The malformed-LEN arm: one finding per direction and flow. *)
Definition report_malformed_len (s : Iec104FlowState) (len pos : Z) (o : origin) :
    Iec104FlowState * list Finding :=
  match from_dir o with
  | ClientToServer =>
      if malformed_len_reported_c2s s then (s, [])
      else (s <| malformed_len_reported_c2s := true |>, [malformed_len_finding len pos o])
  | ServerToClient =>
      if malformed_len_reported_s2c s then (s, [])
      else (s <| malformed_len_reported_s2c := true |>, [malformed_len_finding len pos o])
  end.

(** What one complete frame does; [&frame[6..]] panics on a shorter frame. *)
Definition process_frame (s : Iec104FlowState) (frame : list Z) (found : list Finding)
    (o : origin) : panicky (Iec104FlowState * list Finding) :=
  match parse_apci_header frame with
  | None => Some (s, found)
  | Some header =>
      let s := s <| frame_count := sat_add u64_max (frame_count s) 1 |> in
      match classify_frame_format (cf1 header) with
      | UFormat =>
          let '(s, f) := process_u_frame s (cf1 header) o in
          Some (s, found ++ option_list f)
      | IFormat =>
          asdu_body ← slice frame 6 (zlen frame);
          let found :=
            match parse_asdu asdu_body with
            | Some asdu => detect_iec104_threats asdu found o
            | None => found
            end in
          let ns := extract_ns (cf1 header) (cf2 header) in
          let '(s, f) := track_ns_desync s ns o in
          Some (s, found ++ option_list f)
      | SFormat => Some (s, found)
      end
  end.

(** The [while pos < buf.len()] loop; [remaining] is [&buf[pos..]].  Every
    round consumes at least one byte, so the length of the buffer is enough
    fuel. *)
Fixpoint iec_walk (fuel : nat) (s : Iec104FlowState) (found : list Finding) (pos : Z)
    (remaining : list Z) (o : origin) : panicky (Iec104FlowState * list Finding) :=
  match remaining with
  | [] => Some (s, found)
  | b0 :: rest =>
    match fuel with
    | O => None
    | S fuel =>
      if negb (b0 =? 0x68) then iec_walk fuel s found (pos + 1) rest o else
      match rest with
      | [] =>
          Some (set_iec_carry s (from_dir o) (iec_carry s (from_dir o) ++ remaining), found)
      | len :: _ =>
          if negb ((4 <=? len) && (len <=? 253)) then
            let '(s, new) := report_malformed_len s len pos o in
            iec_walk fuel s (found ++ new) (pos + 2) (drop 2 remaining) o
          else
            let frame_len := len + 2 in
            if zlen remaining <? frame_len then
              Some (set_iec_carry s (from_dir o) (iec_carry s (from_dir o) ++ remaining), found)
            else
              frame ← slice remaining 0 frame_len;
              '(s, found) ← process_frame s frame found o;
              iec_walk fuel s found (pos + frame_len) (drop (Z.to_nat frame_len) remaining) o
      end
    end
  end.

(** The findings cap at the end of [on_data]. *)
Definition extend_findings (a : Iec104Analyzer) (local_findings : list Finding) :
    Iec104Analyzer :=
  let remaining_cap := sat_sub MAX_IEC104_FINDINGS (zlen (all_findings a)) in
  let a := if remaining_cap <? zlen local_findings
           then a <| dropped_findings := sat_add u64_max (dropped_findings a)
                                           (zlen local_findings - remaining_cap) |>
           else a in
  let local_findings := if remaining_cap <? zlen local_findings
                        then truncate remaining_cap local_findings else local_findings in
  a <| all_findings := all_findings a ++ local_findings |>.

Definition iec_on_data (a : Iec104Analyzer) (k : FlowKey) (data : list Z) (ts : Z)
    (dir : Direction) : panicky Iec104Analyzer :=
  let o := mkOrigin dir (Some (iec_source_ip k dir)) (Some ts) in
  let s := default Iec104FlowState_default (flows a !! k) in
  let '(s, found) := check_carry_overflow s o in
  let buf := iec_carry s dir ++ data in
  let s := set_iec_carry s dir [] in
  '(s, found) ← iec_walk (length buf) s found 0 buf o;
  Some (extend_findings (a <| flows := <[k := s]> (flows a) |>) found).

Definition iec_on_flow_close (a : Iec104Analyzer) (k : FlowKey) : Iec104Analyzer :=
  match flows a !! k with
  | Some flow =>
      a <| flows := delete k (flows a) |>
        <| flows_analyzed := sat_add u64_max (flows_analyzed a) 1 |>
        <| total_frames_closed := sat_add u64_max (total_frames_closed a) (frame_count flow) |>
  | None => a
  end.

(** As one of the dispatcher's analyzers; [None] is an analyzer that has
    panicked. *)
#[global] Instance iec104_analyzer : FlowAnalyzer (option Iec104Analyzer) := {
  flow_on_data oa k data ts dir := a ← oa; iec_on_data a k data ts dir;
  flow_on_close oa k := (λ a, iec_on_flow_close a k) <$> oa
}.

Definition iec_summarize (a : Iec104Analyzer) : panicky AnalysisSummary :=
  open_frames ← checked_sum (frame_count <$> (map_to_list (flows a)).*2);
  Some {|
    analyzer_name := "IEC-104";
    packets_analyzed := sat_add u64_max (total_frames_closed a) open_frames;
    detail := list_to_map [
      ("dropped_findings"%string, JNum (dropped_findings a));
      ("flows_analyzed"%string,
        JNum (sat_add u64_max (flows_analyzed a) (Z.of_nat (size (flows a)))));
      ("total_findings"%string, JNum (zlen (all_findings a)))]
  |}.
