(* ===== verification/Iec104Props.v ===== *)
(** * Properties of the IEC-104 analyzer

    The APCI and sequence-number codecs, the frame walk and its independence
    of how the stream is cut, detection of control commands, and the resource
    bounds. *)

From S2P Require Import Prelude FlowKey Handler Findings Dispatcher Iec104.

#[local] Open Scope Z_scope.

(** ** Codecs *)

(** The six bytes a header stands for. *)
Definition print_apci (h : ApciHeader) : list Z := [start h; len h; cf1 h; cf2 h; cf3 h; cf4 h].

Lemma parse_apci_header_spec l h :
  parse_apci_header l = Some h ↔
  start h = 0x68 ∧ 4 ≤ len h ≤ 253 ∧ ∃ rest, l = print_apci h ++ rest.
Proof.
  split.
  - do 6 (destruct l as [|? l]; [done|]). unfold parse_apci_header.
    destruct (Z.eqb_spec z 0x68) as [->|]; cbn [negb]; [|done].
    destruct (Z.ltb_spec z0 4); [done|]. destruct (Z.ltb_spec 253 z0); [done|].
    intros [= <-]. simpl. split_and!; [done|lia|lia|by exists l].
  - destruct h as [b len c1 c2 c3 c4]. simpl. intros (-> & Hl & rest & ->). simpl.
    by rewrite (proj2 (Z.ltb_ge _ _)), (proj2 (Z.ltb_ge _ _)) by lia.
Qed.

(** The control octets an I-format frame carries a sequence number in. *)
Definition print_ns (ns : Z) : Z * Z := (Z.land (Z.shiftl ns 1) 0xFF, Z.shiftr ns 7).

Lemma lor_shift_add a b : 0 ≤ a < 2 ^ 7 → Z.lor a (Z.shiftl b 7) = a + b * 2 ^ 7.
Proof.
  intros Ha. rewrite <- Z.shiftl_mul_pow2 by lia.
  assert (Z.land a (Z.shiftl b 7) = 0) as Hz.
  { apply Z.bits_inj'. intros n Hn. rewrite Z.land_spec, Z.bits_0.
    destruct (Z.ltb_spec n 7).
    - by rewrite Z.shiftl_spec_low, andb_false_r by lia.
    - rewrite (Z.bits_above_log2 a n); [done|lia|]. destruct (decide (a = 0)) as [->|];
        [simpl; lia|]. apply Z.log2_lt_pow2; [lia|]. assert (2 ^ 7 ≤ 2 ^ n); [|lia].
      apply Z.pow_le_mono_r; lia. }
  pose proof (Z.add_lor_land a (Z.shiftl b 7)) as H. lia.
Qed.

Lemma extract_ns_add c1 c2 : is_u8 c1 → extract_ns c1 c2 = c1 / 2 + c2 * 128.
Proof.
  intros H. unfold extract_ns. rewrite lor_shift_add.
  - rewrite Z.shiftr_div_pow2 by lia. done.
  - rewrite Z.shiftr_div_pow2 by lia. unfold is_u8, u8_max in H. change (2 ^ 1) with 2.
    pose proof (Z.div_lt_upper_bound c1 2 128). pose proof (Z.div_pos c1 2). lia.
Qed.

Lemma print_ns_div ns : print_ns ns = ((2 * ns) mod 256, ns / 128).
Proof.
  unfold print_ns. change 0xFF with (Z.ones 8). rewrite Z.land_ones by lia.
  rewrite Z.shiftl_mul_pow2, Z.shiftr_div_pow2 by lia. f_equal. f_equal. lia.
Qed.

Lemma classify_frame_format_I c : classify_frame_format c = IFormat ↔ c mod 2 = 0.
Proof.
  unfold classify_frame_format. change 0x01 with (Z.ones 1) at 1. rewrite Z.land_ones by lia.
  change (2 ^ 1) with 2. destruct (Z.eqb_spec (c mod 2) 0).
  - done.
  - destruct (_ =? _); done.
Qed.

(** The gap of [track_ns_desync] is the distance modulo 2^15. *)
Lemma ns_gap a b : Z.land ((a - b) mod 2 ^ 16) 0x7FFF = (a - b) mod 2 ^ 15.
Proof.
  change 0x7FFF with (Z.ones 15). rewrite Z.land_ones by lia.
  apply Z.mod_mod_divide. exists 2. lia.
Qed.

Lemma last_ns_set s dir ns : last_ns (set_last_ns s dir ns) dir = Some ns.
Proof. by destruct dir. Qed.

Lemma last_ns_set_ne s dir dir' ns : dir' ≠ dir → last_ns (set_last_ns s dir ns) dir' = last_ns s dir'.
Proof. by destruct dir, dir'. Qed.

(** The tracker over the N(S) of consecutive I-frames of one direction. *)
Fixpoint run_ns (s : Iec104FlowState) (l : list Z) (o : origin) :
    Iec104FlowState * list Finding :=
  match l with
  | [] => (s, [])
  | ns :: l =>
      let '(s, f) := track_ns_desync s ns o in
      let '(s, fs) := run_ns s l o in (s, option_list f ++ fs)
  end.

(** The jumps of more than [k = 12] numbers, modulo 2^15. *)
Fixpoint jumps (prev : Z) (l : list Z) : list (Z * Z * Z) :=
  match l with
  | [] => []
  | ns :: l =>
      let gap := (ns - prev) mod 2 ^ 15 in
      (if decide (12 < gap) then [(ns, prev, gap)] else []) ++ jumps ns l
  end.

Definition jump_finding (o : origin) (j : Z * Z * Z) : Finding :=
  desync_finding j.1.1 j.1.2 j.2 o.

Lemma run_ns_jumps o l s prev :
  last_ns s (from_dir o) = Some prev → (run_ns s l o).2 = jump_finding o <$> jumps prev l.
Proof.
  revert s prev. induction l as [|ns l IH]; intros s prev Hs; [done|].
  cbn [run_ns jumps]. unfold track_ns_desync. rewrite Hs, ns_gap.
  specialize (IH _ ns (last_ns_set s (from_dir o) ns)).
  destruct (run_ns (set_last_ns _ _ _) l o) as [s' fs]. simpl in *. rewrite fmap_app, <- IH.
  f_equal. change (2 ^ 15) with 32768.
  destruct (Z.ltb_spec 12 ((ns - prev) mod 32768)); case_decide; done || lia.
Qed.

Lemma run_ns_other o l s dir : dir ≠ from_dir o → last_ns (run_ns s l o).1 dir = last_ns s dir.
Proof.
  intros Hd. revert s. induction l as [|ns l IH]; intros s; [done|]. cbn [run_ns].
  unfold track_ns_desync.
  specialize (IH (set_last_ns s (from_dir o) ns)). rewrite last_ns_set_ne in IH by done.
  destruct (last_ns s (from_dir o)); destruct (run_ns (set_last_ns _ _ _) l o); done.
Qed.

(** ** What frames leave alone *)

Record untouched (s s' : Iec104FlowState) : Prop := {
  un_c2s : carry_c2s s' = carry_c2s s;
  un_s2c : carry_s2c s' = carry_s2c s;
  un_overflow_c2s : carry_overflow_reported_c2s s' = carry_overflow_reported_c2s s;
  un_overflow_s2c : carry_overflow_reported_s2c s' = carry_overflow_reported_s2c s
}.

#[global] Instance untouched_preorder : PreOrder untouched.
Proof. split; [by split|]. intros ??? [] []. split; congruence. Qed.

Lemma untouched_carry s s' dir : untouched s s' → iec_carry s' dir = iec_carry s dir.
Proof. intros []. by destruct dir. Qed.

Lemma iec_carry_set s dir c : iec_carry (set_iec_carry s dir c) dir = c.
Proof. by destruct dir. Qed.

Lemma iec_carry_set_ne s dir dir' c :
  dir' ≠ dir → iec_carry (set_iec_carry s dir c) dir' = iec_carry s dir'.
Proof. by destruct dir, dir'. Qed.

Lemma set_iec_carry_set s dir c c' :
  set_iec_carry (set_iec_carry s dir c) dir c' = set_iec_carry s dir c'.
Proof. by destruct dir. Qed.

Lemma set_iec_carry_nil s dir : iec_carry s dir = [] → set_iec_carry s dir [] = s.
Proof. destruct dir, s; simpl; by intros ->. Qed.

(** The malformed-LEN flag of a direction. *)
Definition malformed_flag (s : Iec104FlowState) (dir : Direction) : bool :=
  match dir with
  | ClientToServer => malformed_len_reported_c2s s
  | ServerToClient => malformed_len_reported_s2c s
  end.

Definition is_malformed (f : Finding) : bool :=
  bool_decide (head (summary f) =
    Some (Lit "IEC-104 malformed LEN byte: 0x68 start byte followed by LEN=")).

(** What one frame does to the state and adds to the findings. *)
Record frame_effect (s s' : Iec104FlowState) (new : list Finding) (o : origin) : Prop := {
  fe_untouched : untouched s s';
  fe_flag : ∀ dir, malformed_flag s' dir = malformed_flag s dir;
  fe_count : frame_count s' ≤ frame_count s + 1;
  fe_new : Forall (λ f, is_malformed f = false ∧ direction f = Some (from_dir o)) new
}.

Lemma process_u_frame_effect s c o :
  let '(s', f) := process_u_frame s c o in
  untouched s s' ∧ (∀ dir, malformed_flag s' dir = malformed_flag s dir) ∧
  frame_count s' = frame_count s ∧
  Forall (λ f, is_malformed f = false ∧ direction f = Some (from_dir o)) (option_list f).
Proof.
  unfold process_u_frame. repeat case_match; simplify_eq; split_and!;
    try done; try (by intros []); by repeat constructor.
Qed.

Lemma track_ns_effect s ns o :
  let '(s', f) := track_ns_desync s ns o in
  untouched s s' ∧ (∀ dir, malformed_flag s' dir = malformed_flag s dir) ∧
  frame_count s' = frame_count s ∧
  Forall (λ f, is_malformed f = false ∧ direction f = Some (from_dir o)) (option_list f).
Proof.
  unfold track_ns_desync, set_last_ns. destruct (last_ns s (from_dir o)); destruct (from_dir o) eqn:E;
    try destruct (_ <? _); simpl; rewrite ?E; split_and!;
    try done; try (by intros []); repeat constructor; simpl; by rewrite ?E.
Qed.

Lemma threats_of_plain a o :
  Forall (λ f, is_malformed f = false ∧ direction f = Some (from_dir o)) (threats_of a o).
Proof. unfold threats_of, tagged_write_threats, reset_threats, reserved_threats. repeat case_match; by repeat constructor. Qed.

Lemma tagged_plain a o :
  Forall (λ f, is_malformed f = false ∧ direction f = Some (from_dir o)) (tag_test <$> threats_of a o).
Proof. unfold threats_of, tagged_write_threats, reset_threats, reserved_threats. repeat case_match; by repeat constructor. Qed.

Lemma process_frame_effect s frame o :
  6 ≤ zlen frame →
  ∃ s' new, (∀ found, process_frame s frame found o = Some (s', found ++ new)) ∧
    frame_effect s s' new o.
Proof.
  intros H6. unfold process_frame. destruct (parse_apci_header frame) as [h|].
  2:{ exists s, []. split; [intros; by rewrite app_nil_r|]. split; try done. lia. }
  set (s0 := s <| frame_count := _ |>).
  assert (untouched s s0) as U0 by done.
  assert (∀ dir, malformed_flag s0 dir = malformed_flag s dir) as M0 by (by intros []).
  assert (frame_count s0 ≤ frame_count s + 1) as C0 by (unfold s0, sat_add; simpl; lia).
  destruct (classify_frame_format (cf1 h)).
  - rewrite slice_Some by lia. cbn [mbind option_bind].
    pose proof (track_ns_effect s0 (extract_ns (cf1 h) (cf2 h)) o) as H.
    destruct (track_ns_desync s0 _ o) as [s1 f]. destruct H as (U & M & C & F).
    set (body := take _ _).
    exists s1, (match parse_asdu body with Some a => detect_iec104_threats a [] o | None => [] end ++ option_list f).
    split.
    + intros found. rewrite app_assoc. destruct (parse_asdu body); [done|]. by rewrite app_nil_r.
    + split; [by etrans|intros; congruence|lia|]. apply Forall_app. split; [|done].
      destruct (parse_asdu body) as [a|]; [|done]. unfold detect_iec104_threats. simpl.
      destruct (cot_test a); [apply tagged_plain|apply threats_of_plain].
  - exists s0, []. split; [intros; by rewrite app_nil_r|]. by split.
  - pose proof (process_u_frame_effect s0 (cf1 h) o) as H.
    destruct (process_u_frame s0 _ o) as [s1 f]. destruct H as (U & M & C & F).
    exists s1, (option_list f). split; [done|]. split; [by etrans|intros; congruence|lia|done].
Qed.

Lemma report_malformed_len_effect s n pos o :
  let '(s', new) := report_malformed_len s n pos o in
  untouched s s' ∧ frame_count s' = frame_count s ∧ malformed_flag s' (from_dir o) = true ∧
  (∀ dir, dir ≠ from_dir o → malformed_flag s' dir = malformed_flag s dir) ∧
  new = if malformed_flag s (from_dir o) then [] else [malformed_len_finding n pos o].
Proof.
  unfold report_malformed_len. destruct (from_dir o) eqn:Ed; simpl.
  - destruct (malformed_len_reported_c2s s) eqn:Em; split_and!; try done; by intros [].
  - destruct (malformed_len_reported_s2c s) eqn:Em; split_and!; try done; by intros [].
Qed.

(** ** The frame walk as a relation

    The walk also threads the position in the buffer, which only shows in the
    evidence of the malformed-LEN finding.  [forget_offset] drops it. *)

Definition forget_offset (f : Finding) : Finding :=
  match evidence f with
  | [[Lit a; Num n; Lit b; Num _]] =>
      if String.eqb a "LEN=" then f <| evidence := [[Lit a; Num n; Lit b; Num 0]] |> else f
  | _ => f
  end.

Definition forget_offsets {A} (r : option (A * list Finding)) : option (A * list Finding) :=
  (λ p : A * list Finding, (p.1, forget_offset <$> p.2)) <$> r.

Definition stashed (s : Iec104FlowState) (dir : Direction) (rest : list Z) : Iec104FlowState :=
  set_iec_carry s dir (iec_carry s dir ++ rest).

(** [scan o s l s' f]: walking the bytes [l] from [s] ends in [s'] with the
    findings [f]. *)
Inductive scan (o : origin) :
    Iec104FlowState → list Z → Iec104FlowState → list Finding → Prop :=
  | scan_nil s : scan o s [] s []
  | scan_skip s b l s' f : b ≠ 0x68 → scan o s l s' f → scan o s (b :: l) s' f
  | scan_stub s : scan o s [0x68] (stashed s (from_dir o) [0x68]) []
  | scan_malformed s n l s1 new s' f :
      ¬ (4 ≤ n ≤ 253) → report_malformed_len s n 0 o = (s1, new) → scan o s1 l s' f →
      scan o s (0x68 :: n :: l) s' ((forget_offset <$> new) ++ f)
  | scan_partial s n l :
      4 ≤ n ≤ 253 → zlen l < n →
      scan o s (0x68 :: n :: l) (stashed s (from_dir o) (0x68 :: n :: l)) []
  | scan_frame s n body l s1 new s' f :
      4 ≤ n ≤ 253 → zlen body = n → process_frame s (0x68 :: n :: body) [] o = Some (s1, new) →
      scan o s1 l s' f →
      scan o s (0x68 :: n :: body ++ l) s' ((forget_offset <$> new) ++ f).

#[global] Hint Constructors scan : core.

Lemma process_frame_found s frame found o s1 new :
  6 ≤ zlen frame → process_frame s frame [] o = Some (s1, new) →
  process_frame s frame found o = Some (s1, found ++ new) ∧ frame_effect s s1 new o.
Proof.
  intros H6 E. destruct (process_frame_effect s frame o H6) as (s' & new' & Hp & He).
  rewrite Hp in E. simplify_eq. by rewrite Hp.
Qed.

(** The walk reaches the end of every buffer. *)
Lemma scan_total o s l : ∃ s' f, scan o s l s' f.
Proof.
  assert (∀ n s l, (length l ≤ n)%nat → ∃ s' f, scan o s l s' f) as H; [|by eapply H].
  clear. intros n. induction n as [|n IH]; intros s l Hl.
  { destruct l; [eauto|simpl in Hl; lia]. }
  destruct l as [|b l]; [eauto|]. simpl in Hl.
  destruct (decide (b = 0x68)) as [->|Hb].
  2:{ destruct (IH s l) as (s' & f & ?); [lia|]. eauto. }
  destruct l as [|m l]; [eauto|]. simpl in Hl.
  destruct (decide (4 ≤ m ≤ 253)) as [Hm|Hm].
  2:{ destruct (report_malformed_len s m 0 o) as [s1 new] eqn:E.
      destruct (IH s1 l) as (s' & f & ?); [lia|]. eauto. }
  destruct (decide (zlen l < m)); [eauto|].
  assert (zlen (take (Z.to_nat m) l) = m) as Ht
    by (unfold zlen in *; rewrite length_take; lia).
  destruct (process_frame_effect s (0x68 :: m :: take (Z.to_nat m) l) o) as (s1 & new & Hp & _).
  { zlia. }
  destruct (IH s1 (drop (Z.to_nat m) l)) as (s' & f & Hs); [rewrite length_drop; lia|].
  rewrite <- (take_drop (Z.to_nat m) l). eauto.
Qed.

Lemma report_malformed_len_pos s n pos o s1 new :
  report_malformed_len s n 0 o = (s1, new) →
  ∃ new', report_malformed_len s n pos o = (s1, new') ∧
    forget_offset <$> new' = forget_offset <$> new.
Proof.
  unfold report_malformed_len. repeat case_match; intros; simplify_eq; by eexists.
Qed.

(** The code's loop computes the relation, from any position, with any
    findings so far and any sufficient fuel. *)
Lemma scan_walk o s l s' f n pos found :
  scan o s l s' f → (length l ≤ n)%nat →
  forget_offsets (iec_walk n s found pos l o) = Some (s', (forget_offset <$> found) ++ f).
Proof.
  intros Hs. revert n pos found.
  induction Hs as [s|s b l s' f Hb Hs IH|s|s m l s1 new s' f Hm Hr Hs IH|s m l Hm Hl
    |s m body l s1 new s' f Hm Hl Hp Hs IH]; intros n pos found Hn;
    (destruct n as [|n]; [try (simpl in Hn; lia)|]); cbn [iec_walk];
    try (simpl; by rewrite app_nil_r).
  - by rewrite (proj2 (Z.eqb_neq _ _) Hb); apply IH; simpl in Hn; lia.
  - rewrite Z.eqb_refl. cbn [negb].
    assert ((4 <=? m) && (m <=? 253) = false) as -> by lia. cbn [negb].
    destruct (report_malformed_len_pos s m pos o s1 new Hr) as (new' & -> & E).
    change (drop 2 (0x68 :: m :: l)) with l. rewrite IH by (simpl in Hn; lia).
    by rewrite fmap_app, E, (assoc app).
  - rewrite Z.eqb_refl. cbn [negb]. assert ((4 <=? m) && (m <=? 253) = true) as -> by lia.
    cbn [negb]. rewrite (proj2 (Z.ltb_lt _ _)) by zlia.
    simpl. by rewrite app_nil_r.
  - rewrite Z.eqb_refl. cbn [negb]. assert ((4 <=? m) && (m <=? 253) = true) as -> by lia.
    cbn [negb]. rewrite (proj2 (Z.ltb_ge _ _))
      by zlia.
    change (0x68 :: m :: body ++ l) with ((0x68 :: m :: body) ++ l).
    assert (Z.to_nat (m + 2) = length (0x68 :: m :: body)) as Hlen
      by (unfold zlen in Hl; simpl; lia).
    rewrite slice_Some by zlia.
    cbn [mbind option_bind]. rewrite Z.sub_0_r, drop_0, Hlen, take_app_length, drop_app_length.
    destruct (process_frame_found s (0x68 :: m :: body) found o s1 new) as [-> _];
      [zlia|done|].
    cbn [mbind option_bind]. rewrite IH by (simpl in Hn; rewrite length_app in Hn; lia).
    by rewrite fmap_app, (assoc app).
Qed.

Lemma untouched_report s n pos o s1 new : report_malformed_len s n pos o = (s1, new) → untouched s s1.
Proof. intros E. pose proof (report_malformed_len_effect s n pos o) as H. rewrite E in H. apply H. Qed.

Lemma untouched_frame s n body o s1 new :
  4 ≤ n → zlen body = n → process_frame s (0x68 :: n :: body) [] o = Some (s1, new) →
  frame_effect s s1 new o.
Proof.
  intros ?? E. eapply (process_frame_found s _ []); [|exact E]. rewrite !zlen_cons. lia.
Qed.

(** Walking two chunks one after the other is walking their concatenation. *)
Lemma scan_app o s l1 s1 f1 l2 s2 f2 :
  scan o s l1 s1 f1 → iec_carry s (from_dir o) = [] →
  scan o (set_iec_carry s1 (from_dir o) []) (iec_carry s1 (from_dir o) ++ l2) s2 f2 →
  scan o s (l1 ++ l2) s2 (f1 ++ f2).
Proof.
  induction 1 as [s|s b l s' f Hb Hs IH|s|s m l s1 new s' f Hm Hr Hs IH|s m l Hm Hl
    |s m body l s1 new s' f Hm Hl Hp Hs IH]; intros Hc H2; simpl.
  - by rewrite Hc, set_iec_carry_nil in H2.
  - eauto.
  - unfold stashed in H2. by rewrite set_iec_carry_set, iec_carry_set, Hc, set_iec_carry_nil in H2.
  - rewrite <- (assoc app). econstructor; [done..|]. apply IH; [|done].
    by rewrite (untouched_carry s _ _ (untouched_report _ _ _ _ _ _ Hr)).
  - unfold stashed in H2. by rewrite set_iec_carry_set, iec_carry_set, Hc, set_iec_carry_nil in H2.
  - rewrite <- !(assoc app). econstructor; [done..|]. apply IH; [|done].
    rewrite (untouched_carry s); [done|]. eapply fe_untouched, untouched_frame, Hp; lia.
Qed.

(** ** Bounds of a walk *)

Definition is_malformed_in (dir : Direction) (f : Finding) : Prop :=
  is_malformed f = true ∧ direction f = Some dir.

#[global] Instance is_malformed_in_dec dir f : Decision (is_malformed_in dir f).
Proof. unfold is_malformed_in. apply _. Defined.

(** How many malformed-LEN findings of a direction a list holds. *)
Definition malformed_count (dir : Direction) (l : list Finding) : Z :=
  zlen (filter (is_malformed_in dir) l).

Lemma malformed_count_app dir l1 l2 :
  malformed_count dir (l1 ++ l2) = malformed_count dir l1 + malformed_count dir l2.
Proof. unfold malformed_count. by rewrite filter_app, zlen_app. Qed.

Lemma forget_offset_malformed dir f :
  is_malformed_in dir (forget_offset f) ↔ is_malformed_in dir f.
Proof. unfold forget_offset. by repeat case_match. Qed.

Lemma malformed_count_forget dir l :
  malformed_count dir (forget_offset <$> l) = malformed_count dir l.
Proof.
  unfold malformed_count. induction l as [|f l IH]; [done|]. cbn [fmap list_fmap].
  pose proof (forget_offset_malformed dir f). rewrite !filter_cons.
  do 2 case_decide; rewrite ?zlen_cons, ?IH; tauto.
Qed.

Lemma malformed_count_none dir o l :
  Forall (λ f, is_malformed f = false ∧ direction f = Some (from_dir o)) l →
  malformed_count dir l = 0.
Proof.
  induction 1 as [|f l [E _] _ IH]; [done|]. unfold malformed_count in *.
  rewrite filter_cons, decide_False; [done|]. intros [? _]. congruence.
Qed.

Lemma malformed_count_one dir n pos o :
  malformed_count dir [malformed_len_finding n pos o] = if decide (dir = from_dir o) then 1 else 0.
Proof.
  unfold malformed_count. rewrite filter_cons. unfold is_malformed_in. simpl.
  case_decide as H1; case_decide as H2; try done; exfalso.
  - destruct H1 as [_ [= ?]]. congruence.
  - apply H1. by subst.
Qed.

Record scan_effect (o : origin) (s : Iec104FlowState) (l : list Z) (s' : Iec104FlowState)
    (f : list Finding) : Prop := {
  se_short : zlen (iec_carry s' (from_dir o)) ≤ 254;
  se_other : ∀ dir, dir ≠ from_dir o → iec_carry s' dir = iec_carry s dir;
  se_overflow_c2s : carry_overflow_reported_c2s s' = carry_overflow_reported_c2s s;
  se_overflow_s2c : carry_overflow_reported_s2c s' = carry_overflow_reported_s2c s;
  se_frames : frame_count s' + zlen (iec_carry s' (from_dir o)) ≤ frame_count s + zlen l;
  se_malformed : ∀ dir,
    malformed_count dir f + Z.b2z (malformed_flag s dir) ≤ Z.b2z (malformed_flag s' dir)
}.

(** A round that consumes [n] bytes and leaves the carries alone. *)
Lemma scan_effect_step o s s1 l n new s' f :
  untouched s s1 → frame_count s1 ≤ frame_count s + n →
  (∀ dir, malformed_count dir new + Z.b2z (malformed_flag s dir) ≤ Z.b2z (malformed_flag s1 dir)) →
  scan_effect o s1 l s' f →
  ∀ l', zlen l' = n + zlen l → scan_effect o s l' s' ((forget_offset <$> new) ++ f).
Proof.
  intros U C M [E1 E2 E3 E4 E5 E6] l' Hl. split; [done| | | |lia|].
  - intros dir Hd. rewrite E2 by done. by apply untouched_carry.
  - rewrite E3. apply U.
  - rewrite E4. apply U.
  - intros dir. rewrite malformed_count_app, malformed_count_forget.
    specialize (M dir). specialize (E6 dir). lia.
Qed.

Lemma scan_effect_stash o s l :
  iec_carry s (from_dir o) = [] → zlen l ≤ 254 →
  scan_effect o s l (stashed s (from_dir o) l) [].
Proof.
  intros Hc Hl. unfold stashed. rewrite Hc. split.
  - by rewrite iec_carry_set.
  - intros dir Hd. by apply iec_carry_set_ne.
  - by destruct (from_dir o).
  - by destruct (from_dir o).
  - rewrite iec_carry_set. by destruct (from_dir o).
  - intros dir. by destruct (from_dir o), dir.
Qed.

Lemma scan_has_effect o s l s' f :
  scan o s l s' f → iec_carry s (from_dir o) = [] → scan_effect o s l s' f.
Proof.
  induction 1 as [s|s b l s' f Hb Hs IH|s|s m l s1 new s' f Hm Hr Hs IH|s m l Hm Hl
    |s m body l s1 new s' f Hm Hl Hp Hs IH]; intros Hc.
  - split; try done. + by rewrite Hc. + rewrite Hc. lia.
  - destruct (IH Hc). split; try done. rewrite zlen_cons. lia.
  - by apply scan_effect_stash.
  - pose proof (report_malformed_len_effect s m 0 o) as H. rewrite Hr in H.
    destruct H as (U & C & M1 & M2 & ->).
    eapply (scan_effect_step o s s1 l 2); [done|lia| | |zlia].
    + intros dir. destruct (decide (dir = from_dir o)) as [->|Hd].
      * rewrite M1. destruct (malformed_flag s (from_dir o)); [done|].
        by rewrite malformed_count_one, decide_True.
      * rewrite M2 by done. destruct (malformed_flag s (from_dir o)); [done|].
        by rewrite malformed_count_one, decide_False.
    + apply IH. by rewrite (untouched_carry s).
  - apply scan_effect_stash; [done|]. rewrite !zlen_cons. lia.
  - assert (frame_effect s s1 new o) as [U M C F] by (eapply untouched_frame, Hp; lia).
    pose proof (zlen_nonneg body).
    eapply (scan_effect_step o s s1 l (2 + m)); [done|lia| | |].
    + intros dir. rewrite M, (malformed_count_none dir o) by done. lia.
    + apply IH. by rewrite (untouched_carry s).
    + rewrite !zlen_cons, zlen_app. lia.
Qed.

(** ** The analyzer *)

(** The analyzer up to the buffer offsets in the evidence. *)
Definition view (a : Iec104Analyzer) : Iec104Analyzer :=
  a <| all_findings := forget_offset <$> all_findings a |>.

Definition origin_of (k : FlowKey) (dir : Direction) (ts : Z) : origin :=
  mkOrigin dir (Some (iec_source_ip k dir)) (Some ts).

Definition flow_of (a : Iec104Analyzer) (k : FlowKey) : Iec104FlowState :=
  default Iec104FlowState_default (flows a !! k).

Lemma view_extend a l : view (extend_findings a l) = extend_findings (view a) (forget_offset <$> l).
Proof.
  unfold extend_findings, view. simpl. rewrite !zlen_fmap, !truncate_fmap.
  destruct (_ <? _); simpl; by rewrite fmap_app.
Qed.

(** Capping twice is capping the concatenation. *)
Lemma extend_findings_app a l1 l2 :
  extend_findings (extend_findings a l1) l2 = extend_findings a (l1 ++ l2).
Proof.
  destruct a as [fl af d fa tf]. unfold extend_findings, truncate, sat_sub, sat_add. simpl.
  rewrite zlen_app. pose proof (zlen_nonneg l1). pose proof (zlen_nonneg l2).
  pose proof (zlen_nonneg af). set (cap := Z.max 0 (MAX_IEC104_FINDINGS - zlen af)).
  destruct (Z.ltb_spec cap (zlen l1)) as [L1|L1]; simpl; rewrite zlen_app.
  - assert (zlen (take (Z.to_nat cap) l1) = cap) as ->
      by (unfold zlen in *; rewrite length_take; lia).
    assert (Z.max 0 (MAX_IEC104_FINDINGS - (zlen af + cap)) = 0) as -> by lia.
    rewrite (proj2 (Z.ltb_lt cap (zlen l1 + zlen l2))) by lia.
    rewrite take_app_le by (unfold zlen in *; lia).
    destruct (Z.ltb_spec 0 (zlen l2)) as [L2|L2]; simpl; f_equal; try lia; [by rewrite app_nil_r|].
    assert (zlen l2 = 0) as L0 by lia. unfold zlen in L0. destruct l2; [|simpl in L0; lia].
    by rewrite app_nil_r.
  - assert (Z.max 0 (MAX_IEC104_FINDINGS - (zlen af + zlen l1)) = cap - zlen l1) as -> by lia.
    destruct (Z.ltb_spec (cap - zlen l1) (zlen l2)) as [L2|L2]; simpl.
    + rewrite (proj2 (Z.ltb_lt cap (zlen l1 + zlen l2))) by lia. simpl. f_equal.
      * rewrite <- app_assoc. f_equal. rewrite take_app_ge by (unfold zlen in *; lia).
        f_equal. f_equal. unfold zlen in *. lia.
      * f_equal. lia.
    + rewrite (proj2 (Z.ltb_ge cap (zlen l1 + zlen l2))) by lia. simpl. f_equal.
      by rewrite <- app_assoc.
Qed.

Lemma check_carry_short s o :
  zlen (iec_carry s (from_dir o)) ≤ 255 → check_carry_overflow s o = (s, []).
Proof.
  intros H. unfold check_carry_overflow, MAX_IEC104_CARRY_BYTES.
  by rewrite (proj2 (Z.ltb_ge _ _)) by lia.
Qed.

(** [on_data] is the check, the walk and the capped append. *)
Lemma iec_on_data_scan a k data ts dir s1 l0 s2 f :
  check_carry_overflow (flow_of a k) (origin_of k dir ts) = (s1, l0) →
  scan (origin_of k dir ts) (set_iec_carry s1 dir []) (iec_carry s1 dir ++ data) s2 f →
  ∃ found, iec_on_data a k data ts dir =
      Some (extend_findings (a <| flows := <[k := s2]> (flows a) |>) found) ∧
    forget_offset <$> found = (forget_offset <$> l0) ++ f.
Proof.
  intros Hc Hs. unfold iec_on_data. fold (flow_of a k). fold (origin_of k dir ts). rewrite Hc.
  apply (scan_walk _ _ _ _ _ (length (iec_carry s1 dir ++ data)) 0 l0) in Hs; [|done].
  destruct (iec_walk _ _ l0 0 _ _) as [[s found]|]; [|done].
  unfold forget_offsets in Hs. simpl in Hs. simplify_eq. cbn [mbind option_bind].
  eexists. split; [done|]. congruence.
Qed.

(** Up to offsets, [on_data] is a function of the analyzer up to offsets. *)
Lemma iec_on_data_view a b k data ts dir :
  view a = view b → view <$> iec_on_data a k data ts dir = view <$> iec_on_data b k data ts dir.
Proof.
  intros Hv. assert (flows a = flows b) as Hf by (apply (f_equal flows) in Hv; exact Hv).
  destruct (check_carry_overflow (flow_of a k) (origin_of k dir ts)) as [s1 l0] eqn:Ec.
  destruct (scan_total (origin_of k dir ts) (set_iec_carry s1 dir []) (iec_carry s1 dir ++ data))
    as (s2 & f & Hs).
  destruct (iec_on_data_scan a k data ts dir s1 l0 s2 f) as (fa & -> & Ea); [done..|].
  destruct (iec_on_data_scan b k data ts dir s1 l0 s2 f) as (fb & -> & Eb);
    [unfold flow_of; by rewrite <- Hf|done|].
  cbn [fmap option_fmap option_map]. rewrite !view_extend, Ea, Eb. f_equal. f_equal.
  change ((view a) <| flows := <[k:=s2]> (flows a) |> = (view b) <| flows := <[k:=s2]> (flows b) |>).
  by rewrite Hv, Hf.
Qed.

(** A list of chunks of one direction. *)
Fixpoint feed (a : Iec104Analyzer) (k : FlowKey) (dir : Direction) (ts : Z)
    (chunks : list (list Z)) : panicky Iec104Analyzer :=
  match chunks with
  | [] => Some a
  | c :: cs => a ← iec_on_data a k c ts dir; feed a k dir ts cs
  end.

(** Two chunks and their concatenation. *)
Lemma iec_on_data_app a k dir ts d1 d2 :
  view <$> (a ← iec_on_data a k d1 ts dir; iec_on_data a k d2 ts dir) =
  view <$> iec_on_data a k (d1 ++ d2) ts dir.
Proof.
  set (o := origin_of k dir ts). assert (from_dir o = dir) as Ho by done.
  destruct (check_carry_overflow (flow_of a k) o) as [s1 l0] eqn:Ec.
  set (s := set_iec_carry s1 dir []). assert (iec_carry s dir = []) as Hs0 by apply iec_carry_set.
  destruct (scan_total o s (iec_carry s1 dir ++ d1)) as (s2 & f1 & Hs1).
  destruct (scan_total o (set_iec_carry s2 dir []) (iec_carry s2 dir ++ d2)) as (s3 & f2 & Hs2).
  pose proof (scan_app o s _ s2 f1 d2 s3 f2 Hs1 Hs0 Hs2) as Hs. rewrite <- (assoc app) in Hs.
  destruct (scan_has_effect o s _ s2 f1 Hs1 Hs0) as [Hshort _ _ _ _ _].
  destruct (iec_on_data_scan a k d1 ts dir s1 l0 s2 f1) as (g1 & -> & E1); [done..|].
  destruct (iec_on_data_scan a k (d1 ++ d2) ts dir s1 l0 s3 (f1 ++ f2)) as (g & -> & E); [done..|].
  cbn [mbind option_bind]. set (a1 := extend_findings _ g1).
  assert (flows a1 = <[k := s2]> (flows a)) as Hf1
    by (unfold a1, extend_findings; simpl; by destruct (_ <? _)).
  destruct (iec_on_data_scan a1 k d2 ts dir s2 [] s3 f2) as (g2 & -> & E2).
  { unfold flow_of. rewrite Hf1, lookup_insert_eq. apply check_carry_short. rewrite Ho in Hshort. simpl. lia. }
  { done. }
  cbn [fmap option_fmap option_map]. f_equal. rewrite !view_extend, E, E2, Hf1, insert_insert_eq.
  cbn [fmap list_fmap app]. unfold a1.
  assert (∀ b m l, (view (extend_findings b l)) <| flows := m |> =
    extend_findings (view (b <| flows := m |>)) (forget_offset <$> l)) as Hx.
  { intros b m l. rewrite view_extend. unfold extend_findings. simpl. by destruct (_ <? _). }
  change (extend_findings ((view (extend_findings (a <| flows := <[k:=s2]> (flows a) |>) g1))
    <| flows := <[k:=s3]> (flows a) |>) f2 =
    extend_findings (view (a <| flows := <[k:=s3]> (flows a) |>)) ((forget_offset <$> l0) ++ f1 ++ f2)).
  by rewrite Hx, E1, extend_findings_app, <- (assoc app).
Qed.

Lemma feed_view a b k dir ts chunks :
  view a = view b → view <$> feed a k dir ts chunks = view <$> feed b k dir ts chunks.
Proof.
  revert a b. induction chunks as [|c cs IH]; intros a b Hv; simpl; [by rewrite Hv|].
  pose proof (iec_on_data_view a b k c ts dir Hv) as H.
  destruct (iec_on_data a k c ts dir) as [a'|], (iec_on_data b k c ts dir) as [b'|];
    simpl in *; try done. apply IH. congruence.
Qed.

Lemma feed_concat a k dir ts c cs :
  view <$> feed a k dir ts (c :: cs) = view <$> iec_on_data a k (c ++ concat cs) ts dir.
Proof.
  revert a c. induction cs as [|c' cs IH]; intros a c.
  { simpl. rewrite app_nil_r. by destruct (iec_on_data _ _ _ _ _). }
  cbn [concat]. rewrite <- iec_on_data_app. cbn [feed].
  destruct (iec_on_data a k c ts dir) as [a'|]; [|done]. cbn [mbind option_bind]. apply IH.
Qed.

(** ** Streams of complete frames *)

Definition frame_wf (frame : list Z) : Prop :=
  ∃ n body, frame = 0x68 :: n :: body ∧ 4 ≤ n ≤ 253 ∧ zlen body = n.

Fixpoint run_frames (s : Iec104FlowState) (frames : list (list Z)) (o : origin) :
    panicky (Iec104FlowState * list Finding) :=
  match frames with
  | [] => Some (s, [])
  | fr :: frames =>
      '(s, new) ← process_frame s fr [] o;
      '(s, more) ← run_frames s frames o;
      Some (s, new ++ more)
  end.

Lemma scan_frames o frames s :
  Forall frame_wf frames →
  ∃ s' f, run_frames s frames o = Some (s', f) ∧ untouched s s' ∧
    scan o s (concat frames) s' (forget_offset <$> f).
Proof.
  intros Hw. revert s. induction Hw as [|fr frames (n & body & -> & Hn & Hb) Hw IH]; intros s.
  { exists s, []. split_and!; [done|done|constructor]. }
  destruct (process_frame_effect s (0x68 :: n :: body) o) as (s1 & new & Hp & He).
  { zlia. }
  destruct (IH s1) as (s' & f & Hr & U & Hs). exists s', (new ++ f).
  cbn [run_frames]. rewrite Hp. cbn [mbind option_bind]. rewrite Hr. split_and!; [done| |].
  - etrans; [apply He|done].
  - rewrite fmap_app. cbn [concat]. rewrite <- app_comm_cons, <- app_comm_cons.
    eapply scan_frame; [done|done|apply Hp|done].
Qed.

Lemma feed_frames a k dir ts chunks frames :
  Forall frame_wf frames → iec_carry (flow_of a k) dir = [] → chunks ≠ [] →
  concat chunks = concat frames →
  ∃ s' found, run_frames (flow_of a k) frames (origin_of k dir ts) = Some (s', found) ∧
    untouched (flow_of a k) s' ∧
    view <$> feed a k dir ts chunks =
      Some (view (extend_findings (a <| flows := <[k := s']> (flows a) |>) found)).
Proof.
  intros Hw Hc Hne Heq. destruct chunks as [|c cs]; [done|]. rewrite feed_concat.
  change (c ++ concat cs) with (concat (c :: cs)). rewrite Heq.
  destruct (scan_frames (origin_of k dir ts) frames (flow_of a k) Hw) as (s' & f & Hr & U & Hs).
  exists s', f. split_and!; [done|done|].
  destruct (iec_on_data_scan a k (concat frames) ts dir (flow_of a k) [] s' (forget_offset <$> f))
    as (g & -> & E).
  - apply check_carry_short. simpl. by rewrite Hc.
  - by rewrite Hc, set_iec_carry_nil.
  - simpl. f_equal. by rewrite !view_extend, E.
Qed.

(** ** The analyzer invariant *)

#[local] Existing Instance flow_handler.

(** Frames seen plus bytes carried: at most one per byte received. *)
Definition flow_weight (s : Iec104FlowState) : Z :=
  frame_count s + zlen (carry_c2s s) + zlen (carry_s2c s).

Record iec_flow_ok (s : Iec104FlowState) : Prop := {
  fo_c2s : zlen (carry_c2s s) ≤ 254;
  fo_s2c : zlen (carry_s2c s) ≤ 254;
  fo_overflow_c2s : carry_overflow_reported_c2s s = false;
  fo_overflow_s2c : carry_overflow_reported_s2c s = false;
  fo_frames : 0 ≤ frame_count s
}.

Record iec_ok (n : Z) (a : Iec104Analyzer) : Prop := {
  io_findings : zlen (all_findings a) ≤ MAX_IEC104_FINDINGS;
  io_flows : ∀ k s, flows a !! k = Some s → iec_flow_ok s;
  io_closed : 0 ≤ total_frames_closed a;
  io_weight : total_frames_closed a + map_sum flow_weight (flows a) ≤ n
}.

Lemma iec_ok_mono n m a : n ≤ m → iec_ok n a → iec_ok m a.
Proof. intros ? []. split; try done. lia. Qed.

Lemma iec_flow_ok_default : iec_flow_ok Iec104FlowState_default.
Proof. by split. Qed.

Lemma flow_weight_nonneg s : iec_flow_ok s → 0 ≤ flow_weight s.
Proof.
  intros []. unfold flow_weight. zlia.
Qed.

Lemma extend_findings_cap a l :
  zlen (all_findings a) ≤ MAX_IEC104_FINDINGS →
  zlen (all_findings (extend_findings a l)) ≤ MAX_IEC104_FINDINGS.
Proof.
  intros Ha. unfold extend_findings, sat_sub. simpl. pose proof (zlen_nonneg l).
  destruct (Z.ltb_spec (Z.max 0 (MAX_IEC104_FINDINGS - zlen (all_findings a))) (zlen l)); simpl;
    rewrite zlen_app; [|lia].
  unfold truncate, zlen in *. rewrite length_take. lia.
Qed.

Lemma extend_findings_rest a l :
  flows (extend_findings a l) = flows a ∧
  total_frames_closed (extend_findings a l) = total_frames_closed a.
Proof. unfold extend_findings. by destruct (_ <? _). Qed.

(** Frames are never uncounted. *)
Lemma process_frame_count s frame o s' new :
  process_frame s frame [] o = Some (s', new) → 0 ≤ frame_count s → 0 ≤ frame_count s'.
Proof.
  unfold process_frame. destruct (parse_apci_header frame) as [h|]; [|by intros [= <- _]].
  set (s0 := s <| frame_count := _ |>). intros E Hs.
  assert (0 ≤ frame_count s0) as H0 by (unfold s0, sat_add; simpl; ulia).
  destruct (classify_frame_format (cf1 h)).
  - destruct (slice frame 6 (zlen frame)); [|done]. cbn [mbind option_bind] in E.
    pose proof (track_ns_effect s0 (extract_ns (cf1 h) (cf2 h)) o) as H.
    destruct (track_ns_desync s0 _ o) as [s1 f]. simplify_eq. destruct H as (_ & _ & -> & _). done.
  - by simplify_eq.
  - pose proof (process_u_frame_effect s0 (cf1 h) o) as H.
    destruct (process_u_frame s0 _ o) as [s1 f]. simplify_eq. destruct H as (_ & _ & -> & _). done.
Qed.

Lemma scan_count_nonneg o s l s' f : scan o s l s' f → 0 ≤ frame_count s → 0 ≤ frame_count s'.
Proof.
  induction 1 as [| |s|s m l s1 new s' f Hm Hr Hs IH|s m l Hm Hl
    |s m body l s1 new s' f Hm Hl Hp Hs IH]; intros Hc; auto.
  - by destruct (from_dir o).
  - pose proof (report_malformed_len_effect s m 0 o) as H. rewrite Hr in H.
    apply IH. destruct H as (_ & -> & _). done.
  - by destruct (from_dir o).
  - apply IH. by eapply process_frame_count.
Qed.

Lemma iec_flow_ok_carry s dir : iec_flow_ok s → zlen (iec_carry s dir) ≤ 254.
Proof. intros []. by destruct dir. Qed.

(** One chunk on a good flow. *)
Lemma scan_flow_ok o s data s' f :
  iec_flow_ok s →
  scan o (set_iec_carry s (from_dir o) []) (iec_carry s (from_dir o) ++ data) s' f →
  iec_flow_ok s' ∧ flow_weight s' ≤ flow_weight s + zlen data.
Proof.
  intros Hs Hsc. pose proof (scan_count_nonneg _ _ _ _ _ Hsc) as Hn.
  destruct (scan_has_effect _ _ _ _ _ Hsc) as [E1 E2 E3 E4 E5 _]; [apply iec_carry_set|].
  destruct Hs. rewrite zlen_app in E5. unfold flow_weight.
  destruct (from_dir o); simpl in *.
  - specialize (E2 ServerToClient ltac:(done)). simpl in E2. rewrite E2 in *.
    split; [split; rewrite ?E2, ?E3, ?E4; auto|lia].
  - specialize (E2 ClientToServer ltac:(done)). simpl in E2. rewrite E2 in *.
    split; [split; rewrite ?E2, ?E3, ?E4; auto|lia].
Qed.

Lemma iec_on_data_ok n a k data ts dir :
  iec_ok n a → ∃ a', iec_on_data a k data ts dir = Some a' ∧ iec_ok (n + zlen data) a'.
Proof.
  intros [Hf Hfl Hcl Hw]. set (s := flow_of a k).
  assert (iec_flow_ok s) as Hs.
  { unfold s, flow_of. destruct (flows a !! k) eqn:E; [by eapply Hfl|apply iec_flow_ok_default]. }
  set (o := origin_of k dir ts).
  destruct (scan_total o (set_iec_carry s dir []) (iec_carry s dir ++ data)) as (s' & f & Hsc).
  destruct (scan_flow_ok o s data s' f Hs Hsc) as [Hs' Hw'].
  destruct (iec_on_data_scan a k data ts dir s [] s' f) as (g & -> & _); [|done|].
  { apply check_carry_short. pose proof (iec_flow_ok_carry s dir Hs). simpl. fold s. lia. }
  eexists. split; [done|].
  destruct (extend_findings_rest (a <| flows := <[k := s']> (flows a) |>) g) as [F1 F2].
  split; [by apply extend_findings_cap|..]; rewrite ?F1, ?F2; simpl.
  - intros k' t [[_ <-]|[_ ?]]%lookup_insert_Some; [done|by eapply Hfl].
  - done.
  - unfold s, flow_of in Hw'. destruct (flows a !! k) as [t|] eqn:E.
    + rewrite (map_sum_insert _ _ _ _ _ E). simpl in Hw'. lia.
    + rewrite map_sum_insert_fresh by done. change (flow_weight (default _ None)) with 0 in Hw'. lia.
Qed.

Lemma iec_on_flow_close_ok n a k : iec_ok n a → iec_ok n (iec_on_flow_close a k).
Proof.
  intros [Hf Hfl Hcl Hw]. unfold iec_on_flow_close. destruct (flows a !! k) as [s|] eqn:E; [|done].
  pose proof (Hfl _ _ E) as Hs. assert (0 ≤ frame_count s) by apply Hs.
  assert (frame_count s ≤ flow_weight s).
  { unfold flow_weight. zlia. }
  split; simpl; [done| |unfold sat_add; ulia|].
  - intros k' t [_ ?]%lookup_delete_Some. by eapply Hfl.
  - rewrite (map_sum_delete _ _ _ _ E). unfold sat_add. lia.
Qed.

Lemma iec_ok_new : iec_ok 0 Iec104Analyzer_new.
Proof. split; try done. Qed.

Lemma iec_replay_ok es n a :
  iec_ok n a → ∃ a', replay (Some a) es = Some a' ∧ iec_ok (n + trace_bytes es) a'.
Proof.
  intros Ha. apply (replay_preserves (n + trace_bytes es) iec_ok); [| |done|done].
  - intros. by apply iec_on_data_ok.
  - intros m b k r Hb. eexists. split; [done|]. by apply iec_on_flow_close_ok.
Qed.

Lemma frames_le_weight (m : gmap FlowKey Iec104FlowState) : map_sum frame_count m ≤ map_sum flow_weight m.
Proof.
  induction m as [|k s m Hk IH] using map_ind; [done|].
  rewrite !map_sum_insert_fresh by done. unfold flow_weight at 1.
  zlia.
Qed.

(** The summary of a good analyzer. *)
Lemma iec_summarize_ok n a :
  iec_ok n a → n ≤ u64_max →
  ∃ s, iec_summarize a = Some s ∧
    packets_analyzed s = total_frames_closed a + map_sum frame_count (flows a).
Proof.
  intros [Hf Hfl Hcl Hw] Hn.
  assert (∀ k s, flows a !! k = Some s → 0 ≤ frame_count s) as Hp by (intros ?? ?%Hfl; by destruct H).
  pose proof (frames_le_weight (flows a)) as Hle.
  unfold iec_summarize, checked_sum.
  rewrite checked_sum_Some; rewrite ?sum_map_to_list; [| |lia].
  - cbn [mbind option_bind]. eexists. split; [done|]. simpl. unfold sat_add. lia.
  - apply list.Forall_fmap, list.Forall_fmap, list.Forall_forall. intros [k s] Hin.
    apply elem_of_map_to_list in Hin. simpl. by eapply Hp.
Qed.

(** ** Reporting a malformed LEN once *)

Lemma malformed_count_take dir n l : malformed_count dir (take n l) ≤ malformed_count dir l.
Proof.
  rewrite <- (take_drop n l) at 2. rewrite malformed_count_app.
  unfold malformed_count. zlia.
Qed.

Lemma malformed_count_extend dir a l :
  malformed_count dir (all_findings (extend_findings a l)) ≤
    malformed_count dir (all_findings a) + malformed_count dir l.
Proof.
  unfold extend_findings. destruct (_ <? _); simpl; rewrite malformed_count_app; [|lia].
  pose proof (malformed_count_take dir (Z.to_nat (sat_sub MAX_IEC104_FINDINGS (zlen (all_findings a)))) l).
  unfold truncate. lia.
Qed.

Lemma check_carry_malformed s o s1 l0 dir :
  check_carry_overflow s o = (s1, l0) →
  malformed_flag s1 dir = malformed_flag s dir ∧ malformed_count dir l0 = 0.
Proof.
  unfold check_carry_overflow, set_iec_carry.
  repeat case_match; intros; simplify_eq; by destruct dir.
Qed.

Lemma malformed_flag_set_carry s d c dir :
  malformed_flag (set_iec_carry s d c) dir = malformed_flag s dir.
Proof. by destruct d, dir. Qed.

Lemma iec_on_data_malformed a k data ts d dir :
  ∃ a', iec_on_data a k data ts d = Some a' ∧
    malformed_count dir (all_findings a') + Z.b2z (malformed_flag (flow_of a k) dir) ≤
    malformed_count dir (all_findings a) + Z.b2z (malformed_flag (flow_of a' k) dir).
Proof.
  destruct (check_carry_overflow (flow_of a k) (origin_of k d ts)) as [s1 l0] eqn:Ec.
  destruct (check_carry_malformed _ _ _ _ dir Ec) as [Hf0 Hl0].
  destruct (scan_total (origin_of k d ts) (set_iec_carry s1 d []) (iec_carry s1 d ++ data))
    as (s2 & f & Hs).
  destruct (iec_on_data_scan a k data ts d s1 l0 s2 f Ec Hs) as (g & -> & Eg).
  eexists. split; [done|]. set (a0 := a <| flows := _ |>).
  destruct (extend_findings_rest a0 g) as [F1 _].
  pose proof (malformed_count_extend dir a0 g) as Hx. simpl in Hx.
  unfold flow_of at 2. rewrite F1. simpl. rewrite lookup_insert_eq. simpl.
  destruct (scan_has_effect _ _ _ _ _ Hs) as [_ _ _ _ _ Hm]; [apply iec_carry_set|].
  specialize (Hm dir). rewrite malformed_flag_set_carry, Hf0 in Hm.
  apply (f_equal (malformed_count dir)) in Eg.
  rewrite malformed_count_app, !malformed_count_forget, Hl0 in Eg. lia.
Qed.

(** Data events of one flow. *)
Definition flow_data (k : FlowKey) (e : event) : Prop :=
  match e with EData k' _ _ _ _ => k' = k | EClose _ _ => False end.

Lemma iec_replay_malformed es a k dir :
  Forall (flow_data k) es →
  ∃ a', replay (Some a) es = Some a' ∧
    malformed_count dir (all_findings a') + Z.b2z (malformed_flag (flow_of a k) dir) ≤
    malformed_count dir (all_findings a) + Z.b2z (malformed_flag (flow_of a' k) dir).
Proof.
  intros Hes. revert a. induction Hes as [|e es He Hes IH]; intros a.
  { exists a. split; [done|lia]. }
  destruct e as [k' d data off ts|]; [|done]. simpl in He. subst k'.
  destruct (iec_on_data_malformed a k data ts d dir) as (a1 & E1 & H1).
  destruct (IH a1) as (a2 & E2 & H2). exists a2. split; [|lia].
  unfold replay in *. simpl. by rewrite E1.
Qed.

(** ** Detection of control commands *)

(** The control-direction type identifications. *)
Definition control_type (t : Z) : Prop := 45 ≤ t ≤ 51 ∨ 58 ≤ t ≤ 64.

Definition control_frame (frame : list Z) : Prop :=
  match parse_apci_header frame, parse_asdu (drop 6 frame) with
  | Some h, Some asdu => classify_frame_format (cf1 h) = IFormat ∧ control_type (type_id asdu)
  | _, _ => False
  end.

(** A finding that reports an unauthorized command from [o]. *)
Definition reports_command (o : origin) (f : Finding) : Prop :=
  "T1692.001"%string ∈ mitre_techniques f ∧ source_ip f = from_ip o ∧
  timestamp f = from_ts o ∧ direction f = Some (from_dir o).

Lemma threats_of_control a o :
  control_type (type_id a) → Exists (reports_command o) (threats_of a o).
Proof.
  intros Ht. unfold threats_of, tagged_write_threats, reset_threats, reserved_threats, control_type in *.
  destruct ((45 <=? type_id a) && (type_id a <=? 47)) eqn:E1; [by repeat constructor|].
  destruct ((48 <=? type_id a) && (type_id a <=? 51)) eqn:E2; [by repeat constructor|].
  destruct ((58 <=? type_id a) && (type_id a <=? 60)) eqn:E3; [by repeat constructor|].
  destruct ((61 <=? type_id a) && (type_id a <=? 64)) eqn:E4; [by repeat constructor|]. lia.
Qed.

Lemma process_frame_control s frame o :
  frame_wf frame → control_frame frame →
  ∃ s' new, process_frame s frame [] o = Some (s', new) ∧ Exists (reports_command o) new.
Proof.
  intros (n & body & -> & Hn & Hb) Hc. unfold control_frame in Hc. unfold process_frame.
  destruct (parse_apci_header _) as [h|]; [|done].
  destruct (parse_asdu (drop 6 _)) as [a|] eqn:Ea; [|done]. destruct Hc as [-> Ht].
  rewrite slice_Some by zlia. cbn [mbind option_bind].
  rewrite take_ge by (rewrite length_drop; unfold zlen in *; simpl in *; lia).
  change (Z.to_nat 6) with 6%nat. rewrite Ea.
  destruct (track_ns_desync _ _ _) as [s1 f]. eexists _, _. split; [done|].
  apply Exists_app. left. unfold detect_iec104_threats. simpl.
  pose proof (threats_of_control a o Ht) as H. destruct (cot_test a); [|done].
  apply list.Exists_exists in H as (x & Hin & Hx). apply list.Exists_exists.
  exists (tag_test x). split; [|done]. apply list_elem_of_fmap. eauto.
Qed.

(** Every frame adds at most three findings. *)
Lemma process_frame_few s frame o s' new :
  process_frame s frame [] o = Some (s', new) → zlen new ≤ 3.
Proof.
  unfold process_frame. destruct (parse_apci_header frame) as [h|]; [|by intros [= _ <-]].
  destruct (classify_frame_format (cf1 h)).
  - destruct (slice _ _ _); [|done]. cbn [mbind option_bind]. destruct (track_ns_desync _ _ _) as [? f].
    intros [= _ <-]. rewrite zlen_app.
    assert (zlen (option_list f) ≤ 1) by by destruct f.
    assert (∀ a, zlen (threats_of a o) ≤ 2) as Ht by (intros a; unfold threats_of, tagged_write_threats, reset_threats, reserved_threats; by repeat case_match).
    destruct (parse_asdu _) as [a|]; [|change (zlen []) with 0; lia].
    specialize (Ht a). unfold detect_iec104_threats. simpl.
    destruct (cot_test a); rewrite ?zlen_fmap; lia.
  - by intros [= _ <-].
  - destruct (process_u_frame _ _ _) as [? f]. intros [= _ <-]. by destruct f.
Qed.

Lemma run_frames_few s frames o s' f :
  run_frames s frames o = Some (s', f) → zlen f ≤ 3 * zlen frames.
Proof.
  revert s f. induction frames as [|fr frames IH]; intros s f; simpl; [by intros [= _ <-]|].
  destruct (process_frame s fr [] o) as [[s1 new]|] eqn:E1; [|done]. cbn [mbind option_bind].
  destruct (run_frames s1 frames o) as [[s2 more]|] eqn:E2; [|done]. cbn [mbind option_bind].
  intros [= <- <-]. apply process_frame_few in E1. apply IH in E2. rewrite zlen_app, zlen_cons. lia.
Qed.

Lemma run_frames_control s frames o s' f frame :
  Forall frame_wf frames → frame ∈ frames → control_frame frame →
  run_frames s frames o = Some (s', f) → Exists (reports_command o) f.
Proof.
  intros Hw Hin Hc. revert s f. induction Hw as [|fr frames Hfr Hw IH]; intros s f; simpl.
  { by apply not_elem_of_nil in Hin. }
  destruct (process_frame s fr [] o) as [[s1 new]|] eqn:E1; [|done]. cbn [mbind option_bind].
  destruct (run_frames s1 frames o) as [[s2 more]|] eqn:E2; [|done]. cbn [mbind option_bind].
  intros [= <- <-]. apply Exists_app. apply elem_of_cons in Hin as [->|Hin].
  - left. destruct (process_frame_control s fr o Hfr Hc) as (? & ? & E & H). by simplify_eq.
  - right. by eapply IH.
Qed.

Lemma extend_findings_room a l :
  zlen (all_findings a) + zlen l ≤ MAX_IEC104_FINDINGS →
  all_findings (extend_findings a l) = all_findings a ++ l.
Proof.
  intros H. unfold extend_findings, sat_sub.
  by rewrite (proj2 (Z.ltb_ge _ _)) by zlia.
Qed.

(** ** The U-format session *)

(** The session flag after a history of U-format control octets: what the last
    STARTDT or STOPDT of the history says. *)
Definition started_by (history : list Z) (before : bool) : bool :=
  foldl (λ b c, if (c =? U_STARTDT_ACT) || (c =? U_STARTDT_CON) then true
                else if (c =? U_STOPDT_ACT) || (c =? U_STOPDT_CON) then false else b)
    before history.

Fixpoint run_u (s : Iec104FlowState) (l : list Z) (o : origin) :
    Iec104FlowState * list (option Finding) :=
  match l with
  | [] => (s, [])
  | c :: l =>
      let '(s, f) := process_u_frame s c o in
      let '(s, fs) := run_u s l o in (s, f :: fs)
  end.

Lemma process_u_frame_started s c o :
  session_started (process_u_frame s c o).1 = started_by [c] (session_started s).
Proof.
  unfold process_u_frame, started_by. cbn [foldl].
  destruct (_ || _); [done|]. destruct (c =? U_STOPDT_ACT); [done|].
  destruct (c =? U_STOPDT_CON); [done|]. by destruct (_ || _).
Qed.

Lemma run_u_app s l1 l2 o :
  run_u s (l1 ++ l2) o =
    let '(s1, f1) := run_u s l1 o in let '(s2, f2) := run_u s1 l2 o in (s2, f1 ++ f2).
Proof.
  revert s. induction l1 as [|c l1 IH]; intros s; cbn [app run_u]; [by destruct (run_u s l2 o)|].
  destruct (process_u_frame s c o) as [s1 f]. rewrite IH.
  destruct (run_u s1 l1 o) as [s2 f1]. by destruct (run_u s2 l2 o).
Qed.

Lemma run_u_started s l o :
  session_started (run_u s l o).1 = started_by l (session_started s) ∧
  length (run_u s l o).2 = length l.
Proof.
  revert s. induction l as [|c l IH]; intros s; [done|]. cbn [run_u].
  pose proof (process_u_frame_started s c o) as H. destruct (process_u_frame s c o) as [s1 f].
  simpl in H. destruct (IH s1) as [I1 I2]. destruct (run_u s1 l o) as [s2 fs]. simpl in *.
  split; [|by rewrite I2]. by rewrite I1, H.
Qed.

(** ** Theorems *)

(** C18. Segmentation does not matter.  However a piece of one direction's
    stream is cut into chunks, the analyzer ends in the same state as when it
    gets the piece at once: flow table, carry buffers, session and sequence
    state, counters and findings, up to the buffer offset quoted in the
    evidence of a malformed-LEN finding.  It holds in every state of the
    analyzer, and neither side ever panics. *)
Theorem iec104_segmentation_independent a k dir ts chunks :
  chunks ≠ [] →
  is_Some (feed a k dir ts chunks) ∧
  view <$> feed a k dir ts chunks = view <$> iec_on_data a k (concat chunks) ts dir.
Proof.
  intros Hne. destruct chunks as [|c cs]; [done|]. pose proof (feed_concat a k dir ts c cs) as H.
  split; [|done]. destruct (iec_on_data_malformed a k (c ++ concat cs) ts dir dir) as (a' & E & _).
  rewrite E in H. apply fmap_is_Some with (f := view). rewrite H. done.
Qed.

Definition sample_key : FlowKey := FlowKey_new (V4 1) 2404 (V4 2) 40000.

(** A STOPDT-act and a single command (type 45). *)
Definition sample_stop : list Z := [0x68; 4; 0x13; 0; 0; 0].
Definition sample_command : list Z := [0x68; 14; 2; 0; 0; 0; 45; 1; 6; 0; 1; 0; 9; 0; 0; 1].

(** The two cut into chunks, with a malformed stub in between. *)
Definition sample_malformed : list (list Z) :=
  [[0x68]; [4; 0x13; 0]; [0; 0; 0x68]; [0; 0x68; 14; 2; 0; 0; 0; 45; 1; 6]; [0; 1; 0; 9; 0; 0; 1]].

(** And without it. *)
Definition sample_chunks : list (list Z) :=
  [[0x68]; [4; 0x13; 0]; [0; 0; 0x68]; [14; 2; 0; 0; 0; 45; 1; 6]; [0; 1; 0; 9; 0; 0; 1]].

Lemma iec104_segmentation_independent_witness :
  ∃ a, view <$> feed Iec104Analyzer_new sample_key ClientToServer 7 sample_malformed = Some a ∧
    zlen (all_findings a) = 3.
Proof.
  eexists. split.
  - rewrite (proj2 (iec104_segmentation_independent Iec104Analyzer_new sample_key ClientToServer 7
      sample_malformed ltac:(discriminate))). vm_compute. reflexivity.
  - vm_compute. reflexivity.
Defined.

(** A stream of complete APDUs is analyzed frame by frame, whatever the
    chunks.  If the chunks of a direction with an empty carry concatenate to
    a sequence of well-formed frames, the analyzer's state and findings are
    those of processing each frame once, in order; nothing is left over. *)
Theorem iec104_frames_any_chunking a k dir ts chunks frames :
  Forall frame_wf frames → iec_carry (flow_of a k) dir = [] → chunks ≠ [] →
  concat chunks = concat frames →
  ∃ s' found, run_frames (flow_of a k) frames (origin_of k dir ts) = Some (s', found) ∧
    iec_carry s' dir = [] ∧
    view <$> feed a k dir ts chunks =
      Some (view (extend_findings (a <| flows := <[k := s']> (flows a) |>) found)).
Proof.
  intros Hw Hc Hne Heq.
  destruct (feed_frames a k dir ts chunks frames) as (s' & found & Hr & U & Hv); [done..|].
  exists s', found. split_and!; [done| |done]. by rewrite (untouched_carry _ _ _ U).
Qed.

Lemma sample_frames_wf : Forall frame_wf [sample_stop; sample_command].
Proof.
  repeat constructor.
  - by exists 4, [0x13; 0; 0; 0].
  - by exists 14, [2; 0; 0; 0; 45; 1; 6; 0; 1; 0; 9; 0; 0; 1].
Qed.

Lemma iec104_frames_any_chunking_witness :
  ∃ s' found, run_frames Iec104FlowState_default [sample_stop; sample_command]
      (origin_of sample_key ClientToServer 7) = Some (s', found) ∧ zlen found = 2 ∧
    view <$> feed Iec104Analyzer_new sample_key ClientToServer 7 sample_chunks =
      Some (view (extend_findings
        (Iec104Analyzer_new <| flows := <[sample_key := s']> ∅ |>) found)).
Proof.
  destruct (iec104_frames_any_chunking Iec104Analyzer_new sample_key ClientToServer 7 sample_chunks
    [sample_stop; sample_command]) as (s' & found & E & _ & Hv).
  - exact sample_frames_wf.
  - reflexivity.
  - discriminate.
  - reflexivity.
  - exists s', found. split; [exact E|]. split; [|exact Hv].
    vm_compute in E. injection E as <- <-. vm_compute. reflexivity.
Defined.

(** No control command escapes by segmentation.  If a direction's stream
    is a sequence of well-formed frames, one of which is an I-format control
    command (type 45 to 51 or 58 to 64), and the findings list has room, then
    however the stream is cut into chunks a T1692.001 finding with the
    sender's address, the time and the direction is recorded. *)
Theorem control_command_reported a k dir ts chunks frames frame :
  Forall frame_wf frames → iec_carry (flow_of a k) dir = [] →
  concat chunks = concat frames → frame ∈ frames → control_frame frame →
  zlen (all_findings a) + 3 * zlen frames ≤ MAX_IEC104_FINDINGS →
  ∃ a', feed a k dir ts chunks = Some a' ∧
    Exists (reports_command (origin_of k dir ts)) (all_findings a').
Proof.
  intros Hw Hc Heq Hin Hcf Hroom. assert (chunks ≠ []) as Hne.
  { intros ->. apply list_elem_of_split in Hin as (l1 & l2 & ->). simpl in Heq.
    rewrite concat_app in Heq. destruct (concat l1); [|done].
    apply Forall_app in Hw as [_ Hw]. apply list.Forall_cons in Hw as [(? & ? & -> & _) _]. done. }
  destruct (feed_frames a k dir ts chunks frames) as (s' & f & Hr & _ & Hv); [done..|].
  destruct (feed a k dir ts chunks) as [a'|]; [|done]. exists a'. split; [done|].
  pose proof (run_frames_few _ _ _ _ _ Hr).
  pose proof (run_frames_control _ _ _ _ _ _ Hw Hin Hcf Hr) as Hex.
  cbn [fmap option_fmap option_map] in Hv. apply (inj Some), (f_equal all_findings) in Hv.
  assert (∀ x, all_findings (view x) = forget_offset <$> all_findings x) as Hav by done.
  rewrite !Hav, extend_findings_room in Hv by (simpl; lia).
  apply list.Exists_exists in Hex as (x & Hx & Hrep).
  assert (forget_offset x ∈ forget_offset <$> all_findings a') as Hy.
  { rewrite Hv, fmap_app. apply elem_of_app. right. by apply list_elem_of_fmap_2. }
  apply list_elem_of_fmap in Hy as (y & Exy & Hy). apply list.Exists_exists. exists y.
  split; [done|]. clear - Exy Hrep.
  assert (∀ z, reports_command (origin_of k dir ts) (forget_offset z) ↔
    reports_command (origin_of k dir ts) z) as Hz
    by (intros z; unfold forget_offset; by repeat case_match).
  by apply Hz; rewrite <- Exy; apply Hz.
Qed.

Lemma control_command_reported_witness :
  ∃ a, feed Iec104Analyzer_new sample_key ClientToServer 7 sample_chunks = Some a ∧
    Exists (reports_command (origin_of sample_key ClientToServer 7)) (all_findings a).
Proof.
  apply (control_command_reported Iec104Analyzer_new sample_key ClientToServer 7 _
    [sample_stop; sample_command] sample_command).
  - exact sample_frames_wf.
  - reflexivity.
  - reflexivity.
  - right. left.
  - vm_compute. split; [reflexivity|]. left. split; discriminate.
  - vm_compute. discriminate.
Defined.

(** Resource bounds and absence of panics.  Over any sequence of chunks
    and closes, in any interleaving of flows and directions and whatever the
    bytes are, the analyzer never panics; afterwards at most 10,000 findings
    are kept, every carry buffer holds at most 254 bytes, and the
    carry-overflow branch has never been taken (its flags are still unset).
    If at most 2^64 - 1 bytes arrived, [summarize] does not overflow either
    and reports exactly the frames of closed and open flows, never more than
    one per byte received. *)
Theorem iec104_bounded es :
  ∃ a, replay (Some Iec104Analyzer_new) es = Some a ∧
    zlen (all_findings a) ≤ MAX_IEC104_FINDINGS ∧
    (∀ k s, flows a !! k = Some s →
      zlen (carry_c2s s) ≤ 254 ∧ zlen (carry_s2c s) ≤ 254 ∧
      carry_overflow_reported_c2s s = false ∧ carry_overflow_reported_s2c s = false) ∧
    (trace_bytes es ≤ u64_max →
      ∃ m, iec_summarize a = Some m ∧
        packets_analyzed m = total_frames_closed a + map_sum frame_count (flows a) ∧
        packets_analyzed m ≤ trace_bytes es).
Proof.
  destruct (iec_replay_ok es 0 Iec104Analyzer_new iec_ok_new) as (a & E & Ha). simpl in Ha.
  exists a. split_and!; [done|apply Ha| |].
  - intros k s Hk. destruct (io_flows _ _ Ha k s Hk). done.
  - intros Hb. destruct (iec_summarize_ok _ a Ha Hb) as (m & Em & Hm). exists m.
    split_and!; [done|done|]. rewrite Hm. destruct Ha as [_ Hfl _ Hw].
    pose proof (frames_le_weight (flows a)). lia.
Qed.

Lemma iec104_bounded_witness :
  ∃ a m, replay (Some Iec104Analyzer_new)
      [EData sample_key ClientToServer [0x68; 4; 0x13] 1 7;
       EData sample_key ClientToServer [0; 0; 0; 0x68] 4 8] = Some a ∧
    iec_summarize a = Some m ∧ packets_analyzed m = 1.
Proof.
  destruct (iec104_bounded [EData sample_key ClientToServer [0x68; 4; 0x13] 1 7;
    EData sample_key ClientToServer [0; 0; 0; 0x68] 4 8]) as (a & E & _ & _ & Hs).
  destruct Hs as (m & Em & _); [vm_compute; discriminate|].
  exists a, m. split; [exact E|]. split; [exact Em|].
  vm_compute in E. injection E as <-. vm_compute in Em. injection Em as <-. reflexivity.
Defined.

(** A malformed LEN byte is reported at most once per direction and flow
    lifetime.  From any analyzer that does not know the flow, any sequence of
    chunks of that flow, in both directions, adds at most one malformed-LEN
    finding of each direction. *)
Theorem malformed_len_reported_once a k es dir :
  flows a !! k = None → Forall (flow_data k) es →
  ∃ a', replay (Some a) es = Some a' ∧
    malformed_count dir (all_findings a') ≤ malformed_count dir (all_findings a) + 1.
Proof.
  intros Hk Hes. destruct (iec_replay_malformed es a k dir Hes) as (a' & E & H).
  exists a'. split; [done|]. unfold flow_of in H at 1. rewrite Hk in H. simpl in H.
  destruct (malformed_flag (flow_of a' k) dir), dir; simpl in H; lia.
Qed.

Lemma malformed_len_reported_once_witness :
  ∃ a, replay (Some Iec104Analyzer_new)
      [EData sample_key ClientToServer [0x68; 0; 0x68; 255] 1 7;
       EData sample_key ClientToServer [0x68; 1] 5 8] = Some a ∧
    malformed_count ClientToServer (all_findings a) ≤ 0 + 1 ∧ zlen (all_findings a) = 1.
Proof.
  destruct (malformed_len_reported_once Iec104Analyzer_new sample_key
    [EData sample_key ClientToServer [0x68; 0; 0x68; 255] 1 7;
     EData sample_key ClientToServer [0x68; 1] 5 8] ClientToServer) as (a & E & H).
  - reflexivity.
  - repeat constructor.
  - exists a. split; [exact E|]. split; [exact H|]. vm_compute in E. injection E as <-.
    vm_compute. reflexivity.
Defined.

(** The N(S) tracker is exact.  On consecutive I-frames of one direction
    it raises one finding for every jump of more than twelve numbers modulo
    2^15, carrying the two numbers and the distance, and none otherwise,
    wrap-around included; the first frame only sets the baseline, and the
    other direction's tracker is untouched. *)
Theorem ns_desync_exact s ns l o :
  (run_ns s (ns :: l) o).2 =
    match last_ns s (from_dir o) with
    | None => jump_finding o <$> jumps ns l
    | Some prev => jump_finding o <$> jumps prev (ns :: l)
    end ∧
  ∀ dir, dir ≠ from_dir o → last_ns (run_ns s (ns :: l) o).1 dir = last_ns s dir.
Proof.
  split; [|intros dir ?; by apply run_ns_other].
  destruct (last_ns s (from_dir o)) as [prev|] eqn:E; [by apply run_ns_jumps|].
  cbn [run_ns]. unfold track_ns_desync. rewrite E.
  rewrite <- (run_ns_jumps o l (set_last_ns s (from_dir o) ns)) by apply last_ns_set.
  by destruct (run_ns _ l o).
Qed.

(** The sequence-number codec.  Every 15-bit number, written into the
    first two control octets, gives two bytes of an I-format frame from which
    [extract_ns] reads the number back; conversely any two bytes of an
    I-format frame are the octets of the 15-bit number they are read as. *)
Theorem ns_codec :
  (∀ ns, 0 ≤ ns < 2 ^ 15 →
     let '(c1, c2) := print_ns ns in
     is_u8 c1 ∧ is_u8 c2 ∧ classify_frame_format c1 = IFormat ∧ extract_ns c1 c2 = ns) ∧
  (∀ c1 c2, is_u8 c1 → is_u8 c2 → classify_frame_format c1 = IFormat →
     0 ≤ extract_ns c1 c2 < 2 ^ 15 ∧ print_ns (extract_ns c1 c2) = (c1, c2)).
Proof.
  unfold is_u8, u8_max. split.
  - intros ns Hns. rewrite print_ns_div.
    pose proof (Z.div_mod ns 128 ltac:(lia)) as Hd. pose proof (Z.mod_pos_bound ns 128 ltac:(lia)).
    assert ((2 * ns) mod 256 = 2 * (ns mod 128)) as -> by
      (change 256 with (2 * 128); by rewrite Zmult_mod_distr_l).
    assert (0 ≤ ns / 128 < 256) by (split; [apply Z.div_pos|apply Z.div_lt_upper_bound]; lia).
    split_and!; try lia.
    + apply classify_frame_format_I. rewrite Z.mul_comm. by apply Z_mod_mult.
    + rewrite extract_ns_add by (unfold is_u8, u8_max; lia).
      rewrite (Z.mul_comm 2), Z_div_mult by lia. lia.
  - intros c1 c2 H1 H2 Hc%classify_frame_format_I.
    rewrite extract_ns_add by (unfold is_u8, u8_max; lia). rewrite print_ns_div.
    pose proof (Z.div_mod c1 2 ltac:(lia)) as Hd. rewrite Hc, Z.add_0_r in Hd.
    assert (0 ≤ c1 / 2 < 128) by lia. split; [lia|]. f_equal.
    + rewrite (Z.mul_add_distr_l 2), <- Hd. rewrite (Z.mul_assoc 2), (Z.mul_comm 2 c2), <- Z.mul_assoc.
      change (2 * 128) with 256. rewrite Z_mod_plus_full. apply Z.mod_small. lia.
    + rewrite Z.div_add by lia. rewrite (Z.div_small (c1 / 2)) by lia. lia.
Qed.

Lemma ns_codec_witness : extract_ns 0xFE 0xFF = 32767 ∧ print_ns 32767 = (0xFE, 0xFF).
Proof.
  split; [reflexivity|].
  apply (proj2 ns_codec 0xFE 0xFF); vm_compute; (split; discriminate) || reflexivity.
Defined.

(** APCI headers.  [parse_apci_header] accepts exactly the buffers that
    start with the six bytes of a header with start byte 0x68 and LEN in
    [4, 253], and returns that header; on six bytes or more it accepts
    exactly what [is_valid_iec104_frame] accepts. *)
Theorem apci_header_exact l :
  (∀ h, parse_apci_header l = Some h ↔
     start h = 0x68 ∧ 4 ≤ len h ≤ 253 ∧ ∃ rest, l = print_apci h ++ rest) ∧
  (6 ≤ zlen l → is_valid_iec104_frame l = true ↔ is_Some (parse_apci_header l)).
Proof.
  split; [apply parse_apci_header_spec|]. intros H6.
  do 6 (destruct l as [|? l]; [vm_compute in H6; done|]). clear H6.
  unfold parse_apci_header, is_valid_iec104_frame.
  destruct (Z.eqb_spec z 0x68); simpl; [|split; [done|by intros []]].
  destruct (Z.ltb_spec z0 4); simpl.
  { rewrite (proj2 (Z.leb_gt _ _)) by lia. simpl. split; [done|by intros []]. }
  rewrite (proj2 (Z.leb_le _ _)) by lia.
  destruct (Z.ltb_spec 253 z0); simpl.
  - rewrite (proj2 (Z.leb_gt _ _)) by lia. simpl. split; [done|by intros []].
  - by rewrite (proj2 (Z.leb_le _ _)) by lia.
Qed.

Lemma apci_header_exact_witness :
  parse_apci_header sample_command = Some (mkApci 0x68 14 2 0 0 0).
Proof.
  apply (proj2 (proj1 (apci_header_exact sample_command) (mkApci 0x68 14 2 0 0 0))).
  split; [reflexivity|]. split; [vm_compute; split; discriminate|].
  exists [45; 1; 6; 0; 1; 0; 9; 0; 0; 1]. reflexivity.
Defined.

(** The U-format session.  After any history of U-format frames the
    session is active exactly if the last STARTDT or STOPDT says so (or, with
    neither in the history, if it was active before).  A STOPDT-act is always
    reported, as [Possible] in an active session and as [Likely] otherwise;
    the other five commands never are; every other octet is reported and
    leaves the state alone. *)
Theorem u_frame_session s history c o :
  let before := (run_u s history o).1 in
  session_started before = started_by history (session_started s) ∧
  (run_u s (history ++ [c]) o).2 !! length history =
    Some (if c =? U_STOPDT_ACT
          then Some (stopdt_finding c (started_by history (session_started s)) o)
          else if bool_decide (c ∈ [U_STARTDT_ACT; U_STARTDT_CON; U_STOPDT_CON;
                                    U_TESTFR_ACT; U_TESTFR_CON]) then None
          else Some (noncanonical_u_finding c o)).
Proof.
  intros before. destruct (run_u_started s history o) as [H1 H2]. split; [done|].
  rewrite run_u_app. unfold before in *. destruct (run_u s history o) as [s1 f1]. simpl in *.
  rewrite <- H1. unfold process_u_frame.
  destruct (Z.eqb_spec c U_STOPDT_ACT) as [->|Hn].
  { simpl. by rewrite lookup_app_r, H2, Nat.sub_diag by lia. }
  case_bool_decide as Hc.
  - rewrite !elem_of_cons, elem_of_nil in Hc.
    destruct Hc as [->|[->|[->|[->|[->|[]]]]]]; simpl;
      by rewrite lookup_app_r, H2, Nat.sub_diag by lia.
  - rewrite !elem_of_cons, elem_of_nil in Hc.
    rewrite !(proj2 (Z.eqb_neq _ _)) by tauto. simpl.
    by rewrite lookup_app_r, H2, Nat.sub_diag by lia.
Qed.
