(* ===== verification/Dnp3.v ===== *)
(** * The DNP3 analyzer (src/analyzer/dnp3.rs)

    Link-layer framing with a carry buffer per direction, the desync latch,
    byte-walk resynchronisation, function-code classification and the
    detectors: control bursts, restarts, writes, unanswered commands, loss of
    control, broadcast and unexpected sources, unsolicited responses and
    malformed frames.  The translation comes first; the theorems are in
    [Dnp3Props].  All arithmetic on the [u8] LENGTH field is done in [usize]
    and cannot overflow. *)

From S2P Require Import Prelude FlowKey Handler Findings Dispatcher.

#[local] Open Scope Z_scope.

Record Dnp3DlHeader := mkDlHeader {
  start1 : Z;
  start2 : Z;
  dl_length : Z;
  control : Z;
  destination : Z;
  source : Z
}.

Inductive Dnp3FcClass := Read | Write | Control | Restart | Management | Response | Unknown.

#[global] Instance Dnp3FcClass_eq_dec : EqDecision Dnp3FcClass.
Proof. solve_decision. Defined.

Definition MAX_PENDING_REQUESTS : Z := 256.
Definition MAX_DNP3_FRAME_LEN : Z := 292.
Definition MAX_MASTER_ADDRS : Z := 64.
Definition MALFORMED_ANOMALY_THRESHOLD : Z := 3.
Definition CORRELATION_WINDOW_SECS : Z := 300.
Definition BLOCK_CMD_TIMEOUT_SECS : Z := 10.
Definition BLOCK_CMD_THRESHOLD : Z := 3.
Definition T0827_THRESHOLD : Z := 3.
Definition DETECTION_WINDOW_SECS : Z := 60.
Definition DNP3_MAX_FINDINGS : Z := 10000.

Record Dnp3FlowState := mkDnp3Flow {
  carry_c2s : list Z;
  carry_s2c : list Z;
  is_non_dnp3 : bool;
  fc_counts : gmap Z Z;
  frame_count : Z;
  parse_errors : Z;
  direct_operate_count : Z;
  window_start_ts : Z;
  direct_operate_emitted : bool;
  master_addrs_seen : list Z;
  restart_event_count : Z;
  block_event_count : Z;
  pending_requests : gmap (Z * Z) Z;
  block_finding_emitted_this_window : bool;
  loss_of_control_emitted : bool;
  correlation_window_start_ts : Z;
  correlation_window_seeded : bool;
  malformed_in_window : Z;
  malformed_anomaly_emitted : bool;
  enable_unsolicited_seen : bool;
  response_seen : bool;
  unsolicited_anomaly_emitted : bool;
  unexpected_source_emitted : bool
}.

#[global] Instance Dnp3FlowState_eta : Eta Dnp3FlowState := λ s,
  mkDnp3Flow (carry_c2s s) (carry_s2c s) (is_non_dnp3 s) (fc_counts s) (frame_count s)
    (parse_errors s) (direct_operate_count s) (window_start_ts s) (direct_operate_emitted s)
    (master_addrs_seen s) (restart_event_count s) (block_event_count s) (pending_requests s)
    (block_finding_emitted_this_window s) (loss_of_control_emitted s)
    (correlation_window_start_ts s) (correlation_window_seeded s) (malformed_in_window s)
    (malformed_anomaly_emitted s) (enable_unsolicited_seen s) (response_seen s)
    (unsolicited_anomaly_emitted s) (unexpected_source_emitted s).

(** [Dnp3FlowState::default()]. *)
Definition Dnp3FlowState_default : Dnp3FlowState :=
  mkDnp3Flow [] [] false ∅ 0 0 0 0 false [] 0 0 ∅ false false 0 false 0 false false false false
    false.

Record Dnp3Analyzer := mkDnp3Analyzer {
  flows : gmap FlowKey Dnp3FlowState;
  direct_operate_threshold : Z;
  fn_code_counts : gmap Z Z;
  all_findings : list Finding;
  dropped_findings : Z;
  master_addrs_dropped : Z;
  pending_requests_evicted : Z;
  closed_flows_count : Z;
  total_frames_closed : Z;
  parse_errors_closed : Z;
  closed_flow_direct_operates : list (FlowKey * Z)
}.

#[global] Instance Dnp3Analyzer_eta : Eta Dnp3Analyzer := λ a,
  mkDnp3Analyzer (flows a) (direct_operate_threshold a) (fn_code_counts a) (all_findings a)
    (dropped_findings a) (master_addrs_dropped a) (pending_requests_evicted a)
    (closed_flows_count a) (total_frames_closed a) (parse_errors_closed a)
    (closed_flow_direct_operates a).

Definition Dnp3Analyzer_new (threshold : Z) : Dnp3Analyzer :=
  mkDnp3Analyzer ∅ threshold ∅ [] 0 0 0 0 0 0 [].

(** ** The pure core *)

Definition parse_dnp3_dl_header (data : list Z) : option Dnp3DlHeader :=
  match data with
  | b0 :: b1 :: b2 :: b3 :: b4 :: b5 :: b6 :: b7 :: _ :: _ :: _ =>
      Some (mkDlHeader b0 b1 b2 b3 (u16_le b4 b5) (u16_le b6 b7))
  | _ => None
  end.

Definition is_valid_dnp3_frame_header (h : Dnp3DlHeader) : bool :=
  (start1 h =? 0x05) && (start2 h =? 0x64) && (5 <=? dl_length h).

Definition classify_dnp3_fc (fc : Z) : Dnp3FcClass :=
  if fc =? 0x01 then Read
  else if fc =? 0x02 then Write
  else if (0x03 <=? fc) && (fc <=? 0x06) then Control
  else if (fc =? 0x00) || ((0x07 <=? fc) && (fc <=? 0x0C)) || ((0x0F <=? fc) && (fc <=? 0x1A))
  then Management
  else if (fc =? 0x0D) || (fc =? 0x0E) then Restart
  else if (0x81 <=? fc) && (fc <=? 0x83) then Response
  else Unknown.

(** [a.div_ceil(b)]. *)
Definition div_ceil (a b : Z) : Z := (a + b - 1) / b.

Definition compute_dnp3_frame_len (length : Z) : option Z :=
  if length <? 5 then None
  else
    let u := length - 5 in
    let blocks := div_ceil u 16 in
    Some (5 + length + 2 * blocks).

Definition transport_is_fir (transport_octet : Z) : bool :=
  negb (Z.land transport_octet 0x40 =? 0).

Definition has_user_data (control : Z) : bool :=
  let link_fc := Z.land control 0x0F in
  (link_fc =? 0x03) || (link_fc =? 0x04).

Definition is_broadcast_destination (dest : Z) : bool := 0xFFFD <=? dest.

Definition is_master_frame (control : Z) : bool := negb (Z.land control 0x80 =? 0).

(** ** Carry buffers and resynchronisation *)

(** [active_carry!(flow, direction)], read and written. *)
Definition active_carry (f : Dnp3FlowState) (dir : Direction) : list Z :=
  match dir with ClientToServer => carry_c2s f | ServerToClient => carry_s2c f end.

Definition set_active_carry (f : Dnp3FlowState) (dir : Direction) (c : list Z) : Dnp3FlowState :=
  match dir with
  | ClientToServer => f <| carry_c2s := c |>
  | ServerToClient => f <| carry_s2c := c |>
  end.

Definition is_sync (l : list Z) : bool :=
  match l with b0 :: b1 :: _ => (b0 =? 0x05) && (b1 =? 0x64) | _ => false end.

(** [windows(2).enumerate().find(sync)]: the carry from its first sync word on,
    or nothing when it has none ([drain(..i)] or [clear()]). *)
Fixpoint resync (c : list Z) : list Z :=
  match c with
  | [] => []
  | _ :: rest => if is_sync c then c else resync rest
  end.

(** The same scan started at offset 1 ([skip(1)]). *)
Definition resync_from_1 (c : list Z) : list Z := resync (drop 1 c).

(** ** Emission *)

(** Where a finding of this delivery comes from. *)
Record delivery := mkDelivery {
  d_key : FlowKey;
  d_ts : Z;
  d_dir : Direction
}.

(** The [master_ip] of every detector: port 20000 is the outstation's. *)
Definition master_ip (d : delivery) : IpAddr :=
  let k := d_key d in
  let '(client_ip, server_ip) :=
    if lower_port k =? 20000 then (upper_ip k, lower_ip k) else (lower_ip k, upper_ip k) in
  match d_dir d with ClientToServer => client_ip | ServerToClient => server_ip end.

Definition dnp3_finding (c : ThreatCategory) (v : Verdict) (cf : Confidence) (summary : text)
    (evidence : list text) (technique : string) (d : delivery) : Finding := {|
  category := c; verdict := v; confidence := cf; summary := summary; evidence := evidence;
  mitre_techniques := [technique];
  source_ip := Some (master_ip d); timestamp := Some (d_ts d); direction := None
|}.

(** Push below the cap, count above it. *)
Definition emit (a : Dnp3Analyzer) (x : Finding) : Dnp3Analyzer :=
  if zlen (all_findings a) <? DNP3_MAX_FINDINGS
  then a <| all_findings := all_findings a ++ [x] |>
  else a <| dropped_findings := sat_add u64_max (dropped_findings a) 1 |>.

(** The [FC=.. dest=.. src=..] evidence line. *)
Definition fc_line (app_fc dest src : Z) : text :=
  [Lit "FC="; Hex 2 app_fc; Lit " dest="; Hex 4 dest; Lit " src="; Hex 4 src].

(** ** Detectors

    A detector works on the analyzer's findings and on the flow, which is out
    of the table while a delivery is processed. *)

Abbreviation work := (Dnp3Analyzer * Dnp3FlowState)%type.

Definition detect_control_class_burst_split (w : work) (app_fc dest src : Z) (d : delivery) :
    work :=
  let '(a, f) := w in
  let now_ts := d_ts d in
  if (0 <? direct_operate_count f)
     && (DETECTION_WINDOW_SECS <? sat_sub now_ts (window_start_ts f))
  then (a, f <| direct_operate_count := 1 |> <| window_start_ts := now_ts |>
             <| direct_operate_emitted := false |>)
  else
    let f := f <| direct_operate_count := sat_add u32_max (direct_operate_count f) 1 |> in
    let f := if direct_operate_count f =? 1 then f <| window_start_ts := now_ts |> else f in
    if (direct_operate_threshold a <? direct_operate_count f)
       && negb (direct_operate_emitted f)
       && (sat_sub now_ts (window_start_ts f) <=? DETECTION_WINDOW_SECS)
    then
      (emit a (dnp3_finding Execution Likely Medium
         [Lit "DNP3 unauthorized control command burst: "; Num (direct_operate_count f);
          Lit " control FCs in "; Num (sat_sub now_ts (window_start_ts f));
          Lit "s window (threshold "; Num (direct_operate_threshold a); Lit ")"]
         [fc_line app_fc dest src] "T1692.001" d),
       f <| direct_operate_emitted := true |>)
    else (a, f).

Definition detect_restart_split (w : work) (app_fc dest src : Z) (d : delivery) : work :=
  let '(a, f) := w in
  let name := if app_fc =? 0x0D then "COLD_RESTART"%string
              else if app_fc =? 0x0E then "WARM_RESTART"%string else "RESTART"%string in
  (emit a (dnp3_finding Execution Likely High
     [Lit "DNP3 restart command observed: FC "; Hex 2 app_fc; Lit " ("; Lit name;
      Lit ") from src="; Hex 4 src; Lit " to dest="; Hex 4 dest]
     [fc_line app_fc dest src] "T0814" d),
   f <| restart_event_count := sat_add u64_max (restart_event_count f) 1 |>).

Definition detect_write_split (a : Dnp3Analyzer) (dest src : Z) (d : delivery) : Dnp3Analyzer :=
  emit a (dnp3_finding Execution Likely Medium
    [Lit "DNP3 WRITE command observed: parameter modification from src="; Hex 4 src;
     Lit " to dest="; Hex 4 dest]
    [[Lit "FC=0x02 (WRITE) dest="; Hex 4 dest; Lit " src="; Hex 4 src]] "T0836" d).

(** [restart_event_count + block_event_count] is overflow checked. *)
Definition maybe_emit_t0827 (w : work) (dest : Z) (d : delivery) : panicky work :=
  let '(a, f) := w in
  combined ← cadd u64_max (restart_event_count f) (block_event_count f);
  Some (if (T0827_THRESHOLD <=? combined) && negb (loss_of_control_emitted f) then
    (emit a (dnp3_finding Impact Likely Medium
       [Lit "DNP3 sustained loss-of-control pattern: "; Num (restart_event_count f);
        Lit " restart events + "; Num (block_event_count f); Lit " blocked commands within ";
        Num (sat_sub (d_ts d) (correlation_window_start_ts f)); Lit "s on flow (dest=";
        Hex 4 dest; Lit ")"]
       [[Lit "restart_event_count="; Num (restart_event_count f); Lit " block_event_count=";
         Num (block_event_count f); Lit " threshold="; Num T0827_THRESHOLD]] "T0827" d),
     f <| loss_of_control_emitted := true |>)
  else (a, f)).

Definition maybe_expire_correlation_window (f : Dnp3FlowState) (now_ts : Z) : Dnp3FlowState :=
  if negb (correlation_window_seeded f) then
    f <| correlation_window_start_ts := now_ts |> <| correlation_window_seeded := true |>
  else if CORRELATION_WINDOW_SECS <? sat_sub now_ts (correlation_window_start_ts f) then
    f <| restart_event_count := 0 |> <| block_event_count := 0 |>
      <| block_finding_emitted_this_window := false |> <| loss_of_control_emitted := false |>
      <| malformed_in_window := 0 |> <| malformed_anomaly_emitted := false |>
      <| correlation_window_start_ts := now_ts |>
  else f.

Definition detect_broadcast_anomaly (a : Dnp3Analyzer) (app_fc dest src : Z) (d : delivery) :
    Dnp3Analyzer :=
  emit a (dnp3_finding Suspicious Possible Medium
    [Lit "DNP3 broadcast control command: Control FC "; Hex 2 app_fc;
     Lit " sent to broadcast destination "; Hex 4 dest]
    [[Lit "FC="; Hex 2 app_fc; Lit " dest="; Hex 4 dest; Lit " (broadcast) src="; Hex 4 src]]
    "T1692.001" d).

(** The addresses other than [src], joined with commas, in brackets. *)
Definition master_set (masters : list Z) (src : Z) : text :=
  [Lit "["] ++
  foldr (λ x acc, match acc with [] => [Hex 4 x] | _ => Hex 4 x :: Lit ", " :: acc end) []
    (filter (λ x, x ≠ src) masters) ++
  [Lit "]"].

Definition detect_unexpected_source_split (w : work) (app_fc dest src : Z) (d : delivery) : work :=
  let '(a, f) := w in
  if unexpected_source_emitted f then (a, f)
  else
    let set := master_set (master_addrs_seen f) src in
    (emit a (dnp3_finding Execution Likely High
       ([Lit "DNP3 unauthorized control command from unexpected source: src="; Hex 4 src;
         Lit " is not in expected master set "] ++ set ++ [Lit " on dest="; Hex 4 dest])
       [fc_line app_fc dest src; Lit "expected_masters=" :: set] "T1692.001" d),
     f <| unexpected_source_emitted := true |>).

Definition detect_unsolicited_anomaly (w : work) (app_fc app_ctrl dest src : Z) (d : delivery) :
    work :=
  let '(a, f) := w in
  if app_fc =? 0x81 then (a, f <| response_seen := true |>)
  else if app_fc =? 0x82 then
    if negb (enable_unsolicited_seen f) && negb (response_seen f)
       && negb (unsolicited_anomaly_emitted f)
    then
      let uns_bit := negb (Z.land app_ctrl 0x10 =? 0) in
      (emit a (dnp3_finding Suspicious Possible Low
         [Lit "DNP3 unexpected unsolicited response: UNSOLICITED_RESPONSE from src="; Hex 4 src;
          Lit " with no prior ENABLE_UNSOLICITED or solicited exchange on this flow"]
         [[Lit "FC=0x82 src="; Hex 4 src; Lit " dest="; Hex 4 dest; Lit " UNS_bit=";
           Lit (if uns_bit then "true" else "false")]] "T0814" d),
       f <| unsolicited_anomaly_emitted := true |>)
    else (a, f)
  else (a, f).

Definition detect_unsolicited_control (w : work) (app_fc dest src : Z) (d : delivery) : work :=
  let '(a, f) := w in
  if app_fc =? 0x15 then
    (emit a (dnp3_finding Execution Likely Medium
       [Lit "DNP3 DISABLE_UNSOLICITED observed: FC 0x15 from src="; Hex 4 src; Lit " to dest=";
        Hex 4 dest; Lit " — alarm suppression / event-blinding primitive"]
       [fc_line app_fc dest src] "T0814" d), f)
  else if app_fc =? 0x14 then
    (emit a (dnp3_finding Execution Possible Low
       [Lit "DNP3 ENABLE_UNSOLICITED observed: FC 0x14 from src="; Hex 4 src; Lit " to dest=";
        Hex 4 dest; Lit " — unsolicited reporting control"]
       [fc_line app_fc dest src] "T0814" d),
     f <| enable_unsolicited_seen := true |>)
  else (a, f).

Definition check_malformed_anomaly (w : work) (d : delivery) : work :=
  let '(a, f) := w in
  let elapsed := sat_sub (d_ts d) (correlation_window_start_ts f) in
  let in_window := elapsed <? CORRELATION_WINDOW_SECS in
  if (MALFORMED_ANOMALY_THRESHOLD <=? malformed_in_window f)
     && negb (malformed_anomaly_emitted f) && in_window
  then
    (emit a (dnp3_finding Anomaly Possible Low
       [Lit "DNP3 structural anomaly: "; Num (malformed_in_window f);
        Lit " malformed frames in "; Num elapsed; Lit "s window (flow ";
        FIp (lower_ip (d_key d)); Lit "→"; FIp (upper_ip (d_key d));
        Lit ") — possible Crain-Sistrunk crash-probe"]
       [[Lit "malformed_in_window="; Num (malformed_in_window f);
         Lit " in correlation window; threshold="; Num MALFORMED_ANOMALY_THRESHOLD]] "T0814" d),
     f <| malformed_anomaly_emitted := true |>)
  else (a, f).

(** The two counters that every structural reject increments. *)
Definition count_malformed (f : Dnp3FlowState) : Dnp3FlowState :=
  f <| parse_errors := sat_add u64_max (parse_errors f) 1 |>
    <| malformed_in_window := sat_add u64_max (malformed_in_window f) 1 |>.

(** ** Unanswered requests *)

Section analyzer.
Context `{!IterOrder (Z * Z) Z}.

(** The result tells whether an entry was evicted. *)
Definition insert_pending_request (f : Dnp3FlowState) (key : Z * Z) (request_ts : Z) :
    Dnp3FlowState * bool :=
  if (MAX_PENDING_REQUESTS <=? Z.of_nat (size (pending_requests f)))
     && negb (bool_decide (is_Some (pending_requests f !! key)))
  then
    (f <| pending_requests := <[key := request_ts]> (evict_oldest id (pending_requests f)) |>, true)
  else (f <| pending_requests := <[key := request_ts]> (pending_requests f) |>, false).

(** The loop over the timed-out keys: [first] and the smallest destination. *)
Fixpoint drop_timed_out (timed_out : list (Z * Z)) (f : Dnp3FlowState) (first : bool)
    (min_dest : Z) : Dnp3FlowState * bool * Z :=
  match timed_out with
  | [] => (f, first, min_dest)
  | key :: rest =>
      let dest := key.1 in
      let '(min_dest, first) :=
        if first || (dest <? min_dest) then (dest, false) else (min_dest, first) in
      drop_timed_out rest
        (f <| pending_requests := delete key (pending_requests f) |>
           <| block_event_count := sat_add u64_max (block_event_count f) 1 |>) first min_dest
  end.

(** The T1691.001 finding of a scan. *)
Definition report_blocked (w : work) (min_dest : Z) (d : delivery) : work :=
  let '(a, f) := w in
  if (BLOCK_CMD_THRESHOLD <=? block_event_count f) && negb (block_finding_emitted_this_window f)
  then
    (emit a (dnp3_finding Execution Possible Low
       [Lit "DNP3 inferred blocked command: "; Num (block_event_count f);
        Lit " requests without response within "; Num BLOCK_CMD_TIMEOUT_SECS;
        Lit "s (dest="; Hex 4 min_dest; Lit ")"]
       [[Lit "block_event_count="; Num (block_event_count f);
         Lit " in correlation window; threshold="; Num BLOCK_CMD_THRESHOLD]] "T1691.001" d),
     f <| block_finding_emitted_this_window := true |>)
  else (a, f).

Definition scan_block_timeouts (w : work) (d : delivery) : panicky work :=
  let '(a, f) := w in
  let timed_out :=
    (filter (λ kv, BLOCK_CMD_TIMEOUT_SECS < sat_sub (d_ts d) kv.2)
       (map_iter (pending_requests f))).*1 in
  let '(f, first, min_dest) := drop_timed_out timed_out f true 0 in
  let w := report_blocked (a, f) min_dest d in
  if first then Some w else maybe_emit_t0827 w min_dest d.

(** ** One frame *)

(** The master addresses of the flow, deduplicated and capped. *)
Definition note_master (w : work) (h : Dnp3DlHeader) : work :=
  let '(a, f) := w in
  if is_master_frame (control h) && negb (bool_decide (source h ∈ master_addrs_seen f)) then
    if zlen (master_addrs_seen f) <? MAX_MASTER_ADDRS
    then (a, f <| master_addrs_seen := master_addrs_seen f ++ [source h] |>)
    else (a <| master_addrs_dropped := sat_add u64_max (master_addrs_dropped a) 1 |>, f)
  else (a, f).

(** A Control request other than DIRECT_OPERATE_NR expects a response. *)
Definition note_request (w : work) (app_fc app_ctrl dest : Z) (d : delivery) : work :=
  let '(a, f) := w in
  if negb (app_fc =? 0x06) then
    let '(f, evicted) := insert_pending_request f (dest, Z.land app_ctrl 0x0F) (d_ts d) in
    (if evicted : bool
     then a <| pending_requests_evicted := sat_add u64_max (pending_requests_evicted a) 1 |>
     else a, f)
  else (a, f).

(** The Control arm.  [unexpected]: a master frame whose source was not among
    the masters known before it. *)
Definition control_arm (w : work) (unexpected : bool) (app_fc app_ctrl dest src : Z)
    (d : delivery) : work :=
  let w := if is_broadcast_destination dest
           then (detect_broadcast_anomaly w.1 app_fc dest src d, w.2) else w in
  let w := if unexpected then detect_unexpected_source_split w app_fc dest src d else w in
  let w := note_request w app_fc app_ctrl dest d in
  detect_control_class_burst_split w app_fc dest src d.

Definition response_arm (w : work) (app_fc app_ctrl dest src : Z) (d : delivery) : work :=
  let '(a, f) := detect_unsolicited_anomaly w app_fc app_ctrl dest src d in
  if app_fc =? 0x81
  then (a, f <| pending_requests := delete (src, Z.land app_ctrl 0x0F) (pending_requests f) |>)
  else (a, f).

(** The body of the FIR gate: counting and the dispatch on the class. *)
Definition dispatch_fc (w : work) (unexpected : bool) (app_fc app_ctrl dest src : Z)
    (d : delivery) : panicky work :=
  let '(a, f) := w in
  fcs ← bump_count (fc_counts f) app_fc;
  fns ← bump_count (fn_code_counts a) app_fc;
  let w := (a <| fn_code_counts := fns |>, f <| fc_counts := fcs |>) in
  let w := if (app_fc =? 0x14) || (app_fc =? 0x15)
           then detect_unsolicited_control w app_fc dest src d else w in
  match classify_dnp3_fc app_fc with
  | Control => Some (control_arm w unexpected app_fc app_ctrl dest src d)
  | Restart => maybe_emit_t0827 (detect_restart_split w app_fc dest src d) dest d
  | Write => Some (detect_write_split w.1 dest src d, w.2)
  | Response => Some (response_arm w app_fc app_ctrl dest src d)
  | _ => Some w
  end.

(** What a gate-passed frame at the head of [carry] does, before it is drained. *)
Definition process_valid_frame (w : work) (h : Dnp3DlHeader) (frame_len : Z) (carry : list Z)
    (d : delivery) : panicky work :=
  let '(a, f) := w in
  let f := f <| frame_count := sat_add u64_max (frame_count f) 1 |> in
  let src_was_known := bool_decide (source h ∈ master_addrs_seen f) in
  let expected_set_established := negb (bool_decide (master_addrs_seen f = [])) in
  let w := note_master (a, f) h in
  if (13 <=? frame_len) && has_user_data (control h) then
    transport_octet ← index carry 10;
    if transport_is_fir transport_octet then
      app_fc ← index carry 12;
      app_ctrl ← index carry 11;
      dispatch_fc w
        (is_master_frame (control h) && expected_set_established && negb src_was_known)
        app_fc app_ctrl (destination h) (source h) d
    else Some w
  else Some w.

(** ** The frame walk

    One iteration of [loop]: [Again] continues it, [Stop] breaks out. *)

Inductive round := Again (w : work) | Stop (w : work).

(** Below ten bytes: count junk, keep a partial frame. *)
Definition short_carry (did_process : bool) (w : work) (d : delivery) : panicky work :=
  let '(a, f) := w in
  let carry := active_carry f (d_dir d) in
  if 2 <=? zlen carry then
    if negb (is_sync carry) then
      Some (check_malformed_anomaly
        (a, set_active_carry (count_malformed f) (d_dir d) (resync_from_1 carry)) d)
    else if did_process && (3 <=? zlen carry) then
      length_byte ← index carry 2;
      match compute_dnp3_frame_len length_byte with
      | None =>
          Some (check_malformed_anomaly
            (a, set_active_carry (count_malformed f) (d_dir d) (resync (drop 1 carry))) d)
      | Some _ => Some (a, f)
      end
    else Some (a, f)
  else Some (a, f).

(** The rejects of a round: a LENGTH that no frame has, and a header that is
    not valid after all. *)
Definition length_reject (w : work) (d : delivery) : work :=
  let '(a, f) := w in
  check_malformed_anomaly
    (a, set_active_carry (count_malformed f) (d_dir d) (resync (drop 1 (active_carry f (d_dir d))))) d.

Definition header_reject (w : work) (rest : list Z) (d : delivery) : work :=
  let '(a, f) := w in
  check_malformed_anomaly (a, set_active_carry (count_malformed f) (d_dir d) rest) d.

Definition dnp3_round (did_process : bool) (w : work) (d : delivery) : panicky round :=
  let '(a, f) := w in
  let dir := d_dir d in
  let carry := active_carry f dir in
  if zlen carry <? 10 then w ← short_carry did_process (a, f) d; Some (Stop w)
  else if negb (is_sync carry) then
    let '(a, f) := check_malformed_anomaly (a, count_malformed f) d in
    Some (Again (a, set_active_carry f dir (resync_from_1 carry)))
  else
    length_byte ← index carry 2;
    match compute_dnp3_frame_len length_byte with
    | None =>
        Some (Again (length_reject (a, f) d))
    | Some frame_len =>
        if zlen carry <? frame_len then Some (Stop (a, f))
        else
          frame ← slice carry 0 frame_len;
          rest ← slice carry frame_len (zlen carry);
          match parse_dnp3_dl_header frame with
          | Some h =>
              if is_valid_dnp3_frame_header h then
                '(a, f) ← process_valid_frame (a, f) h frame_len carry d;
                Some (Again (a, set_active_carry f dir rest))
              else Some (Again (header_reject (a, f) rest d))
          | None => Some (Again (header_reject (a, f) rest d))
          end
    end.

(** [did_process_in_this_call] is set by every round that goes on. *)
Fixpoint frame_walk (fuel : nat) (did_process : bool) (w : work) (d : delivery) : panicky work :=
  match fuel with
  | O => None
  | S fuel =>
      r ← dnp3_round did_process w d;
      match r with
      | Again w => frame_walk fuel true w d
      | Stop w => Some w
      end
  end.

(** ** Deliveries and closes *)

(** The desync test of a flow that has neither parsed nor buffered anything. *)
Definition desync (f : Dnp3FlowState) (data : list Z) : bool :=
  (frame_count f =? 0) && bool_decide (carry_c2s f = []) && bool_decide (carry_s2c f = [])
  && match data with
     | b0 :: b1 :: _ => negb (b0 =? 0x05) || negb (b1 =? 0x64)
     | _ => false
     end.

(** Step 2: append up to the cap; an overflow is one malformed event. *)
Definition accumulate (w : work) (data : list Z) (d : delivery) : panicky work :=
  let '(a, f) := w in
  let carry := active_carry f (d_dir d) in
  remaining_capacity ← csub MAX_DNP3_FRAME_LEN (zlen carry);
  if remaining_capacity <? zlen data then
    head ← slice data 0 remaining_capacity;
    Some (check_malformed_anomaly
      (a, set_active_carry (count_malformed f) (d_dir d) (resync (carry ++ head))) d)
  else Some (a, set_active_carry f (d_dir d) (carry ++ data)).

(** Steps 1b to 3 of a delivery that did not bail out.  Every round of the
    walk drains at least a byte, so the carry's length plus one is enough
    fuel. *)
Definition analyze (w : work) (data : list Z) (d : delivery) : panicky work :=
  let '(a, f) := w in
  let f := maybe_expire_correlation_window f (d_ts d) in
  w ← scan_block_timeouts (a, f) d;
  w ← accumulate w data d;
  frame_walk (S (length (active_carry w.2 (d_dir d)))) false w d.

Definition dnp3_on_data (a : Dnp3Analyzer) (k : FlowKey) (data : list Z) (ts : Z)
    (dir : Direction) : panicky Dnp3Analyzer :=
  let f := default Dnp3FlowState_default (flows a !! k) in
  if is_non_dnp3 f then Some (a <| flows := <[k := f]> (flows a) |>)
  else if desync f data then
    Some (a <| flows := <[k := f <| is_non_dnp3 := true |>]> (flows a) |>)
  else
    '(a, f) ← analyze (a, f) data (mkDelivery k ts dir);
    Some (a <| flows := <[k := f]> (flows a) |>).

Definition dnp3_on_flow_close (a : Dnp3Analyzer) (k : FlowKey) : Dnp3Analyzer :=
  match flows a !! k with
  | Some f =>
      a <| flows := delete k (flows a) |>
        <| total_frames_closed := sat_add u64_max (total_frames_closed a) (frame_count f) |>
        <| parse_errors_closed := sat_add u64_max (parse_errors_closed a) (parse_errors f) |>
        <| closed_flow_direct_operates :=
             closed_flow_direct_operates a ++ [(k, direct_operate_count f)] |>
        <| closed_flows_count := sat_add u64_max (closed_flows_count a) 1 |>
  | None => a
  end.

(** As one of the dispatcher's analyzers; [None] is an analyzer that has
    panicked. *)
#[global] Instance dnp3_analyzer : FlowAnalyzer (option Dnp3Analyzer) := {
  flow_on_data oa k data ts dir := a ← oa; dnp3_on_data a k data ts dir;
  flow_on_close oa k := (λ a, dnp3_on_flow_close a k) <$> oa
}.
End analyzer.

(** ** Summary *)

(** The derived order of [FlowKey]: lower endpoint, then upper endpoint. *)
Definition flow_key_cmp (x y : FlowKey) : comparison :=
  match endpoint_cmp (lower_end x) (lower_end y) with
  | Eq => endpoint_cmp (upper_end x) (upper_end y)
  | c => c
  end.

Definition entry_le (x y : FlowKey * Z) : Prop := flow_key_cmp x.1 y.1 ≠ Gt.

#[global] Instance entry_le_dec : RelDecision entry_le.
Proof. intros x y. unfold entry_le. apply _. Defined.

(** [sort_by_key] is stable; a closed entry stays before the open one. *)
Fixpoint insert_entry (x : FlowKey * Z) (l : list (FlowKey * Z)) : list (FlowKey * Z) :=
  match l with
  | [] => [x]
  | y :: l' => if decide (entry_le x y) then x :: l else y :: insert_entry x l'
  end.

Definition sort_entries (l : list (FlowKey * Z)) : list (FlowKey * Z) := foldr insert_entry [] l.

Definition control_operation_counts `{!IterOrder FlowKey Dnp3FlowState} (a : Dnp3Analyzer) :
    gmap string Z :=
  let entries := closed_flow_direct_operates a ++
    ((λ kf, (kf.1, direct_operate_count kf.2)) <$> map_iter (flows a)) in
  list_to_map (imap (λ i e, (decimal (Z.of_nat i), e.2)) (sort_entries entries)).

Definition dnp3_summarize `{!IterOrder FlowKey Dnp3FlowState} (a : Dnp3Analyzer) :
    panicky AnalysisSummary :=
  open_frames ← checked_sum (frame_count <$> (map_to_list (flows a)).*2);
  open_errors ← checked_sum (parse_errors <$> (map_to_list (flows a)).*2);
  let total_frames := sat_add u64_max (total_frames_closed a) open_frames in
  Some {|
    analyzer_name := "DNP3";
    packets_analyzed := total_frames;
    detail := list_to_map [
      ("function_code_distribution"%string,
        JObj (list_to_map (omap (λ fc_count : Z * Z,
          if 0 <? fc_count.2 then Some (decimal fc_count.1, fc_count.2) else None)
          (map_to_list (fn_code_counts a)))));
      ("control_operation_counts"%string, JObj (control_operation_counts a));
      ("total_frames"%string, JNum total_frames);
      ("parse_errors"%string, JNum (sat_add u64_max (parse_errors_closed a) open_errors));
      ("flows_analyzed"%string,
        JNum (sat_add u64_max (closed_flows_count a) (Z.of_nat (size (flows a)))));
      ("dropped_findings"%string, JNum (dropped_findings a));
      ("master_addrs_dropped"%string, JNum (master_addrs_dropped a));
      ("pending_requests_evicted"%string, JNum (pending_requests_evicted a))]
  |}.
