(* ===== verification/Dnp3Facts.v ===== *)
(** * The invariant of the DNP3 analyzer

    Resynchronisation, what each detector may change, the order-free form of
    the timeout scan, and the invariant that every operation keeps: from it
    follow the absence of panics and the bounds on every buffer and table. *)

From S2P Require Import Prelude FlowKey Handler Findings Dispatcher Dnp3.

#[local] Open Scope Z_scope.
#[local] Existing Instance flow_handler.

(** ** Resynchronisation *)

Lemma resync_suffix c : ∃ p, c = p ++ resync c.
Proof.
  induction c as [|x c [p IH]]; [by exists []|]. cbn [resync].
  destruct (is_sync (x :: c)); [by exists []|]. exists (x :: p). simpl. by f_equal.
Qed.

Lemma resync_len c : zlen (resync c) ≤ zlen c.
Proof. destruct (resync_suffix c) as [p E]. rewrite E at 2. zlia. Qed.

Lemma resync_from_1_len c : 1 ≤ zlen c → zlen (resync_from_1 c) < zlen c.
Proof.
  destruct c as [|x c]; [done|]. intros _. unfold resync_from_1.
  change (drop 1 (x :: c)) with c. pose proof (resync_len c). zlia.
Qed.

Lemma resync_head c : resync c = [] ∨ is_sync (resync c) = true.
Proof.
  induction c as [|x c IH]; [by left|]. cbn [resync].
  destruct (is_sync (x :: c)) eqn:E; [by right|done].
Qed.

Lemma is_sync_inv c : is_sync c = true → ∃ l, c = 0x05 :: 0x64 :: l.
Proof.
  destruct c as [|b0 [|b1 c]]; [done|done|]. simpl.
  intros [->%Z.eqb_eq ->%Z.eqb_eq]%andb_prop. by exists c.
Qed.

Lemma zlen_drop_1 {A} (c : list A) : 1 ≤ zlen c → zlen (drop 1 c) = zlen c - 1.
Proof. destruct c as [|x c]; [done|]. intros _. change (drop 1 (x :: c)) with c. zlia. Qed.

(** ** The carry of a direction *)

Lemma active_carry_set f dir c : active_carry (set_active_carry f dir c) dir = c.
Proof. by destruct dir. Qed.

Lemma set_active_carry_same f dir : set_active_carry f dir (active_carry f dir) = f.
Proof. by destruct f, dir. Qed.

Lemma set_active_carry_set f dir c c' :
  set_active_carry (set_active_carry f dir c) dir c' = set_active_carry f dir c'.
Proof. by destruct f, dir. Qed.

(** Bytes buffered by a flow. *)
Definition held_bytes (f : Dnp3FlowState) : Z := zlen (carry_c2s f) + zlen (carry_s2c f).

Lemma held_bytes_set f dir c :
  held_bytes (set_active_carry f dir c) = held_bytes f - zlen (active_carry f dir) + zlen c.
Proof. unfold held_bytes. destruct dir; simpl; lia. Qed.

Lemma held_bytes_nonneg f : 0 ≤ held_bytes f.
Proof. unfold held_bytes. zlia. Qed.

(** ** Frame lengths *)

Lemma compute_dnp3_frame_len_None l : compute_dnp3_frame_len l = None ↔ l < 5.
Proof.
  unfold compute_dnp3_frame_len. destruct (Z.ltb_spec l 5); split; intros; try done; lia.
Qed.

Lemma compute_dnp3_frame_len_Some l n :
  compute_dnp3_frame_len l = Some n → 5 ≤ l ∧ n = 5 + l + 2 * ((l + 10) / 16) ∧ 10 ≤ n.
Proof.
  unfold compute_dnp3_frame_len, div_ceil. destruct (Z.ltb_spec l 5) as [|Hl]; [done|].
  intros [= <-]. replace (l - 5 + 16 - 1) with (l + 10) by lia.
  split; [lia|]. split; [done|]. assert (0 ≤ (l + 10) / 16); [|lia].
  apply Z.div_pos; lia.
Qed.

Lemma compute_dnp3_frame_len_max l n :
  is_u8 l → compute_dnp3_frame_len l = Some n → 10 ≤ n ≤ MAX_DNP3_FRAME_LEN.
Proof.
  unfold is_u8, u8_max, MAX_DNP3_FRAME_LEN.
  intros Hl (? & -> & ?)%compute_dnp3_frame_len_Some. split; [done|].
  assert ((l + 10) / 16 < 17); [|lia]. apply Z.div_lt_upper_bound; lia.
Qed.

Lemma parse_dnp3_dl_header_Some l : 10 ≤ zlen l → ∃ h, parse_dnp3_dl_header l = Some h.
Proof.
  intros Hl. do 10 (destruct l as [|? l]; [by vm_compute in Hl|]). by eexists.
Qed.

(** ** What a detector may change

    [calm j w w']: framing, counters of frames and errors, master addresses
    and the analyzer's aggregates are as they were, and the correlation events
    (restarts, timeouts and requests that may still time out) are at most [j]
    more. *)

Definition events (f : Dnp3FlowState) : Z :=
  restart_event_count f + block_event_count f + Z.of_nat (size (pending_requests f)).

Record same_frames (f f' : Dnp3FlowState) : Prop := {
  sf_c2s : carry_c2s f' = carry_c2s f;
  sf_s2c : carry_s2c f' = carry_s2c f;
  sf_latch : is_non_dnp3 f' = is_non_dnp3 f;
  sf_fc : fc_counts f' = fc_counts f;
  sf_frames : frame_count f' = frame_count f;
  sf_errors : parse_errors f' = parse_errors f;
  sf_masters : master_addrs_seen f' = master_addrs_seen f
}.

Record same_totals (a a' : Dnp3Analyzer) : Prop := {
  st_flows : flows a' = flows a;
  st_threshold : direct_operate_threshold a' = direct_operate_threshold a;
  st_fn : fn_code_counts a' = fn_code_counts a;
  st_closed : closed_flows_count a' = closed_flows_count a;
  st_frames : total_frames_closed a' = total_frames_closed a;
  st_errors : parse_errors_closed a' = parse_errors_closed a;
  st_operates : closed_flow_direct_operates a' = closed_flow_direct_operates a;
  st_findings : ∃ l, all_findings a' = all_findings a ++ l ∧
    (zlen (all_findings a) ≤ DNP3_MAX_FINDINGS → zlen (all_findings a') ≤ DNP3_MAX_FINDINGS)
}.

Record events_le (j : Z) (f f' : Dnp3FlowState) : Prop := {
  ev_restart : 0 ≤ restart_event_count f → 0 ≤ restart_event_count f';
  ev_block : 0 ≤ block_event_count f → 0 ≤ block_event_count f';
  ev_pending : Z.of_nat (size (pending_requests f)) ≤ MAX_PENDING_REQUESTS →
    Z.of_nat (size (pending_requests f')) ≤ MAX_PENDING_REQUESTS;
  ev_total : 0 ≤ restart_event_count f → 0 ≤ block_event_count f → events f' ≤ events f + j
}.

Record calm (j : Z) (w w' : work) : Prop := {
  q_frames : same_frames w.2 w'.2;
  q_totals : same_totals w.1 w'.1;
  q_events : events_le j w.2 w'.2
}.

Lemma same_frames_refl f : same_frames f f.
Proof. by split. Qed.

Lemma same_totals_refl a : same_totals a a.
Proof. split; try done. exists []. by rewrite app_nil_r. Qed.

Lemma events_le_refl f : events_le 0 f f.
Proof. split; intros; lia. Qed.

Lemma same_frames_trans f1 f2 f3 : same_frames f1 f2 → same_frames f2 f3 → same_frames f1 f3.
Proof. intros [] []. split; congruence. Qed.

Lemma same_totals_trans a1 a2 a3 : same_totals a1 a2 → same_totals a2 a3 → same_totals a1 a3.
Proof.
  intros [???????(l & E & H)] [???????(l' & E' & H')]. split; try congruence.
  exists (l ++ l'). rewrite E', E, app_assoc. split; [done|]. rewrite <- E, <- E'. auto.
Qed.

Lemma events_le_trans j i f1 f2 f3 :
  events_le j f1 f2 → events_le i f2 f3 → events_le (j + i) f1 f3.
Proof.
  intros [R1 B1 P1 T1] [R2 B2 P2 T2]. split; intros; auto.
  specialize (T1 ltac:(done) ltac:(done)). specialize (T2 ltac:(auto) ltac:(auto)). lia.
Qed.

Lemma calm_refl w : calm 0 w w.
Proof. split; auto using same_frames_refl, same_totals_refl, events_le_refl. Qed.

Lemma calm_trans j i w1 w2 w3 : calm j w1 w2 → calm i w2 w3 → calm (j + i) w1 w3.
Proof.
  intros [F1 T1 E1] [F2 T2 E2].
  split; eauto using same_frames_trans, same_totals_trans, events_le_trans.
Qed.

Lemma calm_mono j i w w' : j ≤ i → calm j w w' → calm i w w'.
Proof.
  intros ? [F T [R B P E]]. split; [done|done|]. split; try done.
  intros. specialize (E ltac:(done) ltac:(done)). lia.
Qed.

Lemma emit_totals a x : same_totals a (emit a x).
Proof.
  unfold emit. destruct (Z.ltb_spec (zlen (all_findings a)) DNP3_MAX_FINDINGS).
  - split; try done. exists [x]. split; [done|]. simpl. zlia.
  - split; try done. exists []. by rewrite app_nil_r.
Qed.

(** A detector that only emits and changes flags of the flow. *)
Lemma calm_flags a a' f f' :
  same_totals a a' → same_frames f f' →
  restart_event_count f' = restart_event_count f → block_event_count f' = block_event_count f →
  pending_requests f' = pending_requests f → calm 0 (a, f) (a', f').
Proof.
  intros Ha Hf Er Eb Ep. split; [done|done|].
  split; unfold events; simpl; rewrite ?Er, ?Eb, ?Ep; intros; lia.
Qed.

Create HintDb dnp3.
#[local] Hint Resolve emit_totals same_totals_refl same_frames_refl calm_refl : dnp3.

(** Split every branch of a detector and close it as one that only emits. *)
Ltac calm_branches :=
  repeat case_match; simplify_eq/=;
  (apply calm_refl || (apply calm_flags; [by auto with dnp3|by split|done|done|done])).

Lemma burst_calm w fc dest src d : calm 0 w (detect_control_class_burst_split w fc dest src d).
Proof. destruct w as [a f]. unfold detect_control_class_burst_split. calm_branches. Qed.

Lemma unexpected_calm w fc dest src d : calm 0 w (detect_unexpected_source_split w fc dest src d).
Proof. destruct w as [a f]. unfold detect_unexpected_source_split. calm_branches. Qed.

Lemma unsolicited_calm w fc ctrl dest src d :
  calm 0 w (detect_unsolicited_anomaly w fc ctrl dest src d).
Proof. destruct w as [a f]. unfold detect_unsolicited_anomaly. calm_branches. Qed.

Lemma unsolicited_control_calm w fc dest src d :
  calm 0 w (detect_unsolicited_control w fc dest src d).
Proof. destruct w as [a f]. unfold detect_unsolicited_control. calm_branches. Qed.

Lemma malformed_calm w d : calm 0 w (check_malformed_anomaly w d).
Proof. destruct w as [a f]. unfold check_malformed_anomaly. calm_branches. Qed.

Lemma t0827_calm w dest d w' : maybe_emit_t0827 w dest d = Some w' → calm 0 w w'.
Proof.
  destruct w as [a f]. unfold maybe_emit_t0827.
  destruct (cadd _ _ _); [|done]. cbn [mbind option_bind]. intros E. calm_branches.
Qed.

Lemma t0827_Some w dest d :
  restart_event_count w.2 + block_event_count w.2 ≤ u64_max →
  ∃ w', maybe_emit_t0827 w dest d = Some w'.
Proof. destruct w as [a f]. simpl. intros H. unfold maybe_emit_t0827. rewrite cadd_Some by done. by eexists. Qed.

Lemma restart_calm w fc dest src d : calm 1 w (detect_restart_split w fc dest src d).
Proof.
  destruct w as [a f]. unfold detect_restart_split.
  split; simpl; [by split|apply emit_totals|].
  split; unfold events, sat_add; simpl; intros; ulia.
Qed.

(** ** Timeouts do not depend on the order of the map *)

(** The requests that have waited too long at [ts], and the others. *)
Definition late (ts : Z) (f : Dnp3FlowState) : gmap (Z * Z) Z :=
  filter (λ kv, BLOCK_CMD_TIMEOUT_SECS < sat_sub ts kv.2) (pending_requests f).

Definition waiting (ts : Z) (f : Dnp3FlowState) : gmap (Z * Z) Z :=
  filter (λ kv, ¬ BLOCK_CMD_TIMEOUT_SECS < sat_sub ts kv.2) (pending_requests f).

(** The smallest element; 0 of the empty list. *)
Definition least (l : list Z) : Z := match l with [] => 0 | x :: l => foldr Z.min x l end.

Lemma foldr_min_perm x l k : l ≡ₚ k → foldr Z.min x l = foldr Z.min x k.
Proof. intros Hp. induction Hp; simpl; [done|by f_equal|lia|congruence]. Qed.

Lemma foldr_min_swap x y l : foldr Z.min x (y :: l) = foldr Z.min y (x :: l).
Proof. revert x y. simpl. induction l as [|z l IH]; intros x y; simpl; [lia|]. specialize (IH x y). lia. Qed.

Lemma least_perm l k : l ≡ₚ k → least l = least k.
Proof.
  intros Hp. induction Hp as [|x l k Hp IH|x y l|l1 l2 l3 _ IH1 _ IH2]; simpl; try done.
  - by apply foldr_min_perm.
  - apply (foldr_min_swap y x).
  - congruence.
Qed.

Lemma foldr_min_min x y l : foldr Z.min (Z.min x y) l = Z.min x (foldr Z.min y l).
Proof. induction l as [|z l IH]; simpl; lia. Qed.

Lemma foldl_delete_lookup {K V} `{Countable K} (l : list K) (m : gmap K V) k :
  foldl (λ m k, delete k m) m l !! k = if bool_decide (k ∈ l) then None else m !! k.
Proof.
  revert m. induction l as [|x l IH]; intros m; [done|]. cbn [foldl]. rewrite IH.
  destruct (decide (k ∈ l)) as [Hl|Hl].
  { rewrite !bool_decide_eq_true_2; [done|set_solver|done]. }
  rewrite bool_decide_eq_false_2 by done. destruct (decide (k = x)) as [->|Hne].
  - rewrite bool_decide_eq_true_2 by set_solver. apply lookup_delete_eq.
  - rewrite bool_decide_eq_false_2 by set_solver. by rewrite lookup_delete_ne.
Qed.

Lemma drop_timed_out_rest l f m :
  block_event_count f ≤ u64_max →
  drop_timed_out l f false m =
    (f <| pending_requests := foldl (λ m k, delete k m) (pending_requests f) l |>
       <| block_event_count := sat_add u64_max (block_event_count f) (zlen l) |>,
     false, foldr Z.min m l.*1).
Proof.
  revert f m. induction l as [|[dest seq] l IH]; intros f m Hb.
  { cbn [drop_timed_out foldl]. rewrite zlen_nil, sat_add_0 by done. by destruct f. }
  cbn [drop_timed_out fst orb].
  assert ((if dest <? m then (dest, false) else (m, false)) = (Z.min dest m, false)) as ->.
  { destruct (Z.ltb_spec dest m); f_equal; lia. }
  rewrite IH by (unfold sat_add; simpl; lia). f_equal; [f_equal|].
  - destruct f; unfold sat_add in *; simpl in *. f_equal. zlia.
  - cbn [fmap list_fmap foldr fst]. apply foldr_min_min.
Qed.

Lemma drop_timed_out_spec l f :
  block_event_count f ≤ u64_max →
  drop_timed_out l f true 0 =
    (f <| pending_requests := foldl (λ m k, delete k m) (pending_requests f) l |>
       <| block_event_count := sat_add u64_max (block_event_count f) (zlen l) |>,
     bool_decide (l = []), least l.*1).
Proof.
  intros Hb. destruct l as [|[dest seq] l].
  { change (zlen []) with 0. rewrite sat_add_0 by done. by destruct f. }
  cbn [drop_timed_out fst orb]. rewrite drop_timed_out_rest by (unfold sat_add; simpl; lia).
  rewrite bool_decide_eq_false_2 by done. f_equal. f_equal.
  destruct f; unfold sat_add in *; simpl in *. f_equal. zlia.
Qed.

(** The scan without an iteration order. *)
Definition scan_reference (w : work) (d : delivery) : panicky work :=
  let '(a, f) := w in
  let gone := late (d_ts d) f in
  let dest := least (map_to_list gone).*1.*1 in
  let f := f <| pending_requests := waiting (d_ts d) f |>
             <| block_event_count :=
                  sat_add u64_max (block_event_count f) (Z.of_nat (size gone)) |> in
  let w := report_blocked (a, f) dest d in
  if bool_decide (gone = ∅) then Some w else maybe_emit_t0827 w dest d.

Section analyzer.
Context `{!IterOrder (Z * Z) Z}.

Lemma timed_out_perm ts f :
  (filter (λ kv, BLOCK_CMD_TIMEOUT_SECS < sat_sub ts kv.2) (map_iter (pending_requests f))).*1
  ≡ₚ (map_to_list (late ts f)).*1.
Proof.
  apply fmap_Permutation. unfold late. rewrite map_iter_perm.
  apply NoDup_Permutation.
  - apply NoDup_filter, NoDup_map_to_list.
  - apply NoDup_map_to_list.
  - intros [k v]. rewrite list_elem_of_filter, !elem_of_map_to_list, map_lookup_filter_Some. tauto.
Qed.

Lemma late_waiting ts f l :
  l ≡ₚ (map_to_list (late ts f)).*1 →
  foldl (λ m k, delete k m) (pending_requests f) l = waiting ts f.
Proof.
  intros Hl. apply map_eq. intros k. rewrite foldl_delete_lookup. unfold waiting, late in *.
  destruct (decide (k ∈ l)) as [Hk|Hk].
  - rewrite bool_decide_eq_true_2 by done. symmetry. apply map_lookup_filter_None. right.
    rewrite Hl in Hk. apply list_elem_of_fmap in Hk as ([k' v] & -> & Hin).
    apply elem_of_map_to_list, map_lookup_filter_Some in Hin as [Hin Hlate].
    simpl in *. intros v' Hv'. simplify_eq. tauto.
  - rewrite bool_decide_eq_false_2 by done.
    destruct (pending_requests f !! k) as [v|] eqn:E; symmetry.
    + apply map_lookup_filter_Some. split; [done|]. simpl. intros Hlate. apply Hk. rewrite Hl.
      apply list_elem_of_fmap. exists (k, v). split; [done|].
      by apply elem_of_map_to_list, map_lookup_filter_Some.
    + apply map_lookup_filter_None. by left.
Qed.

Lemma scan_block_timeouts_reference a f d :
  block_event_count f ≤ u64_max → scan_block_timeouts (a, f) d = scan_reference (a, f) d.
Proof.
  intros Hb. unfold scan_block_timeouts, scan_reference.
  pose proof (timed_out_perm (d_ts d) f) as Hp.
  set (l := (filter _ _).*1) in *.
  rewrite drop_timed_out_spec by done. rewrite (late_waiting (d_ts d) f l Hp).
  rewrite (least_perm l.*1 (map_to_list (late (d_ts d) f)).*1.*1) by (by rewrite Hp).
  assert (zlen l = Z.of_nat (size (late (d_ts d) f))) as ->.
  { unfold zlen. rewrite Hp, length_fmap. by rewrite length_map_to_list. }
  assert (bool_decide (l = []) = bool_decide (late (d_ts d) f = ∅)) as ->.
  { apply bool_decide_ext. split; intros E.
    - rewrite E in Hp. symmetry in Hp. apply Permutation_nil_r, fmap_nil_inv, map_to_list_empty_iff in Hp.
      done.
    - rewrite E, map_to_list_empty in Hp. by apply Permutation_nil_r in Hp. }
  done.
Qed.

Lemma waiting_late_size ts f :
  (size (waiting ts f) + size (late ts f) = size (pending_requests f))%nat.
Proof.
  unfold waiting, late.
  rewrite <- map_size_disj_union by (symmetry; apply map_disjoint_filter_complement).
  f_equal. rewrite map_union_comm by (symmetry; apply map_disjoint_filter_complement).
  apply map_filter_union_complement.
Qed.

Lemma report_blocked_calm w dest d : calm 0 w (report_blocked w dest d).
Proof. destruct w as [a f]. unfold report_blocked. calm_branches. Qed.

(** The flow after the late requests are gone. *)
Definition without_late (ts : Z) (f : Dnp3FlowState) : Dnp3FlowState :=
  f <| pending_requests := waiting ts f |>
    <| block_event_count :=
         sat_add u64_max (block_event_count f) (Z.of_nat (size (late ts f))) |>.

Lemma without_late_calm a f ts : calm 0 (a, f) (a, without_late ts f).
Proof.
  pose proof (waiting_late_size ts f).
  split; [by split|apply same_totals_refl|].
  split; unfold without_late, events, sat_add; simpl; intros; ulia.
Qed.

Lemma scan_calm a f d :
  block_event_count f ≤ u64_max → 0 ≤ restart_event_count f → 0 ≤ block_event_count f →
  events f ≤ u64_max → ∃ w', scan_block_timeouts (a, f) d = Some w' ∧ calm 0 (a, f) w'.
Proof.
  intros Hb Hr Hb0 He. rewrite scan_block_timeouts_reference by done. unfold scan_reference.
  fold (without_late (d_ts d) f).
  set (dest := least _). set (w := report_blocked _ _ _).
  assert (calm 0 (a, f) w) as Hq.
  { apply (calm_trans 0 0 _ (a, without_late (d_ts d) f)).
    - apply without_late_calm.
    - apply report_blocked_calm. }
  case_match; [by exists w|].
  destruct (t0827_Some w dest d) as [w' Hw'].
  - destruct Hq as [_ _ [? ? _ Ht]]. specialize (Ht Hr Hb0). unfold events in *. simpl in *. lia.
  - exists w'. split; [done|]. apply (calm_trans 0 0 _ w); [done|]. by eapply t0827_calm.
Qed.

Lemma insert_pending_calm a f key ts f' b :
  insert_pending_request f key ts = (f', b) → calm 1 (a, f) (a, f').
Proof.
  unfold insert_pending_request. intros E. case_match eqn:Ec; simplify_eq.
  - apply andb_prop in Ec as [Hs%Z.leb_le Hn%negb_true_iff%bool_decide_eq_false].
    destruct (evict_oldest_spec id (pending_requests f)) as (k0 & t0 & Hin & _ & ->).
    { intros Hp. rewrite Hp, map_size_empty in Hs. by vm_compute in Hs. }
    pose proof (map_size_delete_S _ _ _ Hin) as Hd.
    assert (delete k0 (pending_requests f) !! key = None) as Hk.
    { apply lookup_delete_None. right. by apply eq_None_not_Some. }
    split; [by split|apply same_totals_refl|].
    split; unfold events; simpl; rewrite ?(map_size_insert_None key ts _ Hk); intros; lia.
  - split; [by split|apply same_totals_refl|].
    assert (Z.of_nat (size (<[key:=ts]> (pending_requests f)))
      ≤ Z.of_nat (size (pending_requests f)) + 1) as Hle.
    { rewrite map_size_insert. case_match; unfold id; lia. }
    assert (Z.of_nat (size (pending_requests f)) ≤ MAX_PENDING_REQUESTS →
      Z.of_nat (size (<[key:=ts]> (pending_requests f))) ≤ MAX_PENDING_REQUESTS) as Hcap.
    { intros Hs. apply andb_false_iff in Ec as [Ec%Z.leb_gt|Ec%negb_false_iff%bool_decide_eq_true].
      - lia.
      - by rewrite (map_size_insert_Some key ts _ Ec). }
    split; unfold events; simpl; intros; try done; lia.
Qed.

Lemma note_request_calm w fc ctrl dest d : calm 1 w (note_request w fc ctrl dest d).
Proof.
  destruct w as [a f]. unfold note_request.
  case_match; [|by apply (calm_mono 0), calm_refl].
  destruct (insert_pending_request _ _ _) as [f' b] eqn:E.
  pose proof (insert_pending_calm a f _ _ _ _ E) as [F T V]. split; [done| |done].
  destruct b; [|apply same_totals_refl]. split; try done. exists []. by rewrite app_nil_r.
Qed.

Lemma control_arm_calm w unexpected fc ctrl dest src d :
  calm 1 w (control_arm w unexpected fc ctrl dest src d).
Proof.
  unfold control_arm. set (w1 := if is_broadcast_destination dest then _ else _).
  assert (calm 0 w w1).
  { unfold w1, detect_broadcast_anomaly. destruct w as [a f]. calm_branches. }
  set (w2 := if unexpected then _ else _).
  assert (calm 0 w1 w2).
  { unfold w2. destruct unexpected; [apply unexpected_calm|apply calm_refl]. }
  apply (calm_trans 0 1 _ w1); [done|]. apply (calm_trans 0 1 _ w2); [done|].
  apply (calm_trans 1 0 _ (note_request w2 fc ctrl dest d)).
  - apply note_request_calm.
  - apply burst_calm.
Qed.

Lemma response_arm_calm w fc ctrl dest src d : calm 0 w (response_arm w fc ctrl dest src d).
Proof.
  unfold response_arm. pose proof (unsolicited_calm w fc ctrl dest src d) as Hq.
  destruct (detect_unsolicited_anomaly _ _ _ _ _ _) as [a f]. case_match; [|done].
  apply (calm_trans 0 0 _ (a, f)); [done|]. split; [by split|apply same_totals_refl|].
  set (key := (src, Z.land ctrl 15)).
  assert (size (delete key (pending_requests f)) ≤ size (pending_requests f))%nat.
  { rewrite map_size_delete. case_match; unfold id; lia. }
  split; unfold events; simpl; intros; lia.
Qed.

(** The dispatch on the class, after the counters. *)
Definition arms (w : work) (unexpected : bool) (fc ctrl dest src : Z) (d : delivery) :
    panicky work :=
  match classify_dnp3_fc fc with
  | Control => Some (control_arm w unexpected fc ctrl dest src d)
  | Restart => maybe_emit_t0827 (detect_restart_split w fc dest src d) dest d
  | Write => Some (detect_write_split w.1 dest src d, w.2)
  | Response => Some (response_arm w fc ctrl dest src d)
  | _ => Some w
  end.

Lemma arms_calm w unexpected fc ctrl dest src d w' :
  arms w unexpected fc ctrl dest src d = Some w' → calm 1 w w'.
Proof.
  unfold arms. pose proof (calm_mono 0 1 w w ltac:(lia) (calm_refl w)).
  destruct (classify_dnp3_fc fc); intros E; simplify_eq; eauto using control_arm_calm.
  - apply (calm_mono 0); [lia|]. destruct w as [a f]. unfold detect_write_split. calm_branches.
  - apply (calm_trans 1 0 _ (detect_restart_split w fc dest src d)).
    + apply restart_calm.
    + by eapply t0827_calm.
  - apply (calm_mono 0); [lia|]. apply response_arm_calm.
Qed.

(** Only a restart can overflow. *)
Lemma arms_Some w unexpected fc ctrl dest src d :
  restart_event_count w.2 + block_event_count w.2 < u64_max →
  0 ≤ restart_event_count w.2 → 0 ≤ block_event_count w.2 →
  ∃ w', arms w unexpected fc ctrl dest src d = Some w'.
Proof.
  intros He Hr Hb. unfold arms. destruct (classify_dnp3_fc fc); eauto.
  apply t0827_Some. destruct w as [a f]. cbn in *. unfold sat_add. ulia.
Qed.

(** [dispatch_fc] is counting, the raw function-code check and the arms. *)
Lemma dispatch_fc_steps a f unexpected fc ctrl dest src d fcs fns :
  bump_count (fc_counts f) fc = Some fcs → bump_count (fn_code_counts a) fc = Some fns →
  ∃ w1, calm 0 (a <| fn_code_counts := fns |>, f <| fc_counts := fcs |>) w1 ∧
    dispatch_fc (a, f) unexpected fc ctrl dest src d = arms w1 unexpected fc ctrl dest src d.
Proof.
  intros E1 E2. unfold dispatch_fc. rewrite E1, E2. cbn [mbind option_bind].
  set (w0 := (a <| fn_code_counts := fns |>, f <| fc_counts := fcs |>)).
  exists (if (fc =? 0x14) || (fc =? 0x15) then detect_unsolicited_control w0 fc dest src d else w0).
  split; [|done].
  destruct (_ || _); [apply unsolicited_control_calm|apply calm_refl].
Qed.

(** ** The invariant

    Every byte delivered pays for at most one counted event: [spent] bounds
    what the frame, error and function-code counters, the buffers of the flow
    and everything outside the flow ([R]) add up to by [n].  [j] is the number
    of correlation events the flow may still gain before its frames do not
    pay for them any more. *)

Definition weight (f : Dnp3FlowState) : Z := held_bytes f + frame_count f + parse_errors f.

Record dnp3_flow_ok (j : Z) (f : Dnp3FlowState) : Prop := {
  fo_c2s : zlen (carry_c2s f) ≤ MAX_DNP3_FRAME_LEN;
  fo_s2c : zlen (carry_s2c f) ≤ MAX_DNP3_FRAME_LEN;
  fo_errors : 0 ≤ parse_errors f;
  fo_restart : 0 ≤ restart_event_count f;
  fo_block : 0 ≤ block_event_count f;
  fo_events : events f + j ≤ frame_count f;
  fo_pending : Z.of_nat (size (pending_requests f)) ≤ MAX_PENDING_REQUESTS;
  fo_masters : NoDup (master_addrs_seen f) ∧ zlen (master_addrs_seen f) ≤ MAX_MASTER_ADDRS
}.

Record in_budget (j R n : Z) (w : work) : Prop := {
  wk_findings : zlen (all_findings w.1) ≤ DNP3_MAX_FINDINGS;
  wk_flow : dnp3_flow_ok j w.2;
  wk_fc : ∀ fc, fcount (fc_counts w.2) fc ≤ fcount (fn_code_counts w.1) fc;
  wk_fn : ∀ fc, 0 ≤ fcount (fn_code_counts w.1) fc;
  wk_rest : 0 ≤ R;
  wk_spent : ∀ fc, fcount (fn_code_counts w.1) fc + R + weight w.2 ≤ n
}.

Lemma events_nonneg f : 0 ≤ restart_event_count f → 0 ≤ block_event_count f → 0 ≤ events f.
Proof. unfold events. lia. Qed.

Lemma budget_calm i j R n w w' : in_budget (i + j) R n w → calm i w w' → in_budget j R n w'.
Proof.
  intros [Hf [C1 C2 He Hr Hb Hev Hp Hm] Hc Hn HR Hs] [[] [???????(l & _ & Hl)] [E1 E2 E3 E4]].
  specialize (E4 Hr Hb).
  split; simpl; [by auto| | | |done|].
  - split; rewrite ?sf_c2s0, ?sf_s2c0, ?sf_errors0, ?sf_masters0; auto. lia.
  - intros fc. by rewrite sf_fc0, st_fn0.
  - intros fc. by rewrite st_fn0.
  - intros fc. specialize (Hs fc). unfold weight, held_bytes in *.
    by rewrite st_fn0, sf_c2s0, sf_s2c0, sf_frames0, sf_errors0.
Qed.

Lemma same_frames_held_bytes f f' : same_frames f f' → held_bytes f' = held_bytes f.
Proof. intros []. unfold held_bytes. congruence. Qed.

Lemma same_frames_active f f' dir : same_frames f f' → active_carry f' dir = active_carry f dir.
Proof. intros []. by destruct dir. Qed.

Lemma budget_frames j R n w : in_budget j R n w → 0 ≤ j → 0 ≤ frame_count w.2 ∧ weight w.2 ≤ n.
Proof.
  intros [_ [] _ Hn HR Hs] Hj. specialize (Hn 0). specialize (Hs 0).
  pose proof (events_nonneg w.2). split; lia.
Qed.

Lemma budget_set_carry j R n a f dir c :
  in_budget j R n (a, f) → zlen c ≤ MAX_DNP3_FRAME_LEN →
  in_budget j R (n - zlen (active_carry f dir) + zlen c) (a, set_active_carry f dir c).
Proof.
  intros [Hf [] Hc Hn HR Hs] Hl. split; simpl; try (by destruct dir).
  intros fc. specialize (Hs fc). unfold weight in *. rewrite held_bytes_set. simpl in *.
  destruct dir; simpl in *; lia.
Qed.

Lemma budget_mono j R n m w : n ≤ m → in_budget j R n w → in_budget j R m w.
Proof. intros ? []. split; try done. intros fc. specialize (wk_spent0 fc). lia. Qed.

Lemma count_malformed_budget R n a f :
  in_budget 0 R n (a, f) → in_budget 0 R (n + 1) (a, count_malformed f).
Proof.
  intros [Hf [] Hc Hn HR Hs]. simpl in *. split; simpl; try done.
  - split; simpl; try done. unfold sat_add. ulia.
  - intros fc. specialize (Hs fc). unfold weight, held_bytes in *. simpl in *.
    unfold sat_add. lia.
Qed.

(** A structural reject that drops at least one byte. *)
Lemma reject_budget R n a f dir c d :
  in_budget 0 R n (a, f) → zlen c < zlen (active_carry f dir) →
  in_budget 0 R n (check_malformed_anomaly (a, set_active_carry (count_malformed f) dir c) d).
Proof.
  intros Hw Hc. eapply budget_calm; [|apply malformed_calm].
  apply count_malformed_budget in Hw.
  pose proof (wk_flow _ _ _ _ Hw) as [Hc2s Hs2c _ _ _ _ _ _].
  assert (zlen (active_carry (count_malformed f) dir) = zlen (active_carry f dir)) as E by (by destruct dir).
  apply (budget_set_carry _ _ _ _ _ dir c) in Hw.
  - rewrite E in Hw. eapply budget_mono; [|done]. lia.
  - destruct dir; simpl in *; lia.
Qed.

(** *** Frames *)

#[local] Arguments dispatch_fc : simpl never.
#[local] Arguments check_malformed_anomaly : simpl never.
#[local] Arguments short_carry : simpl never.
#[local] Arguments process_valid_frame : simpl never.
#[local] Arguments count_malformed : simpl never.

Lemma count_frame_budget R n a f :
  in_budget 0 R n (a, f) → n ≤ u64_max → 1 ≤ held_bytes f →
  in_budget 1 R (n + 1) (a, f <| frame_count := sat_add u64_max (frame_count f) 1 |>).
Proof.
  intros Hw Hn64 Hbuf. pose proof (budget_frames _ _ _ _ Hw ltac:(lia)) as [Hfc Hle].
  destruct Hw as [Hf [] Hc Hn HR Hs]. simpl in *.
  assert (sat_add u64_max (frame_count f) 1 = frame_count f + 1) as E.
  { unfold sat_add, weight in *. lia. }
  rewrite E. split; simpl; try done.
  - split; simpl; try done. unfold events in *. simpl. lia.
  - intros fc. specialize (Hs fc). unfold weight, held_bytes in *. simpl in *. lia.
Qed.

Lemma note_master_spec w h :
  ∃ a' f', note_master w h = (a', f') ∧ same_totals w.1 a' ∧
    f' = w.2 <| master_addrs_seen := master_addrs_seen f' |> ∧
    (NoDup (master_addrs_seen w.2) ∧ zlen (master_addrs_seen w.2) ≤ MAX_MASTER_ADDRS →
     NoDup (master_addrs_seen f') ∧ zlen (master_addrs_seen f') ≤ MAX_MASTER_ADDRS).
Proof.
  destruct w as [a f]. unfold note_master. simpl.
  destruct (is_master_frame _ && _) eqn:E.
  - apply andb_prop in E as [_ Hn%negb_true_iff%bool_decide_eq_false].
    destruct (Z.ltb_spec (zlen (master_addrs_seen f)) MAX_MASTER_ADDRS).
    + eexists _, _. split; [done|]. split; [apply same_totals_refl|]. split; [done|]. simpl.
      intros [Hd Hl]. split; [|zlia]. apply NoDup_app. split; [done|]. split; [set_solver|].
      apply NoDup_singleton.
    + eexists _, _. split; [done|]. split.
      * split; try done. exists []. by rewrite app_nil_r.
      * by destruct f.
  - eexists _, _. split; [done|]. split; [apply same_totals_refl|]. by destruct f.
Qed.

Lemma note_master_budget j R n w h : in_budget j R n w → in_budget j R n (note_master w h).
Proof.
  destruct (note_master_spec w h) as (a' & f' & -> & [???????(l & _ & Hl)] & Ef & Hm).
  intros [Hf [] Hc Hn HR Hs]. rewrite Ef.
  split; simpl; rewrite ?st_fn0; auto.
  split; simpl; auto.
Qed.

(** What the flow table and the closed totals see of the work on one flow. *)
Record outside (a a' : Dnp3Analyzer) : Prop := {
  out_flows : flows a' = flows a;
  out_frames : total_frames_closed a' = total_frames_closed a;
  out_errors : parse_errors_closed a' = parse_errors_closed a;
  out_fn : ∀ fc, fcount (fn_code_counts a) fc ≤ fcount (fn_code_counts a') fc
}.

Lemma outside_refl a : outside a a.
Proof. by split. Qed.

Lemma outside_trans a1 a2 a3 : outside a1 a2 → outside a2 a3 → outside a1 a3.
Proof. intros [??? F1] [??? F2]. split; try congruence. intros fc. specialize (F1 fc). specialize (F2 fc). lia. Qed.

Lemma outside_totals a a' : same_totals a a' → outside a a'.
Proof. intros []. split; try done. intros fc. by rewrite st_fn0. Qed.

(** Counting pays one unit; the arms use up the event of the frame. *)
Lemma dispatch_fc_budget R n a f unexpected fc ctrl dest src d :
  in_budget 1 R n (a, f) → 2 ≤ held_bytes f → n ≤ u64_max + 1 →
  ∃ w', dispatch_fc (a, f) unexpected fc ctrl dest src d = Some w' ∧
    in_budget 0 R (n + 1) w' ∧
    (∀ dir, active_carry w'.2 dir = active_carry f dir) ∧ outside a w'.1.
Proof.
  intros Hw Hbuf Hn64. pose proof (budget_frames _ _ _ _ Hw ltac:(lia)) as [Hfr Hle].
  pose proof Hw as [Hf [] Hc Hn HR Hs]. simpl in *.
  assert (fcount (fn_code_counts a) fc < u64_max) as Hfn.
  { specialize (Hs fc). unfold weight in *. lia. }
  destruct (bump_count_Some (fn_code_counts a) fc) as (fns & E1 & F1); [done|].
  destruct (bump_count_Some (fc_counts f) fc) as (fcs & E2 & F2).
  { specialize (Hc fc). lia. }
  destruct (dispatch_fc_steps a f unexpected fc ctrl dest src d fcs fns E2 E1) as (w1 & Hq1 & ->).
  set (w0 := (a <| fn_code_counts := fns |>, f <| fc_counts := fcs |>)) in *.
  assert (in_budget 1 R (n + 1) w0) as Hw0.
  { split; simpl; try done.
    - intros fc'. rewrite F1, F2. specialize (Hc fc'). lia.
    - intros fc'. rewrite F1. specialize (Hn fc'). case_decide; lia.
    - intros fc'. rewrite F1. specialize (Hs fc'). unfold weight, held_bytes in *. simpl.
      case_decide; lia. }
  pose proof (budget_calm 0 1 _ _ _ _ Hw0 Hq1) as Hw1.
  destruct (arms_Some w1 unexpected fc ctrl dest src d) as (w' & E).
  { pose proof (wk_flow _ _ _ _ Hw1) as [_ _ He _ _ Hev _ _].
    pose proof (budget_frames _ _ _ _ Hw1 ltac:(lia)) as [_ Hle1].
    pose proof (same_frames_held_bytes _ _ (q_frames _ _ _ Hq1)) as Hb1.
    change (held_bytes w0.2) with (held_bytes f) in Hb1.
    unfold events, weight in *. lia. }
  { apply Hw1. } { apply Hw1. }
  pose proof (arms_calm _ _ _ _ _ _ _ _ E) as Hq2.
  exists w'. split; [done|]. split; [by eapply (budget_calm 1 0)|].
  pose proof (calm_trans _ _ _ _ _ Hq1 Hq2) as [Hsf Hst _]. split.
  - intros dir. rewrite (same_frames_active _ _ dir Hsf). by destruct dir.
  - apply outside_trans with w0.1; [|by apply outside_totals].
    split; try done. intros fc'. simpl. rewrite F1. case_decide; lia.
Qed.

Lemma note_master_outside w h : outside w.1 (note_master w h).1.
Proof.
  destruct (note_master_spec w h) as (a' & f' & -> & Ht & _). by apply outside_totals.
Qed.

Lemma note_master_carry w h dir :
  active_carry (note_master w h).2 dir = active_carry w.2 dir ∧
  held_bytes (note_master w h).2 = held_bytes w.2.
Proof.
  destruct (note_master_spec w h) as (a' & f' & -> & _ & Ef & _). simpl. rewrite Ef. by destruct dir.
Qed.

Lemma process_valid_frame_budget R n a f h frame_len d :
  let carry := active_carry f (d_dir d) in
  in_budget 0 R n (a, f) → 10 ≤ frame_len ≤ zlen carry → n ≤ u64_max →
  ∃ w', process_valid_frame (a, f) h frame_len carry d = Some w' ∧
    in_budget 0 R (n + 2) w' ∧
    active_carry w'.2 (d_dir d) = carry ∧ outside a w'.1.
Proof.
  intros carry Hw Hlen Hn64.
  assert (zlen carry ≤ held_bytes f) as Hcb.
  { unfold carry, held_bytes. destruct (d_dir d); simpl; zlia. }
  unfold process_valid_frame.
  set (w := note_master _ h). set (unexpected := is_master_frame _ && _ && _).
  assert (in_budget 1 R (n + 1) w) as Hw1.
  { apply note_master_budget, count_frame_budget; [done|done|lia]. }
  destruct (note_master_carry (a, f <| frame_count := sat_add u64_max (frame_count f) 1 |>) h
    (d_dir d)) as [Hc Hb]. fold w in Hc, Hb.
  assert (outside a w.1) as Ho.
  { exact (note_master_outside (a, f <| frame_count := sat_add u64_max (frame_count f) 1 |>) h). }
  assert (active_carry w.2 (d_dir d) = carry) as Hc' by (rewrite Hc; by destruct (d_dir d)).
  clearbody w. destruct w as [a1 f1]. simpl in *.
  assert (in_budget 0 R (n + 2) (a1, f1)) as Hw2.
  { eapply budget_mono; [|eapply (budget_calm 1 0); [done|apply (calm_mono 0); [lia|apply calm_refl]]].
    lia. }
  destruct (_ && has_user_data _) eqn:Eu; [|by exists (a1, f1)].
  apply andb_prop in Eu as [H13%Z.leb_le _].
  destruct (index_Some carry 10) as [oct ->]; [lia|].
  destruct (index_Some carry 11) as [ctrl ->]; [lia|].
  destruct (index_Some carry 12) as [fc ->]; [lia|]. cbn [mbind option_bind].
  destruct (transport_is_fir oct); [|by exists (a1, f1)].
  destruct (dispatch_fc_budget R (n + 1) a1 f1 unexpected fc ctrl (destination h) (source h) d)
    as (w' & E & Hw' & Hcar & Ho'); [done| |lia|].
  { assert (held_bytes f1 = held_bytes f) as -> by exact Hb. lia. }
  exists w'. split; [done|]. split; [by rewrite <- Z.add_assoc in Hw'|].
  split; [by rewrite Hcar|]. by apply outside_trans with a1.
Qed.

(** *** The walk *)

Definition round_work (r : round) : work := match r with Again w | Stop w => w end.

Definition carry_len (d : delivery) (w : work) : Z := zlen (active_carry w.2 (d_dir d)).

(** A round that goes on leaves fewer bytes, whatever the state is. *)
Lemma malformed_carry w d dir : active_carry (check_malformed_anomaly w d).2 dir = active_carry w.2 dir.
Proof. apply same_frames_active, (malformed_calm w d). Qed.

Lemma reject_carry a f d dir c :
  active_carry (check_malformed_anomaly (a, set_active_carry f dir c) d).2 dir = c.
Proof. rewrite malformed_carry. apply active_carry_set. Qed.

Lemma dnp3_round_decreases did w d w' :
  dnp3_round did w d = Some (Again w') → 0 ≤ carry_len d w' < carry_len d w.
Proof.
  unfold dnp3_round, length_reject, header_reject, carry_len. destruct w as [a f]. simpl.
  set (carry := active_carry f (d_dir d)). intros E.
  split; [apply zlen_nonneg|].
  destruct (Z.ltb_spec (zlen carry) 10) as [|H10].
  { destruct (short_carry _ _ _); by simplify_eq/=. }
  destruct (negb (is_sync carry)).
  { destruct (check_malformed_anomaly _ _) as [a1 f1]. simplify_eq/=.
    rewrite active_carry_set. apply resync_from_1_len. lia. }
  destruct (index carry 2) as [len|]; [|done]. cbn [mbind option_bind] in E.
  destruct (compute_dnp3_frame_len len) as [fl|] eqn:El.
  - apply compute_dnp3_frame_len_Some in El as (_ & _ & Hfl).
    destruct (Z.ltb_spec (zlen carry) fl) as [|Hge]; [done|].
    rewrite slice_suffix in E by lia.
    assert (zlen (drop (Z.to_nat fl) carry) < zlen carry) by (rewrite zlen_drop; lia).
    destruct (slice carry 0 fl); [|done]. cbn [mbind option_bind] in E.
    destruct (parse_dnp3_dl_header _) as [h|]; [destruct (is_valid_dnp3_frame_header h)|].
    + destruct (process_valid_frame _ _ _ _ _) as [[a1 f1]|]; [|done]. simplify_eq/=.
      by rewrite active_carry_set.
    + injection E as <-. by rewrite reject_carry.
    + injection E as <-. by rewrite reject_carry.
  - injection E as <-. rewrite reject_carry.
    pose proof (resync_len (drop 1 carry)). pose proof (zlen_drop_1 carry). lia.
Qed.

Lemma reject_outside a f d : outside a (check_malformed_anomaly (a, f) d).1.
Proof. apply outside_totals, (malformed_calm (a, f) d). Qed.

Lemma budget_carry j R n a f dir : in_budget j R n (a, f) → zlen (active_carry f dir) ≤ MAX_DNP3_FRAME_LEN.
Proof. intros [_ [] _ _ _ _]. by destruct dir. Qed.

Lemma short_carry_budget did R n a f d :
  in_budget 0 R n (a, f) →
  ∃ w', short_carry did (a, f) d = Some w' ∧ in_budget 0 R n w' ∧ outside a w'.1.
Proof.
  intros Hw. unfold short_carry. set (carry := active_carry f (d_dir d)).
  pose proof (outside_refl a).
  destruct (Z.leb_spec 2 (zlen carry)) as [H2|]; [|by exists (a, f)].
  destruct (negb (is_sync carry)).
  { eexists. split; [done|]. split; [|apply reject_outside].
    apply reject_budget; [done|]. apply resync_from_1_len. unfold carry in *. lia. }
  destruct (did && (3 <=? zlen carry)) eqn:E3; [|by exists (a, f)].
  apply andb_prop in E3 as [_ H3%Z.leb_le].
  destruct (index_Some carry 2) as [len ->]; [lia|]. cbn [mbind option_bind].
  destruct (compute_dnp3_frame_len len); [by exists (a, f)|].
  eexists. split; [done|]. split; [|apply reject_outside].
  apply reject_budget; [done|]. pose proof (resync_len (drop 1 carry)).
  pose proof (zlen_drop_1 carry). unfold carry in *. lia.
Qed.

(** The sync gate counts before it drains. *)
Lemma sync_loss_budget R n a f d c :
  in_budget 0 R n (a, f) → zlen c < zlen (active_carry f (d_dir d)) →
  let '(a1, f1) := check_malformed_anomaly (a, count_malformed f) d in
  in_budget 0 R n (a1, set_active_carry f1 (d_dir d) c) ∧ outside a a1.
Proof.
  intros Hw Hlt. pose proof (budget_carry _ _ _ _ _ (d_dir d) Hw) as Hcap.
  pose proof (malformed_calm (a, count_malformed f) d) as Hq.
  pose proof (budget_calm 0 0 _ _ _ _ (count_malformed_budget _ _ _ _ Hw) Hq) as Hw2.
  pose proof (malformed_carry (a, count_malformed f) d (d_dir d)) as Hc.
  destruct (check_malformed_anomaly _ _) as [a1 f1]. split; [|by apply outside_totals, Hq].
  assert (active_carry f1 (d_dir d) = active_carry f (d_dir d)) as E.
  { cbn [snd] in Hc. rewrite Hc. by destruct (d_dir d). }
  apply (budget_set_carry _ _ _ _ _ (d_dir d) c) in Hw2; [|lia].
  rewrite E in Hw2. eapply budget_mono; [|exact Hw2]. lia.
Qed.

Lemma dnp3_round_budget did R n a f d :
  in_budget 0 R n (a, f) → n ≤ u64_max →
  ∃ r, dnp3_round did (a, f) d = Some r ∧ in_budget 0 R n (round_work r) ∧
    outside a (round_work r).1.
Proof.
  intros Hw Hn. unfold dnp3_round, length_reject, header_reject. set (carry := active_carry f (d_dir d)).
  assert (∀ c, zlen c < zlen carry →
    let w' := check_malformed_anomaly (a, set_active_carry (count_malformed f) (d_dir d) c) d in
    ∃ r, Some (Again w') = Some r ∧ in_budget 0 R n (round_work r) ∧ outside a (round_work r).1)
    as Hrej.
  { intros c Hc w'. exists (Again w'). split; [done|].
    split; [by apply reject_budget|apply reject_outside]. }
  destruct (Z.ltb_spec (zlen carry) 10) as [|H10].
  { destruct (short_carry_budget did R n a f d Hw) as (w' & -> & ? & ?). by exists (Stop w'). }
  destruct (negb (is_sync carry)).
  { pose proof (sync_loss_budget R n a f d (resync_from_1 carry) Hw
      (resync_from_1_len carry ltac:(lia))) as Hl.
    destruct (check_malformed_anomaly _ _) as [a1 f1]. by exists (Again (a1, set_active_carry f1 (d_dir d) (resync_from_1 carry))). }
  destruct (index_Some carry 2) as [len ->]; [lia|]. cbn [mbind option_bind].
  destruct (compute_dnp3_frame_len len) as [fl|] eqn:El.
  2: { apply Hrej. pose proof (resync_len (drop 1 carry)). pose proof (zlen_drop_1 carry). lia. }
  apply compute_dnp3_frame_len_Some in El as (_ & _ & Hfl).
  destruct (Z.ltb_spec (zlen carry) fl) as [|Hge].
  { eexists. split; [done|]. split; [done|apply outside_refl]. }
  rewrite slice_suffix, slice_Some by lia. cbn [mbind option_bind].
  assert (zlen (drop (Z.to_nat fl) carry) = zlen carry - fl) as Hrest by (rewrite zlen_drop; lia).
  destruct (parse_dnp3_dl_header _) as [h|]; [destruct (is_valid_dnp3_frame_header h)|];
    try (apply Hrej; lia).
  destruct (process_valid_frame_budget R n a f h fl d) as ([a1 f1] & E & Hw1 & Hc & Ho); [done| |done|].
  { fold carry. lia. }
  fold carry in E, Hc. rewrite E. cbn [mbind option_bind]. eexists. split; [done|].
  split; [|done]. cbn [snd] in Hc. eapply budget_mono; [|apply budget_set_carry; [exact Hw1|]].
  - rewrite Hc. lia.
  - pose proof (budget_carry _ _ _ _ _ (d_dir d) Hw). fold carry in H. lia.
Qed.

Lemma frame_walk_budget fuel did R n w d :
  in_budget 0 R n w → n ≤ u64_max → carry_len d w < Z.of_nat fuel →
  ∃ w', frame_walk fuel did w d = Some w' ∧ in_budget 0 R n w' ∧ outside w.1 w'.1.
Proof.
  revert did w. induction fuel as [|fuel IH]; intros did [a f] Hw Hn Hf.
  { unfold carry_len in Hf. zlia. }
  destruct (dnp3_round_budget did R n a f d Hw Hn) as (r & E & Hr & Ho).
  cbn [frame_walk]. rewrite E. cbn [mbind option_bind].
  destruct r as [w'|w']; [|by exists w'].
  destruct (IH true w' Hr Hn) as (w2 & E2 & H2 & Ho2).
  { apply dnp3_round_decreases in E. lia. }
  exists w2. split_and!; [done|done|]. by apply outside_trans with w'.1.
Qed.

Lemma accumulate_budget R n a f data d :
  in_budget 0 R n (a, f) →
  ∃ w', accumulate (a, f) data d = Some w' ∧ in_budget 0 R (n + zlen data) w' ∧ outside a w'.1.
Proof.
  intros Hw. pose proof (budget_carry _ _ _ _ _ (d_dir d) Hw) as Hcap.
  unfold accumulate. set (carry := active_carry f (d_dir d)) in *.
  pose proof (zlen_nonneg carry). rewrite csub_Some by lia. cbn [mbind option_bind].
  destruct (Z.ltb_spec (MAX_DNP3_FRAME_LEN - zlen carry) (zlen data)) as [Hlt|Hge].
  - rewrite slice_Some by lia. cbn [mbind option_bind]. eexists. split; [done|].
    split; [|apply reject_outside]. eapply budget_calm; [|apply malformed_calm].
    set (c := resync _). assert (zlen c ≤ MAX_DNP3_FRAME_LEN) as Hc.
    { etransitivity; [apply resync_len|]. rewrite zlen_app. unfold zlen at 2.
      rewrite length_take. lia. }
    eapply budget_mono; [|apply budget_set_carry; [by apply count_malformed_budget|done]].
    replace (active_carry (count_malformed f) (d_dir d)) with carry by (by destruct (d_dir d)).
    lia.
  - eexists. split; [done|]. split; [|apply outside_refl].
    eapply budget_mono; [|apply budget_set_carry; [done|zlia]]. fold carry. zlia.
Qed.

Lemma expire_calm a f ts : calm 0 (a, f) (a, maybe_expire_correlation_window f ts).
Proof.
  unfold maybe_expire_correlation_window.
  destruct (negb _); [|destruct (_ <? _); [|apply calm_refl]];
    (split; [by split|apply same_totals_refl|]); split; unfold events; simpl; intros; lia.
Qed.

Lemma analyze_budget R n a f data d :
  in_budget 0 R n (a, f) → n + zlen data ≤ u64_max →
  ∃ w', analyze (a, f) data d = Some w' ∧ in_budget 0 R (n + zlen data) w' ∧ outside a w'.1.
Proof.
  intros Hw Hn. unfold analyze.
  pose proof (budget_calm 0 0 _ _ _ _ Hw (expire_calm a f (d_ts d))) as Hw1.
  set (f1 := maybe_expire_correlation_window f (d_ts d)) in *.
  pose proof (budget_frames _ _ _ _ Hw1 ltac:(lia)) as [Hf0 Hwt].
  pose proof (wk_flow _ _ _ _ Hw1) as [_ _ He Hr Hb Hev _ _]. cbn [snd] in *.
  pose proof (held_bytes_nonneg f1). pose proof (zlen_nonneg data).
  assert (events f1 ≤ u64_max) by (unfold weight in *; lia).
  destruct (scan_calm a f1 d) as ([a2 f2] & -> & Hq); [unfold events in *; lia|done|done|done|].
  cbn [mbind option_bind].
  destruct (accumulate_budget R n a2 f2 data d) as (w3 & -> & Hw3 & Ho3).
  { by eapply (budget_calm 0 0). }
  cbn [mbind option_bind].
  destruct (frame_walk_budget (S (length (active_carry w3.2 (d_dir d)))) false R (n + zlen data) w3 d)
    as (w4 & -> & Hw4 & Ho4); [done|done|unfold carry_len, zlen; lia|].
  exists w4. split_and!; [done|done|]. apply outside_trans with a2; [by apply outside_totals, Hq|].
  by apply outside_trans with w3.1.
Qed.

(** ** The analyzer *)

Definition closed_total (a : Dnp3Analyzer) : Z := total_frames_closed a + parse_errors_closed a.

Record dnp3_ok (n : Z) (a : Dnp3Analyzer) : Prop := {
  do_findings : zlen (all_findings a) ≤ DNP3_MAX_FINDINGS;
  do_flows : ∀ k f, flows a !! k = Some f → dnp3_flow_ok 0 f;
  do_fc : ∀ k f fc, flows a !! k = Some f → fcount (fc_counts f) fc ≤ fcount (fn_code_counts a) fc;
  do_fn : ∀ fc, 0 ≤ fcount (fn_code_counts a) fc;
  do_frames : 0 ≤ total_frames_closed a;
  do_errors : 0 ≤ parse_errors_closed a;
  do_spent : ∀ fc,
    fcount (fn_code_counts a) fc + closed_total a + map_sum weight (flows a) ≤ n
}.

Lemma dnp3_ok_mono n m a : n ≤ m → dnp3_ok n a → dnp3_ok m a.
Proof. intros ? []. split; try done. intros fc. specialize (do_spent0 fc). lia. Qed.

Lemma dnp3_ok_new threshold : dnp3_ok 0 (Dnp3Analyzer_new threshold).
Proof. by split. Qed.

Lemma dnp3_flow_ok_default : dnp3_flow_ok 0 Dnp3FlowState_default.
Proof. split; try done. split; [apply NoDup_nil_2|done]. Qed.

Lemma weight_nonneg f : dnp3_flow_ok 0 f → 0 ≤ weight f.
Proof.
  intros []. unfold weight. pose proof (held_bytes_nonneg f). pose proof (events_nonneg f). lia.
Qed.

(** Taking a flow out of the table, and putting its successor back. *)
Lemma dnp3_flow_out n a k :
  dnp3_ok n a →
  let f := default Dnp3FlowState_default (flows a !! k) in
  in_budget 0 (closed_total a + (map_sum weight (flows a) - weight f)) n (a, f).
Proof.
  intros [Hf Hfl Hfc Hfn Hcf Hce Hs] f.
  assert (∀ k f, flows a !! k = Some f → 0 ≤ weight f) as Hw by (intros; by eapply weight_nonneg, Hfl).
  split; simpl; unfold closed_total in *; [done|..].
  - unfold f. destruct (flows a !! k) eqn:E; [by eapply Hfl|apply dnp3_flow_ok_default].
  - intros fc. unfold f. destruct (flows a !! k) eqn:E; [by eapply Hfc|]. apply Hfn.
  - done.
  - unfold f. destruct (flows a !! k) eqn:E; simpl.
    + pose proof (map_sum_lookup_le _ _ _ _ Hw E). lia.
    + pose proof (map_sum_nonneg _ _ Hw). change (weight Dnp3FlowState_default) with 0. lia.
  - intros fc. specialize (Hs fc). lia.
Qed.

Lemma dnp3_flow_in n m a a' f' k :
  let f := default Dnp3FlowState_default (flows a !! k) in
  dnp3_ok n a → outside a a' →
  in_budget 0 (closed_total a + (map_sum weight (flows a) - weight f)) m (a', f') →
  dnp3_ok m (a' <| flows := <[k := f']> (flows a') |>).
Proof.
  intros f [Hf Hfl Hfc Hfn Hcf Hce Hs] [Of Ofr Oe On] [Wf Wfl Wc Wn _ Ws]. simpl in *.
  split; simpl; rewrite ?Of, ?Ofr, ?Oe; try done.
  - intros k' g [[_ <-]|[_ ?]]%lookup_insert_Some; [done|by eapply Hfl].
  - intros k' g fc [[_ <-]|[_ Hg]]%lookup_insert_Some; [apply Wc|].
    specialize (On fc). specialize (Hfc _ _ fc Hg). lia.
  - intros fc. specialize (Ws fc). unfold closed_total in *. simpl. rewrite ?Ofr, ?Oe.
    unfold f in Ws. destruct (flows a !! k) as [g|] eqn:E; simpl in Ws.
    + rewrite (map_sum_insert _ _ _ _ _ E). lia.
    + rewrite map_sum_insert_fresh by done.
      change (weight Dnp3FlowState_default) with 0 in Ws. lia.
Qed.

Lemma dnp3_on_data_ok n a k data ts dir :
  dnp3_ok n a → n + zlen data ≤ u64_max →
  ∃ a', dnp3_on_data a k data ts dir = Some a' ∧ dnp3_ok (n + zlen data) a'.
Proof.
  intros Ha Hn. pose proof (dnp3_flow_out n a k Ha) as Hw. pose proof (zlen_nonneg data).
  unfold dnp3_on_data. set (f := default Dnp3FlowState_default (flows a !! k)) in *.
  destruct (is_non_dnp3 f).
  { eexists. split; [done|]. eapply dnp3_flow_in; [done|apply outside_refl|].
    eapply budget_mono; [|exact Hw]. lia. }
  destruct (desync f data).
  { eexists. split; [done|]. eapply dnp3_flow_in; [done|apply outside_refl|].
    eapply budget_mono; [|]. 2: destruct Hw as [? [] ? ? ? ?]; by split. lia. }
  destruct (analyze_budget _ n a f data (mkDelivery k ts dir) Hw Hn) as ([a' f'] & -> & Hw' & Ho).
  cbn [mbind option_bind]. eexists. split; [done|]. by eapply dnp3_flow_in.
Qed.

Lemma dnp3_on_flow_close_ok n a k : dnp3_ok n a → dnp3_ok n (dnp3_on_flow_close a k).
Proof.
  intros Ha. unfold dnp3_on_flow_close. destruct (flows a !! k) as [f|] eqn:E; [|done].
  destruct Ha as [Hf Hfl Hfc Hfn Hcf Hce Hs]. pose proof (Hfl _ _ E) as Hok.
  pose proof (events_nonneg f). destruct Hok as [_ _ He Hr Hb Hev _ _].
  split; simpl; try done.
  - intros k' g [_ ?]%lookup_delete_Some. by eapply Hfl.
  - intros k' g fc [_ ?]%lookup_delete_Some. by eapply Hfc.
  - unfold sat_add. ulia.
  - unfold sat_add. ulia.
  - intros fc. specialize (Hs fc). rewrite (map_sum_delete _ _ _ _ E). unfold closed_total in *.
    simpl. unfold sat_add, weight at 2. pose proof (held_bytes_nonneg f). lia.
Qed.

Lemma dnp3_replay_ok es n a :
  dnp3_ok n a → n + trace_bytes es ≤ u64_max →
  ∃ a', replay (Some a) es = Some a' ∧ dnp3_ok (n + trace_bytes es) a'.
Proof.
  apply (replay_preserves u64_max dnp3_ok).
  - intros. by apply dnp3_on_data_ok.
  - intros m b k r Hb. eexists. split; [done|]. by apply dnp3_on_flow_close_ok.
Qed.

(** ** The flow table during a delivery *)

Lemma process_valid_frame_flows w h len carry d w' :
  process_valid_frame w h len carry d = Some w' → flows w'.1 = flows w.1.
Proof.
  destruct w as [a f]. unfold process_valid_frame.
  match goal with |- context [note_master ?w0 h] =>
    pose proof (out_flows _ _ (note_master_outside w0 h)) as Hm; destruct (note_master w0 h) as [a1 f1] end.
  cbn [fst] in *. destruct (_ && _); [|intros [= <-]; done].
  destruct (index carry 10) as [oct|]; [|done]. cbn [mbind option_bind].
  destruct (transport_is_fir oct); [|intros [= <-]; done].
  destruct (index carry 12) as [fc|]; [|done]. destruct (index carry 11) as [ctrl|]; [|done].
  cbn [mbind option_bind]. match goal with |- dispatch_fc _ ?u _ _ _ _ _ = _ → _ => set (un := u) end.
  intros E. destruct (bump_count (fc_counts f1) fc) as [fcs|] eqn:E1; [|by unfold dispatch_fc in E; rewrite E1 in E].
  destruct (bump_count (fn_code_counts a1) fc) as [fns|] eqn:E2;
    [|by unfold dispatch_fc in E; rewrite E1, E2 in E].
  destruct (dispatch_fc_steps a1 f1 un fc ctrl (destination h) (source h) d fcs fns E1 E2) as (w1 & Hq & Ed).
  rewrite Ed in E. apply arms_calm in E as [_ T2 _]. destruct Hq as [_ T1 _].
  by rewrite (st_flows _ _ T2), (st_flows _ _ T1).
Qed.

Lemma malformed_flows w d : flows (check_malformed_anomaly w d).1 = flows w.1.
Proof. apply (st_flows _ _ (q_totals _ _ _ (malformed_calm w d))). Qed.

Lemma dnp3_round_flows did w d r : dnp3_round did w d = Some r → flows (round_work r).1 = flows w.1.
Proof.
  destruct w as [a f]. unfold dnp3_round, length_reject, header_reject. set (carry := active_carry f (d_dir d)). intros E.
  destruct (zlen carry <? 10).
  { unfold short_carry in E. fold carry in E. destruct (2 <=? zlen carry); [|by simplify_eq/=].
    destruct (negb _).
    { cbn [mbind option_bind] in E. injection E as <-. cbn [round_work]. by rewrite malformed_flows. }
    destruct (did && _); [|by simplify_eq/=]. destruct (index carry 2); [|done]. cbn [mbind option_bind] in E.
    destruct (compute_dnp3_frame_len _); cbn [mbind option_bind] in E; injection E as <-; [done|].
    cbn [round_work]. by rewrite malformed_flows. }
  destruct (negb (is_sync carry)).
  { pose proof (malformed_flows (a, count_malformed f) d) as Hm.
    destruct (check_malformed_anomaly _ _) as [a1 f1]. by simplify_eq/=. }
  destruct (index carry 2); [|done]. cbn [mbind option_bind] in E.
  destruct (compute_dnp3_frame_len _) as [len|].
  2:{ injection E as <-. cbn [round_work]. by rewrite malformed_flows. }
  destruct (_ <? _); [by simplify_eq/=|].
  destruct (slice carry 0 len); [|done]. destruct (slice carry len _); [|done]. cbn [mbind option_bind] in E.
  destruct (parse_dnp3_dl_header _) as [h|].
  2:{ injection E as <-. cbn [round_work]. by rewrite malformed_flows. }
  destruct (is_valid_dnp3_frame_header h).
  2:{ injection E as <-. cbn [round_work]. by rewrite malformed_flows. }
  destruct (process_valid_frame _ _ _ _ _) as [[a1 f1]|] eqn:Ep; [|done]. injection E as <-.
  by apply process_valid_frame_flows in Ep.
Qed.

Lemma frame_walk_flows fuel did w d w' : frame_walk fuel did w d = Some w' → flows w'.1 = flows w.1.
Proof.
  revert did w. induction fuel as [|fuel IH]; intros did w; [done|]. cbn [frame_walk].
  destruct (dnp3_round did w d) as [[w1|w1]|] eqn:E; [| |done]; cbn [mbind option_bind];
    apply dnp3_round_flows in E; cbn [round_work] in E.
  - intros E1%IH. by rewrite E1.
  - by intros [= <-].
Qed.

Lemma analyze_flows w data d w' : analyze w data d = Some w' → flows w'.1 = flows w.1.
Proof.
  destruct w as [a f]. unfold analyze.
  destruct (scan_block_timeouts _ _) as [[a1 f1]|] eqn:E1; [|done]. cbn [mbind option_bind].
  assert (flows a1 = flows a) as H1.
  { revert E1. unfold scan_block_timeouts. destruct (drop_timed_out _ _ _ _) as [[f0 first] dest].
    pose proof (st_flows _ _ (q_totals _ _ _ (report_blocked_calm (a, f0) dest d))) as Hr.
    destruct first; [intros E%(inj Some); by rewrite E in Hr|].
    intros E. apply t0827_calm in E as [_ T _]. apply st_flows in T. cbn [fst] in *. congruence. }
  destruct (accumulate _ _ _) as [[a2 f2]|] eqn:E2; [|done]. cbn [mbind option_bind].
  assert (flows a2 = flows a1) as H2.
  { revert E2. unfold accumulate. destruct (csub _ _); [|done]. cbn [mbind option_bind].
    destruct (_ <? _); [|by intros [= <- <-]]. destruct (slice _ _ _); [|done]. cbn [mbind option_bind].
    intros E%(inj Some). pose proof (malformed_flows (a1, set_active_carry (count_malformed f1) (d_dir d)
      (resync (active_carry f1 (d_dir d) ++ l))) d) as Hm. by rewrite E in Hm. }
  intros E%frame_walk_flows. cbn [fst] in *. congruence.
Qed.

(** A delivery touches its own flow only. *)
Lemma dnp3_on_data_flows a k data ts dir a' k' :
  dnp3_on_data a k data ts dir = Some a' → k' ≠ k → flows a' !! k' = flows a !! k'.
Proof.
  unfold dnp3_on_data. intros E Hk.
  destruct (is_non_dnp3 _); [simplify_eq/=; by rewrite lookup_insert_ne|].
  destruct (desync _ _); [simplify_eq/=; by rewrite lookup_insert_ne|].
  destruct (analyze _ _ _) as [[a1 f1]|] eqn:Ea; [|done]. apply analyze_flows in Ea.
  cbn [fst] in Ea. simplify_eq/=. by rewrite lookup_insert_ne, Ea.
Qed.
End analyzer.
