(* ===== verification/Dnp3Props.v ===== *)
(** * Theorems about the DNP3 analyzer

    Termination of the frame walk, safety and bounds over any trace, framing
    (what is encoded is read back, however the stream is cut), unanswered
    requests, loss-of-control correlation, and where bytes are lost. *)

From S2P Require Import Prelude FlowKey Handler Findings Dispatcher Dnp3 Dnp3Facts.

#[local] Open Scope Z_scope.
#[local] Existing Instance flow_handler.
#[local] Arguments dispatch_fc : simpl never.
#[local] Arguments check_malformed_anomaly : simpl never.
#[local] Arguments short_carry : simpl never.
#[local] Arguments process_valid_frame : simpl never.
#[local] Arguments count_malformed : simpl never.
#[local] Arguments emit : simpl never.

(** ** Frames on the wire *)

(** User data in blocks of 16 octets, each followed by its two check octets;
    [room] is what is left of the current block.  The check octets are not
    looked at and are arbitrary. *)
Fixpoint with_crcs (crc : Z * Z) (room : nat) (user : list Z) : list Z :=
  match user with
  | [] => if bool_decide (room = 16%nat) then [] else [crc.1; crc.2]
  | x :: user =>
      x :: match room with
           | S (S room) => with_crcs crc (S room) user
           | _ => crc.1 :: crc.2 :: with_crcs crc 16 user
           end
  end.

(** A link frame: header with its check octets, then the blocks. *)
Definition link_frame (ctrl dest src : Z) (user : list Z) (crc : Z * Z) : list Z :=
  [0x05; 0x64; 5 + zlen user; ctrl; dest mod 256; dest / 256; src mod 256; src / 256; crc.1; crc.2]
  ++ with_crcs crc 16 user.

Lemma with_crcs_len crc room user :
  (1 ≤ room ≤ 16)%nat →
  zlen (with_crcs crc room user) = zlen user + 2 * div_ceil (zlen user + 16 - Z.of_nat room) 16.
Proof.
  unfold div_ceil. revert room. induction user as [|x user IH]; intros room Hr.
  - cbn [with_crcs]. case_bool_decide as E.
    + subst. done.
    + rewrite zlen_nil. change (zlen [crc.1; crc.2]) with 2.
      assert ((0 + 16 - Z.of_nat room + 16 - 1) / 16 = 1) as ->; [|done].
      symmetry. apply (Z.div_unique _ _ _ (15 - Z.of_nat room)); lia.
  - cbn [with_crcs]. destruct room as [|[|room]]; [lia| |].
    + rewrite !zlen_cons, IH by lia. cbn [Z.of_nat].
      replace (1 + zlen user + 16 - Z.of_nat 1 + 16 - 1)
        with (zlen user + 16 - Z.of_nat 16 + 16 - 1 + 1 * 16) by lia.
      rewrite Z.div_add by lia. lia.
    + rewrite !zlen_cons, IH by lia. replace (1 + zlen user + 16 - Z.of_nat (S (S room)))
        with (zlen user + 16 - Z.of_nat (S room)) by lia. lia.
Qed.

Lemma link_frame_len ctrl dest src user crc :
  compute_dnp3_frame_len (5 + zlen user) = Some (zlen (link_frame ctrl dest src user crc)).
Proof.
  unfold compute_dnp3_frame_len, link_frame. pose proof (zlen_nonneg user).
  destruct (Z.ltb_spec (5 + zlen user) 5); [lia|]. f_equal.
  rewrite zlen_app, with_crcs_len by lia.
  replace (zlen user + 16 - Z.of_nat 16) with (5 + zlen user - 5) by lia.
  change (zlen [_; _; _; _; _; _; _; _; _; _]) with 10. lia.
Qed.

(** A complete frame the way the walk sees it. *)
Definition valid_frame (frame : list Z) : Prop :=
  ∃ len rest, frame = 0x05 :: 0x64 :: len :: rest ∧ compute_dnp3_frame_len len = Some (zlen frame).

Lemma link_frame_valid ctrl dest src user crc : valid_frame (link_frame ctrl dest src user crc).
Proof. eexists _, _. split; [done|]. apply link_frame_len. Qed.

(** The application function code a frame is counted under. *)
Definition frame_fc (frame : list Z) : option Z :=
  match frame with
  | _ :: _ :: _ :: ctrl :: _ :: _ :: _ :: _ :: _ :: _ :: oct :: _ :: fc :: _ =>
      if has_user_data ctrl && transport_is_fir oct then Some fc else None
  | _ => None
  end.

Section analyzer.
Context `{!IterOrder (Z * Z) Z}.

(** ** What a frame counts *)

(** [frame_counted fc w w']: one frame more, counted under [fc]; framing untouched. *)
Record frame_counted (ofc : option Z) (w w' : work) : Prop := {
  ct_frames : frame_count w'.2 = sat_add u64_max (frame_count w.2) 1;
  ct_errors : parse_errors w'.2 = parse_errors w.2;
  ct_latch : is_non_dnp3 w'.2 = is_non_dnp3 w.2;
  ct_carry : ∀ dir, active_carry w'.2 dir = active_carry w.2 dir;
  ct_fn : ∀ fc, fcount (fn_code_counts w'.1) fc =
    fcount (fn_code_counts w.1) fc + if decide (ofc = Some fc) then 1 else 0
}.

Lemma dispatch_fc_counts a f unexpected fc ctrl dest src d w' :
  dispatch_fc (a, f) unexpected fc ctrl dest src d = Some w' →
  same_frames (f <| fc_counts := fc_counts w'.2 |>) w'.2 ∧
  ∀ fc', fcount (fn_code_counts w'.1) fc' =
    fcount (fn_code_counts a) fc' + if decide (fc' = fc) then 1 else 0.
Proof.
  intros E. pose proof E as E'. unfold dispatch_fc in E'.
  destruct (bump_count (fc_counts f) fc) as [fcs|] eqn:E1; [|done].
  destruct (bump_count (fn_code_counts a) fc) as [fns|] eqn:E2; [|done]. clear E'.
  destruct (dispatch_fc_steps a f unexpected fc ctrl dest src d fcs fns E1 E2) as (w1 & Hq1 & E3).
  rewrite E3 in E. apply arms_calm in E.
  destruct (calm_trans _ _ _ _ _ Hq1 E) as [Hf [] _]. split.
  - destruct Hf. by split.
  - intros fc'. rewrite st_fn. by apply bump_count_inv.
Qed.

(** The fields the FIR gate reads, off the frame alone. *)
Lemma frame_fc_spec frame rest h :
  parse_dnp3_dl_header frame = Some h →
  frame_fc frame =
    if (13 <=? zlen frame) && has_user_data (control h) then
      oct ← index (frame ++ rest) 10;
      if transport_is_fir oct then index (frame ++ rest) 12 else None
    else None.
Proof.
  intros Hp. destruct (Z.leb_spec 13 (zlen frame)) as [H13|H13].
  - rewrite !index_app_l by lia.
    do 13 (destruct frame as [|? frame]; [by vm_compute in H13|]). simpl in Hp. simplify_eq. simpl.
    by destruct (has_user_data _), (transport_is_fir _).
  - do 13 (destruct frame as [|? frame]; [done|]). exfalso.
    revert H13. rewrite !zlen_cons. pose proof (zlen_nonneg frame). lia.
Qed.

Lemma frame_counted_intro ofc a f a' f' w :
  same_totals a a' → f' = f <| master_addrs_seen := master_addrs_seen f' |> →
  same_frames (f' <| fc_counts := fc_counts w.2 |>) w.2 →
  (∀ fc, fcount (fn_code_counts w.1) fc =
    fcount (fn_code_counts a') fc + if decide (ofc = Some fc) then 1 else 0) →
  ∀ f0, f = f0 <| frame_count := sat_add u64_max (frame_count f0) 1 |> → frame_counted ofc (a, f0) w.
Proof.
  intros [] Ef [] Hfn f0 ->. rewrite Ef in *. simpl in *.
  split; try done.
  - intros dir. by destruct dir.
  - intros fc. by rewrite Hfn, st_fn.
Qed.

Lemma process_valid_frame_counts a f h frame rest d w' :
  parse_dnp3_dl_header frame = Some h →
  process_valid_frame (a, f) h (zlen frame) (frame ++ rest) d = Some w' →
  frame_counted (frame_fc frame) (a, f) w'.
Proof.
  intros Hp. rewrite (frame_fc_spec frame rest h Hp). unfold process_valid_frame.
  destruct (note_master_spec (a, f <| frame_count := sat_add u64_max (frame_count f) 1 |>) h)
    as (a1 & f1 & -> & Ht & Ef & _).
  assert (frame_counted None (a, f) (a1, f1)) as Hnone.
  { eapply (frame_counted_intro None a _ a1 f1); [done|done| |intros; by rewrite Z.add_0_r|done].
    by destruct f1. }
  destruct (_ && has_user_data _); [|by intros [= <-]].
  destruct (index _ 10) as [oct|]; [|done]. cbn [mbind option_bind].
  destruct (transport_is_fir oct); [|by intros [= <-]].
  destruct (index _ 12) as [fc|]; [|done]. cbn [mbind option_bind].
  destruct (index _ 11) as [ctrl|]; [|done]. cbn [mbind option_bind].
  intros [Hf Hfn]%dispatch_fc_counts.
  eapply (frame_counted_intro (Some fc) a _ a1 f1); [done|done|done| |done].
  intros fc'. rewrite Hfn. by repeat case_decide; simplify_eq.
Qed.

(** ** Walking over frames *)

Lemma valid_frame_len frame : valid_frame frame → 10 ≤ zlen frame.
Proof. intros (len & rest & _ & E). by apply compute_dnp3_frame_len_Some in E as (_ & _ & ?). Qed.

Lemma valid_frame_gate frame :
  valid_frame frame →
  ∃ h, parse_dnp3_dl_header frame = Some h ∧ is_valid_dnp3_frame_header h = true.
Proof.
  intros Hv. pose proof (valid_frame_len _ Hv) as H10.
  destruct (parse_dnp3_dl_header_Some frame H10) as [h Hh]. exists h. split; [done|].
  destruct Hv as (len & rest & -> & E). apply compute_dnp3_frame_len_Some in E as (H5 & _).
  do 7 (destruct rest as [|? rest]; [done|]). simpl in Hh. simplify_eq. unfold is_valid_dnp3_frame_header. simpl.
  by rewrite (proj2 (Z.leb_le _ _)).
Qed.

(** One round on a complete frame takes exactly that frame. *)
Lemma dnp3_round_frame did a f d frame rest r :
  active_carry f (d_dir d) = frame ++ rest → valid_frame frame →
  dnp3_round did (a, f) d = Some r →
  ∃ w', frame_counted (frame_fc frame) (a, f) w' ∧
    r = Again (w'.1, set_active_carry w'.2 (d_dir d) rest).
Proof.
  intros Hc Hv. pose proof (valid_frame_len _ Hv) as H10.
  destruct (valid_frame_gate _ Hv) as (h & Hh & Hg). unfold dnp3_round, length_reject, header_reject. rewrite Hc.
  destruct (Z.ltb_spec (zlen (frame ++ rest)) 10); [zlia|].
  assert (is_sync (frame ++ rest) = true) as -> by (by destruct Hv as (len & tl & -> & _)).
  assert (∃ len, index (frame ++ rest) 2 = Some len ∧ compute_dnp3_frame_len len = Some (zlen frame))
    as (len & -> & E) by (destruct Hv as (len & tl & -> & E); by exists len).
  cbn [negb mbind option_bind]. rewrite E.
  destruct (Z.ltb_spec (zlen (frame ++ rest)) (zlen frame)); [zlia|].
  rewrite slice_suffix, slice_Some by zlia. cbn [mbind option_bind].
  rewrite Z.sub_0_r, drop_zlen_app. change (drop (Z.to_nat 0) ?l) with l.
  rewrite take_zlen_app, Hh, Hg.
  destruct (process_valid_frame _ _ _ _ _) as [[a' f']|] eqn:Ep; [|done].
  cbn [mbind option_bind]. intros [= <-]. exists (a', f'). split; [|done].
  by eapply process_valid_frame_counts.
Qed.

(** What can be left over: a proper prefix of a frame. *)
Definition partial (p : list Z) : Prop :=
  p = [] ∨ ∃ frame rest, valid_frame frame ∧ frame = p ++ rest ∧ rest ≠ [].

Lemma dnp3_round_partial did a f d :
  partial (active_carry f (d_dir d)) → dnp3_round did (a, f) d = Some (Stop (a, f)).
Proof.
  unfold dnp3_round, length_reject, header_reject, short_carry. set (p := active_carry f (d_dir d)).
  intros [E|(frame & rest & (len & tl & Ef & El) & Ep & Hr)]; [by rewrite E|].
  pose proof (zlen_pos _ Hr) as Hpos. pose proof (compute_dnp3_frame_len_Some _ _ El) as (_ & _ & H10).
  destruct p as [|b0 [|b1 [|b2 p]]]; [done|done| |].
  - rewrite Ef in Ep. simplify_eq/=. by destruct did.
  - rewrite Ef in Ep. simplify_eq/=.
    replace (index (5 :: 100 :: b2 :: p) 2) with (Some b2) by done.
    replace (is_sync (5 :: 100 :: b2 :: p)) with true by done.
    cbn [negb mbind option_bind]. rewrite El.
    destruct (Z.ltb_spec (zlen (5 :: 100 :: b2 :: p)) 10).
    + destruct (2 <=? _); [|done]. destruct did; [|done]. by destruct (3 <=? _).
    + match goal with |- context [?x <? ?y] => destruct (Z.ltb_spec x y) as [|Hge] end; [done|].
      revert Hge. rewrite !zlen_cons, zlen_app. lia.
Qed.

(** The frames counted under [fc]. *)
Definition fc_total (fc : Z) (frames : list (list Z)) : Z :=
  zlen (filter (λ fr, frame_fc fr = Some fc) frames).

Lemma fc_total_cons fc fr frames :
  fc_total fc (fr :: frames) = (if decide (frame_fc fr = Some fc) then 1 else 0) + fc_total fc frames.
Proof. unfold fc_total. rewrite filter_cons. case_decide; rewrite ?zlen_cons; lia. Qed.

Lemma fc_total_app fc l1 l2 : fc_total fc (l1 ++ l2) = fc_total fc l1 + fc_total fc l2.
Proof. unfold fc_total. by rewrite filter_app, zlen_app. Qed.

(** [frames] counted, nothing else of the framing changed but the carry. *)
Record consumed (dir : Direction) (frames : list (list Z)) (p : list Z) (w w' : work) : Prop := {
  cn_frames : frame_count w'.2 = sat_add u64_max (frame_count w.2) (zlen frames);
  cn_errors : parse_errors w'.2 = parse_errors w.2;
  cn_latch : is_non_dnp3 w'.2 = is_non_dnp3 w.2;
  cn_carry : active_carry w'.2 dir = p;
  cn_fn : ∀ fc, fcount (fn_code_counts w'.1) fc = fcount (fn_code_counts w.1) fc + fc_total fc frames
}.

Lemma frame_walk_frames frames fuel did w d p w' :
  active_carry w.2 (d_dir d) = concat frames ++ p → Forall valid_frame frames → partial p →
  frame_count w.2 ≤ u64_max → frame_walk fuel did w d = Some w' → consumed (d_dir d) frames p w w'.
Proof.
  revert fuel did w. induction frames as [|fr frames IH]; intros fuel did [a f] Hc Hv Hp Hu.
  - destruct fuel as [|fuel]; [done|]. cbn [frame_walk]. cbn [concat app snd] in Hc.
    rewrite dnp3_round_partial by (by rewrite Hc). cbn [mbind option_bind]. intros [= <-].
    split; try done; [by rewrite zlen_nil, sat_add_0|]. intros fc. change (fc_total fc []) with 0.
    cbn [fst]. lia.
  - apply list.Forall_cons in Hv as [Hfr Hv]. destruct fuel as [|fuel]; [done|].
    cbn [frame_walk]. cbn [concat snd] in Hc. rewrite <- app_assoc in Hc.
    destruct (dnp3_round did (a, f) d) as [r|] eqn:Er; [|done]. cbn [mbind option_bind].
    destruct (dnp3_round_frame did a f d fr _ r Hc Hfr Er) as ([a1 f1] & [C1 C2 C3 C4 C5] & ->).
    cbn [fst snd] in *. intros [D1 D2 D3 D4 D5]%IH; try done; cbn [fst snd] in *.
    + split; cbn [fst snd].
      * rewrite D1. destruct (d_dir d); simpl; rewrite C1, zlen_cons; unfold sat_add; zlia.
      * rewrite D2. by destruct (d_dir d).
      * rewrite D3. by destruct (d_dir d).
      * done.
      * intros fc. rewrite D5, C5, fc_total_cons. lia.
    + apply active_carry_set.
    + destruct (d_dir d); simpl; rewrite C1; unfold sat_add; lia.
Qed.

Lemma cut_valid_frames frames s t :
  Forall valid_frame frames → s ++ t = concat frames →
  ∃ fs fs' p, frames = fs ++ fs' ∧ s = concat fs ++ p ∧ p ++ t = concat fs' ∧ partial p.
Proof.
  intros Hv Hs. destruct (cut_frames valid_frame partial frames s t []) as (fs & fs' & p & H); try done.
  - by left.
  - intros u x v ?. right. by exists (u ++ x :: v), (x :: v).
  - intros u v [Hn|(fr & k & Hfr & E & Hk)]; [left; by apply app_eq_nil in Hn as [-> _]|].
    right. exists fr, (v ++ k). split_and!; [done|by rewrite app_assoc|]. by destruct v.
  - by left.
  - by rewrite app_nil_r.
  - exists fs, fs', p. by rewrite app_nil_r in H.
Qed.

(** ** Deliveries of frames *)

Definition dnp3_flow (a : Dnp3Analyzer) (k : FlowKey) : Dnp3FlowState :=
  default Dnp3FlowState_default (flows a !! k).

Fixpoint dnp3_feed (a : Dnp3Analyzer) (k : FlowKey) (dir : Direction) (chunks : list (list Z * Z)) :
    panicky Dnp3Analyzer :=
  match chunks with
  | [] => Some a
  | (data, ts) :: chunks => a ← dnp3_on_data a k data ts dir; dnp3_feed a k dir chunks
  end.

(** Every delivery finds room in the carry of its direction. *)
Fixpoint dnp3_fits (a : Dnp3Analyzer) (k : FlowKey) (dir : Direction) (chunks : list (list Z * Z)) :
    Prop :=
  match chunks with
  | [] => True
  | (data, ts) :: chunks =>
      zlen (active_carry (dnp3_flow a k) dir) + zlen data ≤ MAX_DNP3_FRAME_LEN ∧
      ∀ a', dnp3_on_data a k data ts dir = Some a' → dnp3_fits a' k dir chunks
  end.

Definition delivered_bytes (chunks : list (list Z * Z)) : list Z := concat chunks.*1.

Lemma desync_frames f data t frames p dir :
  Forall valid_frame frames → active_carry f dir = p → p ++ data ++ t = concat frames →
  desync f data = false.
Proof.
  intros Hv Hp Hs. unfold desync.
  destruct (decide (p = [])) as [->|Hne].
  - destruct data as [|b0 [|b1 data]]; [by rewrite andb_false_r..|].
    destruct frames as [|fr frames]; [done|]. apply list.Forall_cons in Hv as [(len & tl & -> & _) _].
    simplify_eq/=. by rewrite andb_false_r.
  - destruct dir; simpl in Hp; subst p.
    + rewrite (bool_decide_eq_false_2 (carry_c2s f = [])) by done. by rewrite andb_false_r.
    + rewrite (bool_decide_eq_false_2 (carry_s2c f = [])) by done. by rewrite !andb_false_r.
Qed.

(** One delivery of frames and a partial frame. *)
Lemma analyze_frames a f data d frames p w' :
  active_carry f (d_dir d) ++ data = concat frames ++ p → Forall valid_frame frames → partial p →
  dnp3_flow_ok 0 f → frame_count f ≤ u64_max →
  zlen (active_carry f (d_dir d)) + zlen data ≤ MAX_DNP3_FRAME_LEN →
  analyze (a, f) data d = Some w' → consumed (d_dir d) frames p (a, f) w'.
Proof.
  intros Hc Hv Hp Hok Hu Hroom. unfold analyze.
  pose proof (expire_calm a f (d_ts d)) as Hq0.
  set (f1 := maybe_expire_correlation_window f (d_ts d)) in *.
  assert (events f1 ≤ events f ∧ 0 ≤ restart_event_count f1 ∧ 0 ≤ block_event_count f1) as (? & ? & ?).
  { destruct Hq0 as [_ _ [? ? _ Ht]], Hok. simpl in *.
    specialize (Ht ltac:(done) ltac:(done)). split_and!; auto. lia. }
  assert (events f ≤ frame_count f) by (destruct Hok; lia).
  destruct (scan_calm a f1 d) as ([a2 f2] & -> & Hq); [unfold events in *; lia|done|done|lia|].
  pose proof (calm_trans _ _ _ _ _ Hq0 Hq) as [Hf [] _]. cbn [mbind option_bind fst snd] in *.
  unfold accumulate. rewrite (same_frames_active _ _ (d_dir d) Hf).
  pose proof (zlen_nonneg data). pose proof (zlen_nonneg (active_carry f (d_dir d))).
  rewrite csub_Some by lia. cbn [mbind option_bind].
  destruct (Z.ltb_spec (MAX_DNP3_FRAME_LEN - zlen (active_carry f (d_dir d))) (zlen data)); [lia|].
  cbn [mbind option_bind]. destruct Hf.
  intros [D1 D2 D3 D4 D5]%(frame_walk_frames frames _ _ _ _ p); [|..|done|done|]; cbn [fst snd] in *.
  - split; cbn [fst snd].
    + rewrite D1. destruct (d_dir d); simpl; congruence.
    + rewrite D2. destruct (d_dir d); simpl; congruence.
    + rewrite D3. destruct (d_dir d); simpl; congruence.
    + done.
    + intros fc. by rewrite D5, st_fn.
  - by rewrite active_carry_set.
  - destruct (d_dir d); simpl; congruence.
Qed.

Lemma dnp3_flow_counts n a k : dnp3_ok n a → dnp3_flow_ok 0 (dnp3_flow a k) ∧ frame_count (dnp3_flow a k) ≤ n.
Proof.
  intros Ha. pose proof (dnp3_flow_out n a k Ha) as Hw. cbn zeta in Hw. fold (dnp3_flow a k) in Hw.
  pose proof (budget_frames _ _ _ _ Hw ltac:(lia)) as [_ Hle]. cbn [snd] in Hle.
  split; [apply Hw|]. pose proof (held_bytes_nonneg (dnp3_flow a k)).
  pose proof (fo_errors _ _ (wk_flow _ _ _ _ Hw)). unfold weight in *. simpl in *. lia.
Qed.

(** One delivery, at the level of the analyzer. *)
Lemma on_data_frames n a k dir data ts t frames :
  dnp3_ok n a → n + zlen data ≤ u64_max → is_non_dnp3 (dnp3_flow a k) = false →
  Forall valid_frame frames →
  active_carry (dnp3_flow a k) dir ++ data ++ t = concat frames →
  zlen (active_carry (dnp3_flow a k) dir) + zlen data ≤ MAX_DNP3_FRAME_LEN →
  ∃ a' fs fs' p, dnp3_on_data a k data ts dir = Some a' ∧ dnp3_ok (n + zlen data) a' ∧
    frames = fs ++ fs' ∧ p ++ t = concat fs' ∧ partial p ∧
    consumed dir fs p (a, dnp3_flow a k) (a', dnp3_flow a' k).
Proof.
  intros Ha Hn Hl Hv Hs Hroom. pose proof (zlen_nonneg data).
  destruct (dnp3_flow_counts n a k Ha) as [Hok Hle].
  destruct (dnp3_on_data_ok n a k data ts dir Ha Hn) as (a' & E & Ha').
  pose proof (desync_frames (dnp3_flow a k) data t frames _ dir Hv eq_refl Hs) as Hd.
  rewrite app_assoc in Hs. destruct (cut_valid_frames frames _ t Hv Hs) as (fs & fs' & p & -> & Ec & Et & Hp).
  apply Forall_app in Hv as [Hv _]. exists a', fs, fs', p. split_and!; [done..|].
  unfold dnp3_on_data in E. fold (dnp3_flow a k) in E. rewrite Hl, Hd in E.
  destruct (analyze _ _ _) as [[a1 f1]|] eqn:Ea; [|done]. cbn [mbind option_bind] in E.
  injection E as <-.
  apply (analyze_frames a (dnp3_flow a k) data (mkDelivery k ts dir) fs p) in Ea as [D1 D2 D3 D4 D5];
    try done; [|lia].
  match goal with |- consumed _ _ _ _ (?x, _) => assert (dnp3_flow x k = f1) as -> end.
  { unfold dnp3_flow. simpl. by rewrite lookup_insert_eq. }
  by split.
Qed.

(** A partial frame is not a sequence of frames. *)
Lemma partial_frames p frames : partial p → Forall valid_frame frames → p = concat frames → frames = [].
Proof.
  intros Hp Hv ->. destruct frames as [|fr frames]; [done|].
  apply list.Forall_cons in Hv as [(len & tl & -> & E) _].
  destruct Hp as [|(fr0 & rest & (len0 & tl0 & -> & E0) & Ep & Hr)]; [done|].
  apply zlen_pos in Hr. injection Ep as -> ->. rewrite E in E0. apply (inj Some) in E0. zlia.
Qed.

Lemma consumed_trans dir fs1 fs2 p1 p2 w1 w2 w3 :
  frame_count w1.2 ≤ u64_max →
  consumed dir fs1 p1 w1 w2 → consumed dir fs2 p2 w2 w3 → consumed dir (fs1 ++ fs2) p2 w1 w3.
Proof.
  intros Hu [A1 A2 A3 A4 A5] [B1 B2 B3 B4 B5]. split; try congruence.
  - rewrite B1, A1. unfold sat_add. zlia.
  - intros fc. rewrite B5, A5, fc_total_app. lia.
Qed.

Lemma dnp3_feed_frames chunks n a k dir frames :
  dnp3_ok n a → n + zlen (delivered_bytes chunks) ≤ u64_max → is_non_dnp3 (dnp3_flow a k) = false →
  Forall valid_frame frames → partial (active_carry (dnp3_flow a k) dir) →
  active_carry (dnp3_flow a k) dir ++ delivered_bytes chunks = concat frames → dnp3_fits a k dir chunks →
  ∃ a', dnp3_feed a k dir chunks = Some a' ∧ consumed dir frames [] (a, dnp3_flow a k) (a', dnp3_flow a' k).
Proof.
  revert n a frames. induction chunks as [|[data ts] chunks IH]; intros n a frames Ha Hn Hl Hv Hp Hs Hf.
  - exists a. split; [done|]. unfold delivered_bytes in Hs. cbn in Hs. rewrite app_nil_r in Hs.
    destruct (dnp3_flow_counts n a k Ha) as [_ Hle]. change (zlen (delivered_bytes [])) with 0 in Hn.
    pose proof (partial_frames _ _ Hp Hv Hs) as ->.
    split; try done; [rewrite zlen_nil, sat_add_0; [done|simpl; lia]|].
    intros fc. change (fc_total fc []) with 0. cbn [fst]. lia.
  - unfold delivered_bytes in *. cbn [fmap list_fmap fst concat] in *. rewrite zlen_app in Hn.
    destruct Hf as [Hroom Hf]. pose proof (zlen_nonneg (concat chunks.*1)).
    destruct (on_data_frames n a k dir data ts (concat chunks.*1) frames Ha) as (a1 & fs & fs' & p & E & Ha1 & -> & Ht & Hp1 & Hc);
      [lia|done|done|done|done|].
    destruct (dnp3_flow_counts n a k Ha) as [_ Hle]. pose proof (zlen_nonneg data).
    pose proof (cn_latch _ _ _ _ _ Hc) as Hl1. pose proof (cn_carry _ _ _ _ _ Hc) as Hc1.
    cbn [snd] in Hl1, Hc1.
    destruct (IH (n + zlen data) a1 fs' Ha1) as (a2 & E2 & Hc2);
      [lia|by rewrite Hl1|by apply Forall_app in Hv as [_ ?]|by rewrite Hc1..|by apply Hf|].
    exists a2. cbn [dnp3_feed]. rewrite E. split; [done|]. eapply consumed_trans; [|done..]. simpl. lia.
Qed.

Lemma dnp3_flow_ok_frames f : dnp3_flow_ok 0 f → 0 ≤ frame_count f ≤ weight f ∧ 0 ≤ parse_errors f ≤ weight f.
Proof.
  intros []. pose proof (events_nonneg f). pose proof (held_bytes_nonneg f). unfold weight. lia.
Qed.

Lemma dnp3_summarize_ok `{!IterOrder FlowKey Dnp3FlowState} n a :
  dnp3_ok n a → n ≤ u64_max →
  ∃ s, dnp3_summarize a = Some s ∧
    packets_analyzed s = total_frames_closed a + map_sum frame_count (flows a) ∧
    packets_analyzed s ≤ n.
Proof.
  intros [Hf Hfl _ Hfn Hcf Hce Hs] Hn. specialize (Hs 0). specialize (Hfn 0).
  unfold closed_total in Hs.
  assert (∀ k f, flows a !! k = Some f → 0 ≤ frame_count f ≤ weight f ∧ 0 ≤ parse_errors f ≤ weight f)
    as Hw by (intros; by eapply dnp3_flow_ok_frames, Hfl).
  destruct (map_sum_le frame_count weight (flows a)); [intros; by eapply Hw|].
  destruct (map_sum_le parse_errors weight (flows a)); [intros; by eapply Hw|].
  assert (∀ g, (∀ k f, flows a !! k = Some f → 0 ≤ g f) →
    Forall (λ x, 0 ≤ x) (g <$> (map_to_list (flows a)).*2)) as Hall.
  { intros g Hg. apply list.Forall_fmap, list.Forall_fmap, list.Forall_forall. intros [k f] Hin.
    apply elem_of_map_to_list in Hin. by eapply Hg. }
  unfold dnp3_summarize, checked_sum.
  rewrite !checked_sum_Some; rewrite ?sum_map_to_list;
    [|apply Hall; intros; by eapply Hw|lia|apply Hall; intros; by eapply Hw|lia].
  cbn [mbind option_bind]. eexists. split; [done|]. simpl. unfold sat_add. lia.
Qed.

(** ** Theorems *)

(** C23. The frame walk terminates.  From any analyzer and flow state, with any
    bytes in the carry, there is no infinite sequence of rounds of the
    [loop] in [on_data]: every round that goes on leaves fewer bytes in the
    carry.  Hence more iterations than the carry has bytes never change the
    result. *)
Theorem dnp3_walk_terminates d :
  well_founded (λ w' w, ∃ did, dnp3_round did w d = Some (Again w')) ∧
  ∀ did w extra,
    let n := S (length (active_carry w.2 (d_dir d))) in
    frame_walk (n + extra) did w d = frame_walk n did w d.
Proof.
  split.
  - apply (wf_projected (λ x y, 0 ≤ x < y) (carry_len d)); [|apply (Z.lt_wf 0)].
    intros w' w [did E]. by apply dnp3_round_decreases in E.
  - intros did w extra n. assert (carry_len d w < Z.of_nat n) as Hn by (unfold carry_len, zlen, n; lia).
    clearbody n. revert did w Hn. induction n as [|n IH]; intros did w Hn.
    { unfold carry_len in Hn. zlia. }
    cbn [Nat.add frame_walk]. destruct (dnp3_round did w d) as [[w'|w']|] eqn:E; try done.
    cbn [mbind option_bind]. apply IH. apply dnp3_round_decreases in E. lia.
Qed.

(** The DNP3 analyzer never panics and stays within its limits.  After any
    sequence of deliveries and closes of at most 2^64 - 1 bytes, whatever the
    threshold and the iteration order of the request table, the analyzer is
    there, holds at most 10,000 findings, and every flow has at most 292
    buffered bytes per direction, at most 256 outstanding requests and at most
    64 distinct master addresses; the summary can be produced, and the frames
    it reports are no more than the bytes delivered. *)
Theorem dnp3_bounded `{!IterOrder FlowKey Dnp3FlowState} threshold es :
  trace_bytes es ≤ u64_max →
  ∃ a s, replay (Some (Dnp3Analyzer_new threshold)) es = Some a ∧
    zlen (all_findings a) ≤ 10000 ∧
    (∀ k f, flows a !! k = Some f →
      zlen (carry_c2s f) ≤ 292 ∧ zlen (carry_s2c f) ≤ 292 ∧
      Z.of_nat (size (pending_requests f)) ≤ 256 ∧
      NoDup (master_addrs_seen f) ∧ zlen (master_addrs_seen f) ≤ 64) ∧
    dnp3_summarize a = Some s ∧
    packets_analyzed s = total_frames_closed a + map_sum frame_count (flows a) ∧
    packets_analyzed s ≤ trace_bytes es.
Proof.
  intros Hn. destruct (dnp3_replay_ok es 0 _ (dnp3_ok_new threshold)) as (a & E & Ha); [lia|].
  destruct (dnp3_summarize_ok _ a Ha) as (s & Es & Hp & Hle); [lia|].
  exists a, s. split_and!; try done; [apply Ha|]. intros k f Hk.
  destruct (do_flows _ _ Ha k f Hk) as [? ? _ _ _ _ ? []]. by split_and!.
Qed.

(** C21. Frames are counted once each, however the stream is cut.  Take any
    sequence of complete link frames on a flow that is not latched and has
    nothing buffered in that direction, cut its bytes into deliveries at any
    places and timestamps such that every delivery finds room in the 292-byte
    carry.  Then the deliveries are processed without a panic, the flow's
    frame counter goes up by the number of frames, its error counter does not
    move, it stays unlatched, nothing stays buffered, and the analyzer's count
    of every function code goes up by the number of first-fragment user-data
    frames that carry it. *)
Theorem dnp3_frames_any_chunking n a k dir frames chunks :
  dnp3_ok n a → n + zlen (delivered_bytes chunks) ≤ u64_max →
  is_non_dnp3 (dnp3_flow a k) = false → active_carry (dnp3_flow a k) dir = [] →
  Forall valid_frame frames → delivered_bytes chunks = concat frames → dnp3_fits a k dir chunks →
  ∃ a', dnp3_feed a k dir chunks = Some a' ∧
    frame_count (dnp3_flow a' k) = frame_count (dnp3_flow a k) + zlen frames ∧
    parse_errors (dnp3_flow a' k) = parse_errors (dnp3_flow a k) ∧
    is_non_dnp3 (dnp3_flow a' k) = false ∧ active_carry (dnp3_flow a' k) dir = [] ∧
    ∀ fc, fcount (fn_code_counts a') fc = fcount (fn_code_counts a) fc + fc_total fc frames.
Proof.
  intros Ha Hn Hl Hc Hv Hs Hf.
  destruct (dnp3_feed_frames chunks n a k dir frames) as (a' & E & [D1 D2 D3 D4 D5]); try done;
    [rewrite Hc; by left|by rewrite Hc|]. cbn [fst snd] in *.
  exists a'. split_and!; try done; [|congruence].
  rewrite D1. destruct (dnp3_flow_counts n a k Ha) as [_ Hle].
  assert (zlen frames ≤ zlen (delivered_bytes chunks)); [|unfold sat_add; lia].
  rewrite Hs. clear -Hv. induction Hv as [|fr frames Hfr _ IH]; [done|]. cbn [concat].
  pose proof (valid_frame_len _ Hfr). zlia.
Qed.

(** Timeouts do not depend on the order of the request table.  For every
    iteration order, the scan removes exactly the requests older than ten
    seconds, adds their number to the blocked-command counter, and reports
    once per window with the smallest destination among them, as the
    order-free [scan_reference] says. *)
Theorem dnp3_timeouts_exact a f d :
  block_event_count f ≤ u64_max → scan_block_timeouts (a, f) d = scan_reference (a, f) d.
Proof. apply scan_block_timeouts_reference. Qed.

(** The request table is a bounded LRU table.  Recording a request always
    stores it and never exceeds 256 entries; an entry is evicted exactly when
    the table is full and the key is new, only one is, and no remaining
    request is older than it. *)
Theorem dnp3_pending_lru f key ts f' evicted :
  Z.of_nat (size (pending_requests f)) ≤ MAX_PENDING_REQUESTS →
  insert_pending_request f key ts = (f', evicted) →
  pending_requests f' !! key = Some ts ∧
  Z.of_nat (size (pending_requests f')) ≤ MAX_PENDING_REQUESTS ∧
  (evicted = true ↔
    Z.of_nat (size (pending_requests f)) = MAX_PENDING_REQUESTS ∧ pending_requests f !! key = None) ∧
  if evicted
  then ∃ old t, pending_requests f !! old = Some t ∧
         (∀ k' t', pending_requests f !! k' = Some t' → t ≤ t') ∧
         pending_requests f' = <[key := ts]> (delete old (pending_requests f))
  else pending_requests f' = <[key := ts]> (pending_requests f).
Proof.
  intros Hs E. pose proof (insert_pending_calm (Dnp3Analyzer_new 0) f _ _ _ _ E) as Hq.
  pose proof (ev_pending _ _ _ (q_events _ _ _ Hq) Hs) as Hs'. cbn [snd] in Hs'.
  unfold insert_pending_request in E. destruct (_ && _) eqn:Ec; simplify_eq.
  - apply andb_prop in Ec as [Hle%Z.leb_le Hn%negb_true_iff%bool_decide_eq_false].
    rewrite <- eq_None_not_Some in Hn. split; [apply lookup_insert_eq|].
    split; [done|]. split; [split; intros; [split; [lia|done]|done]|].
    destruct (evict_oldest_spec id (pending_requests f)) as (old & t & Hin & Hmin & Ee).
    { intros Hp. rewrite Hp, map_size_empty in Hle. by vm_compute in Hle. }
    exists old, t. split_and!; [done|done|]. cbn. by rewrite Ee.
  - split; [apply lookup_insert_eq|]. split; [done|]. split; [|done].
    split; [done|]. intros [H1 H2]. exfalso. apply andb_false_iff in Ec as [Ec%Z.leb_gt|Ec].
    + lia.
    + apply negb_false_iff, bool_decide_eq_true in Ec. rewrite H2 in Ec. by destruct Ec.
Qed.

Lemma control_arm_pending w unexpected fc ctrl dest src d :
  fc ≠ 0x06 →
  pending_requests (control_arm w unexpected fc ctrl dest src d).2 !! (dest, Z.land ctrl 0x0F)
  = Some (d_ts d).
Proof.
  intros Hfc. unfold control_arm. set (w2 := if unexpected then _ else _). clearbody w2.
  destruct w2 as [a f]. unfold note_request. rewrite (proj2 (Z.eqb_neq _ _) Hfc). cbn [negb].
  destruct (insert_pending_request f _ _) as [f' b] eqn:E.
  assert (pending_requests f' !! (dest, Z.land ctrl 0x0F) = Some (d_ts d)) as Hp.
  { unfold insert_pending_request in E. destruct (_ && _); simplify_eq; apply lookup_insert_eq. }
  unfold detect_control_class_burst_split. by repeat case_match.
Qed.

(** A request is blocked unless it is answered.  A control request other
    than DIRECT_OPERATE_NR to an outstation is outstanding with its capture
    time; while it is, the first scan more than ten seconds later counts it;
    a RESPONSE from that outstation with the same sequence number takes it
    out of the table, so that no scan counts it. *)
Theorem dnp3_request_response w unexpected fc ctrl dest src d :
  fc ≠ 0x06 →
  let w1 := control_arm w unexpected fc ctrl dest src d in
  (∀ ts, late ts w1.2 !! (dest, Z.land ctrl 0x0F)
     = if BLOCK_CMD_TIMEOUT_SECS <? sat_sub ts (d_ts d) then Some (d_ts d) else None) ∧
  ∀ ctrl' dest' d' ts, Z.land ctrl' 0x0F = Z.land ctrl 0x0F →
    late ts (response_arm w1 0x81 ctrl' dest' dest d').2 !! (dest, Z.land ctrl 0x0F) = None.
Proof.
  intros Hfc w1. pose proof (control_arm_pending w unexpected fc ctrl dest src d Hfc) as Hp.
  fold w1 in Hp. clearbody w1. destruct w1 as [a f]. cbn [snd] in *. split.
  - intros ts. unfold late. destruct (Z.ltb_spec BLOCK_CMD_TIMEOUT_SECS (sat_sub ts (d_ts d))).
    + by apply map_lookup_filter_Some.
    + apply map_lookup_filter_None. right. intros t Ht. rewrite Hp in Ht. simplify_eq. simpl. lia.
  - intros ctrl' dest' d' ts E. unfold late, response_arm. cbn [detect_unsolicited_anomaly].
    change (0x81 =? 0x81) with true. cbn iota. cbn [snd]. apply map_lookup_filter_None. left.
    simpl. rewrite E. apply lookup_delete_eq.
Qed.
End analyzer.

(** ** Loss of control *)

(** Restart commands [(fc, dest, src, delivery)] one after the other. *)
Fixpoint run_restarts (w : work) (l : list (Z * Z * Z * delivery)) : panicky work :=
  match l with
  | [] => Some w
  | (fc, dest, src, d) :: l =>
      w ← maybe_emit_t0827 (detect_restart_split w fc dest src d) dest d; run_restarts w l
  end.

(** The techniques reported by [n] restarts after [r] earlier ones. *)
Fixpoint restart_techniques (r : Z) (n : nat) : list (list string) :=
  match n with
  | O => []
  | S n => ["T0814"%string] :: (if r =? 2 then [["T0827"%string]] else []) ++
           restart_techniques (r + 1) n
  end.

Lemma emit_room a x : zlen (all_findings a) < DNP3_MAX_FINDINGS → all_findings (emit a x) = all_findings a ++ [x].
Proof. intros H. unfold emit. by rewrite (proj2 (Z.ltb_lt _ _) H). Qed.

(** One restart: T0814, and T0827 exactly when it is the third event. *)
Lemma restart_step a f fc dest src d :
  zlen (all_findings a) + (if loss_of_control_emitted f then 0 else 1) < DNP3_MAX_FINDINGS →
  0 ≤ restart_event_count f < u64_max → block_event_count f = 0 →
  loss_of_control_emitted f = (3 <=? restart_event_count f) →
  ∃ a' f' new, maybe_emit_t0827 (detect_restart_split (a, f) fc dest src d) dest d = Some (a', f') ∧
    restart_event_count f' = restart_event_count f + 1 ∧ block_event_count f' = 0 ∧
    loss_of_control_emitted f' = (3 <=? restart_event_count f') ∧
    all_findings a' = all_findings a ++ new ∧
    mitre_techniques <$> new = restart_techniques (restart_event_count f) 1.
Proof.
  intros Hroom Hr Hb Hl. unfold detect_restart_split, maybe_emit_t0827.
  assert (sat_add u64_max (restart_event_count f) 1 = restart_event_count f + 1) as E
    by (unfold sat_add; lia).
  set (x := dnp3_finding _ _ _ _ _ _ _).
  assert (all_findings (emit a x) = all_findings a ++ [x]) as Hx.
  { apply emit_room. destruct (loss_of_control_emitted f); lia. }
  simpl. rewrite E, Hb, cadd_Some by lia. cbn [mbind option_bind]. rewrite Z.add_0_r.
  rewrite Hl in *. unfold T0827_THRESHOLD.
  destruct (Z.leb_spec 3 (restart_event_count f + 1)), (Z.leb_spec 3 (restart_event_count f));
    cbn [negb andb]; try lia.
  - eexists _, _, [x]. split; [done|]. simpl. rewrite (proj2 (Z.leb_le _ _)) by lia.
    rewrite (proj2 (Z.eqb_neq _ _)) by lia. by split_and!.
  - set (y := dnp3_finding _ _ _ _ _ _ _). eexists _, _, [x; y]. split; [done|]. simpl.
    rewrite (proj2 (Z.eqb_eq _ _)), (proj2 (Z.leb_le _ _)) by lia. split_and!; try done.
    rewrite emit_room, Hx; [by rewrite <- app_assoc|]. rewrite Hx. zlia.
  - eexists _, _, [x]. split; [done|]. simpl. rewrite (proj2 (Z.leb_gt _ _)) by lia.
    rewrite (proj2 (Z.eqb_neq _ _)) by lia. by split_and!.
Qed.

Lemma run_restarts_techniques l a f :
  zlen (all_findings a) + zlen l + (if loss_of_control_emitted f then 0 else 1) ≤ DNP3_MAX_FINDINGS →
  0 ≤ restart_event_count f → restart_event_count f + zlen l ≤ u64_max →
  block_event_count f = 0 → loss_of_control_emitted f = (3 <=? restart_event_count f) →
  ∃ a' f' new, run_restarts (a, f) l = Some (a', f') ∧
    restart_event_count f' = restart_event_count f + zlen l ∧
    all_findings a' = all_findings a ++ new ∧
    mitre_techniques <$> new = restart_techniques (restart_event_count f) (length l).
Proof.
  revert a f. induction l as [|[[[fc dest] src] d] l IH]; intros a f Hroom Hr Hu Hb Hl.
  { exists a, f, []. rewrite app_nil_r, zlen_nil, Z.add_0_r. by split_and!. }
  rewrite zlen_cons in Hroom, Hu. pose proof (zlen_nonneg l). cbn [run_restarts].
  destruct (restart_step a f fc dest src d) as (a1 & f1 & new1 & -> & Hr1 & Hb1 & Hl1 & Ha1 & Ht1);
    [destruct (loss_of_control_emitted f); lia|lia|done|done|].
  cbn [mbind option_bind].
  destruct (IH a1 f1) as (a2 & f2 & new2 & -> & Hr2 & Ha2 & Ht2); try done; [|lia..|].
  { rewrite Hl1, Hr1, Ha1, zlen_app. rewrite Hl in Hroom. revert Hroom.
    rewrite <- (zlen_fmap mitre_techniques new1), Ht1. cbn [restart_techniques].
    destruct (Z.eqb_spec (restart_event_count f) 2), (Z.leb_spec 3 (restart_event_count f)),
      (Z.leb_spec 3 (restart_event_count f + 1)); unfold zlen; cbn [app length]; lia. }
  exists a2, f2, (new1 ++ new2). rewrite zlen_cons. split_and!; [done|lia| |].
  - by rewrite Ha2, Ha1, app_assoc.
  - rewrite fmap_app, Ht1, Ht2, Hr1. cbn [restart_techniques length].
    by rewrite app_nil_r.
Qed.

(** Loss of control is reported once, at the third event.  A run of [n]
    restart commands on a flow with no earlier events of the window, while
    the findings have room, reports T0814 for each of them and T0827 exactly
    once, directly after the third T0814 (and not at all when [n < 3]). *)
Theorem dnp3_loss_of_control_once l a f :
  restart_event_count f = 0 → block_event_count f = 0 → loss_of_control_emitted f = false →
  zlen (all_findings a) + zlen l + 1 ≤ DNP3_MAX_FINDINGS →
  ∃ a' f' new, run_restarts (a, f) l = Some (a', f') ∧
    restart_event_count f' = zlen l ∧ all_findings a' = all_findings a ++ new ∧
    mitre_techniques <$> new =
      (replicate (Nat.min 3 (length l)) ["T0814"%string]) ++
      (if (3 <=? length l)%nat then [["T0827"%string]] else []) ++
      replicate (length l - 3) ["T0814"%string].
Proof.
  intros Hr Hb Hl Hroom. pose proof (zlen_nonneg (all_findings a)).
  destruct (run_restarts_techniques l a f) as (a' & f' & new & E & E1 & E2 & E3).
  { by rewrite Hl. } { lia. } { unfold DNP3_MAX_FINDINGS in *. ulia. } { done. }
  { by rewrite Hr, Hl. }
  exists a', f', new. rewrite Hr in *. split_and!; [done|done|done|]. rewrite E3.
  assert (∀ n r, 3 ≤ r → restart_techniques r n = replicate n ["T0814"%string]) as Hrest.
  { intros n. induction n as [|n IH]; intros r Hr3; [done|]. cbn [restart_techniques replicate].
    rewrite (proj2 (Z.eqb_neq _ _)) by lia. cbn [app]. f_equal. apply IH. lia. }
  destruct (length l) as [|[|[|n]]]; try done. cbn. rewrite Hrest by lia. by rewrite Nat.sub_0_r.
Qed.

(** ** What is lost *)

(** At exactly 300 seconds the window is neither expired nor open for the
    malformed-frame report. *)
Lemma malformed_window_edge a f d :
  correlation_window_seeded f = true →
  d_ts d - correlation_window_start_ts f = CORRELATION_WINDOW_SECS →
  maybe_expire_correlation_window f (d_ts d) = f ∧
  check_malformed_anomaly (a, f) d = (a, f).
Proof.
  intros Hs He. unfold maybe_expire_correlation_window, check_malformed_anomaly, sat_sub.
  rewrite Hs, He. cbn. by rewrite andb_false_r.
Qed.

Section overflow.
Context `{!IterOrder (Z * Z) Z}.

Lemma drop_timed_out_carry l f first m f' first' m' dir :
  drop_timed_out l f first m = (f', first', m') → active_carry f' dir = active_carry f dir.
Proof.
  revert f first m. induction l as [|key l IH]; intros f first m E; cbn [drop_timed_out] in E.
  { by simplify_eq. }
  destruct (first || _); apply IH in E; rewrite E; by destruct dir.
Qed.

Lemma scan_carry a f d w' dir :
  scan_block_timeouts (a, f) d = Some w' → active_carry w'.2 dir = active_carry f dir.
Proof.
  unfold scan_block_timeouts. destruct (drop_timed_out _ _ _ _) as [[f1 first] m] eqn:E.
  apply drop_timed_out_carry with (dir := dir) in E.
  pose proof (same_frames_active _ _ dir (q_frames _ _ _ (report_blocked_calm (a, f1) m d))) as Hr.
  destruct first; intros E'; [apply (inj Some) in E'; by rewrite <- E', Hr|].
  apply t0827_calm in E'. by rewrite (same_frames_active _ _ dir (q_frames _ _ _ E')), Hr.
Qed.

Lemma accumulate_full a f d data rest :
  zlen (active_carry f (d_dir d)) + zlen data = MAX_DNP3_FRAME_LEN → rest ≠ [] →
  accumulate (a, f) (data ++ rest) d =
    Some (check_malformed_anomaly
      (a, set_active_carry (count_malformed f) (d_dir d)
            (resync (active_carry f (d_dir d) ++ data))) d).
Proof.
  intros Hfull Hr. apply zlen_pos in Hr. unfold accumulate.
  pose proof (zlen_nonneg data). rewrite csub_Some by lia. cbn [mbind option_bind].
  replace (MAX_DNP3_FRAME_LEN - zlen (active_carry f (d_dir d))) with (zlen data) by lia.
  rewrite (proj2 (Z.ltb_lt _ _)) by zlia. rewrite slice_Some by zlia. cbn [mbind option_bind].
  rewrite Z.sub_0_r. change (drop (Z.to_nat 0) ?l) with l. by rewrite take_zlen_app.
Qed.

(** Bytes beyond the carry are lost unseen.  When the buffered bytes and
    the first part of a delivery fill the 292-byte carry, the rest of the
    delivery has no influence at all: any two non-empty rests give the same
    analyzer, so frames that lie beyond the first 292 bytes of one delivery
    are never parsed. *)
Theorem dnp3_overflow_ignores_rest a k dir ts data rest rest' :
  zlen (active_carry (dnp3_flow a k) dir) + zlen data = MAX_DNP3_FRAME_LEN →
  rest ≠ [] → rest' ≠ [] →
  dnp3_on_data a k (data ++ rest) ts dir = dnp3_on_data a k (data ++ rest') ts dir.
Proof.
  intros Hfull Hr Hr'. unfold dnp3_on_data. fold (dnp3_flow a k). set (f := dnp3_flow a k) in *.
  assert (desync f (data ++ rest) = desync f (data ++ rest')) as ->.
  { unfold desync. destruct data as [|b0 [|b1 data]]; [| |done].
    all: destruct (decide (active_carry f dir = [])) as [E|E];
      [rewrite E in Hfull; by vm_compute in Hfull|].
    all: destruct dir; simpl in E.
    all: rewrite ?(bool_decide_eq_false_2 (carry_c2s f = [])) by done;
      rewrite ?(bool_decide_eq_false_2 (carry_s2c f = [])) by done; by rewrite ?andb_false_r. }
  destruct (is_non_dnp3 f); [done|]. destruct (desync _ _); [done|].
  assert (analyze (a, f) (data ++ rest) (mkDelivery k ts dir) =
          analyze (a, f) (data ++ rest') (mkDelivery k ts dir)) as ->; [|done].
  unfold analyze. destruct (scan_block_timeouts _ _) as [[a1 f1]|] eqn:E; [|done].
  apply scan_carry with (dir := dir) in E. cbn [mbind option_bind snd d_dir d_ts] in *.
  assert (active_carry (maybe_expire_correlation_window f ts) dir = active_carry f dir) as E'
    by exact (same_frames_active _ _ dir (q_frames _ _ _ (expire_calm a f ts))).
  rewrite !accumulate_full; try done; cbn [d_dir]; by rewrite E, E'.
Qed.
End overflow.

(** ** Round trip *)

(** A link frame is read back as it was built.  For any control octet,
    addresses and up to 250 octets of user data, laid out in 16-octet blocks
    with any check octets, the header is parsed to the same fields, passes the
    validity gate, and the length computed from its LENGTH octet is the length
    of the whole frame, at most 292. *)
Theorem dnp3_link_frame_roundtrip ctrl dest src user crc :
  is_u16 dest → is_u16 src → zlen user ≤ 250 →
  let h := mkDlHeader 0x05 0x64 (5 + zlen user) ctrl dest src in
  let frame := link_frame ctrl dest src user crc in
  parse_dnp3_dl_header frame = Some h ∧ is_valid_dnp3_frame_header h = true ∧
  compute_dnp3_frame_len (dl_length h) = Some (zlen frame) ∧ zlen frame ≤ MAX_DNP3_FRAME_LEN.
Proof.
  intros Hd Hs Hu h frame. pose proof (zlen_nonneg user).
  pose proof (link_frame_len ctrl dest src user crc) as Hlen.
  assert (∀ x, is_u16 x → u16_le (x mod 256) (x / 256) = x) as Hle.
  { intros x. unfold is_u16, u16_max, u16_le, u16_be. intros Hx. pose proof (Z.div_mod x 256).
    rewrite (Z.mul_comm (x / 256)), <- Z.div_mod by lia. apply Z.mod_small. lia. }
  split_and!; [|by unfold is_valid_dnp3_frame_header; rewrite (proj2 (Z.leb_le _ _)) by (simpl; lia)|done|].
  - cbn. by rewrite !Hle.
  - apply compute_dnp3_frame_len_max in Hlen; [apply Hlen|]. unfold is_u8, u8_max. lia.
Qed.

(** ** Witnesses *)

#[local] Existing Instance list_iter_order.

Lemma dnp3_link_frame_roundtrip_witness :
  parse_dnp3_dl_header (link_frame 0xC4 10 1 (replicate 20 7) (0xAA, 0xBB))
    = Some (mkDlHeader 0x05 0x64 25 0xC4 10 1) ∧
  zlen (link_frame 0xC4 10 1 (replicate 20 7) (0xAA, 0xBB)) = 34.
Proof.
  split; [|reflexivity].
  destruct (dnp3_link_frame_roundtrip 0xC4 10 1 (replicate 20 7) (0xAA, 0xBB)) as (E & _);
    [by vm_compute|by vm_compute|by vm_compute|exact E].
Defined.

Definition station_key : FlowKey := FlowKey_new (V4 1) 40000 (V4 2) 20000.

(** A DIRECT_OPERATE to outstation 10, and a WRITE. *)
Definition operate_frame : list Z := link_frame 0xC4 10 1 [0xC0; 0xC1; 0x05; 12; 1] (0, 0).
Definition write_frame : list Z := link_frame 0xC4 10 1 [0xC0; 0xC2; 0x02; 50; 1] (0, 0).

Definition station_events : trace :=
  [EData station_key ClientToServer (take 7 operate_frame) 0 100;
   EData station_key ClientToServer (drop 7 operate_frame ++ write_frame ++ [1; 2; 3]) 7 101;
   EData station_key ServerToClient [0x05; 0x64; 2; 9; 9; 9; 9; 9; 9; 9; 9] 0 112].

Lemma dnp3_bounded_witness :
  ∃ a s, replay (Some (Dnp3Analyzer_new 10)) station_events = Some a ∧
    dnp3_summarize a = Some s ∧ packets_analyzed s = 2 ∧ zlen (all_findings a) = 1.
Proof.
  destruct (dnp3_bounded 10 station_events) as (a & s & E & _ & _ & Es & _); [by vm_compute|].
  exists a, s. split; [exact E|]. split; [exact Es|].
  vm_compute in E. injection E as <-. vm_compute in Es. injection Es as <-. by split.
Defined.

Lemma dnp3_frames_any_chunking_witness :
  ∃ a', dnp3_feed (Dnp3Analyzer_new 10) station_key ClientToServer
      [(take 7 operate_frame, 100); (drop 7 operate_frame ++ take 1 write_frame, 101);
       (drop 1 write_frame, 102)] = Some a' ∧
    frame_count (dnp3_flow a' station_key) = 2 ∧ fcount (fn_code_counts a') 0x05 = 1.
Proof.
  destruct (dnp3_frames_any_chunking 0 (Dnp3Analyzer_new 10) station_key ClientToServer
    [operate_frame; write_frame]
    [(take 7 operate_frame, 100); (drop 7 operate_frame ++ take 1 write_frame, 101);
     (drop 1 write_frame, 102)]) as (a' & E & Hn & _ & _ & _ & Hfc).
  - apply dnp3_ok_new.
  - by vm_compute.
  - reflexivity.
  - reflexivity.
  - repeat constructor; apply link_frame_valid.
  - reflexivity.
  - split; [by vm_compute|]. intros a1 E1. vm_compute in E1. injection E1 as <-.
    split; [by vm_compute|]. intros a2 E2. vm_compute in E2. injection E2 as <-.
    split; [by vm_compute|done].
  - exists a'. split; [exact E|]. split; [exact Hn|]. rewrite Hfc. reflexivity.
Defined.

(** Three requests outstanding since second 100. *)
Definition waiting_flow : Dnp3FlowState :=
  Dnp3FlowState_default <| pending_requests := {[ (10, 1) := 100; (9, 2) := 100; (12, 3) := 108 ]} |>.

Lemma dnp3_timeouts_exact_witness :
  scan_block_timeouts (Dnp3Analyzer_new 10, waiting_flow) (mkDelivery station_key 111 ClientToServer)
  = Some (Dnp3Analyzer_new 10,
      waiting_flow <| pending_requests := {[ (12, 3) := 108 ]} |> <| block_event_count := 2 |>).
Proof.
  rewrite (dnp3_timeouts_exact (Dnp3Analyzer_new 10) waiting_flow); [|by vm_compute].
  vm_compute. reflexivity.
Defined.

(** A full table whose oldest entry is (7, 0). *)
Definition full_table : gmap (Z * Z) Z :=
  list_to_map (((7, 0), 50) :: ((λ i : nat, ((1000 + Z.of_nat i, 0), 60)) <$> seq 0 255)).

Lemma dnp3_pending_lru_witness :
  let f := Dnp3FlowState_default <| pending_requests := full_table |> in
  let f' := (insert_pending_request f (5, 5) 70).1 in
  pending_requests f' !! (5, 5) = Some 70 ∧ pending_requests f' !! (7, 0) = None ∧
  size (pending_requests f') = 256%nat.
Proof.
  intros f f'. split; [|by vm_compute].
  destruct (dnp3_pending_lru f (5, 5) 70 f' true) as (E & _);
    [by vm_compute|unfold f'; by vm_compute|exact E].
Defined.

Lemma dnp3_request_response_witness :
  let d := mkDelivery station_key 100 ClientToServer in
  let w := control_arm (Dnp3Analyzer_new 10, Dnp3FlowState_default) false 0x05 0xC1 10 1 d in
  late 111 w.2 !! (10, 1) = Some 100 ∧
  late 111 (response_arm w 0x81 0xC1 1 10 (mkDelivery station_key 105 ServerToClient)).2 !! (10, 1)
    = None.
Proof.
  intros d w. destruct (dnp3_request_response (Dnp3Analyzer_new 10, Dnp3FlowState_default) false
    0x05 0xC1 10 1 d) as [H1 H2]; [discriminate|]. split.
  - exact (H1 111).
  - exact (H2 0xC1 1 (mkDelivery station_key 105 ServerToClient) 111 eq_refl).
Defined.

Lemma dnp3_loss_of_control_once_witness :
  let d := mkDelivery station_key 100 ClientToServer in
  ∃ a' f' new, run_restarts (Dnp3Analyzer_new 10, Dnp3FlowState_default)
      (replicate 4 (0x0D, 10, 1, d)) = Some (a', f') ∧
    all_findings a' = new ∧
    mitre_techniques <$> new =
      [["T0814"%string]; ["T0814"%string]; ["T0814"%string]; ["T0827"%string]; ["T0814"%string]].
Proof.
  intros d. destruct (dnp3_loss_of_control_once (replicate 4 (0x0D, 10, 1, d))
    (Dnp3Analyzer_new 10) Dnp3FlowState_default) as (a' & f' & new & E & _ & Ha & Ht);
    [reflexivity|reflexivity|reflexivity|by vm_compute|].
  exists a', f', new. split; [exact E|]. split; [exact Ha|exact Ht].
Defined.

(** Thirty ten-octet frames: in one delivery the last one is lost, in two it is
    not. *)
Definition reset_frame : list Z := link_frame 0x40 10 1 [] (0, 0).

Lemma dnp3_overflow_ignores_rest_witness :
  let all := concat (replicate 30 reset_frame) in
  dnp3_on_data (Dnp3Analyzer_new 10) station_key all 100 ClientToServer =
    dnp3_on_data (Dnp3Analyzer_new 10) station_key (take 292 all ++ [0]) 100 ClientToServer ∧
  ((λ a, frame_count (dnp3_flow a station_key)) <$>
     dnp3_on_data (Dnp3Analyzer_new 10) station_key all 100 ClientToServer) = Some 29 ∧
  ((λ a, frame_count (dnp3_flow a station_key)) <$>
     dnp3_feed (Dnp3Analyzer_new 10) station_key ClientToServer
       [(take 150 all, 100); (drop 150 all, 100)]) = Some 30.
Proof.
  intros all. split; [|split; vm_compute; reflexivity].
  rewrite <- (take_drop 292 all) at 1.
  apply (dnp3_overflow_ignores_rest (Dnp3Analyzer_new 10) station_key ClientToServer 100
    (take 292 all) (drop 292 all) [0]); [reflexivity|discriminate|discriminate].
Defined.
