(* ===== verification/Enip.v ===== *)
(** * The EtherNet/IP analyzer (src/analyzer/enip.rs)

    Encapsulation framing with a carry buffer per direction, command and CIP
    service classification, the walk over the Common Packet Format items and
    the detectors: device enumeration, identity reads, error bursts, stop and
    reset services, write bursts, connection life cycle and malformed frames.
    The translation comes first; the theorems are in [EnipProps].  Offsets are
    [usize] sums of [u16] and [u8] fields and cannot overflow;
    [debug_assert!] is compiled out of the release profile. *)

From S2P Require Import Prelude FlowKey Handler Findings Dispatcher.

#[local] Open Scope Z_scope.

Record EnipHeader := mkEnipHeader {
  command : Z;
  enip_length : Z;
  session_handle : Z;
  status : Z;
  sender_context : list Z;
  options : Z
}.

Inductive EnipCommandClass :=
  | ListServices | ListIdentity | ListInterfaces | RegisterSession | UnRegisterSession
  | SendRRData | SendUnitData | IndicateStatus | Cancel | UnknownCommand.

#[global] Instance EnipCommandClass_eq_dec : EqDecision EnipCommandClass.
Proof. solve_decision. Defined.

Definition parse_enip_header (data : list Z) : option EnipHeader :=
  match data with
  | b0 :: b1 :: b2 :: b3 :: b4 :: b5 :: b6 :: b7 :: b8 :: b9 :: b10 :: b11 :: b12 :: b13 :: b14
    :: b15 :: b16 :: b17 :: b18 :: b19 :: b20 :: b21 :: b22 :: b23 :: _ =>
      Some {| command := u16_le b0 b1;
              enip_length := u16_le b2 b3;
              session_handle := u32_le b4 b5 b6 b7;
              status := u32_le b8 b9 b10 b11;
              sender_context := [b12; b13; b14; b15; b16; b17; b18; b19];
              options := u32_le b20 b21 b22 b23 |}
  | _ => None
  end.

Definition classify_enip_command (command : Z) : EnipCommandClass :=
  match command with
  | 0x0004 => ListServices
  | 0x0063 => ListIdentity
  | 0x0064 => ListInterfaces
  | 0x0065 => RegisterSession
  | 0x0066 => UnRegisterSession
  | 0x006F => SendRRData
  | 0x0070 => SendUnitData
  | 0x0072 => IndicateStatus
  | 0x0075 => Cancel
  | _ => UnknownCommand
  end.

Definition is_valid_enip_frame (h : EnipHeader) : bool :=
  bool_decide (command h ∈
    [0x0004; 0x0063; 0x0064; 0x0065; 0x0066; 0x006F; 0x0070; 0x0072; 0x0075]).

Definition ENIP_MAX_FINDINGS : Z := 10000.
Definition MAX_ENIP_CARRY_BYTES : Z := 600.
Definition ENIP_MALFORMED_ANOMALY_THRESHOLD : Z := 3.

Record EnipFlowState := mkEnipFlow {
  error_counts_in_window : gmap Z Z;
  error_window_start_ts : Z;
  error_window_active : bool;
  error_rate_emitted : bool;
  write_count_in_window : Z;
  write_burst_emitted : bool;
  write_window_start_ts : Z;
  list_identity_emitted : bool;
  is_non_enip : bool;
  command_counts : gmap Z Z;
  pdu_count : Z;
  flow_parse_errors : Z;
  malformed_in_window : Z;
  carry_c2s : list Z;
  carry_s2c : list Z;
  open_connection_count : Z;
  close_connection_count : Z;
  malformed_anomaly_emitted : bool;
  malformed_window_start_ts : Z
}.

#[global] Instance EnipFlowState_eta : Eta EnipFlowState := λ s,
  mkEnipFlow (error_counts_in_window s) (error_window_start_ts s) (error_window_active s)
    (error_rate_emitted s) (write_count_in_window s) (write_burst_emitted s)
    (write_window_start_ts s) (list_identity_emitted s) (is_non_enip s) (command_counts s)
    (pdu_count s) (flow_parse_errors s) (malformed_in_window s) (carry_c2s s) (carry_s2c s)
    (open_connection_count s) (close_connection_count s) (malformed_anomaly_emitted s)
    (malformed_window_start_ts s).

Definition EnipFlowState_new : EnipFlowState :=
  mkEnipFlow ∅ 0 false false 0 false 0 false false ∅ 0 0 0 [] [] 0 0 false 0.

Record EnipAnalyzer := mkEnipAnalyzer {
  enip_write_burst_threshold : Z;
  enip_error_burst_threshold : Z;
  all_findings : list Finding;
  bytes_received : Z;
  error_count : Z;
  write_count : Z;
  flows : gmap FlowKey EnipFlowState;
  total_pdu_count : Z;
  parse_errors : Z;
  command_distribution : gmap Z Z;
  flows_analyzed : Z;
  dropped_findings : Z
}.

#[global] Instance EnipAnalyzer_eta : Eta EnipAnalyzer := λ a,
  mkEnipAnalyzer (enip_write_burst_threshold a) (enip_error_burst_threshold a) (all_findings a)
    (bytes_received a) (error_count a) (write_count a) (flows a) (total_pdu_count a)
    (parse_errors a) (command_distribution a) (flows_analyzed a) (dropped_findings a).

Definition EnipAnalyzer_new (write_burst_threshold error_burst_threshold : Z) : EnipAnalyzer :=
  mkEnipAnalyzer write_burst_threshold error_burst_threshold [] 0 0 0 ∅ 0 0 ∅ 0 0.

(** ** Emission *)

(** Push below the cap, count above it; the result tells whether the finding
    was pushed.  A one-shot guard is only set by a finding that was pushed. *)
Definition enip_emit (a : EnipAnalyzer) (x : Finding) : EnipAnalyzer * bool :=
  if zlen (all_findings a) <? ENIP_MAX_FINDINGS
  then (a <| all_findings := all_findings a ++ [x] |>, true)
  else (a <| dropped_findings := sat_add u64_max (dropped_findings a) 1 |>, false).

(** Where the findings of a delivery come from. *)
Record EnipSource := mkSource {
  s_ts : Z;
  s_src : IpAddr;
  s_dst : IpAddr
}.

Definition enip_finding (c : ThreatCategory) (v : Verdict) (cf : Confidence) (summary : text)
    (evidence : text) (techniques : list string) (o : EnipSource) : Finding := {|
  category := c; verdict := v; confidence := cf; summary := summary; evidence := [evidence];
  mitre_techniques := techniques;
  source_ip := Some (s_src o); timestamp := Some (s_ts o); direction := None
|}.

Abbreviation enip_work := (EnipAnalyzer * EnipFlowState)%type.

Definition check_t0814 (w : enip_work) (o : EnipSource) : enip_work :=
  let '(a, f) := w in
  if (ENIP_MALFORMED_ANOMALY_THRESHOLD <=? malformed_in_window f)
     && negb (malformed_anomaly_emitted f) && negb (is_non_enip f)
  then
    let '(a, pushed) := enip_emit a (enip_finding Anomaly Possible Low
      [Lit "EtherNet/IP structural anomaly: "; Num (malformed_in_window f);
       Lit " malformed frames in "; Num (sat_sub (s_ts o) (malformed_window_start_ts f));
       Lit "s window (flow "; FIp (s_src o); Lit "→"; FIp (s_dst o);
       Lit ") — possible crash-probe"]
      [Lit "malformed_in_window="; Num (malformed_in_window f); Lit "; threshold=";
       Num ENIP_MALFORMED_ANOMALY_THRESHOLD] ["T0814"%string] o) in
    (a, if pushed : bool then f <| malformed_anomaly_emitted := true |> else f)
  else (a, f).

(** ** The Common Packet Format and CIP *)

Record CpfItem := mkCpfItem {
  type_id : Z;
  item_data : list Z
}.

(** The loop over [item_count] items; [rest] is [&cpf_data[cursor..]]. *)
Fixpoint cpf_items (item_count : nat) (rest : list Z) : list CpfItem :=
  match item_count with
  | O => []
  | S item_count =>
      match rest with
      | t0 :: t1 :: l0 :: l1 :: rest =>
          let length := u16_le l0 l1 in
          if zlen rest <? length then []
          else mkCpfItem (u16_le t0 t1) (take (Z.to_nat length) rest)
               :: cpf_items item_count (drop (Z.to_nat length) rest)
      | _ => []
      end
  end.

Definition parse_cpf_items (cpf_data : list Z) : list CpfItem :=
  match cpf_data with
  | c0 :: c1 :: rest => cpf_items (Z.to_nat (u16_le c0 c1)) rest
  | _ => []
  end.

Record CipHeader := mkCipHeader {
  service : Z;
  request_path : list Z
}.

Definition parse_cip_header (item_data : list Z) : option CipHeader :=
  match item_data with
  | service :: request_path_size :: rest =>
      let path_byte_count := request_path_size * 2 in
      if zlen item_data <? 2 + path_byte_count then None
      else Some (mkCipHeader service (take (Z.to_nat path_byte_count) rest))
  | _ => None
  end.

Inductive CipServiceClass :=
  | GetAttributesAll | SetAttributesAll | GetAttributeList | SetAttributeList | CipReset | CipStop
  | MultipleServicePacket | GetAttributeSingle | SetAttributeSingle | GetAndClear
  | ForwardClose | ForwardOpen | LargeForwardOpen | CipResponse | CipUnknown.

#[global] Instance CipServiceClass_eq_dec : EqDecision CipServiceClass.
Proof. solve_decision. Defined.

Definition classify_cip_service (service : Z) : CipServiceClass :=
  if negb (Z.land service 0x80 =? 0) then CipResponse
  else match service with
  | 0x01 => GetAttributesAll
  | 0x02 => SetAttributesAll
  | 0x03 => GetAttributeList
  | 0x04 => SetAttributeList
  | 0x05 => CipReset
  | 0x07 => CipStop
  | 0x0A => MultipleServicePacket
  | 0x0E => GetAttributeSingle
  | 0x10 => SetAttributeSingle
  | 0x4B => GetAndClear
  | 0x4E => ForwardClose
  | 0x54 => ForwardOpen
  | 0x5B => LargeForwardOpen
  | _ => CipUnknown
  end.

Definition service_class_name (class : CipServiceClass) : string :=
  match class with
  | GetAttributesAll => "GetAttributesAll"
  | GetAttributeList => "GetAttributeList"
  | GetAttributeSingle => "GetAttributeSingle"
  | SetAttributesAll => "SetAttributesAll"
  | SetAttributeList => "SetAttributeList"
  | SetAttributeSingle => "SetAttributeSingle"
  | CipReset => "Reset"
  | CipStop => "Stop"
  | MultipleServicePacket => "MultipleServicePacket"
  | GetAndClear => "GetAndClear"
  | ForwardClose => "ForwardClose"
  | ForwardOpen => "ForwardOpen"
  | LargeForwardOpen => "LargeForwardOpen"
  | CipResponse => "Response"
  | CipUnknown => "Unknown"
  end%string.

Inductive CipPathSegment :=
  | Class_ (id : Z)
  | Instance_ (number : Z)
  | Attribute_ (id : Z).

#[global] Instance CipPathSegment_eq_dec : EqDecision CipPathSegment.
Proof. solve_decision. Defined.

Fixpoint parse_cip_request_path (path : list Z) : list CipPathSegment :=
  match path with
  | segment_type :: value :: path =>
      let rest := parse_cip_request_path path in
      if segment_type =? 0x20 then Class_ value :: rest
      else if segment_type =? 0x24 then Instance_ value :: rest
      else if segment_type =? 0x30 then Attribute_ value :: rest
      else rest
  | _ => []
  end.

(** ** Detectors on one item *)

(** Emission without a guard. *)
Definition enip_report (w : enip_work) (x : Finding) : enip_work := ((enip_emit w.1 x).1, w.2).

Section analyzer.
Context `{!IterOrder Z Z}.

(** [{:?}] of the counters, in the iteration order of the map. *)
Definition debug_counts (m : gmap Z Z) : text :=
  let fix entries (l : list (Z * Z)) : text :=
    match l with
    | [] => []
    | [(k, v)] => [Num k; Lit ": "; Num v]
    | (k, v) :: l => [Num k; Lit ": "; Num v; Lit ", "] ++ entries l
    end in
  Lit "{" :: entries (map_iter m) ++ [Lit "}"].

(** A CIP response with a non-zero status: the ten-second error window. *)
Definition error_response (w : enip_work) (general_status : Z) (o : EnipSource) : panicky enip_work :=
  let '(a, f) := w in
  let f := if error_window_active f && (10 <? sat_sub (s_ts o) (error_window_start_ts f))
           then f <| error_counts_in_window := ∅ |> <| error_window_start_ts := s_ts o |>
                  <| error_rate_emitted := false |>
           else f in
  counts ← bump_count (error_counts_in_window f) general_status;
  let f := f <| error_counts_in_window := counts |> in
  let f := if negb (error_window_active f)
           then f <| error_window_start_ts := s_ts o |> <| error_window_active := true |>
           else f in
  let a := a <| error_count := sat_add u64_max (error_count a) 1 |> in
  total ← checked_sum (map_to_list (error_counts_in_window f)).*2;
  Some (if (enip_error_burst_threshold a <? total) && negb (error_rate_emitted f) then
    let '(a, pushed) := enip_emit a (enip_finding Reconnaissance Possible Medium
      [Lit "CIP error-response burst: "; Num total;
       Lit " error responses in 10s window — possible service enumeration (T0888)"]
      ([Lit "error_counts_in_window="] ++ debug_counts (error_counts_in_window f)
         ++ [Lit " within 10s; possible service probe"]) ["T0888"%string] o) in
    (a, if pushed : bool then f <| error_rate_emitted := true |> else f)
  else (a, f)).

(** T0888 pattern A. *)
Definition identity_read (w : enip_work) (class : CipServiceClass) (cip : CipHeader) (o : EnipSource) :
    enip_work :=
  if bool_decide (class ∈ [GetAttributesAll; GetAttributeList; GetAttributeSingle])
     && (Z.land (service cip) 0x80 =? 0)
     && bool_decide (Class_ 0x01 ∈ parse_cip_request_path (request_path cip))
  then enip_report w (enip_finding Reconnaissance Likely High
    [Lit "CIP Identity Object attribute read: single-device reconnaissance (T0888)"]
    [Lit "CIP service="; Hex 2 (service cip); Lit " ("; Lit (service_class_name class);
     Lit ") path targets Identity Object (class 0x01) src="; FIp (s_src o)] ["T0888"%string] o)
  else w.

(** T0858 and T0816. *)
Definition stop_service (w : enip_work) (h : EnipHeader) (class : CipServiceClass)
    (cip : CipHeader) (o : EnipSource) : enip_work :=
  if bool_decide (class = CipStop) && (Z.land (service cip) 0x80 =? 0)
  then enip_report w (enip_finding Execution Likely High
    [Lit "CIP Stop service observed: controller run→stop transition command (T0858)"]
    [Lit "CIP service=0x07 (Stop) from src="; FIp (s_src o); Lit " ENIP cmd=";
     Hex 4 (command h); Lit " session="; Num (session_handle h)] ["T0858"%string] o)
  else w.

Definition reset_service (w : enip_work) (h : EnipHeader) (class : CipServiceClass)
    (cip : CipHeader) (o : EnipSource) : enip_work :=
  if bool_decide (class = CipReset) && (Z.land (service cip) 0x80 =? 0)
  then enip_report w (enip_finding Execution Likely High
    [Lit "CIP Reset service observed: adversary-triggered device restart (T0816)"]
    [Lit "CIP service=0x05 (Reset) from src="; FIp (s_src o); Lit " ENIP cmd=";
     Hex 4 (command h); Lit " session="; Num (session_handle h)] ["T0816"%string] o)
  else w.

(** T0836: the one-second write window. *)
Definition write_service (w : enip_work) (h : EnipHeader) (class : CipServiceClass)
    (cip : CipHeader) (o : EnipSource) : enip_work :=
  if bool_decide (class ∈ [SetAttributesAll; SetAttributeList; SetAttributeSingle])
     && (Z.land (service cip) 0x80 =? 0)
  then
    let '(a, f) := w in
    let f :=
      if (0 <? write_count_in_window f) && (1 <? sat_sub (s_ts o) (write_window_start_ts f))
      then f <| write_count_in_window := 1 |> <| write_window_start_ts := s_ts o |>
             <| write_burst_emitted := false |>
      else
        let f := f <| write_count_in_window := sat_add u64_max (write_count_in_window f) 1 |> in
        if write_count_in_window f =? 1 then f <| write_window_start_ts := s_ts o |> else f in
    let a := a <| write_count := sat_add u64_max (write_count a) 1 |> in
    if (enip_write_burst_threshold a <? write_count_in_window f) && negb (write_burst_emitted f)
    then
      let '(a, pushed) := enip_emit a (enip_finding Execution Likely Medium
        [Lit "CIP write-class service burst: "; Num (write_count_in_window f);
         Lit " SetAttribute operations in 1s window (threshold ";
         Num (enip_write_burst_threshold a);
         Lit ") — possible parameter modification attack (T0836)"]
        [Lit "CIP service="; Hex 2 (service cip); Lit " ("; Lit (service_class_name class);
         Lit ") src="; FIp (s_src o); Lit " ENIP session="; Num (session_handle h)]
        ["T0836"%string] o) in
      (a, if pushed : bool then f <| write_burst_emitted := true |> else f)
    else (a, f)
  else w.

(** Connection establishment and teardown; counted before the cap. *)
Definition connection_service (w : enip_work) (h : EnipHeader) (class : CipServiceClass)
    (cip : CipHeader) (o : EnipSource) : enip_work :=
  let '(a, f) := w in
  if bool_decide (class ∈ [ForwardOpen; LargeForwardOpen]) then
    enip_report
      (a, f <| open_connection_count := sat_add u32_max (open_connection_count f) 1 |>)
      (enip_finding Anomaly Possible Low
        [Lit "CIP ForwardOpen connection establishment observed from src="; FIp (s_src o);
         Lit ": connection lifecycle anomaly"]
        [Lit "CIP service="; Hex 2 (service cip); Lit " ("; Lit (service_class_name class);
         Lit ") from src="; FIp (s_src o); Lit " session="; Num (session_handle h);
         Lit ". No dedicated MITRE ICS technique for CIP connection establishment anomaly; T1692.001 applies only when connection demonstrably carries unauthorized command (ADR-010 Decision 7)"]
        [] o)
  else if bool_decide (class = ForwardClose) then
    enip_report
      (a, f <| close_connection_count := sat_add u32_max (close_connection_count f) 1 |>)
      (enip_finding Anomaly Possible Low
        [Lit "CIP ForwardClose connection teardown observed from src="; FIp (s_src o);
         Lit ": connection lifecycle closed"]
        [Lit "CIP service=0x4E (ForwardClose) from src="; FIp (s_src o); Lit " session=";
         Num (session_handle h);
         Lit ". Connection lifecycle closed; no dedicated MITRE ICS technique (ADR-010 Decision 7)"]
        [] o)
  else w.

(** The body of the item loop: only Unconnected Data Items are looked at. *)
Definition process_item (w : enip_work) (h : EnipHeader) (item : CpfItem) (o : EnipSource) :
    panicky enip_work :=
  if negb (type_id item =? 0x00B2) then Some w else
  match parse_cip_header (item_data item) with
  | None => Some w
  | Some cip =>
      let class := classify_cip_service (service cip) in
      if bool_decide (class = CipResponse) then
        if zlen (item_data item) <? 4 then Some w
        else
          general_status ← index (item_data item) 2;
          if negb (general_status =? 0x00) then error_response w general_status o else Some w
      else
        let w := identity_read w class cip o in
        let w := stop_service w h class cip o in
        let w := reset_service w h class cip o in
        let w := write_service w h class cip o in
        Some (connection_service w h class cip o)
  end.

Fixpoint process_items (w : enip_work) (h : EnipHeader) (items : list CpfItem) (o : EnipSource) :
    panicky enip_work :=
  match items with
  | [] => Some w
  | item :: items => w ← process_item w h item o; process_items w h items o
  end.

Definition list_identity (w : enip_work) (h : EnipHeader) (o : EnipSource) : enip_work :=
  let '(a, f) := w in
  if negb (list_identity_emitted f) then
    let '(a, pushed) := enip_emit a (enip_finding Reconnaissance Likely High
      [Lit "EtherNet/IP ListIdentity broadcast observed: network-wide device enumeration (T0846)"]
      [Lit "ENIP command=0x0063 (ListIdentity) src="; FIp (s_src o); Lit " session=";
       Num (session_handle h)] ["T0846"%string] o) in
    (a, if pushed : bool then f <| list_identity_emitted := true |> else f)
  else (a, f).

Definition enip_process_pdu (w : enip_work) (pdu : list Z) (o : EnipSource) : panicky enip_work :=
  let '(a, f) := w in
  if is_non_enip f then Some (a, f) else
  let f := f <| pdu_count := sat_add u64_max (pdu_count f) 1 |> in
  match parse_enip_header pdu with
  | None => Some (a, f)
  | Some h =>
      match classify_enip_command (command h) with
      | ListIdentity => Some (list_identity (a, f) h o)
      | SendRRData | SendUnitData =>
          if zlen pdu <=? 30 then Some (a, f)
          else
            cpf_data ← slice pdu 30 (zlen pdu);
            process_items (a, f) h (parse_cpf_items cpf_data) o
      | _ => Some (a, f)
      end
  end.

Fixpoint dispatch_pdus (w : enip_work) (pdus : list (list Z)) (o : EnipSource) : panicky enip_work :=
  match pdus with
  | [] => Some w
  | pdu :: pdus => w ← enip_process_pdu w pdu o; dispatch_pdus w pdus o
  end.
End analyzer.

(** ** The frame walk *)

(** Directional carry buffers. *)
Definition enip_carry (f : EnipFlowState) (dir : Direction) : list Z :=
  match dir with ClientToServer => carry_c2s f | ServerToClient => carry_s2c f end.

Definition set_enip_carry (f : EnipFlowState) (dir : Direction) (c : list Z) : EnipFlowState :=
  match dir with
  | ClientToServer => f <| carry_c2s := c |>
  | ServerToClient => f <| carry_s2c := c |>
  end.

(** The counters of a structural reject, then the anomaly check. *)
Definition enip_reject (w : enip_work) (o : EnipSource) : enip_work :=
  let '(a, f) := w in
  check_t0814
    (a, f <| flow_parse_errors := sat_add u64_max (flow_parse_errors f) 1 |>
          <| malformed_in_window := sat_add u64_max (malformed_in_window f) 1 |>) o.

Definition count_command (f : EnipFlowState) (cmd : Z) : panicky EnipFlowState :=
  counts ← bump_count (command_counts f) cmd;
  Some (f <| command_counts := counts |>).

(** The [while] loop: [rest] is [&buf[cursor..]], [queue] the PDUs collected.
    Every round drops at least one byte, so the length of the buffer plus one
    is enough fuel. *)
Fixpoint enip_walk (fuel : nat) (w : enip_work) (queue : list (list Z)) (rest : list Z)
    (o : EnipSource) : panicky (enip_work * list (list Z) * list Z) :=
  match fuel with
  | O => None
  | S fuel =>
      if zlen rest <? 24 then Some (w, queue, rest) else
      head ← slice rest 0 24;
      match parse_enip_header head with
      | None => enip_walk fuel w queue (drop 1 rest) o
      | Some h =>
          let '(a, f) := w in
          if negb (is_valid_enip_frame h) then
            f ← count_command f (command h);
            enip_walk fuel (enip_reject (a, f) o) queue (drop 1 rest) o
          else
            let total_frame_len := 24 + enip_length h in
            if MAX_ENIP_CARRY_BYTES <? total_frame_len then
              f ← count_command f (command h);
              enip_walk fuel (enip_reject (a, f) o) queue
                (drop (Z.to_nat (Z.min total_frame_len (zlen rest))) rest) o
            else if zlen rest <? total_frame_len then Some (w, queue, rest)
            else
              f ← count_command f (command h);
              pdu ← slice rest 0 total_frame_len;
              enip_walk fuel (a, f) (queue ++ [pdu]) (drop (Z.to_nat total_frame_len) rest) o
      end
  end.

(** ** Deliveries and closes *)

Definition enip_source (k : FlowKey) (ts : Z) (dir : Direction) : EnipSource :=
  let '(client_ip, server_ip) :=
    if lower_port k =? 44818 then (upper_ip k, lower_ip k) else (lower_ip k, upper_ip k) in
  match dir with
  | ClientToServer => mkSource ts client_ip server_ip
  | ServerToClient => mkSource ts server_ip client_ip
  end.

Definition expire_malformed_window (f : EnipFlowState) (ts : Z) : EnipFlowState :=
  if 300 <? sat_sub ts (malformed_window_start_ts f)
  then f <| malformed_in_window := 0 |> <| malformed_anomaly_emitted := false |>
         <| malformed_window_start_ts := ts |>
  else f.

(** The carry cap after the walk. *)
Definition enip_carry_cap (w : enip_work) (dir : Direction) (o : EnipSource) : enip_work :=
  let '(a, f) := w in
  if MAX_ENIP_CARRY_BYTES <? zlen (enip_carry f dir) then
    let '(a, f) := enip_reject (a, f) o in
    (a, set_enip_carry (f <| is_non_enip := true |>) dir [])
  else (a, f).

Section deliveries.
Context `{!IterOrder Z Z}.

(** What a delivery does to the analyzer and the flow. *)
Definition enip_deliver (w : enip_work) (data : list Z) (dir : Direction) (o : EnipSource) :
    panicky enip_work :=
  let '(a, f) := w in
  let f := expire_malformed_window f (s_ts o) in
  let buf := enip_carry f dir ++ data in
  let f := set_enip_carry f dir [] in
  '((a, f), queue, rest) ← enip_walk (S (length buf)) (a, f) [] buf o;
  let w := enip_carry_cap (a, set_enip_carry f dir rest) dir o in
  dispatch_pdus w queue o.

Definition enip_on_data (a : EnipAnalyzer) (k : FlowKey) (data : list Z) (ts : Z)
    (dir : Direction) : panicky EnipAnalyzer :=
  let a := a <| bytes_received := sat_add u64_max (bytes_received a) (zlen data) |> in
  let f := default EnipFlowState_new (flows a !! k) in
  let a := a <| flows := <[k := f]> (flows a) |> in
  if is_non_enip f then Some a
  else
    '(a, f) ← enip_deliver (a, f) data dir (enip_source k ts dir);
    Some (a <| flows := <[k := f]> (flows a) |>).

(** Folding a flow's command counts into a distribution; saturating sums do
    not depend on the order. *)
Definition fold_counts (total counts : gmap Z Z) : gmap Z Z :=
  foldl (λ m kv, <[kv.1 := sat_add u64_max (default 0 (m !! kv.1)) kv.2]> m)
    total (map_to_list counts).

Definition enip_on_flow_close (a : EnipAnalyzer) (k : FlowKey) : EnipAnalyzer :=
  match flows a !! k with
  | Some f =>
      a <| flows := delete k (flows a) |>
        <| total_pdu_count := sat_add u64_max (total_pdu_count a) (pdu_count f) |>
        <| parse_errors := sat_add u64_max (parse_errors a) (flow_parse_errors f) |>
        <| command_distribution := fold_counts (command_distribution a) (command_counts f) |>
        <| flows_analyzed := sat_add u64_max (flows_analyzed a) 1 |>
  | None => a
  end.

#[global] Instance enip_analyzer : FlowAnalyzer (option EnipAnalyzer) := {
  flow_on_data oa k data ts dir := a ← oa; enip_on_data a k data ts dir;
  flow_on_close oa k := (λ a, enip_on_flow_close a k) <$> oa
}.
End deliveries.

(** ** Summary *)

(** The fold over the flows still open. *)
Definition enip_totals (a : EnipAnalyzer) : Z * Z * Z * gmap Z Z :=
  foldl (λ '(pdus, errors, n, dist) f,
      (sat_add u64_max pdus (pdu_count f), sat_add u64_max errors (flow_parse_errors f),
       sat_add u64_max n 1, fold_counts dist (command_counts f)))
    (total_pdu_count a, parse_errors a, 0, command_distribution a) (map_to_list (flows a)).*2.

Definition enip_summarize (a : EnipAnalyzer) : AnalysisSummary :=
  let '(pdus, errors, open, dist) := enip_totals a in {|
  analyzer_name := "EtherNet/IP";
  packets_analyzed := pdus;
  detail := {["enip_summary"%string := JMap [
    ("command_distribution"%string,
      JObj (list_to_map (omap (λ cmd_count : Z * Z,
        if 0 <? cmd_count.2 then Some (hex_word cmd_count.1, cmd_count.2) else None)
        (map_to_list dist))));
    ("total_pdu_count"%string, JNum pdus);
    ("parse_errors"%string, JNum errors);
    ("write_count"%string, JNum (write_count a));
    ("error_count"%string, JNum (error_count a));
    ("flows_analyzed"%string, JNum (sat_add u64_max (flows_analyzed a) open));
    ("dropped_findings"%string, JNum (dropped_findings a))]]}
|}.
