(* ===== verification/EnipProps.v ===== *)
(** * Theorems about the EtherNet/IP analyzer

    Headers and items, the invariant (no panic, bounded buffers, the non-ENIP
    latch that is never set), streams of frames under any chunking, and where
    the outcome depends on how the stream is cut. *)

From S2P Require Import Prelude FlowKey Handler Findings Dispatcher Enip.

#[local] Open Scope Z_scope.
#[local] Existing Instance flow_handler.

(** ** Headers and items *)

Lemma parse_enip_header_Some l : 24 ≤ zlen l → ∃ h, parse_enip_header l = Some h.
Proof. intros Hl. do 24 (destruct l as [|? l]; [by vm_compute in Hl|]). by eexists. Qed.

Lemma parse_enip_header_app l k h :
  parse_enip_header l = Some h → parse_enip_header (l ++ k) = Some h.
Proof. do 24 (destruct l as [|? l]; [done|]). done. Qed.

Lemma parse_enip_header_take l h :
  24 ≤ zlen l → parse_enip_header (take 24 l) = Some h ↔ parse_enip_header l = Some h.
Proof. intros Hl. by do 24 (destruct l as [|? l]; [by vm_compute in Hl|]). Qed.

Lemma cpf_items_len n rest : zlen (cpf_items n rest) ≤ zlen rest.
Proof.
  revert rest. induction n as [|n IH]; intros rest; [apply zlen_nonneg|].
  destruct rest as [|t0 [|t1 [|l0 [|l1 rest]]]]; try done.
  cbn [cpf_items]. destruct (Z.ltb_spec (zlen rest) (u16_le l0 l1)) as [|Hl]; [apply zlen_nonneg|].
  rewrite !zlen_cons. specialize (IH (drop (Z.to_nat (u16_le l0 l1)) rest)).
  assert (zlen (drop (Z.to_nat (u16_le l0 l1)) rest) ≤ zlen rest); [|lia].
  unfold zlen. rewrite length_drop. lia.
Qed.

Lemma parse_cpf_items_len l : zlen (parse_cpf_items l) ≤ zlen l.
Proof.
  destruct l as [|c0 [|c1 l]]; try done. cbn [parse_cpf_items].
  pose proof (cpf_items_len (Z.to_nat (u16_le c0 c1)) l). zlia.
Qed.

(** ** What dispatching a PDU may change

    [enip_keeps j w w']: framing, command counts, latch and aggregates are as
    they were; the error counters of the window grow by at most [j]. *)

Definition errors_ok (f : EnipFlowState) : Prop := ∀ k, 0 ≤ fcount (error_counts_in_window f) k.

Definition error_total (f : EnipFlowState) : Z := map_sum id (error_counts_in_window f).

Record flow_keeps (f f' : EnipFlowState) : Prop := {
  fk_c2s : carry_c2s f' = carry_c2s f;
  fk_s2c : carry_s2c f' = carry_s2c f;
  fk_latch : is_non_enip f' = is_non_enip f;
  fk_cmds : command_counts f' = command_counts f;
  fk_pdus : pdu_count f' = pdu_count f;
  fk_errors : flow_parse_errors f' = flow_parse_errors f
}.

Record totals_keep (a a' : EnipAnalyzer) : Prop := {
  tk_flows : flows a' = flows a;
  tk_pdus : total_pdu_count a' = total_pdu_count a;
  tk_errors : parse_errors a' = parse_errors a;
  tk_dist : command_distribution a' = command_distribution a;
  tk_findings :
    zlen (all_findings a) ≤ ENIP_MAX_FINDINGS → zlen (all_findings a') ≤ ENIP_MAX_FINDINGS
}.

Record enip_keeps (j : Z) (w w' : enip_work) : Prop := {
  ek_flow : flow_keeps w.2 w'.2;
  ek_totals : totals_keep w.1 w'.1;
  ek_errors : errors_ok w.2 → errors_ok w'.2 ∧ error_total w'.2 ≤ error_total w.2 + j
}.

Lemma totals_keep_refl a : totals_keep a a.
Proof. by split. Qed.

Lemma totals_keep_trans a1 a2 a3 : totals_keep a1 a2 → totals_keep a2 a3 → totals_keep a1 a3.
Proof. intros [] []. split; try congruence. auto. Qed.

Lemma enip_keeps_refl w : enip_keeps 0 w w.
Proof. split; [by split|by split|]. intros. split; [done|lia]. Qed.

Lemma enip_keeps_trans j i w1 w2 w3 :
  enip_keeps j w1 w2 → enip_keeps i w2 w3 → enip_keeps (j + i) w1 w3.
Proof.
  intros [[] T1 E1] [[] T2 E2]. split; [split; congruence|by eapply totals_keep_trans|].
  intros H. destruct (E1 H) as [H1 ?]. destruct (E2 H1) as [H2 ?]. split; [done|lia].
Qed.

Lemma enip_keeps_mono j i w w' : j ≤ i → enip_keeps j w w' → enip_keeps i w w'.
Proof. intros Hle [F T E]. split; [done|done|]. intros H. destruct (E H). split; [done|lia]. Qed.

Lemma enip_emit_totals a x a' pushed : enip_emit a x = (a', pushed) → totals_keep a a'.
Proof.
  unfold enip_emit. destruct (Z.ltb_spec (zlen (all_findings a)) ENIP_MAX_FINDINGS);
    intros; simplify_eq; split; try done. simpl. zlia.
Qed.

(** A detector that emits and changes flags. *)
Lemma enip_keeps_flags a a' f f' :
  totals_keep a a' → flow_keeps f f' → error_counts_in_window f' = error_counts_in_window f →
  enip_keeps 0 (a, f) (a', f').
Proof.
  intros Ha Hf E. split; [done|done|]. unfold errors_ok, error_total. simpl. rewrite E.
  intros. split; [done|lia].
Qed.

Lemma enip_report_keeps w x : enip_keeps 0 w (enip_report w x).
Proof.
  destruct w as [a f]. unfold enip_report. simpl. destruct (enip_emit a x) as [a' b] eqn:E.
  apply enip_keeps_flags; [by eapply enip_emit_totals|by split|done].
Qed.

Lemma list_identity_keeps w h o : enip_keeps 0 w (list_identity w h o).
Proof.
  destruct w as [a f]. unfold list_identity. destruct (negb _); [|apply enip_keeps_refl].
  destruct (enip_emit _ _) as [a' b] eqn:E. apply enip_emit_totals in E.
  apply enip_keeps_flags; [done|by destruct b|by destruct b].
Qed.

Lemma identity_read_keeps w class cip o : enip_keeps 0 w (identity_read w class cip o).
Proof. unfold identity_read. case_match; [apply enip_report_keeps|apply enip_keeps_refl]. Qed.

Lemma stop_service_keeps w h class cip o : enip_keeps 0 w (stop_service w h class cip o).
Proof. unfold stop_service. case_match; [apply enip_report_keeps|apply enip_keeps_refl]. Qed.

Lemma reset_service_keeps w h class cip o : enip_keeps 0 w (reset_service w h class cip o).
Proof. unfold reset_service. case_match; [apply enip_report_keeps|apply enip_keeps_refl]. Qed.

Lemma connection_service_keeps w h class cip o : enip_keeps 0 w (connection_service w h class cip o).
Proof.
  destruct w as [a f]. unfold connection_service.
  repeat case_match; try apply enip_keeps_refl;
    (eapply (enip_keeps_trans 0 0); [|apply enip_report_keeps]);
    (apply enip_keeps_flags; [apply totals_keep_refl|by split|done]).
Qed.

Lemma write_service_keeps w h class cip o : enip_keeps 0 w (write_service w h class cip o).
Proof.
  unfold write_service. destruct (_ && _); [|apply enip_keeps_refl]. destruct w as [a f].
  set (f1 := if (0 <? write_count_in_window f) && _ then _ else _).
  assert (flow_keeps f f1 ∧ error_counts_in_window f1 = error_counts_in_window f) as [Hf He].
  { unfold f1. destruct (_ && _); [by split|]. destruct (_ =? _); by split. }
  clearbody f1. set (a1 := a <| write_count := sat_add u64_max (write_count a) 1 |>).
  assert (totals_keep a a1) as Ha by (by split).
  destruct (_ && _); [|by apply enip_keeps_flags].
  destruct (enip_emit _ _) as [a2 b] eqn:E. apply enip_emit_totals in E.
  destruct Hf. apply enip_keeps_flags; [by eapply totals_keep_trans|by destruct b|by destruct b].
Qed.

Section analyzer.
Context `{!IterOrder Z Z}.

(** An error response counts one; it cannot overflow while there is room. *)
Lemma error_response_keeps w st o :
  errors_ok w.2 → error_total w.2 < u64_max →
  ∃ w', error_response w st o = Some w' ∧ enip_keeps 1 w w'.
Proof.
  destruct w as [a f]. simpl. intros Hok Hlt. unfold error_response.
  set (f1 := if error_window_active f && _ then _ else _).
  assert (flow_keeps f f1 ∧ errors_ok f1 ∧ error_total f1 ≤ error_total f) as (Hk1 & Hok1 & Ht1).
  { unfold f1. destruct (_ && _); [|by split_and!].
    split; [by split|]. split; [done|]. unfold error_total. simpl. rewrite map_sum_empty.
    apply map_sum_nonneg. intros k v Hk. specialize (Hok k). unfold fcount in Hok.
    by rewrite Hk in Hok. }
  clearbody f1.
  destruct (bump_count_Some (error_counts_in_window f1) st) as (m & E & _).
  { pose proof (fcount_le_sum _ st Hok1). unfold error_total in *. lia. }
  rewrite E. cbn [mbind option_bind].
  set (f2 := if negb _ then _ else _).
  assert (flow_keeps f1 f2 ∧ error_counts_in_window f2 = m) as (Hk2 & Hm).
  { unfold f2. destruct (negb _); by split. }
  clearbody f2. rewrite Hm.
  pose proof (bump_count_sum _ _ _ E) as Hsum. pose proof (bump_count_nonneg _ _ _ E Hok1) as Hnn.
  unfold error_total in *. rewrite checked_sum_counts by (done || lia). cbn [mbind option_bind].
  eexists. split; [done|].
  assert (∀ a', totals_keep a a' → ∀ f', flow_keeps f2 f' → error_counts_in_window f' = m →
    enip_keeps 1 (a, f) (a', f')) as Hfin.
  { intros a' Ha' f' Hf' Hm'. split; simpl.
    - destruct Hk1, Hk2, Hf'. split; congruence.
    - done.
    - intros _. unfold errors_ok, error_total. rewrite Hm'. split; [done|lia]. }
  destruct (_ && _); [|by apply Hfin].
  destruct (enip_emit _ _) as [a2 b] eqn:Ee. apply enip_emit_totals in Ee.
  apply Hfin; [eapply totals_keep_trans; [|exact Ee]; by split|by destruct b|by destruct b].
Qed.

Lemma process_item_keeps w h item o :
  errors_ok w.2 → error_total w.2 < u64_max →
  ∃ w', process_item w h item o = Some w' ∧ enip_keeps 1 w w'.
Proof.
  intros Hok Hlt. assert (enip_keeps 1 w w) as Hr by (apply (enip_keeps_mono 0); [lia|apply enip_keeps_refl]).
  unfold process_item. destruct (negb _); [by exists w|].
  destruct (parse_cip_header _) as [cip|]; [|by exists w].
  destruct (bool_decide _).
  - destruct (Z.ltb_spec (zlen (item_data item)) 4); [by exists w|].
    destruct (index_Some (item_data item) 2) as [st ->]; [lia|]. cbn [mbind option_bind].
    destruct (negb _); [by apply error_response_keeps|by exists w].
  - eexists. split; [done|]. apply (enip_keeps_mono 0); [lia|].
    eapply (enip_keeps_trans 0 0); [apply identity_read_keeps|].
    eapply (enip_keeps_trans 0 0); [apply stop_service_keeps|].
    eapply (enip_keeps_trans 0 0); [apply reset_service_keeps|].
    eapply (enip_keeps_trans 0 0); [apply write_service_keeps|apply connection_service_keeps].
Qed.

Lemma process_items_keeps items w h o :
  errors_ok w.2 → error_total w.2 + zlen items ≤ u64_max →
  ∃ w', process_items w h items o = Some w' ∧ enip_keeps (zlen items) w w'.
Proof.
  revert w. induction items as [|item items IH]; intros w Hok Hle.
  { exists w. split; [done|apply enip_keeps_refl]. }
  rewrite zlen_cons in *. pose proof (zlen_nonneg items).
  destruct (process_item_keeps w h item o Hok) as (w1 & E & Hk); [lia|].
  destruct (ek_errors _ _ _ Hk Hok) as [Hok1 Hle1].
  destruct (IH w1 Hok1) as (w2 & E2 & Hk2); [lia|].
  exists w2. cbn [process_items]. rewrite E. split; [done|]. by eapply enip_keeps_trans.
Qed.

(** A PDU: one more counted, errors bounded by its length. *)
Record pdu_effect (w w' : enip_work) (n j : Z) : Prop := {
  pe_flow : flow_keeps (w.2 <| pdu_count := pdu_count w'.2 |>) w'.2;
  pe_totals : totals_keep w.1 w'.1;
  pe_errors : errors_ok w.2 → errors_ok w'.2 ∧ error_total w'.2 ≤ error_total w.2 + j;
  pe_count : pdu_count w'.2 = sat_add u64_max (pdu_count w.2) n
}.

Lemma enip_process_pdu_effect w pdu o :
  errors_ok w.2 → error_total w.2 + zlen pdu ≤ u64_max → is_non_enip w.2 = false →
  ∃ w', enip_process_pdu w pdu o = Some w' ∧ pdu_effect w w' 1 (zlen pdu).
Proof.
  destruct w as [a f]. cbn [fst snd]. intros Hok Hle Hl. unfold enip_process_pdu.
  set (f1 := f <| pdu_count := sat_add u64_max (pdu_count f) 1 |>). rewrite Hl. pose proof (zlen_nonneg pdu).
  assert (∀ w', enip_keeps (zlen pdu) (a, f1) w' → pdu_effect (a, f) w' 1 (zlen pdu)) as Hfin.
  { intros w' [[] T E]. by split. }
  assert (∀ w', enip_keeps 0 (a, f1) w' → ∃ w'', Some w' = Some w'' ∧ pdu_effect (a, f) w'' 1 (zlen pdu)) as H0.
  { intros w' Hk. exists w'. split; [done|]. apply Hfin. eapply enip_keeps_mono; [|done]. lia. }
  destruct (parse_enip_header pdu) as [h|]; [|apply H0, enip_keeps_refl].
  assert (∃ w', (if zlen pdu <=? 30 then Some (a, f1)
     else cpf_data ← slice pdu 30 (zlen pdu);
          process_items (a, f1) h (parse_cpf_items cpf_data) o) = Some w' ∧
     pdu_effect (a, f) w' 1 (zlen pdu)) as Hcpf.
  { destruct (Z.leb_spec (zlen pdu) 30); [apply H0, enip_keeps_refl|].
    rewrite slice_suffix by lia. cbn [mbind option_bind].
    pose proof (parse_cpf_items_len (drop (Z.to_nat 30) pdu)) as Hn.
    rewrite zlen_drop in Hn by lia.
    destruct (process_items_keeps (parse_cpf_items (drop (Z.to_nat 30) pdu)) (a, f1) h o)
      as (w' & -> & Hk); [done|change (error_total f + zlen (parse_cpf_items (drop (Z.to_nat 30) pdu)) ≤ u64_max); lia|].
    exists w'. split; [done|]. apply Hfin. eapply enip_keeps_mono; [|done]. lia. }
  destruct (classify_enip_command _); try (apply H0, enip_keeps_refl); try done.
  apply H0, list_identity_keeps.
Qed.

Lemma pdu_effect_trans w1 w2 w3 n m j i :
  0 ≤ m → pdu_effect w1 w2 n j → pdu_effect w2 w3 m i → pdu_effect w1 w3 (n + m) (j + i).
Proof.
  intros Hm [[] T1 E1 C1] [[] T2 E2 C2]. simpl in *.
  split; [split; simpl; congruence|by eapply totals_keep_trans| |].
  - intros H. destruct (E1 H) as [H1 ?]. destruct (E2 H1) as [H2 ?]. split; [done|lia].
  - rewrite C2, C1. unfold sat_add. lia.
Qed.

Lemma dispatch_pdus_effect q w o :
  errors_ok w.2 → error_total w.2 + zlen (concat q) ≤ u64_max → is_non_enip w.2 = false →
  pdu_count w.2 ≤ u64_max →
  ∃ w', dispatch_pdus w q o = Some w' ∧ pdu_effect w w' (zlen q) (zlen (concat q)).
Proof.
  revert w. induction q as [|pdu q IH]; intros w Hok Hle Hl Hp.
  { exists w. split; [done|]. split; [by split|apply totals_keep_refl| |].
    - intros _. split; [done|]. change (zlen (concat [])) with 0. lia.
    - by rewrite zlen_nil, sat_add_0. }
  cbn [concat] in *. rewrite zlen_app in *. pose proof (zlen_nonneg (concat q)).
  destruct (enip_process_pdu_effect w pdu o Hok) as (w1 & E & He); [lia|done|].
  pose proof He as [[] _ E1 C1]. destruct (E1 Hok) as [Hok1 Hle1].
  destruct (IH w1 Hok1) as (w2 & E2 & He2); [lia|by rewrite fk_latch0|rewrite C1; unfold sat_add; lia|].
  exists w2. cbn [dispatch_pdus]. rewrite E. split; [done|]. rewrite zlen_cons.
  eapply pdu_effect_trans; [apply zlen_nonneg|done|done].
Qed.
End analyzer.

(** ** The frame walk *)

Lemma check_t0814_keeps w o : enip_keeps 0 w (check_t0814 w o).
Proof.
  destruct w as [a f]. unfold check_t0814. destruct (_ && _); [|apply enip_keeps_refl].
  destruct (enip_emit _ _) as [a' b] eqn:E. apply enip_emit_totals in E.
  apply enip_keeps_flags; [done|by destruct b|by destruct b].
Qed.

(** Bytes held for the direction that is not being walked. *)
Definition other_carry (f : EnipFlowState) (dir : Direction) : list Z :=
  match dir with ClientToServer => carry_s2c f | ServerToClient => carry_c2s f end.

(** The state of the walk: [n] bounds the commands counted, the errors and the
    PDUs by the bytes that were delivered, of which [R] are spent on other
    flows; [q] is queued, [rest] to be read. *)
Record walking (R n : Z) (dir : Direction) (w : enip_work) (q : list (list Z)) (rest : list Z) : Prop := {
  wa_findings : zlen (all_findings w.1) ≤ ENIP_MAX_FINDINGS;
  wa_carry : enip_carry w.2 dir = [];
  wa_other : zlen (other_carry w.2 dir) < MAX_ENIP_CARRY_BYTES;
  wa_latch : is_non_enip w.2 = false;
  wa_errors : errors_ok w.2;
  wa_nonneg : 0 ≤ pdu_count w.2 ∧ 0 ≤ flow_parse_errors w.2 ∧ ∀ cmd, 0 ≤ fcount (command_counts w.2) cmd;
  wa_cmds : ∀ cmd, fcount (command_counts w.2) cmd + zlen (other_carry w.2 dir) + zlen rest ≤ n;
  wa_total : error_total w.2 + zlen (concat q) + zlen (other_carry w.2 dir) + zlen rest ≤ n;
  wa_frames : R + pdu_count w.2 + zlen q + flow_parse_errors w.2 + zlen (other_carry w.2 dir) + zlen rest ≤ n
}.

Lemma walking_keeps R n dir w w' q rest :
  walking R n dir w q rest → enip_keeps 0 w w' → walking R n dir w' q rest.
Proof.
  intros [Hf Hc Ho Hl He [Hp [Hr Hn]] Hcm Ht Hfr] [[] [] E]. destruct (E He) as [He' Ht'].
  assert (other_carry w'.2 dir = other_carry w.2 dir) as Eo by (by destruct dir).
  split; rewrite ?Eo, ?fk_latch0, ?fk_cmds0, ?fk_pdus0, ?fk_errors0; auto; [|lia].
  by destruct dir; simpl in *; rewrite ?fk_c2s0, ?fk_s2c0.
Qed.

(** A structural reject drops at least a byte. *)
Lemma walking_reject R n dir a f q rest rest' cmd m o :
  walking R n dir (a, f) q rest → zlen rest' < zlen rest → bump_count (command_counts f) cmd = Some m →
  let w' := enip_reject (a, f <| command_counts := m |>) o in
  walking R n dir w' q rest' ∧ totals_keep a w'.1.
Proof.
  intros [Hf Hc Ho Hl He [Hp [Hr Hn]] Hcm Ht Hfr] Hlt E. cbn [fst snd] in *. cbn zeta.
  unfold enip_reject. cbn [fst snd].
  match goal with |- context [check_t0814 ?w o] => set (w1 := w) end.
  pose proof (check_t0814_keeps w1 o) as Hk. split; [|apply Hk].
  apply (walking_keeps _ _ _ w1); [|done].
  pose proof (zlen_nonneg rest').
  split; simpl; try (by destruct dir).
  - split; [done|]. split; [unfold sat_add; ulia|]. by eapply bump_count_nonneg.
  - intros k. specialize (Hcm k). rewrite (bump_count_inv _ _ _ E).
    destruct dir; simpl in *; case_decide; lia.
  - destruct dir; simpl in *; unfold error_total in *; simpl; lia.
  - unfold sat_add. destruct dir; simpl in *; lia.
Qed.

(** A complete frame moves from the buffer to the queue. *)
Lemma walking_frame R n dir a f q rest len cmd m :
  walking R n dir (a, f) q rest → 24 ≤ len ≤ zlen rest → bump_count (command_counts f) cmd = Some m →
  walking R n dir (a, f <| command_counts := m |>) (q ++ [take (Z.to_nat len) rest])
    (drop (Z.to_nat len) rest).
Proof.
  intros [Hf Hc Ho Hl He [Hp [Hr Hn]] Hcm Ht Hfr] Hlen E. simpl in *.
  pose proof (zlen_drop rest len ltac:(lia)) as Hd.
  assert (zlen (take (Z.to_nat len) rest) = len) as Htk.
  { unfold zlen in *. rewrite length_take. lia. }
  split; simpl; try (by destruct dir).
  - split_and!; [done|done|]. by eapply bump_count_nonneg.
  - intros k. specialize (Hcm k). rewrite (bump_count_inv _ _ _ E), Hd.
    destruct dir; simpl in *; case_decide; lia.
  - rewrite concat_app, zlen_app, Hd. cbn [concat]. rewrite app_nil_r, Htk.
    destruct dir; simpl in *; unfold error_total in *; simpl; lia.
  - rewrite zlen_app, Hd. change (zlen [_]) with 1. destruct dir; simpl in *; lia.
Qed.

Lemma count_command_Some f cmd : fcount (command_counts f) cmd < u64_max →
  ∃ m, bump_count (command_counts f) cmd = Some m ∧
    count_command f cmd = Some (f <| command_counts := m |>).
Proof.
  intros H. destruct (bump_count_Some _ _ H) as (m & E & _). exists m. split; [done|].
  unfold count_command. by rewrite E.
Qed.

Lemma parse_enip_header_length l h : parse_enip_header l = Some h → 0 ≤ enip_length h.
Proof.
  intros E. do 24 (destruct l as [|? l]; [done|]). injection E as <-. apply u16_le_u16.
Qed.

Lemma walking_count R n dir a f q rest cmd :
  walking R n dir (a, f) q rest → n ≤ u64_max → 0 < zlen rest →
  ∃ m, bump_count (command_counts f) cmd = Some m ∧
    count_command f cmd = Some (f <| command_counts := m |>).
Proof.
  intros [_ _ _ _ _ _ Hcm _ _] Hn Hr. apply count_command_Some. specialize (Hcm cmd). cbn [snd] in *.
  pose proof (zlen_nonneg (other_carry f dir)). lia.
Qed.

(** The walk ends, within the fuel, with less than a frame left. *)
Lemma enip_walk_total fuel R n dir w q rest o :
  walking R n dir w q rest → n ≤ u64_max → (length rest < fuel)%nat →
  ∃ w' q' rest', enip_walk fuel w q rest o = Some (w', q', rest') ∧
    walking R n dir w' q' rest' ∧ zlen rest' < MAX_ENIP_CARRY_BYTES ∧ totals_keep w.1 w'.1.
Proof.
  revert w q rest. induction fuel as [|fuel IH]; intros [a f] q rest Hw Hn Hf; [lia|].
  cbn [enip_walk]. destruct (Z.ltb_spec (zlen rest) 24) as [Hs|Hs].
  { exists (a, f), q, rest. split_and!; [done|done|unfold MAX_ENIP_CARRY_BYTES; lia|apply totals_keep_refl]. }
  rewrite slice_Some by lia. cbn [mbind option_bind].
  change (drop (Z.to_nat 0) rest) with rest. change (Z.to_nat (24 - 0)) with 24%nat.
  destruct (parse_enip_header_Some rest Hs) as [h Eh].
  rewrite (proj2 (parse_enip_header_take rest h Hs) Eh).
  pose proof (parse_enip_header_length _ _ Eh) as Hlen.
  destruct (walking_count _ _ _ _ _ _ _ (command h) Hw Hn ltac:(lia)) as (m & Em & Ec).
  assert (∀ k, 1 ≤ k → k ≤ zlen rest → zlen (drop (Z.to_nat k) rest) < zlen rest ∧
            (length (drop (Z.to_nat k) rest) < fuel)%nat) as Hdrop.
  { intros k H1 H2. rewrite zlen_drop by lia. rewrite length_drop. unfold zlen in *. lia. }
  assert (∀ k, 1 ≤ k → k ≤ zlen rest → ∃ w' q' rest',
      (enip_walk fuel (enip_reject (a, f <| command_counts := m |>) o) q (drop (Z.to_nat k) rest) o)
        = Some (w', q', rest') ∧
      walking R n dir w' q' rest' ∧ zlen rest' < MAX_ENIP_CARRY_BYTES ∧ totals_keep a w'.1) as Hrej.
  { intros k H1 H2. destruct (Hdrop k H1 H2) as [D1 D2].
    destruct (walking_reject _ _ _ _ _ _ _ _ _ _ o Hw D1 Em) as [Hw' Ht].
    destruct (IH _ _ _ Hw' Hn D2) as (w' & q' & rest' & E & ? & ? & Ht'). exists w', q', rest'.
    split_and!; [done..|]. by eapply totals_keep_trans. }
  destruct (is_valid_enip_frame h); cbn [negb].
  2:{ rewrite Ec. cbn [mbind option_bind]. apply (Hrej 1); lia. }
  destruct (Z.ltb_spec MAX_ENIP_CARRY_BYTES (24 + enip_length h)) as [Hbig|Hbig].
  { rewrite Ec. cbn [mbind option_bind]. apply Hrej; lia. }
  destruct (Z.ltb_spec (zlen rest) (24 + enip_length h)) as [Hmore|Hmore].
  { exists (a, f), q, rest. split_and!; [done|done|lia|apply totals_keep_refl]. }
  rewrite Ec. cbn [mbind option_bind]. rewrite slice_Some by lia. cbn [mbind option_bind].
  rewrite Z.sub_0_r. change (drop (Z.to_nat 0) rest) with rest.
  destruct (Hdrop (24 + enip_length h)) as [D1 D2]; [lia..|].
  destruct (IH (a, f <| command_counts := m |>) (q ++ [take (Z.to_nat (24 + enip_length h)) rest])
    (drop (Z.to_nat (24 + enip_length h)) rest)) as (w' & q' & rest' & E & ? & ? & Ht); [|done|done|].
  { apply (walking_frame _ _ _ _ _ _ _ _ (command h)); [done|lia|done]. }
  by exists w', q', rest'.
Qed.

(** ** Deliveries, closes and traces *)

Definition enip_held (f : EnipFlowState) : Z := zlen (carry_c2s f) + zlen (carry_s2c f).

Definition enip_weight (f : EnipFlowState) : Z := pdu_count f + flow_parse_errors f + enip_held f.

Record enip_flow_ok (n : Z) (f : EnipFlowState) : Prop := {
  ef_c2s : zlen (carry_c2s f) < MAX_ENIP_CARRY_BYTES;
  ef_s2c : zlen (carry_s2c f) < MAX_ENIP_CARRY_BYTES;
  ef_latch : is_non_enip f = false;
  ef_errors : errors_ok f;
  ef_nonneg : 0 ≤ pdu_count f ∧ 0 ≤ flow_parse_errors f ∧ ∀ cmd, 0 ≤ fcount (command_counts f) cmd;
  ef_cmds : ∀ cmd, fcount (command_counts f) cmd + enip_held f ≤ n;
  ef_total : error_total f + enip_held f ≤ n
}.

Lemma enip_flow_ok_mono n m f : n ≤ m → enip_flow_ok n f → enip_flow_ok m f.
Proof. intros H []. split; try done; [|lia]. intros cmd. specialize (ef_cmds0 cmd). lia. Qed.

Lemma enip_flow_ok_new n : 0 ≤ n → enip_flow_ok n EnipFlowState_new.
Proof.
  intros H. by split.
Qed.

Lemma enip_weight_nonneg n f : enip_flow_ok n f → 0 ≤ enip_weight f.
Proof.
  intros [_ _ _ _ (? & ? & _) _ _]. unfold enip_weight, enip_held.
  pose proof (zlen_nonneg (carry_c2s f)). pose proof (zlen_nonneg (carry_s2c f)). lia.
Qed.

(** The walk starts with the carry and the delivery in the buffer. *)
Lemma walking_start R n a f ts dir data :
  zlen (all_findings a) ≤ ENIP_MAX_FINDINGS → enip_flow_ok n f → R + enip_weight f ≤ n →
  walking R (n + zlen data) dir (a, set_enip_carry (expire_malformed_window f ts) dir []) []
    (enip_carry (expire_malformed_window f ts) dir ++ data).
Proof.
  intros Ha [] Hw. unfold expire_malformed_window, enip_weight, enip_held, error_total in *.
  pose proof (zlen_nonneg data). change (zlen (concat [])) with 0.
  destruct (_ <? _), dir; split; cbn in *; try done; intros;
    try specialize (ef_cmds0 cmd); rewrite ?zlen_app; change (zlen []) with 0; unfold error_total in *;
    cbn; lia.
Qed.

(** The end of the walk: what is left becomes the carry, and the cap of the
    carry is not exceeded. *)
Lemma walking_stash R n dir a f q rest o :
  walking R n dir (a, f) q rest → zlen rest < MAX_ENIP_CARRY_BYTES →
  let f' := set_enip_carry f dir rest in
  enip_carry_cap (a, f') dir o = (a, f') ∧ enip_flow_ok n f' ∧
  error_total f' + zlen (concat q) + enip_held f' ≤ n ∧ R + enip_weight f' + zlen q ≤ n.
Proof.
  intros [Hf Hc Ho Hl He [Hp [Hr Hn]] Hcm Ht Hfr] Hrest. cbn [fst snd] in *. cbn zeta.
  pose proof (zlen_nonneg (concat q)). unfold enip_weight, enip_held, error_total in *. split_and!.
  - unfold enip_carry_cap.
    replace (enip_carry (set_enip_carry f dir rest) dir) with rest by by destruct dir.
    destruct (Z.ltb_spec MAX_ENIP_CARRY_BYTES (zlen rest)); [lia|done].
  - destruct dir; split; cbn in *; try done; intros; try specialize (Hcm cmd);
      unfold error_total, enip_held in *; cbn in *; lia.
  - destruct dir; cbn in *; lia.
  - destruct dir; cbn in *; lia.
Qed.

Section deliveries.
Context `{!IterOrder Z Z}.

Lemma enip_deliver_ok R n a f data dir o :
  zlen (all_findings a) ≤ ENIP_MAX_FINDINGS → enip_flow_ok n f → 0 ≤ R → R + enip_weight f ≤ n →
  n + zlen data ≤ u64_max →
  ∃ a' f', enip_deliver (a, f) data dir o = Some (a', f') ∧
    totals_keep a a' ∧ enip_flow_ok (n + zlen data) f' ∧ R + enip_weight f' ≤ n + zlen data.
Proof.
  intros Ha Hf HR Hw Hn. unfold enip_deliver.
  pose proof (walking_start R n a f (s_ts o) dir data Ha Hf Hw) as Hs.
  destruct (enip_walk_total _ _ _ _ _ _ _ o Hs Hn (Nat.lt_succ_diag_r _))
    as ([a1 f1] & q & rest & -> & Hw1 & Hr & Ht). cbn [mbind option_bind].
  destruct (walking_stash _ _ _ _ _ _ _ o Hw1 Hr) as (-> & [] & Hte & Hwe).
  pose proof (zlen_nonneg (carry_c2s (set_enip_carry f1 dir rest))).
  pose proof (zlen_nonneg (carry_s2c (set_enip_carry f1 dir rest))).
  pose proof (zlen_nonneg q). destruct ef_nonneg0 as (Hp & Hpe & Hcm).
  unfold enip_weight, enip_held in Hwe, Hte.
  destruct (dispatch_pdus_effect q (a1, set_enip_carry f1 dir rest) o)
    as ([a2 f2] & -> & [[] Ht2 He2 Hp2]); cbn [fst snd]; [done|lia|done|ulia|].
  cbn in fk_c2s0, fk_s2c0, fk_latch0, fk_cmds0, fk_pdus0, fk_errors0.
  cbn [fst snd] in *. destruct (He2 ef_errors0) as [He3 He4].
  assert (enip_held f2 = enip_held (set_enip_carry f1 dir rest)) as Eh.
  { unfold enip_held. by rewrite fk_c2s0, fk_s2c0. }
  exists a2, f2. split; [done|]. split; [by eapply totals_keep_trans|].
  assert (pdu_count f2 = pdu_count (set_enip_carry f1 dir rest) + zlen q) as Ep.
  { rewrite Hp2. unfold sat_add. lia. }
  split.
  - split; rewrite ?fk_c2s0, ?fk_s2c0, ?fk_latch0, ?fk_cmds0, ?fk_errors0, ?Eh, ?Ep; try done.
    + split_and!; [lia|done|done].
    + unfold enip_held in *. lia.
  - unfold enip_weight. rewrite Eh, fk_errors0, Ep. unfold enip_held. lia.
Qed.

Definition closed_pdus (a : EnipAnalyzer) : Z := total_pdu_count a + parse_errors a.

(** The invariant, for [n] bytes delivered so far. *)
Record enip_ok (n : Z) (a : EnipAnalyzer) : Prop := {
  en_findings : zlen (all_findings a) ≤ ENIP_MAX_FINDINGS;
  en_flows : ∀ k f, flows a !! k = Some f → enip_flow_ok n f;
  en_nonneg : 0 ≤ n ∧ 0 ≤ total_pdu_count a ∧ 0 ≤ parse_errors a;
  en_spent : closed_pdus a + map_sum enip_weight (flows a) ≤ n
}.

Lemma enip_ok_new wt et : enip_ok 0 (EnipAnalyzer_new wt et).
Proof. by split. Qed.

Lemma enip_ok_mono n m a : n ≤ m → enip_ok n a → enip_ok m a.
Proof.
  intros H [? Hf ? ?]. split; [done| |lia|lia]. intros k f Hk. eapply enip_flow_ok_mono; [done|eauto].
Qed.

Lemma enip_weights_nonneg n a : enip_ok n a → ∀ k f, flows a !! k = Some f → 0 ≤ enip_weight f.
Proof. intros Ha k f Hk. eapply enip_weight_nonneg, (en_flows _ _ Ha k f Hk). Qed.

(** Taking a flow out of the table. *)
Lemma enip_flow_out n a k : enip_ok n a →
  let f := default EnipFlowState_new (flows a !! k) in
  enip_flow_ok n f ∧ 0 ≤ map_sum enip_weight (flows a) - enip_weight f ∧
  ∀ f', map_sum enip_weight (<[k := f']> (flows a))
    = map_sum enip_weight (flows a) - enip_weight f + enip_weight f'.
Proof.
  intros Ha. pose proof (enip_weights_nonneg n a Ha) as Hw. destruct (flows a !! k) as [f|] eqn:E; simpl.
  - split_and!; [by eapply en_flows| |].
    + pose proof (map_sum_lookup_le enip_weight _ _ _ Hw E). lia.
    + intros f'. by apply map_sum_insert.
  - split_and!; [apply enip_flow_ok_new, Ha| |].
    + pose proof (map_sum_nonneg _ _ Hw). change (enip_weight EnipFlowState_new) with 0. lia.
    + intros f'. rewrite map_sum_insert_fresh by done.
      change (enip_weight EnipFlowState_new) with 0. lia.
Qed.

Lemma enip_on_data_ok n a k data ts dir :
  enip_ok n a → n + zlen data ≤ u64_max →
  ∃ a', enip_on_data a k data ts dir = Some a' ∧ enip_ok (n + zlen data) a'.
Proof.
  intros Ha Hn. destruct (enip_flow_out n a k Ha) as (Hf & Hw & Hins).
  destruct Ha as [Hfi Hfl (Hz & Hp & He) Hs]. pose proof (zlen_nonneg data). unfold enip_on_data.
  match goal with |- context [flows ?b !! k] => set (a0 := b) end.
  change (flows a0) with (flows a). cbn zeta. set (f := default EnipFlowState_new (flows a !! k)) in *.
  rewrite (ef_latch _ _ Hf).
  destruct (enip_deliver_ok (closed_pdus a + (map_sum enip_weight (flows a) - enip_weight f)) n
    (a0 <| flows := <[k := f]> (flows a) |>) f data dir (enip_source k ts dir))
    as (a' & f' & -> & [] & Hf' & Hw'); [done|done|unfold closed_pdus; lia|lia|done|].
  cbn [mbind option_bind]. eexists. split; [done|]. split; cbn.
  - by apply tk_findings0.
  - intros k' g Hk. rewrite tk_flows0 in Hk. cbn in Hk. rewrite insert_insert_eq in Hk.
    apply lookup_insert_Some in Hk as [[<- <-]|[_ Hk]]; [done|].
    eapply enip_flow_ok_mono; [|by eapply Hfl]. lia.
  - rewrite tk_pdus0, tk_errors0. cbn. lia.
  - unfold closed_pdus in *. rewrite tk_flows0. cbn. rewrite insert_insert_eq, Hins, tk_pdus0, tk_errors0.
    cbn. lia.
Qed.

Lemma enip_on_flow_close_ok n a k : enip_ok n a → enip_ok n (enip_on_flow_close a k).
Proof.
  intros Ha. unfold enip_on_flow_close. destruct (flows a !! k) as [f|] eqn:E; [|done].
  destruct Ha as [Hfi Hfl (Hz & Hp & He) Hs]. destruct (Hfl _ _ E) as [_ _ _ _ (? & ? & _) _ _].
  split; cbn; [done| |unfold sat_add; ulia|].
  - intros k' g [_ ?]%lookup_delete_Some. by eapply Hfl.
  - rewrite (map_sum_delete _ _ _ _ E). unfold closed_pdus in *. cbn. unfold sat_add, enip_weight at 2, enip_held.
    pose proof (zlen_nonneg (carry_c2s f)). pose proof (zlen_nonneg (carry_s2c f)). lia.
Qed.

Lemma enip_replay_ok es n a :
  enip_ok n a → n + trace_bytes es ≤ u64_max →
  ∃ a', replay (Some a) es = Some a' ∧ enip_ok (n + trace_bytes es) a'.
Proof.
  apply (replay_preserves u64_max enip_ok).
  - intros. by apply enip_on_data_ok.
  - intros m b k r Hb. eexists. split; [done|]. by apply enip_on_flow_close_ok.
Qed.
End deliveries.

(** ** Detectors do not look at the framing

    The dispatch of a PDU neither reads nor writes the byte count, the flow
    table, the command counts, the carry buffers and the start of the malformed
    window: it commutes with setting them. *)

Record framing := mkFraming {
  fr_bytes : Z;
  fr_flows : gmap FlowKey EnipFlowState;
  fr_counts : gmap Z Z;
  fr_c2s : list Z;
  fr_s2c : list Z;
  fr_window : Z
}.

Definition framing_of (w : enip_work) : framing :=
  mkFraming (bytes_received w.1) (flows w.1) (command_counts w.2) (carry_c2s w.2) (carry_s2c w.2)
    (malformed_window_start_ts w.2).

Definition reframe (r : framing) (w : enip_work) : enip_work :=
  (w.1 <| bytes_received := fr_bytes r |> <| flows := fr_flows r |>,
   w.2 <| command_counts := fr_counts r |> <| carry_c2s := fr_c2s r |> <| carry_s2c := fr_s2c r |>
       <| malformed_window_start_ts := fr_window r |>).

Lemma reframe_id w : reframe (framing_of w) w = w.
Proof. by destruct w as [[] []]. Qed.

Section reframe.
Context `{!IterOrder Z Z} (r : framing).

Lemma enip_emit_reframe a f x :
  enip_emit (reframe r (a, f)).1 x = ((reframe r ((enip_emit a x).1, f)).1, (enip_emit a x).2).
Proof. unfold enip_emit. cbn. by destruct (_ <? _). Qed.

Lemma enip_report_reframe w x : enip_report (reframe r w) x = reframe r (enip_report w x).
Proof. destruct w as [a f]. unfold enip_report. by rewrite (enip_emit_reframe a f). Qed.

Lemma identity_read_reframe w class cip o :
  identity_read (reframe r w) class cip o = reframe r (identity_read w class cip o).
Proof. unfold identity_read. destruct (_ && _); [apply enip_report_reframe|done]. Qed.

Lemma stop_service_reframe w h class cip o :
  stop_service (reframe r w) h class cip o = reframe r (stop_service w h class cip o).
Proof. unfold stop_service. destruct (_ && _); [apply enip_report_reframe|done]. Qed.

Lemma reset_service_reframe w h class cip o :
  reset_service (reframe r w) h class cip o = reframe r (reset_service w h class cip o).
Proof. unfold reset_service. destruct (_ && _); [apply enip_report_reframe|done]. Qed.

Lemma write_service_reframe w h class cip o :
  write_service (reframe r w) h class cip o = reframe r (write_service w h class cip o).
Proof.
  destruct w as [a f]. unfold write_service. destruct (bool_decide _ && _); [|done].
  unfold enip_emit, reframe. cbn.
  destruct ((0 <? _) && _); cbn; [|destruct (_ =? 1); cbn];
    (destruct (_ && _); [|done]); by destruct (_ <? _).
Qed.

Lemma connection_service_reframe w h class cip o :
  connection_service (reframe r w) h class cip o = reframe r (connection_service w h class cip o).
Proof.
  destruct w as [a f]. unfold connection_service, enip_report, enip_emit, reframe. cbn.
  destruct (bool_decide _); [by destruct (_ <? _)|]. destruct (bool_decide _); [by destruct (_ <? _)|done].
Qed.

Lemma list_identity_reframe w h o : list_identity (reframe r w) h o = reframe r (list_identity w h o).
Proof.
  destruct w as [a f]. unfold list_identity, enip_emit, reframe. cbn.
  destruct (negb _); [by destruct (_ <? _)|done].
Qed.

Lemma error_response_reframe w status o :
  error_response (reframe r w) status o = reframe r <$> error_response w status o.
Proof.
  destruct w as [a f]. unfold error_response, enip_emit, reframe. cbn.
  destruct (error_window_active f && _); cbn;
    (destruct (bump_count _ _); [cbn|done]);
    (destruct (negb (error_window_active f)); cbn);
    (destruct (checked_sum _); [cbn|done]);
    (destruct ((_ <? _) && _); [|done]); by destruct (_ <? _).
Qed.

Lemma process_item_reframe w h item o :
  process_item (reframe r w) h item o = reframe r <$> process_item w h item o.
Proof.
  unfold process_item. destruct (negb _); [done|]. destruct (parse_cip_header _) as [cip|]; [|done].
  destruct (bool_decide _).
  - destruct (_ <? _); [done|]. destruct (index _ _); [cbn|done].
    destruct (negb _); [apply error_response_reframe|done].
  - by rewrite identity_read_reframe, stop_service_reframe, reset_service_reframe,
      write_service_reframe, connection_service_reframe.
Qed.

Lemma process_items_reframe items w h o :
  process_items (reframe r w) h items o = reframe r <$> process_items w h items o.
Proof.
  revert w. induction items as [|item items IH]; intros w; [done|]. cbn [process_items].
  rewrite process_item_reframe. destruct (process_item w h item o); [apply IH|done].
Qed.

Lemma enip_process_pdu_reframe w pdu o :
  enip_process_pdu (reframe r w) pdu o = reframe r <$> enip_process_pdu w pdu o.
Proof.
  destruct w as [a f]. unfold enip_process_pdu, reframe at 1. cbn [fst snd].
  match goal with |- context [is_non_enip ?g] => change (is_non_enip g) with (is_non_enip f) end.
  destruct (is_non_enip f); [done|].
  match goal with |- context [(?b, ?g <| pdu_count := ?n |>)] =>
    change (b, g <| pdu_count := n |>) with
      (reframe r (a, f <| pdu_count := sat_add u64_max (pdu_count f) 1 |>)) end.
  cbn zeta. destruct (parse_enip_header pdu) as [h|]; [|done].
  destruct (classify_enip_command _); try done.
  - by rewrite list_identity_reframe.
  - destruct (_ <=? _); [done|]. destruct (slice _ _ _); [apply process_items_reframe|done].
  - destruct (_ <=? _); [done|]. destruct (slice _ _ _); [apply process_items_reframe|done].
Qed.

Lemma dispatch_pdus_reframe q w o :
  dispatch_pdus (reframe r w) q o = reframe r <$> dispatch_pdus w q o.
Proof.
  revert w. induction q as [|pdu q IH]; intros w; [done|]. cbn [dispatch_pdus].
  rewrite enip_process_pdu_reframe. destruct (enip_process_pdu w pdu o); [apply IH|done].
Qed.
End reframe.

(** ** Streams of frames *)

Section frames.
Context `{!IterOrder Z Z}.

Lemma dispatch_pdus_framing q w o w' : dispatch_pdus w q o = Some w' → framing_of w' = framing_of w.
Proof.
  intros E. pose proof (dispatch_pdus_reframe (framing_of w) q w o) as H.
  rewrite reframe_id, E in H. cbn in H. injection H as H. by rewrite H at 1.
Qed.

Lemma dispatch_pdus_app q q' w o :
  dispatch_pdus w (q ++ q') o = w' ← dispatch_pdus w q o; dispatch_pdus w' q' o.
Proof.
  revert w. induction q as [|pdu q IH]; intros w; [done|]. cbn [dispatch_pdus app].
  destruct (enip_process_pdu w pdu o); [apply IH|done].
Qed.

Lemma enip_reject_flows a f o : flows (enip_reject (a, f) o).1 = flows a.
Proof.
  unfold enip_reject. match goal with |- context [check_t0814 ?x o] =>
    apply (tk_flows _ _ (ek_totals _ _ _ (check_t0814_keeps x o))) end.
Qed.

Lemma enip_carry_cap_flows w dir o : flows (enip_carry_cap w dir o).1 = flows w.1.
Proof.
  destruct w as [a f]. unfold enip_carry_cap. destruct (_ <? _); [|done].
  pose proof (enip_reject_flows a f o) as H. by destruct (enip_reject (a, f) o).
Qed.

Lemma enip_walk_flows fuel w q rest o w' q' rest' :
  enip_walk fuel w q rest o = Some (w', q', rest') → flows w'.1 = flows w.1.
Proof.
  revert w q rest. induction fuel as [|fuel IH]; intros [a f] q rest; [done|]. cbn [enip_walk].
  destruct (_ <? 24); [by intros [= <- _ _]|]. destruct (slice rest 0 24); [|done]. cbn [mbind option_bind].
  destruct (parse_enip_header _) as [h|]; [|apply IH].
  destruct (negb _).
  { destruct (count_command f _); [|done]. cbn [mbind option_bind]. intros E%IH.
    by rewrite E, enip_reject_flows. }
  destruct (_ <? 24 + _).
  { destruct (count_command f _); [|done]. cbn [mbind option_bind]. intros E%IH.
    by rewrite E, enip_reject_flows. }
  destruct (_ <? _); [by intros [= <- _ _]|].
  destruct (count_command f _); [|done]. cbn [mbind option_bind].
  destruct (slice rest 0 _); [|done]. cbn [mbind option_bind]. by intros E%IH.
Qed.

(** A delivery touches its own flow only. *)
Lemma enip_on_data_flows a k data ts dir a' k' :
  enip_on_data a k data ts dir = Some a' → k' ≠ k → flows a' !! k' = flows a !! k'.
Proof.
  unfold enip_on_data. intros E Hk.
  destruct (is_non_enip _); [simplify_eq/=; by rewrite lookup_insert_ne|].
  unfold enip_deliver in E.
  destruct (enip_walk _ _ _ _ _) as [[[[a1 f1] q] rest]|] eqn:Ew; [|done]. cbn [mbind option_bind] in E.
  apply enip_walk_flows in Ew. cbn [fst] in Ew.
  destruct (dispatch_pdus _ q _) as [[a3 f3]|] eqn:Ed; [|done]. cbn [mbind option_bind] in E.
  apply dispatch_pdus_framing, (f_equal fr_flows) in Ed.
  change (flows a3 = flows (enip_carry_cap (a1, set_enip_carry f1 dir rest) dir (enip_source k ts dir)).1) in Ed.
  rewrite enip_carry_cap_flows in Ed. cbn [fst] in Ed. rewrite Ew in Ed. apply (inj Some) in E as <-.
  change (<[k := f3]> (flows a3) !! k' = flows a !! k'). rewrite lookup_insert_ne, Ed by done.
  cbn. by rewrite lookup_insert_ne.
Qed.

(** A frame: a known command, the length of its header, at most 600 bytes. *)
Definition enip_frame (l : list Z) : Prop :=
  ∃ h, parse_enip_header l = Some h ∧ is_valid_enip_frame h = true ∧
    zlen l = 24 + enip_length h ∧ zlen l ≤ MAX_ENIP_CARRY_BYTES.

(** The beginning of one. *)
Definition enip_partial (l : list Z) : Prop :=
  zlen l < 24 ∨ ∃ h, parse_enip_header l = Some h ∧ is_valid_enip_frame h = true ∧
    zlen l < 24 + enip_length h ≤ MAX_ENIP_CARRY_BYTES.

Lemma enip_header_prefix u v h :
  parse_enip_header (u ++ v) = Some h → zlen u < 24 ∨ parse_enip_header u = Some h.
Proof.
  intros E. destruct (Z.lt_ge_cases (zlen u) 24) as [|Hu]; [by left|]. right.
  destruct (parse_enip_header_Some u Hu) as [h' E']. rewrite E'.
  by rewrite (parse_enip_header_app _ _ _ E') in E.
Qed.

Lemma enip_partial_prefix u v : enip_partial (u ++ v) → enip_partial u.
Proof.
  unfold enip_partial. rewrite zlen_app. pose proof (zlen_nonneg v).
  intros [?|(h & E & Hv & ?)]; [left; lia|].
  destruct (enip_header_prefix _ _ _ E) as [|Eu]; [by left|]. right. exists h. split_and!; [done..|lia|lia].
Qed.

Lemma enip_frame_prefix u x v : enip_frame (u ++ x :: v) → enip_partial u.
Proof.
  intros (h & E & Hv & Hl & Hm). rewrite zlen_app, zlen_cons in Hl, Hm. pose proof (zlen_nonneg v).
  destruct (enip_header_prefix _ _ _ E) as [|Eu]; [by left|]. right. exists h. split_and!; [done..|lia|lia].
Qed.

(** The commands of frames, counted. *)
Definition frame_command (fr : list Z) : Z :=
  match parse_enip_header fr with Some h => command h | None => 0 end.

Fixpoint count_frames (m : gmap Z Z) (frames : list (list Z)) : panicky (gmap Z Z) :=
  match frames with
  | [] => Some m
  | fr :: frames => m ← bump_count m (frame_command fr); count_frames m frames
  end.

Lemma count_frames_app fs fs' m :
  count_frames m (fs ++ fs') = m' ← count_frames m fs; count_frames m' fs'.
Proof.
  revert m. induction fs as [|fr fs IH]; intros m; [done|]. cbn [count_frames app].
  destruct (bump_count m _); [apply IH|done].
Qed.

(** The walk over frames and the beginning of one. *)
Lemma enip_walk_frames frames fuel a f q p o :
  Forall enip_frame frames → enip_partial p → (length (concat frames ++ p) < fuel)%nat →
  enip_walk fuel (a, f) q (concat frames ++ p) o =
    m ← count_frames (command_counts f) frames;
    Some ((a, f <| command_counts := m |>), q ++ frames, p).
Proof.
  intros Hv Hp. revert f q fuel. induction frames as [|fr frames IH]; intros f q fuel Hf;
    (destruct fuel as [|fuel]; [lia|]); cbn [concat app count_frames enip_walk mbind option_bind].
  { rewrite app_nil_r. replace (f <| command_counts := command_counts f |>) with f by by destruct f.
    destruct (Z.ltb_spec (zlen p) 24) as [|Hs]; [done|].
    destruct Hp as [|(h & Eh & Hvh & Hl)]; [lia|]. rewrite slice_Some by lia. cbn [mbind option_bind].
    change (drop (Z.to_nat 0) p) with p. change (Z.to_nat (24 - 0)) with 24%nat.
    rewrite (proj2 (parse_enip_header_take p h Hs) Eh), Hvh. cbn [negb].
    destruct (Z.ltb_spec MAX_ENIP_CARRY_BYTES (24 + enip_length h)); [lia|].
    destruct (Z.ltb_spec (zlen p) (24 + enip_length h)); [done|lia]. }
  apply list.Forall_cons in Hv as [(h & Eh & Hvh & Hl & Hm) Hv].
  pose proof (parse_enip_header_length _ _ Eh). pose proof (zlen_nonneg (concat frames ++ p)).
  cbn [concat] in Hf. rewrite <- app_assoc in *. set (tl := concat frames ++ p) in *.
  assert (zlen (fr ++ tl) = zlen fr + zlen tl) as Hz by apply zlen_app.
  destruct (Z.ltb_spec (zlen (fr ++ tl)) 24) as [|Hs]; [lia|].
  rewrite slice_Some by lia. cbn [mbind option_bind].
  change (drop (Z.to_nat 0) (fr ++ tl)) with (fr ++ tl). change (Z.to_nat (24 - 0)) with 24%nat.
  rewrite (proj2 (parse_enip_header_take _ h Hs) (parse_enip_header_app _ tl _ Eh)), Hvh. cbn [negb].
  destruct (Z.ltb_spec MAX_ENIP_CARRY_BYTES (24 + enip_length h)); [lia|].
  destruct (Z.ltb_spec (zlen (fr ++ tl)) (24 + enip_length h)); [lia|].
  unfold frame_command, count_command. rewrite Eh.
  destruct (bump_count (command_counts f) (command h)) as [m|]; [|done]. cbn [mbind option_bind].
  rewrite slice_Some by lia. cbn [mbind option_bind]. rewrite Z.sub_0_r.
  change (drop (Z.to_nat 0) (fr ++ tl)) with (fr ++ tl). rewrite <- Hl, take_zlen_app, drop_zlen_app.
  rewrite IH; [|done|rewrite length_app in Hf; unfold zlen in *; lia]. cbn.
  destruct (count_frames m frames); cbn; [|done]. by rewrite <- app_assoc.
Qed.

Definition enip_flow (a : EnipAnalyzer) (k : FlowKey) : EnipFlowState :=
  default EnipFlowState_new (flows a !! k).

(** What reading a stream means: the frames are counted and dispatched in
    order, once each, and the beginning of the next one is kept. *)
Definition enip_reads (a : EnipAnalyzer) (k : FlowKey) (dir : Direction) (ts total : Z)
    (frames : list (list Z)) (p : list Z) : panicky EnipAnalyzer :=
  let f := expire_malformed_window (enip_flow a k) ts in
  m ← count_frames (command_counts f) frames;
  '(a', f') ← dispatch_pdus (a, f) frames (enip_source k ts dir);
  Some (a' <| bytes_received := sat_add u64_max (bytes_received a) total |>
           <| flows := <[k := set_enip_carry (f' <| command_counts := m |>) dir p]> (flows a) |>).

Lemma expire_carry f ts dir : enip_carry (expire_malformed_window f ts) dir = enip_carry f dir.
Proof. unfold expire_malformed_window. by destruct (_ <? _), dir. Qed.

(** A delivery that completes [frames] and leaves [p] reads them. *)
Lemma enip_on_data_reads a k data ts dir frames p :
  is_non_enip (enip_flow a k) = false →
  enip_carry (enip_flow a k) dir ++ data = concat frames ++ p →
  Forall enip_frame frames → enip_partial p → zlen p < MAX_ENIP_CARRY_BYTES →
  enip_on_data a k data ts dir = enip_reads a k dir ts (zlen data) frames p.
Proof.
  intros Hl Hb Hv Hp Hc. unfold enip_on_data. cbn zeta. cbn [flows].
  match goal with |- context [default EnipFlowState_new ?x] => change x with (flows a !! k) end.
  fold (enip_flow a k). rewrite Hl. unfold enip_deliver, enip_reads.
  assert (s_ts (enip_source k ts dir) = ts) as ->.
  { unfold enip_source. destruct (_ =? _), dir; done. }
  rewrite expire_carry, Hb. set (g := expire_malformed_window (enip_flow a k) ts).
  rewrite enip_walk_frames by (done || lia).
  replace (command_counts (set_enip_carry g dir [])) with (command_counts g) by by destruct dir.
  destruct (count_frames (command_counts g) frames) as [m|]; [|done]. cbn [mbind option_bind app].
  set (a0 := a <| bytes_received := _ |> <| flows := _ |>).
  set (g' := set_enip_carry ((set_enip_carry g dir []) <| command_counts := m |>) dir p).
  assert (enip_carry_cap (a0, g') dir (enip_source k ts dir) = (a0, g')) as ->.
  { unfold enip_carry_cap. replace (enip_carry g' dir) with p by by destruct dir.
    destruct (Z.ltb_spec MAX_ENIP_CARRY_BYTES (zlen p)); [lia|done]. }
  assert ((a0, g') = reframe (framing_of (a0, g')) (a, g)) as -> by by destruct dir, a.
  rewrite dispatch_pdus_reframe.
  destruct (dispatch_pdus (a, g) frames _) as [[a' f']|] eqn:E; [|done]. cbn [fmap option_fmap option_map mbind option_bind].
  apply dispatch_pdus_framing in E. unfold framing_of in E. cbn [fst snd] in E.
  injection E as _ _ _ Ec Es Ew. f_equal. subst a0 g'. unfold reframe.
  destruct dir; cbn; by rewrite insert_insert_eq, ?Ec, ?Es, ?Ew.
Qed.

Lemma expire_again f f' ts :
  malformed_window_start_ts f' = malformed_window_start_ts (expire_malformed_window f ts) →
  expire_malformed_window f' ts = f'.
Proof.
  unfold expire_malformed_window. intros E. destruct (Z.ltb_spec 300 (sat_sub ts (malformed_window_start_ts f))) as [H|H];
    cbn in E; rewrite E; [|by destruct (Z.ltb_spec 300 (sat_sub ts (malformed_window_start_ts f))); [lia|]].
  destruct (Z.ltb_spec 300 (sat_sub ts ts)); [|done]. unfold sat_sub in *. lia.
Qed.

(** Two readings at one timestamp are one. *)
Lemma enip_reads_app a k dir ts n1 n2 fs1 fs2 p1 p2 a1 :
  0 ≤ n2 → enip_reads a k dir ts n1 fs1 p1 = Some a1 →
  enip_reads a1 k dir ts n2 fs2 p2 = enip_reads a k dir ts (n1 + n2) (fs1 ++ fs2) p2.
Proof.
  intros Hn. unfold enip_reads. set (f := expire_malformed_window (enip_flow a k) ts).
  rewrite count_frames_app, dispatch_pdus_app.
  destruct (count_frames (command_counts f) fs1) as [m1|]; [|done].
  destruct (dispatch_pdus (a, f) fs1 _) as [[A1 F1]|] eqn:E1; [|done]. cbn [mbind option_bind].
  intros <-%(inj Some). pose proof (dispatch_pdus_framing _ _ _ _ E1) as Efr.
  unfold framing_of in Efr. cbn [fst snd] in Efr. injection Efr as Eb Ef _ Ec Es Ew.
  set (f1 := set_enip_carry (F1 <| command_counts := m1 |>) dir p1).
  set (a1 := A1 <| bytes_received := sat_add u64_max (bytes_received a) n1 |>
                <| flows := <[k := f1]> (flows a) |>).
  assert (enip_flow a1 k = f1) as Hf1.
  { unfold enip_flow, a1. cbn. by rewrite lookup_insert_eq. }
  rewrite Hf1, (expire_again (enip_flow a k) f1 ts) by (unfold f1; by destruct dir).
  replace (command_counts f1) with m1 by (unfold f1; by destruct dir).
  destruct (count_frames m1 fs2) as [m2|]; [|done]. cbn [mbind option_bind].
  assert ((a1, f1) = reframe (framing_of (a1, f1)) (A1, F1)) as ->.
  { unfold f1, a1. destruct dir, A1, F1; done. }
  rewrite dispatch_pdus_reframe. destruct (dispatch_pdus (A1, F1) fs2 _) as [[A2 F2]|] eqn:E2; [|done].
  cbn [fmap option_fmap option_map mbind option_bind].
  apply dispatch_pdus_framing in E2. unfold framing_of in E2. cbn [fst snd] in E2.
  injection E2 as _ _ _ Ec2 Es2 Ew2. f_equal. unfold reframe, a1, f1.
  assert (sat_add u64_max (sat_add u64_max (bytes_received a) n1) n2
    = sat_add u64_max (bytes_received a) (n1 + n2)) as Hb by (unfold sat_add; lia).
  destruct dir; cbn; by rewrite insert_insert_eq, Hb, ?Ec2, ?Es2, ?Ew2.
Qed.

(** Deliveries in one direction at one timestamp. *)
Fixpoint enip_feed (a : EnipAnalyzer) (k : FlowKey) (dir : Direction) (ts : Z)
    (chunks : list (list Z)) : panicky EnipAnalyzer :=
  match chunks with
  | [] => Some a
  | data :: chunks => a ← enip_on_data a k data ts dir; enip_feed a k dir ts chunks
  end.

Lemma enip_partial_short p : enip_partial p → zlen p < MAX_ENIP_CARRY_BYTES.
Proof. unfold MAX_ENIP_CARRY_BYTES. intros [?|(h & _ & _ & ?)]; unfold MAX_ENIP_CARRY_BYTES in *; lia. Qed.

Lemma enip_ok_latch n a k : enip_ok n a → is_non_enip (enip_flow a k) = false.
Proof. intros Ha. destruct (enip_flow_out n a k Ha) as [[] _]. done. Qed.

Lemma enip_reads_carry a k dir ts n frames p a' :
  enip_reads a k dir ts n frames p = Some a' → enip_carry (enip_flow a' k) dir = p.
Proof.
  unfold enip_reads. destruct (count_frames _ _); [|done]. destruct (dispatch_pdus _ _ _) as [[A F]|]; [|done].
  intros <-%(inj Some). unfold enip_flow. cbn. rewrite lookup_insert_eq. by destruct dir.
Qed.

Lemma enip_feed_reads chunks c n a k dir ts frames p :
  enip_ok n a → n + zlen (concat (c :: chunks)) ≤ u64_max →
  enip_carry (enip_flow a k) dir ++ concat (c :: chunks) = concat frames ++ p →
  Forall enip_frame frames → enip_partial p →
  enip_feed a k dir ts (c :: chunks) = enip_reads a k dir ts (zlen (concat (c :: chunks))) frames p.
Proof.
  intros Ha Hn Hb Hv Hp. pose proof (enip_partial_short _ Hp) as Hs. revert c n a frames Ha Hn Hb Hv.
  induction chunks as [|d chunks IH]; intros c n a frames Ha Hn Hb Hv.
  { cbn [concat enip_feed] in *. rewrite app_nil_r in *.
    rewrite (enip_on_data_reads a k c ts dir frames p); try done; [|by eapply enip_ok_latch].
    by destruct (enip_reads _ _ _ _ _ _ _). }
  change (concat (c :: d :: chunks)) with (c ++ concat (d :: chunks)) in *.
  rewrite app_assoc in Hb. rewrite zlen_app in *. pose proof (zlen_nonneg (concat (d :: chunks))).
  destruct (cut_frames enip_frame enip_partial frames _ _ p (or_introl eq_refl) enip_frame_prefix
    enip_partial_prefix Hv Hp Hb) as (fs & fs' & p1 & -> & Hb1 & Hb2 & Hp1).
  apply Forall_app in Hv as [Hv1 Hv2].
  change (enip_feed a k dir ts (c :: d :: chunks))
    with (a1 ← enip_on_data a k c ts dir; enip_feed a1 k dir ts (d :: chunks)).
  destruct (enip_on_data_ok n a k c ts dir Ha) as (a1 & E1 & Ha1); [lia|].
  rewrite E1. cbn [mbind option_bind].
  rewrite (enip_on_data_reads a k c ts dir fs p1) in E1;
    [|by eapply enip_ok_latch|done|done|done|by apply enip_partial_short].
  rewrite (IH d (n + zlen c) a1 fs'); [by eapply enip_reads_app|done|lia| |done].
  by rewrite (enip_reads_carry _ _ _ _ _ _ _ _ E1).
Qed.

(** A reading that succeeds counts its frames. *)
Lemma enip_reads_counts n a k dir ts total frames p a' :
  enip_ok n a → 0 ≤ total → n + total ≤ u64_max → zlen (concat frames) ≤ zlen (enip_carry (enip_flow a k) dir) + total →
  Forall enip_frame frames → enip_reads a k dir ts total frames p = Some a' →
  pdu_count (enip_flow a' k) = pdu_count (enip_flow a k) + zlen frames ∧
  flow_parse_errors (enip_flow a' k) = flow_parse_errors (enip_flow a k) ∧
  enip_carry (enip_flow a' k) dir = p.
Proof.
  intros Ha Ht0 Hn Hlen Hv E. pose proof (enip_reads_carry _ _ _ _ _ _ _ _ E) as Hc.
  destruct (enip_flow_out n a k Ha) as (Hf & Hw & _). fold (enip_flow a k) in Hf, Hw.
  destruct Ha as [_ _ (Hz & Hp & He) Hsp]. unfold closed_pdus in Hsp.
  assert (zlen frames ≤ zlen (concat frames)) as Hlf.
  { clear -Hv. induction Hv as [|fr frames (h & Eh & _ & Hl & _) _ IH]; [done|]. cbn [concat].
    apply parse_enip_header_length in Eh. rewrite zlen_cons, zlen_app. lia. }
  destruct Hf as [_ _ Hl Herr (Hp0 & Hpe & _) _ Htot]. unfold enip_weight at 2 in Hw.
  unfold enip_reads in E. set (f := expire_malformed_window (enip_flow a k) ts) in *.
  destruct (count_frames _ _) as [m|]; [|done].
  assert (is_non_enip f = is_non_enip (enip_flow a k) ∧ error_counts_in_window f = error_counts_in_window (enip_flow a k)
    ∧ pdu_count f = pdu_count (enip_flow a k) ∧ flow_parse_errors f = flow_parse_errors (enip_flow a k))
    as (E1 & E2 & E3 & E4).
  { unfold f, expire_malformed_window. by destruct (_ <? _). }
  assert (zlen (enip_carry (enip_flow a k) dir) ≤ enip_held (enip_flow a k)) as Hh.
  { unfold enip_held. pose proof (zlen_nonneg (carry_c2s (enip_flow a k))).
    pose proof (zlen_nonneg (carry_s2c (enip_flow a k))). destruct dir; cbn; lia. }
  destruct (dispatch_pdus_effect frames (a, f) (enip_source k ts dir)) as ([A F] & Ed & [[] _ _ Hcount]).
  { unfold errors_ok. cbn [snd]. by rewrite E2. }
  { unfold error_total in *. cbn [snd]. rewrite E2. lia. }
  { by rewrite <- Hl. }
  { cbn [snd]. pose proof (zlen_nonneg (enip_carry (enip_flow a k) dir)). rewrite E3. lia. }
  rewrite Ed in E. cbn [mbind option_bind] in E. apply (inj Some) in E as <-.
  assert (enip_flow (A <| bytes_received := sat_add u64_max (bytes_received a) total |>
    <| flows := <[k := set_enip_carry (F <| command_counts := m |>) dir p]> (flows a) |>) k
    = set_enip_carry (F <| command_counts := m |>) dir p) as Ef.
  { unfold enip_flow. cbn. by rewrite lookup_insert_eq. }
  rewrite Ef in *. cbn in Hcount, fk_errors0. pose proof (zlen_nonneg frames).
  split_and!; [| |done]; destruct dir; cbn; rewrite ?Hcount, ?fk_errors0; unfold sat_add; lia.
Qed.
End frames.

(** ** The summary *)

Lemma enip_totals_pdus (l : list EnipFlowState) pdus errors k dist :
  0 ≤ pdus → Forall (λ f, 0 ≤ pdu_count f) l → pdus + foldr Z.add 0 (pdu_count <$> l) ≤ u64_max →
  (foldl (λ '(pdus, errors, n, dist) f,
      (sat_add u64_max pdus (pdu_count f), sat_add u64_max errors (flow_parse_errors f),
       sat_add u64_max n 1, fold_counts dist (command_counts f)))
    (pdus, errors, k, dist) l).1.1.1 = pdus + foldr Z.add 0 (pdu_count <$> l).
Proof.
  intros Hp Hl. revert pdus errors k dist Hp. induction Hl as [|f l Hf Hl IH]; intros pdus errors k dist Hp Hs;
    cbn [foldl fmap list_fmap foldr] in *; [cbn; lia|].
  assert (0 ≤ foldr Z.add 0 (pdu_count <$> l)) by (clear -Hl; induction Hl; cbn in *; lia).
  rewrite IH; unfold sat_add; lia.
Qed.

Lemma enip_totals_sum n a : enip_ok n a → n ≤ u64_max →
  (enip_totals a).1.1.1 = total_pdu_count a + map_sum pdu_count (flows a) ∧
  (enip_totals a).1.1.1 ≤ n.
Proof.
  intros [_ Hf (Hz & Hp & He) Hs] Hn. unfold closed_pdus in Hs.
  assert (0 ≤ map_sum pdu_count (flows a) ≤ map_sum enip_weight (flows a)) as Hle.
  { apply map_sum_le. intros k f Hk. destruct (Hf k f Hk) as [_ _ _ _ (? & ? & _) _ _].
    unfold enip_weight, enip_held. pose proof (zlen_nonneg (carry_c2s f)).
    pose proof (zlen_nonneg (carry_s2c f)). lia. }
  unfold enip_totals. rewrite enip_totals_pdus; rewrite ?sum_map_to_list; [lia|done| |lia].
  apply list.Forall_fmap, list.Forall_forall. intros [k f] Hin. apply elem_of_map_to_list in Hin.
  by destruct (Hf k f Hin) as [_ _ _ _ (? & _) _ _].
Qed.

(** ** Encoders *)

Definition le16 (x : Z) : list Z := [x mod 2 ^ 8; x / 2 ^ 8].
Definition le32 (x : Z) : list Z :=
  [x mod 2 ^ 8; x / 2 ^ 8 mod 2 ^ 8; x / 2 ^ 16 mod 2 ^ 8; x / 2 ^ 24].

Definition encode_header (h : EnipHeader) : list Z :=
  le16 (command h) ++ le16 (enip_length h) ++ le32 (session_handle h) ++ le32 (status h)
    ++ sender_context h ++ le32 (options h).

Definition encode_items (items : list CpfItem) : list Z :=
  concat ((λ i, le16 (type_id i) ++ le16 (zlen (item_data i)) ++ item_data i) <$> items).

Definition encode_cpf (items : list CpfItem) : list Z := le16 (zlen items) ++ encode_items items.

Record is_header (h : EnipHeader) : Prop := {
  ih_command : is_u16 (command h);
  ih_length : is_u16 (enip_length h);
  ih_session : is_u32 (session_handle h);
  ih_status : is_u32 (status h);
  ih_context : zlen (sender_context h) = 8 ∧ Forall is_u8 (sender_context h);
  ih_options : is_u32 (options h)
}.

Lemma le16_u16 x : is_u16 x → u16_le (x mod 2 ^ 8) (x / 2 ^ 8) = x.
Proof.
  unfold is_u16, u16_max, u16_le, u16_be. intros Hx.
  pose proof (Z.div_mod x (2 ^ 8)). rewrite Z.mod_small; lia.
Qed.

Lemma u16_le16 a b : is_u8 a → is_u8 b → le16 (u16_le a b) = [a; b].
Proof.
  intros Ha Hb. unfold u16_le, le16. rewrite u16_be_small by done. unfold is_u8, u8_max in *.
  repeat f_equal.
  - rewrite Z.add_comm, Z.mod_add by lia. apply Z.mod_small. lia.
  - rewrite Z.div_add_l by lia. rewrite Z.div_small; lia.
Qed.

Lemma le32_u32 x : is_u32 x →
  u32_le (x mod 2 ^ 8) (x / 2 ^ 8 mod 2 ^ 8) (x / 2 ^ 16 mod 2 ^ 8) (x / 2 ^ 24) = x.
Proof.
  unfold is_u32, u32_max, u32_le, u32_be. intros Hx.
  assert (x = x mod 2 ^ 8 + x / 2 ^ 8 mod 2 ^ 8 * 2 ^ 8 + x / 2 ^ 16 mod 2 ^ 8 * 2 ^ 16 + x / 2 ^ 24 * 2 ^ 24) as E.
  { pose proof (Z.div_mod x (2 ^ 8)). pose proof (Z.div_mod (x / 2 ^ 8) (2 ^ 8)).
    pose proof (Z.div_mod (x / 2 ^ 16) (2 ^ 8)).
    assert (x / 2 ^ 8 / 2 ^ 8 = x / 2 ^ 16) by (rewrite Z.div_div; [done|lia|lia]).
    assert (x / 2 ^ 16 / 2 ^ 8 = x / 2 ^ 24) by (rewrite Z.div_div; [done|lia|lia]). lia. }
  rewrite <- E. apply Z.mod_small. lia.
Qed.

Lemma u32_le32 a b c d : is_u8 a → is_u8 b → is_u8 c → is_u8 d → le32 (u32_le a b c d) = [a; b; c; d].
Proof.
  unfold is_u8, u8_max, u32_le, u32_be, le32. intros Ha Hb Hc Hd.
  rewrite (Z.mod_small _ (2 ^ 32)) by lia.
  set (x := a + b * 2 ^ 8 + c * 2 ^ 16 + d * 2 ^ 24).
  assert (x / 2 ^ 8 = b + c * 2 ^ 8 + d * 2 ^ 16) as E1 by (symmetry; apply (Z.div_unique x _ _ a); unfold x; lia).
  assert (x / 2 ^ 16 = c + d * 2 ^ 8) as E2
    by (symmetry; apply (Z.div_unique x _ _ (a + b * 2 ^ 8)); unfold x; lia).
  assert (x / 2 ^ 24 = d) as E3
    by (symmetry; apply (Z.div_unique x _ _ (a + b * 2 ^ 8 + c * 2 ^ 16)); unfold x; lia).
  rewrite E1, E2, E3. repeat f_equal.
  - symmetry. apply (Z.mod_unique x _ (b + c * 2 ^ 8 + d * 2 ^ 16)); unfold x; lia.
  - symmetry. apply (Z.mod_unique _ _ (c + d * 2 ^ 8)); lia.
  - symmetry. apply (Z.mod_unique _ _ d); lia.
Qed.

Lemma encode_header_parse h rest : is_header h → parse_enip_header (encode_header h ++ rest) = Some h.
Proof.
  destruct h as [cmd len session st ctx opt]. intros [H1 H2 H3 H4 [H5 _] H6].
  cbn [command enip_length session_handle status sender_context options] in *.
  unfold encode_header. cbn [command enip_length session_handle status sender_context options].
  do 8 (destruct ctx as [|? ctx]; [by vm_compute in H5|]). destruct ctx as [|? ctx].
  2:{ rewrite !zlen_cons in H5. pose proof (zlen_nonneg ctx). lia. }
  cbn -[u16_le u32_le Z.modulo Z.div Z.pow]. by rewrite !le16_u16, !le32_u32.
Qed.

Lemma parse_header_encode l h :
  Forall is_u8 l → parse_enip_header l = Some h → is_header h ∧ encode_header h = take 24 l.
Proof.
  intros Hl E. do 24 (destruct l as [|? l]; [done|]). injection E as <-.
  repeat (apply list.Forall_cons in Hl as [? Hl]). split.
  - split; cbn; try apply u16_le_u16; try apply u32_be_u32. split; [done|].
    by repeat (apply list.Forall_cons; split).
  - unfold encode_header. cbn [command enip_length session_handle status sender_context options].
    by rewrite !u16_le16, !u32_le32.
Qed.

Lemma cpf_items_encode items rest :
  Forall (λ i, is_u16 (type_id i) ∧ is_u16 (zlen (item_data i))) items →
  cpf_items (length items) (encode_items items ++ rest) = items.
Proof.
  intros H. induction H as [|[t d] items [Ht Hd] _ IH]; [done|]. cbn [type_id item_data] in *.
  unfold encode_items in *. cbn [fmap list_fmap concat length]. unfold le16 at 1 2. cbn [app type_id item_data].
  cbn [cpf_items]. rewrite !le16_u16 by done. rewrite <- !app_assoc.
  destruct (Z.ltb_spec (zlen (d ++ concat
    ((λ i, le16 (type_id i) ++ le16 (zlen (item_data i)) ++ item_data i) <$> items) ++ rest)) (zlen d)) as [Hlt|_].
  { rewrite zlen_app in Hlt. match type of Hlt with _ + zlen ?x < _ => pose proof (zlen_nonneg x) end. lia. }
  by rewrite take_zlen_app, drop_zlen_app, IH.
Qed.

(** ** Oversized frames *)

Section oversized.
Context `{!IterOrder Z Z}.

(** An announced frame of more than 600 bytes, cut before its end. *)
Record oversized (l : list Z) (h : EnipHeader) : Prop := {
  ov_header : parse_enip_header l = Some h;
  ov_valid : is_valid_enip_frame h = true;
  ov_big : MAX_ENIP_CARRY_BYTES < 24 + enip_length h;
  ov_cut : zlen l ≤ 24 + enip_length h
}.

Lemma oversized_app l k h : oversized l h → zlen (l ++ k) ≤ 24 + enip_length h → oversized (l ++ k) h.
Proof. intros [E ? ? ?] H. split; try done. by apply parse_enip_header_app. Qed.

Lemma enip_header_len l h : parse_enip_header l = Some h → 24 ≤ zlen l.
Proof. intros E. do 24 (destruct l as [|? l]; [done|]). rewrite !zlen_cons. pose proof (zlen_nonneg l). lia. Qed.

(** What there is of it is dropped as one reject. *)
Lemma enip_walk_oversized fuel a f q l h m o :
  oversized l h → count_command f (command h) = Some m → (1 < fuel)%nat →
  enip_walk fuel (a, f) q l o = Some (enip_reject (a, m) o, q, []).
Proof.
  intros [E Hv Hb Hc] Em Hf. pose proof (enip_header_len _ _ E) as Hs.
  destruct fuel as [|fuel]; [lia|]. cbn [enip_walk].
  destruct (Z.ltb_spec (zlen l) 24); [lia|]. rewrite slice_Some by lia. cbn [mbind option_bind].
  change (drop (Z.to_nat 0) l) with l. change (Z.to_nat (24 - 0)) with 24%nat.
  rewrite (proj2 (parse_enip_header_take l h Hs) E), Hv. cbn [negb].
  destruct (Z.ltb_spec MAX_ENIP_CARRY_BYTES (24 + enip_length h)); [|lia].
  rewrite Em. cbn [mbind option_bind].
  rewrite Z.min_r by lia. rewrite drop_ge by (unfold zlen; lia).
  destruct fuel; [lia|done].
Qed.

Lemma oversized_delivery n a k data ts dir h :
  enip_ok n a → n + zlen data ≤ u64_max → enip_carry (enip_flow a k) dir = [] → oversized data h →
  ∃ a', enip_on_data a k data ts dir = Some a' ∧ enip_ok (n + zlen data) a' ∧
    enip_carry (enip_flow a' k) dir = [] ∧ pdu_count (enip_flow a' k) = pdu_count (enip_flow a k) ∧
    flow_parse_errors (enip_flow a' k) = sat_add u64_max (flow_parse_errors (enip_flow a k)) 1.
Proof.
  intros Ha Hn Hc Ho. destruct (enip_on_data_ok n a k data ts dir Ha Hn) as (a' & E & Ha').
  exists a'. split; [done|]. split; [done|]. pose proof (enip_header_len _ _ (ov_header _ _ Ho)).
  revert E. unfold enip_on_data. cbn zeta.
  match goal with |- context [default EnipFlowState_new ?x] => change x with (flows a !! k) end.
  fold (enip_flow a k). rewrite (enip_ok_latch n a k Ha). unfold enip_deliver.
  set (o := enip_source k ts dir). rewrite expire_carry, Hc. cbn [app].
  set (f := set_enip_carry (expire_malformed_window (enip_flow a k) (s_ts o)) dir []).
  assert (pdu_count f = pdu_count (enip_flow a k) ∧ flow_parse_errors f = flow_parse_errors (enip_flow a k)
    ∧ command_counts f = command_counts (enip_flow a k)) as (E1 & E2 & E3).
  { unfold f, expire_malformed_window. by destruct (_ <? _), dir. }
  destruct (count_command_Some f (command h)) as (m & _ & Em).
  { destruct (enip_flow_out n a k Ha) as [[_ _ _ _ _ Hcm _] _]. fold (enip_flow a k) in Hcm.
    specialize (Hcm (command h)). rewrite E3. unfold enip_held in Hcm.
    pose proof (zlen_nonneg (carry_c2s (enip_flow a k))). pose proof (zlen_nonneg (carry_s2c (enip_flow a k))). lia. }
  erewrite enip_walk_oversized; [|done|done|unfold zlen in *; lia]. unfold enip_reject.
  match goal with |- context [check_t0814 ?w o] => pose proof (check_t0814_keeps w o) as [[] _ _];
    destruct (check_t0814 w o) as [a1 f1] end.
  cbn [mbind option_bind dispatch_pdus fst snd] in *. unfold enip_carry_cap.
  replace (enip_carry (set_enip_carry f1 dir []) dir) with (@nil Z) by by destruct dir.
  change (MAX_ENIP_CARRY_BYTES <? zlen []) with false. cbn [mbind option_bind].
  intros <-%(inj Some). unfold enip_flow at 1 2 4. cbn [flows]. cbn. rewrite lookup_insert_eq. cbn in *.
  destruct dir; cbn; by rewrite fk_pdus0, fk_errors0, E1, E2.
Qed.
End oversized.

(** ** Theorems *)

(** The analyzer never panics and stays bounded.  Over any trace of at most
    2^64 - 1 delivered bytes, on any flows and with any timestamps, every
    delivery and close succeeds.  Afterwards at most 10,000 findings are held;
    every carry buffer is shorter than 600 bytes, so that the branch which
    gives up on a flow when a carry overflows is never taken and no flow is
    latched as non-ENIP; and the PDU count of the summary is the sum of the
    closed flows' and the open flows' counts, at most one per byte. *)
Theorem enip_bounded `{!IterOrder Z Z} write_burst error_burst es :
  trace_bytes es ≤ u64_max →
  ∃ a, replay (Some (EnipAnalyzer_new write_burst error_burst)) es = Some a ∧
    zlen (all_findings a) ≤ 10000 ∧
    (∀ k f, flows a !! k = Some f →
      zlen (carry_c2s f) < 600 ∧ zlen (carry_s2c f) < 600 ∧ is_non_enip f = false) ∧
    packets_analyzed (enip_summarize a) = total_pdu_count a + map_sum pdu_count (flows a) ∧
    packets_analyzed (enip_summarize a) ≤ trace_bytes es.
Proof.
  intros Hn. destruct (enip_replay_ok es 0 _ (enip_ok_new write_burst error_burst)) as (a & E & Ha); [lia|].
  destruct (enip_totals_sum _ a Ha) as [Hs Hle]; [lia|]. exists a.
  assert (packets_analyzed (enip_summarize a) = (enip_totals a).1.1.1) as ->.
  { unfold enip_summarize. by destruct (enip_totals a) as [[[? ?] ?] ?]. }
  split_and!; [done|apply Ha| |done|lia]. intros k f Hk. by destruct (en_flows _ _ Ha k f Hk).
Qed.

(** A RegisterSession frame and a ListIdentity frame. *)
Definition sample_register : list Z :=
  [0x65; 0; 4; 0] ++ replicate 20 0 ++ [1; 0; 0; 0].
Definition sample_identity : list Z := [0x63; 0; 0; 0] ++ replicate 20 0.
Definition sample_enip_key : FlowKey := FlowKey_new (V4 1) 40000 (V4 2) 44818.

Section samples.
#[local] Existing Instance list_iter_order.

Lemma enip_bounded_witness :
  ∃ a, replay (Some (EnipAnalyzer_new 20 10))
      [EData sample_enip_key ClientToServer (take 10 sample_register) 1 7;
       EData sample_enip_key ClientToServer (drop 10 sample_register ++ sample_identity) 11 8] = Some a ∧
    packets_analyzed (enip_summarize a) = 2 ∧ zlen (all_findings a) = 1.
Proof.
  destruct (enip_bounded 20 10 [EData sample_enip_key ClientToServer (take 10 sample_register) 1 7;
    EData sample_enip_key ClientToServer (drop 10 sample_register ++ sample_identity) 11 8])
    as (a & E & _); [vm_compute; discriminate|].
  exists a. split; [exact E|]. vm_compute in E. injection E as <-. split; reflexivity.
Defined.
End samples.

(** C22. Segmentation does not matter.  Take a flow that is not latched, with any
    bytes held in the direction of the delivery.  When these bytes followed by
    the deliveries at one timestamp are a sequence of complete frames and the
    beginning of another one (known commands, at most 600 bytes each), then
    however the bytes are cut into deliveries the analyzer ends in the same
    state as after one delivery of all of them, without a panic.  This state is
    the one [enip_reads] describes: every frame's command counted and every
    frame dispatched to the detectors, once each and in order; the PDU count
    goes up by the number of frames, the error count not at all, and exactly
    the incomplete frame stays in the carry. *)
Theorem enip_frames_any_chunking `{!IterOrder Z Z} n a k dir ts frames p c chunks :
  enip_ok n a → n + zlen (concat (c :: chunks)) ≤ u64_max →
  enip_carry (enip_flow a k) dir ++ concat (c :: chunks) = concat frames ++ p →
  Forall enip_frame frames → enip_partial p →
  ∃ a', enip_feed a k dir ts (c :: chunks) = Some a' ∧
    enip_on_data a k (concat (c :: chunks)) ts dir = Some a' ∧
    enip_reads a k dir ts (zlen (concat (c :: chunks))) frames p = Some a' ∧
    pdu_count (enip_flow a' k) = pdu_count (enip_flow a k) + zlen frames ∧
    flow_parse_errors (enip_flow a' k) = flow_parse_errors (enip_flow a k) ∧
    enip_carry (enip_flow a' k) dir = p.
Proof.
  intros Ha Hn Hb Hv Hp. destruct (enip_on_data_ok n a k _ ts dir Ha Hn) as (a' & E & _).
  pose proof (enip_on_data_reads a k (concat (c :: chunks)) ts dir frames p (enip_ok_latch n a k Ha)
    Hb Hv Hp (enip_partial_short _ Hp)) as Er. rewrite E in Er. symmetry in Er.
  exists a'. split; [by rewrite (enip_feed_reads chunks c n a k dir ts frames p), Er|].
  split; [done|]. split; [done|]. apply (f_equal zlen) in Hb. rewrite !zlen_app in Hb.
  apply (enip_reads_counts n a k dir ts (zlen (concat (c :: chunks))) frames p);
    [done|apply zlen_nonneg|done| |done|done]. pose proof (zlen_nonneg p). lia.
Qed.

Section samples.
#[local] Existing Instance list_iter_order.

Lemma sample_frames : Forall enip_frame [sample_register; sample_identity] ∧ enip_partial [0x63].
Proof.
  split; [|left; vm_compute; reflexivity].
  repeat (apply list.Forall_cons; split); [..|apply list.Forall_nil; exact I];
    (eexists; split; [reflexivity|]; split; [reflexivity|]; split; [reflexivity|vm_compute; discriminate]).
Defined.

Lemma enip_frames_any_chunking_witness :
  ∃ a, enip_feed (EnipAnalyzer_new 20 10) sample_enip_key ClientToServer 5
      [take 30 (sample_register ++ sample_identity); drop 30 (sample_register ++ sample_identity) ++ [0x63]]
      = Some a ∧ pdu_count (enip_flow a sample_enip_key) = 2 ∧
    carry_c2s (enip_flow a sample_enip_key) = [0x63].
Proof.
  destruct (enip_frames_any_chunking 0 (EnipAnalyzer_new 20 10) sample_enip_key ClientToServer 5
    [sample_register; sample_identity] [0x63] (take 30 (sample_register ++ sample_identity))
    [drop 30 (sample_register ++ sample_identity) ++ [0x63]]) as (a & E & _ & _ & Hp & _ & Hc).
  - apply enip_ok_new.
  - vm_compute. discriminate.
  - reflexivity.
  - apply sample_frames.
  - apply sample_frames.
  - exists a. split; [exact E|]. split; [exact Hp|exact Hc].
Defined.
End samples.

(** How an announced frame of more than 600 bytes is skipped depends on how
    it is cut.  The reject skips what has arrived of it and remembers nothing,
    so that the rest of its body is read as frames when it comes in a later
    delivery: bytes of the body that look like a frame are dispatched as a PDU
    when they are delivered on their own, and are skipped when they are
    delivered together with the header. *)
Theorem enip_oversized_body_reparsed `{!IterOrder Z Z} n a k dir ts big h fr :
  enip_ok n a → n + zlen big + zlen fr ≤ u64_max → enip_carry (enip_flow a k) dir = [] →
  oversized big h → zlen big + zlen fr ≤ 24 + enip_length h → enip_frame fr →
  ∃ cut whole, enip_feed a k dir ts [big; fr] = Some cut ∧ enip_feed a k dir ts [big ++ fr] = Some whole ∧
    pdu_count (enip_flow cut k) = pdu_count (enip_flow a k) + 1 ∧
    pdu_count (enip_flow whole k) = pdu_count (enip_flow a k).
Proof.
  intros Ha Hn Hc Ho Hl Hf. pose proof (zlen_nonneg fr).
  destruct (oversized_delivery n a k big ts dir h) as (a1 & E1 & Ha1 & Hc1 & Hp1 & _); [done|lia|done|done|].
  destruct (oversized_delivery n a k (big ++ fr) ts dir h) as (a2 & E2 & _ & _ & Hp2 & _);
    [done|rewrite zlen_app; lia|done| |].
  { apply oversized_app; [done|]. by rewrite zlen_app. }
  assert (Forall enip_frame [fr]) as Hv by by apply list.Forall_singleton.
  destruct (enip_on_data_ok _ a1 k fr ts dir Ha1) as (a3 & E3 & _); [lia|].
  pose proof E3 as Er. rewrite (enip_on_data_reads a1 k fr ts dir [fr] []) in Er;
    [|by eapply enip_ok_latch|by rewrite Hc1; cbn; rewrite !app_nil_r|done|by left|done].
  apply (enip_reads_counts (n + zlen big) a1) in Er as (Hp3 & _ & _); [|done|done|lia| |done].
  2:{ cbn. rewrite app_nil_r. pose proof (zlen_nonneg (enip_carry (enip_flow a1 k) dir)). lia. }
  exists a3, a2. unfold enip_feed. rewrite E1, E2. cbn [mbind option_bind]. rewrite E3.
  split_and!; [done|done|rewrite Hp3, Hp1; done|done].
Qed.

Section samples.
#[local] Existing Instance list_iter_order.

(** A SendRRData header that announces 676 bytes of body. *)
Definition sample_big : list Z := [0x6F; 0; 0xA4; 2] ++ replicate 20 0.

Lemma enip_oversized_body_reparsed_witness :
  ∃ cut whole,
    enip_feed (EnipAnalyzer_new 20 10) sample_enip_key ClientToServer 5 [sample_big; sample_identity] = Some cut ∧
    enip_feed (EnipAnalyzer_new 20 10) sample_enip_key ClientToServer 5 [sample_big ++ sample_identity] = Some whole ∧
    zlen (all_findings cut) = 1 ∧ zlen (all_findings whole) = 0.
Proof.
  destruct (enip_oversized_body_reparsed 0 (EnipAnalyzer_new 20 10) sample_enip_key ClientToServer 5
    sample_big (mkEnipHeader 0x6F 676 0 0 (replicate 8 0) 0) sample_identity) as (cut & whole & E1 & E2 & _).
  - apply enip_ok_new.
  - vm_compute. discriminate.
  - reflexivity.
  - split; [reflexivity|reflexivity|reflexivity|vm_compute; discriminate].
  - vm_compute. discriminate.
  - eexists. split; [reflexivity|]. split; [reflexivity|]. split; [reflexivity|vm_compute; discriminate].
  - exists cut, whole. split; [exact E1|]. split; [exact E2|].
    vm_compute in E1, E2. injection E1 as <-. injection E2 as <-. split; reflexivity.
Defined.
End samples.

(** Header parsing is exact and well typed.  On bytes, a header is parsed
    if and only if there are at least 24; its fields are of their declared
    widths, with eight bytes of context, and encode back to the 24 bytes that
    were read; every header of such widths is parsed back from its encoding,
    whatever follows; and the validity check accepts exactly the commands that
    have a class. *)
Theorem enip_header_typed l :
  Forall is_u8 l →
  (is_Some (parse_enip_header l) ↔ 24 ≤ zlen l) ∧
  (∀ h, parse_enip_header l = Some h → is_header h ∧ encode_header h = take 24 l) ∧
  (∀ h, is_header h → parse_enip_header (encode_header h ++ l) = Some h) ∧
  (∀ h, is_valid_enip_frame h = true ↔ classify_enip_command (command h) ≠ UnknownCommand).
Proof.
  intros Hl. split_and!.
  - split; [intros [h E]; by eapply enip_header_len|apply parse_enip_header_Some].
  - intros h. by apply parse_header_encode.
  - intros h. apply encode_header_parse.
  - intros h. unfold is_valid_enip_frame. rewrite bool_decide_eq_true. split.
    + intros H. repeat (apply elem_of_cons in H as [->|H]; [done|]). by apply elem_of_nil in H.
    + unfold classify_enip_command. intros H. repeat (case_match; try done); set_solver.
Qed.

Lemma enip_header_typed_witness :
  parse_enip_header (encode_header (mkEnipHeader 0x6F 676 0xDEADBEEF 0 [1; 2; 3; 4; 5; 6; 7; 8] 9) ++ [0; 255])
    = Some (mkEnipHeader 0x6F 676 0xDEADBEEF 0 [1; 2; 3; 4; 5; 6; 7; 8] 9).
Proof.
  apply (enip_header_typed [0; 255]).
  - repeat (apply list.Forall_cons; split); [..|apply list.Forall_nil; exact I]; vm_compute; split; discriminate.
  - split; cbn; try (vm_compute; split; discriminate). split; [reflexivity|].
    repeat (apply list.Forall_cons; split); [..|apply list.Forall_nil; exact I]; vm_compute; split; discriminate.
Defined.

(** The items of the Common Packet Format round trip: for fewer than 2^16
    items with 16-bit types and 16-bit lengths, parsing their encoding gives
    them back, in order, whatever bytes follow. *)
Theorem cpf_roundtrip items rest :
  is_u16 (zlen items) → Forall (λ i, is_u16 (type_id i) ∧ is_u16 (zlen (item_data i))) items →
  parse_cpf_items (encode_cpf items ++ rest) = items.
Proof.
  intros Hn Hi. unfold encode_cpf, le16 at 1. cbn [app parse_cpf_items]. rewrite le16_u16 by done.
  unfold zlen. rewrite Nat2Z.id. by apply cpf_items_encode.
Qed.

Lemma cpf_roundtrip_witness :
  parse_cpf_items (encode_cpf [mkCpfItem 0 []; mkCpfItem 0x00B2 [0x0E; 0]] ++ [1; 2; 3])
    = [mkCpfItem 0 []; mkCpfItem 0x00B2 [0x0E; 0]].
Proof.
  apply cpf_roundtrip; [vm_compute; split; discriminate|].
  repeat (apply list.Forall_cons; split); [..|apply list.Forall_nil; exact I]; vm_compute; repeat split; discriminate.
Defined.
