(* ===== verification/Arp.v ===== *)
(** * The ARP analyzer (src/analyzer/arp.rs)

    The bounded table of IP to MAC bindings, the per-sender storm counters and
    the detectors: spoofing (D1), gratuitous ARP (D2), storms (D3), malformed
    frames (D11) and sender mismatches (D12).  The translation comes first; the
    theorems are in [ArpProps].  The two tables are hash maps whose iteration
    order decides which of several oldest entries is evicted: it is a
    parameter. *)

From S2P Require Import Prelude FlowKey Handler Findings.

#[local] Open Scope Z_scope.

Definition MAX_ARP_BINDINGS : Z := 65536.
Definition SPOOF_REBIND_ESCALATION_DEFAULT : Z := 3.
Definition ARP_FLAP_WINDOW_SECS : Z := 60.
Definition ARP_STORM_RATE_DEFAULT : Z := 50.
Definition MAX_STORM_COUNTERS : Z := 4096.

Record BindingEntry := mkBinding {
  mac : Mac;
  rebind_count : Z;
  first_rebind_ts : option Z;
  spoof_high_emitted : bool;
  last_seen_ts : Z
}.

#[global] Instance BindingEntry_eta : Eta BindingEntry := λ e,
  mkBinding (mac e) (rebind_count e) (first_rebind_ts e) (spoof_high_emitted e) (last_seen_ts e).

Record StormCounter := mkStorm {
  count_in_window : Z;
  window_start_ts : Z;
  storm_emitted : bool
}.

#[global] Instance StormCounter_eta : Eta StormCounter := λ e,
  mkStorm (count_in_window e) (window_start_ts e) (storm_emitted e).

Record ArpAnalyzer := mkArp {
  bindings : gmap Ip4 BindingEntry;
  storm_counters : gmap Mac StormCounter;
  spoof_threshold : Z;
  storm_rate : Z;
  frames_analyzed : Z;
  request_count : Z;
  reply_count : Z;
  other_opcode_count : Z;
  spoof_findings : Z;
  garp_findings : Z;
  storm_findings : Z;
  mismatch_findings : Z;
  malformed_findings : Z;
  malformed_frames : Z;
  bindings_evicted : Z;
  storm_counters_evicted : Z
}.

#[global] Instance ArpAnalyzer_eta : Eta ArpAnalyzer := λ a,
  mkArp (bindings a) (storm_counters a) (spoof_threshold a) (storm_rate a) (frames_analyzed a)
    (request_count a) (reply_count a) (other_opcode_count a) (spoof_findings a) (garp_findings a)
    (storm_findings a) (mismatch_findings a) (malformed_findings a) (malformed_frames a)
    (bindings_evicted a) (storm_counters_evicted a).

Definition ArpAnalyzer_new (spoof_threshold storm_rate : Z) : ArpAnalyzer :=
  mkArp ∅ ∅ spoof_threshold storm_rate 0 0 0 0 0 0 0 0 0 0 0 0.

Definition ArpAnalyzer_default : ArpAnalyzer :=
  ArpAnalyzer_new SPOOF_REBIND_ESCALATION_DEFAULT ARP_STORM_RATE_DEFAULT.

Definition is_gratuitous_arp (frame : ArpFrame) : bool :=
  bool_decide (sender_ip frame = target_ip frame).

(** ** Findings *)

(** [{:02X}:{:02X}:…] and [{}.{}.{}.{}]. *)
Definition mac_text (m : Mac) : fmt :=
  let '(b0, b1, b2, b3, b4, b5) := m in
  Lit (String.concat ":" (hex_pair <$> [b0; b1; b2; b3; b4; b5])).

Definition ip_text (ip : Ip4) : text :=
  let '(b0, b1, b2, b3) := ip in [Num b0; Lit "."; Num b1; Lit "."; Num b2; Lit "."; Num b3].

Definition arp_finding (v : Verdict) (c : Confidence) (summary : text) (evidence : list text)
    (techniques : list string) : Finding := {|
  category := Anomaly; verdict := v; confidence := c; summary := summary; evidence := evidence;
  mitre_techniques := techniques; source_ip := None; timestamp := None; direction := None
|}.

Definition spoof_techniques : list string := ["T0830"; "T1557.002"]%string.

Definition mismatch_finding (eth_mac : Mac) (frame : ArpFrame) : Finding :=
  arp_finding Possible Medium
    [Lit "D12: L2/L3 sender-MAC mismatch — Ethernet src MAC differs from ARP sender HW addr"]
    [[Lit "eth_src_mac="; mac_text eth_mac]; [Lit "arp_sender_mac="; mac_text (sender_mac frame)];
     Lit "sender_ip=" :: ip_text (sender_ip frame)] spoof_techniques.

Definition d1_finding (high : bool) (sender_ip : Ip4) (old_mac new_mac : Mac) : Finding :=
  arp_finding (if high then Likely else Possible) (if high then High else Medium)
    (Lit "D1: ARP Spoof — IP→MAC rebind detected for sender_ip=" :: ip_text sender_ip)
    [Lit "sender_ip=" :: ip_text sender_ip; [Lit "old_mac="; mac_text old_mac];
     [Lit "new_mac="; mac_text new_mac]] spoof_techniques.

Definition garp_conflict_finding (frame : ArpFrame) : Finding :=
  arp_finding Possible Low
    [Lit "D2: Gratuitous ARP (GARP) with binding conflict — sender_ip equals target_ip and conflicts with an existing IP→MAC binding"]
    [Lit "sender_ip=" :: ip_text (sender_ip frame); [Lit "operation="; Num (operation frame)]] [].

Definition garp_finding (frame : ArpFrame) : Finding :=
  arp_finding Possible Low
    [Lit "D2: Gratuitous ARP (GARP) — sender_ip equals target_ip"]
    [Lit "sender_ip=" :: ip_text (sender_ip frame); [Lit "operation="; Num (operation frame)]] [].

Definition storm_finding (mac : Mac) (frame_count window_secs rate_pps : Z) : Finding :=
  arp_finding Possible Medium
    [Lit "D3: ARP storm detected — high ARP frame rate from source MAC "; mac_text mac]
    [[Lit "source_mac="; mac_text mac]; [Lit "frame_count="; Num frame_count];
     [Lit "window_secs="; Num window_secs]; [Lit "rate_pps="; Num rate_pps]] [].

(** ** The two tables *)

Section analyzer.
Context `{!IterOrder Ip4 BindingEntry, !IterOrder Mac StormCounter}.

Definition insert_binding_lru (bindings : gmap Ip4 BindingEntry) (ip : Ip4) (m : Mac) (cap : Z) :
    gmap Ip4 BindingEntry * bool :=
  match bindings !! ip with
  | Some entry => (<[ip := entry <| mac := m |>]> bindings, false)
  | None =>
      let '(bindings, evicted) :=
        if cap <=? Z.of_nat (size bindings) then (evict_oldest last_seen_ts bindings, true)
        else (bindings, false) in
      (<[ip := mkBinding m 0 None false 0]> bindings, evicted)
  end.

Definition insert_storm_counter_lru (a : ArpAnalyzer) (source_mac : Mac) (ts : Z) : ArpAnalyzer :=
  let a :=
    if negb (bool_decide (is_Some (storm_counters a !! source_mac)))
       && (MAX_STORM_COUNTERS <=? Z.of_nat (size (storm_counters a)))
    then a <| storm_counters := evict_oldest window_start_ts (storm_counters a) |>
           <| storm_counters_evicted := sat_add u64_max (storm_counters_evicted a) 1 |>
    else a in
  a <| storm_counters := <[source_mac := mkStorm 1 ts false]> (storm_counters a) |>.

(** ** Detectors *)

Definition in_storm_window (a : ArpAnalyzer) (source_mac : Mac) (ts : Z) : bool :=
  match storm_counters a !! source_mac with
  | Some entry => sat_sub ts (window_start_ts entry) <=? ARP_FLAP_WINDOW_SECS
  | None => false
  end.

Definition detect_storm (a : ArpAnalyzer) (source_mac : Mac) (ts : Z) :
    ArpAnalyzer * option Finding :=
  let a :=
    if negb (in_storm_window a source_mac ts) then insert_storm_counter_lru a source_mac ts
    else match storm_counters a !! source_mac with
         | Some entry =>
             a <| storm_counters :=
               <[source_mac := entry <| count_in_window :=
                   sat_add u64_max (count_in_window entry) 1 |>]> (storm_counters a) |>
         | None => a
         end in
  match storm_counters a !! source_mac with
  | None => (a, None)
  | Some entry =>
      let elapsed := sat_sub ts (window_start_ts entry) in
      let denominator := Z.max elapsed 1 in
      let rate := count_in_window entry / denominator in
      if (storm_rate a <=? rate) && negb (storm_emitted entry) then
        (a <| storm_counters :=
             <[source_mac := entry <| storm_emitted := true |>]> (storm_counters a) |>,
         Some (storm_finding source_mac (count_in_window entry) elapsed rate))
      else (a, None)
  end.

(** Steps 1 to 3 of a rebind; the MAC is written by the caller. *)
Definition emit_d1_spoof_finding_impl (entry : BindingEntry) (sender_ip : Ip4)
    (old_mac new_mac : Mac) (ts spoof_threshold : Z) : panicky (BindingEntry * Finding) :=
  let entry :=
    match first_rebind_ts entry with
    | Some first_ts =>
        if ARP_FLAP_WINDOW_SECS <? sat_sub ts first_ts
        then entry <| rebind_count := 0 |> <| first_rebind_ts := None |>
                   <| spoof_high_emitted := false |>
        else entry
    | None => entry
    end in
  let entry := entry <| rebind_count := sat_add u32_max (rebind_count entry) 1 |> in
  let entry := if decide (first_rebind_ts entry = None) then entry <| first_rebind_ts := Some ts |>
               else entry in
  first_ts ← first_rebind_ts entry;
  let elapsed := sat_sub ts first_ts in
  let high := (spoof_threshold <=? rebind_count entry) && (elapsed <=? ARP_FLAP_WINDOW_SECS)
              && negb (spoof_high_emitted entry) in
  let entry := if high then entry <| spoof_high_emitted := true |> else entry in
  Some (entry, d1_finding high sender_ip old_mac new_mac).

Definition apply_garp_conflict_escalation_impl (entry : BindingEntry) (garp_low : Finding)
    (sender_ip : Ip4) (new_mac : Mac) (ts spoof_threshold : Z) :
    panicky (BindingEntry * Finding * Finding) :=
  let upgraded_garp :=
    garp_low <| confidence := Medium |> <| mitre_techniques := spoof_techniques |> in
  '(entry, d1) ← emit_d1_spoof_finding_impl entry sender_ip (mac entry) new_mac ts spoof_threshold;
  Some (entry, upgraded_garp, d1).

(** ** One frame *)

Definition count_opcode (a : ArpAnalyzer) (operation : Z) : ArpAnalyzer :=
  let a := a <| frames_analyzed := sat_add u64_max (frames_analyzed a) 1 |> in
  match operation with
  | 1 => a <| request_count := sat_add u64_max (request_count a) 1 |>
  | 2 => a <| reply_count := sat_add u64_max (reply_count a) 1 |>
  | _ => a <| other_opcode_count := sat_add u64_max (other_opcode_count a) 1 |>
  end.

Definition check_mismatch (a : ArpAnalyzer) (frame : ArpFrame) : ArpAnalyzer * list Finding :=
  match outer_src_mac frame with
  | Some eth_mac =>
      if decide (eth_mac ≠ sender_mac frame)
      then (a <| mismatch_findings := sat_add u64_max (mismatch_findings a) 1 |>,
            [mismatch_finding eth_mac frame])
      else (a, [])
  | None => (a, [])
  end.

Definition check_storm (a : ArpAnalyzer) (frame : ArpFrame) (ts : Z) : ArpAnalyzer * list Finding :=
  match detect_storm a (sender_mac frame) ts with
  | (a, Some f) => (a <| storm_findings := sat_add u64_max (storm_findings a) 1 |>, [f])
  | (a, None) => (a, [])
  end.

(** [self.bindings.get_mut(&ip)], then a write through the reference. *)
Definition touch (a : ArpAnalyzer) (ip : Ip4) (f : BindingEntry → BindingEntry) : ArpAnalyzer :=
  match bindings a !! ip with
  | Some entry => a <| bindings := <[ip := f entry]> (bindings a) |>
  | None => a
  end.

(** A gratuitous frame that contradicts a binding. *)
Definition garp_conflict (a : ArpAnalyzer) (frame : ArpFrame) (ts : Z) :
    panicky (ArpAnalyzer * list Finding) :=
  entry ← bindings a !! sender_ip frame;
  '(entry, upgraded_garp, d1) ← apply_garp_conflict_escalation_impl entry
    (garp_conflict_finding frame) (sender_ip frame) (sender_mac frame) ts (spoof_threshold a);
  let a := a <| bindings := <[sender_ip frame := entry]> (bindings a) |>
             <| garp_findings := sat_add u64_max (garp_findings a) 1 |>
             <| spoof_findings := sat_add u64_max (spoof_findings a) 1 |> in
  entry ← bindings a !! sender_ip frame;
  Some (a <| bindings := <[sender_ip frame :=
            entry <| last_seen_ts := ts |> <| mac := sender_mac frame |>]> (bindings a) |>,
        [upgraded_garp; d1]).

(** [insert_binding_lru] with the eviction counted. *)
Definition learn (a : ArpAnalyzer) (frame : ArpFrame) : ArpAnalyzer :=
  let '(b, evicted) :=
    insert_binding_lru (bindings a) (sender_ip frame) (sender_mac frame) MAX_ARP_BINDINGS in
  let a := a <| bindings := b |> in
  if evicted : bool then a <| bindings_evicted := sat_add u64_max (bindings_evicted a) 1 |> else a.

Definition garp_benign (a : ArpAnalyzer) (frame : ArpFrame) (ts : Z) : ArpAnalyzer * list Finding :=
  let a := a <| garp_findings := sat_add u64_max (garp_findings a) 1 |> in
  let a := if bool_decide (is_Some (bindings a !! sender_ip frame)) then a else learn a frame in
  (touch a (sender_ip frame) (λ e, e <| last_seen_ts := ts |> <| mac := sender_mac frame |>),
   [garp_finding frame]).

(** Any other frame: an existing binding is refreshed and compared, a new one
    learned. *)
Definition observe (a : ArpAnalyzer) (frame : ArpFrame) (ts : Z) :
    panicky (ArpAnalyzer * list Finding) :=
  match bindings a !! sender_ip frame with
  | Some entry =>
      let entry := entry <| last_seen_ts := ts |> in
      if decide (mac entry ≠ sender_mac frame) then
        '(entry, d1) ← emit_d1_spoof_finding_impl entry (sender_ip frame) (mac entry)
          (sender_mac frame) ts (spoof_threshold a);
        let a := a <| bindings := <[sender_ip frame := entry]> (bindings a) |>
                   <| spoof_findings := sat_add u64_max (spoof_findings a) 1 |> in
        entry ← bindings a !! sender_ip frame;
        Some (a <| bindings := <[sender_ip frame := entry <| mac := sender_mac frame |>]> (bindings a) |>,
              [d1])
      else Some (a <| bindings := <[sender_ip frame := entry]> (bindings a) |>, [])
  | None => Some (touch (learn a frame) (sender_ip frame) (λ e, e <| last_seen_ts := ts |>), [])
  end.

Definition has_conflict (a : ArpAnalyzer) (frame : ArpFrame) : bool :=
  match bindings a !! sender_ip frame with
  | Some e => bool_decide (mac e ≠ sender_mac frame)
  | None => false
  end.

Definition filtered (frame : ArpFrame) : bool :=
  bool_decide (sender_ip frame = (0, 0, 0, 0)) || bool_decide (sender_ip frame = (255, 255, 255, 255)).

Definition process_arp (a : ArpAnalyzer) (frame : ArpFrame) (ts : Z) :
    panicky (ArpAnalyzer * list Finding) :=
  let a := count_opcode a (operation frame) in
  if filtered frame then Some (a, [])
  else
    let '(a, mismatch) := check_mismatch a frame in
    let '(a, storm) := check_storm a frame ts in
    '(a, found) ←
      (if is_gratuitous_arp frame then
         if has_conflict a frame then garp_conflict a frame ts else Some (garp_benign a frame ts)
       else observe a frame ts);
    Some (a, mismatch ++ storm ++ found).
End analyzer.

(** ** Malformed frames and the summary *)

Definition malformed_finding (packet_len : Z) : Finding :=
  arp_finding Possible Low
    [Lit "D11: Malformed ARP frame — Non-Ethernet/IPv4 ARP frame (non-standard HW/proto address sizes or types)"]
    [[Lit "Non-Ethernet/IPv4 ARP frame"]; [Lit "packet_len="; Num packet_len]] [].

Definition record_malformed (a : ArpAnalyzer) (packet_len : Z) : ArpAnalyzer * list Finding :=
  (a <| malformed_frames := sat_add u64_max (malformed_frames a) 1 |>
     <| malformed_findings := sat_add u64_max (malformed_findings a) 1 |>,
   [malformed_finding packet_len]).

Definition arp_summarize (a : ArpAnalyzer) : AnalysisSummary := {|
  analyzer_name := "ARP";
  packets_analyzed := frames_analyzed a;
  detail := list_to_map [
    ("frames_analyzed"%string, JNum (frames_analyzed a));
    ("request_count"%string, JNum (request_count a));
    ("reply_count"%string, JNum (reply_count a));
    ("other_opcode_count"%string, JNum (other_opcode_count a));
    ("bindings_tracked"%string, JNum (Z.of_nat (size (bindings a))));
    ("spoof_findings"%string, JNum (spoof_findings a));
    ("garp_findings"%string, JNum (garp_findings a));
    ("storm_findings"%string, JNum (storm_findings a));
    ("mismatch_findings"%string, JNum (mismatch_findings a));
    ("malformed_findings"%string, JNum (malformed_findings a));
    ("malformed_frames"%string, JNum (malformed_frames a));
    ("bindings_evicted"%string, JNum (bindings_evicted a));
    ("storm_counters_evicted"%string, JNum (storm_counters_evicted a))]
|}.
