(* ===== verification/ArpProps.v ===== *)
(** * Theorems about the ARP analyzer

    Totality and bounds of the tables, the binding table as the last claim made
    for every address with spoof findings exactly at the changes, escalation
    once per flap window, storm findings against a reference. *)

From S2P Require Import Prelude FlowKey Handler Findings Arp.

#[local] Open Scope Z_scope.

(** Which detector a finding comes from. *)
Definition detector (x : Finding) : string :=
  match summary x with Lit s :: _ => String.substring 0 3 s | _ => ""%string end.

Definition from (d : string) (fs : list Finding) : list Finding := filter (λ x, detector x = d) fs.

Lemma from_app d fs gs : from d (fs ++ gs) = from d fs ++ from d gs.
Proof. apply filter_app. Qed.

Section analyzer.
Context `{!IterOrder Ip4 BindingEntry, !IterOrder Mac StormCounter}.

(** ** Bindings *)

(** The flap state of a binding at a rebind, and whether the finding is HIGH. *)
Definition flap (e : BindingEntry) (ts thr : Z) : BindingEntry * bool :=
  let e :=
    match first_rebind_ts e with
    | Some t => if ARP_FLAP_WINDOW_SECS <? sat_sub ts t
                then e <| rebind_count := 0 |> <| first_rebind_ts := None |>
                       <| spoof_high_emitted := false |>
                else e
    | None => e
    end in
  let t0 := default ts (first_rebind_ts e) in
  let e := e <| rebind_count := sat_add u32_max (rebind_count e) 1 |> <| first_rebind_ts := Some t0 |> in
  let high := (thr <=? rebind_count e) && (sat_sub ts t0 <=? ARP_FLAP_WINDOW_SECS)
              && negb (spoof_high_emitted e) in
  (if high then e <| spoof_high_emitted := true |> else e, high).

Lemma emit_d1_flap e ip old new ts thr :
  emit_d1_spoof_finding_impl e ip old new ts thr
    = Some ((flap e ts thr).1, d1_finding (flap e ts thr).2 ip old new).
Proof.
  unfold emit_d1_spoof_finding_impl, flap.
  set (e0 := match first_rebind_ts e with Some _ => _ | None => _ end). clearbody e0.
  destruct (first_rebind_ts e0) as [t|] eqn:E.
  - rewrite decide_False by (cbn; by rewrite E). cbn. rewrite E. cbn.
    replace (e0 <| rebind_count := sat_add u32_max (rebind_count e0) 1 |> <| first_rebind_ts := Some t |>)
      with (e0 <| rebind_count := sat_add u32_max (rebind_count e0) 1 |>)
      by (destruct e0; cbn in *; by rewrite E). done.
  - rewrite decide_True by (cbn; by rewrite E). done.
Qed.

(** The flap state does not depend on who claims the address and when. *)
Definition claim (e : BindingEntry) (m : Mac) (ts : Z) : BindingEntry :=
  e <| last_seen_ts := ts |> <| mac := m |>.

Lemma flap_seen e ts thr t :
  flap (e <| last_seen_ts := t |>) ts thr = ((flap e ts thr).1 <| last_seen_ts := t |>, (flap e ts thr).2).
Proof.
  unfold flap. destruct e as [m n [t0|] em l]; cbn; [destruct (_ <? _); cbn|]; by destruct (_ && _).
Qed.

(** The binding of the sender after a frame, and the spoof findings of it. *)
Definition claimed (b : option BindingEntry) (frame : ArpFrame) (ts thr : Z) : BindingEntry :=
  match b with
  | None => mkBinding (sender_mac frame) 0 None false ts
  | Some e => claim (if decide (mac e = sender_mac frame) then e else (flap e ts thr).1)
                (sender_mac frame) ts
  end.

Definition spoof_alarms (b : option BindingEntry) (frame : ArpFrame) (ts thr : Z) : list Finding :=
  match b with
  | None => []
  | Some e =>
      if decide (mac e = sender_mac frame) then []
      else [d1_finding (flap e ts thr).2 (sender_ip frame) (mac e) (sender_mac frame)]
  end.

(** The table after room was made for [ip]. *)
Definition room : gmap Ip4 BindingEntry → Ip4 → gmap Ip4 BindingEntry :=
  make_room last_seen_ts MAX_ARP_BINDINGS.

Lemma room_known b ip e : b !! ip = Some e → room b ip = b.
Proof. apply make_room_known. Qed.

Lemma learn_bindings a frame :
  bindings a !! sender_ip frame = None → ∃ n,
  learn a frame = a
    <| bindings := <[sender_ip frame := mkBinding (sender_mac frame) 0 None false 0]>
                     (room (bindings a) (sender_ip frame)) |>
    <| bindings_evicted := n |>.
Proof.
  intros E. unfold learn, insert_binding_lru, room, make_room. rewrite E.
  rewrite bool_decide_eq_true_2 by done. cbn [andb]. destruct (_ <=? _); [by eexists|].
  exists (bindings_evicted a). by destruct a.
Qed.

(** What a frame that is not filtered does to the bindings. *)
Record recorded (a a' : ArpAnalyzer) (frame : ArpFrame) (ts : Z) : Prop := {
  rc_bindings : bindings a' =
    <[sender_ip frame := claimed (bindings a !! sender_ip frame) frame ts (spoof_threshold a)]>
      (room (bindings a) (sender_ip frame));
  rc_storm : storm_counters a' = storm_counters a;
  rc_thresholds : spoof_threshold a' = spoof_threshold a ∧ storm_rate a' = storm_rate a
}.

Lemma garp_conflict_spec a frame ts e :
  bindings a !! sender_ip frame = Some e → mac e ≠ sender_mac frame → ∃ a',
    garp_conflict a frame ts = Some (a',
      (garp_conflict_finding frame) <| confidence := Medium |> <| mitre_techniques := spoof_techniques |>
        :: spoof_alarms (Some e) frame ts (spoof_threshold a)) ∧
    recorded a a' frame ts.
Proof.
  intros E Hne. unfold garp_conflict, apply_garp_conflict_escalation_impl. rewrite E. cbn [mbind option_bind].
  rewrite emit_d1_flap. cbn [mbind option_bind]. cbn. rewrite lookup_insert_eq. cbn.
  unfold spoof_alarms. rewrite decide_False by done. eexists. split; [done|].
  split; [|done|done]. cbn. rewrite insert_insert_eq, (room_known _ _ _ E), E.
  unfold claimed. by rewrite decide_False.
Qed.

Lemma garp_benign_spec a frame ts :
  has_conflict a frame = false → ∃ a',
    garp_benign a frame ts = (a', garp_finding frame
      :: spoof_alarms (bindings a !! sender_ip frame) frame ts (spoof_threshold a)) ∧
    recorded a a' frame ts.
Proof.
  unfold has_conflict, garp_benign. cbn zeta. intros Hc.
  destruct (bindings a !! sender_ip frame) as [e|] eqn:E.
  - apply bool_decide_eq_false, dec_stable in Hc. unfold spoof_alarms. rewrite decide_True by done.
    rewrite bool_decide_eq_true_2 by (cbn; rewrite E; by eexists).
    eexists. split; [done|]. unfold touch. cbn. rewrite E. split; [|done|done]. cbn.
    rewrite (room_known _ _ _ E), E. unfold claimed. by rewrite decide_True.
  - rewrite bool_decide_eq_false_2 by (cbn; rewrite E; by apply is_Some_None).
    set (a1 := a <| garp_findings := sat_add u64_max (garp_findings a) 1 |>).
    destruct (learn_bindings a1 frame E) as [n ->]. unfold a1, touch. cbn. rewrite lookup_insert_eq. eexists. split; [done|].
    split; [|done|done]. cbn. by rewrite insert_insert_eq, E.
Qed.

Lemma observe_spec a frame ts : ∃ a',
  observe a frame ts
    = Some (a', spoof_alarms (bindings a !! sender_ip frame) frame ts (spoof_threshold a)) ∧
  recorded a a' frame ts.
Proof.
  unfold observe. destruct (bindings a !! sender_ip frame) as [e|] eqn:E.
  - cbn zeta. change (mac (e <| last_seen_ts := ts |>)) with (mac e). unfold spoof_alarms.
    destruct (decide (mac e = sender_mac frame)) as [Heq|Hne].
    + rewrite decide_False by (by intros []). eexists. split; [done|]. split; [|done|done]. cbn.
      rewrite (room_known _ _ _ E), E. unfold claimed. rewrite decide_True by done.
      rewrite <- Heq. by destruct e.
    + rewrite decide_True by done. rewrite emit_d1_flap, flap_seen.
      cbn [mbind option_bind]. cbn. rewrite lookup_insert_eq. cbn. eexists. split; [done|].
      split; [|done|done]. cbn. rewrite insert_insert_eq, (room_known _ _ _ E), E.
      unfold claimed. by rewrite decide_False.
  - destruct (learn_bindings a frame E) as [n ->]. unfold touch. cbn. rewrite lookup_insert_eq.
    eexists. split; [done|]. split; [|done|done]. cbn. by rewrite insert_insert_eq, E.
Qed.

(** ** Storm counters *)

(** The counter of a sender after a frame at [ts], before the rate is looked at. *)
Definition storm_tick (c : option StormCounter) (ts : Z) : StormCounter :=
  match c with
  | Some e => if sat_sub ts (window_start_ts e) <=? ARP_FLAP_WINDOW_SECS
              then e <| count_in_window := sat_add u64_max (count_in_window e) 1 |>
              else mkStorm 1 ts false
  | None => mkStorm 1 ts false
  end.

Definition storm_rate_of (e : StormCounter) (ts : Z) : Z :=
  count_in_window e / Z.max (sat_sub ts (window_start_ts e)) 1.

Definition storm_fires (rate : Z) (e : StormCounter) (ts : Z) : bool :=
  (rate <=? storm_rate_of e ts) && negb (storm_emitted e).

(** The table after room was made for a sender. *)
Definition storm_room : gmap Mac StormCounter → Mac → gmap Mac StormCounter :=
  make_room window_start_ts MAX_STORM_COUNTERS.

Lemma detect_storm_spec a m ts :
  let e := storm_tick (storm_counters a !! m) ts in
  let fires := storm_fires (storm_rate a) e ts in
  ∃ a', detect_storm a m ts =
      (a', if fires then Some (storm_finding m (count_in_window e) (sat_sub ts (window_start_ts e))
                                 (storm_rate_of e ts)) else None) ∧
    storm_counters a' = <[m := if fires then e <| storm_emitted := true |> else e]>
      (storm_room (storm_counters a) m) ∧
    bindings a' = bindings a ∧ spoof_threshold a' = spoof_threshold a ∧ storm_rate a' = storm_rate a.
Proof.
  cbn zeta. set (e := storm_tick _ _). unfold detect_storm.
  set (a1 := if negb _ then _ else _).
  assert (storm_counters a1 = <[m := e]> (storm_room (storm_counters a) m) ∧ bindings a1 = bindings a
    ∧ spoof_threshold a1 = spoof_threshold a ∧ storm_rate a1 = storm_rate a) as (Hs & Hb & Ht & Hr).
  { unfold a1, e, storm_tick, storm_room, make_room, in_storm_window, insert_storm_counter_lru.
    destruct (storm_counters a !! m) as [c|] eqn:E.
    - rewrite bool_decide_eq_true_2 by by eexists. rewrite bool_decide_eq_false_2 by done. cbn [negb andb].
      destruct (_ <=? _); cbn [negb]; done.
    - rewrite bool_decide_eq_false_2 by apply is_Some_None. rewrite bool_decide_eq_true_2 by done.
      cbn [negb andb]. by destruct (_ <=? _). }
  clearbody a1. cbn zeta. rewrite Hs, lookup_insert_eq, Hr. fold (storm_rate_of e ts).
  fold (storm_fires (storm_rate a) e ts). destruct (storm_fires _ e ts).
  - eexists. split; [done|]. cbn. by rewrite ?Hs, insert_insert_eq.
  - exists a1. done.
Qed.

(** The storm findings of a frame, and the counter it leaves. *)
Definition storm_alarms (c : option StormCounter) (m : Mac) (ts rate : Z) : list Finding :=
  let e := storm_tick c ts in
  if storm_fires rate e ts
  then [storm_finding m (count_in_window e) (sat_sub ts (window_start_ts e)) (storm_rate_of e ts)]
  else [].

Definition storm_counted (c : option StormCounter) (ts rate : Z) : StormCounter :=
  let e := storm_tick c ts in if storm_fires rate e ts then e <| storm_emitted := true |> else e.

Lemma check_storm_spec a frame ts : ∃ a',
  check_storm a frame ts =
    (a', storm_alarms (storm_counters a !! sender_mac frame) (sender_mac frame) ts (storm_rate a)) ∧
  storm_counters a' =
    <[sender_mac frame := storm_counted (storm_counters a !! sender_mac frame) ts (storm_rate a)]>
      (storm_room (storm_counters a) (sender_mac frame)) ∧
  bindings a' = bindings a ∧ spoof_threshold a' = spoof_threshold a ∧ storm_rate a' = storm_rate a.
Proof.
  unfold check_storm, storm_alarms, storm_counted.
  destruct (detect_storm_spec a (sender_mac frame) ts) as (a' & -> & Hs). cbn zeta in *.
  destruct (storm_fires _ _ _); [|by exists a']. eexists. split; [done|]. exact Hs.
Qed.

(** ** One frame *)

Lemma check_mismatch_spec a frame : ∃ n fs,
  check_mismatch a frame = (a <| mismatch_findings := n |>, fs) ∧
  (fs = [] ∨ ∃ m, fs = [mismatch_finding m frame]).
Proof.
  unfold check_mismatch. destruct (outer_src_mac frame) as [m|]; [destruct (decide _)|].
  - eexists _, _. split; [done|]. right. by exists m.
  - exists (mismatch_findings a), []. split; [by destruct a|by left].
  - exists (mismatch_findings a), []. split; [by destruct a|by left].
Qed.

Lemma count_opcode_spec a op : ∃ n1 n2 n3 n4,
  count_opcode a op = a <| frames_analyzed := n1 |> <| request_count := n2 |> <| reply_count := n3 |>
    <| other_opcode_count := n4 |>.
Proof. unfold count_opcode. destruct a. destruct op as [|[|[]|]|]; cbn; by eexists _, _, _, _. Qed.

(** The findings of a frame. *)
Definition garp_part (a : ArpAnalyzer) (frame : ArpFrame) : list Finding :=
  if is_gratuitous_arp frame then
    [if has_conflict a frame
     then (garp_conflict_finding frame) <| confidence := Medium |> <| mitre_techniques := spoof_techniques |>
     else garp_finding frame]
  else [].

Record stepped (a a' : ArpAnalyzer) (frame : ArpFrame) (ts : Z) : Prop := {
  st_bindings : bindings a' =
    <[sender_ip frame := claimed (bindings a !! sender_ip frame) frame ts (spoof_threshold a)]>
      (room (bindings a) (sender_ip frame));
  st_storm : storm_counters a' =
    <[sender_mac frame := storm_counted (storm_counters a !! sender_mac frame) ts (storm_rate a)]>
      (storm_room (storm_counters a) (sender_mac frame));
  st_thresholds : spoof_threshold a' = spoof_threshold a ∧ storm_rate a' = storm_rate a
}.

Lemma process_arp_spec a frame ts :
  filtered frame = false → ∃ a' mismatch,
    process_arp a frame ts = Some (a', mismatch
      ++ storm_alarms (storm_counters a !! sender_mac frame) (sender_mac frame) ts (storm_rate a)
      ++ garp_part a frame
      ++ spoof_alarms (bindings a !! sender_ip frame) frame ts (spoof_threshold a)) ∧
    (mismatch = [] ∨ ∃ m, mismatch = [mismatch_finding m frame]) ∧ stepped a a' frame ts.
Proof.
  intros Hf. unfold process_arp. rewrite Hf. cbn zeta.
  destruct (count_opcode_spec a (operation frame)) as (n1 & n2 & n3 & n4 & ->).
  match goal with |- context [check_mismatch ?x frame] => set (a0 := x) end.
  destruct (check_mismatch_spec a0 frame) as (n & mismatch & -> & Hm).
  set (a1 := a0 <| mismatch_findings := n |>).
  destruct (check_storm_spec a1 frame ts) as (a2 & -> & Hs2 & Hb2 & Ht2 & Hr2).
  change (storm_counters a1) with (storm_counters a) in *. change (storm_rate a1) with (storm_rate a) in *.
  change (bindings a1) with (bindings a) in *. change (spoof_threshold a1) with (spoof_threshold a) in *.
  set (storm := storm_alarms _ _ _ _).
  assert (∃ a', (if is_gratuitous_arp frame then
         if has_conflict a2 frame then garp_conflict a2 frame ts else Some (garp_benign a2 frame ts)
       else observe a2 frame ts)
    = Some (a', garp_part a2 frame ++ spoof_alarms (bindings a2 !! sender_ip frame) frame ts (spoof_threshold a2))
    ∧ recorded a2 a' frame ts) as (a' & -> & [Hb3 Hs3 [Ht3 Hr3]]).
  { unfold garp_part. destruct (is_gratuitous_arp frame); [|apply observe_spec].
    destruct (has_conflict a2 frame) eqn:Hc.
    - revert Hc. unfold has_conflict. destruct (bindings a2 !! sender_ip frame) as [e|] eqn:E; [|done].
      intros Hne%bool_decide_eq_true. by apply garp_conflict_spec.
    - destruct (garp_benign_spec a2 frame ts Hc) as (a' & -> & Hr). by exists a'. }
  assert (garp_part a2 frame = garp_part a frame) as ->.
  { unfold garp_part, has_conflict. by rewrite Hb2. }
  cbn [mbind option_bind]. rewrite Hb2, Ht2 in *. exists a', mismatch. split; [done|]. split; [done|].
  split; [done|by rewrite Hs3|]. by rewrite Ht3, Hr3.
Qed.

(** ** Captures *)

Fixpoint arp_run (a : ArpAnalyzer) (h : list (ArpFrame * Z)) : panicky (ArpAnalyzer * list Finding) :=
  match h with
  | [] => Some (a, [])
  | (frame, ts) :: h =>
      '(a, fs) ← process_arp a frame ts;
      '(a, gs) ← arp_run a h;
      Some (a, fs ++ gs)
  end.

Lemma process_arp_filtered a frame ts :
  filtered frame = true → process_arp a frame ts = Some (count_opcode a (operation frame), []).
Proof. intros Hf. unfold process_arp. by rewrite Hf. Qed.

Lemma count_opcode_tables a op :
  bindings (count_opcode a op) = bindings a ∧ storm_counters (count_opcode a op) = storm_counters a ∧
  spoof_threshold (count_opcode a op) = spoof_threshold a ∧ storm_rate (count_opcode a op) = storm_rate a.
Proof. by destruct (count_opcode_spec a op) as (? & ? & ? & ? & ->). Qed.

Record arp_ok (a : ArpAnalyzer) : Prop := {
  ao_bindings : Z.of_nat (size (bindings a)) ≤ MAX_ARP_BINDINGS;
  ao_storm : Z.of_nat (size (storm_counters a)) ≤ MAX_STORM_COUNTERS
}.

Lemma arp_ok_new thr rate : arp_ok (ArpAnalyzer_new thr rate).
Proof. split; cbn; rewrite map_size_empty; done. Qed.

Lemma process_arp_ok a frame ts : arp_ok a → ∃ a' fs,
  process_arp a frame ts = Some (a', fs) ∧ arp_ok a' ∧ zlen fs ≤ 4.
Proof.
  intros [Hb Hs]. destruct (filtered frame) eqn:Hf.
  { rewrite process_arp_filtered by done. eexists _, _. split; [done|]. split; [|done].
    destruct (count_opcode_tables a (operation frame)) as (Eb & Es & _). split; by rewrite ?Eb, ?Es. }
  destruct (process_arp_spec a frame ts Hf) as (a' & mis & -> & Hm & [Eb Es _]).
  eexists _, _. split; [done|]. split.
  - split; [rewrite Eb|rewrite Es]; by apply make_room_cap.
  - rewrite !zlen_app. unfold storm_alarms, garp_part, spoof_alarms.
    assert (zlen mis ≤ 1) by (destruct Hm as [->|[m ->]]; done).
    repeat case_match; change (zlen []) with 0; change (zlen [_]) with 1; unfold zlen in *; cbn in *; lia.
Qed.

Lemma arp_run_ok h a : arp_ok a → ∃ a' fs,
  arp_run a h = Some (a', fs) ∧ arp_ok a' ∧ zlen fs ≤ 4 * zlen h.
Proof.
  revert a. induction h as [|[frame ts] h IH]; intros a Ha.
  { exists a, []. by split_and!. }
  destruct (process_arp_ok a frame ts Ha) as (a1 & fs & E1 & Ha1 & H1).
  destruct (IH a1 Ha1) as (a2 & gs & E2 & Ha2 & H2). exists a2, (fs ++ gs).
  cbn [arp_run]. rewrite E1. cbn [mbind option_bind]. rewrite E2. split_and!; [done|done|].
  rewrite zlen_app, zlen_cons. lia.
Qed.

Lemma arp_run_app h h' a :
  arp_run a (h ++ h') = '(a1, fs) ← arp_run a h; '(a2, gs) ← arp_run a1 h'; Some (a2, fs ++ gs).
Proof.
  revert a. induction h as [|[frame ts] h IH]; intros a; cbn [app arp_run].
  { cbn. by destruct (arp_run a h') as [[]|]. }
  destruct (process_arp a frame ts) as [[a1 fs]|]; [|done]. cbn [mbind option_bind]. rewrite IH.
  destruct (arp_run a1 h) as [[a2 gs]|]; [|done]. cbn [mbind option_bind].
  destruct (arp_run a2 h') as [[a3 ks]|]; [|done]. cbn. by rewrite app_assoc.
Qed.

(** ** The last claim for every address *)

Definition note_claim (m : gmap Ip4 Mac) (x : ArpFrame * Z) : gmap Ip4 Mac :=
  if filtered x.1 then m else <[sender_ip x.1 := sender_mac x.1]> m.

Definition claims (h : list (ArpFrame * Z)) : gmap Ip4 Mac := foldl note_claim ∅ h.

Lemma claims_snoc h x : claims (h ++ [x]) = note_claim (claims h) x.
Proof. unfold claims. by rewrite foldl_app. Qed.

Lemma note_claim_size m x : (size m ≤ size (note_claim m x))%nat.
Proof. unfold note_claim. destruct (filtered x.1); [done|]. rewrite map_size_insert. case_match; unfold id; lia. Qed.

(** Below the cap nothing is evicted. *)
Lemma process_arp_claims a frame ts a' fs m :
  process_arp a frame ts = Some (a', fs) → mac <$> bindings a = m →
  Z.of_nat (size (note_claim m (frame, ts))) ≤ MAX_ARP_BINDINGS →
  mac <$> bindings a' = note_claim m (frame, ts).
Proof.
  intros E <- Hs. unfold note_claim in *. cbn [fst] in *. destruct (filtered frame) eqn:Hf.
  { rewrite process_arp_filtered in E by done. injection E as <- <-.
    by rewrite (proj1 (count_opcode_tables a (operation frame))). }
  destruct (process_arp_spec a frame ts Hf) as (a2 & mis & E2 & _ & [Eb _ _]).
  rewrite E2 in E. injection E as <- _. rewrite Eb, fmap_insert.
  assert (room (bindings a) (sender_ip frame) = bindings a) as ->.
  { unfold room, make_room. destruct (bool_decide_reflect (bindings a !! sender_ip frame = None)) as [En|]; [|done].
    rewrite map_size_insert_None, map_size_fmap in Hs by by rewrite lookup_fmap, En.
    destruct (Z.leb_spec MAX_ARP_BINDINGS (Z.of_nat (size (bindings a)))); [lia|done]. }
  f_equal. unfold claimed. by destruct (bindings a !! sender_ip frame).
Qed.

Lemma arp_run_claims h thr rate :
  Z.of_nat (size (claims h)) ≤ MAX_ARP_BINDINGS →
  ∃ a fs, arp_run (ArpAnalyzer_new thr rate) h = Some (a, fs) ∧ mac <$> bindings a = claims h ∧
    spoof_threshold a = thr ∧ storm_rate a = rate.
Proof.
  induction h as [|[frame ts] h IH] using rev_ind; intros Hs.
  { eexists _, _. by split_and!. }
  rewrite claims_snoc in *. pose proof (note_claim_size (claims h) (frame, ts)).
  destruct IH as (a & fs & E & Hc & Ht & Hr); [lia|]. rewrite arp_run_app, E. cbn [mbind option_bind arp_run].
  assert (∃ a' gs, process_arp a frame ts = Some (a', gs) ∧ spoof_threshold a' = thr ∧ storm_rate a' = rate)
    as (a' & gs & E' & Ht' & Hr').
  { destruct (filtered frame) eqn:Hf.
    - rewrite process_arp_filtered by done. eexists _, _. split; [done|].
      by destruct (count_opcode_tables a (operation frame)) as (_ & _ & -> & ->).
    - destruct (process_arp_spec a frame ts Hf) as (a2 & mis & -> & _ & [_ _ [Ht2 Hr2]]).
      eexists _, _. by rewrite Ht2, Hr2. }
  rewrite E'. cbn [mbind option_bind]. eexists _, _. split; [done|]. split; [|done].
  by eapply process_arp_claims.
Qed.

(** The spoof findings and the storm findings of a frame. *)
Lemma process_arp_findings a frame ts a' fs :
  process_arp a frame ts = Some (a', fs) →
  from "D1:" fs = (if filtered frame then []
    else spoof_alarms (bindings a !! sender_ip frame) frame ts (spoof_threshold a)) ∧
  from "D3:" fs = (if filtered frame then []
    else storm_alarms (storm_counters a !! sender_mac frame) (sender_mac frame) ts (storm_rate a)).
Proof.
  intros E. destruct (filtered frame) eqn:Hf.
  { rewrite process_arp_filtered in E by done. by injection E as <- <-. }
  destruct (process_arp_spec a frame ts Hf) as (a2 & mis & E2 & Hm & _). rewrite E2 in E.
  injection E as _ <-. rewrite !from_app.
  set (spoof := spoof_alarms _ _ _ _). set (storm := storm_alarms _ _ _ _).
  assert (from "D1:" mis = [] ∧ from "D3:" mis = []) as [-> ->] by (destruct Hm as [->|[m ->]]; done).
  assert (from "D1:" (garp_part a frame) = [] ∧ from "D3:" (garp_part a frame) = []) as [-> ->].
  { unfold garp_part. destruct (is_gratuitous_arp frame); [|done]. by destruct (has_conflict a frame). }
  assert (from "D1:" spoof = spoof ∧ from "D3:" spoof = []) as [-> ->].
  { unfold spoof, spoof_alarms. destruct (bindings a !! sender_ip frame); [|done]. by destruct (decide _). }
  assert (from "D1:" storm = [] ∧ from "D3:" storm = storm) as [-> ->].
  { unfold storm, storm_alarms. by destruct (storm_fires _ _ _). }
  by rewrite !app_nil_r.
Qed.

(** Only a spoof finding can be HIGH. *)
Definition highs (fs : list Finding) : list Finding := filter (λ x, confidence x = High) fs.

Lemma process_arp_highs a frame ts a' fs :
  process_arp a frame ts = Some (a', fs) → highs fs = highs (from "D1:" fs).
Proof.
  intros E. pose proof (process_arp_findings _ _ _ _ _ E) as [Hd _]. rewrite Hd. revert E.
  destruct (filtered frame) eqn:Hf; intros E.
  { rewrite process_arp_filtered in E by done. by injection E as <- <-. }
  destruct (process_arp_spec a frame ts Hf) as (a2 & mis & E2 & Hm & _). rewrite E2 in E.
  injection E as _ <-. unfold highs. rewrite !filter_app.
  assert (filter (λ x, confidence x = High) mis = []) as -> by (destruct Hm as [->|[m ->]]; done).
  unfold garp_part, storm_alarms.
  destruct (storm_fires _ _ _), (is_gratuitous_arp frame); try done; by destruct (has_conflict a frame).
Qed.

(** ** Escalation *)

(** Frames of one address that claim another MAC every time, within a window. *)
Fixpoint flapping (ip : Ip4) (m : Mac) (t0 : Z) (h : list (ArpFrame * Z)) : Prop :=
  match h with
  | [] => True
  | (frame, ts) :: h =>
      sender_ip frame = ip ∧ filtered frame = false ∧ sender_mac frame ≠ m ∧
      sat_sub ts t0 ≤ ARP_FLAP_WINDOW_SECS ∧ flapping ip (sender_mac frame) t0 h
  end.

(** Inside the window that began at [t0], after [n] rebinds. *)
Record in_flap (e : BindingEntry) (t0 thr n : Z) : Prop := {
  if_first : first_rebind_ts e = Some t0;
  if_count : rebind_count e = n;
  if_high : spoof_high_emitted e = (thr <=? n)
}.

Lemma flap_step e t0 thr n ts :
  in_flap e t0 thr n → n + 1 ≤ u32_max → sat_sub ts t0 ≤ ARP_FLAP_WINDOW_SECS →
  in_flap (flap e ts thr).1 t0 thr (n + 1) ∧ (flap e ts thr).2 = (thr =? n + 1).
Proof.
  intros [H1 H2 H3] Hn Hw. unfold flap. rewrite H1.
  destruct (Z.ltb_spec ARP_FLAP_WINDOW_SECS (sat_sub ts t0)); [lia|]. rewrite H1. cbn.
  rewrite H2, H3. unfold sat_add. rewrite Z.min_r by lia.
  destruct (Z.leb_spec (sat_sub ts t0) ARP_FLAP_WINDOW_SECS); [|lia].
  destruct (Z.leb_spec thr (n + 1)), (Z.leb_spec thr n), (Z.eqb_spec thr (n + 1)); try lia; cbn;
    (split; [split|]); cbn; try done; try (symmetry; apply Z.leb_le; lia); try (symmetry; apply Z.leb_gt; lia).
Qed.

(** One frame of a flapping address. *)
Lemma flapping_frame a frame ts e :
  bindings a !! sender_ip frame = Some e → filtered frame = false → mac e ≠ sender_mac frame →
  ∃ a' fs e', process_arp a frame ts = Some (a', fs) ∧
    from "D1:" fs = [d1_finding (flap e ts (spoof_threshold a)).2 (sender_ip frame) (mac e) (sender_mac frame)] ∧
    bindings a' !! sender_ip frame = Some e' ∧ mac e' = sender_mac frame ∧
    (∀ t0 n, in_flap (flap e ts (spoof_threshold a)).1 t0 (spoof_threshold a) n →
      in_flap e' t0 (spoof_threshold a) n) ∧
    spoof_threshold a' = spoof_threshold a.
Proof.
  intros E Hf Hne. destruct (process_arp_spec a frame ts Hf) as (a' & mis & Ep & _ & [Eb _ [Et _]]).
  match type of Ep with _ = Some (_, ?l) => set (fs := l) in Ep; clearbody fs end.
  pose proof (process_arp_findings _ _ _ _ _ Ep) as [Hd _]. rewrite Hf, E in Hd.
  unfold spoof_alarms in Hd. rewrite decide_False in Hd by done.
  exists a', fs, (claimed (Some e) frame ts (spoof_threshold a)). split; [done|]. split; [done|].
  rewrite Eb, lookup_insert_eq, E. split; [done|]. split; [done|]. split; [|done].
  unfold claimed. rewrite decide_False by done. by intros t0 n [].
Qed.

Lemma run_flapping h a e ip t0 n :
  bindings a !! ip = Some e → in_flap e t0 (spoof_threshold a) n → 0 ≤ n →
  n + zlen h ≤ u32_max → flapping ip (mac e) t0 h →
  ∃ a' fs, arp_run a h = Some (a', fs) ∧ zlen (from "D1:" fs) = zlen h ∧
    zlen (highs fs) = if (n <? spoof_threshold a) && (spoof_threshold a <=? n + zlen h) then 1 else 0.
Proof.
  revert a e n. induction h as [|[frame ts] h IH]; intros a e n E Hin Hn Hle Hfl.
  { exists a, []. split; [done|]. split; [done|]. change (zlen []) with 0. rewrite Z.add_0_r.
    destruct (Z.ltb_spec n (spoof_threshold a)), (Z.leb_spec (spoof_threshold a) n); try done; lia. }
  destruct Hfl as (Hip & Hf & Hne & Hw & Hfl). rewrite zlen_cons in *. pose proof (zlen_nonneg h).
  rewrite <- Hip in E. destruct (flapping_frame a frame ts e E Hf) as (a1 & fs & e1 & Ep & Hd & E1 & Hm1 & Hi1 & Ht1);
    [by apply not_eq_sym|].
  destruct (flap_step e t0 (spoof_threshold a) n ts Hin) as [Hin1 Hh]; [lia|done|]. apply Hi1 in Hin1.
  rewrite Hip in E1. rewrite <- Ht1 in Hin1. rewrite <- Hm1 in Hfl.
  destruct (IH a1 e1 (n + 1) E1 Hin1) as (a2 & gs & Er & Hd2 & Hh2); [lia|lia|done|].
  exists a2, (fs ++ gs). cbn [arp_run]. rewrite Ep. cbn [mbind option_bind]. rewrite Er.
  split; [done|]. rewrite from_app, zlen_app, Hd, Hd2. split; [done|].
  unfold highs in *. rewrite filter_app, zlen_app, Hh2. fold (highs fs).
  rewrite (process_arp_highs _ _ _ _ _ Ep), Hd, Hh, Ht1.
  assert (zlen (highs [d1_finding (spoof_threshold a =? n + 1) (sender_ip frame) (mac e) (sender_mac frame)])
    = if spoof_threshold a =? n + 1 then 1 else 0) as -> by by destruct (spoof_threshold a =? n + 1).
  destruct (Z.eqb_spec (spoof_threshold a) (n + 1)), (Z.ltb_spec (n + 1) (spoof_threshold a)),
    (Z.ltb_spec n (spoof_threshold a)), (Z.leb_spec (spoof_threshold a) (n + 1 + zlen h)),
    (Z.leb_spec (spoof_threshold a) (n + (1 + zlen h))); cbn [andb]; lia.
Qed.

(** A binding that no rebind window holds at [t0]. *)
Definition settled (e : BindingEntry) (t0 : Z) : Prop :=
  match first_rebind_ts e with
  | None => rebind_count e = 0 ∧ spoof_high_emitted e = false
  | Some t => ARP_FLAP_WINDOW_SECS < sat_sub t0 t
  end.

Lemma flap_settled e t0 thr :
  settled e t0 → 1 ≤ thr → in_flap (flap e t0 thr).1 t0 thr 1 ∧ (flap e t0 thr).2 = (thr =? 1).
Proof.
  unfold settled, flap. intros Hs Ht.
  assert ((sat_sub t0 t0 <=? ARP_FLAP_WINDOW_SECS) = true) as Hz.
  { apply Z.leb_le. unfold sat_sub, ARP_FLAP_WINDOW_SECS. lia. }
  destruct (first_rebind_ts e) as [t|] eqn:E.
  - destruct (Z.ltb_spec ARP_FLAP_WINDOW_SECS (sat_sub t0 t)); [|lia]. cbn. rewrite Hz.
    change (sat_add u32_max 0 1) with 1.
    destruct (Z.leb_spec thr 1), (Z.eqb_spec thr 1); try lia; cbn; (split; [split|]); cbn; try done;
      symmetry; [apply Z.leb_le|apply Z.leb_gt]; lia.
  - rewrite E. destruct Hs as [H1 H2]. cbn. rewrite H1, H2, Hz. change (sat_add u32_max 0 1) with 1.
    destruct (Z.leb_spec thr 1), (Z.eqb_spec thr 1); try lia; cbn; (split; [split|]); cbn; try done;
      symmetry; [apply Z.leb_le|apply Z.leb_gt]; lia.
Qed.

(** ** Storms *)

(** Whether the rate is reached by one of the frames at [times], [n] of them
    having been counted since [t0]. *)
Fixpoint rate_reached (rate t0 n : Z) (times : list Z) : bool :=
  match times with
  | [] => false
  | t :: times => (rate <=? (n + 1) / Z.max 1 (sat_sub t t0)) || rate_reached rate t0 (n + 1) times
  end.

Fixpoint from_sender (m : Mac) (t0 : Z) (h : list (ArpFrame * Z)) : Prop :=
  match h with
  | [] => True
  | (frame, ts) :: h =>
      sender_mac frame = m ∧ filtered frame = false ∧ sat_sub ts t0 ≤ ARP_FLAP_WINDOW_SECS ∧
      from_sender m t0 h
  end.

Lemma storm_frame a frame ts : filtered frame = false → ∃ a' fs,
  process_arp a frame ts = Some (a', fs) ∧
  from "D3:" fs = storm_alarms (storm_counters a !! sender_mac frame) (sender_mac frame) ts (storm_rate a) ∧
  storm_counters a' !! sender_mac frame =
    Some (storm_counted (storm_counters a !! sender_mac frame) ts (storm_rate a)) ∧
  storm_rate a' = storm_rate a.
Proof.
  intros Hf. destruct (process_arp_spec a frame ts Hf) as (a' & mis & Ep & _ & [_ Es [_ Er]]).
  pose proof (process_arp_findings _ _ _ _ _ Ep) as [_ Hd]. rewrite Hf in Hd.
  eexists _, _. split; [done|]. split; [done|]. rewrite Es, lookup_insert_eq. done.
Qed.

Lemma run_storm h a m t0 n em :
  storm_counters a !! m = Some (mkStorm n t0 em) → 0 ≤ n → n + zlen h ≤ u64_max → from_sender m t0 h →
  ∃ a' fs, arp_run a h = Some (a', fs) ∧
    zlen (from "D3:" fs) = if negb em && rate_reached (storm_rate a) t0 n h.*2 then 1 else 0.
Proof.
  revert a n em. induction h as [|[frame ts] h IH]; intros a n em E Hn Hle Hfr.
  { exists a, []. split; [done|]. cbn. by rewrite andb_false_r. }
  destruct Hfr as (Hm & Hf & Hw & Hfr). rewrite zlen_cons in *. pose proof (zlen_nonneg h).
  destruct (storm_frame a frame ts Hf) as (a1 & fs & Ep & Hd & Hs & Hr). rewrite Hm, E in Hd, Hs.
  assert (storm_tick (Some (mkStorm n t0 em)) ts = mkStorm (n + 1) t0 em) as Ht.
  { unfold storm_tick. cbn. destruct (Z.leb_spec (sat_sub ts t0) ARP_FLAP_WINDOW_SECS); [|lia].
    unfold sat_add. by rewrite Z.min_r by lia. }
  unfold storm_counted, storm_alarms in Hs, Hd. rewrite Ht in Hs, Hd.
  unfold storm_fires, storm_rate_of in Hs, Hd. cbn [count_in_window window_start_ts storm_emitted] in Hs, Hd.
  rewrite Z.max_comm in Hs, Hd. set (reach := storm_rate a <=? (n + 1) / Z.max 1 (sat_sub ts t0)) in *.
  destruct (IH a1 (n + 1) (if reach && negb em then true else em)) as (a2 & gs & Er & Hg);
    [by rewrite Hs; destruct (reach && negb em)|lia|lia|done|].
  exists a2, (fs ++ gs). cbn [arp_run]. rewrite Ep. cbn [mbind option_bind]. rewrite Er. split; [done|].
  rewrite from_app, zlen_app, Hd, Hg, Hr. cbn [fmap list_fmap rate_reached snd]. fold reach.
  destruct reach, em; cbn [andb orb negb]; done.
Qed.

Lemma rate_reached_same rate t0 n times :
  Forall (λ t, t = t0) times →
  rate_reached rate t0 n times = (0 <? zlen times) && (rate <=? n + zlen times).
Proof.
  intros H. revert n. induction H as [|t times -> H IH]; intros n; [done|]. cbn [rate_reached].
  assert (sat_sub t0 t0 = 0) as -> by (unfold sat_sub; lia). rewrite Z.div_1_r, IH, zlen_cons.
  pose proof (zlen_nonneg times).
  destruct (Z.leb_spec rate (n + 1)), (Z.ltb_spec 0 (zlen times)), (Z.leb_spec rate (n + 1 + zlen times)),
    (Z.ltb_spec 0 (1 + zlen times)), (Z.leb_spec rate (n + (1 + zlen times))); cbn; try done; lia.
Qed.

(** ** Theorems *)

(** The analyzer never panics and its tables are bounded.  Whatever frames
    arrive with whatever timestamps, [process_arp] succeeds on each of them,
    none of its [expect]s fails, the binding table never holds more than 65,536
    addresses and the storm table never more than 4,096 senders, and a frame
    yields at most four findings. *)
Theorem arp_bounded thr rate h :
  ∃ a fs, arp_run (ArpAnalyzer_new thr rate) h = Some (a, fs) ∧
    Z.of_nat (size (bindings a)) ≤ 65536 ∧ Z.of_nat (size (storm_counters a)) ≤ 4096 ∧
    zlen fs ≤ 4 * zlen h.
Proof.
  destruct (arp_run_ok h (ArpAnalyzer_new thr rate) (arp_ok_new thr rate)) as (a & fs & E & [Hb Hs] & Hl).
  exists a, fs. by split_and!.
Qed.

(** C24. The binding table is the map of last claims, and spoofing is reported
    exactly where a claim changes.  As long as no more than 65,536 addresses
    have spoken, the MACs in the table after a capture are the ones the last
    unfiltered frame of every sender address claimed; and the next frame yields
    a spoof finding exactly when it is not filtered and claims another MAC than
    the last one for its address, one finding, which names both MACs. *)
Theorem arp_bindings_are_last_claims thr rate h frame ts :
  Z.of_nat (size (claims (h ++ [(frame, ts)]))) ≤ MAX_ARP_BINDINGS →
  ∃ a fs a' gs, arp_run (ArpAnalyzer_new thr rate) h = Some (a, fs) ∧ mac <$> bindings a = claims h ∧
    process_arp a frame ts = Some (a', gs) ∧
    mac <$> bindings a' = claims (h ++ [(frame, ts)]) ∧
    match claims h !! sender_ip frame with
    | Some m =>
        if filtered frame || bool_decide (m = sender_mac frame) then from "D1:" gs = []
        else ∃ high, from "D1:" gs = [d1_finding high (sender_ip frame) m (sender_mac frame)]
    | None => from "D1:" gs = []
    end.
Proof.
  intros Hs. pose proof Hs as Hs'. rewrite claims_snoc in Hs'.
  pose proof (note_claim_size (claims h) (frame, ts)).
  destruct (arp_run_claims h thr rate) as (a & fs & E & Hc & _); [lia|].
  assert (∃ a' gs, process_arp a frame ts = Some (a', gs)) as (a' & gs & Ep).
  { destruct (filtered frame) eqn:Hf.
    - rewrite process_arp_filtered by done. by eexists _, _.
    - destruct (process_arp_spec a frame ts Hf) as (a2 & mis & -> & _). by eexists _, _. }
  exists a, fs, a', gs. split_and!; [done|done|done| |].
  { rewrite claims_snoc. by eapply process_arp_claims. }
  destruct (process_arp_findings _ _ _ _ _ Ep) as [-> _]. rewrite <- Hc, lookup_fmap.
  destruct (bindings a !! sender_ip frame) as [e|]; cbn [fmap option_fmap option_map spoof_alarms].
  - destruct (filtered frame); [done|]. cbn [orb].
    destruct (bool_decide_reflect (mac e = sender_mac frame)); [by rewrite decide_True|].
    rewrite decide_False by done. by eexists.
  - by destruct (filtered frame).
Qed.

(** Escalation happens once per flap window.  When an address whose binding
    is in no rebind window is claimed by another MAC at [t0], and by yet another
    one with every further frame, all within 60 seconds of [t0], then every
    frame yields one spoof finding, and exactly one of all findings is HIGH if
    there are at least [spoof_threshold] frames, none otherwise. *)
Theorem arp_escalates_once a e ip t0 frame h :
  bindings a !! ip = Some e → settled e t0 → 1 ≤ spoof_threshold a → 1 + zlen h ≤ u32_max →
  flapping ip (mac e) t0 ((frame, t0) :: h) →
  ∃ a' fs, arp_run a ((frame, t0) :: h) = Some (a', fs) ∧ zlen (from "D1:" fs) = 1 + zlen h ∧
    zlen (highs fs) = if spoof_threshold a <=? 1 + zlen h then 1 else 0.
Proof.
  intros E Hs Ht Hl (Hip & Hf & Hne & Hw & Hfl). rewrite <- Hip in E. pose proof (zlen_nonneg h).
  destruct (flapping_frame a frame t0 e E Hf) as (a1 & fs & e1 & Ep & Hd & E1 & Hm1 & Hi1 & Ht1);
    [by apply not_eq_sym|].
  destruct (flap_settled e t0 (spoof_threshold a) Hs Ht) as [Hin Hh]. apply Hi1 in Hin.
  rewrite <- Ht1 in Hin. rewrite <- Hm1 in Hfl. rewrite Hip in E1.
  destruct (run_flapping h a1 e1 ip t0 1 E1 Hin) as (a2 & gs & Er & Hd2 & Hh2); [lia|lia|done|].
  exists a2, (fs ++ gs). cbn [arp_run]. rewrite Ep. cbn [mbind option_bind]. rewrite Er.
  split; [done|]. rewrite from_app, zlen_app, Hd, Hd2. split; [done|].
  unfold highs in *. rewrite filter_app, zlen_app, Hh2. fold (highs fs).
  rewrite (process_arp_highs _ _ _ _ _ Ep), Hd, Hh, Ht1.
  assert (zlen (highs [d1_finding (spoof_threshold a =? 1) (sender_ip frame) (mac e) (sender_mac frame)])
    = if spoof_threshold a =? 1 then 1 else 0) as -> by by destruct (spoof_threshold a =? 1).
  destruct (Z.eqb_spec (spoof_threshold a) 1), (Z.ltb_spec 1 (spoof_threshold a)),
    (Z.leb_spec (spoof_threshold a) (1 + zlen h)); cbn [andb]; lia.
Qed.

(** A storm is reported once per window, when the rate is reached.  Frames
    of one sender that begin a window at [t0] and stay within its 60 seconds
    yield exactly one storm finding if some frame, the n-th at time [t], has
    n / max(1, t - t0) at least [storm_rate], and none otherwise; for frames of
    one second this means that there are at least [storm_rate] of them. *)
Theorem arp_storm_exact a m t0 frame h :
  in_storm_window a m t0 = false → 1 + zlen h ≤ u64_max → from_sender m t0 ((frame, t0) :: h) →
  ∃ a' fs, arp_run a ((frame, t0) :: h) = Some (a', fs) ∧
    zlen (from "D3:" fs) = (if rate_reached (storm_rate a) t0 0 (t0 :: h.*2) then 1 else 0) ∧
    (Forall (λ t, t = t0) h.*2 →
      rate_reached (storm_rate a) t0 0 (t0 :: h.*2) = (storm_rate a <=? 1 + zlen h)).
Proof.
  intros Hw Hl (Hm & Hf & _ & Hfr). pose proof (zlen_nonneg h).
  destruct (storm_frame a frame t0 Hf) as (a1 & fs & Ep & Hd & Hs & Hr). rewrite Hm in Hd, Hs.
  assert (storm_tick (storm_counters a !! m) t0 = mkStorm 1 t0 false) as Ht.
  { unfold in_storm_window in Hw. unfold storm_tick. destruct (storm_counters a !! m); [by rewrite Hw|done]. }
  unfold storm_counted, storm_alarms in Hs, Hd. rewrite Ht in Hs, Hd.
  unfold storm_fires, storm_rate_of in Hs, Hd. cbn [count_in_window window_start_ts storm_emitted] in Hs, Hd.
  rewrite andb_true_r, Z.max_comm in Hs, Hd.
  set (reach := storm_rate a <=? 1 / Z.max 1 (sat_sub t0 t0)) in *.
  destruct (run_storm h a1 m t0 1 reach) as (a2 & gs & Er & Hg); [by rewrite Hs; destruct reach|lia|lia|done|].
  exists a2, (fs ++ gs). cbn [arp_run]. rewrite Ep. cbn [mbind option_bind]. rewrite Er. split; [done|]. split.
  - rewrite from_app, zlen_app, Hd, Hg, Hr. cbn [rate_reached]. change (0 + 1) with 1. fold reach.
    by destruct reach.
  - intros Hall. rewrite rate_reached_same by (by apply list.Forall_cons).
    rewrite zlen_cons, zlen_fmap. destruct (Z.ltb_spec 0 (1 + zlen h)); [done|lia].
Qed.
End analyzer.

Section samples.
#[local] Existing Instance list_iter_order.

Definition mac_a : Mac := (2, 0, 0, 0, 0, 1).
Definition mac_b : Mac := (2, 0, 0, 0, 0, 2).

(** A request for another address, by [m] in the name of 10.0.0.7. *)
Definition arp_request (m : Mac) : ArpFrame :=
  mkArpFrame 1 m (10, 0, 0, 7) (0, 0, 0, 0, 0, 0) (10, 0, 0, 1) (Some m) 42.

Lemma arp_bindings_are_last_claims_witness :
  ∃ a fs a' gs, arp_run (ArpAnalyzer_new 3 50) [(arp_request mac_a, 5)] = Some (a, fs) ∧
    process_arp a (arp_request mac_b) 6 = Some (a', gs) ∧
    ∃ high, from "D1:" gs = [d1_finding high (10, 0, 0, 7) mac_a mac_b].
Proof.
  destruct (arp_bindings_are_last_claims 3 50 [(arp_request mac_a, 5)] (arp_request mac_b) 6)
    as (a & fs & a' & gs & E & _ & Ep & _ & Hd).
  - vm_compute. discriminate.
  - exists a, fs, a', gs. split; [exact E|]. split; [exact Ep|]. exact Hd.
Defined.

Definition sample_arp : ArpAnalyzer :=
  (ArpAnalyzer_new 3 50) <| bindings := {[(10, 0, 0, 7) := mkBinding mac_a 0 None false 5]} |>.

Lemma arp_escalates_once_witness :
  ∃ a fs, arp_run sample_arp [(arp_request mac_b, 10); (arp_request mac_a, 20); (arp_request mac_b, 70)]
      = Some (a, fs) ∧ zlen (from "D1:" fs) = 3 ∧ zlen (highs fs) = 1.
Proof.
  apply (arp_escalates_once sample_arp (mkBinding mac_a 0 None false 5) (10, 0, 0, 7) 10 (arp_request mac_b)
    [(arp_request mac_a, 20); (arp_request mac_b, 70)]).
  - reflexivity.
  - split; reflexivity.
  - vm_compute. discriminate.
  - vm_compute. discriminate.
  - repeat split; vm_compute; discriminate.
Defined.

Lemma arp_storm_exact_witness :
  ∃ a fs, arp_run (ArpAnalyzer_new 3 2) [(arp_request mac_a, 10); (arp_request mac_a, 10); (arp_request mac_a, 11)]
      = Some (a, fs) ∧ zlen (from "D3:" fs) = 1.
Proof.
  destruct (arp_storm_exact (ArpAnalyzer_new 3 2) mac_a 10 (arp_request mac_a)
    [(arp_request mac_a, 10); (arp_request mac_a, 11)]) as (a & fs & E & Hn & _).
  - reflexivity.
  - vm_compute. discriminate.
  - repeat split; vm_compute; discriminate.
  - exists a, fs. split; [exact E|exact Hn].
Defined.
End samples.
