(* ===== verification/S7comm.v ===== *)
(** * ISO-on-TCP framing and the S7comm analyzer
      (src/analyzer/iso_on_tcp.rs, src/analyzer/s7comm.rs)

    The TPKT and COTP header parsers, the S7comm header parser, and the analyzer
    that walks TPKT frames over a carry buffer per direction, tracks the COTP
    session, classifies the flow by its first data frame and reports malformed
    classic headers once per direction.  The translation comes first; the
    theorems are in [S7commProps].  [debug_assert_eq!] is compiled out of the
    release profile. *)

From S2P Require Import Prelude FlowKey Handler Findings Dispatcher.

#[local] Open Scope Z_scope.

(** ** TPKT and COTP *)

Record TpktHeader := mkTpkt {
  version : Z;
  length : Z
}.

Definition parse_tpkt_header (data : list Z) : option TpktHeader :=
  match data with
  | b0 :: b1 :: b2 :: b3 :: _ =>
      if negb (b0 =? 0x03) then None
      else
        let length := u16_be b2 b3 in
        if length <? 7 then None else Some (mkTpkt 0x03 length)
  | _ => None
  end.

Inductive CotpTpduType := ConnectRequest | ConnectConfirm | DataTransfer.

Record CotpHeader := mkCotp {
  tpdu_type : CotpTpduType;
  protocol_id : option Z;
  payload_offset : Z
}.

Definition parse_cotp_header (tpkt_payload : list Z) : option CotpHeader :=
  match tpkt_payload with
  | li :: tpdu_code :: _ =>
      if zlen tpkt_payload <? 1 + li then None
      else
        let payload_offset := 1 + li in
        match Z.land tpdu_code 0xF0 with
        | 0xE0 => Some (mkCotp ConnectRequest None payload_offset)
        | 0xD0 => Some (mkCotp ConnectConfirm None payload_offset)
        | 0xF0 =>
            Some (mkCotp DataTransfer
              (if payload_offset <? zlen tpkt_payload
               then tpkt_payload !! Z.to_nat payload_offset else None) payload_offset)
        | _ => None
        end
  | _ => None
  end.

(** ** S7comm headers *)

Definition MAX_S7_ISO_ON_TCP_CARRY_BYTES : Z := 65535.

Inductive S7Protocol := Classic | Plus | Unclassified.
Inductive Rosctr := Job | Ack | AckData | Userdata.

#[global] Instance S7Protocol_eq_dec : EqDecision S7Protocol.
Proof. solve_decision. Defined.

Record S7commHeader := mkS7Header {
  rosctr : Rosctr;
  pdu_reference : Z;
  param_length : Z;
  data_length : Z;
  error_class : option Z;
  error_code : option Z;
  header_len : Z
}.

Definition parse_s7comm_header (data : list Z) : option S7commHeader :=
  match data with
  | b0 :: b1 :: b2 :: b3 :: b4 :: b5 :: b6 :: b7 :: b8 :: b9 :: rest =>
      if negb (b0 =? 0x32) then None
      else
        let pdu_reference := u16_be b4 b5 in
        let param_length := u16_be b6 b7 in
        let data_length := u16_be b8 b9 in
        let extended rosctr :=
          match rest with
          | b10 :: b11 :: _ =>
              Some (mkS7Header rosctr pdu_reference param_length data_length (Some b10) (Some b11) 12)
          | _ => None
          end in
        match b1 with
        | 0x01 => Some (mkS7Header Job pdu_reference param_length data_length None None 10)
        | 0x07 => Some (mkS7Header Userdata pdu_reference param_length data_length None None 10)
        | 0x02 => extended Ack
        | 0x03 => extended AckData
        | _ => None
        end
  | _ => None
  end.

Definition s7comm_bounds_ok (header : S7commHeader) (data_len : Z) : bool :=
  match (sum ← cadd usize_max (header_len header) (param_length header);
         cadd usize_max sum (data_length header)) with
  | Some total => total <=? data_len
  | None => false
  end.

(** ** State *)

Record S7commFlowState := mkS7Flow {
  carry_c2s : list Z;
  carry_s2c : list Z;
  carry_overflow_reported_c2s : bool;
  carry_overflow_reported_s2c : bool;
  session_established : bool;
  cr_observed_dir : option Direction;
  classified_protocol : option S7Protocol;
  malformed_header_reported_c2s : bool;
  malformed_header_reported_s2c : bool
}.

#[global] Instance S7commFlowState_eta : Eta S7commFlowState := λ s,
  mkS7Flow (carry_c2s s) (carry_s2c s) (carry_overflow_reported_c2s s)
    (carry_overflow_reported_s2c s) (session_established s) (cr_observed_dir s)
    (classified_protocol s) (malformed_header_reported_c2s s) (malformed_header_reported_s2c s).

Definition S7commFlowState_default : S7commFlowState :=
  mkS7Flow [] [] false false false None None false false.

Record S7commAnalyzer := mkS7 {
  flows : gmap FlowKey S7commFlowState;
  findings : list Finding
}.

Definition S7commAnalyzer_new : S7commAnalyzer := mkS7 ∅ [].

Abbreviation s7_work := (S7commFlowState * list Finding)%type.

(** Directional fields. *)
Definition s7_carry (s : S7commFlowState) (dir : Direction) : list Z :=
  match dir with ClientToServer => carry_c2s s | ServerToClient => carry_s2c s end.

Definition set_s7_carry (s : S7commFlowState) (dir : Direction) (c : list Z) : S7commFlowState :=
  match dir with
  | ClientToServer => s <| carry_c2s := c |>
  | ServerToClient => s <| carry_s2c := c |>
  end.

Definition overflow_reported (s : S7commFlowState) (dir : Direction) : bool :=
  match dir with
  | ClientToServer => carry_overflow_reported_c2s s
  | ServerToClient => carry_overflow_reported_s2c s
  end.

Definition set_overflow_reported (s : S7commFlowState) (dir : Direction) : S7commFlowState :=
  match dir with
  | ClientToServer => s <| carry_overflow_reported_c2s := true |>
  | ServerToClient => s <| carry_overflow_reported_s2c := true |>
  end.

Definition malformed_reported (s : S7commFlowState) (dir : Direction) : bool :=
  match dir with
  | ClientToServer => malformed_header_reported_c2s s
  | ServerToClient => malformed_header_reported_s2c s
  end.

Definition set_malformed_reported (s : S7commFlowState) (dir : Direction) : S7commFlowState :=
  match dir with
  | ClientToServer => s <| malformed_header_reported_c2s := true |>
  | ServerToClient => s <| malformed_header_reported_s2c := true |>
  end.

(** ** Findings *)

Definition s7_finding (summary : text) (evidence : text) (ts : Z) (dir : Direction) : Finding := {|
  category := Anomaly; verdict := Possible; confidence := Medium; summary := summary;
  evidence := [evidence]; mitre_techniques := ["T0814"%string];
  source_ip := None; timestamp := Some ts; direction := Some dir
|}.

Definition s7_overflow_finding (ts : Z) (dir : Direction) : Finding :=
  s7_finding
    [Lit "S7comm/ISO-on-TCP directional carry residual overflow: carry buffer exceeded MAX_S7_ISO_ON_TCP_CARRY_BYTES=";
     Num MAX_S7_ISO_ON_TCP_CARRY_BYTES;
     Lit " — adversarial or non-conformant byte sequence; carry cleared and the walk resyncs on this delivery (T0814; BC-2.20.014)"]
    [Lit "carry overflow (>"; Num MAX_S7_ISO_ON_TCP_CARRY_BYTES; Lit "); carry cleared"] ts dir.

Definition report_malformed_header (w : s7_work) (dir : Direction) (ts : Z) (reason : text) : s7_work :=
  let '(s, fs) := w in
  if malformed_reported s dir then (s, fs)
  else
    (set_malformed_reported s dir,
     fs ++ [s7_finding
       ([Lit "Malformed classic S7comm header: "] ++ reason ++ [Lit " (T0814; BC-2.21.004/007/008/009)"])
       reason ts dir]).

Definition classify_malformed_header_reason (payload : list Z) : text :=
  let short := [Lit "header too short: "; Num (zlen payload);
                Lit " byte(s) available, 10 required (BC-2.21.004)"] in
  if zlen payload <? 10 then short
  else match payload with
  | b0 :: b1 :: _ =>
      if negb (b0 =? 0x32) then
        [Lit "unexpected protocol-ID byte "; HexLower 2 b0; Lit " (expected 0x32, BC-2.21.005)"]
      else match b1 with
      | 0x02 => [Lit "truncated Ack header: "; Num (zlen payload);
                 Lit " byte(s) available, 12 required (BC-2.21.008)"]
      | 0x03 => [Lit "truncated Ack_Data header: "; Num (zlen payload);
                 Lit " byte(s) available, 12 required (BC-2.21.008, DF-CANONICAL-FRAME-HOLDOUT-001)"]
      | other => [Lit "unrecognized ROSCTR byte "; HexLower 2 other; Lit " (BC-2.21.007)"]
      end
  | _ => short
  end.

(** ** One frame *)

Definition dispatch_classic_s7comm (w : s7_work) (payload : list Z) (dir : Direction) (ts : Z) : s7_work :=
  match parse_s7comm_header payload with
  | None => report_malformed_header w dir ts (classify_malformed_header_reason payload)
  | Some header =>
      if s7comm_bounds_ok header (zlen payload) then w
      else
        report_malformed_header w dir ts
          [Lit "declared param_length/data_length exceed available bytes: declared ";
           Num (header_len header + param_length header + data_length header);
           Lit " (header_len="; Num (header_len header); Lit " + param_length=";
           Num (param_length header); Lit " + data_length="; Num (data_length header);
           Lit "), available "; Num (zlen payload); Lit " (BC-2.21.009)"]
  end.

Definition classify_first_dt_frame (s : S7commFlowState) (protocol_id : option Z) : S7commFlowState :=
  match protocol_id with
  | None => s
  | Some byte =>
      match classified_protocol s with
      | Some _ => s
      | None =>
          s <| classified_protocol := Some (match byte with
                                            | 0x32 => Classic
                                            | 0x72 => Plus
                                            | _ => Unclassified
                                            end) |>
      end
  end.

Definition dispatch_cotp_frame (w : s7_work) (cotp : option CotpHeader) (tpkt_payload : list Z)
    (dir : Direction) (ts : Z) : panicky s7_work :=
  let '(s, fs) := w in
  match cotp with
  | None => Some (s, fs)
  | Some header =>
      match tpdu_type header with
      | ConnectRequest => Some (s <| cr_observed_dir := Some dir |>, fs)
      | ConnectConfirm =>
          match cr_observed_dir s with
          | Some cr_dir =>
              if decide (cr_dir ≠ dir) then Some (s <| session_established := true |>, fs) else Some (s, fs)
          | None => Some (s, fs)
          end
      | DataTransfer =>
          let s := classify_first_dt_frame s (protocol_id header) in
          match protocol_id header with
          | Some 0x32 =>
              if decide (classified_protocol s = Some Classic) then
                payload ← slice tpkt_payload (payload_offset header) (zlen tpkt_payload);
                Some (dispatch_classic_s7comm (s, fs) payload dir ts)
              else Some (s, fs)
          | _ => Some (s, fs)
          end
      end
  end.

(** ** The frame walk *)

(** One byte at a time to the next header; the buffers are the bytes from the
    cursor on. *)
Fixpoint resync_one_byte (rest : list Z) : list Z :=
  match rest with
  | [] => []
  | _ :: tl =>
      if (4 <=? zlen rest) && bool_decide (parse_tpkt_header rest = None) then resync_one_byte tl
      else rest
  end.

(** The [loop]; a frame drops at least seven bytes and a resync at least one,
    so the length of the buffer plus one is enough fuel. *)
Fixpoint s7_walk (fuel : nat) (w : s7_work) (rest : list Z) (dir : Direction) (ts : Z) :
    panicky (s7_work * list Z) :=
  match fuel with
  | O => None
  | S fuel =>
      if zlen rest <? 4 then Some (w, rest)
      else match parse_tpkt_header rest with
      | Some header =>
          let total := length header in
          if total <=? zlen rest then
            frame ← slice rest 0 total;
            tpkt_payload ← slice frame 4 (zlen frame);
            w ← dispatch_cotp_frame w (parse_cotp_header tpkt_payload) tpkt_payload dir ts;
            s7_walk fuel w (drop (Z.to_nat total) rest) dir ts
          else Some (w, rest)
      | None => s7_walk fuel w (resync_one_byte rest) dir ts
      end
  end.

(** ** Deliveries and closes *)

Definition s7_overflow_check (s : S7commFlowState) (dir : Direction) (ts : Z) : s7_work :=
  if MAX_S7_ISO_ON_TCP_CARRY_BYTES <? zlen (s7_carry s dir) then
    let s := set_s7_carry s dir [] in
    if negb (overflow_reported s dir) then (set_overflow_reported s dir, [s7_overflow_finding ts dir])
    else (s, [])
  else (s, []).

Definition s7_deliver (s : S7commFlowState) (data : list Z) (ts : Z) (dir : Direction) : panicky s7_work :=
  let '(s, local_findings) := s7_overflow_check s dir ts in
  let working := s7_carry s dir ++ data in
  let s := set_s7_carry s dir [] in
  '((s, local_findings), remainder) ← s7_walk (S (List.length working)) (s, local_findings) working dir ts;
  Some (set_s7_carry s dir remainder, local_findings).

Definition s7_on_data (a : S7commAnalyzer) (k : FlowKey) (data : list Z) (ts : Z) (dir : Direction) :
    panicky S7commAnalyzer :=
  '(s, local_findings) ← s7_deliver (default S7commFlowState_default (flows a !! k)) data ts dir;
  Some (mkS7 (<[k := s]> (flows a)) (findings a ++ local_findings)).

Definition s7_on_flow_close (a : S7commAnalyzer) (k : FlowKey) : S7commAnalyzer :=
  mkS7 (delete k (flows a)) (findings a).

#[global] Instance s7comm_analyzer : FlowAnalyzer (option S7commAnalyzer) := {
  flow_on_data oa k data ts dir := a ← oa; s7_on_data a k data ts dir;
  flow_on_close oa k := (λ a, s7_on_flow_close a k) <$> oa
}.
