(* ===== verification/S7commProps.v ===== *)
(** * Theorems about ISO-on-TCP framing and the S7comm analyzer

    The walk does not depend on how the stream is cut, never panics and keeps
    bounded carries; classification is sticky and reports are not repeated;
    headers round trip. *)

From S2P Require Import Prelude FlowKey Handler Findings Dispatcher S7comm.

#[local] Open Scope Z_scope.
#[local] Existing Instance flow_handler.

(** ** Headers *)

Lemma parse_tpkt_app l k : 4 ≤ zlen l → parse_tpkt_header (l ++ k) = parse_tpkt_header l.
Proof. intros Hl. by do 4 (destruct l as [|? l]; [by vm_compute in Hl|]). Qed.

Lemma parse_tpkt_length l h : parse_tpkt_header l = Some h → 7 ≤ length h ≤ 65535 ∧ 4 ≤ zlen l.
Proof.
  do 4 (destruct l as [|? l]; [done|]). cbn [parse_tpkt_header].
  destruct (negb _); [done|]. match goal with |- context [u16_be ?x ?y] =>
    pose proof (u16_be_u16 x y) as Hu; destruct (Z.ltb_spec (u16_be x y) 7) end; [done|].
  intros [= <-]. cbn [length]. unfold is_u16, u16_max in Hu. rewrite !zlen_cons. pose proof (zlen_nonneg l). lia.
Qed.

Lemma parse_cotp_offset l h :
  Forall is_u8 l → parse_cotp_header l = Some h → 1 ≤ payload_offset h ≤ zlen l.
Proof.
  intros Hl. destruct l as [|li [|code l]]; try done. apply list.Forall_cons in Hl as [Hli _].
  unfold parse_cotp_header. destruct (Z.ltb_spec (zlen (li :: code :: l)) (1 + li)); [done|].
  unfold is_u8 in Hli. intros E.
  assert (payload_offset h = 1 + li) as ->; [|lia].
  repeat case_match; simplify_eq; done.
Qed.

(** ** Resynchronisation *)

Lemma resync_short r : zlen r < 4 → resync_one_byte r = r.
Proof. destruct r; [done|]. intros H. cbn [resync_one_byte]. destruct (Z.leb_spec 4 (zlen (z :: r))); [lia|done]. Qed.

Lemma resync_header r h : parse_tpkt_header r = Some h → resync_one_byte r = r.
Proof. destruct r; [done|]. intros H. cbn [resync_one_byte]. rewrite H, andb_false_r. done. Qed.

Lemma resync_step b r :
  4 ≤ zlen (b :: r) → parse_tpkt_header (b :: r) = None → resync_one_byte (b :: r) = resync_one_byte r.
Proof.
  intros Hl E. cbn [resync_one_byte]. rewrite E.
  destruct (Z.leb_spec 4 (zlen (b :: r))); [done|lia].
Qed.

Lemma resync_length r : (List.length (resync_one_byte r) ≤ List.length r)%nat.
Proof.
  induction r as [|b r IH]; [done|]. cbn [resync_one_byte].
  destruct (_ && _); [|done]. cbn [List.length]. lia.
Qed.

Lemma resync_shrinks r :
  4 ≤ zlen r → parse_tpkt_header r = None → (List.length (resync_one_byte r) < List.length r)%nat.
Proof.
  destruct r as [|b r]; [by intros Hl; vm_compute in Hl|]. intros Hl E. rewrite resync_step by done.
  pose proof (resync_length r). cbn [List.length]. lia.
Qed.

(** Resynchronising before the rest arrives changes nothing. *)
Lemma resync_app r d : resync_one_byte (r ++ d) = resync_one_byte (resync_one_byte r ++ d).
Proof.
  induction r as [|b r IH]; [done|].
  destruct (Z.lt_ge_cases (zlen (b :: r)) 4) as [|Hl]; [by rewrite (resync_short (b :: r))|].
  destruct (parse_tpkt_header (b :: r)) as [h|] eqn:E; [by rewrite (resync_header _ h E)|].
  rewrite (resync_step b r) by done. rewrite <- IH. cbn [app]. apply resync_step.
  - change (b :: r ++ d) with ((b :: r) ++ d). rewrite zlen_app. pose proof (zlen_nonneg d). lia.
  - change (b :: r ++ d) with ((b :: r) ++ d). by rewrite parse_tpkt_app.
Qed.

(** ** The walk *)

Lemma s7_walk_fuel n1 n2 w r dir ts :
  (List.length r < n1)%nat → (List.length r < n2)%nat → s7_walk n1 w r dir ts = s7_walk n2 w r dir ts.
Proof.
  revert n2 w r. induction n1 as [|n1 IH]; intros [|n2] w r H1 H2; try lia. cbn [s7_walk].
  destruct (Z.ltb_spec (zlen r) 4) as [|Hl]; [done|].
  destruct (parse_tpkt_header r) as [h|] eqn:E.
  - apply parse_tpkt_length in E as [Hh _]. destruct (Z.leb_spec (length h) (zlen r)); [|done].
    destruct (slice r 0 _) as [fr|]; [|done]. cbn [mbind option_bind].
    destruct (slice fr 4 _); [|done]. cbn [mbind option_bind].
    destruct (dispatch_cotp_frame _ _ _ _ _); [|done]. cbn [mbind option_bind].
    apply IH; rewrite length_drop; unfold zlen in *; lia.
  - pose proof (resync_shrinks r Hl E). apply IH; lia.
Qed.

Definition s7_walk_all (w : s7_work) (r : list Z) (dir : Direction) (ts : Z) : panicky (s7_work * list Z) :=
  s7_walk (S (List.length r)) w r dir ts.

Lemma s7_walk_all_unfold w r dir ts :
  s7_walk_all w r dir ts =
    if zlen r <? 4 then Some (w, r)
    else match parse_tpkt_header r with
    | Some header =>
        if length header <=? zlen r then
          frame ← slice r 0 (length header);
          tpkt_payload ← slice frame 4 (zlen frame);
          w ← dispatch_cotp_frame w (parse_cotp_header tpkt_payload) tpkt_payload dir ts;
          s7_walk_all w (drop (Z.to_nat (length header)) r) dir ts
        else Some (w, r)
    | None => s7_walk_all w (resync_one_byte r) dir ts
    end.
Proof.
  unfold s7_walk_all at 1. cbn [s7_walk]. destruct (Z.ltb_spec (zlen r) 4) as [|Hl]; [done|].
  destruct (parse_tpkt_header r) as [h|] eqn:E.
  - apply parse_tpkt_length in E as [Hh _]. destruct (Z.leb_spec (length h) (zlen r)); [|done].
    destruct (slice r 0 _) as [fr|]; [|done]. cbn [mbind option_bind].
    destruct (slice fr 4 _); [|done]. cbn [mbind option_bind].
    destruct (dispatch_cotp_frame _ _ _ _ _); [|done]. cbn [mbind option_bind].
    apply s7_walk_fuel; rewrite length_drop; unfold zlen in *; lia.
  - pose proof (resync_shrinks r Hl E). apply s7_walk_fuel; lia.
Qed.

Lemma s7_walk_resync w r dir ts : s7_walk_all w (resync_one_byte r) dir ts = s7_walk_all w r dir ts.
Proof.
  destruct (Z.lt_ge_cases (zlen r) 4) as [|Hl]; [by rewrite resync_short|].
  destruct (parse_tpkt_header r) as [h|] eqn:E; [by rewrite (resync_header _ h E)|].
  rewrite (s7_walk_all_unfold w r), E. destruct (Z.ltb_spec (zlen r) 4); [lia|done].
Qed.

(** What is left of a walk is not a complete frame. *)
Definition s7_incomplete (r : list Z) : Prop :=
  zlen r < 4 ∨ ∃ h, parse_tpkt_header r = Some h ∧ zlen r < length h.

(** A walk can stop anywhere and be resumed. *)
Lemma s7_walk_app w r d dir ts :
  s7_walk_all w (r ++ d) dir ts = '(w', r') ← s7_walk_all w r dir ts; s7_walk_all w' (r' ++ d) dir ts.
Proof.
  remember (List.length r) as n eqn:Hn. revert w r Hn.
  induction n as [n IH] using lt_wf_ind. intros w r ->.
  rewrite (s7_walk_all_unfold w r). destruct (Z.ltb_spec (zlen r) 4) as [|Hl]; [done|].
  assert (zlen (r ++ d) = zlen r + zlen d) as Hz by apply zlen_app. pose proof (zlen_nonneg d).
  destruct (parse_tpkt_header r) as [h|] eqn:E.
  - destruct (parse_tpkt_length _ _ E) as [Hh _].
    destruct (Z.leb_spec (length h) (zlen r)) as [Hc|]; [|done].
    rewrite s7_walk_all_unfold, parse_tpkt_app, E by done.
    destruct (Z.ltb_spec (zlen (r ++ d)) 4); [lia|].
    destruct (Z.leb_spec (length h) (zlen (r ++ d))); [|lia].
    rewrite !slice_Some by lia. cbn [mbind option_bind].
    change (drop (Z.to_nat 0) (r ++ d)) with (r ++ d). change (drop (Z.to_nat 0) r) with r.
    rewrite take_app_le by (unfold zlen in *; lia). rewrite drop_app_le by (unfold zlen in *; lia).
    destruct (slice (take _ r) 4 _); [|done]. cbn [mbind option_bind].
    destruct (dispatch_cotp_frame _ _ _ _ _) as [w'|]; [|done]. cbn [mbind option_bind].
    eapply IH; [|done]. rewrite length_drop. unfold zlen in *. lia.
  - rewrite <- (s7_walk_resync w (r ++ d)), resync_app, s7_walk_resync.
    eapply IH; [|done]. by apply resync_shrinks.
Qed.

Lemma s7_walk_rest w r dir ts w' r' : s7_walk_all w r dir ts = Some (w', r') → s7_incomplete r'.
Proof.
  remember (List.length r) as n eqn:Hn. revert w r Hn.
  induction n as [n IH] using lt_wf_ind. intros w r ->. rewrite s7_walk_all_unfold.
  destruct (Z.ltb_spec (zlen r) 4) as [|Hl]; [intros [= <- <-]; by left|].
  destruct (parse_tpkt_header r) as [h|] eqn:E.
  - destruct (parse_tpkt_length _ _ E) as [Hh _]. destruct (Z.leb_spec (length h) (zlen r)) as [Hc|].
    2:{ intros [= <- <-]. right. by exists h. }
    destruct (slice r 0 _) as [fr|]; [|done]. cbn [mbind option_bind].
    destruct (slice fr 4 _); [|done]. cbn [mbind option_bind].
    destruct (dispatch_cotp_frame _ _ _ _ _); [|done]. cbn [mbind option_bind].
    eapply IH; [|done]. rewrite length_drop. unfold zlen in *. lia.
  - eapply IH; [|done]. by apply resync_shrinks.
Qed.

Lemma s7_incomplete_short r : s7_incomplete r → zlen r < MAX_S7_ISO_ON_TCP_CARRY_BYTES.
Proof.
  unfold MAX_S7_ISO_ON_TCP_CARRY_BYTES. intros [?|(h & [Hh _]%parse_tpkt_length & ?)]; lia.
Qed.

(** ** What a frame may change *)

Definition flagged (s : S7commFlowState) (dir : Direction) : Z :=
  if malformed_reported s dir then 1 else 0.

(** The findings about one direction. *)
Definition reports (dir : Direction) (fs : list Finding) : Z :=
  zlen (filter (λ f, direction f = Some dir) fs).

Lemma reports_app dir fs gs : reports dir (fs ++ gs) = reports dir fs + reports dir gs.
Proof. unfold reports. by rewrite filter_app, zlen_app. Qed.

(** Classification and session only go forward; every finding is about a
    direction and sets its flag, on classic flows only. *)
Record flow_effect (s s' : S7commFlowState) (fs : list Finding) : Prop := {
  fl_class : ∀ p, classified_protocol s = Some p → classified_protocol s' = Some p;
  fl_session : session_established s = true → session_established s' = true;
  fl_count : ∀ dir, flagged s' dir = flagged s dir + reports dir fs;
  fl_total : zlen fs = reports ClientToServer fs + reports ServerToClient fs;
  fl_classic : fs ≠ [] → classified_protocol s' = Some Classic
}.

(** A frame moreover keeps carries and overflow flags. *)
Record frame_effect (s s' : S7commFlowState) (fs : list Finding) : Prop := {
  fe_c2s : carry_c2s s' = carry_c2s s;
  fe_s2c : carry_s2c s' = carry_s2c s;
  fe_over : carry_overflow_reported_c2s s' = carry_overflow_reported_c2s s ∧
            carry_overflow_reported_s2c s' = carry_overflow_reported_s2c s;
  fe_flow : flow_effect s s' fs
}.

(** A change of other fields, without a finding. *)
Lemma frame_effect_silent s s' :
  carry_c2s s' = carry_c2s s → carry_s2c s' = carry_s2c s →
  carry_overflow_reported_c2s s' = carry_overflow_reported_c2s s →
  carry_overflow_reported_s2c s' = carry_overflow_reported_s2c s →
  malformed_header_reported_c2s s' = malformed_header_reported_c2s s →
  malformed_header_reported_s2c s' = malformed_header_reported_s2c s →
  (∀ p, classified_protocol s = Some p → classified_protocol s' = Some p) →
  (session_established s = true → session_established s' = true) →
  frame_effect s s' [].
Proof.
  intros. split; try done. split; try done. intros dir. change (reports dir []) with 0. rewrite Z.add_0_r.
  unfold flagged, malformed_reported. by destruct dir; case_match; case_match; congruence.
Qed.

Lemma frame_effect_refl s : frame_effect s s [].
Proof. by apply frame_effect_silent. Qed.

Lemma flow_effect_trans s1 s2 s3 fs gs :
  flow_effect s1 s2 fs → flow_effect s2 s3 gs → flow_effect s1 s3 (fs ++ gs).
Proof.
  intros [A5 A6 A7 A8 A9] [B5 B6 B7 B8 B9].
  split; [eauto|eauto| |rewrite zlen_app, !reports_app; lia|].
  - intros dir. rewrite reports_app, B7, A7. lia.
  - intros Hne. destruct gs; [|by apply B9]. rewrite app_nil_r in Hne. by apply B5, A9.
Qed.

Lemma frame_effect_trans s1 s2 s3 fs gs :
  frame_effect s1 s2 fs → frame_effect s2 s3 gs → frame_effect s1 s3 (fs ++ gs).
Proof.
  intros [A1 A2 [A3 A4] A5] [B1 B2 [B3 B4] B5].
  split; [congruence|congruence|split; congruence|by eapply flow_effect_trans].
Qed.

(** The findings of a frame are appended to those there are. *)
Definition appends (f : list Finding → panicky s7_work) (s : S7commFlowState) : Prop :=
  (∀ fs, f fs = (λ '(s', gs), (s', fs ++ gs)) <$> f []) ∧
  ∀ s' gs, f [] = Some (s', gs) → frame_effect s s' gs.

Lemma report_malformed_appends s fs dir ts reason :
  ∃ s' gs, report_malformed_header (s, fs) dir ts reason = (s', fs ++ gs) ∧
    report_malformed_header (s, []) dir ts reason = (s', gs) ∧
    (classified_protocol s = Some Classic → frame_effect s s' gs).
Proof.
  unfold report_malformed_header. destruct (malformed_reported s dir) eqn:E.
  - eexists _, _. split; [by rewrite app_nil_r|]. split; [done|]. intros. apply frame_effect_refl.
  - eexists _, _. split; [done|]. split; [done|]. intros Hc.
    split; try (by destruct dir). split; try (by destruct dir). intros d. unfold flagged.
    destruct dir, d; cbn in *; by rewrite ?E, ?Z.add_0_r.
Qed.

Lemma classic_appends s fs payload dir ts :
  ∃ s' gs, dispatch_classic_s7comm (s, fs) payload dir ts = (s', fs ++ gs) ∧
    dispatch_classic_s7comm (s, []) payload dir ts = (s', gs) ∧
    (classified_protocol s = Some Classic → frame_effect s s' gs).
Proof.
  unfold dispatch_classic_s7comm. destruct (parse_s7comm_header payload) as [h|].
  - destruct (s7comm_bounds_ok _ _); [|apply report_malformed_appends].
    eexists _, []. split; [by rewrite app_nil_r|]. split; [done|]. intros. apply frame_effect_refl.
  - apply report_malformed_appends.
Qed.

Lemma classify_effect s p : frame_effect s (classify_first_dt_frame s p) [].
Proof.
  unfold classify_first_dt_frame. destruct p as [b|]; [|apply frame_effect_refl].
  destruct (classified_protocol s) as [q|] eqn:E; [apply frame_effect_refl|].
  apply frame_effect_silent; try done. by rewrite E.
Qed.

Lemma dispatch_appends s cotp payload dir ts :
  appends (λ fs, dispatch_cotp_frame (s, fs) cotp payload dir ts) s.
Proof.
  assert (∀ s', frame_effect s s' [] → appends (λ fs, Some (s', fs)) s) as Hplain.
  { intros s' He. split; [intros fs; cbn; by rewrite app_nil_r|]. by intros ? ? [= <- <-]. }
  unfold dispatch_cotp_frame. destruct cotp as [h|]; [|apply Hplain, frame_effect_refl].
  destruct (tpdu_type h).
  - by apply Hplain, frame_effect_silent.
  - destruct (cr_observed_dir s) as [cr|]; [|apply Hplain, frame_effect_refl].
    destruct (decide _); [|apply Hplain, frame_effect_refl].
    by apply Hplain, frame_effect_silent.
  - pose proof (classify_effect s (protocol_id h)) as He.
    set (s1 := classify_first_dt_frame s (protocol_id h)) in *. clearbody s1. cbn zeta.
    destruct (match protocol_id h with Some 0x32 => true | _ => false end) eqn:Ep.
    + destruct (protocol_id h) as [b|]; [|done]. assert (b = 0x32) as ->.
      { revert Ep. repeat case_match; done. }
      destruct (decide (classified_protocol s1 = Some Classic)) as [Hc|]; [|by apply Hplain].
      destruct (slice _ _ _) as [l|]; [|by split]. cbn [mbind option_bind]. split.
      * intros fs. destruct (classic_appends s1 fs l dir ts) as (s' & gs & -> & -> & _). done.
      * intros s' gs. destruct (classic_appends s1 [] l dir ts) as (s2 & gs2 & _ & -> & H2).
        intros [= <- <-]. change gs2 with ([] ++ gs2). eapply frame_effect_trans; [done|by apply H2].
    + assert (∀ (x y : list Finding → panicky s7_work),
        (λ fs, match protocol_id h with Some 0x32 => x fs | _ => y fs end) = λ fs,
          if (match protocol_id h with Some 0x32 => true | _ => false end) then x fs else y fs) as Hm.
      { intros x y. clear. repeat case_match; done. }
      rewrite Hm, Ep. by apply Hplain.
Qed.


(** The same for the walk. *)
Lemma s7_walk_appends r s dir ts :
  (∀ fs, s7_walk_all (s, fs) r dir ts
     = (λ '((s', gs), r'), ((s', fs ++ gs), r')) <$> s7_walk_all (s, []) r dir ts) ∧
  (∀ s' gs r', s7_walk_all (s, []) r dir ts = Some ((s', gs), r') → frame_effect s s' gs).
Proof.
  remember (List.length r) as n eqn:Hn. revert s r Hn.
  induction n as [n IH] using lt_wf_ind. intros s r ->.
  setoid_rewrite (s7_walk_all_unfold (s, _) r).
  assert ((∀ fs : list Finding, Some ((s, fs), r)
        = (λ '((s', gs), r'), ((s', fs ++ gs), r')) <$> Some ((s, [] : list Finding), r)) ∧
    (∀ s' gs r', Some ((s, [] : list Finding), r) = Some ((s', gs), r') → frame_effect s s' gs)) as Hstop.
  { split; [intros fs; cbn; by rewrite app_nil_r|]. intros s' gs r' [= <- <- <-]. apply frame_effect_refl. }
  destruct (Z.ltb_spec (zlen r) 4) as [|Hl]; [done|].
  destruct (parse_tpkt_header r) as [h|] eqn:E.
  2:{ eapply IH; [|done]. by apply resync_shrinks. }
  destruct (parse_tpkt_length _ _ E) as [Hh _].
  destruct (Z.leb_spec (length h) (zlen r)) as [Hc|]; [|done].
  destruct (slice r 0 _) as [fr|]; [|done]. cbn [mbind option_bind].
  destruct (slice fr 4 _) as [pl|]; [|done]. cbn [mbind option_bind].
  destruct (dispatch_appends s (parse_cotp_header pl) pl dir ts) as [Ha He].
  setoid_rewrite Ha. destruct (dispatch_cotp_frame (s, []) _ pl dir ts) as [[s1 gs1]|]; [|done].
  cbn [fmap option_fmap option_map mbind option_bind].
  destruct (IH (List.length (drop (Z.to_nat (length h)) r))) with (s := s1) (r := drop (Z.to_nat (length h)) r)
    as [Ha2 He2]; [rewrite length_drop; unfold zlen in *; lia|done|].
  split.
  - intros fs. rewrite (Ha2 (fs ++ gs1)), (Ha2 ([] ++ gs1)).
    destruct (s7_walk_all (s1, []) _ _ _) as [[[s2 gs2] r2]|]; [|done]. cbn. by rewrite app_assoc.
  - intros s' gs r'. rewrite (Ha2 ([] ++ gs1)).
    destruct (s7_walk_all (s1, []) _ _ _) as [[[s2 gs2] r2]|] eqn:E2; [|done]. cbn. intros [= <- <- <-].
    eapply frame_effect_trans; [by apply He|by eapply He2].
Qed.

(** ** Deliveries *)

Lemma s7_carry_set s dir c : s7_carry (set_s7_carry s dir c) dir = c.
Proof. by destruct dir. Qed.

Lemma set_s7_carry_set s dir c c' : set_s7_carry (set_s7_carry s dir c) dir c' = set_s7_carry s dir c'.
Proof. by destruct dir. Qed.

Lemma frame_effect_carry s s' fs dir : frame_effect s s' fs → s7_carry s' dir = s7_carry s dir.
Proof. intros []. by destruct dir. Qed.

Lemma set_s7_carry_same s dir : set_s7_carry s dir (s7_carry s dir) = s.
Proof. by destruct dir, s. Qed.

(** Below the cap a delivery is the walk. *)
Lemma s7_deliver_walk s data ts dir :
  zlen (s7_carry s dir) ≤ MAX_S7_ISO_ON_TCP_CARRY_BYTES →
  s7_deliver s data ts dir =
    '((s', fs), r) ← s7_walk_all (set_s7_carry s dir [], []) (s7_carry s dir ++ data) dir ts;
    Some (set_s7_carry s' dir r, fs).
Proof.
  intros Hc. unfold s7_deliver, s7_overflow_check.
  destruct (Z.ltb_spec MAX_S7_ISO_ON_TCP_CARRY_BYTES (zlen (s7_carry s dir))); [lia|done].
Qed.

(** A delivery keeps the other direction, goes forward, and leaves less than a
    frame. *)
Lemma s7_deliver_effect s data ts dir s' fs :
  zlen (s7_carry s dir) ≤ MAX_S7_ISO_ON_TCP_CARRY_BYTES → s7_deliver s data ts dir = Some (s', fs) →
  frame_effect (set_s7_carry s dir (s7_carry s' dir)) s' fs ∧ s7_incomplete (s7_carry s' dir).
Proof.
  intros Hc. rewrite s7_deliver_walk by done.
  destruct (s7_walk_all _ _ _ _) as [[[s1 gs] r]|] eqn:E; [|done]. cbn [mbind option_bind].
  intros [= <- <-]. pose proof (s7_walk_rest _ _ _ _ _ _ E) as Hr. apply s7_walk_appends in E as He.
  rewrite s7_carry_set. split; [|done]. destruct He as [A1 A2 A3 A4].
  assert (flow_effect s s1 gs) as Hf.
  { destruct A4 as [F1 F2 F3 F4 F5]. split; try done; [by destruct dir..|]. intros d. rewrite F3. by destruct dir, d. }
  destruct Hf as [F1 F2 F3 F4 F5].
  destruct dir; split; try done; split; try done; intros d; specialize (F3 d); by destruct d.
Qed.

Lemma s7_deliver_app s d1 d2 ts dir :
  zlen (s7_carry s dir) ≤ MAX_S7_ISO_ON_TCP_CARRY_BYTES →
  s7_deliver s (d1 ++ d2) ts dir =
    '(s1, fs1) ← s7_deliver s d1 ts dir; '(s2, fs2) ← s7_deliver s1 d2 ts dir; Some (s2, fs1 ++ fs2).
Proof.
  intros Hc. rewrite !(s7_deliver_walk s) by done. rewrite app_assoc, s7_walk_app.
  destruct (s7_walk_all _ (s7_carry s dir ++ d1) _ _) as [[[s1 gs1] r1]|] eqn:E; [|done].
  cbn [mbind option_bind]. pose proof (s7_incomplete_short _ (s7_walk_rest _ _ _ _ _ _ E)) as Hr.
  apply s7_walk_appends in E as He. apply frame_effect_carry with (dir := dir) in He. rewrite s7_carry_set in He.
  rewrite s7_deliver_walk by (rewrite s7_carry_set; lia). rewrite s7_carry_set, set_s7_carry_set.
  assert (set_s7_carry s1 dir [] = s1) as -> by (rewrite <- He; apply set_s7_carry_same).
  rewrite (proj1 (s7_walk_appends (r1 ++ d2) s1 dir ts) gs1).
  by destruct (s7_walk_all (s1, []) _ _ _) as [[[s2 gs2] r2]|].
Qed.

(** ** Bytes and panics *)

Lemma resync_u8 r : Forall is_u8 r → Forall is_u8 (resync_one_byte r).
Proof.
  induction 1 as [|b r Hb Hr IH]; [done|]. cbn [resync_one_byte]. destruct (_ && _); [done|by constructor].
Qed.

Lemma dispatch_total w pl dir ts :
  Forall is_u8 pl → ∃ w', dispatch_cotp_frame w (parse_cotp_header pl) pl dir ts = Some w'.
Proof.
  intros Hl. destruct w as [s fs]. unfold dispatch_cotp_frame.
  destruct (parse_cotp_header pl) as [h|] eqn:E; [|by eexists].
  pose proof (parse_cotp_offset _ _ Hl E). destruct (tpdu_type h); [by eexists| |].
  - repeat case_match; by eexists.
  - rewrite slice_suffix by lia. cbn [mbind option_bind]. repeat case_match; by eexists.
Qed.

Lemma s7_walk_total w r dir ts :
  Forall is_u8 r → ∃ w' r', s7_walk_all w r dir ts = Some (w', r') ∧ Forall is_u8 r'.
Proof.
  remember (List.length r) as n eqn:Hn. revert w r Hn.
  induction n as [n IH] using lt_wf_ind. intros w r -> Hr. rewrite s7_walk_all_unfold.
  destruct (Z.ltb_spec (zlen r) 4) as [|Hl]; [by exists w, r|].
  destruct (parse_tpkt_header r) as [h|] eqn:E.
  2:{ eapply IH; [|done|by apply resync_u8]. by apply resync_shrinks. }
  destruct (parse_tpkt_length _ _ E) as [Hh _].
  destruct (Z.leb_spec (length h) (zlen r)) as [Hc|]; [|by exists w, r].
  rewrite slice_Some by lia. cbn [mbind option_bind]. change (drop (Z.to_nat 0) r) with r.
  set (fr := take _ r). assert (zlen fr = length h) as Hfr.
  { unfold fr, zlen in *. rewrite length_take. lia. }
  rewrite slice_suffix by lia. cbn [mbind option_bind].
  destruct (dispatch_total w (drop (Z.to_nat 4) fr) dir ts) as [w' ->].
  { by apply Forall_drop, Forall_take. }
  cbn [mbind option_bind]. eapply IH; [|done|by apply Forall_drop].
  rewrite length_drop. unfold zlen in *. lia.
Qed.

(** ** Analyzer *)

(** What every reachable flow satisfies. *)
Record s7_flow_ok (s : S7commFlowState) : Prop := {
  s7f_c2s : s7_incomplete (carry_c2s s);
  s7f_s2c : s7_incomplete (carry_s2c s);
  s7f_bytes : Forall is_u8 (carry_c2s s) ∧ Forall is_u8 (carry_s2c s);
  s7f_over : carry_overflow_reported_c2s s = false ∧ carry_overflow_reported_s2c s = false
}.

Lemma s7_flow_ok_default : s7_flow_ok S7commFlowState_default.
Proof. split; try done; by left. Qed.

Lemma s7_flow_ok_carry s dir :
  s7_flow_ok s → zlen (s7_carry s dir) < MAX_S7_ISO_ON_TCP_CARRY_BYTES ∧ Forall is_u8 (s7_carry s dir).
Proof. intros [A B [C D] _]. destruct dir; (split; [by apply s7_incomplete_short|done]). Qed.

Lemma s7_deliver_ok s data ts dir :
  s7_flow_ok s → Forall is_u8 data →
  ∃ s' fs, s7_deliver s data ts dir = Some (s', fs) ∧ s7_flow_ok s' ∧
    frame_effect (set_s7_carry s dir (s7_carry s' dir)) s' fs.
Proof.
  intros Hs Hd. destruct (s7_flow_ok_carry s dir Hs) as [Hc Hb].
  assert (∃ s' fs, s7_deliver s data ts dir = Some (s', fs) ∧ Forall is_u8 (s7_carry s' dir))
    as (s' & fs & E & Hu).
  { rewrite s7_deliver_walk by lia.
    destruct (s7_walk_total (set_s7_carry s dir [], []) (s7_carry s dir ++ data) dir ts)
      as ([s1 fs1] & r' & -> & Hr'); [by apply Forall_app|].
    eexists _, _. split; [done|]. by rewrite s7_carry_set. }
  destruct (s7_deliver_effect s data ts dir s' fs) as [He Hi]; [lia|done|].
  exists s', fs. split_and!; [done| |done]. destruct Hs as [A B [C D] [O P]], He as [E1 E2 [E3 E4] _].
  destruct dir; cbn in *; split; (split || idtac); congruence.
Qed.

Definition s7_state (a : S7commAnalyzer) (k : FlowKey) : S7commFlowState :=
  default S7commFlowState_default (flows a !! k).

Definition s7_ok (a : S7commAnalyzer) : Prop := ∀ k, s7_flow_ok (s7_state a k).

Lemma s7_state_insert a k s fs k' :
  s7_state (mkS7 (<[k := s]> (flows a)) fs) k' = if decide (k = k') then s else s7_state a k'.
Proof. unfold s7_state. cbn [flows]. rewrite lookup_insert. by destruct (decide (k = k')). Qed.

Lemma s7_on_data_ok a k data ts dir :
  s7_ok a → Forall is_u8 data →
  ∃ s' fs, s7_on_data a k data ts dir = Some (mkS7 (<[k := s']> (flows a)) (findings a ++ fs)) ∧
    s7_ok (mkS7 (<[k := s']> (flows a)) (findings a ++ fs)) ∧
    frame_effect (set_s7_carry (s7_state a k) dir (s7_carry s' dir)) s' fs.
Proof.
  intros Ha Hd. destruct (s7_deliver_ok (s7_state a k) data ts dir) as (s' & fs & E & Hs & He); [done..|].
  exists s', fs. unfold s7_on_data. change (default _ _) with (s7_state a k). rewrite E.
  split_and!; [done| |done]. intros k'. rewrite s7_state_insert. by case_decide.
Qed.

Lemma s7_replay_ok es a :
  s7_ok a → Forall event_u8 es → ∃ a', replay (Some a) es = Some a' ∧ s7_ok a'.
Proof.
  intros Ha Hes. apply (replay_invariant event_u8); [|done|done]. clear. intros a [k dir data off ts|k r] Ha He.
  - destruct (s7_on_data_ok a k data ts dir Ha He) as (s' & fs & E & H & _). eexists. split; [exact E|done].
  - eexists. split; [done|]. intros k'. unfold s7_state, s7_on_flow_close. cbn [flows].
    destruct (decide (k = k')) as [<-|]; [rewrite lookup_delete_eq; apply s7_flow_ok_default|].
    rewrite lookup_delete_ne by done. apply Ha.
Qed.

Lemma s7_ok_new : s7_ok S7commAnalyzer_new.
Proof. intros k. unfold s7_state. cbn. rewrite lookup_empty. apply s7_flow_ok_default. Qed.

(** Deliveries on one flow. *)
Definition deliveries (k : FlowKey) (ds : list (list Z * Direction * Z * Z)) : trace :=
  (λ '(data, dir, off, ts), EData k dir data off ts) <$> ds.

Lemma frame_effect_flow s s' fs dir c : frame_effect (set_s7_carry s dir c) s' fs → flow_effect s s' fs.
Proof.
  intros [_ _ _ [A4 A5 A6 A7 A8]]. split; try done; [by destruct dir|by destruct dir|].
  intros d. rewrite A6. by destruct dir, d.
Qed.

Lemma s7_deliveries_effect k ds a :
  s7_ok a → Forall event_u8 (deliveries k ds) →
  ∃ a' fs, replay (Some a) (deliveries k ds) = Some a' ∧
    delete k (flows a') = delete k (flows a) ∧ findings a' = findings a ++ fs ∧
    flow_effect (s7_state a k) (s7_state a' k) fs.
Proof.
  revert a. induction ds as [|[[[data dir] off] ts] ds IH]; intros a Ha Hds.
  { exists a, []. split_and!; [done|done|by rewrite app_nil_r|].
    split; try done. intros dir. change (reports dir []) with 0. lia. }
  apply list.Forall_cons in Hds as [Hd Hds].
  destruct (s7_on_data_ok a k data ts dir Ha Hd) as (s1 & fs1 & E1 & Ha1 & He1).
  destruct (IH _ Ha1 Hds) as (a' & fs2 & Er & Hdel & Hf & He2).
  exists a', (fs1 ++ fs2). split_and!.
  - unfold replay in *. cbn [deliveries fmap list_fmap foldl]. rewrite <- Er. f_equal. exact E1.
  - rewrite Hdel. cbn [flows]. apply delete_insert_eq.
  - rewrite Hf. cbn [findings]. by rewrite app_assoc.
  - eapply flow_effect_trans; [by eapply frame_effect_flow|].
    rewrite s7_state_insert in He2. by rewrite decide_True in He2.
Qed.

Lemma reports_nonneg dir fs : 0 ≤ reports dir fs.
Proof. apply zlen_nonneg. Qed.

(** ** Theorems *)

(** C25. Findings and state do not depend on how a stream is cut into segments.
    On a flow whose carry respects the cap, delivering a chunk in one piece or
    in two, cut anywhere, gives the same analyzer: the same COTP session,
    classification and carries, and the same findings in the same order; and
    one order panics exactly when the other does. *)
Theorem s7_segmentation_independent a k d1 d2 ts dir :
  zlen (s7_carry (default S7commFlowState_default (flows a !! k)) dir) ≤ MAX_S7_ISO_ON_TCP_CARRY_BYTES →
  s7_on_data a k (d1 ++ d2) ts dir = a1 ← s7_on_data a k d1 ts dir; s7_on_data a1 k d2 ts dir.
Proof.
  intros Hc. unfold s7_on_data at 1. rewrite s7_deliver_app by done.
  unfold s7_on_data. destruct (s7_deliver _ d1 ts dir) as [[s1 fs1]|]; [|done]. cbn [mbind option_bind].
  cbn [flows findings]. rewrite lookup_insert_eq. change (default _ (Some s1)) with s1.
  destruct (s7_deliver s1 d2 ts dir) as [[s2 fs2]|]; [|done]. cbn [mbind option_bind].
  by rewrite insert_insert_eq, app_assoc.
Qed.

(** A classic job header inside TPKT and COTP, and one cut short. *)
Definition sample_job : list Z :=
  [3; 0; 0; 17; 2; 0xF0; 0x80; 0x32; 1; 0; 0; 0; 1; 0; 0; 0; 0].
Definition sample_truncated : list Z := [3; 0; 0; 9; 2; 0xF0; 0x80; 0x32; 1].
Definition sample_s7_key : FlowKey := FlowKey_new (V4 1) 40000 (V4 2) 102.

Lemma s7_segmentation_independent_witness :
  s7_on_data S7commAnalyzer_new sample_s7_key ([0xFF] ++ take 5 sample_job ++ (drop 5 sample_job ++ sample_truncated))
    9 ClientToServer
  = (a1 ← s7_on_data S7commAnalyzer_new sample_s7_key ([0xFF] ++ take 5 sample_job) 9 ClientToServer;
     s7_on_data a1 sample_s7_key (drop 5 sample_job ++ sample_truncated) 9 ClientToServer).
Proof.
  rewrite app_assoc. apply (s7_segmentation_independent S7commAnalyzer_new sample_s7_key).
  vm_compute. discriminate.
Defined.

(** The analyzer never panics and its carries are bounded.  Over any trace
    of byte deliveries and closes, on any flows, every call succeeds; what a
    direction carries is always less than a frame and below the 65,535 byte
    cap, so that the branch which clears an overflowing carry is never taken
    and its latch is never set. *)
Theorem s7_bounded es :
  Forall event_u8 es →
  ∃ a, replay (Some S7commAnalyzer_new) es = Some a ∧
    ∀ k s, flows a !! k = Some s → ∀ dir,
      s7_incomplete (s7_carry s dir) ∧
      zlen (s7_carry s dir) < MAX_S7_ISO_ON_TCP_CARRY_BYTES ∧
      overflow_reported s dir = false.
Proof.
  intros Hes. destruct (s7_replay_ok es _ s7_ok_new Hes) as (a & E & Ha). exists a. split; [done|].
  intros k s Hk dir. specialize (Ha k). unfold s7_state in Ha. rewrite Hk in Ha. cbn in Ha.
  split; [|split; [by apply s7_flow_ok_carry|]]; destruct Ha as [? ? _ [? ?]]; destruct dir; assumption.
Qed.

Lemma s7_bounded_witness :
  ∃ a, replay (Some S7commAnalyzer_new)
      [EData sample_s7_key ClientToServer (take 12 sample_job) 0 9] = Some a ∧
    ∀ s, flows a !! sample_s7_key = Some s → zlen (s7_carry s ClientToServer) < 65535.
Proof.
  destruct (s7_bounded [EData sample_s7_key ClientToServer (take 12 sample_job) 0 9]) as (a & E & H).
  { apply (bool_decide_unpack _). vm_compute. exact I. }
  exists a. split; [exact E|]. intros s Hs. apply (H _ s Hs ClientToServer).
Defined.

(** Reports are not repeated and what is learned is not forgotten.  From
    any reachable analyzer, over any further byte deliveries on one flow: the
    other flows and the earlier findings are untouched; a classification, once
    made, stays, and so does an established session; each direction gets at
    most one new finding, and none if it was reported before; and a finding is
    made only on a flow classified as classic S7comm. *)
Theorem s7_reports_once es0 a k ds :
  Forall event_u8 es0 → replay (Some S7commAnalyzer_new) es0 = Some a →
  Forall event_u8 (deliveries k ds) →
  ∃ a' fs, replay (Some a) (deliveries k ds) = Some a' ∧
    delete k (flows a') = delete k (flows a) ∧ findings a' = findings a ++ fs ∧
    (∀ p, classified_protocol (s7_state a k) = Some p → classified_protocol (s7_state a' k) = Some p) ∧
    (session_established (s7_state a k) = true → session_established (s7_state a' k) = true) ∧
    (∀ dir, reports dir fs ≤ 1 ∧ (malformed_reported (s7_state a k) dir = true → reports dir fs = 0)) ∧
    zlen fs = reports ClientToServer fs + reports ServerToClient fs ∧
    (fs ≠ [] → classified_protocol (s7_state a' k) = Some Classic).
Proof.
  intros H0 E0 Hds. destruct (s7_replay_ok es0 _ s7_ok_new H0) as (a0 & E & Ha).
  rewrite E0 in E. injection E as <-.
  destruct (s7_deliveries_effect k ds a Ha Hds) as (a' & fs & Er & Hd & Hf & [C1 C2 C3 C4 C5]).
  exists a', fs. split_and!; try done. intros dir. specialize (C3 dir). pose proof (reports_nonneg dir fs).
  unfold flagged in C3. repeat case_match; split; lia || done || (intros; lia).
Qed.

Lemma s7_reports_once_witness :
  ∃ a' fs, replay (Some S7commAnalyzer_new)
      (deliveries sample_s7_key [(sample_truncated ++ sample_truncated, ClientToServer, 0, 9)]) = Some a' ∧
    findings a' = fs ∧ reports ClientToServer fs ≤ 1 ∧ zlen fs = 1.
Proof.
  destruct (s7_reports_once [] S7commAnalyzer_new sample_s7_key
    [(sample_truncated ++ sample_truncated, ClientToServer, 0, 9)]) as (a' & fs & E & _ & Hf & _ & _ & Hr & _).
  - done.
  - reflexivity.
  - apply (bool_decide_unpack _). vm_compute. exact I.
  - exists a', fs. split_and!; [exact E|exact Hf|apply Hr|]. revert E Hf. vm_compute (replay _ _).
    intros [= <-] Hf. cbn [findings] in Hf. rewrite app_nil_l in Hf. rewrite <- Hf. reflexivity.
Defined.

(** ** One data frame *)

(** The documented shape of a classic header: protocol id, ROSCTR, two reserved
    bytes, reference, and lengths that fit in what follows a header of ten
    bytes, twelve for acknowledgements. *)
Definition s7_well_formed (body : list Z) : Prop :=
  ∃ rc r1 r2 p1 p2 a1 a2 d1 d2 rest, body = 0x32 :: rc :: r1 :: r2 :: p1 :: p2 :: a1 :: a2 :: d1 :: d2 :: rest ∧
    (((rc = 1 ∨ rc = 7) ∧ u16_be a1 a2 + u16_be d1 d2 ≤ zlen rest) ∨
     ((rc = 2 ∨ rc = 3) ∧ 2 + u16_be a1 a2 + u16_be d1 d2 ≤ zlen rest)).

Lemma s7comm_bounds_exact h n :
  0 ≤ header_len h ≤ 12 → 0 ≤ param_length h ≤ 65535 → 0 ≤ data_length h ≤ 65535 →
  s7comm_bounds_ok h n = (header_len h + param_length h + data_length h <=? n).
Proof.
  intros. unfold s7comm_bounds_ok. assert (131082 ≤ usize_max) by (vm_compute; discriminate).
  rewrite cadd_Some by lia. cbn [mbind option_bind]. by rewrite cadd_Some by lia.
Qed.

Definition s7_accepts (body : list Z) : bool :=
  match parse_s7comm_header body with
  | Some h => s7comm_bounds_ok h (zlen body)
  | None => false
  end.

Lemma s7_accepts_well_formed body : s7_accepts body = true ↔ s7_well_formed body.
Proof.
  unfold s7_accepts. split.
  - do 10 (destruct body as [|? body]; [done|]). cbn [parse_s7comm_header].
    destruct (Z.eqb_spec z 0x32) as [->|]; [|done]. cbn [negb].
    intros H. exists z0, z1, z2, z3, z4, z5, z6, z7, z8, body. split; [done|].
    pose proof (u16_be_u16 z5 z6) as U1. pose proof (u16_be_u16 z7 z8) as U2. unfold is_u16, u16_max in *.
    assert (∀ r c e n, 0 ≤ n ≤ 12 →
      s7comm_bounds_ok (mkS7Header r (u16_be z3 z4) (u16_be z5 z6) (u16_be z7 z8) c e n)
        (zlen (0x32 :: z0 :: z1 :: z2 :: z3 :: z4 :: z5 :: z6 :: z7 :: z8 :: body)) = true →
      n + u16_be z5 z6 + u16_be z7 z8 ≤ 10 + zlen body) as Hb.
    { intros r c e n Hn. rewrite s7comm_bounds_exact by (cbn; lia). rewrite !zlen_cons. cbn. lia. }
    clear U1 U2. repeat case_match; try done; simplify_eq;
      (apply Hb in H; [|lia]); tauto || lia || idtac.
  - intros (rc & r1 & r2 & p1 & p2 & a1 & a2 & d1 & d2 & rest & -> & H).
    pose proof (u16_be_u16 a1 a2) as U1. pose proof (u16_be_u16 d1 d2) as U2. unfold is_u16, u16_max in *.
    destruct H as [[[-> | ->] H]|[[-> | ->] H]]; cbn [parse_s7comm_header Z.eqb Pos.eqb negb];
      [| |destruct rest as [|x1 [|x2 rest]]; [unfold zlen in H; cbn [List.length] in H; lia..|]
        |destruct rest as [|x1 [|x2 rest]]; [unfold zlen in H; cbn [List.length] in H; lia..|]];
      rewrite s7comm_bounds_exact by (cbn; lia); cbn [header_len param_length data_length];
      rewrite !zlen_cons in *; lia.
Qed.

(** [body] in a COTP data unit in a TPKT packet. *)
Definition dt_frame (body : list Z) : list Z :=
  [3; 0; (zlen body + 7) / 256; (zlen body + 7) mod 256; 2; 0xF0; 0x80] ++ body.

Definition s7_protocol_of (b : Z) : S7Protocol :=
  if b =? 0x32 then Classic else if b =? 0x72 then Plus else Unclassified.

Lemma parse_tpkt_dt_frame body :
  zlen body ≤ 65528 → parse_tpkt_header (dt_frame body) = Some (mkTpkt 3 (zlen body + 7)).
Proof.
  intros Hl. pose proof (zlen_nonneg body). cbn [parse_tpkt_header dt_frame app Z.eqb Pos.eqb negb].
  assert (u16_be ((zlen body + 7) / 256) ((zlen body + 7) mod 256) = zlen body + 7) as ->.
  { unfold u16_be. rewrite (Z.mul_comm _ 256), <- Z.div_mod by lia. apply Z.mod_small. lia. }
  destruct (Z.ltb_spec (zlen body + 7) 7); [lia|done].
Qed.

Lemma parse_cotp_dt body :
  parse_cotp_header (2 :: 0xF0 :: 0x80 :: body) = Some (mkCotp DataTransfer (head body) 3).
Proof.
  unfold parse_cotp_header. rewrite !zlen_cons. pose proof (zlen_nonneg body).
  destruct (Z.ltb_spec (1 + (1 + (1 + zlen body))) (1 + 2)); [lia|].
  change (Z.land 0xF0 0xF0) with 0xF0. cbn iota. do 2 f_equal. destruct body as [|b body].
  - done.
  - rewrite zlen_cons. pose proof (zlen_nonneg body).
    by destruct (Z.ltb_spec (1 + 2) (1 + (1 + (1 + (1 + zlen body))))); [|lia].
Qed.

Lemma s7_walk_dt_frame w body dir ts :
  zlen body ≤ 65528 →
  s7_walk_all w (dt_frame body) dir ts =
    (w' ← dispatch_cotp_frame w (Some (mkCotp DataTransfer (head body) 3)) (2 :: 0xF0 :: 0x80 :: body) dir ts;
     Some (w', [])).
Proof.
  intros Hl. rewrite s7_walk_all_unfold, parse_tpkt_dt_frame by done. cbn [length].
  assert (zlen (dt_frame body) = zlen body + 7) as Hz by (unfold dt_frame; rewrite zlen_app; unfold zlen at 1; cbn [List.length]; lia).
  pose proof (zlen_nonneg body). destruct (Z.ltb_spec (zlen (dt_frame body)) 4); [lia|].
  rewrite Hz, Z.leb_refl. rewrite <- Hz, slice_full. cbn [mbind option_bind].
  rewrite slice_suffix by lia. cbn [mbind option_bind]. change (drop (Z.to_nat 4) _) with (2 :: 0xF0 :: 0x80 :: body).
  rewrite parse_cotp_dt. destruct (dispatch_cotp_frame _ _ _ _ _) as [w'|]; [|done]. cbn [mbind option_bind].
  rewrite drop_ge by (unfold zlen; lia). done.
Qed.

Lemma classify_protocol s p :
  classified_protocol (classify_first_dt_frame s p) =
    match classified_protocol s with Some q => Some q | None => s7_protocol_of <$> p end.
Proof.
  unfold classify_first_dt_frame, s7_protocol_of. destruct p as [b|]; [|by destruct (classified_protocol s)].
  destruct (classified_protocol s) eqn:E; [by rewrite E|]. cbn. f_equal.
  destruct (Z.eqb_spec b 0x32) as [->|H1]; [done|]. destruct (Z.eqb_spec b 0x72) as [->|H2]; [done|].
  by repeat case_match.
Qed.

(** One report, about this direction at this time. *)
Definition malformed_report (f : Finding) (dir : Direction) (ts : Z) : Prop :=
  mitre_techniques f = ["T0814"%string] ∧ direction f = Some dir ∧ timestamp f = Some ts.

Lemma report_malformed_reports s dir ts reason :
  ∃ s' fs, report_malformed_header (s, []) dir ts reason = (s', fs) ∧
    classified_protocol s' = classified_protocol s ∧ s7_carry s' dir = s7_carry s dir ∧
    malformed_reported s' dir = true ∧
    (fs = [] ∧ malformed_reported s dir = true ∨
     ∃ f, fs = [f] ∧ malformed_reported s dir = false ∧ malformed_report f dir ts).
Proof.
  unfold report_malformed_header. destruct (malformed_reported s dir) eqn:E.
  - eexists _, _. split_and!; [done..|]. left. auto.
  - eexists _, _. split_and!; [done|by destruct dir|by destruct dir|by destruct dir|]. right. by eexists.
Qed.

Lemma classic_reports s body dir ts :
  ∃ s' fs, dispatch_classic_s7comm (s, []) body dir ts = (s', fs) ∧
    classified_protocol s' = classified_protocol s ∧ s7_carry s' dir = s7_carry s dir ∧
    malformed_reported s' dir = (malformed_reported s dir || negb (s7_accepts body)) ∧
    (fs = [] ∧ (s7_accepts body = true ∨ malformed_reported s dir = true) ∨
     ∃ f, fs = [f] ∧ s7_accepts body = false ∧ malformed_reported s dir = false ∧ malformed_report f dir ts).
Proof.
  unfold dispatch_classic_s7comm. destruct (s7_accepts body) eqn:Ha; unfold s7_accepts in Ha;
    destruct (parse_s7comm_header body) as [h|]; try done; rewrite ?Ha.
  { eexists _, _. split_and!; [done..|by rewrite orb_false_r|]. left. auto. }
  all: rewrite orb_true_r; match goal with |- context [report_malformed_header _ _ _ ?r] =>
    destruct (report_malformed_reports s dir ts r) as (s' & fs & -> & H1 & H2 & H3 & [H4|H4]) end;
    exists s', fs; split_and!; try done; naive_solver.
Qed.

Lemma dispatch_dt s body dir ts :
  let s1 := classify_first_dt_frame s (head body) in
  dispatch_cotp_frame (s, []) (Some (mkCotp DataTransfer (head body) 3)) (2 :: 0xF0 :: 0x80 :: body) dir ts =
    Some (if decide (head body = Some 0x32 ∧ classified_protocol s1 = Some Classic)
          then dispatch_classic_s7comm (s1, []) body dir ts else (s1, [])).
Proof.
  unfold dispatch_cotp_frame. cbn [tpdu_type protocol_id payload_offset]. cbn zeta.
  rewrite slice_suffix by (rewrite !zlen_cons; pose proof (zlen_nonneg body); lia).
  change (drop (Z.to_nat 3) _) with body. cbn [mbind option_bind].
  generalize (classify_first_dt_frame s (head body)). intros s1.
  destruct (decide (head body = Some 0x32)) as [Hh|Hh].
  - rewrite Hh. destruct (decide (classified_protocol s1 = Some Classic)).
    + by rewrite decide_True.
    + rewrite decide_False; [done|tauto].
  - rewrite (decide_False (P := _ ∧ _)) by tauto. destruct (head body) as [b|]; [|done].
    repeat case_match; congruence.
Qed.

(** What one data frame does, exactly.  A complete TPKT packet holding a
    COTP data unit with user data [body], delivered to a flow that carries
    nothing in that direction, is consumed whole.  The flow is classified by
    the first byte of the first such body and keeps that classification.  One
    malformed-header finding (T0814, with direction and time) is made exactly
    when the flow is classic, the body starts with 0x32 but is not a
    well-formed classic header with lengths that fit, and the direction was
    not reported before; otherwise there is no finding. *)
Theorem s7_frame_exact a k body ts dir :
  s7_carry (s7_state a k) dir = [] → zlen body ≤ 65528 →
  ∃ s' fs, s7_on_data a k (dt_frame body) ts dir = Some (mkS7 (<[k := s']> (flows a)) (findings a ++ fs)) ∧
    s7_carry s' dir = [] ∧
    classified_protocol s' =
      match classified_protocol (s7_state a k) with Some p => Some p | None => s7_protocol_of <$> head body end ∧
    let alarm := head body = Some 0x32 ∧ classified_protocol s' = Some Classic ∧
                 ¬ s7_well_formed body ∧ malformed_reported (s7_state a k) dir = false in
    (fs = [] ∧ ¬ alarm ∨
     ∃ f, fs = [f] ∧ alarm ∧ malformed_reported s' dir = true ∧ malformed_report f dir ts).
Proof.
  intros Hc Hl. unfold s7_on_data. change (default _ _) with (s7_state a k).
  set (s := s7_state a k) in *. clearbody s.
  rewrite s7_deliver_walk by (rewrite Hc; vm_compute; discriminate). rewrite Hc, app_nil_l, s7_walk_dt_frame by done.
  assert (set_s7_carry s dir [] = s) as -> by (rewrite <- Hc; apply set_s7_carry_same).
  rewrite dispatch_dt. cbn [mbind option_bind].
  pose proof (classify_protocol s (head body)) as Hcl. pose proof (classify_effect s (head body)) as Hce.
  set (s1 := classify_first_dt_frame s (head body)) in *. clearbody s1.
  assert (malformed_reported s1 dir = malformed_reported s dir) as Hm.
  { pose proof (fl_count _ _ _ (fe_flow _ _ _ Hce) dir) as Hf. unfold flagged in Hf.
    change (reports dir []) with 0 in Hf. repeat case_match; done. }
  destruct (decide (head body = Some 0x32 ∧ classified_protocol s1 = Some Classic)) as [[Hh Hk]|Hn].
  - destruct (classic_reports s1 body dir ts) as (s2 & fs & -> & H1 & H2 & H3 & H4). cbn [mbind option_bind].
    eexists _, fs. split; [done|]. rewrite s7_carry_set. split; [done|].
    assert (classified_protocol (set_s7_carry s2 dir []) = classified_protocol s1) as -> by (rewrite <- H1; by destruct dir).
    assert (malformed_reported (set_s7_carry s2 dir []) dir = malformed_reported s2 dir) as -> by by destruct dir.
    split; [by rewrite Hcl, Hh|]. rewrite <- s7_accepts_well_formed, <- Hm. destruct H4 as [[-> H4]|(f & -> & H4)].
    + left. split; [done|]. intros (_ & _ & Hw & Hf). destruct H4; congruence.
    + right. exists f. destruct H4 as (Ha & Hf & Hr). split_and!; try done; [by rewrite <- s7_accepts_well_formed, Ha|].
    by rewrite H3, Ha, orb_true_r.
  - cbn [mbind option_bind]. eexists _, []. split; [done|]. rewrite s7_carry_set. split; [done|].
    assert (classified_protocol (set_s7_carry s1 dir []) = classified_protocol s1) as -> by by destruct dir.
    split; [done|]. left. split; [done|]. naive_solver.
Qed.

Lemma s7_frame_exact_witness :
  ∃ s' f, s7_on_data S7commAnalyzer_new sample_s7_key (dt_frame [0x32; 9]) 4 ClientToServer
    = Some (mkS7 {[sample_s7_key := s']} [f]) ∧ malformed_report f ClientToServer 4.
Proof.
  destruct (s7_frame_exact S7commAnalyzer_new sample_s7_key [0x32; 9] 4 ClientToServer)
    as (s' & fs & E & _ & _ & H); [reflexivity|vm_compute; discriminate|].
  destruct H as [[-> H]|(f & -> & _ & _ & H)].
  - exfalso. apply H. split_and!; [done| |by intros (?&?&?&?&?&?&?&?&?&?&[=]&?)|done].
    revert E. vm_compute (s7_on_data _ _ _ _ _). discriminate.
  - exists s', f. split; [exact E|exact H].
Defined.
