(* ===== verification/Reader.v ===== *)
(** * The capture reader (src/reader.rs)

    Format detection, the classic-pcap loop and the pcapng block walk with its
    block decoders, options, timestamps and error taxonomy.  The framing of the
    file is done by the [pcap-file] crate, a parameter ([PcapFile]) about which
    nothing is assumed.  An error value names the [anyhow!] that makes it and
    carries its arguments; the wording is left out.  The theorems are in
    [ReaderProps]. *)

From S2P Require Import Prelude Findings.

#[local] Open Scope Z_scope.

(** ** The [pcap-file] crate *)

Inductive TsResolution := MicroSecond | NanoSecond.
Inductive CrateEndianness := Big | Little.

(** A byte source: what the first [fill_buf] returns and what [read_to_end]
    returns after those bytes, or that reading fails. *)
Record byte_source := mkSource {
  filled : option (list Z);
  remaining : option (list Z)
}.

(** The crate's types and functions: link types, errors, the pcapng parser
    (state, section header, next block) and the classic reader (link type,
    resolution and the successive results of [next_raw_packet]). *)
Class PcapFile := {
  DataLink : Type;
  #[global] DataLink_eq_dec :: EqDecision DataLink;
  DataLink_from : Z → DataLink;
  ETHERNET : DataLink;
  RAW : DataLink;
  IPV4 : DataLink;
  IPV6 : DataLink;
  LINUX_SLL : DataLink;
  PcapError : Type;
  invalid_field : PcapError → option string;
  error_string : PcapError → string;
  PcapNgParser : Type;
  ng_new : list Z → PcapError + (list Z * PcapNgParser);
  section_major : PcapNgParser → Z;
  section_endianness : PcapNgParser → CrateEndianness;
  next_raw_block : PcapNgParser → list Z → PcapError + (list Z * (Z * list Z) * PcapNgParser);
  pcap_new : byte_source → PcapError + (DataLink * TsResolution * list (PcapError + (Z * Z * list Z)))
}.

(** ** Constants *)

Definition PCAPNG_MAGIC : list Z := [0x0A; 0x0D; 0x0D; 0x0A].
Definition CLASSIC_PCAP_MAGICS : list (list Z) :=
  [[0xA1; 0xB2; 0xC3; 0xD4]; [0xD4; 0xC3; 0xB2; 0xA1]; [0xA1; 0xB2; 0x3C; 0x4D]; [0x4D; 0x3C; 0xB2; 0xA1]].
Definition SHB_BOM_BIG_ENDIAN : list Z := [0x1A; 0x2B; 0x3C; 0x4D].
Definition SHB_BOM_LITTLE_ENDIAN : list Z := [0x4D; 0x3C; 0x2B; 0x1A].
Definition SHB_BLOCK_TYPE : Z := 0x0A0D0D0A.
Definition OPB_BLOCK_TYPE : Z := 2.
Definition SPB_BLOCK_TYPE : Z := 3.
Definition EPB_BLOCK_TYPE : Z := 6.
Definition IDB_BLOCK_TYPE : Z := 1.
Definition MAX_PCAPNG_FILE_BYTES : Z := 4294967296.
Definition MAX_INTERFACE_TABLE_ENTRIES : Z := 65535.
Definition SHB_BODY_FIXED_BYTES : Z := 16.
Definition IDB_BODY_FIXED_BYTES : Z := 8.
Definition EPB_FIXED_OVERHEAD_BYTES : Z := 20.
Definition SPB_FIXED_OVERHEAD_BYTES : Z := 4.
Definition DEFAULT_TSRESOL : Z := 6.
Definition BASE10_POWERS : list Z :=
  [1; 10; 100; 1000; 10000; 100000; 1000000; 10000000; 100000000; 1000000000; 10000000000;
   100000000000; 1000000000000; 10000000000000; 100000000000000; 1000000000000000;
   10000000000000000; 100000000000000000; 1000000000000000000; 10000000000000000000].

(** ** Types *)

Inductive SectionEndianness := BigEndian | LittleEndian.

Record RawPacket := mkRawPacket {
  timestamp_secs : Z;
  timestamp_usecs : Z;
  data : list Z
}.

Record ShbInfo := mkShb {
  endianness : SectionEndianness;
  major_version : Z;
  minor_version : Z
}.

Section reader.
Context `{PF : PcapFile}.

Record InterfaceInfo := mkInterface {
  linktype : DataLink;
  if_tsresol : Z
}.

Record PcapSource := mkPcapSource {
  packets : list RawPacket;
  datalink : DataLink;
  skipped_blocks : Z;
  opb_skipped : Z;
  is_pcapng : bool
}.

(** The errors, one constructor for each place that makes one. *)
Inductive ReadError :=
  | ShbBodyShort (len : Z)
  | ShbBadBom (bom : list Z)
  | UnsupportedMajor (major : Z)
  | EpbBodyShort (len : Z)
  | EpbNoInterface (interface_id : Z)
  | EpbInterfaceOob (interface_id table_size : Z)
  | EpbCapturedLen (captured_len available : Z)
  | EpbPadding (captured_len pad_len len : Z)
  | IdbOptionOverrun (opt_code opt_len left : Z)
  | IdbTsresolLength (opt_len : Z)
  | IdbOptions (cause : ReadError)
  | MagicUnreadable
  | StreamTooShort (len : Z)
  | StreamUnreadable
  | UnrecognizedMagic (magic : list Z)
  | UnsupportedLinkType (other : DataLink)
  | PcapHeaderFailed (e : PcapError)
  | PcapPacketFailed (e : PcapError)
  | NgShbBodyShort (e : PcapError)
  | NgShbBadBom (e : PcapError)
  | NgShbFailed (e : PcapError)
  | NgIdbBodyShort
  | NgIdbReserved
  | NgBlockFailed (e : PcapError)
  | NgStalled (block_seq left previous : Z)
  | SecondSection (block_seq : Z)
  | LateInterface
  | InterfaceTableFull
  | IdbBodyShort (len : Z)
  | LinkTypeConflict (first : DataLink) (n : Z) (other : DataLink)
  | SpbNoInterface
  | SpbBodyShort (len : Z)
  | OpenFailed
  | StatFailed
  | FileTooLarge (size : Z).

(** The code an error message quotes. *)
Fixpoint error_code (e : ReadError) : option string :=
  match e with
  | ShbBodyShort _ | ShbBadBom _ | UnsupportedMajor _ | EpbBodyShort _ | EpbCapturedLen _ _
  | EpbPadding _ _ _ | IdbOptionOverrun _ _ _ | IdbTsresolLength _ | NgShbBodyShort _ | NgShbBadBom _
  | NgIdbBodyShort | NgIdbReserved | IdbBodyShort _ | SpbBodyShort _ => Some "E-INP-008"%string
  | IdbOptions cause => error_code cause
  | EpbNoInterface _ | SpbNoInterface => Some "E-INP-009"%string
  | EpbInterfaceOob _ _ | NgShbFailed _ | NgBlockFailed _ | NgStalled _ _ _ => Some "E-INP-010"%string
  | LinkTypeConflict _ _ _ => Some "E-INP-011"%string
  | SecondSection _ => Some "E-INP-012"%string
  | LateInterface => Some "E-INP-013"%string
  | FileTooLarge _ => Some "E-INP-014"%string
  | InterfaceTableFull => Some "E-INP-015"%string
  | _ => None
  end.

(** A computation that may panic or return an error. *)
Abbreviation fallible A := (panicky (ReadError + A)) (only parsing).

Definition ok {A} (x : A) : fallible A := Some (inr x).
Definition err {A} (e : ReadError) : fallible A := Some (inl e).

(** The [?] operator. *)
Definition try_bind {A B} (m : fallible A) (k : A → fallible B) : fallible B :=
  r ← m; match r with inl e => err e | inr x => k x end.

Local Notation "'let?' x := m 'in' k" := (try_bind m (λ x, k))
  (at level 10, x pattern, m at level 100, k at level 200).

(** ** Fields at an offset *)

Definition read_u16 (e : SectionEndianness) (l : list Z) (i : Z) : panicky Z :=
  b0 ← index l i; b1 ← index l (i + 1);
  Some (match e with BigEndian => u16_be b0 b1 | LittleEndian => u16_le b0 b1 end).

Definition read_u32 (e : SectionEndianness) (l : list Z) (i : Z) : panicky Z :=
  b0 ← index l i; b1 ← index l (i + 1); b2 ← index l (i + 2); b3 ← index l (i + 3);
  Some (match e with BigEndian => u32_be b0 b1 b2 b3 | LittleEndian => u32_le b0 b1 b2 b3 end).

(** ** Section header *)

Definition parse_shb_body (body : list Z) : fallible ShbInfo :=
  if zlen body <? SHB_BODY_FIXED_BYTES then err (ShbBodyShort (zlen body))
  else
    bom ← slice body 0 4;
    let? endianness :=
      (if decide (bom = SHB_BOM_BIG_ENDIAN) then ok BigEndian
       else if decide (bom = SHB_BOM_LITTLE_ENDIAN) then ok LittleEndian
       else err (ShbBadBom bom)) in
    major_version ← read_u16 endianness body 4;
    minor_version ← read_u16 endianness body 6;
    if negb (major_version =? 1) then err (UnsupportedMajor major_version)
    else ok (mkShb endianness major_version minor_version).

(** ** Timestamps *)

(** Division and remainder panic on zero. *)
Definition cdiv (a b : Z) : panicky Z := if b =? 0 then None else Some (a / b).
Definition crem (a b : Z) : panicky Z := if b =? 0 then None else Some (a mod b).

Definition u128_max : Z := 2 ^ 128 - 1.

Definition tsresol_ticks_per_sec (if_tsresol : Z) : panicky Z :=
  if Z.land if_tsresol 0x80 =? 0 then
    let e := Z.land if_tsresol 0x7F in
    if e <? zlen BASE10_POWERS then index BASE10_POWERS e else Some u64_max
  else
    let e := Z.min (Z.land if_tsresol 0x7F) 63 in
    Some (if e <? 64 then Z.shiftl 1 e mod 2 ^ 64 else u64_max).

Definition pcapng_timestamp_to_secs_usecs (ts_high ts_low if_tsresol : Z) : panicky (Z * Z) :=
  let ticks := Z.lor (Z.shiftl ts_high 32 mod 2 ^ 64) ts_low in
  if if_tsresol =? 6 then
    q ← cdiv ticks 1000000; r ← crem ticks 1000000;
    Some (Z.min q u32_max mod 2 ^ 32, r mod 2 ^ 32)
  else
    ticks_per_sec ← tsresol_ticks_per_sec if_tsresol;
    q ← cdiv ticks ticks_per_sec;
    let ts_sec := Z.min q u32_max mod 2 ^ 32 in
    r ← crem ticks ticks_per_sec;
    scaled ← cmul u128_max r 1000000;
    usecs ← cdiv scaled ticks_per_sec;
    Some (ts_sec, usecs mod 2 ^ 32).

(** ** Enhanced packet blocks *)

Definition decode_epb_body (body : list Z) (interfaces : list InterfaceInfo) (e : SectionEndianness) :
    fallible RawPacket :=
  if zlen body <? EPB_FIXED_OVERHEAD_BYTES then err (EpbBodyShort (zlen body))
  else
    interface_id ← read_u32 e body 0;
    if zlen interfaces =? 0 then err (EpbNoInterface interface_id)
    else if zlen interfaces <=? interface_id then err (EpbInterfaceOob interface_id (zlen interfaces))
    else
      iface ← index interfaces interface_id;
      ts_high ← read_u32 e body 4;
      ts_low ← read_u32 e body 8;
      captured_len ← read_u32 e body 12;
      _original_len ← read_u32 e body 16;
      let available := sat_sub (zlen body) EPB_FIXED_OVERHEAD_BYTES in
      if available <? captured_len then err (EpbCapturedLen captured_len available)
      else
        let pad_len := (4 - captured_len mod 4) mod 4 in
        if zlen body <? sat_add usize_max (sat_add usize_max EPB_FIXED_OVERHEAD_BYTES captured_len) pad_len
        then err (EpbPadding captured_len pad_len (zlen body))
        else
          hi ← cadd usize_max EPB_FIXED_OVERHEAD_BYTES captured_len;
          packet_data ← slice body EPB_FIXED_OVERHEAD_BYTES hi;
          '(ts_sec, ts_usecs) ← pcapng_timestamp_to_secs_usecs ts_high ts_low (if_tsresol iface);
          ok (mkRawPacket ts_sec ts_usecs packet_data).

(** The variants with typed errors. *)
Inductive EpbDecodeError := EpbBodyTooShort | EmptyInterfaceTable | InterfaceIdOob.
Inductive ShbDecodeError := ShbBodyTooShort | InvalidBom | UnsupportedVersion.

Definition decode_epb_body_discriminant (body : list Z) (interfaces : list InterfaceInfo)
    (e : SectionEndianness) : panicky (EpbDecodeError + RawPacket) :=
  if zlen body <? EPB_FIXED_OVERHEAD_BYTES then Some (inl EpbBodyTooShort)
  else
    interface_id ← read_u32 e body 0;
    if zlen interfaces =? 0 then Some (inl EmptyInterfaceTable)
    else if zlen interfaces <=? interface_id then Some (inl InterfaceIdOob)
    else
      iface ← index interfaces interface_id;
      ts_high ← read_u32 e body 4;
      ts_low ← read_u32 e body 8;
      captured_len ← read_u32 e body 12;
      _original_len ← read_u32 e body 16;
      let available := sat_sub (zlen body) EPB_FIXED_OVERHEAD_BYTES in
      if available <? captured_len then Some (inl EpbBodyTooShort)
      else
        let pad_len := (4 - captured_len mod 4) mod 4 in
        if zlen body <? sat_add usize_max (sat_add usize_max EPB_FIXED_OVERHEAD_BYTES captured_len) pad_len
        then Some (inl EpbBodyTooShort)
        else
          hi ← cadd usize_max EPB_FIXED_OVERHEAD_BYTES captured_len;
          packet_data ← slice body EPB_FIXED_OVERHEAD_BYTES hi;
          '(ts_sec, ts_usecs) ← pcapng_timestamp_to_secs_usecs ts_high ts_low (if_tsresol iface);
          Some (inr (mkRawPacket ts_sec ts_usecs packet_data)).

Definition parse_shb_body_discriminant (body : list Z) : panicky (ShbDecodeError + ShbInfo) :=
  if zlen body <? SHB_BODY_FIXED_BYTES then Some (inl ShbBodyTooShort)
  else
    bom ← slice body 0 4;
    match (if decide (bom = SHB_BOM_BIG_ENDIAN) then Some BigEndian
           else if decide (bom = SHB_BOM_LITTLE_ENDIAN) then Some LittleEndian else None) with
    | None => Some (inl InvalidBom)
    | Some endianness =>
        major_version ← read_u16 endianness body 4;
        minor_version ← read_u16 endianness body 6;
        if negb (major_version =? 1) then Some (inl UnsupportedVersion)
        else Some (inr (mkShb endianness major_version minor_version))
    end.

(** ** Interface description blocks *)

(** The options loop from [cursor] on; every round moves the cursor by at least
    four bytes. *)
Fixpoint idb_options_walk (fuel : nat) (opts : list Z) (e : SectionEndianness) (cursor : Z) : fallible Z :=
  match fuel with
  | O => None
  | S fuel =>
      head ← cadd usize_max cursor 4;
      if zlen opts <? head then ok DEFAULT_TSRESOL
      else
        opt_code ← read_u16 e opts cursor;
        opt_len ← read_u16 e opts (cursor + 2);
        let cursor := head in
        if opt_code =? 0 then ok DEFAULT_TSRESOL
        else
          tail ← cadd usize_max cursor opt_len;
          if zlen opts <? tail
          then err (IdbOptionOverrun opt_code opt_len (sat_sub (zlen opts) cursor))
          else
            let padded := Z.land (opt_len + 3) (Z.lnot 3) in
            if opt_code =? 9 then
              if negb (opt_len =? 1) then err (IdbTsresolLength opt_len)
              else v ← index opts cursor; ok v
            else
              cursor ← cadd usize_max cursor padded;
              idb_options_walk fuel opts e cursor
  end.

Definition parse_idb_options (body : list Z) (e : SectionEndianness) : fallible Z :=
  if IDB_BODY_FIXED_BYTES <? zlen body then
    opts ← slice body IDB_BODY_FIXED_BYTES (zlen body);
    idb_options_walk (S (List.length opts)) opts e 0
  else ok DEFAULT_TSRESOL.

(** ** Simple packet blocks *)

Definition spb_captured_len (original_len : Z) (body : list Z) : Z :=
  let spb_data_available := sat_sub (zlen body) SPB_FIXED_OVERHEAD_BYTES mod 2 ^ 32 in
  Z.min original_len spb_data_available.

(** ** The block walk *)

Record ng_walk_state := mkWalk {
  w_packets : list RawPacket;
  w_interfaces : list InterfaceInfo;
  w_packets_emitted : Z;
  w_skipped_blocks : Z;
  w_opb_skipped : Z;
  w_block_seq : Z
}.

#[local] Instance ng_walk_eta : Eta ng_walk_state := λ w,
  mkWalk (w_packets w) (w_interfaces w) (w_packets_emitted w) (w_skipped_blocks w)
    (w_opb_skipped w) (w_block_seq w).

Definition ng_walk_init : ng_walk_state := mkWalk [] [] 0 0 0 1.

Definition supported_link (dl : DataLink) : bool :=
  bool_decide (dl = ETHERNET) || bool_decide (dl = RAW) || bool_decide (dl = IPV4)
  || bool_decide (dl = IPV6) || bool_decide (dl = LINUX_SLL).

Definition walk_idb (w : ng_walk_state) (e : SectionEndianness) (body : list Z) : fallible ng_walk_state :=
  if 0 <? w_packets_emitted w then err LateInterface
  else if MAX_INTERFACE_TABLE_ENTRIES <=? zlen (w_interfaces w) then err InterfaceTableFull
  else if zlen body <? IDB_BODY_FIXED_BYTES then err (IdbBodyShort (zlen body))
  else
    link_raw ← read_u16 e body 0;
    let new_dl := DataLink_from link_raw in
    if negb (supported_link new_dl) then err (UnsupportedLinkType new_dl)
    else
      let? _ :=
        match w_interfaces w with
        | first :: _ =>
            if decide (linktype first ≠ new_dl)
            then err (LinkTypeConflict (linktype first) (zlen (w_interfaces w)) new_dl) else ok tt
        | [] => ok tt
        end in
      r ← parse_idb_options body e;
      match r with
      | inl cause => err (IdbOptions cause)
      | inr if_tsresol => ok (w <| w_interfaces := w_interfaces w ++ [mkInterface new_dl if_tsresol] |>)
      end.

Definition push_packet (w : ng_walk_state) (p : RawPacket) : ng_walk_state :=
  w <| w_packets := w_packets w ++ [p] |>
    <| w_packets_emitted := sat_add u32_max (w_packets_emitted w) 1 |>.

Definition walk_epb (w : ng_walk_state) (e : SectionEndianness) (body : list Z) : fallible ng_walk_state :=
  let? packet := decode_epb_body body (w_interfaces w) e in ok (push_packet w packet).

Definition walk_spb (w : ng_walk_state) (e : SectionEndianness) (body : list Z) : fallible ng_walk_state :=
  if zlen (w_interfaces w) =? 0 then err SpbNoInterface
  else if zlen body <? SPB_FIXED_OVERHEAD_BYTES then err (SpbBodyShort (zlen body))
  else
    original_len ← read_u32 e body 0;
    let captured_len := spb_captured_len original_len body in
    hi ← cadd usize_max SPB_FIXED_OVERHEAD_BYTES captured_len;
    packet_data ← slice body SPB_FIXED_OVERHEAD_BYTES hi;
    ok (push_packet w (mkRawPacket 0 0 packet_data)).

Definition skip_block (w : ng_walk_state) : ng_walk_state :=
  w <| w_skipped_blocks := sat_add u32_max (w_skipped_blocks w) 1 |>.

Definition skip_obsolete (w : ng_walk_state) : ng_walk_state :=
  let w := skip_block w in w <| w_opb_skipped := sat_add u32_max (w_opb_skipped w) 1 |>.

(** The [match raw_block.type_]; the named blocks that are only skipped do what
    the catch-all does. *)
Definition walk_block (w : ng_walk_state) (e : SectionEndianness) (type_ : Z) (body : list Z) :
    fallible ng_walk_state :=
  if type_ =? SHB_BLOCK_TYPE then err (SecondSection (w_block_seq w))
  else if type_ =? IDB_BLOCK_TYPE then walk_idb w e body
  else if type_ =? EPB_BLOCK_TYPE then walk_epb w e body
  else if type_ =? SPB_BLOCK_TYPE then walk_spb w e body
  else if type_ =? OPB_BLOCK_TYPE then
    ok (skip_obsolete w)
  else ok (skip_block w).

Definition map_block_error (e : PcapError) : ReadError :=
  if contains "block length < 8" (error_string e) then NgIdbBodyShort
  else if contains "reserved != 0" (error_string e) then NgIdbReserved
  else NgBlockFailed e.

(** The [while] loop; a round that makes no progress is an error, so the length
    of the input bounds the rounds. *)
Fixpoint ng_walk (fuel : nat) (parser : PcapNgParser) (src : list Z) (e : SectionEndianness)
    (w : ng_walk_state) : fallible ng_walk_state :=
  match fuel with
  | O => None
  | S fuel =>
      if zlen src =? 0 then ok w
      else
        match next_raw_block parser src with
        | inl er => err (map_block_error er)
        | inr (rem, (type_, body), parser) =>
            if zlen src <=? zlen rem then err (NgStalled (w_block_seq w) (zlen rem) (zlen src))
            else
              let w := w <| w_block_seq := sat_add u32_max (w_block_seq w) 1 |> in
              let? w := walk_block w e type_ body in
              ng_walk fuel parser rem e w
        end
  end.

Definition map_shb_error (e : PcapError) : ReadError :=
  match invalid_field e with
  | Some msg =>
      if contains "block length < 16" msg then NgShbBodyShort e
      else if contains "invalid magic number" msg then NgShbBadBom e
      else NgShbFailed e
  | None => NgShbFailed e
  end.

(** What the blocks amount to; without an interface the link type is NULL. *)
Definition ng_source (w : ng_walk_state) : PcapSource :=
  mkPcapSource (w_packets w) (match w_interfaces w with i :: _ => linktype i | [] => DataLink_from 0 end)
    (w_skipped_blocks w) (w_opb_skipped w) true.

Definition read_pcapng_crate (raw : list Z) : fallible PcapSource :=
  match ng_new raw with
  | inl e => err (map_shb_error e)
  | inr (src, parser) =>
      if negb (section_major parser =? 1) then err (UnsupportedMajor (section_major parser))
      else
        let e := match section_endianness parser with Big => BigEndian | Little => LittleEndian end in
        let? w := ng_walk (S (List.length src)) parser src e ng_walk_init in
        ok (ng_source w)
  end.

(** ** Format detection *)

Definition classic_packet (res : TsResolution) (p : Z * Z * list Z) : RawPacket :=
  let '(ts_sec, ts_frac, d) := p in
  mkRawPacket ts_sec (match res with MicroSecond => ts_frac | NanoSecond => ts_frac / 1000 end) d.

(** The [while let] over [next_raw_packet]. *)
Fixpoint classic_packets (res : TsResolution) (results : list (PcapError + (Z * Z * list Z)))
    (acc : list RawPacket) : fallible (list RawPacket) :=
  match results with
  | [] => ok acc
  | inl e :: _ => err (PcapPacketFailed e)
  | inr p :: results => classic_packets res results (acc ++ [classic_packet res p])
  end.

Definition probe_magic (r : byte_source) : fallible (list Z) :=
  match filled r with
  | None => err MagicUnreadable
  | Some f => if zlen f <? 4 then err (StreamTooShort (zlen f)) else m ← slice f 0 4; ok m
  end.

Definition from_pcap_reader (r : byte_source) : fallible PcapSource :=
  let? magic := probe_magic r in
  if decide (magic = PCAPNG_MAGIC) then
    match (f ← filled r; rest ← remaining r; Some (f ++ rest)) with
    | None => err StreamUnreadable
    | Some raw => read_pcapng_crate raw
    end
  else if decide (magic ∈ CLASSIC_PCAP_MAGICS) then
    match pcap_new r with
    | inl e => err (PcapHeaderFailed e)
    | inr (datalink, ts_resolution, results) =>
        if negb (supported_link datalink) then err (UnsupportedLinkType datalink)
        else
          let? packets := classic_packets ts_resolution results [] in
          ok (mkPcapSource packets datalink 0 0 false)
    end
  else err (UnrecognizedMagic magic).

(** A path: the file it opens, if it does, and the size [fstat] gives.  The
    inner [BufReader] hands on the bytes it has buffered, so the source looks
    the same to [from_pcap_reader]. *)
Record file := mkFile {
  contents : byte_source;
  metadata_len : option Z
}.

Definition from_file (path : option file) : fallible PcapSource :=
  match path with
  | None => err OpenFailed
  | Some f =>
      let? magic := probe_magic (contents f) in
      if decide (magic = PCAPNG_MAGIC) then
        match metadata_len f with
        | None => err StatFailed
        | Some size =>
            if MAX_PCAPNG_FILE_BYTES <? size then err (FileTooLarge size)
            else from_pcap_reader (contents f)
        end
      else from_pcap_reader (contents f)
  end.
End reader.

#[global] Existing Instance ng_walk_eta.
