(* ===== verification/ReaderProps.v ===== *)
(** * Theorems about the capture reader

    The reader always returns, whatever the crate does; what the block walk
    accepts and returns; block decoders and timestamps are exact. *)

From S2P Require Import Prelude Findings Reader.

#[local] Open Scope Z_scope.

(** ** Reading fields *)

Lemma index_app_r {A} (l k : list A) i : zlen l ≤ i → index (l ++ k) i = index k (i - zlen l).
Proof.
  intros H. unfold index. pose proof (zlen_nonneg l). destruct (Z.leb_spec 0 i); [|lia].
  destruct (Z.leb_spec 0 (i - zlen l)); [|lia]. unfold zlen in *.
  rewrite lookup_app_r by lia. f_equal. lia.
Qed.

Lemma read_u16_Some e l i : 0 ≤ i → i + 2 ≤ zlen l → ∃ v, read_u16 e l i = Some v ∧ is_u16 v.
Proof.
  intros Hi Hl. unfold read_u16. destruct (index_Some l i) as [b0 ->]; [lia|].
  destruct (index_Some l (i + 1)) as [b1 ->]; [lia|]. cbn [mbind option_bind].
  eexists. split; [done|]. destruct e; [apply u16_be_u16|apply u16_le_u16].
Qed.

Lemma read_u32_Some e l i : 0 ≤ i → i + 4 ≤ zlen l → ∃ v, read_u32 e l i = Some v ∧ is_u32 v.
Proof.
  intros Hi Hl. unfold read_u32. destruct (index_Some l i) as [b0 ->]; [lia|].
  destruct (index_Some l (i + 1)) as [b1 ->]; [lia|]. destruct (index_Some l (i + 2)) as [b2 ->]; [lia|].
  destruct (index_Some l (i + 3)) as [b3 ->]; [lia|]. cbn [mbind option_bind].
  eexists. split; [done|]. destruct e; apply u32_be_u32.
Qed.

(** ** Timestamps *)

Lemma ticks_value hi lo :
  is_u32 hi → is_u32 lo → Z.lor (Z.shiftl hi 32 mod 2 ^ 64) lo = hi * 2 ^ 32 + lo.
Proof.
  unfold is_u32, u32_max. intros Hh Hl. rewrite Z.shiftl_mul_pow2 by lia. rewrite Z.mod_small by lia.
  rewrite <- Z.add_lor_land. enough (Z.land (hi * 2 ^ 32) lo = 0) by lia.
  apply Z.bits_inj_0. intros n. rewrite Z.land_spec. destruct (Z.lt_ge_cases n 0) as [|Hn].
  { by rewrite Z.testbit_neg_r. }
  destruct (Z.lt_ge_cases n 32).
  - rewrite Z.mul_pow2_bits_low by lia. done.
  - destruct (Z.eq_dec lo 0) as [->|]; [by rewrite Z.testbit_0_l, andb_false_r|].
    rewrite (Z.bits_above_log2 lo); [apply andb_false_r|lia|].
    apply Z.lt_le_trans with 32; [|lia]. apply Z.log2_lt_pow2; lia.
Qed.

(** The resolutions that fit in 64 bits: 10^e for e < 20, 2^e for e < 64. *)
Definition exact_tsresol (r : Z) : bool := (r <? 20) || ((128 <=? r) && (r <? 192)).

Definition tick_rate (r : Z) : Z := if r <? 128 then 10 ^ r else 2 ^ (r - 128).

Lemma ticks_per_sec_range r : ∃ n, tsresol_ticks_per_sec r = Some n ∧ 1 ≤ n ≤ u64_max.
Proof.
  unfold tsresol_ticks_per_sec.
  assert (0 ≤ Z.land r 0x7F) by (apply Z.land_nonneg; lia).
  destruct (Z.land r 0x80 =? 0).
  - destruct (Z.ltb_spec (Z.land r 127) (zlen BASE10_POWERS)) as [H1|]; [|by exists u64_max].
    destruct (index_Some BASE10_POWERS (Z.land r 127)) as [n Hn]; [lia|]. exists n. split; [done|].
    assert (Forall (λ n, 1 ≤ n ≤ u64_max) BASE10_POWERS) as HF.
    { apply (bool_decide_unpack _). by vm_compute. }
    rewrite list.Forall_forall in HF. apply HF. unfold index in Hn. case_match; [|done].
    by eapply list_elem_of_lookup_2.
  - destruct (Z.ltb_spec (Z.min (Z.land r 127) 63) 64) as [H1|]; [|lia].
    assert (1 ≤ Z.shiftl 1 (Z.min (Z.land r 127) 63) < 2 ^ 64) as Hs.
    { rewrite Z.shiftl_mul_pow2 by lia. rewrite Z.mul_1_l. split.
      - pose proof (Z.pow_pos_nonneg 2 (Z.min (Z.land r 127) 63)). lia.
      - apply Z.pow_lt_mono_r; lia. }
    rewrite Z.mod_small by lia. eexists. split; [done|]. unfold u64_max. lia.
Qed.

Lemma ticks_per_sec_exact r :
  is_u8 r → exact_tsresol r = true → tsresol_ticks_per_sec r = Some (tick_rate r).
Proof.
  assert (Forall (λ r, exact_tsresol r = true → tsresol_ticks_per_sec r = Some (tick_rate r)) (seqZ 0 256)) as H.
  { apply (bool_decide_unpack _). by vm_compute. }
  intros Hr. rewrite list.Forall_forall in H. apply H. apply elem_of_seqZ. unfold is_u8, u8_max in Hr. lia.
Qed.

(** The fast path agrees with the general one. *)
Lemma timestamp_value hi lo r n :
  is_u32 hi → is_u32 lo → tsresol_ticks_per_sec r = Some n →
  pcapng_timestamp_to_secs_usecs hi lo r =
    Some (Z.min ((hi * 2 ^ 32 + lo) / n) u32_max, (hi * 2 ^ 32 + lo) mod n * 1000000 / n).
Proof.
  intros Hh Hl Hn. unfold pcapng_timestamp_to_secs_usecs. rewrite ticks_value by done.
  set (t := hi * 2 ^ 32 + lo). assert (0 ≤ t) as Ht by (unfold t, is_u32 in *; lia).
  destruct (ticks_per_sec_range r) as (n' & Hn' & Hr). rewrite Hn in Hn'. injection Hn' as <-.
  assert (0 ≤ Z.min (t / n) u32_max < 2 ^ 32) as Hq.
  { pose proof (Z.div_pos t n). unfold u32_max. lia. }
  destruct (Z.eqb_spec r 6) as [->|].
  - injection Hn as <-. cbn [cdiv crem mbind option_bind Z.eqb].
    rewrite (Z.mod_small (Z.min _ _)) by done. do 2 f_equal.
    rewrite Z.div_mul by lia. apply Z.mod_small. pose proof (Z.mod_pos_bound t 1000000). lia.
  - rewrite Hn. cbn [mbind option_bind]. unfold cdiv, crem. destruct (Z.eqb_spec n 0); [lia|].
    cbn [mbind option_bind]. pose proof (Z.mod_pos_bound t n ltac:(lia)) as Hm.
    rewrite cmul_Some by (unfold u128_max, u64_max in *; nia). cbn [mbind option_bind].
    rewrite (Z.mod_small (Z.min _ _)) by done. do 2 f_equal. apply Z.mod_small. split; [apply Z.div_pos; lia|].
    apply Z.div_lt_upper_bound; lia.
Qed.

Lemma timestamp_total hi lo r :
  is_u32 hi → is_u32 lo → ∃ p, pcapng_timestamp_to_secs_usecs hi lo r = Some p.
Proof.
  intros Hh Hl. destruct (ticks_per_sec_range r) as (n & Hn & _). eexists. by apply (timestamp_value hi lo r n).
Qed.

(** Whole seconds and the truncated fraction make up the truncated total. *)
Lemma split_seconds t n : 0 < n → t / n * 1000000 + t mod n * 1000000 / n = t * 1000000 / n.
Proof.
  intros Hn. rewrite (Z.div_mod t n) at 3 by lia.
  replace ((n * (t / n) + t mod n) * 1000000) with (t mod n * 1000000 + t / n * 1000000 * n) by ring.
  rewrite Z.div_add by lia. lia.
Qed.

(** ** The decoders return *)

Section reader.
Context `{PF : PcapFile}.

Lemma decode_epb_total body ifs e : ∃ r, decode_epb_body body ifs e = Some r.
Proof.
  unfold decode_epb_body, EPB_FIXED_OVERHEAD_BYTES. destruct (Z.ltb_spec (zlen body) 20); [by eexists|].
  destruct (read_u32_Some e body 0) as (id & -> & Hid); [lia..|]. cbn [mbind option_bind].
  destruct (zlen ifs =? 0); [by eexists|]. destruct (Z.leb_spec (zlen ifs) id); [by eexists|].
  unfold is_u32 in Hid. destruct (index_Some ifs id) as [i ->]; [lia|]. cbn [mbind option_bind].
  destruct (read_u32_Some e body 4) as (hi & -> & Hhi); [lia..|].
  destruct (read_u32_Some e body 8) as (lo & -> & Hlo); [lia..|].
  destruct (read_u32_Some e body 12) as (cl & -> & Hcl); [lia..|].
  destruct (read_u32_Some e body 16) as (ol & -> & _); [lia..|]. cbn [mbind option_bind].
  unfold is_u32, u32_max in Hcl. destruct (Z.ltb_spec (sat_sub (zlen body) 20) cl) as [|Hav]; [by eexists|].
  destruct (_ <? _); [by eexists|]. unfold sat_sub in Hav.
  rewrite cadd_Some by (unfold usize_max, u64_max; lia). cbn [mbind option_bind].
  rewrite slice_Some by lia. cbn [mbind option_bind].
  destruct (timestamp_total hi lo (if_tsresol i)) as [[s u] ->]; [done..|]. by eexists.
Qed.

(** Rounds of the options loop advance the cursor by at least four. *)
Lemma padded_value len : Z.land (len + 3) (Z.lnot 3) = (len + 3) / 4 * 4.
Proof.
  rewrite <- Z.ldiff_land. change 3 with (Z.ones 2) at 2. rewrite Z.ldiff_ones_r by lia.
  by rewrite Z.shiftl_mul_pow2, Z.shiftr_div_pow2 by lia.
Qed.

Lemma padded_range len : len ≤ Z.land (len + 3) (Z.lnot 3) ≤ len + 3.
Proof. rewrite padded_value. pose proof (Z.div_mod (len + 3) 4). pose proof (Z.mod_pos_bound (len + 3) 4). lia. Qed.

Lemma idb_options_total fuel opts e cursor :
  0 ≤ cursor → zlen opts ≤ isize_max → cursor ≤ zlen opts + 4 →
  0 < Z.of_nat fuel → zlen opts - cursor < Z.of_nat fuel →
  ∃ r, idb_options_walk fuel opts e cursor = Some r.
Proof.
  intros Hc Hl. assert (zlen opts + 200000 ≤ usize_max) as Hz by (unfold usize_max, u64_max, isize_max in *; lia).
  clear Hl. revert cursor Hc. induction fuel as [|fuel IH]; intros cursor Hc Hb Hf Hf'; [lia|].
  cbn [idb_options_walk]. rewrite cadd_Some by lia. cbn [mbind option_bind].
  destruct (Z.ltb_spec (zlen opts) (cursor + 4)); [by eexists|].
  destruct (read_u16_Some e opts cursor) as (code & -> & _); [lia..|].
  destruct (read_u16_Some e opts (cursor + 2)) as (len & -> & Hlen); [lia..|]. cbn [mbind option_bind].
  destruct (code =? 0); [by eexists|]. unfold is_u16, u16_max in Hlen.
  rewrite (cadd_Some usize_max (cursor + 4) len) by lia. cbn [mbind option_bind].
  destruct (Z.ltb_spec (zlen opts) (cursor + 4 + len)); [by eexists|].
  destruct (Z.eqb_spec code 9).
  { destruct (Z.eqb_spec len 1) as [->|]; [|by eexists]. cbn [negb].
    destruct (index_Some opts (cursor + 4)) as [v ->]; [lia|]. by eexists. }
  pose proof (padded_range len) as Hp.
  rewrite cadd_Some by lia. cbn [mbind option_bind].
  apply IH; lia.
Qed.

Lemma parse_idb_options_total body e : zlen body ≤ isize_max → ∃ r, parse_idb_options body e = Some r.
Proof.
  intros Hl. unfold parse_idb_options, IDB_BODY_FIXED_BYTES.
  destruct (Z.ltb_spec 8 (zlen body)); [|by eexists]. rewrite slice_suffix by lia. cbn [mbind option_bind].
  pose proof (zlen_nonneg (drop (Z.to_nat 8) body)).
  assert (zlen (drop (Z.to_nat 8) body) ≤ zlen body) by (unfold zlen; rewrite length_drop; lia).
  apply idb_options_total; unfold zlen in *; lia.
Qed.

(** ** The walk returns *)

Lemma try_bind_total {A B} (m : panicky (ReadError + A)) (k : A → panicky (ReadError + B)) :
  (∃ r, m = Some r) → (∀ x, m = Some (inr x) → ∃ r, k x = Some r) → ∃ r, try_bind m k = Some r.
Proof. intros [[er|x] ->] Hk; cbn; [by eexists|by apply Hk]. Qed.

Lemma walk_idb_total w e body : zlen body ≤ isize_max → ∃ r, walk_idb w e body = Some r.
Proof.
  intros Hl. unfold walk_idb, IDB_BODY_FIXED_BYTES. do 2 (destruct (_ : bool); [by eexists|]).
  destruct (Z.ltb_spec (zlen body) 8); [by eexists|].
  destruct (read_u16_Some e body 0) as (lr & -> & _); [lia..|]. cbn [mbind option_bind].
  destruct (negb _); [by eexists|]. apply try_bind_total.
  - destruct (w_interfaces w); [by eexists|]. case_decide; by eexists.
  - intros _ _. destruct (parse_idb_options_total body e Hl) as [[er|r] ->]; by eexists.
Qed.

Lemma walk_spb_total w e body : ∃ r, walk_spb w e body = Some r.
Proof.
  unfold walk_spb, SPB_FIXED_OVERHEAD_BYTES. destruct (_ =? 0); [by eexists|].
  destruct (Z.ltb_spec (zlen body) 4); [by eexists|].
  destruct (read_u32_Some e body 0) as (ol & -> & Hol); [lia..|]. cbn [mbind option_bind].
  unfold spb_captured_len, SPB_FIXED_OVERHEAD_BYTES, sat_sub, is_u32, u32_max in *.
  pose proof (Z.mod_pos_bound (Z.max 0 (zlen body - 4)) (2 ^ 32)).
  pose proof (Z.mod_le (Z.max 0 (zlen body - 4)) (2 ^ 32)).
  rewrite cadd_Some by (unfold usize_max, u64_max; lia). cbn [mbind option_bind].
  rewrite slice_Some by lia. by eexists.
Qed.

Lemma walk_block_total w e t body : zlen body ≤ isize_max → ∃ r, walk_block w e t body = Some r.
Proof.
  intros Hl. unfold walk_block, skip_obsolete. destruct (_ =? _); [by eexists|].
  destruct (_ =? _); [by apply walk_idb_total|]. destruct (_ =? _).
  { apply try_bind_total; [apply decode_epb_total|]. intros. by eexists. }
  destruct (_ =? _); [apply walk_spb_total|]. destruct (_ =? _); by eexists.
Qed.

(** A block body is a slice. *)
Definition bodies_are_slices : Prop := ∀ parser src rem t body parser',
  next_raw_block parser src = inr (rem, (t, body), parser') → zlen body ≤ isize_max.

Lemma ng_walk_total fuel parser src e w :
  bodies_are_slices → (List.length src < fuel)%nat → ∃ r, ng_walk fuel parser src e w = Some r.
Proof.
  intros Hb. revert parser src w. induction fuel as [|fuel IH]; intros parser src w Hf; [lia|].
  cbn [ng_walk]. destruct (zlen src =? 0); [by eexists|].
  destruct (next_raw_block parser src) as [er|[[rem [t body]] parser']] eqn:E; [by eexists|].
  destruct (Z.leb_spec (zlen src) (zlen rem)) as [|Hrem]; [by eexists|].
  apply try_bind_total; [by eapply walk_block_total, Hb|]. intros w' _. apply IH. unfold zlen in *. lia.
Qed.

Lemma read_pcapng_total raw : bodies_are_slices → ∃ r, read_pcapng_crate raw = Some r.
Proof.
  intros Hb. unfold read_pcapng_crate, ng_source. destruct (ng_new raw) as [er|[src parser]]; [by eexists|].
  destruct (negb _); [by eexists|]. apply try_bind_total; [|intros; by eexists].
  apply ng_walk_total; [done|lia].
Qed.

Lemma classic_packets_total res results acc : ∃ r, classic_packets res results acc = Some r.
Proof. revert acc. induction results as [|[er|p] results IH]; intros acc; cbn; [by eexists..|apply IH]. Qed.

Lemma probe_magic_total r : ∃ m, probe_magic r = Some m.
Proof.
  unfold probe_magic. destruct (filled r) as [f|]; [|by eexists].
  destruct (Z.ltb_spec (zlen f) 4); [by eexists|]. rewrite slice_Some by lia. by eexists.
Qed.

Lemma from_pcap_reader_total r : bodies_are_slices → ∃ s, from_pcap_reader r = Some s.
Proof.
  intros Hb. apply try_bind_total; [apply probe_magic_total|]. intros magic _.
  case_decide; [case_match; [by apply read_pcapng_total|by eexists]|]. case_decide; [|by eexists].
  destruct (pcap_new r) as [er|[[dl res] results]]; [by eexists|]. destruct (negb _); [by eexists|].
  apply try_bind_total; [apply classic_packets_total|]. intros. by eexists.
Qed.

Lemma from_file_total path : bodies_are_slices → ∃ r, from_file path = Some r.
Proof.
  intros Hb. unfold from_file. destruct path as [f|]; [|by eexists].
  apply try_bind_total; [apply probe_magic_total|]. intros magic _.
  case_decide; [|by apply from_pcap_reader_total]. destruct (metadata_len f); [|by eexists].
  destruct (_ <? _); [by eexists|by apply from_pcap_reader_total].
Qed.

(** ** What the walk accepts *)

Abbreviation block := (Z * list Z)%type.

(** The blocks the crate yields, each taking at least a byte. *)
Inductive yields : PcapNgParser → list Z → list block → Prop :=
  | yields_end parser : yields parser [] []
  | yields_block parser src rem b parser' bs :
      next_raw_block parser src = inr (rem, b, parser') → zlen rem < zlen src →
      yields parser' rem bs → yields parser src (b :: bs).

Definition is_packet_block (b : block) : Prop := b.1 = EPB_BLOCK_TYPE ∨ b.1 = SPB_BLOCK_TYPE.
Definition is_skipped_block (b : block) : Prop :=
  ¬ is_packet_block b ∧ b.1 ≠ IDB_BLOCK_TYPE ∧ b.1 ≠ SHB_BLOCK_TYPE.

#[global] Instance is_packet_block_dec b : Decision (is_packet_block b).
Proof. unfold is_packet_block. apply _. Defined.
#[global] Instance is_skipped_block_dec b : Decision (is_skipped_block b).
Proof. unfold is_skipped_block. apply _. Defined.

(** An interface description: a supported link type and the resolution its
    options give. *)
Definition describes (e : SectionEndianness) (b : block) (i : InterfaceInfo) : Prop :=
  IDB_BODY_FIXED_BYTES ≤ zlen b.2 ∧ supported_link (linktype i) = true ∧
  (∃ link_raw, read_u16 e b.2 0 = Some link_raw ∧ linktype i = DataLink_from link_raw) ∧
  parse_idb_options b.2 e = ok (if_tsresol i).

(** A packet block and its packet under an interface table. *)
Definition carries (e : SectionEndianness) (ifs : list InterfaceInfo) (b : block) (p : RawPacket) : Prop :=
  if decide (b.1 = EPB_BLOCK_TYPE) then decode_epb_body b.2 ifs e = ok p
  else ifs ≠ [] ∧ SPB_FIXED_OVERHEAD_BYTES ≤ zlen b.2 ∧ ∃ original_len,
    read_u32 e b.2 0 = Some original_len ∧
    p = mkRawPacket 0 0 (take (Z.to_nat (spb_captured_len original_len b.2)) (drop 4 b.2)).

(** A capture: one section, interfaces of one supported link type described
    before the first packet, every packet block decodable. *)
Record ng_capture (e : SectionEndianness) (bs : list block) (ifs : list InterfaceInfo)
    (ps : list RawPacket) : Prop := {
  nc_section : Forall (λ b, b.1 ≠ SHB_BLOCK_TYPE) bs;
  nc_order : ∀ l1 b l2, bs = l1 ++ b :: l2 → b.1 = IDB_BLOCK_TYPE → Forall (λ c, ¬ is_packet_block c) l1;
  nc_interfaces : Forall2 (describes e) (filter (λ b, b.1 = IDB_BLOCK_TYPE) bs) ifs;
  nc_link : ∀ i j, i ∈ ifs → j ∈ ifs → linktype i = linktype j;
  nc_table : zlen ifs ≤ MAX_INTERFACE_TABLE_ENTRIES;
  nc_packets : Forall2 (carries e ifs) (filter is_packet_block bs) ps
}.

(** The source a capture gives. *)
Definition capture_source (bs : list block) (ifs : list InterfaceInfo) (ps : list RawPacket) : PcapSource :=
  mkPcapSource ps (match ifs with i :: _ => linktype i | [] => DataLink_from 0 end)
    (Z.min u32_max (zlen (filter is_skipped_block bs)))
    (Z.min u32_max (zlen (filter (λ b, b.1 = OPB_BLOCK_TYPE) bs))) true.

(** The walk over a list of blocks. *)
Definition walk_step (e : SectionEndianness) (w : ng_walk_state) (b : block) : panicky (ReadError + ng_walk_state) :=
  walk_block (w <| w_block_seq := sat_add u32_max (w_block_seq w) 1 |>) e b.1 b.2.

Fixpoint ng_fold (e : SectionEndianness) (w : ng_walk_state) (bs : list block) : panicky (ReadError + ng_walk_state) :=
  match bs with
  | [] => ok w
  | b :: bs => try_bind (walk_step e w b) (λ w, ng_fold e w bs)
  end.

Lemma try_bind_ok {A B} (m : panicky (ReadError + A)) (k : A → panicky (ReadError + B)) y :
  try_bind m k = ok y ↔ ∃ x, m = ok x ∧ k x = ok y.
Proof.
  unfold try_bind, ok. destruct m as [[er|x]|]; cbn; split; try done; try naive_solver.
Qed.

Lemma ng_walk_yields fuel parser src e w w' :
  (List.length src < fuel)%nat →
  ng_walk fuel parser src e w = ok w' ↔ ∃ bs, yields parser src bs ∧ ng_fold e w bs = ok w'.
Proof.
  revert parser src w. induction fuel as [|fuel IH]; intros parser src w Hf; [lia|]. cbn [ng_walk].
  destruct (Z.eqb_spec (zlen src) 0) as [Hz|Hz].
  { destruct src as [|b src]; [|rewrite zlen_cons in Hz; pose proof (zlen_nonneg src); lia]. split.
    - intros E. exists []. split; [constructor|done].
    - intros (bs & Hy & E). inversion Hy; subst; [done|].
      match goal with H : zlen ?r < zlen [] |- _ => change (zlen r < 0) in H; pose proof (zlen_nonneg r) end. lia. }
  destruct (next_raw_block parser src) as [er|[[rem [t body]] parser']] eqn:En.
  { split; [done|]. intros (bs & Hy & _). inversion Hy; subst; [by vm_compute in Hz|congruence]. }
  destruct (Z.leb_spec (zlen src) (zlen rem)) as [Hs|Hs].
  { split; [done|]. intros (bs & Hy & _). inversion Hy as [|? ? ? ? ? ? En' Hlt]; subst; [by vm_compute in Hz|].
    rewrite En in En'. injection En' as <- <- <-. lia. }
  rewrite try_bind_ok. split.
  - intros (w1 & E1 & E2). apply IH in E2 as (bs & Hy & E2); [|unfold zlen in *; lia].
    exists ((t, body) :: bs). split; [by econstructor|]. cbn [ng_fold]. apply try_bind_ok. by exists w1.
  - intros (bs & Hy & E). inversion Hy as [|? ? rem' b' p' bs' En' Hlt Hy']; subst; [by vm_compute in Hz|].
    rewrite En in En'. injection En' as <- <- <-. cbn [ng_fold] in E. apply try_bind_ok in E as (w1 & E1 & E2).
    exists w1. split; [exact E1|]. apply IH; [unfold zlen in *; lia|]. by exists bs'.
Qed.

Lemma ng_fold_snoc e w bs b w' :
  ng_fold e w (bs ++ [b]) = ok w' ↔ ∃ w1, ng_fold e w bs = ok w1 ∧ walk_step e w1 b = ok w'.
Proof.
  revert w. induction bs as [|c bs IH]; intros w; cbn [app ng_fold].
  - rewrite try_bind_ok. unfold ok. naive_solver.
  - setoid_rewrite try_bind_ok. setoid_rewrite IH. naive_solver.
Qed.

(** *** Captures, one block at a time *)

Lemma filter_none {A} (P : A → Prop) `{!∀ x, Decision (P x)} (l : list A) :
  filter P l = [] ↔ Forall (λ x, ¬ P x) l.
Proof.
  induction l as [|x l IH]; [split; [constructor|done]|]. rewrite filter_cons, list.Forall_cons.
  case_decide; naive_solver.
Qed.

Lemma order_snoc bs b :
  (∀ l1 c l2, bs ++ [b] = l1 ++ c :: l2 → c.1 = IDB_BLOCK_TYPE → Forall (λ c : block, ¬ is_packet_block c) l1) ↔
  (∀ l1 c l2, bs = l1 ++ c :: l2 → c.1 = IDB_BLOCK_TYPE → Forall (λ c : block, ¬ is_packet_block c) l1) ∧
  (b.1 = IDB_BLOCK_TYPE → Forall (λ c : block, ¬ is_packet_block c) bs).
Proof.
  split.
  - intros H. split; [|by apply (H bs b [])]. intros l1 c l2 -> Hc. eapply (H l1 c (l2 ++ [b])); [|done].
    by rewrite <- app_assoc.
  - intros [H1 H2] l1 c l2 E Hc. destruct l2 as [|d l2 _] using rev_ind.
    + apply app_inj_tail in E as [-> ->]. by apply H2.
    + rewrite app_comm_cons, app_assoc in E. apply app_inj_tail in E as [-> _]. by eapply H1.
Qed.

Lemma capture_snoc_skipped e bs b ifs ps :
  is_skipped_block b → ng_capture e (bs ++ [b]) ifs ps ↔ ng_capture e bs ifs ps.
Proof.
  intros (Hp & Hi & Hs). split; intros [C1 C2 C3 C4 C5 C6]; split; try done.
  - by apply Forall_app in C1 as [? _].
  - by apply order_snoc in C2 as [? _].
  - rewrite list.filter_app in C3. cbn in C3. rewrite decide_False in C3 by done. by rewrite app_nil_r in C3.
  - rewrite list.filter_app in C6. cbn in C6. rewrite decide_False in C6 by done. by rewrite app_nil_r in C6.
  - apply Forall_app. split; [done|by constructor].
  - by apply order_snoc.
  - rewrite list.filter_app. cbn. rewrite decide_False by done. by rewrite app_nil_r.
  - rewrite list.filter_app. cbn. rewrite decide_False by done. by rewrite app_nil_r.
Qed.

Lemma Forall2_snoc_l {A B} (R : A → B → Prop) l x k :
  Forall2 R (l ++ [x]) k ↔ ∃ k' y, k = k' ++ [y] ∧ Forall2 R l k' ∧ R x y.
Proof.
  split.
  - intros (k1 & k2 & H1 & H2 & ->)%Forall2_app_inv_l. apply Forall2_cons_inv_l in H2 as (y & k3 & H2 & H3 & ->).
    apply Forall2_nil_inv_l in H3 as ->. by exists k1, y.
  - intros (k' & y & -> & H1 & H2). apply Forall2_app; [done|by constructor].
Qed.

Lemma capture_snoc_packet e bs b ifs ps :
  is_packet_block b →
  ng_capture e (bs ++ [b]) ifs ps ↔ ∃ ps' p, ps = ps' ++ [p] ∧ ng_capture e bs ifs ps' ∧ carries e ifs b p.
Proof.
  intros Hp. assert (b.1 ≠ IDB_BLOCK_TYPE ∧ b.1 ≠ SHB_BLOCK_TYPE) as [Hi Hs].
  { destruct Hp as [-> | ->]; split; discriminate. }
  split.
  - intros [C1 C2 C3 C4 C5 C6]. rewrite list.filter_app in C3, C6. cbn in C3, C6.
    rewrite decide_False in C3 by done. rewrite decide_True in C6 by done. rewrite app_nil_r in C3.
    apply Forall2_snoc_l in C6 as (ps' & p & -> & C6 & Hc). exists ps', p. split_and!; [done| |done].
    apply Forall_app in C1 as [? _]. apply order_snoc in C2 as [? _]. by split.
  - intros (ps' & p & -> & [C1 C2 C3 C4 C5 C6] & Hc). split; try done.
    + apply Forall_app. split; [done|by constructor].
    + by apply order_snoc.
    + rewrite list.filter_app. cbn. rewrite decide_False by done. by rewrite app_nil_r.
    + rewrite list.filter_app. cbn. rewrite decide_True by done. apply Forall2_snoc_l. by exists ps', p.
Qed.

Lemma capture_snoc_idb e bs b ifs ps :
  b.1 = IDB_BLOCK_TYPE →
  ng_capture e (bs ++ [b]) ifs ps ↔
    ∃ ifs' i, ifs = ifs' ++ [i] ∧ ps = [] ∧ ng_capture e bs ifs' [] ∧ describes e b i ∧
      (∀ j, j ∈ ifs' → linktype j = linktype i) ∧ zlen ifs' < MAX_INTERFACE_TABLE_ENTRIES.
Proof.
  intros Hb. assert (¬ is_packet_block b ∧ b.1 ≠ SHB_BLOCK_TYPE) as [Hp Hs].
  { unfold is_packet_block. rewrite Hb. split; [by intros [?|?]|discriminate]. }
  split.
  - intros [C1 C2 C3 C4 C5 C6]. rewrite list.filter_app in C3, C6. cbn in C3, C6.
    rewrite decide_True in C3 by done. rewrite decide_False in C6 by done. rewrite app_nil_r in C6.
    apply Forall2_snoc_l in C3 as (ifs' & i & -> & C3 & Hd). apply order_snoc in C2 as [C2 Hno]. specialize (Hno Hb).
    assert (filter is_packet_block bs = []) as Hf by (by apply filter_none).
    rewrite Hf in C6. apply Forall2_nil_inv_l in C6 as ->. exists ifs', i.
    rewrite zlen_app in C5. change (zlen [i]) with 1 in C5. split_and!; try done; [| |lia].
    + apply Forall_app in C1 as [? _]. split; try done; [|lia|by rewrite Hf].
      intros j k Hj Hk. apply C4; apply elem_of_app; by left.
    + intros j Hj. apply C4; apply elem_of_app; [by left|right; by apply list_elem_of_singleton].
  - intros (ifs' & i & -> & -> & [C1 C2 C3 C4 C5 C6] & Hd & Hl & Ht).
    apply Forall2_nil_inv_r in C6 as Hf. split.
    + apply Forall_app. split; [done|by constructor].
    + apply order_snoc. split; [done|]. intros _. by apply (filter_none is_packet_block).
    + rewrite list.filter_app. cbn. rewrite decide_True by done. apply Forall2_snoc_l. by exists ifs', i.
    + intros j k [Hj|Hj]%elem_of_app [Hk|Hk]%elem_of_app; rewrite ?list_elem_of_singleton in *; subst; auto.
      symmetry. auto.
    + rewrite zlen_app. change (zlen [i]) with 1. lia.
    + rewrite list.filter_app, Hf. cbn. rewrite decide_False by done. constructor.
Qed.

(** *** One step *)

Definition bump (w : ng_walk_state) : ng_walk_state := w <| w_block_seq := sat_add u32_max (w_block_seq w) 1 |>.

Lemma step_skipped e w b :
  is_skipped_block b →
  ∃ w', walk_step e w b = ok w' ∧ w_interfaces w' = w_interfaces w ∧ w_packets w' = w_packets w ∧
    w_packets_emitted w' = w_packets_emitted w ∧ w_skipped_blocks w' = sat_add u32_max (w_skipped_blocks w) 1 ∧
    w_opb_skipped w' = if decide (b.1 = OPB_BLOCK_TYPE) then sat_add u32_max (w_opb_skipped w) 1 else w_opb_skipped w.
Proof.
  intros (Hp & Hi & Hs). assert (b.1 ≠ EPB_BLOCK_TYPE ∧ b.1 ≠ SPB_BLOCK_TYPE) as [H1 H2].
  { unfold is_packet_block in Hp. tauto. }
  unfold walk_step, walk_block, skip_obsolete. fold (bump w). do 4 (rewrite (proj2 (Z.eqb_neq _ _)) by done).
  destruct (Z.eqb_spec b.1 OPB_BLOCK_TYPE); (eexists; split; [done|]).
  - by rewrite decide_True.
  - by rewrite decide_False.
Qed.

Lemma step_packet e w b w' :
  is_packet_block b →
  walk_step e w b = ok w' ↔ ∃ p, carries e (w_interfaces w) b p ∧ w' = push_packet (bump w) p.
Proof.
  intros Hp. unfold walk_step, walk_block, skip_obsolete, carries. fold (bump w). destruct Hp as [-> | ->].
  - destruct (decide (EPB_BLOCK_TYPE = EPB_BLOCK_TYPE)) as [_|?]; [|done]. change (EPB_BLOCK_TYPE =? SHB_BLOCK_TYPE) with false.
    change (EPB_BLOCK_TYPE =? IDB_BLOCK_TYPE) with false. change (EPB_BLOCK_TYPE =? EPB_BLOCK_TYPE) with true. cbn iota.
    unfold walk_epb. rewrite try_bind_ok. change (w_interfaces (bump w)) with (w_interfaces w). unfold ok. naive_solver.
  - destruct (decide (SPB_BLOCK_TYPE = EPB_BLOCK_TYPE)) as [?|_]; [done|]. change (SPB_BLOCK_TYPE =? SHB_BLOCK_TYPE) with false.
    change (SPB_BLOCK_TYPE =? IDB_BLOCK_TYPE) with false. change (SPB_BLOCK_TYPE =? EPB_BLOCK_TYPE) with false.
    change (SPB_BLOCK_TYPE =? SPB_BLOCK_TYPE) with true. cbn iota. unfold walk_spb.
    change (w_interfaces (bump w)) with (w_interfaces w).
    destruct (w_interfaces w) as [|i ifs] eqn:Ei; [split; [done|by intros (? & [? _] & _)]|].
    assert ((zlen (i :: ifs) =? 0) = false) as ->.
    { apply Z.eqb_neq. rewrite zlen_cons. pose proof (zlen_nonneg ifs). lia. }
    destruct (Z.ltb_spec (zlen b.2) SPB_FIXED_OVERHEAD_BYTES) as [Hl|Hl].
    { split; [done|]. intros (? & (_ & ? & _) & _). lia. }
    unfold SPB_FIXED_OVERHEAD_BYTES in *. destruct (read_u32_Some e b.2 0) as (ol & -> & Hol); [lia..|].
    cbn [mbind option_bind].
    assert (0 ≤ spb_captured_len ol b.2 ≤ zlen b.2 - 4 ∧ spb_captured_len ol b.2 < 2 ^ 32) as Hc.
    { unfold spb_captured_len, SPB_FIXED_OVERHEAD_BYTES, sat_sub, is_u32, u32_max in *.
      pose proof (Z.mod_pos_bound (Z.max 0 (zlen b.2 - 4)) (2 ^ 32)).
      pose proof (Z.mod_le (Z.max 0 (zlen b.2 - 4)) (2 ^ 32)). lia. }
    rewrite cadd_Some by (unfold usize_max, u64_max; lia). cbn [mbind option_bind].
    rewrite slice_Some by lia. cbn [mbind option_bind]. replace (4 + spb_captured_len ol b.2 - 4) with (spb_captured_len ol b.2) by lia.
    split; [intros [= <-]; naive_solver|]. intros (p & (_ & _ & ol' & [= <-] & ->) & ->). done.
Qed.

Lemma step_idb e w b w' :
  b.1 = IDB_BLOCK_TYPE →
  walk_step e w b = ok w' ↔ ∃ i, describes e b i ∧ w_packets_emitted w ≤ 0 ∧
    zlen (w_interfaces w) < MAX_INTERFACE_TABLE_ENTRIES ∧
    (∀ j, head (w_interfaces w) = Some j → linktype j = linktype i) ∧
    w' = (bump w) <| w_interfaces := w_interfaces w ++ [i] |>.
Proof.
  intros Hb. unfold walk_step, walk_block, skip_obsolete. fold (bump w). rewrite Hb. change (IDB_BLOCK_TYPE =? SHB_BLOCK_TYPE) with false.
  change (IDB_BLOCK_TYPE =? IDB_BLOCK_TYPE) with true. cbn iota. unfold walk_idb.
  change (w_interfaces (bump w)) with (w_interfaces w). change (w_packets_emitted (bump w)) with (w_packets_emitted w).
  destruct (Z.ltb_spec 0 (w_packets_emitted w)) as [Hn|Hn]; [split; [done|intros (? & _ & ? & _); lia]|].
  destruct (Z.leb_spec MAX_INTERFACE_TABLE_ENTRIES (zlen (w_interfaces w))) as [Ht|Ht];
    [split; [done|intros (? & _ & _ & ? & _); lia]|].
  unfold describes. destruct (Z.ltb_spec (zlen b.2) IDB_BODY_FIXED_BYTES) as [Hl|Hl];
    [split; [done|intros (? & (? & _) & _); lia]|].
  unfold IDB_BODY_FIXED_BYTES in *. destruct (read_u16_Some e b.2 0) as (lr & -> & _); [lia..|]. cbn [mbind option_bind].
  destruct (supported_link (DataLink_from lr)) eqn:Es; cbn [negb].
  2:{ split; [done|]. intros (i & (_ & Hs & (lr' & [= <-] & Hli) & _) & _). congruence. }
  rewrite try_bind_ok. destruct (parse_idb_options b.2 e) as [[er|r]|] eqn:Eo; cbn [mbind option_bind].
  - split; [intros (? & _ & [=])|]. intros (i & (_ & _ & _ & [=]) & _).
  - split.
    + intros (u & Hlink & [= <-]). exists (mkInterface (DataLink_from lr) r). split_and!; try done; [by exists lr|].
      intros j Hj. destruct (w_interfaces w) as [|i0 ifs]; [done|]. injection Hj as <-.
      destruct (decide (linktype i0 ≠ DataLink_from lr)) as [|Hn']; [done|]. by apply dec_stable in Hn'.
    + intros ([li ri] & (_ & _ & (lr' & [= <-] & Hli) & [= ->]) & _ & _ & Hlink & ->). cbn in *. subst li.
      exists tt. split; [|done]. destruct (w_interfaces w) as [|i0 ifs]; [done|].
      rewrite decide_False; [done|]. intros Hne. by apply Hne, Hlink.
  - split; [intros (? & _ & [=])|]. intros (i & (_ & _ & _ & [=]) & _).
Qed.

(** *** The whole walk *)

(** What the state records of the blocks read. *)
Record walk_done (e : SectionEndianness) (bs : list block) (w : ng_walk_state) : Prop := {
  wd_capture : ng_capture e bs (w_interfaces w) (w_packets w);
  wd_emitted : w_packets_emitted w = Z.min u32_max (zlen (w_packets w));
  wd_skipped : w_skipped_blocks w = Z.min u32_max (zlen (filter is_skipped_block bs));
  wd_opb : w_opb_skipped w = Z.min u32_max (zlen (filter (λ b, b.1 = OPB_BLOCK_TYPE) bs))
}.

Lemma block_kinds b :
  b.1 = SHB_BLOCK_TYPE ∨ b.1 = IDB_BLOCK_TYPE ∨ is_packet_block b ∨ is_skipped_block b.
Proof.
  unfold is_skipped_block. destruct (decide (b.1 = SHB_BLOCK_TYPE)), (decide (b.1 = IDB_BLOCK_TYPE)),
    (decide (is_packet_block b)); tauto.
Qed.

Lemma counted_snoc (P : block → Prop) `{!∀ b, Decision (P b)} bs b n :
  n = Z.min u32_max (zlen (filter P bs)) →
  (if decide (P b) then sat_add u32_max n 1 else n) = Z.min u32_max (zlen (filter P (bs ++ [b]))).
Proof.
  intros ->. rewrite list.filter_app, zlen_app. cbn. pose proof (zlen_nonneg (filter P bs)). destruct (decide (P b)).
  - change (zlen [b]) with 1. unfold sat_add. lia.
  - change (zlen []) with 0. by rewrite Z.add_0_r.
Qed.

Lemma not_skipped_not_opb b : ¬ is_skipped_block b → b.1 ≠ OPB_BLOCK_TYPE.
Proof.
  intros H E. apply H. unfold is_skipped_block, is_packet_block. rewrite E.
  split_and!; [by intros [?|?]|discriminate..].
Qed.

Lemma walk_done_snoc e bs w b w' :
  walk_done e bs w → walk_step e w b = ok w' → walk_done e (bs ++ [b]) w'.
Proof.
  intros [D1 D2 D3 D4] Hs. pose proof (counted_snoc is_skipped_block bs b _ D3) as H3.
  pose proof (counted_snoc (λ b, b.1 = OPB_BLOCK_TYPE) bs b _ D4) as H4. cbn beta in H4.
  destruct (block_kinds b) as [Hk|[Hk|[Hk|Hk]]].
  - revert Hs. unfold walk_step, walk_block, skip_obsolete. rewrite Hk. done.
  - assert (¬ is_skipped_block b) as Hns by (unfold is_skipped_block; tauto).
    rewrite decide_False in H3 by done. rewrite decide_False in H4 by by apply not_skipped_not_opb.
    apply step_idb in Hs as (i & Hd & He & Ht & Hl & ->); [|done].
    assert (w_packets w = []) as Hp.
    { destruct (w_packets w) as [|p ps]; [done|]. rewrite D2, zlen_cons in He. pose proof (zlen_nonneg ps).
      unfold u32_max in He. lia. }
    split; [|done|done|done]. cbn. rewrite Hp in *. apply capture_snoc_idb; [done|].
    exists (w_interfaces w), i. split_and!; try done. intros j Hj. pose proof (nc_link _ _ _ _ D1) as Hlink.
    destruct (w_interfaces w) as [|i0 ifs]; [by apply not_elem_of_nil in Hj|].
    rewrite <- (Hl i0 eq_refl). apply Hlink; [done|by left].
  - assert (¬ is_skipped_block b) as Hns by (unfold is_skipped_block; tauto).
    rewrite decide_False in H3 by done. rewrite decide_False in H4 by by apply not_skipped_not_opb.
    apply step_packet in Hs as (p & Hc & ->); [|done]. split; [| |done|done]; cbn.
    + apply capture_snoc_packet; [done|]. by exists (w_packets w), p.
    + rewrite D2, zlen_app. change (zlen [p]) with 1. pose proof (zlen_nonneg (w_packets w)). unfold sat_add. lia.
  - destruct (step_skipped e w b Hk) as (w2 & E2 & F1 & F2 & F3 & F4 & F5). rewrite E2 in Hs. injection Hs as ->.
    rewrite decide_True in H3 by done. split; rewrite ?F1, ?F2, ?F3, ?F4, ?F5; try done.
    by apply capture_snoc_skipped.
Qed.

Lemma walk_done_init e : walk_done e [] ng_walk_init.
Proof.
  split; try done. split; [constructor| |constructor| | |constructor].
  - intros l1 b l2 H. by destruct l1.
  - intros i j H. by apply not_elem_of_nil in H.
  - vm_compute. discriminate.
Qed.

Lemma ng_fold_done e bs w : ng_fold e ng_walk_init bs = ok w → walk_done e bs w.
Proof.
  revert w. induction bs as [|b bs IH] using rev_ind; intros w E.
  - injection E as <-. apply walk_done_init.
  - apply ng_fold_snoc in E as (w1 & E1 & E2). by eapply walk_done_snoc; [apply IH|].
Qed.

Lemma ng_fold_capture e bs ifs ps :
  ng_capture e bs ifs ps →
  ∃ w, ng_fold e ng_walk_init bs = ok w ∧ w_interfaces w = ifs ∧ w_packets w = ps.
Proof.
  revert ifs ps. induction bs as [|b bs IH] using rev_ind; intros ifs ps Hc.
  { exists ng_walk_init. destruct Hc as [_ _ C3 _ _ C6]. apply Forall2_nil_inv_l in C3 as ->.
    by apply Forall2_nil_inv_l in C6 as ->. }
  destruct (block_kinds b) as [Hk|[Hk|[Hk|Hk]]].
  - apply nc_section in Hc. apply Forall_app in Hc as [_ Hc]. by apply list.Forall_cons in Hc as [? _].
  - apply capture_snoc_idb in Hc as (ifs' & i & -> & -> & Hc & Hd & Hl & Ht); [|done].
    destruct (IH _ _ Hc) as (w & E & <- & Hp). eexists. split.
    + apply ng_fold_snoc. exists w. split; [done|]. apply step_idb; [done|]. exists i. split_and!; try done.
      * apply ng_fold_done in E. rewrite (wd_emitted _ _ _ E), Hp. vm_compute. discriminate.
      * intros j Hj. apply Hl. destruct (w_interfaces w); [done|]. injection Hj as <-. by left.
    + by cbn.
  - apply capture_snoc_packet in Hc as (ps' & p & -> & Hc & Hp); [|done].
    destruct (IH _ _ Hc) as (w & E & <- & <-). eexists. split.
    + apply ng_fold_snoc. exists w. split; [done|]. apply step_packet; [done|]. by exists p.
    + by cbn.
  - apply capture_snoc_skipped in Hc; [|done]. destruct (IH _ _ Hc) as (w & E & <- & <-).
    destruct (step_skipped e w b Hk) as (w2 & E2 & F1 & F2 & _). exists w2. split; [|done].
    apply ng_fold_snoc. by exists w.
Qed.

Definition section_order (parser : PcapNgParser) : SectionEndianness :=
  match section_endianness parser with Big => BigEndian | Little => LittleEndian end.

(** C26. The pcapng reader accepts exactly the well-formed single-section
    captures and returns exactly their packets.  Reading succeeds with a source
    if and only if the crate accepts a section header of major version 1 and
    yields blocks to the end of the input such that there is no second section
    header, every interface block precedes every packet block, all interfaces
    have one supported link type and valid options and there are at most
    65,535 of them, and every packet block decodes under that table; the source
    then holds one packet per packet block, in file order, the common link
    type, and the numbers of skipped and of obsolete packet blocks, which
    saturate at 2^32 - 1. *)
Theorem read_pcapng_exact raw s :
  read_pcapng_crate raw = ok s ↔
  ∃ src parser bs ifs ps,
    ng_new raw = inr (src, parser) ∧ section_major parser = 1 ∧ yields parser src bs ∧
    ng_capture (section_order parser) bs ifs ps ∧ s = capture_source bs ifs ps.
Proof.
  unfold read_pcapng_crate, ng_source. destruct (ng_new raw) as [er|[src parser]]; [split; [done|naive_solver]|].
  destruct (Z.eqb_spec (section_major parser) 1) as [Hm|Hm]; cbn [negb]; [|split; [done|naive_solver]].
  fold (section_order parser). rewrite try_bind_ok. split.
  - intros (w & E & [= <-]). apply ng_walk_yields in E as (bs & Hy & E); [|lia]. apply ng_fold_done in E as [D1 _ D3 D4].
    exists src, parser, bs, (w_interfaces w), (w_packets w). split_and!; try done.
    unfold capture_source. by rewrite D3, D4.
  - intros (src' & parser' & bs & ifs & ps & [= <- <-] & _ & Hy & Hc & ->).
    destruct (ng_fold_capture _ _ _ _ Hc) as (w & E & <- & <-). exists w. split.
    + apply ng_walk_yields; [lia|]. by exists bs.
    + apply ng_fold_done in E as [_ _ D3 D4]. unfold capture_source, ok. by rewrite D3, D4.
Qed.

(** C27. The reader always returns.  Whatever the crate does, as long as the
    block bodies it hands out are slices, opening and reading any file ends
    with a source or an error: no block decoder panics and the block walk
    cannot loop, because a round that consumes nothing is an error. *)
Theorem reader_terminates path : bodies_are_slices → ∃ r, from_file path = Some r.
Proof. apply from_file_total. Qed.

(** Timestamps are exact.  For the 64-bit tick counter of an enhanced packet
    block and a resolution of 10^e ticks per second with e below 20 or 2^e with
    e below 64, the seconds are the whole seconds, saturating at 2^32 - 1, the
    microseconds are below a million, and together they are the tick count in
    microseconds, rounded down, unless the seconds saturate. *)
Theorem timestamp_exact ts_high ts_low r :
  is_u32 ts_high → is_u32 ts_low → is_u8 r → exact_tsresol r = true →
  ∃ secs usecs, pcapng_timestamp_to_secs_usecs ts_high ts_low r = Some (secs, usecs) ∧
    let ticks := ts_high * 2 ^ 32 + ts_low in
    secs = Z.min (ticks / tick_rate r) u32_max ∧ 0 ≤ usecs < 1000000 ∧
    (ticks / tick_rate r ≤ u32_max → secs * 1000000 + usecs = ticks * 1000000 / tick_rate r).
Proof.
  intros Hh Hl Hr Hx. pose proof (ticks_per_sec_exact r Hr Hx) as Hn.
  destruct (ticks_per_sec_range r) as (n & Hn' & Hb). rewrite Hn in Hn'. injection Hn' as <-.
  eexists _, _. split; [by apply timestamp_value|]. cbn zeta. set (t := ts_high * 2 ^ 32 + ts_low).
  assert (0 ≤ t) by (unfold t, is_u32 in *; lia).
  pose proof (Z.mod_pos_bound t (tick_rate r) ltac:(lia)). split_and!; [done| | |].
  - apply Z.div_pos; lia.
  - apply Z.div_lt_upper_bound; lia.
  - intros Hle. rewrite Z.min_l by done. apply split_seconds. lia.
Qed.

Lemma timestamp_exact_witness :
  ∃ secs usecs, pcapng_timestamp_to_secs_usecs 1 2 9 = Some (secs, usecs) ∧
    secs * 1000000 + usecs = 4294967298 * 1000000 / 10 ^ 9.
Proof.
  destruct (timestamp_exact 1 2 9) as (secs & usecs & E & _ & _ & H).
  - vm_compute. by split.
  - vm_compute. by split.
  - vm_compute. by split.
  - reflexivity.
  - exists secs, usecs. split; [exact E|]. apply H. vm_compute. discriminate.
Defined.

(** ** Encoding *)

Definition enc32 (e : SectionEndianness) (v : Z) : list Z :=
  match e with
  | LittleEndian => [v mod 256; v / 256 mod 256; v / 2 ^ 16 mod 256; v / 2 ^ 24 mod 256]
  | BigEndian => [v / 2 ^ 24 mod 256; v / 2 ^ 16 mod 256; v / 256 mod 256; v mod 256]
  end.

Definition enc16 (e : SectionEndianness) (v : Z) : list Z :=
  match e with LittleEndian => [v mod 256; v / 256] | BigEndian => [v / 256; v mod 256] end.

Lemma u32_bytes v :
  is_u32 v → u32_be (v / 2 ^ 24 mod 256) (v / 2 ^ 16 mod 256) (v / 256 mod 256) (v mod 256) = v.
Proof.
  unfold is_u32, u32_max, u32_be. intros Hv. rewrite Z.mod_small; Z.div_mod_to_equations; lia.
Qed.

Lemma u16_bytes v : is_u16 v → u16_be (v / 256) (v mod 256) = v.
Proof. unfold is_u16, u16_max, u16_be. intros Hv. rewrite Z.mod_small; Z.div_mod_to_equations; lia. Qed.

(** An enhanced packet block body. *)
Definition epb_body (e : SectionEndianness) (interface_id ts_high ts_low original_len : Z) (d rest : list Z) : list Z :=
  enc32 e interface_id ++ enc32 e ts_high ++ enc32 e ts_low ++ enc32 e (zlen d) ++ enc32 e original_len ++ d ++ rest.

Lemma epb_body_fields e id hi lo ol d rest :
  is_u32 id → is_u32 hi → is_u32 lo → is_u32 (zlen d) → is_u32 ol →
  let body := epb_body e id hi lo ol d rest in
  zlen body = 20 + zlen d + zlen rest ∧ read_u32 e body 0 = Some id ∧ read_u32 e body 4 = Some hi ∧
  read_u32 e body 8 = Some lo ∧ read_u32 e body 12 = Some (zlen d) ∧ read_u32 e body 16 = Some ol ∧
  drop 20 body = d ++ rest.
Proof.
  intros H1 H2 H3 H4 H5. apply u32_bytes in H1, H2, H3, H4, H5. cbn zeta. split.
  { unfold epb_body. rewrite !zlen_app. destruct e; unfold enc32, zlen; cbn [List.length]; lia. }
  split_and!; destruct e; first [reflexivity|exact (f_equal Some H1)|exact (f_equal Some H2)
    |exact (f_equal Some H3)|exact (f_equal Some H4)|exact (f_equal Some H5)].
Qed.

(** C28. An encoded enhanced packet block decodes to its packet.  In either byte
    order, for an interface of the table and data of any length that fits, a
    body made of the five fields, the data and at least the padding to four
    bytes (options may follow) decodes to exactly the data, with the timestamp
    in the resolution of that interface. *)
Theorem epb_roundtrip e ifs iface id ts_high ts_low original_len d rest :
  index ifs id = Some iface → is_u32 id → is_u32 ts_high → is_u32 ts_low → is_u32 original_len → is_u32 (zlen d) →
  (4 - zlen d mod 4) mod 4 ≤ zlen rest →
  ∃ secs usecs, pcapng_timestamp_to_secs_usecs ts_high ts_low (if_tsresol iface) = Some (secs, usecs) ∧
    decode_epb_body (epb_body e id ts_high ts_low original_len d rest) ifs e = ok (mkRawPacket secs usecs d).
Proof.
  intros Hi H1 H2 H3 H4 H5 Hp. destruct (timestamp_total ts_high ts_low (if_tsresol iface) H2 H3) as [[secs usecs] Et].
  exists secs, usecs. split; [done|]. destruct (epb_body_fields e id ts_high ts_low original_len d rest) as
    (Hz & R0 & R4 & R8 & R12 & R16 & Hd); [done..|].
  pose proof (zlen_nonneg d). pose proof (zlen_nonneg rest). pose proof (Z.mod_pos_bound (4 - zlen d mod 4) 4).
  assert (0 ≤ id < zlen ifs) as Hid.
  { unfold index in Hi. destruct (Z.leb_spec 0 id); [|done]. apply lookup_lt_Some in Hi. unfold zlen. lia. }
  unfold decode_epb_body, EPB_FIXED_OVERHEAD_BYTES. rewrite Hz.
  destruct (Z.ltb_spec (20 + zlen d + zlen rest) 20); [lia|]. rewrite R0. cbn [mbind option_bind].
  destruct (Z.eqb_spec (zlen ifs) 0); [lia|]. destruct (Z.leb_spec (zlen ifs) id); [lia|].
  rewrite Hi, R4, R8, R12, R16. cbn [mbind option_bind]. unfold sat_sub.
  destruct (Z.ltb_spec (Z.max 0 (20 + zlen d + zlen rest - 20)) (zlen d)); [lia|].
  unfold is_u32, u32_max in H5. unfold sat_add. assert (2 ^ 33 ≤ usize_max) by (vm_compute; discriminate).
  destruct (Z.ltb_spec (20 + zlen d + zlen rest) (Z.min usize_max (Z.min usize_max (20 + zlen d) + (4 - zlen d mod 4) mod 4)));
    [lia|].
  rewrite cadd_Some by lia. cbn [mbind option_bind]. rewrite slice_Some by lia.
  change (Z.to_nat 20) with 20%nat. rewrite Hd. replace (Z.to_nat (20 + zlen d - 20)) with (List.length d) by (unfold zlen; lia).
  cbn [mbind option_bind]. rewrite take_app_length, Et. done.
Qed.

(** ** Options *)

Definition enc_option (e : SectionEndianness) (o : Z * list Z) : list Z :=
  enc16 e o.1 ++ enc16 e (zlen o.2) ++ o.2 ++ replicate (Z.to_nat ((- zlen o.2) mod 4)) 0.

(** An option the reader passes over. *)
Definition other_option (o : Z * list Z) : Prop :=
  is_u16 o.1 ∧ o.1 ≠ 0 ∧ o.1 ≠ 9 ∧ is_u16 (zlen o.2).

Lemma read_u16_app e pre v post : is_u16 v → read_u16 e (pre ++ enc16 e v ++ post) (zlen pre) = Some v.
Proof.
  intros Hv%u16_bytes. unfold read_u16.
  rewrite (index_app_r pre _ (zlen pre)), (index_app_r pre _ (zlen pre + 1)) by lia.
  replace (zlen pre - zlen pre) with 0 by lia. replace (zlen pre + 1 - zlen pre) with 1 by lia.
  destruct e; exact (f_equal Some Hv).
Qed.

Lemma zlen_enc16 e v : zlen (enc16 e v) = 2.
Proof. by destruct e. Qed.

Lemma zlen_enc_option e o : zlen (enc_option e o) = 4 + Z.land (zlen o.2 + 3) (Z.lnot 3).
Proof.
  unfold enc_option. rewrite !zlen_app, !zlen_enc16, padded_value. unfold zlen at 2. rewrite length_replicate.
  pose proof (zlen_nonneg o.2). Z.div_mod_to_equations. lia.
Qed.

(** The header of an option at the cursor. *)
Lemma option_header pre e o post :
  is_u16 o.1 → is_u16 (zlen o.2) →
  let opts := pre ++ enc_option e o ++ post in
  read_u16 e opts (zlen pre) = Some o.1 ∧ read_u16 e opts (zlen pre + 2) = Some (zlen o.2) ∧
  zlen opts = zlen pre + (4 + Z.land (zlen o.2 + 3) (Z.lnot 3)) + zlen post.
Proof.
  intros H1 H2 opts. unfold opts. split_and!.
  - unfold enc_option. rewrite <- !app_assoc. by apply read_u16_app.
  - unfold enc_option. rewrite <- !app_assoc, (app_assoc pre).
    replace (zlen pre + 2) with (zlen (pre ++ enc16 e o.1)) by (by rewrite zlen_app, zlen_enc16).
    by apply read_u16_app.
  - rewrite !zlen_app, zlen_enc_option. lia.
Qed.

Lemma options_end fuel pre e post :
  zlen (pre ++ enc_option e (0, []) ++ post) ≤ isize_max →
  idb_options_walk (S fuel) (pre ++ enc_option e (0, []) ++ post) e (zlen pre) = ok 6.
Proof.
  intros Hz. assert (isize_max + 200000 ≤ usize_max) by (vm_compute; discriminate).
  destruct (option_header pre e (0, []) post) as (R1 & R2 & Hl); [by vm_compute..|].
  set (opts := pre ++ enc_option e (0, []) ++ post) in *. clearbody opts.
  change (Z.land _ _) with 0 in Hl. pose proof (zlen_nonneg pre). pose proof (zlen_nonneg post).
  cbn [idb_options_walk]. rewrite (cadd_Some usize_max (zlen pre) 4) by lia. cbn [mbind option_bind].
  destruct (Z.ltb_spec (zlen opts) (zlen pre + 4)); [lia|]. by rewrite R1, R2.
Qed.

Lemma options_found fuel pre e r post :
  zlen (pre ++ enc_option e (9, [r]) ++ post) ≤ isize_max →
  idb_options_walk (S fuel) (pre ++ enc_option e (9, [r]) ++ post) e (zlen pre) = ok r.
Proof.
  intros Hz. assert (isize_max + 200000 ≤ usize_max) by (vm_compute; discriminate).
  destruct (option_header pre e (9, [r]) post) as (R1 & R2 & Hl); [by vm_compute..|].
  assert (index (pre ++ enc_option e (9, [r]) ++ post) (zlen pre + 4) = Some r) as Hv.
  { rewrite index_app_r by lia. replace (zlen pre + 4 - zlen pre) with 4 by lia. by destruct e. }
  set (opts := pre ++ enc_option e (9, [r]) ++ post) in *. clearbody opts.
  change (Z.land _ _) with 4 in Hl. pose proof (zlen_nonneg pre). pose proof (zlen_nonneg post).
  cbn [idb_options_walk]. rewrite (cadd_Some usize_max (zlen pre) 4) by lia. cbn [mbind option_bind].
  destruct (Z.ltb_spec (zlen opts) (zlen pre + 4)); [lia|]. rewrite R1, R2. cbn [mbind option_bind fst snd Z.eqb Pos.eqb].
  rewrite (cadd_Some usize_max (zlen pre + 4)) by (change (zlen [r]) with 1; lia). cbn [mbind option_bind].
  change (zlen [r]) with 1. destruct (Z.ltb_spec (zlen opts) (zlen pre + 4 + 1)); [lia|]. cbn [negb Z.eqb Pos.eqb].
  by rewrite Hv.
Qed.

(** One round over an option that is passed over. *)
Lemma options_round fuel pre e o post :
  other_option o → zlen (pre ++ enc_option e o ++ post) ≤ isize_max →
  idb_options_walk (S fuel) (pre ++ enc_option e o ++ post) e (zlen pre) =
    idb_options_walk fuel (pre ++ enc_option e o ++ post) e (zlen (pre ++ enc_option e o)).
Proof.
  intros (H1 & H2 & H3 & H4) Hz. assert (isize_max + 200000 ≤ usize_max) by (vm_compute; discriminate).
  destruct (option_header pre e o post) as (R1 & R2 & Hlen); [done..|]. rewrite zlen_app, zlen_enc_option.
  set (opts := pre ++ enc_option e o ++ post) in *.
  pose proof (padded_range (zlen o.2)) as Hp. pose proof (zlen_nonneg pre). pose proof (zlen_nonneg post).
  pose proof (zlen_nonneg o.2).
  clearbody opts. cbn [idb_options_walk]. rewrite (cadd_Some usize_max (zlen pre) 4) by lia. cbn [mbind option_bind].
  destruct (Z.ltb_spec (zlen opts) (zlen pre + 4)); [lia|]. rewrite R1, R2. cbn [mbind option_bind].
  destruct (Z.eqb_spec o.1 0); [done|]. rewrite (cadd_Some usize_max (zlen pre + 4) (zlen o.2)) by lia.
  cbn [mbind option_bind]. destruct (Z.ltb_spec (zlen opts) (zlen pre + 4 + zlen o.2)); [lia|].
  destruct (Z.eqb_spec o.1 9); [done|]. rewrite cadd_Some by lia. cbn [mbind option_bind]. f_equal. lia.
Qed.

Lemma options_rounds fuel pre e os post :
  Forall other_option os → zlen (pre ++ concat (enc_option e <$> os) ++ post) ≤ isize_max →
  idb_options_walk (List.length os + fuel) (pre ++ concat (enc_option e <$> os) ++ post) e (zlen pre) =
    idb_options_walk fuel (pre ++ concat (enc_option e <$> os) ++ post) e (zlen (pre ++ concat (enc_option e <$> os))).
Proof.
  intros Hos. revert pre. induction Hos as [|o os Ho Hos IH]; intros pre Hz; cbn [concat fmap list_fmap List.length].
  - by rewrite app_nil_r.
  - cbn [concat fmap list_fmap] in Hz. cbn [Nat.add].
    rewrite <- (app_assoc (enc_option e o)) in *. rewrite options_round by done.
    rewrite !(app_assoc pre (enc_option e o)) in *. by apply IH.
Qed.

Lemma length_concat_options e os : (List.length os ≤ List.length (concat (enc_option e <$> os)))%nat.
Proof.
  induction os as [|o os IH]; [done|]. cbn [concat fmap list_fmap List.length]. rewrite length_app.
  pose proof (zlen_enc_option e o) as H. pose proof (padded_range (zlen o.2)). pose proof (zlen_nonneg o.2).
  unfold zlen in *. lia.
Qed.

(** The resolution of an interface is found wherever it stands.  In a
    description whose options are any others (of any length, padded to four
    bytes) followed by an [if_tsresol] of one byte, whatever comes after, the
    value is returned; if the others are followed by the end marker or by
    nothing, the default is. *)
Theorem idb_options_roundtrip e fixed os r post :
  zlen fixed = 8 → Forall other_option os → zlen (concat (enc_option e <$> os)) + zlen post + 16 ≤ isize_max →
  parse_idb_options (fixed ++ concat (enc_option e <$> os) ++ enc_option e (9, [r]) ++ post) e = ok r ∧
  parse_idb_options (fixed ++ concat (enc_option e <$> os) ++ enc_option e (0, []) ++ post) e = ok 6 ∧
  parse_idb_options (fixed ++ concat (enc_option e <$> os)) e = ok 6.
Proof.
  intros Hf Hos Hz. pose proof (length_concat_options e os) as Hlo. set (O := concat (enc_option e <$> os)) in *.
  assert (∀ tl, zlen (O ++ tl) ≤ isize_max → parse_idb_options (fixed ++ O ++ tl) e =
    match O ++ tl with [] => ok 6
    | _ => idb_options_walk (S (List.length (O ++ tl) - List.length os)) (O ++ tl) e (zlen O) end) as Hgo.
  { intros tl Ht. unfold parse_idb_options, IDB_BODY_FIXED_BYTES. rewrite zlen_app, Hf.
    destruct (O ++ tl) as [|b l] eqn:E; [done|]. rewrite <- E in *.
    assert (0 < zlen (O ++ tl)) by (rewrite E, zlen_cons; pose proof (zlen_nonneg l); lia).
    destruct (Z.ltb_spec 8 (8 + zlen (O ++ tl))); [|lia].
    replace (8 + zlen (O ++ tl)) with (zlen (fixed ++ O ++ tl)) by (rewrite zlen_app; lia).
    rewrite slice_suffix by (rewrite zlen_app; lia). cbn [mbind option_bind].
    rewrite drop_app_length' by (unfold zlen in Hf; lia).
    pose proof (options_rounds (S (List.length (O ++ tl) - List.length os)) [] e os tl Hos Ht) as Hr.
    rewrite !app_nil_l in Hr. fold O in Hr. change (zlen []) with 0 in Hr. rewrite <- Hr. f_equal.
    rewrite length_app. lia. }
  assert (isize_max + 200000 ≤ usize_max) as Hu by (vm_compute; discriminate).
  assert (zlen (enc_option e (9, [r])) = 8) as H9 by by destruct e.
  assert (zlen (enc_option e (0, [])) = 4) as H0 by by destruct e.
  pose proof (zlen_nonneg O). pose proof (zlen_nonneg post). split_and!.
  - rewrite Hgo by (rewrite !zlen_app; lia).
    destruct (O ++ enc_option e (9, [r]) ++ post) eqn:E; [by destruct e, O|]. rewrite <- E.
    apply options_found. rewrite !zlen_app. lia.
  - rewrite Hgo by (rewrite !zlen_app; lia).
    destruct (O ++ enc_option e (0, []) ++ post) eqn:E; [by destruct e, O|]. rewrite <- E.
    apply options_end. rewrite !zlen_app. lia.
  - rewrite <- (app_nil_r O), Hgo by (rewrite app_nil_r; lia). rewrite app_nil_r. destruct O as [|b l] eqn:E; [done|].
    rewrite <- E in *.
    cbn [idb_options_walk]. rewrite cadd_Some by lia. cbn [mbind option_bind].
    destruct (Z.ltb_spec (zlen O) (zlen O + 4)); [done|lia].
Qed.

(** ** The typed variants *)

Definition epb_discriminant (er : ReadError) : EpbDecodeError :=
  match er with
  | EpbNoInterface _ => EmptyInterfaceTable
  | EpbInterfaceOob _ _ => InterfaceIdOob
  | _ => EpbBodyTooShort
  end.

Definition shb_discriminant (er : ReadError) : ShbDecodeError :=
  match er with
  | ShbBadBom _ => InvalidBom
  | UnsupportedMajor _ => UnsupportedVersion
  | _ => ShbBodyTooShort
  end.

Definition map_error {E A} (f : ReadError → E) (r : ReadError + A) : E + A :=
  match r with inl er => inl (f er) | inr x => inr x end.

Definition epb_error_code (d : EpbDecodeError) : string :=
  match d with
  | EpbBodyTooShort => "E-INP-008"
  | EmptyInterfaceTable => "E-INP-009"
  | InterfaceIdOob => "E-INP-010"
  end.

Lemma decode_epb_errors body ifs e er :
  decode_epb_body body ifs e = err er → error_code er = Some (epb_error_code (epb_discriminant er)).
Proof.
  unfold decode_epb_body. intros E.
  repeat (match type of E with
    | (if ?b then _ else _) = _ => destruct b
    | (?m ≫= _) = _ => destruct m; cbn [mbind option_bind] in E; [|done]
    | context [let '(_, _) := ?p in _] => destruct p
    end); try (by injection E as <-); done.
Qed.

(** The variants with typed errors are the decoders themselves.  On every
    input [decode_epb_body_discriminant] and [parse_shb_body_discriminant]
    return what [decode_epb_body] and [parse_shb_body] return, packet for
    packet and error for error, and the class of a packet-block error is the
    code its message quotes: E-INP-008 for short bodies, E-INP-009 for an empty
    interface table, E-INP-010 for an interface out of range. *)
Theorem reader_twins_agree body ifs e :
  decode_epb_body_discriminant body ifs e = map_error epb_discriminant <$> decode_epb_body body ifs e ∧
  parse_shb_body_discriminant body = map_error shb_discriminant <$> parse_shb_body body ∧
  (∀ er, decode_epb_body body ifs e = err er → error_code er = Some (epb_error_code (epb_discriminant er))).
Proof.
  split_and!; [| |apply decode_epb_errors].
  - unfold decode_epb_body_discriminant, decode_epb_body.
    repeat (match goal with
      | |- context [if ?b then _ else _] => destruct b
      | |- context [mbind _ ?m] => destruct m; cbn [mbind option_bind]
      | |- context [let '(_, _) := ?p in _] => destruct p
      end); done.
  - unfold parse_shb_body_discriminant, parse_shb_body. destruct (_ <? _); [done|].
    destruct (slice body 0 4) as [bom|]; [|done]. cbn [mbind option_bind].
    destruct (decide (bom = SHB_BOM_BIG_ENDIAN)); [|destruct (decide (bom = SHB_BOM_LITTLE_ENDIAN)); [|done]];
      cbn [try_bind ok mbind option_bind]; (destruct (read_u16 _ body 4) as [mj|]; [|done]);
      cbn [mbind option_bind]; (destruct (read_u16 _ body 6) as [mn|]; [|done]); cbn [mbind option_bind];
      by destruct (negb (mj =? 1)).
Qed.

(** A source whose first read gives fewer than four bytes is refused, however
    many bytes follow. *)
Lemma short_first_read_rejected f rest :
  zlen f < 4 → from_pcap_reader (mkSource (Some f) rest) = err (StreamTooShort (zlen f)).
Proof. intros H. unfold from_pcap_reader, probe_magic. cbn. by destruct (Z.ltb_spec (zlen f) 4); [|lia]. Qed.
End reader.

(** ** Samples *)

Section samples.
(** A crate for little-endian files: a section header of 28 bytes, then blocks
    of type, total length, body and total length. *)
#[local] Instance sample_pcap_file : PcapFile := {|
  DataLink := Z; DataLink_from z := z;
  ETHERNET := 1; RAW := 101; IPV4 := 228; IPV6 := 229; LINUX_SLL := 113;
  PcapError := string; invalid_field e := Some e; error_string e := e;
  PcapNgParser := unit;
  ng_new raw := if 28 <=? zlen raw then inr (drop 28 raw, tt) else inl "block length < 16"%string;
  section_major _ := 1;
  section_endianness _ := Little;
  next_raw_block _ src :=
    match read_u32 LittleEndian src 0, read_u32 LittleEndian src 4 with
    | Some t, Some len =>
        if (12 <=? len) && (len <=? zlen src)
        then inr (drop (Z.to_nat len) src, (t, take (Z.to_nat (len - 12)) (drop 8 src)), tt)
        else inl "block length"%string
    | _, _ => inl "incomplete"%string
    end;
  pcap_new _ := inl "not pcap"%string
|}.

Lemma sample_slices : bodies_are_slices.
Proof.
  intros parser src rem t body parser'. cbn [next_raw_block sample_pcap_file].
  destruct (read_u32 LittleEndian src 0) as [t0|]; [|done].
  destruct (read_u32 LittleEndian src 4) as [len|] eqn:E; [|done].
  destruct (_ && _); [|done]. intros [= _ _ <-]. unfold zlen. rewrite length_take.
  assert (is_u32 len) as Hl.
  { unfold read_u32 in E. do 4 (match type of E with context [mbind _ ?m] =>
      destruct m; cbn [mbind option_bind] in E; [|done] end). injection E as <-. apply u32_be_u32. }
  unfold is_u32, u32_max, isize_max in *. lia.
Qed.

Definition sample_block (t : Z) (body : list Z) : list Z :=
  enc32 LittleEndian t ++ enc32 LittleEndian (12 + zlen body) ++ body ++ enc32 LittleEndian (12 + zlen body).

Definition sample_epb : list Z := epb_body LittleEndian 0 0 2500000 3 [7; 8; 9] [0].

(** A section header, an Ethernet interface, a packet and an unknown block. *)
Definition sample_capture : list Z :=
  PCAPNG_MAGIC ++ replicate 24 0 ++ sample_block 1 [1; 0; 0; 0; 0; 0; 4; 0]
  ++ sample_block 6 sample_epb ++ sample_block 77 [].

Lemma reader_terminates_witness :
  ∃ r, from_file (Some (mkFile (mkSource (Some sample_capture) (Some [])) (Some 200))) = Some r.
Proof. apply (reader_terminates _ sample_slices). Defined.

Lemma read_pcapng_exact_witness :
  read_pcapng_crate sample_capture = ok (mkPcapSource [mkRawPacket 2 500000 [7; 8; 9]] 1 1 0 true) ∧
  ∃ bs ifs, ng_capture LittleEndian bs ifs [mkRawPacket 2 500000 [7; 8; 9]].
Proof.
  assert (read_pcapng_crate sample_capture = ok (mkPcapSource [mkRawPacket 2 500000 [7; 8; 9]] 1 1 0 true)) as E
    by reflexivity.
  split; [exact E|]. apply (proj1 (read_pcapng_exact sample_capture _)) in E
    as (src & parser & bs & ifs & ps & _ & _ & _ & Hc & [= <- _ _ _]).
  exists bs, ifs. exact Hc.
Defined.

Definition sample_interface : InterfaceInfo := @mkInterface sample_pcap_file 1 6.

Lemma epb_roundtrip_witness :
  ∃ secs usecs, pcapng_timestamp_to_secs_usecs 0 2500000 6 = Some (secs, usecs) ∧
    decode_epb_body sample_epb [sample_interface] LittleEndian = ok (mkRawPacket secs usecs [7; 8; 9]).
Proof.
  apply (epb_roundtrip LittleEndian [sample_interface] sample_interface 0 0 2500000 3 [7; 8; 9] [0]);
    [reflexivity|by split..|by vm_compute].
Defined.

Lemma idb_options_roundtrip_witness :
  parse_idb_options (replicate 8 0 ++ concat (enc_option BigEndian <$> [(2, [101; 110; 48])])
    ++ enc_option BigEndian (9, [9]) ++ [1]) BigEndian = ok 9.
Proof.
  destruct (idb_options_roundtrip BigEndian (replicate 8 0) [(2, [101; 110; 48])] 9 [1]) as [H _].
  - reflexivity.
  - repeat constructor; by vm_compute.
  - by vm_compute.
  - exact H.
Defined.
End samples.
