(* ===== verification/Http.v ===== *)
(** * The HTTP analyzer (src/analyzer/http.rs)

    Buffering, the request and response loops, error counting and poisoning,
    the distribution maps, the seven request detections and the summary.  A
    message is parsed by the [httparse] crate, a parameter ([HttpLib]) together
    with the two text functions of the standard library that need the Unicode
    tables.  A Rust string is a Rocq string of its UTF-8 bytes.  The theorems
    are in [HttpProps]. *)

From S2P Require Import Prelude FlowKey Handler Findings.

#[local] Open Scope Z_scope.

(** ** The [httparse] crate *)

Record raw_request := mkRawRequest {
  rq_complete : Z;
  rq_method : option string;
  rq_path : option string;
  rq_version : option Z;
  rq_headers : list (string * list Z)
}.

Record raw_response := mkRawResponse {
  rs_complete : Z;
  rs_code : option Z
}.

(** [Request::parse] and [Response::parse] with room for a number of headers:
    an error, [Partial], or what a [Complete] parse found and its length;
    [str::to_lowercase]; [String::from_utf8_lossy(v).trim()]. *)
Class HttpLib := {
  HttpError : Type;
  is_too_many_headers : HttpError → bool;
  request_parse : Z → list Z → HttpError + option raw_request;
  response_parse : Z → list Z → HttpError + option raw_response;
  to_lowercase : string → string;
  trimmed_text : list Z → string
}.

Definition MAX_HEADER_BUF : Z := 65536.
Definition MAX_HEADERS : Z := 96.
Definition MAX_URIS : Z := 10000.
Definition MAX_MAP_ENTRIES : Z := 50000.
Definition POISON_THRESHOLD : Z := 3.

(** ** State *)

Record ParsedRequest := mkRequest {
  request_consumed : Z;
  method : string;
  uri : string;
  version : Z;
  host : option string;
  user_agent : option string
}.

Record ParsedResponse := mkResponse {
  response_consumed : Z;
  status_code : Z
}.

Record HttpFlowState := mkHttpFlow {
  request_buf : list Z;
  response_buf : list Z;
  request_poisoned : bool;
  response_poisoned : bool;
  request_error_count : Z;
  response_error_count : Z;
  counted_as_non_http : bool;
  last_ts : Z
}.

#[global] Instance HttpFlowState_eta : Eta HttpFlowState := λ s,
  mkHttpFlow (request_buf s) (response_buf s) (request_poisoned s) (response_poisoned s)
    (request_error_count s) (response_error_count s) (counted_as_non_http s) (last_ts s).

Definition HttpFlowState_new : HttpFlowState := mkHttpFlow [] [] false false 0 0 false 0.

Record HttpAnalyzer := mkHttp {
  flows : gmap FlowKey HttpFlowState;
  methods : gmap string Z;
  status_codes : gmap Z Z;
  hosts : gmap string Z;
  user_agents : gmap string Z;
  uris : list string;
  transactions : Z;
  all_findings : list Finding;
  parse_errors : Z;
  non_http_flows : Z;
  poisoned_bytes_skipped : Z;
  dropped_map_entries : Z
}.

#[global] Instance HttpAnalyzer_eta : Eta HttpAnalyzer := λ a,
  mkHttp (flows a) (methods a) (status_codes a) (hosts a) (user_agents a) (uris a) (transactions a)
    (all_findings a) (parse_errors a) (non_http_flows a) (poisoned_bytes_skipped a) (dropped_map_entries a).

Definition HttpAnalyzer_new : HttpAnalyzer := mkHttp ∅ ∅ ∅ ∅ ∅ [] 0 [] 0 0 0 0.

(** The globals and the state of the flow at hand. *)
Abbreviation http_work := (HttpAnalyzer * HttpFlowState)%type.

(** ** Text *)

(** [eq_ignore_ascii_case]. *)
Definition ascii_lower (c : Ascii.ascii) : Ascii.ascii :=
  let n := Ascii.nat_of_ascii c in
  if bool_decide (65 ≤ n ≤ 90)%nat then Ascii.ascii_of_nat (n + 32) else c.

Fixpoint lower_ascii (s : string) : string :=
  match s with
  | String.EmptyString => String.EmptyString
  | String.String c s => String.String (ascii_lower c) (lower_ascii s)
  end.

Definition eq_ignore_ascii_case (s t : string) : bool := bool_decide (lower_ascii s = lower_ascii t).

(** [floor_char_boundary]: back to a byte that does not continue a character. *)
Definition continues_char (c : Ascii.ascii) : bool := bool_decide (128 ≤ Ascii.nat_of_ascii c < 192)%nat.

Fixpoint floor_char_boundary (s : string) (n : nat) : nat :=
  match n with
  | O => O
  | S m =>
      match String.get n s with
      | Some c => if continues_char c then floor_char_boundary s m else n
      | None => n
      end
  end.

Definition truncate_uri (u : string) (max_len : nat) : string :=
  if (String.length u <=? max_len)%nat then u
  else String.substring 0 (floor_char_boundary u max_len) u.

Section http.
Context `{HL : HttpLib}.

Definition find_header (headers : list (string * list Z)) (name : string) : option string :=
  '(_, h) ← list_find (λ h, eq_ignore_ascii_case h.1 name) headers; Some (trimmed_text h.2).

Definition parse_one_request (buf : list Z) : HttpError + option ParsedRequest :=
  match request_parse MAX_HEADERS buf with
  | inr (Some r) =>
      inr (Some (mkRequest (rq_complete r) (default ""%string (rq_method r)) (default ""%string (rq_path r))
        (default 1 (rq_version r)) (find_header (rq_headers r) "host") (find_header (rq_headers r) "user-agent")))
  | inr None => inr None
  | inl e => inl e
  end.

Definition parse_one_response (buf : list Z) : HttpError + option ParsedResponse :=
  match response_parse MAX_HEADERS buf with
  | inr (Some r) => inr (Some (mkResponse (rs_complete r) (default 0 (rs_code r))))
  | inr None => inr None
  | inl e => inl e
  end.

(** ** Detections *)

Definition http_finding (c : ThreatCategory) (v : Verdict) (cf : Confidence) (summary evidence : text)
    (techniques : list string) (ts : Z) (dir : Direction) : Finding := {|
  category := c; verdict := v; confidence := cf; summary := summary; evidence := [evidence];
  mitre_techniques := techniques; source_ip := None; timestamp := Some ts; direction := Some dir
|}.

Definition traversal_patterns : list string := ["../"; "..%2f"; "..%252f"; "....//"]%string.
Definition shell_patterns : list string :=
  ["/shell.php"; "/shell.asp"; "/shell.jsp"; "/cmd.php"; "/cmd.asp"; "/cmd.jsp"; "/c99.php"; "/r57.php";
   "/webshell"; "/backdoor"]%string.
Definition admin_patterns : list string := ["/wp-admin"; "/admin"; "/phpmyadmin"; "/manager"]%string.
Definition unusual_methods : list string := ["CONNECT"; "TRACE"; "DELETE"; "OPTIONS"]%string.

Definition any_pattern (patterns : list string) (s : string) : bool := existsb (λ p, contains p s) patterns.

Definition uri_finding (c : ThreatCategory) (v : Verdict) (cf : Confidence) (what : string) (p : ParsedRequest)
    (technique : string) (ts : Z) : Finding :=
  http_finding c v cf [Lit what; Lit (truncate_uri (uri p) 120)] [Lit "URI: "; Lit (uri p)] [technique] ts
    ClientToServer.

Definition line_evidence (p : ParsedRequest) : text := [Lit (method p); Lit " "; Lit (uri p)].

Definition host_anomaly (p : ParsedRequest) : option string :=
  if version p =? 1 then
    match host p with
    | None => Some "HTTP/1.1 request without Host header"%string
    | Some h => if decide (h = ""%string) then Some "HTTP/1.1 request with empty Host header"%string else None
    end
  else None.

Definition user_agent_findings (p : ParsedRequest) (ts : Z) : list Finding :=
  if decide (user_agent p = Some ""%string)
  then [http_finding Anomaly Inconclusive Low [Lit "Empty User-Agent header"] (line_evidence p) [] ts ClientToServer]
  else [].

Definition request_findings (p : ParsedRequest) (ts : Z) : list Finding :=
  let uri_lower := to_lowercase (uri p) in
  (if any_pattern traversal_patterns uri_lower
   then [uri_finding Reconnaissance Likely High "Path traversal in URI: " p "T1083" ts] else []) ++
  (if any_pattern shell_patterns uri_lower
   then [uri_finding Execution Likely Medium "Possible web shell access: " p "T1505.003" ts] else []) ++
  (if any_pattern admin_patterns uri_lower
   then [uri_finding Reconnaissance Inconclusive Low "Admin panel access: " p "T1046" ts] else []) ++
  (if bool_decide (method p ∈ unusual_methods)
   then [http_finding Reconnaissance Inconclusive Medium [Lit "Unusual HTTP method: "; Lit (method p)]
           (line_evidence p) [] ts ClientToServer] else []) ++
  (match host_anomaly p with
   | Some summary => [http_finding Anomaly Inconclusive Medium [Lit summary] (line_evidence p) [] ts ClientToServer]
   | None => []
   end) ++
  (if (2048 <? String.length (uri p))%nat
   then [http_finding Execution Likely Medium
           [Lit "Abnormally long URI ("; Num (Z.of_nat (String.length (uri p))); Lit " chars)"]
           [Lit "URI prefix: "; Lit (truncate_uri (uri p) 200)] [] ts ClientToServer] else []) ++
  user_agent_findings p ts.

Definition check_request_detections (a : HttpAnalyzer) (p : ParsedRequest) (ts : Z) : HttpAnalyzer :=
  a <| all_findings := all_findings a ++ request_findings p ts |>.

(** ** Counting *)

(** A capped distribution map: the new map, or that the key was refused. *)
Definition count_key (m : gmap string Z) (k : string) : panicky (option (gmap string Z)) :=
  if (Z.of_nat (size m) <? MAX_MAP_ENTRIES) || bool_decide (is_Some (m !! k)) then
    n ← cadd u64_max (default 0 (m !! k)) 1; Some (Some (<[k := n]> m))
  else Some None.

Definition count_dropped (a : HttpAnalyzer) : HttpAnalyzer :=
  a <| dropped_map_entries := sat_add u64_max (dropped_map_entries a) 1 |>.

Definition count_method (a : HttpAnalyzer) (k : string) : panicky HttpAnalyzer :=
  r ← count_key (methods a) k;
  Some (match r with Some m => a <| methods := m |> | None => count_dropped a end).

Definition count_host (a : HttpAnalyzer) (k : option string) : panicky HttpAnalyzer :=
  match k with
  | None => Some a
  | Some k =>
      r ← count_key (hosts a) k;
      Some (match r with Some m => a <| hosts := m |> | None => count_dropped a end)
  end.

Definition count_user_agent (a : HttpAnalyzer) (k : option string) : panicky HttpAnalyzer :=
  match k with
  | None => Some a
  | Some k =>
      r ← count_key (user_agents a) k;
      Some (match r with Some m => a <| user_agents := m |> | None => count_dropped a end)
  end.

Definition record_uri (a : HttpAnalyzer) (u : string) : HttpAnalyzer :=
  if zlen (uris a) <? MAX_URIS then a <| uris := uris a ++ [u] |> else a.

(** [v.drain(..n)]. *)
Definition drain (n : Z) (l : list Z) : panicky (list Z) := slice l n (zlen l).

(** ** Requests *)

Definition request_success (w : http_work) (p : ParsedRequest) : panicky http_work :=
  let '(a, s) := w in
  a ← count_method a (method p);
  a ← count_host a (host p);
  a ← count_user_agent a (user_agent p);
  let a := record_uri a (uri p) in
  let a := check_request_detections a p (last_ts s) in
  buf ← drain (request_consumed p) (request_buf s);
  Some (a, s <| request_buf := buf |> <| request_error_count := 0 |>).

Definition headers_finding (where_ : string) (ts : Z) (dir : Direction) : Finding :=
  http_finding Anomaly Inconclusive Medium
    [Lit "Excessive HTTP headers exceeded parser limit (possible DoS or header-based attack)"]
    [Lit where_] ["T1499.002"%string] ts dir.

(** The first poisoned direction counts the flow. *)
Definition count_non_http (w : http_work) : http_work :=
  let '(a, s) := w in
  if negb (counted_as_non_http s)
  then (a <| non_http_flows := sat_add u64_max (non_http_flows a) 1 |>, s <| counted_as_non_http := true |>)
  else (a, s).

Definition request_failure (w : http_work) (e : HttpError) (had_success : bool) : http_work :=
  let '(a, s) := w in
  let '(a, s) :=
    if negb had_success then
      let a := a <| parse_errors := sat_add u64_max (parse_errors a) 1 |> in
      let s := s <| request_error_count := sat_add u8_max (request_error_count s) 1 |> in
      let '(a, s) :=
        if POISON_THRESHOLD <=? request_error_count s
        then count_non_http (a, s <| request_poisoned := true |>) else (a, s) in
      if is_too_many_headers e
      then (a <| all_findings := all_findings a
                ++ [headers_finding "Direction: request" (last_ts s) ClientToServer] |>, s)
      else (a, s)
    else (a, s) in
  (a, s <| request_buf := [] |>).

(** The [loop]; a complete parse consumes at least a byte, so the buffer's
    length bounds the rounds. *)
Fixpoint try_parse_requests (fuel : nat) (w : http_work) (had_success : bool) : panicky http_work :=
  match fuel with
  | O => None
  | S fuel =>
      if zlen (request_buf w.2) =? 0 then Some w
      else match parse_one_request (request_buf w.2) with
      | inr (Some parsed) => w ← request_success w parsed; try_parse_requests fuel w true
      | inr None => Some w
      | inl e => Some (request_failure w e had_success)
      end
  end.

(** ** Responses *)

Definition response_success (w : http_work) (p : ParsedResponse) : panicky http_work :=
  let '(a, s) := w in
  m ← bump_count (status_codes a) (status_code p);
  let a := a <| status_codes := m |> <| transactions := sat_add u64_max (transactions a) 1 |> in
  buf ← drain (response_consumed p) (response_buf s);
  Some (a, s <| response_buf := buf |> <| response_error_count := 0 |>).

Definition response_failure (w : http_work) (e : HttpError) (had_success : bool) : http_work :=
  let '(a, s) := w in
  let '(a, s) :=
    if negb had_success then
      let a := a <| parse_errors := sat_add u64_max (parse_errors a) 1 |> in
      let s := s <| response_error_count := sat_add u8_max (response_error_count s) 1 |> in
      let '(a, s) :=
        if POISON_THRESHOLD <=? response_error_count s
        then count_non_http (a, s <| response_poisoned := true |>) else (a, s) in
      if is_too_many_headers e
      then (a <| all_findings := all_findings a
                ++ [headers_finding "Direction: response" (last_ts s) ServerToClient] |>, s)
      else (a, s)
    else (a, s) in
  (a, s <| response_buf := [] |>).

Fixpoint try_parse_responses (fuel : nat) (w : http_work) (had_success : bool) : panicky http_work :=
  match fuel with
  | O => None
  | S fuel =>
      if zlen (response_buf w.2) =? 0 then Some w
      else match parse_one_response (response_buf w.2) with
      | inr (Some parsed) => w ← response_success w parsed; try_parse_responses fuel w true
      | inr None => Some w
      | inl e => Some (response_failure w e had_success)
      end
  end.

(** ** Deliveries, closes and the summary *)

(** Append what fits under the cap. *)
Definition fill (buf data : list Z) : panicky (list Z) :=
  let remaining := sat_sub MAX_HEADER_BUF (zlen buf) in
  if 0 <? remaining then d ← slice data 0 (Z.min (zlen data) remaining); Some (buf ++ d)
  else Some buf.

Definition skip_poisoned (a : HttpAnalyzer) (data : list Z) : panicky HttpAnalyzer :=
  n ← cadd u64_max (poisoned_bytes_skipped a) (zlen data); Some (a <| poisoned_bytes_skipped := n |>).

Definition http_deliver (a : HttpAnalyzer) (s : HttpFlowState) (dir : Direction) (data : list Z) (ts : Z) :
    panicky http_work :=
  let s := s <| last_ts := ts |> in
  match dir with
  | ClientToServer =>
      if request_poisoned s then a ← skip_poisoned a data; Some (a, s)
      else
        buf ← fill (request_buf s) data;
        let s := s <| request_buf := buf |> in
        try_parse_requests (S (List.length buf)) (a, s) false
  | ServerToClient =>
      if response_poisoned s then a ← skip_poisoned a data; Some (a, s)
      else
        buf ← fill (response_buf s) data;
        let s := s <| response_buf := buf |> in
        try_parse_responses (S (List.length buf)) (a, s) false
  end.

Definition http_on_data (a : HttpAnalyzer) (k : FlowKey) (dir : Direction) (data : list Z) (ts : Z) :
    panicky HttpAnalyzer :=
  '(a, s) ← http_deliver a (default HttpFlowState_new (flows a !! k)) dir data ts;
  Some (a <| flows := <[k := s]> (flows a) |>).

Definition http_on_flow_close (a : HttpAnalyzer) (k : FlowKey) : HttpAnalyzer :=
  a <| flows := delete k (flows a) |>.

#[global] Instance http_analyzer : StreamHandler (option HttpAnalyzer) := {
  on_data oa k dir data _ ts := a ← oa; http_on_data a k dir data ts;
  on_flow_close oa k _ := (λ a, http_on_flow_close a k) <$> oa
}.
End http.

(** Most frequent first, then by name. *)
Definition host_before (x y : string * Z) : Prop :=
  y.2 < x.2 ∨ (x.2 = y.2 ∧ String.leb x.1 y.1 = true).

#[global] Instance host_before_dec x y : Decision (host_before x y).
Proof. unfold host_before. apply _. Defined.

Definition top_hosts (a : HttpAnalyzer) : list string :=
  fst <$> take 20 (merge_sort host_before (map_to_list (hosts a))).

Definition http_summarize (a : HttpAnalyzer) : AnalysisSummary := {|
  analyzer_name := "HTTP";
  packets_analyzed := transactions a;
  detail := list_to_map [
    ("transactions", JNum (transactions a));
    ("methods", JObj (methods a));
    ("status_codes", JObj (kmap decimal (status_codes a)));
    ("top_hosts", JArr (top_hosts a));
    ("recent_uris", JArr (take 20 (uris a)));
    ("user_agents", JObj (user_agents a));
    ("parse_errors", JNum (parse_errors a));
    ("non_http_flows", JNum (non_http_flows a));
    ("poisoned_bytes_skipped", JNum (poisoned_bytes_skipped a));
    ("dropped_map_entries", JNum (dropped_map_entries a))]%string
|}.
