(* ===== verification/HttpProps.v ===== *)
(** * Theorems about the HTTP analyzer

    Bounds, exact poisoning, pipelined messages and case-insensitive
    detection, for any message parser that reports how much it consumed. *)

From S2P Require Import Prelude FlowKey Handler Findings Http.

#[local] Open Scope Z_scope.

(** What [httparse] documents: a complete parse reports the number of bytes of
    the message, at least one of them and no more than there are. *)
Class HttpLaws `{HL : HttpLib} : Prop := {
  request_length n buf r : request_parse n buf = inr (Some r) → 1 ≤ rq_complete r ≤ zlen buf;
  response_length n buf r : response_parse n buf = inr (Some r) → 1 ≤ rs_complete r ≤ zlen buf
}.

Section http.
Context `{HW : HttpLaws}.

(** ** Counters *)

Definition values_le (c : Z) (m : gmap string Z) : Prop := ∀ k v, m !! k = Some v → v ≤ c.

(** Every counter is at most [c], every table within its cap. *)
Record counts_ok (c : Z) (a : HttpAnalyzer) : Prop := {
  co_methods : values_le c (methods a) ∧ Z.of_nat (size (methods a)) ≤ MAX_MAP_ENTRIES;
  co_hosts : values_le c (hosts a) ∧ Z.of_nat (size (hosts a)) ≤ MAX_MAP_ENTRIES;
  co_agents : values_le c (user_agents a) ∧ Z.of_nat (size (user_agents a)) ≤ MAX_MAP_ENTRIES;
  co_uris : zlen (uris a) ≤ MAX_URIS;
  co_status : map_sum id (status_codes a) = transactions a ∧ (∀ k, 0 ≤ fcount (status_codes a) k);
  co_transactions : transactions a ≤ c
}.

Lemma counts_ok_le c c' a : counts_ok c a → c ≤ c' → counts_ok c' a.
Proof.
  intros [[A1 A2] [B1 B2] [C1 C2] D E F] Hc.
  split; try done; [split; [|done]; intros k v H..|lia].
  - apply A1 in H. lia.
  - apply B1 in H. lia.
  - apply C1 in H. lia.
Qed.

Lemma count_key_ok c m k :
  values_le c m → Z.of_nat (size m) ≤ MAX_MAP_ENTRIES → 0 ≤ c < u64_max →
  ∃ r, count_key m k = Some r ∧
    match r with
    | Some m' => values_le (c + 1) m' ∧ Z.of_nat (size m') ≤ MAX_MAP_ENTRIES
    | None => True
    end.
Proof.
  intros Hv Hs Hc. unfold count_key. destruct (_ || _) eqn:Eb; [|by exists None].
  assert (default 0 (m !! k) ≤ c) as Hk by (destruct (m !! k) as [v|] eqn:E; [by apply Hv in E|cbn; lia]).
  rewrite cadd_Some by lia. cbn [mbind option_bind]. eexists. split; [done|]. cbn beta iota. split.
  - intros k' v'. rewrite lookup_insert. case_decide; [intros [= <-]; lia|]. intros Hv'%Hv. lia.
  - apply orb_true_iff in Eb as [Hlt%Z.ltb_lt|Hin%bool_decide_eq_true].
    + rewrite map_size_insert. case_match; unfold id; lia.
    + rewrite map_size_insert_Some; done.
Qed.

(** What the counting of a request keeps. *)
Definition same_flow_side (a a' : HttpAnalyzer) : Prop :=
  flows a' = flows a ∧ poisoned_bytes_skipped a' = poisoned_bytes_skipped a.

Lemma count_request_ok c a s p :
  counts_ok c a → 0 ≤ c < u64_max → 1 ≤ request_consumed p ≤ zlen (request_buf s) →
  ∃ a' s', request_success (a, s) p = Some (a', s') ∧ counts_ok (c + 1) a' ∧ same_flow_side a a' ∧
    s' = s <| request_buf := drop (Z.to_nat (request_consumed p)) (request_buf s) |> <| request_error_count := 0 |>.
Proof.
  intros [[A1 A2] [B1 B2] [C1 C2] D E F] Hc Hp. unfold request_success.
  assert (∀ m, values_le c m → values_le (c + 1) m) as Hw by (intros m H k v Hk; apply H in Hk; lia).
  destruct (count_key_ok c (methods a) (method p) A1 A2 Hc) as (r1 & E1 & R1). unfold count_method. rewrite E1.
  cbn [mbind option_bind]. set (a1 := match r1 with Some m => a <| methods := m |> | None => count_dropped a end).
  assert (hosts a1 = hosts a ∧ user_agents a1 = user_agents a ∧ uris a1 = uris a ∧ status_codes a1 = status_codes a ∧
    transactions a1 = transactions a ∧ same_flow_side a a1 ∧
    values_le (c + 1) (methods a1) ∧ Z.of_nat (size (methods a1)) ≤ MAX_MAP_ENTRIES) as
    (Q1 & Q2 & Q3 & Q4 & Q5 & Q6 & Q7 & Q8) by (unfold a1; destruct r1 as [m|]; cbn; [destruct R1|]; split_and!; auto; by split).
  clearbody a1. clear E1 R1 r1.
  assert (∃ a2, count_host a1 (host p) = Some a2 ∧ methods a2 = methods a1 ∧ user_agents a2 = user_agents a ∧
    uris a2 = uris a ∧ status_codes a2 = status_codes a ∧ transactions a2 = transactions a ∧ same_flow_side a a2 ∧
    values_le (c + 1) (hosts a2) ∧ Z.of_nat (size (hosts a2)) ≤ MAX_MAP_ENTRIES) as
    (a2 & -> & S1 & S2 & S3 & S4 & S5 & S6 & S7 & S8).
  { unfold count_host. destruct (host p) as [h|].
    - rewrite Q1. destruct (count_key_ok c (hosts a) h B1 B2 Hc) as (r & -> & R). cbn [mbind option_bind].
      eexists. split; [done|]. destruct r as [m|]; cbn; [destruct R|]; rewrite ?Q1; split_and!; auto; by split.
    - exists a1. rewrite Q1. split_and!; auto; by split. }
  cbn [mbind option_bind].
  assert (∃ a3, count_user_agent a2 (user_agent p) = Some a3 ∧ methods a3 = methods a1 ∧ hosts a3 = hosts a2 ∧
    uris a3 = uris a ∧ status_codes a3 = status_codes a ∧ transactions a3 = transactions a ∧ same_flow_side a a3 ∧
    values_le (c + 1) (user_agents a3) ∧ Z.of_nat (size (user_agents a3)) ≤ MAX_MAP_ENTRIES) as
    (a3 & -> & T1 & T2 & T3 & T4 & T5 & T6 & T7 & T8).
  { unfold count_user_agent. destruct (user_agent p) as [h|].
    - rewrite S2. destruct (count_key_ok c (user_agents a) h C1 C2 Hc) as (r & -> & R). cbn [mbind option_bind].
      eexists. split; [done|]. destruct r as [m|]; cbn; [destruct R|]; rewrite ?S2; split_and!; auto; by split.
    - exists a2. rewrite S2. split_and!; auto; by split. }
  cbn [mbind option_bind]. unfold drain. rewrite slice_suffix by lia. cbn [mbind option_bind].
  eexists _, _. split; [done|].
  set (a4 := check_request_detections _ _ _).
  assert (methods a4 = methods a1 ∧ hosts a4 = hosts a2 ∧ user_agents a4 = user_agents a3 ∧
    status_codes a4 = status_codes a ∧ transactions a4 = transactions a ∧ same_flow_side a a4 ∧
    zlen (uris a4) ≤ MAX_URIS) as (U1 & U2 & U3 & U4 & U5 & U6 & U7).
  { unfold a4, check_request_detections, record_uri. rewrite T3.
    destruct (Z.ltb_spec (zlen (uris a)) MAX_URIS); cbn; rewrite ?T3; split_and!; try done.
    rewrite zlen_app. change (zlen [_]) with 1. lia. }
  clearbody a4. split_and!; [|done|done].
  split; rewrite ?U1, ?U2, ?U3, ?U4, ?U5; try done. lia.
Qed.

Lemma count_response_ok c a s p :
  counts_ok c a → 0 ≤ c < u64_max → 1 ≤ response_consumed p ≤ zlen (response_buf s) →
  ∃ a' s', response_success (a, s) p = Some (a', s') ∧ counts_ok (c + 1) a' ∧ same_flow_side a a' ∧
    s' = s <| response_buf := drop (Z.to_nat (response_consumed p)) (response_buf s) |> <| response_error_count := 0 |>.
Proof.
  intros Hco Hc Hp. pose proof (co_status _ _ Hco) as [Hsum Hnn]. pose proof (co_transactions _ _ Hco) as Ht.
  pose proof (fcount_le_sum _ (status_code p) Hnn). unfold response_success.
  destruct (bump_count_Some (status_codes a) (status_code p)) as (m & Em & _); [lia|]. rewrite Em. cbn [mbind option_bind].
  unfold drain. rewrite slice_suffix by lia. cbn [mbind option_bind]. eexists _, _. split; [done|]. split_and!; [|by split|done].
  apply (counts_ok_le c (c + 1)) in Hco as [A B C D E F]; [|lia]. split; try done; cbn.
  - split; [|by eapply bump_count_nonneg]. rewrite (bump_count_sum _ _ _ Em), Hsum. unfold sat_add. lia.
  - unfold sat_add. lia.
Qed.

Lemma request_failure_ok c a s e b a' s' :
  counts_ok c a → request_failure (a, s) e b = (a', s') →
  counts_ok c a' ∧ same_flow_side a a' ∧ request_buf s' = [] ∧ response_buf s' = response_buf s.
Proof.
  intros [A B C D E F]. unfold request_failure, count_non_http.
  destruct b, (POISON_THRESHOLD <=? _), (counted_as_non_http s) eqn:En, (is_too_many_headers e); cbn;
    rewrite ?En; cbn; intros [= <- <-]; (split_and!; [|by split|done|done]); by split.
Qed.

Lemma response_failure_ok c a s e b a' s' :
  counts_ok c a → response_failure (a, s) e b = (a', s') →
  counts_ok c a' ∧ same_flow_side a a' ∧ response_buf s' = [] ∧ request_buf s' = request_buf s.
Proof.
  intros [A B C D E F]. unfold response_failure, count_non_http.
  destruct b, (POISON_THRESHOLD <=? _), (counted_as_non_http s) eqn:En, (is_too_many_headers e); cbn;
    rewrite ?En; cbn; intros [= <- <-]; (split_and!; [|by split|done|done]); by split.
Qed.

Lemma parse_request_length buf p : parse_one_request buf = inr (Some p) → 1 ≤ request_consumed p ≤ zlen buf.
Proof.
  unfold parse_one_request. destruct (request_parse MAX_HEADERS buf) as [e|[r|]] eqn:E; try done.
  intros [= <-]. by apply request_length in E.
Qed.

Lemma parse_response_length buf p : parse_one_response buf = inr (Some p) → 1 ≤ response_consumed p ≤ zlen buf.
Proof.
  unfold parse_one_response. destruct (response_parse MAX_HEADERS buf) as [e|[r|]] eqn:E; try done.
  intros [= <-]. by apply response_length in E.
Qed.

(** ** The loops *)

(** A loop turns bytes of its buffer into counts. *)
Lemma requests_ok fuel c a s b :
  counts_ok c a → 0 ≤ c → c + zlen (request_buf s) ≤ u64_max → (List.length (request_buf s) < fuel)%nat →
  ∃ a' s' c', try_parse_requests fuel (a, s) b = Some (a', s') ∧ counts_ok c' a' ∧ same_flow_side a a' ∧
    c ≤ c' ∧ c' + zlen (request_buf s') ≤ c + zlen (request_buf s) ∧ response_buf s' = response_buf s.
Proof.
  revert c a s b. induction fuel as [|fuel IH]; intros c a s b Ha Hc Hz Hf; [lia|].
  cbn [try_parse_requests snd]. destruct (Z.eqb_spec (zlen (request_buf s)) 0).
  { exists a, s, c. split_and!; [done..|by split|lia|lia|done]. }
  destruct (parse_one_request (request_buf s)) as [e|[p|]] eqn:Ep.
  - destruct (request_failure (a, s) e b) as [a' s'] eqn:Er.
    destruct (request_failure_ok _ _ _ _ _ _ _ Ha Er) as (A & B & C & D).
    exists a', s', c. rewrite C. change (zlen []) with 0. pose proof (zlen_nonneg (request_buf s)).
    split_and!; try done; lia.
  - apply parse_request_length in Ep. destruct (count_request_ok c a s p) as (a1 & s1 & -> & H1 & [F1 F2] & ->); [done|lia|lia|].
    cbn [mbind option_bind]. set (s1 := s <| request_buf := _ |> <| request_error_count := 0 |>).
    assert (zlen (request_buf s1) = zlen (request_buf s) - request_consumed p) as Hl.
    { unfold s1, zlen in *. cbn. rewrite length_drop. lia. }
    destruct (IH (c + 1) a1 s1 true) as (a' & s' & c' & -> & A & [B1 B2] & C & D & E); [done|lia|lia|unfold zlen in *; lia|].
    exists a', s', c'. split_and!; [done|done|split; congruence|lia|lia|by rewrite E].
  - exists a, s, c. split_and!; [done..|by split|lia|lia|done].
Qed.

Lemma responses_ok fuel c a s b :
  counts_ok c a → 0 ≤ c → c + zlen (response_buf s) ≤ u64_max → (List.length (response_buf s) < fuel)%nat →
  ∃ a' s' c', try_parse_responses fuel (a, s) b = Some (a', s') ∧ counts_ok c' a' ∧ same_flow_side a a' ∧
    c ≤ c' ∧ c' + zlen (response_buf s') ≤ c + zlen (response_buf s) ∧ request_buf s' = request_buf s.
Proof.
  revert c a s b. induction fuel as [|fuel IH]; intros c a s b Ha Hc Hz Hf; [lia|].
  cbn [try_parse_responses snd]. destruct (Z.eqb_spec (zlen (response_buf s)) 0).
  { exists a, s, c. split_and!; [done..|by split|lia|lia|done]. }
  destruct (parse_one_response (response_buf s)) as [e|[p|]] eqn:Ep.
  - destruct (response_failure (a, s) e b) as [a' s'] eqn:Er.
    destruct (response_failure_ok _ _ _ _ _ _ _ Ha Er) as (A & B & C & D).
    exists a', s', c. rewrite C. change (zlen []) with 0. pose proof (zlen_nonneg (response_buf s)).
    split_and!; try done; lia.
  - apply parse_response_length in Ep. destruct (count_response_ok c a s p) as (a1 & s1 & -> & H1 & [F1 F2] & ->); [done|lia|lia|].
    cbn [mbind option_bind]. set (s1 := s <| response_buf := _ |> <| response_error_count := 0 |>).
    assert (zlen (response_buf s1) = zlen (response_buf s) - response_consumed p) as Hl.
    { unfold s1, zlen in *. cbn. rewrite length_drop. lia. }
    destruct (IH (c + 1) a1 s1 true) as (a' & s' & c' & -> & A & [B1 B2] & C & D & E); [done|lia|lia|unfold zlen in *; lia|].
    exists a', s', c'. split_and!; [done|done|split; congruence|lia|lia|by rewrite E].
  - exists a, s, c. split_and!; [done..|by split|lia|lia|done].
Qed.

(** ** Deliveries *)

Definition buffered (s : HttpFlowState) : Z := zlen (request_buf s) + zlen (response_buf s).

Definition buffers_capped (s : HttpFlowState) : Prop :=
  zlen (request_buf s) ≤ MAX_HEADER_BUF ∧ zlen (response_buf s) ≤ MAX_HEADER_BUF.

Lemma fill_ok buf d :
  zlen buf ≤ MAX_HEADER_BUF →
  ∃ buf', fill buf d = Some buf' ∧ buf' = buf ++ take (Z.to_nat (MAX_HEADER_BUF - zlen buf)) d ∧
    zlen buf' ≤ MAX_HEADER_BUF ∧ zlen buf' ≤ zlen buf + zlen d.
Proof.
  intros Hb. unfold fill, sat_sub. pose proof (zlen_nonneg d). pose proof (zlen_nonneg buf).
  rewrite Z.max_r by lia. destruct (Z.ltb_spec 0 (MAX_HEADER_BUF - zlen buf)).
  - rewrite slice_Some by lia. cbn [mbind option_bind]. change (drop (Z.to_nat 0) d) with d.
    exists (buf ++ take (Z.to_nat (MAX_HEADER_BUF - zlen buf)) d). rewrite zlen_app.
    assert (zlen (take (Z.to_nat (MAX_HEADER_BUF - zlen buf)) d) = Z.min (MAX_HEADER_BUF - zlen buf) (zlen d)) as Hl.
    { unfold zlen in *. rewrite length_take. lia. }
    split_and!; [|done|lia|lia]. do 2 f_equal.
    destruct (Z.le_ge_cases (zlen d) (MAX_HEADER_BUF - zlen buf)).
    + rewrite !take_ge; [done|unfold zlen in *; lia..].
    + f_equal. lia.
  - exists buf. replace (MAX_HEADER_BUF - zlen buf) with 0 by lia. split_and!; [done|by rewrite app_nil_r|lia|lia].
Qed.

Lemma http_deliver_ok c a s dir d ts :
  counts_ok c a → 0 ≤ c → buffers_capped s → 0 ≤ poisoned_bytes_skipped a →
  c + zlen (request_buf s) + zlen (response_buf s) + zlen d ≤ u64_max →
  poisoned_bytes_skipped a + zlen d ≤ u64_max →
  ∃ a' s' c', http_deliver a s dir d ts = Some (a', s') ∧ counts_ok c' a' ∧ c ≤ c' ∧ flows a' = flows a ∧
    0 ≤ poisoned_bytes_skipped a' ≤ poisoned_bytes_skipped a + zlen d ∧
    c' + buffered s' ≤ c + buffered s + zlen d ∧ buffers_capped s'.
Proof.
  intros Ha Hc [Hb1 Hb2] Hp Hz Hpz. unfold http_deliver, buffered, buffers_capped. pose proof (zlen_nonneg d).
  pose proof (zlen_nonneg (request_buf s)). pose proof (zlen_nonneg (response_buf s)).
  destruct dir; cbn [update_field HttpFlowState_eta request_poisoned response_poisoned request_buf response_buf].
  all: match goal with |- context [if ?x then _ else _] => destruct x end.
  1, 3: unfold skip_poisoned; rewrite cadd_Some by lia; cbn [mbind option_bind]; eexists _, _, c;
    split_and!; try done; cbn; try lia; by destruct Ha.
  - destruct (fill_ok (request_buf s) d Hb1) as (buf & -> & _ & Hl1 & Hl2). cbn [mbind option_bind].
    match goal with |- context [try_parse_requests ?f (a, ?s1) false] =>
      destruct (requests_ok f c a s1 false) as (a' & s' & c' & -> & A & [B1 B2] & C & D & E) end;
      [done|done|cbn; lia|cbn; lia|]. cbn in D, E. exists a', s', c'. rewrite E. split_and!; try done; lia.
  - destruct (fill_ok (response_buf s) d Hb2) as (buf & -> & _ & Hl1 & Hl2). cbn [mbind option_bind].
    match goal with |- context [try_parse_responses ?f (a, ?s1) false] =>
      destruct (responses_ok f c a s1 false) as (a' & s' & c' & -> & A & [B1 B2] & C & D & E) end;
      [done|done|cbn; lia|cbn; lia|]. cbn in D, E. exists a', s', c'. rewrite E. split_and!; try done; lia.
Qed.

(** The invariant of the analyzer after [n] delivered bytes. *)
Record http_ok (n : Z) (a : HttpAnalyzer) : Prop := {
  ho_flows : ∀ k s, flows a !! k = Some s → buffers_capped s;
  ho_poison : 0 ≤ poisoned_bytes_skipped a ≤ n;
  ho_counts : ∃ c, 0 ≤ c ∧ counts_ok c a ∧ c + map_sum buffered (flows a) ≤ n
}.

Lemma flow_buffered_nonneg s : 0 ≤ buffered s.
Proof. unfold buffered. pose proof (zlen_nonneg (request_buf s)). pose proof (zlen_nonneg (response_buf s)). lia. Qed.

Lemma http_ok_new : http_ok 0 HttpAnalyzer_new.
Proof.
  split; [intros k s H; cbn in H; by apply lookup_empty_Some in H|done|]. exists 0. split; [done|]. split; [|by cbn].
  split; cbn; try (split; [intros k v H; by apply lookup_empty_Some in H|by vm_compute]); by vm_compute.
Qed.

(** The state of a flow, present or not, within its share of the buffers. *)
Lemma http_state_ok n a k :
  http_ok n a →
  let s := default HttpFlowState_new (flows a !! k) in
  buffers_capped s ∧ map_sum buffered (delete k (flows a)) = map_sum buffered (flows a) - buffered s.
Proof.
  intros Ha. cbn zeta. destruct (flows a !! k) as [s|] eqn:E; cbn.
  - split; [by eapply ho_flows|]. by apply map_sum_delete.
  - split; [by vm_compute|]. rewrite delete_id by done. change (buffered HttpFlowState_new) with 0. lia.
Qed.

Lemma http_on_data_ok n a k dir d ts :
  http_ok n a → n + zlen d ≤ u64_max →
  ∃ a', http_on_data a k dir d ts = Some a' ∧ http_ok (n + zlen d) a'.
Proof.
  intros Ha Hn. pose proof Ha as [Hf [Hp1 Hp2] (c & Hc & Hco & Hle)].
  destruct (http_state_ok n a k Ha) as [Hcap Hdel]. unfold http_on_data.
  set (s := default HttpFlowState_new (flows a !! k)) in *. clearbody s.
  assert (0 ≤ map_sum buffered (delete k (flows a))) as Hnn by (apply map_sum_nonneg; intros; apply flow_buffered_nonneg).
  destruct (http_deliver_ok c a s dir d ts) as (a' & s' & c' & -> & A & B & C & D & E & F);
    [done|done|done|lia|unfold buffered in *; lia|lia|].
  cbn [mbind option_bind]. eexists. split; [done|]. split; cbn.
  - intros k' s1. rewrite C, lookup_insert. case_decide; [by intros [= <-]|]. apply Hf.
  - lia.
  - exists c'. split; [lia|]. split; [by destruct A|]. rewrite C, <- (insert_delete_eq (flows a)).
    rewrite map_sum_insert_fresh by apply lookup_delete_eq. lia.
Qed.

Lemma http_on_flow_close_ok n a k : http_ok n a → http_ok n (http_on_flow_close a k).
Proof.
  intros Ha. destruct (http_state_ok n a k Ha) as [_ Hdel]. destruct Ha as [Hf Hp (c & Hc & Hco & Hle)]. split; cbn.
  - by intros k' s [_ H]%lookup_delete_Some; eapply Hf.
  - done.
  - exists c. split; [done|]. split; [by destruct Hco|]. rewrite Hdel. 
    pose proof (flow_buffered_nonneg (default HttpFlowState_new (flows a !! k))). lia.
Qed.

Lemma http_replay_ok es n a :
  http_ok n a → n + trace_bytes es ≤ u64_max →
  ∃ a', replay (Some a) es = Some a' ∧ http_ok (n + trace_bytes es) a'.
Proof.
  intros Ha Hn. apply (replay_preserves u64_max http_ok); [| |done|done].
  - intros n' a' k dir d off ts Ha' Hn'. by apply http_on_data_ok.
  - intros n' a' k r Ha'. eexists. split; [done|]. by apply http_on_flow_close_ok.
Qed.

(** The HTTP analyzer never panics and stays bounded.  Over any trace of at
    most 2^64 - 1 delivered bytes every call returns, whatever the message
    parser answers as long as it reports lengths as documented; no counter
    overflows; each direction buffers at most 65,536 bytes, the method, host
    and user-agent tables hold at most 50,000 entries and the URI list 10,000;
    and the transaction count is the sum of the status-code counts. *)
Theorem http_bounded es :
  trace_bytes es ≤ u64_max →
  ∃ a, replay (Some HttpAnalyzer_new) es = Some a ∧
    (∀ k s, flows a !! k = Some s → zlen (request_buf s) ≤ 65536 ∧ zlen (response_buf s) ≤ 65536) ∧
    Z.of_nat (size (methods a)) ≤ 50000 ∧ Z.of_nat (size (hosts a)) ≤ 50000 ∧
    Z.of_nat (size (user_agents a)) ≤ 50000 ∧ zlen (uris a) ≤ 10000 ∧
    map_sum id (status_codes a) = transactions a ∧ packets_analyzed (http_summarize a) ≤ trace_bytes es.
Proof.
  intros Hn. destruct (http_replay_ok es 0 _ http_ok_new) as (a & E & [Hf _ (c & _ & [A B C D F G] & Hc)]); [lia|].
  assert (0 ≤ map_sum buffered (flows a)) by (apply map_sum_nonneg; intros; apply flow_buffered_nonneg).
  exists a. split_and!; [done|exact Hf|apply A|apply B|apply C|done|apply F|]. cbn. lia.
Qed.

(** ** Poisoning *)

(** The oracle of the property test: consecutive errors and the flag of one
    direction, and the bytes an event adds to the skipped ones. *)
Record DirOracle := mkOracle { consecutive_errors : Z; poisoned : bool }.

Definition oracle_step (o : DirOracle) (invalid : bool) (len : Z) : DirOracle * Z :=
  if poisoned o then (o, len)
  else if invalid then
    let n := sat_add u32_max (consecutive_errors o) 1 in
    (mkOracle n (poisoned o || (POISON_THRESHOLD <=? n)), 0)
  else (mkOracle 0 (poisoned o), 0).

(** A delivery that is one whole message, or that does not parse. *)
Record parse_event := mkParseEvent { ev_dir : Direction; ev_data : list Z; ev_invalid : bool }.

Definition parse_event_ok (ev : parse_event) : Prop :=
  1 ≤ zlen (ev_data ev) ≤ MAX_HEADER_BUF ∧
  match ev_dir ev with
  | ClientToServer =>
      if ev_invalid ev then ∃ e, parse_one_request (ev_data ev) = inl e
      else ∃ p, parse_one_request (ev_data ev) = inr (Some p) ∧ request_consumed p = zlen (ev_data ev)
  | ServerToClient =>
      if ev_invalid ev then ∃ e, parse_one_response (ev_data ev) = inl e
      else ∃ p, parse_one_response (ev_data ev) = inr (Some p) ∧ response_consumed p = zlen (ev_data ev)
  end.

(** The two oracles and the bytes expected to be skipped. *)
Definition oracles_step (st : DirOracle * DirOracle * Z) (ev : parse_event) : DirOracle * DirOracle * Z :=
  let '(req, resp, n) := st in
  match ev_dir ev with
  | ClientToServer => let '(req, c) := oracle_step req (ev_invalid ev) (zlen (ev_data ev)) in (req, resp, n + c)
  | ServerToClient => let '(resp, c) := oracle_step resp (ev_invalid ev) (zlen (ev_data ev)) in (req, resp, n + c)
  end.

Definition oracle_init : DirOracle := mkOracle 0 false.

(** The state of a direction agrees with its oracle. *)
Definition agrees (o : DirOracle) (flag : bool) (count : Z) : Prop :=
  flag = poisoned o ∧ (flag = false → count = consecutive_errors o ∧ 0 ≤ count < POISON_THRESHOLD).

Record oracle_inv (st : DirOracle * DirOracle * Z) (a : HttpAnalyzer) (s : HttpFlowState) : Prop := {
  oi_request : agrees st.1.1 (request_poisoned s) (request_error_count s);
  oi_response : agrees st.1.2 (response_poisoned s) (response_error_count s);
  oi_buffers : request_buf s = [] ∧ response_buf s = [];
  oi_skipped : poisoned_bytes_skipped a = st.2
}.

Lemma fill_empty d : zlen d ≤ MAX_HEADER_BUF → fill [] d = Some d.
Proof.
  intros Hd. destruct (fill_ok [] d) as (b & -> & -> & _); [by vm_compute|]. change (zlen []) with 0.
  rewrite Z.sub_0_r, app_nil_l, take_ge; [done|]. unfold zlen in Hd. lia.
Qed.

Lemma agrees_invalid o count :
  agrees o false count →
  let n := sat_add u8_max count 1 in
  agrees (oracle_step o true 0).1 (POISON_THRESHOLD <=? n) n.
Proof.
  intros [Hp Hc]. destruct (Hc eq_refl) as [-> Hb]. unfold oracle_step. rewrite <- Hp. cbn.
  assert (sat_add u8_max (consecutive_errors o) 1 = consecutive_errors o + 1 ∧
    sat_add u32_max (consecutive_errors o) 1 = consecutive_errors o + 1) as [-> ->].
  { unfold POISON_THRESHOLD, sat_add, u8_max, u32_max in *. lia. }
  split; [done|]. cbn. intros H%Z.leb_gt. lia.
Qed.

Lemma request_success_inv a s p a' s' :
  request_success (a, s) p = Some (a', s') →
  poisoned_bytes_skipped a' = poisoned_bytes_skipped a ∧
  all_findings a' = all_findings a ++ request_findings p (last_ts s) ∧
  uris a' = (if zlen (uris a) <? MAX_URIS then uris a ++ [uri p] else uris a) ∧
  ∃ buf, drain (request_consumed p) (request_buf s) = Some buf ∧
    s' = s <| request_buf := buf |> <| request_error_count := 0 |>.
Proof.
  unfold request_success, count_method, count_host, count_user_agent, record_uri. intros E.
  destruct (count_key (methods a) _) as [r1|]; [|done]. cbn [mbind option_bind] in E.
  destruct (host p) as [h|]; [destruct (count_key _ h) as [r2|]; [|done]|]; cbn [mbind option_bind] in E;
  (destruct (user_agent p) as [u|]; [destruct (count_key _ u) as [r3|]; [|done]|]); cbn [mbind option_bind] in E;
  (destruct (drain _ _) as [buf|]; [|done]); cbn [mbind option_bind] in E; injection E as <- <-;
  (split_and!; [| | |by exists buf]); destruct r1; try destruct r2; try destruct r3; cbn;
  destruct (zlen (uris a) <? MAX_URIS); done.
Qed.

Lemma response_success_inv a s p a' s' :
  response_success (a, s) p = Some (a', s') →
  poisoned_bytes_skipped a' = poisoned_bytes_skipped a ∧ ∃ buf, drain (response_consumed p) (response_buf s) = Some buf ∧
    s' = s <| response_buf := buf |> <| response_error_count := 0 |>.
Proof.
  unfold response_success. destruct (bump_count _ _) as [m|]; [|done]. cbn [mbind option_bind].
  destruct (drain _ _) as [buf|]; [|done]. cbn [mbind option_bind]. intros [= <- <-]. by split; [|exists buf].
Qed.

Lemma drain_all l : drain (zlen l) l = Some [].
Proof. unfold drain. rewrite slice_suffix by (pose proof (zlen_nonneg l); lia). f_equal. apply drop_ge. unfold zlen. lia. Qed.

(** A delivery that finds an empty buffer. *)
Lemma deliver_request a s d ts :
  request_poisoned s = false → request_buf s = [] → 1 ≤ zlen d ≤ MAX_HEADER_BUF →
  http_deliver a s ClientToServer d ts =
    let s1 := s <| last_ts := ts |> <| request_buf := d |> in
    match parse_one_request d with
    | inl e => Some (request_failure (a, s1) e false)
    | inr None => Some (a, s1)
    | inr (Some p) => w ← request_success (a, s1) p; try_parse_requests (List.length d) w true
    end.
Proof.
  intros Hp Hb Hd. unfold http_deliver. cbn zeta. change (request_poisoned (s <| last_ts := ts |>)) with (request_poisoned s).
  change (request_buf (s <| last_ts := ts |>)) with (request_buf s). rewrite Hp, Hb, fill_empty by lia.
  cbn [mbind option_bind try_parse_requests snd]. change (request_buf (_ <| request_buf := d |>)) with d.
  rewrite (proj2 (Z.eqb_neq _ _)) by lia. done.
Qed.

Lemma deliver_response a s d ts :
  response_poisoned s = false → response_buf s = [] → 1 ≤ zlen d ≤ MAX_HEADER_BUF →
  http_deliver a s ServerToClient d ts =
    let s1 := s <| last_ts := ts |> <| response_buf := d |> in
    match parse_one_response d with
    | inl e => Some (response_failure (a, s1) e false)
    | inr None => Some (a, s1)
    | inr (Some p) => w ← response_success (a, s1) p; try_parse_responses (List.length d) w true
    end.
Proof.
  intros Hp Hb Hd. unfold http_deliver. cbn zeta. change (response_poisoned (s <| last_ts := ts |>)) with (response_poisoned s).
  change (response_buf (s <| last_ts := ts |>)) with (response_buf s). rewrite Hp, Hb, fill_empty by lia.
  cbn [mbind option_bind try_parse_responses snd]. change (response_buf (_ <| response_buf := d |>)) with d.
  rewrite (proj2 (Z.eqb_neq _ _)) by lia. done.
Qed.

Lemma deliver_poisoned a s dir d ts a' s' :
  (match dir with ClientToServer => request_poisoned s | ServerToClient => response_poisoned s end) = true →
  http_deliver a s dir d ts = Some (a', s') →
  poisoned_bytes_skipped a' = poisoned_bytes_skipped a + zlen d ∧ s' = s <| last_ts := ts |>.
Proof.
  intros Hp. unfold http_deliver. cbn zeta. destruct dir.
  - change (request_poisoned (s <| last_ts := ts |>)) with (request_poisoned s). rewrite Hp. unfold skip_poisoned.
    destruct (cadd _ _ _) as [m|] eqn:Ec; [|done]. apply cadd_inv in Ec as [-> _]. by intros [= <- <-].
  - change (response_poisoned (s <| last_ts := ts |>)) with (response_poisoned s). rewrite Hp. unfold skip_poisoned.
    destruct (cadd _ _ _) as [m|] eqn:Ec; [|done]. apply cadd_inv in Ec as [-> _]. by intros [= <- <-].
Qed.

(** One event, one step of the oracle of its direction. *)
Lemma oracle_request req resp a s d inv ts a' s' :
  oracle_inv (req, resp, poisoned_bytes_skipped a) a s → parse_event_ok (mkParseEvent ClientToServer d inv) →
  http_deliver a s ClientToServer d ts = Some (a', s') →
  oracle_inv (oracles_step (req, resp, poisoned_bytes_skipped a) (mkParseEvent ClientToServer d inv)) a' s'.
Proof.
  intros [[Hq1 Hq2] Hr [Bq Br] _] [Hl Hok]. cbn [fst snd ev_dir ev_data ev_invalid] in *.
  unfold oracles_step. cbn [ev_dir ev_data ev_invalid]. unfold oracle_step. rewrite <- Hq1.
  destruct (request_poisoned s) eqn:Ep.
  { intros [E ->]%deliver_poisoned; [|done]. split; cbn; rewrite ?Ep; [by split|done..]. }
  rewrite deliver_request by done. cbn zeta. destruct inv.
  - destruct Hok as [e ->]. intros [= E]. pose proof (agrees_invalid req _ (conj Hq1 Hq2)) as Hag.
    unfold oracle_step in Hag. rewrite <- Hq1 in Hag. cbn in Hag. revert E. unfold request_failure, count_non_http. cbn.
    rewrite Ep. destruct (POISON_THRESHOLD <=? sat_add u8_max (request_error_count s) 1), (counted_as_non_http s),
      (is_too_many_headers e); cbn; intros [= <- <-]; (split; cbn; [exact Hag|done|done|lia]).
  - destruct Hok as (p & -> & Hcn). destruct (request_success _ p) as [[a1 s1]|] eqn:E1; [|done]. cbn [mbind option_bind].
    apply request_success_inv in E1 as (F1 & _ & _ & buf & Hbuf & ->). change (request_buf (_ <| request_buf := d |>)) with d in Hbuf.
    rewrite Hcn, drain_all in Hbuf. injection Hbuf as <-. destruct d; [done|]. intros [= <- <-].
    split; cbn; [|done|done|lia]. rewrite Ep. by split; [|intros _].
Qed.

Lemma oracle_response req resp a s d inv ts a' s' :
  oracle_inv (req, resp, poisoned_bytes_skipped a) a s → parse_event_ok (mkParseEvent ServerToClient d inv) →
  http_deliver a s ServerToClient d ts = Some (a', s') →
  oracle_inv (oracles_step (req, resp, poisoned_bytes_skipped a) (mkParseEvent ServerToClient d inv)) a' s'.
Proof.
  intros [Hr [Hq1 Hq2] [Br Bq] _] [Hl Hok]. cbn [fst snd ev_dir ev_data ev_invalid] in *.
  unfold oracles_step. cbn [ev_dir ev_data ev_invalid]. unfold oracle_step. rewrite <- Hq1.
  destruct (response_poisoned s) eqn:Ep.
  { intros [E ->]%deliver_poisoned; [|done]. split; cbn; rewrite ?Ep; [done|by split|done..]. }
  rewrite deliver_response by done. cbn zeta. destruct inv.
  - destruct Hok as [e ->]. intros [= E]. pose proof (agrees_invalid resp _ (conj Hq1 Hq2)) as Hag.
    unfold oracle_step in Hag. rewrite <- Hq1 in Hag. cbn in Hag. revert E. unfold response_failure, count_non_http. cbn.
    rewrite Ep. destruct (POISON_THRESHOLD <=? sat_add u8_max (response_error_count s) 1), (counted_as_non_http s),
      (is_too_many_headers e); cbn; intros [= <- <-]; (split; cbn; [done|exact Hag|done|lia]).
  - destruct Hok as (p & -> & Hcn). destruct (response_success _ p) as [[a1 s1]|] eqn:E1; [|done]. cbn [mbind option_bind].
    apply response_success_inv in E1 as (F1 & buf & Hbuf & ->). change (response_buf (_ <| response_buf := d |>)) with d in Hbuf.
    rewrite Hcn, drain_all in Hbuf. injection Hbuf as <-. destruct d; [done|]. intros [= <- <-].
    split; cbn; [done| |done|lia]. rewrite Ep. by split; [|intros _].
Qed.

Definition event_of (k : FlowKey) (ts : Z) (ev : parse_event) : event := EData k (ev_dir ev) (ev_data ev) 0 ts.

Lemma oracle_replay k ts evs st n a :
  Forall parse_event_ok evs → http_ok n a → oracle_inv st a (default HttpFlowState_new (flows a !! k)) →
  n + trace_bytes (event_of k ts <$> evs) ≤ u64_max →
  ∃ a', replay (Some a) (event_of k ts <$> evs) = Some a' ∧
    oracle_inv (foldl oracles_step st evs) a' (default HttpFlowState_new (flows a' !! k)).
Proof.
  intros Hev. revert st n a. induction Hev as [|ev evs He Hev IH]; intros st n a Ha Ho Hn; [by exists a|].
  cbn [fmap list_fmap] in *. rewrite trace_bytes_cons in Hn. cbn [event_bytes event_of] in Hn.
  pose proof (trace_bytes_nonneg (event_of k ts <$> evs)).
  destruct (http_on_data_ok n a k (ev_dir ev) (ev_data ev) ts Ha) as (a1 & E1 & H1); [lia|].
  assert (oracle_inv (oracles_step st ev) a1 (default HttpFlowState_new (flows a1 !! k))) as Ho1.
  { unfold http_on_data in E1. destruct (http_deliver _ _ _ _ _) as [[a2 s2]|] eqn:Ed; [|done]. injection E1 as <-.
    cbn [flows update_field]. rewrite lookup_insert_eq. change (default _ (Some s2)) with s2.
    destruct st as [[req resp] m]. pose proof (oi_skipped _ _ _ Ho) as Hs. cbn in Hs. subst m.
    assert (oracle_inv (oracles_step (req, resp, poisoned_bytes_skipped a) ev) a2 s2) as [I1 I2 I3 I4].
    { destruct ev as [[] d inv]; cbn [ev_dir ev_data] in Ed; [by eapply oracle_request|by eapply oracle_response]. }
    by split. }
  destruct (IH _ _ _ H1 Ho1) as (a' & E & Ho'); [lia|]. exists a'. split; [|done].
  unfold replay in *. cbn [foldl event_of replay1]. rewrite <- E. f_equal. exact E1.
Qed.

(** C29. Poisoning is exact.  For any interleaving, on one flow, of deliveries
    that are whole messages and deliveries that do not parse, the number of
    bytes skipped is what the oracle of the property tests predicts from each
    direction on its own: nothing until three deliveries of a direction in a
    row fail, a success starting the run anew, and every later byte of that
    direction, and of that direction only. *)
Theorem http_poison_oracle k ts evs :
  Forall parse_event_ok evs → trace_bytes (event_of k ts <$> evs) ≤ u64_max →
  ∃ a, replay (Some HttpAnalyzer_new) (event_of k ts <$> evs) = Some a ∧
    let '(req, resp, skipped) := foldl oracles_step (oracle_init, oracle_init, 0) evs in
    poisoned_bytes_skipped a = skipped ∧
    request_poisoned (default HttpFlowState_new (flows a !! k)) = poisoned req ∧
    response_poisoned (default HttpFlowState_new (flows a !! k)) = poisoned resp.
Proof.
  intros Hev Hn. destruct (oracle_replay k ts evs (oracle_init, oracle_init, 0) 0 HttpAnalyzer_new) as (a & E & I);
    [done|apply http_ok_new| |lia|].
  { cbn. rewrite lookup_empty. split; try done; by split. }
  exists a. split; [done|]. destruct (foldl _ _ _) as [[req resp] skipped].
  destruct I as [[I1 _] [I2 _] _ I3]. by split_and!.
Qed.

(** ** Pipelined requests *)

(** The parser recognises [m] as one message, whatever follows. *)
Definition recognises (m : list Z) (p : ParsedRequest) : Prop :=
  request_consumed p = zlen m ∧ 1 ≤ zlen m ∧ ∀ rest, parse_one_request (m ++ rest) = inr (Some p).

Lemma pipelined_loop fuel a s ms ps b a' s' :
  Forall2 recognises ms ps → request_buf s = concat ms → (List.length ms < fuel)%nat →
  try_parse_requests fuel (a, s) b = Some (a', s') →
  all_findings a' = all_findings a ++ concat ((λ p, request_findings p (last_ts s)) <$> ps) ∧
  uris a' = take (Z.to_nat (Z.max MAX_URIS (zlen (uris a)))) (uris a ++ (uri <$> ps)) ∧
  request_buf s' = [].
Proof.
  intros Hm. revert fuel a s b. induction Hm as [|m p ms ps (Hc & Hl & Hp) Hm IH]; intros [|fuel] a s b Hs Hf E; try (cbn in Hf; lia).
  - cbn [try_parse_requests snd concat] in E. cbn in Hs. rewrite Hs in E. injection E as <- <-. cbn.
    rewrite !app_nil_r, take_ge by (unfold zlen; lia). done.
  - cbn [concat] in Hs. cbn [try_parse_requests snd] in E. rewrite Hs, Hp in E.
    rewrite (proj2 (Z.eqb_neq _ _)) in E by (rewrite zlen_app; pose proof (zlen_nonneg (concat ms)); lia).
    destruct (request_success (a, s) p) as [[a1 s1]|] eqn:E1; [|done]. cbn [mbind option_bind] in E.
    apply request_success_inv in E1 as (_ & F1 & F2 & buf & Hb & ->). rewrite Hs, Hc in Hb. unfold drain in Hb.
    rewrite slice_suffix in Hb by (rewrite zlen_app; pose proof (zlen_nonneg (concat ms)); lia).
    rewrite drop_app_length' in Hb by (unfold zlen; lia). injection Hb as <-.
    apply IH in E as (G1 & G2 & G3); [|done|cbn in Hf; lia]. change (last_ts (_ <| request_error_count := 0 |>)) with (last_ts s) in G1.
    split_and!; [| |done].
    + rewrite G1, F1. cbn [fmap list_fmap concat]. by rewrite app_assoc.
    + rewrite G2, F2. cbn [fmap list_fmap]. destruct (Z.ltb_spec (zlen (uris a)) MAX_URIS) as [Hu|Hu].
      * rewrite <- app_assoc. f_equal. rewrite zlen_app. change (zlen [uri p]) with 1. lia.
      * rewrite !Z.max_r by lia. rewrite !take_app_le by (unfold zlen; lia). done.
Qed.

Lemma recognised_length ms ps : Forall2 recognises ms ps → (List.length ms < S (List.length (concat ms)))%nat.
Proof.
  induction 1 as [|m p ms ps (_ & Hl & _) Hm IH]; [cbn; lia|]. cbn [concat List.length]. rewrite length_app.
  unfold zlen in Hl. lia.
Qed.

(** Pipelined requests are each analysed once, in order.  When a delivery to
    a flow with no pending request bytes is a sequence of complete requests of
    at most 65,536 bytes, the analyzer consumes all of them: the findings of
    each request are appended in order, with the time of the delivery, and its
    URIs are appended to the list up to the cap of 10,000. *)
Theorem http_pipelined n a k ms ps ts :
  http_ok n a → n + zlen (concat ms) ≤ u64_max → zlen (concat ms) ≤ MAX_HEADER_BUF →
  request_buf (default HttpFlowState_new (flows a !! k)) = [] →
  request_poisoned (default HttpFlowState_new (flows a !! k)) = false →
  Forall2 recognises ms ps →
  ∃ a', http_on_data a k ClientToServer (concat ms) ts = Some a' ∧
    all_findings a' = all_findings a ++ concat ((λ p, request_findings p ts) <$> ps) ∧
    uris a' = take (Z.to_nat MAX_URIS) (uris a ++ (uri <$> ps)) ∧
    request_buf (default HttpFlowState_new (flows a' !! k)) = [].
Proof.
  intros Ha Hn Hl Hb Hp Hm. destruct (http_on_data_ok n a k ClientToServer (concat ms) ts Ha Hn) as (a' & E & _).
  exists a'. split; [done|]. unfold http_on_data in E. set (s := default HttpFlowState_new (flows a !! k)) in *.
  destruct (http_deliver _ _ _ _ _) as [[a1 s1]|] eqn:Ed; [|done]. injection E as <-.
  cbn [all_findings uris flows update_field]. rewrite lookup_insert_eq. change (default _ (Some s1)) with s1.
  unfold http_deliver in Ed. cbn zeta in Ed. change (request_poisoned (s <| last_ts := ts |>)) with (request_poisoned s) in Ed.
  change (request_buf (s <| last_ts := ts |>)) with (request_buf s) in Ed. rewrite Hp, Hb, fill_empty in Ed by done.
  cbn [mbind option_bind] in Ed.
  eapply pipelined_loop in Ed as (G1 & G2 & G3); [|done|reflexivity|by eapply recognised_length].
  change (last_ts (_ <| request_buf := _ |>)) with ts in G1. split_and!; [exact G1| |done]. rewrite G2.
  destruct (ho_counts _ _ Ha) as (c & _ & Hco & _). pose proof (co_uris _ _ Hco). by rewrite Z.max_l by lia.
Qed.
(** ** The flow table

    A delivery touches the state of its own flow only. *)

Lemma count_flows a a' k o :
  (count_method a k = Some a' ∨ count_host a o = Some a' ∨ count_user_agent a o = Some a') → flows a' = flows a.
Proof using Type.
  intros [E|[E|E]]; [unfold count_method in E|unfold count_host in E; destruct o|unfold count_user_agent in E; destruct o];
    try (by simplify_eq); peel E; simplify_eq; by case_match.
Qed.

Lemma request_success_flows (w w' : http_work) p : request_success w p = Some w' → flows w'.1 = flows w.1.
Proof using Type.
  destruct w as [a s]. unfold request_success. cbv zeta. intros E. peel E. peel E. peel E. peel E. simplify_eq. cbn.
  rewrite <- (count_flows a x (method p) None), <- (count_flows x x0 "" (host p)), <- (count_flows x0 x1 "" (user_agent p)) by tauto.
  unfold record_uri. by case_match.
Qed.

Lemma failures_flows (w : http_work) e b : flows (request_failure w e b).1 = flows w.1 ∧ flows (response_failure w e b).1 = flows w.1.
Proof using Type.
  destruct w as [a s]. split; [unfold request_failure|unfold response_failure]; unfold count_non_http; repeat case_match; by simplify_eq.
Qed.

Lemma parse_loops_flows fuel (w w' : http_work) b :
  (try_parse_requests fuel w b = Some w' ∨ try_parse_responses fuel w b = Some w') → flows w'.1 = flows w.1.
Proof using Type.
  revert w b. induction fuel as [|fuel IH]; intros w b [E|E]; cbn [try_parse_requests try_parse_responses] in E; [done|done| |];
    (destruct (_ =? 0); [by simplify_eq|]).
  - destruct (parse_one_request _) as [e|[p|]]; [injection E as <-; by apply failures_flows| |by simplify_eq].
    peel E. rewrite (IH _ true) by (by left). by apply request_success_flows in E0.
  - destruct (parse_one_response _) as [e|[p|]]; [injection E as <-; by apply failures_flows| |by simplify_eq].
    peel E. rewrite (IH _ true) by (by right). destruct w as [a s]. unfold response_success in E0. cbv zeta in E0.
    peel E0. peel E0. by simplify_eq.
Qed.

Lemma http_on_data_flows a k dir data ts a' k' : http_on_data a k dir data ts = Some a' → k' ≠ k → flows a' !! k' = flows a !! k'.
Proof using Type.
  unfold http_on_data. intros E Hne. peel E. simplify_eq. cbn. rewrite lookup_insert_ne by done. f_equal.
  unfold http_deliver, skip_poisoned in E0. cbv zeta in E0. destruct dir;
    (match type of E0 with (if ?b then _ else _) = _ => destruct b end; [peel E0; peel E; by simplify_eq|]); peel E0.
  - exact (parse_loops_flows _ _ _ _ (or_introl E0)).
  - exact (parse_loops_flows _ _ _ _ (or_intror E0)).
Qed.

End http.

(** ** Samples *)

Section samples.
(** A parser for requests of two bytes starting with G and responses of one
    byte H. *)
#[local] Instance sample_http_lib : HttpLib := {|
  HttpError := unit; is_too_many_headers _ := false;
  request_parse _ buf :=
    match buf with
    | 71 :: _ :: _ => inr (Some (mkRawRequest 2 (Some "GET"%string) (Some "/../X"%string) (Some 1) []))
    | [71] => inr None
    | _ => inl tt
    end;
  response_parse _ buf := match buf with 72 :: _ => inr (Some (mkRawResponse 1 (Some 200))) | _ => inl tt end;
  to_lowercase := lower_ascii;
  trimmed_text _ := ""%string
|}.

#[local] Instance sample_http_laws : HttpLaws.
Proof.
  split; intros n buf r; cbn [request_parse response_parse sample_http_lib]; intros E;
    repeat case_match; simplify_eq; cbn [rq_complete rs_complete]; rewrite ?zlen_cons;
    match goal with |- context [zlen ?l] => pose proof (zlen_nonneg l) end; lia.
Qed.

Definition sample_http_key : FlowKey := FlowKey_new (V4 1) 40000 (V4 2) 80.

Lemma http_bounded_witness :
  ∃ a, replay (Some HttpAnalyzer_new) [EData sample_http_key ClientToServer [71; 1; 71] 0 5] = Some a ∧
    zlen (uris a) ≤ 10000.
Proof.
  destruct (http_bounded [EData sample_http_key ClientToServer [71; 1; 71] 0 5]) as (a & E & _ & _ & _ & _ & Hu & _).
  - vm_compute. discriminate.
  - exists a. split; [exact E|exact Hu].
Defined.

Definition sample_events : list parse_event :=
  [mkParseEvent ClientToServer [1; 2] true; mkParseEvent ServerToClient [72] false;
   mkParseEvent ClientToServer [3] true; mkParseEvent ClientToServer [4] true;
   mkParseEvent ClientToServer [71; 0] false].

Lemma http_poison_oracle_witness :
  ∃ a, replay (Some HttpAnalyzer_new) (event_of sample_http_key 9 <$> sample_events) = Some a ∧
    poisoned_bytes_skipped a = 2.
Proof.
  destruct (http_poison_oracle sample_http_key 9 sample_events) as (a & E & H).
  - unfold sample_events. repeat (apply list.Forall_cons; split;
      [split; [by vm_compute|cbn; by eexists]|]). constructor.
  - vm_compute. discriminate.
  - exists a. split; [exact E|]. apply H.
Defined.

Definition sample_request : ParsedRequest := mkRequest 2 "GET" "/../X" 1 None None.

Lemma http_pipelined_witness :
  ∃ a', http_on_data HttpAnalyzer_new sample_http_key ClientToServer (concat [[71; 0]; [71; 1]]) 4 = Some a' ∧
    uris a' = ["/../X"; "/../X"]%string.
Proof.
  destruct (http_pipelined 0 HttpAnalyzer_new sample_http_key [[71; 0]; [71; 1]] [sample_request; sample_request] 4)
    as (a' & E & _ & Hu & _).
  - apply http_ok_new.
  - vm_compute. discriminate.
  - vm_compute. discriminate.
  - reflexivity.
  - reflexivity.
  - do 2 (constructor; [split; [reflexivity|split; [by vm_compute|by intros rest]]|]). constructor.
  - exists a'. split; [exact E|exact Hu].
Defined.
End samples.
