(* ===== verification/Tls.v ===== *)
(** * The TLS analyzer (src/analyzer/tls.rs)

    Record extraction with per-direction buffers, reassembly of handshake
    messages across records, the hello handlers with their detections, JA3 and
    JA3S fingerprints, the distribution maps and the summary.  Handshake
    messages and extensions are parsed by the [tls-parser] crate and digests
    computed by [md5], parameters ([TlsLib]) together with [to_uppercase], which
    needs the Unicode tables.  A Rust string is a Rocq string of its UTF-8
    bytes.  The theorems are in [TlsProps]. *)

From S2P Require Import Prelude FlowKey Handler Findings.

#[local] Open Scope Z_scope.

(** ** The [tls-parser] crate *)

(** An extension: its type number and, of the kinds the code looks into, its
    content. *)
Inductive extension_body :=
  | SNI (names : list (Z * list Z))
  | EllipticCurves (groups : list Z)
  | EcPointFormats (formats : list Z)
  | OtherExtension.

Record TlsExtension := mkExtension {
  ext_type : Z;
  ext_body : extension_body
}.

Record TlsClientHelloContents := mkClientHello {
  ch_version : Z;
  ch_ciphers : list Z;
  ch_ext : option (list Z)
}.

Record TlsServerHelloContents := mkServerHello {
  sh_version : Z;
  sh_cipher : Z;
  sh_ext : option (list Z)
}.

Inductive TlsMessage :=
  | ClientHello (ch : TlsClientHelloContents)
  | ServerHello (sh : TlsServerHelloContents)
  | OtherMessage.

(** The two parsers ([None] is an error), the names of the cipher suites
    ([TlsCipherSuite::from_id]), the digest and the text function. *)
Class TlsLib := {
  parse_tls_message_handshake : list Z → option TlsMessage;
  parse_tls_extensions : list Z → option (list TlsExtension);
  cipher_suite : Z → option string;
  md5_digest : string → list Z;
  to_uppercase : string → string
}.

Definition MAX_BUF : Z := 65536.
Definition MAX_MAP_ENTRIES : Z := 50000.
Definition MAX_RECORD_PAYLOAD : Z := 18432.

(** ** Text *)

Definition byte_char (b : Z) : Ascii.ascii := Ascii.ascii_of_N (Z.to_N b).

(** The string with these bytes. *)
Definition string_of_bytes (l : list Z) : string := String.string_of_list_ascii (byte_char <$> l).

(** [s.bytes()]. *)
Definition string_bytes (s : string) : list Z :=
  (λ c, Z.of_N (Ascii.N_of_ascii c)) <$> String.list_ascii_of_string s.

Definition hex_digit_lower (n : Z) : string :=
  match n with
  | 10 => "a" | 11 => "b" | 12 => "c" | 13 => "d" | 14 => "e" | 15 => "f" | _ => hex_digit n
  end%string.

(** [{:02x}] of a byte and [{:04x}] of a 16-bit number. *)
Definition hex2_lower (n : Z) : string := (hex_digit_lower (n / 16) +:+ hex_digit_lower (n mod 16))%string.

Definition hex4_lower (n : Z) : string := (hex2_lower (n / 256) +:+ hex2_lower (n mod 256))%string.

Definition bytes_to_hex (bytes : list Z) : string := foldr (λ b s, (hex2_lower b +:+ s)%string) EmptyString bytes.

(** [join]. *)
Fixpoint join (sep : string) (l : list string) : string :=
  match l with
  | [] => EmptyString
  | [x] => x
  | x :: l => (x +:+ sep +:+ join sep l)%string
  end.

(** *** UTF-8

    [str::from_utf8] and [from_utf8_lossy]: the next character of a byte
    sequence is either well formed, with its length, or the longest prefix that
    could have begun one is invalid. *)

Definition byte_in (lo hi : Z) (b : option Z) : bool :=
  match b with Some b => (lo <=? b) && (b <=? hi) | None => false end.

Definition continuation : option Z → bool := byte_in 0x80 0xBF.

(** The admissible second bytes after a lead byte, and how many bytes follow. *)
Definition utf8_lead (b : Z) : option (Z * Z * nat) :=
  if byte_in 0xC2 0xDF (Some b) then Some (0x80, 0xBF, 1%nat)
  else if b =? 0xE0 then Some (0xA0, 0xBF, 2%nat)
  else if byte_in 0xE1 0xEC (Some b) || byte_in 0xEE 0xEF (Some b) then Some (0x80, 0xBF, 2%nat)
  else if b =? 0xED then Some (0x80, 0x9F, 2%nat)
  else if b =? 0xF0 then Some (0x90, 0xBF, 3%nat)
  else if byte_in 0xF1 0xF3 (Some b) then Some (0x80, 0xBF, 3%nat)
  else if b =? 0xF4 then Some (0x80, 0x8F, 3%nat)
  else None.

(** Length of the first character, or of the invalid prefix. *)
Definition utf8_next (b : Z) (l : list Z) : nat + nat :=
  if b <? 0x80 then inr 1%nat
  else match utf8_lead b with
  | None => inl 1%nat
  | Some (lo, hi, n) =>
      if negb (byte_in lo hi (l !! 0%nat)) then inl 1%nat
      else if (n =? 1)%nat then inr 2%nat
      else if negb (continuation (l !! 1%nat)) then inl 2%nat
      else if (n =? 2)%nat then inr 3%nat
      else if negb (continuation (l !! 2%nat)) then inl 3%nat
      else inr 4%nat
  end.

Definition REPLACEMENT : list Z := [0xEF; 0xBF; 0xBD].

(** Whether all is valid, and the bytes with invalid prefixes replaced. *)
Fixpoint utf8_decode (fuel : nat) (l : list Z) : bool * list Z :=
  match fuel, l with
  | S fuel, b :: rest =>
      match utf8_next b rest with
      | inr n => let '(ok, out) := utf8_decode fuel (drop n l) in (ok, take n l ++ out)
      | inl n => let '(_, out) := utf8_decode fuel (drop n l) in (false, REPLACEMENT ++ out)
      end
  | _, _ => (true, [])
  end.

Definition from_utf8 (l : list Z) : option (list Z) := if (utf8_decode (length l) l).1 then Some l else None.

Definition from_utf8_lossy (l : list Z) : list Z := (utf8_decode (length l) l).2.

Definition is_ascii (l : list Z) : bool := forallb (λ b, b <? 0x80) l.

Definition is_c0_or_del (b : Z) : bool := (b <? 0x20) || (b =? 0x7f).

(** [contains_c0_or_del], with its assertion. *)
Definition contains_c0_or_del (s : list Z) : panicky bool :=
  if is_ascii s then Some (existsb is_c0_or_del s) else None.

(** ** Ciphers and fingerprints *)

Definition is_grease_u16 (v : Z) : bool := Z.land v 0x0F0F =? 0x0A0A.

Section tls.
Context `{TlsLib}.

Definition is_weak_cipher (id : Z) : bool :=
  match cipher_suite id with
  | Some name =>
      let n := to_uppercase name in
      contains "NULL" n || contains "ANON" n || contains "EXPORT" n
  | None => false
  end.

Definition is_weak_server_cipher (id : Z) : bool :=
  if is_weak_cipher id then true
  else match cipher_suite id with
       | Some name => contains "RC4" (to_uppercase name)
       | None => false
       end.

Definition cipher_name (id : Z) : string :=
  match cipher_suite id with
  | Some name => name
  | None => ("0x" +:+ hex4_lower id)%string
  end.

(** The type numbers that enter a fingerprint. *)
Definition ext_ids (extensions : list TlsExtension) : string :=
  join "-" (decimal <$> filter (λ v, negb (is_grease_u16 v)) (ext_type <$> extensions)).

Definition ja3_curves (e : TlsExtension) : list string :=
  match ext_body e with
  | EllipticCurves groups => decimal <$> filter (λ g, negb (is_grease_u16 g)) groups
  | _ => []
  end.

Definition ja3_formats (e : TlsExtension) : list string :=
  match ext_body e with EcPointFormats fmts => decimal <$> fmts | _ => [] end.

Definition compute_ja3 (version : Z) (ciphers : list Z) (extensions : list TlsExtension) : string * string :=
  let cipher_str := join "-" (decimal <$> filter (λ c, negb (is_grease_u16 c)) ciphers) in
  let curves_str := join "-" (concat (ja3_curves <$> extensions)) in
  let pf_str := join "-" (concat (ja3_formats <$> extensions)) in
  let ja3_str := (decimal version +:+ "," +:+ cipher_str +:+ "," +:+ ext_ids extensions +:+ ","
    +:+ curves_str +:+ "," +:+ pf_str)%string in
  (bytes_to_hex (md5_digest ja3_str), ja3_str).

Definition compute_ja3s (version cipher : Z) (extensions : list TlsExtension) : string :=
  bytes_to_hex (md5_digest (decimal version +:+ "," +:+ decimal cipher +:+ "," +:+ ext_ids extensions)%string).

(** ** Server names *)

Inductive SniValue :=
  | SniAscii (s : string)
  | AsciiWithControl (hostname hex : string)
  | NonAsciiUtf8 (hostname hex : string)
  | NonUtf8 (lossy hex : string).

(** The first name of the first server-name extension that has one. *)
Definition sni_value (hostname : list Z) : panicky SniValue :=
  match from_utf8 hostname with
  | Some s =>
      if is_ascii s then
        c ← contains_c0_or_del s;
        Some (if c : bool then AsciiWithControl (string_of_bytes s) (bytes_to_hex hostname)
              else SniAscii (string_of_bytes s))
      else Some (NonAsciiUtf8 (string_of_bytes s) (bytes_to_hex hostname))
  | None => Some (NonUtf8 (string_of_bytes (from_utf8_lossy hostname)) (bytes_to_hex hostname))
  end.

Fixpoint extract_sni (extensions : list TlsExtension) : panicky (option SniValue) :=
  match extensions with
  | [] => Some None
  | e :: rest =>
      match ext_body e with
      | SNI ((_, hostname) :: _) => v ← sni_value hostname; Some (Some v)
      | _ => extract_sni rest
      end
  end.

Definition sni_key (v : SniValue) : string :=
  match v with
  | SniAscii s => s
  | AsciiWithControl hostname _ => hostname
  | NonAsciiUtf8 hostname _ => hostname
  | NonUtf8 _ hex => ("<non-utf8:" +:+ hex +:+ ">")%string
  end.

(** ** State *)

Record TlsFlowState := mkTlsFlow {
  client_buf : list Z;
  server_buf : list Z;
  client_hello_seen : bool;
  server_hello_seen : bool;
  last_ts : Z;
  client_hs_carry : list Z;
  server_hs_carry : list Z
}.

#[global] Instance TlsFlowState_eta : Eta TlsFlowState := λ s,
  mkTlsFlow (client_buf s) (server_buf s) (client_hello_seen s) (server_hello_seen s) (last_ts s)
    (client_hs_carry s) (server_hs_carry s).

Definition TlsFlowState_new : TlsFlowState := mkTlsFlow [] [] false false 0 [] [].

Definition done_ (s : TlsFlowState) : bool := client_hello_seen s && server_hello_seen s.

Record TlsAnalyzer := mkTls {
  flows : gmap FlowKey TlsFlowState;
  sni_counts : gmap string Z;
  ja3_counts : gmap string Z;
  ja3s_counts : gmap string Z;
  version_counts : gmap Z Z;
  cipher_counts : gmap string Z;
  handshakes_seen : Z;
  parse_errors : Z;
  truncated_records : Z;
  handshake_reassembly_overflows : Z;
  buffer_saturation_drops : Z;
  dropped_map_entries : Z;
  all_findings : list Finding
}.

#[global] Instance TlsAnalyzer_eta : Eta TlsAnalyzer := λ a,
  mkTls (flows a) (sni_counts a) (ja3_counts a) (ja3s_counts a) (version_counts a) (cipher_counts a)
    (handshakes_seen a) (parse_errors a) (truncated_records a) (handshake_reassembly_overflows a)
    (buffer_saturation_drops a) (dropped_map_entries a) (all_findings a).

Definition TlsAnalyzer_new : TlsAnalyzer := mkTls ∅ ∅ ∅ ∅ ∅ ∅ 0 0 0 0 0 0 [].

(** [increment]: the map and the counter of refused keys. *)
Definition increment {K} `{Countable K} (m : gmap K Z) (k : K) (limit dropped : Z) : panicky (gmap K Z * Z) :=
  if (Z.of_nat (size m) <? limit) || bool_decide (is_Some (m !! k)) then
    n ← cadd u64_max (default 0 (m !! k)) 1;
    Some (<[k := n]> m, dropped)
  else Some (m, sat_add u64_max dropped 1).

Definition count_version (a : TlsAnalyzer) (v : Z) : panicky TlsAnalyzer :=
  '(m, d) ← increment (version_counts a) v MAX_MAP_ENTRIES (dropped_map_entries a);
  Some (a <| version_counts := m |> <| dropped_map_entries := d |>).

Definition count_sni (a : TlsAnalyzer) (k : string) : panicky TlsAnalyzer :=
  '(m, d) ← increment (sni_counts a) k MAX_MAP_ENTRIES (dropped_map_entries a);
  Some (a <| sni_counts := m |> <| dropped_map_entries := d |>).

Definition count_ja3 (a : TlsAnalyzer) (k : string) : panicky TlsAnalyzer :=
  '(m, d) ← increment (ja3_counts a) k MAX_MAP_ENTRIES (dropped_map_entries a);
  Some (a <| ja3_counts := m |> <| dropped_map_entries := d |>).

Definition count_ja3s (a : TlsAnalyzer) (k : string) : panicky TlsAnalyzer :=
  '(m, d) ← increment (ja3s_counts a) k MAX_MAP_ENTRIES (dropped_map_entries a);
  Some (a <| ja3s_counts := m |> <| dropped_map_entries := d |>).

Definition count_cipher (a : TlsAnalyzer) (k : string) : panicky TlsAnalyzer :=
  '(m, d) ← increment (cipher_counts a) k MAX_MAP_ENTRIES (dropped_map_entries a);
  Some (a <| cipher_counts := m |> <| dropped_map_entries := d |>).

Definition tls_push (a : TlsAnalyzer) (l : list Finding) : TlsAnalyzer :=
  a <| all_findings := all_findings a ++ l |>.

(** ** Findings *)

(** Every finding of this analyzer has no source address, the time of the
    delivery and its direction. *)
Definition tls_finding (v : Verdict) (c : Confidence) (sum : string) (ev : list string) (ts : list string)
    (t : Z) (dir : Direction) : Finding :=
  mkFinding Anomaly v c [Lit sum] ((λ e, [Lit e]) <$> ev) ts None (Some t) (Some dir).

Definition sni_findings (v : SniValue) (t : Z) : list Finding :=
  match v with
  | SniAscii _ => []
  | AsciiWithControl hostname hex =>
      [tls_finding Inconclusive Low
        ("TLS SNI contains ASCII control characters (RFC 6066 §3 requires ASCII; DNS preferred hostname syntax per RFC 952 / RFC 1123 restricts to letters, digits, and hyphens): " +:+ hostname)
        ["hex: " +:+ hex] ["T1027"] t ClientToServer]
  | NonAsciiUtf8 hostname hex =>
      let has_control := existsb is_c0_or_del (string_bytes hostname) in
      let control_clause := if has_control then " and ASCII control bytes" else "" in
      [tls_finding Inconclusive Low
        ("TLS SNI contains non-ASCII characters" +:+ control_clause +:+ " (RFC 6066 requires A-labels per RFC 5890): " +:+ hostname)
        ["hex: " +:+ hex] ["T1027"] t ClientToServer]
  | NonUtf8 lossy hex =>
      [tls_finding Inconclusive Low ("TLS SNI contains non-UTF-8 bytes (RFC 6066 violation): " +:+ lossy)
        ["hex: " +:+ hex] ["T1027"] t ClientToServer]
  end%string.

Definition WEAK_CIPHER_EVIDENCE_CAP : Z := 64.

Definition weak_evidence (ciphers : list Z) : list string :=
  let weak := filter is_weak_cipher ciphers in
  (cipher_name <$> take (Z.to_nat WEAK_CIPHER_EVIDENCE_CAP) weak)
  ++ (if WEAK_CIPHER_EVIDENCE_CAP <? zlen weak
      then [("(+" +:+ decimal (zlen weak - WEAK_CIPHER_EVIDENCE_CAP) +:+ " more)")%string] else []).

Definition weak_findings (ciphers : list Z) (t : Z) : list Finding :=
  match weak_evidence ciphers with
  | [] => []
  | weak => [tls_finding Likely High "ClientHello offers weak cipher suites (NULL/anonymous/export)" weak [] t ClientToServer]
  end.

Definition legacy_name (version : Z) : string :=
  if version =? 0x0200 then "SSL 2.0" else if version =? 0x0300 then "SSL 3.0" else "Unknown legacy SSL".

Definition version_findings (prefix : string) (version t : Z) (dir : Direction) : list Finding :=
  if version <=? 0x0300 then
    let name := legacy_name version in
    [tls_finding Likely High (prefix +:+ " deprecated protocol (" +:+ name +:+ ", RFC 7568 prohibits SSLv3)")%string
      [("Version: 0x" +:+ hex4_lower version +:+ " (" +:+ name +:+ ")")%string] [] t dir]
  else [].

(** ** Hello messages *)

(** The extensions of a hello; an error is counted and leaves none. *)
Definition hello_extensions (a : TlsAnalyzer) (ext : option (list Z)) : TlsAnalyzer * list TlsExtension :=
  match ext with
  | Some raw =>
      match parse_tls_extensions raw with
      | Some v => (a, v)
      | None => (a <| parse_errors := sat_add u64_max (parse_errors a) 1 |>, [])
      end
  | None => (a, [])
  end.

Definition handle_client_hello (a : TlsAnalyzer) (ch : TlsClientHelloContents) (t : Z) : panicky TlsAnalyzer :=
  let a := a <| handshakes_seen := sat_add u64_max (handshakes_seen a) 1 |> in
  let version := ch_version ch in
  a ← count_version a version;
  let '(a, exts) := hello_extensions a (ch_ext ch) in
  sni ← extract_sni exts;
  a ← match sni with
      | Some v => a ← count_sni a (sni_key v); Some (tls_push a (sni_findings v t))
      | None => Some a
      end;
  a ← count_ja3 a (compute_ja3 version (ch_ciphers ch) exts).1;
  let a := tls_push a (weak_findings (ch_ciphers ch) t) in
  Some (tls_push a (version_findings "ClientHello uses" version t ClientToServer)).

Definition server_cipher_findings (cipher t : Z) : list Finding :=
  if is_weak_server_cipher cipher then
    [tls_finding Likely Medium ("ServerHello selected weak cipher suite (" +:+ cipher_name cipher +:+ ")")%string
      [("Selected cipher: " +:+ cipher_name cipher +:+ " (0x" +:+ hex4_lower cipher +:+ ")")%string] [] t ServerToClient]
  else [].

Definition handle_server_hello (a : TlsAnalyzer) (sh : TlsServerHelloContents) (t : Z) : panicky TlsAnalyzer :=
  let version := sh_version sh in
  a ← count_version a version;
  let '(a, exts) := hello_extensions a (sh_ext sh) in
  a ← count_ja3s a (compute_ja3s version (sh_cipher sh) exts);
  a ← count_cipher a (cipher_name (sh_cipher sh));
  let a := tls_push a (server_cipher_findings (sh_cipher sh) t) in
  Some (tls_push a (version_findings "ServerHello negotiated" version t ServerToClient)).

(** ** Records *)

Inductive RecordStep :=
  | Wait
  | Continue
  | OversizedRecord
  | CarryOverflow
  | Handshake (carry : list Z) (last_ts : Z).

(** The buffers of a direction. *)
Definition buf (s : TlsFlowState) (dir : Direction) : list Z :=
  match dir with ClientToServer => client_buf s | ServerToClient => server_buf s end.

Definition set_buf (s : TlsFlowState) (dir : Direction) (b : list Z) : TlsFlowState :=
  match dir with ClientToServer => s <| client_buf := b |> | ServerToClient => s <| server_buf := b |> end.

Definition hs_carry (s : TlsFlowState) (dir : Direction) : list Z :=
  match dir with ClientToServer => client_hs_carry s | ServerToClient => server_hs_carry s end.

Definition set_hs_carry (s : TlsFlowState) (dir : Direction) (b : list Z) : TlsFlowState :=
  match dir with ClientToServer => s <| client_hs_carry := b |> | ServerToClient => s <| server_hs_carry := b |> end.

Definition prepare_record_step (s : TlsFlowState) (dir : Direction) : panicky (TlsFlowState * RecordStep) :=
  let b := buf s dir in
  if zlen b <? 5 then Some (s, Wait) else
  record_type ← index b 0;
  hi ← index b 3;
  lo ← index b 4;
  let payload_len := u16_be hi lo in
  if MAX_RECORD_PAYLOAD <? payload_len then Some (set_buf s dir [], OversizedRecord) else
  let total_record_len := 5 + payload_len in
  if zlen b <? total_record_len then Some (s, Wait) else
  rest ← slice b total_record_len (zlen b);
  if negb (record_type =? 0x16) then Some (set_buf s dir rest, Continue) else
  if MAX_BUF <? zlen (hs_carry s dir) + payload_len then
    Some (set_buf (set_hs_carry s dir []) dir rest, CarryOverflow)
  else
    payload ← slice b 5 total_record_len;
    Some (set_buf (set_hs_carry s dir []) dir rest,
      Handshake (hs_carry s dir ++ payload) (last_ts s)).

(** The analyzer and the state of the flow at hand, which is in its table
    throughout. *)
Abbreviation tls_work := (TlsAnalyzer * TlsFlowState)%type.

Definition count_parse_error (w : tls_work) : tls_work :=
  (w.1 <| parse_errors := sat_add u64_max (parse_errors w.1) 1 |>, w.2).

Definition count_overflow (a : TlsAnalyzer) : TlsAnalyzer :=
  a <| handshake_reassembly_overflows := sat_add u64_max (handshake_reassembly_overflows a) 1 |>.

(** One complete message of the expected type. *)
Definition dispatch_hello (w : tls_work) (dir : Direction) (msg : list Z) (t : Z) : panicky tls_work :=
  match parse_tls_message_handshake msg, dir with
  | Some (ClientHello ch), ClientToServer =>
      a ← handle_client_hello w.1 ch t; Some (a, w.2 <| client_hello_seen := true |>)
  | Some (ServerHello sh), ServerToClient =>
      a ← handle_server_hello w.1 sh t; Some (a, w.2 <| server_hello_seen := true |>)
  | _, _ => Some (count_parse_error w)
  end.

(** The length field of a handshake header, at its width. *)
Definition u24_be (b1 b2 b3 : Z) : Z := Z.lor (Z.lor (Z.shiftl b1 16) (Z.shiftl b2 8)) b3 mod 2 ^ 24.

Definition expected_msg_type (dir : Direction) : Z :=
  match dir with ClientToServer => 0x01 | ServerToClient => 0x02 end.

(** The drain loop: the work, what is left of the carry and how far it is
    consumed. *)
Fixpoint drain_loop (fuel : nat) (w : tls_work) (dir : Direction) (carry : list Z) (consumed t : Z) :
    panicky (tls_work * list Z * Z) :=
  match fuel with
  | O => None
  | S fuel =>
      avail ← csub (zlen carry) consumed;
      if avail <? 4 then Some (w, carry, consumed) else
      msg_type ← index carry consumed;
      b1 ← index carry (consumed + 1);
      b2 ← index carry (consumed + 2);
      b3 ← index carry (consumed + 3);
      let body_len := u24_be b1 b2 b3 in
      if MAX_BUF <? body_len then Some ((count_overflow w.1, w.2), [], 0) else
      if avail <? 4 + body_len then Some (w, carry, consumed) else
      w ← (if msg_type =? expected_msg_type dir then
             msg ← slice carry consumed (consumed + 4 + body_len);
             dispatch_hello w dir msg t
           else Some w);
      drain_loop fuel w dir carry (consumed + (4 + body_len)) t
  end.

Definition process_handshake_carry (w : tls_work) (dir : Direction) (carry : list Z) (t : Z) : panicky tls_work :=
  '(w, carry, consumed) ← drain_loop (S (length carry)) w dir carry 0 t;
  rest ← slice carry consumed (zlen carry);
  Some (w.1, set_hs_carry w.2 dir rest).

Fixpoint try_parse_records (fuel : nat) (w : tls_work) (dir : Direction) : panicky tls_work :=
  match fuel with
  | O => None
  | S fuel =>
      '(s, step) ← prepare_record_step w.2 dir;
      match step with
      | Wait => Some (w.1, s)
      | Continue => try_parse_records fuel (w.1, s) dir
      | OversizedRecord =>
          let a := w.1 <| parse_errors := sat_add u64_max (parse_errors w.1) 1 |> in
          Some (a <| truncated_records := sat_add u64_max (truncated_records a) 1 |>, s)
      | CarryOverflow => try_parse_records fuel (count_overflow w.1, s) dir
      | Handshake carry t =>
          w ← process_handshake_carry (w.1, s) dir carry t;
          try_parse_records fuel w dir
      end
  end.

(** ** Deliveries, closes and the summary *)

(** What of a delivery fits in the buffer. *)
Definition append_capped (b data : list Z) : panicky (list Z) :=
  let remaining := sat_sub MAX_BUF (zlen b) in
  if 0 <? remaining then d ← slice data 0 (Z.min (zlen data) remaining); Some (b ++ d) else Some b.

Definition tls_on_data (a : TlsAnalyzer) (k : FlowKey) (dir : Direction) (data : list Z) (ts : Z) :
    panicky TlsAnalyzer :=
  if match flows a !! k with Some s => done_ s | None => false end then Some a else
  let s := (default TlsFlowState_new (flows a !! k)) <| last_ts := ts |> in
  let did_drop := sat_sub MAX_BUF (zlen (buf s dir)) <? zlen data in
  b ← append_capped (buf s dir) data;
  let s := set_buf s dir b in
  let a := if did_drop then a <| buffer_saturation_drops := sat_add u64_max (buffer_saturation_drops a) 1 |> else a in
  '(a, s) ← try_parse_records (S (length b)) (a, s) dir;
  Some (a <| flows := <[k := s]> (flows a) |>).

Definition tls_on_flow_close (a : TlsAnalyzer) (k : FlowKey) : TlsAnalyzer :=
  a <| flows := delete k (flows a) |>.

#[global] Instance tls_analyzer : StreamHandler (option TlsAnalyzer) := {
  on_data oa k dir data _ ts := a ← oa; tls_on_data a k dir data ts;
  on_flow_close oa k _ := (λ a, tls_on_flow_close a k) <$> oa
}.
End tls.

(** Most frequent first, then by name. *)
Definition sni_before (x y : string * Z) : Prop :=
  y.2 < x.2 ∨ (x.2 = y.2 ∧ String.leb x.1 y.1 = true).

#[global] Instance sni_before_dec x y : Decision (sni_before x y).
Proof. unfold sni_before. apply _. Defined.

Definition top_snis (a : TlsAnalyzer) : list string :=
  fst <$> take 20 (merge_sort sni_before (map_to_list (sni_counts a))).

Definition tls_summarize (a : TlsAnalyzer) : AnalysisSummary := {|
  analyzer_name := "TLS";
  packets_analyzed := handshakes_seen a;
  detail := list_to_map [
    ("top_snis", JArr (top_snis a));
    ("ja3_hashes", JObj (ja3_counts a));
    ("ja3s_hashes", JObj (ja3s_counts a));
    ("tls_versions", JObj (kmap decimal (version_counts a)));
    ("cipher_suites", JObj (cipher_counts a));
    ("parse_errors", JNum (parse_errors a));
    ("truncated_records", JNum (truncated_records a));
    ("handshake_reassembly_overflows", JNum (handshake_reassembly_overflows a));
    ("buffer_saturation_drops", JNum (buffer_saturation_drops a));
    ("dropped_map_entries", JNum (dropped_map_entries a))]%string
|}.

(** ** The models of the code's own proofs

    The classification that VP-005 checks and the cursor loop that VP-039
    checks, with its assertions. *)

Definition classify_hostname_vp005 (hostname : list Z) : panicky Z :=
  match from_utf8 hostname with
  | Some s =>
      if is_ascii s then c ← contains_c0_or_del s; Some (if c : bool then 1 else 0)
      else Some 2
  | None => Some 3
  end.

(** The cursor, whether the length guard fired, iterations and dispatches. *)
Fixpoint drain_model_loop (fuel : nat) (carry : list Z) (consumed iterations dispatched : Z) :
    panicky (Z * bool * Z * Z) :=
  match fuel with
  | O => None
  | S fuel =>
      if zlen carry <? consumed then None else
      if zlen carry - consumed <? 4 then Some (consumed, false, iterations, dispatched) else
      if zlen carry <=? consumed + 3 then None else
      _ ← index carry consumed;
      b1 ← index carry (consumed + 1);
      b2 ← index carry (consumed + 2);
      b3 ← index carry (consumed + 3);
      let body_len := u24_be b1 b2 b3 in
      if MAX_BUF <? body_len then Some (consumed, true, iterations, dispatched) else
      if zlen carry - consumed <? 4 + body_len then Some (consumed, false, iterations, dispatched) else
      if zlen carry <? consumed + 4 + body_len then None else
      _ ← slice carry consumed (consumed + 4 + body_len);
      dispatched ← cadd u32_max dispatched 1;
      let advance := 4 + body_len in
      if advance <? 4 then None else
      next ← cadd u64_max consumed advance;
      iterations ← cadd u32_max iterations 1;
      drain_model_loop fuel carry next iterations dispatched
  end.

Definition drain_loop_model (carry : list Z) : panicky (Z * bool * Z * Z) :=
  '(consumed, decision4_fired, iterations, dispatched) ← drain_model_loop (S (length carry)) carry 0 0 0;
  if zlen carry <? consumed then None else Some (consumed, decision4_fired, iterations, dispatched).
