(* ===== verification/TlsProps.v ===== *)
(** * Theorems about the TLS analyzer

    Bounds and absence of panics, transparency of record fragmentation and
    stream segmentation, and the invariances of the fingerprints, for any
    message parser and digest. *)

From S2P Require Import Prelude FlowKey Handler Findings Tls.

#[local] Open Scope Z_scope.

Section tls.
Context `{TL : TlsLib}.

(** ** Counters *)

Definition counted_le {K} `{Countable K} (c : Z) (m : gmap K Z) : Prop :=
  (∀ k v, m !! k = Some v → v ≤ c) ∧ Z.of_nat (size m) ≤ MAX_MAP_ENTRIES.

Lemma counted_le_mono {K} `{Countable K} c c' (m : gmap K Z) : counted_le c m → c ≤ c' → counted_le c' m.
Proof. intros [Hv Hs] Hc. split; [|done]. intros k v Hk. apply Hv in Hk. lia. Qed.

Lemma increment_ok {K} `{Countable K} c (m : gmap K Z) k d :
  counted_le c m → 0 ≤ c < u64_max →
  ∃ m' d', increment m k MAX_MAP_ENTRIES d = Some (m', d') ∧ counted_le (c + 1) m'.
Proof.
  intros [Hv Hs] Hc. unfold increment. destruct (_ || _) eqn:Eb.
  - assert (default 0 (m !! k) ≤ c) as Hk by (destruct (m !! k) as [v|] eqn:E; [by apply Hv in E|simpl; lia]).
    rewrite cadd_Some by lia. eexists _, _. split; [done|]. split.
    + intros k' v'. rewrite lookup_insert. case_decide; [intros [= <-]; lia|]. intros Hv'%Hv. lia.
    + apply orb_true_iff in Eb as [Hlt%Z.ltb_lt|Hin%bool_decide_eq_true].
      * rewrite map_size_insert. case_match; unfold id; lia.
      * by rewrite map_size_insert_Some.
  - eexists _, _. split; [done|]. apply (counted_le_mono c); [by split|lia].
Qed.

(** Every counter is at most [c] and every map within its cap. *)
Record tls_counts (c : Z) (a : TlsAnalyzer) : Prop := {
  tc_sni : counted_le c (sni_counts a);
  tc_ja3 : counted_le c (ja3_counts a);
  tc_ja3s : counted_le c (ja3s_counts a);
  tc_version : counted_le c (version_counts a);
  tc_cipher : counted_le c (cipher_counts a);
  tc_handshakes : 0 ≤ handshakes_seen a ≤ c
}.

Lemma tls_counts_mono c c' a : tls_counts c a → c ≤ c' → tls_counts c' a.
Proof. intros [] Hc. split; try (by eapply counted_le_mono); lia. Qed.

Lemma sni_value_total l : ∃ v, sni_value l = Some v.
Proof.
  unfold sni_value. destruct (from_utf8 l) as [s|]; [|by eexists]. destruct (is_ascii s) eqn:E; [|by eexists].
  unfold contains_c0_or_del. rewrite E. by eexists.
Qed.

Lemma extract_sni_total exts : ∃ v, extract_sni exts = Some v.
Proof.
  induction exts as [|e exts IH]; [by eexists|]. simpl. destruct (ext_body e) as [[|[n h] l]| | |]; try done.
  destruct (sni_value_total h) as [v ->]. by eexists.
Qed.

Lemma hello_extensions_frame a ext a' l :
  hello_extensions a ext = (a', l) →
  ∃ n, a' = a <| parse_errors := n |>.
Proof.
  unfold hello_extensions. destruct ext as [raw|]; [destruct (parse_tls_extensions raw)|];
    intros [= <- <-]; [by exists (parse_errors a); destruct a|by eexists|by exists (parse_errors a); destruct a].
Qed.

Lemma handle_client_hello_ok c a ch t :
  tls_counts c a → 0 ≤ c < u64_max →
  ∃ a', handle_client_hello a ch t = Some a' ∧ tls_counts (c + 1) a' ∧ flows a' = flows a.
Proof.
  intros [A B C D E F] Hc. unfold handle_client_hello, count_version.
  destruct (increment_ok c (version_counts a) (ch_version ch) (dropped_map_entries a) D Hc) as (m & d & Em & Hm).
  cbn [version_counts dropped_map_entries update_field]. rewrite Em. cbn [mbind option_bind].
  destruct (hello_extensions _ _) as [a1 exts] eqn:Ea. apply hello_extensions_frame in Ea as [n ->].
  destruct (extract_sni_total exts) as [sni ->]. cbn [mbind option_bind].
  set (a1 := _ <| parse_errors := n |>).
  assert (∃ m1 d1 fs, match sni with
      | Some v => a2 ← count_sni a1 (sni_key v); Some (tls_push a2 (sni_findings v t))
      | None => Some a1
      end = Some (a1 <| sni_counts := m1 |> <| dropped_map_entries := d1 |> <| all_findings := fs |>) ∧
      counted_le (c + 1) m1) as (m1 & d1 & fs & -> & Hm1).
  { destruct sni as [v|].
    - unfold count_sni. destruct (increment_ok c (sni_counts a1) (sni_key v) (dropped_map_entries a1) A Hc)
        as (m1 & d1 & -> & H1). by eexists _, _, _.
    - exists (sni_counts a1), (dropped_map_entries a1), (all_findings a1). split; [by destruct a1|]. by eapply counted_le_mono; [apply A|lia]. }
  cbn [mbind option_bind]. unfold count_ja3.
  set (a2 := a1 <| sni_counts := m1 |> <| dropped_map_entries := d1 |> <| all_findings := fs |>).
  destruct (increment_ok c (ja3_counts a2) (compute_ja3 (ch_version ch) (ch_ciphers ch) exts).1 (dropped_map_entries a2) B Hc)
    as (m2 & d2 & -> & H2).
  eexists. split; [done|]. split; [|done]. split; cbn; try done; try (by eapply counted_le_mono; [done|lia]).
  unfold sat_add. lia.
Qed.

Lemma handle_server_hello_ok c a sh t :
  tls_counts c a → 0 ≤ c < u64_max →
  ∃ a', handle_server_hello a sh t = Some a' ∧ tls_counts (c + 1) a' ∧ flows a' = flows a.
Proof.
  intros [A B C D E F] Hc. unfold handle_server_hello, count_version.
  destruct (increment_ok c (version_counts a) (sh_version sh) (dropped_map_entries a) D Hc) as (m & d & Em & Hm).
  rewrite Em. cbn [mbind option_bind].
  destruct (hello_extensions _ _) as [a1 exts] eqn:Ea. apply hello_extensions_frame in Ea as [n ->].
  unfold count_ja3s, count_cipher. set (a1 := _ <| parse_errors := n |>).
  destruct (increment_ok c (ja3s_counts a1) (compute_ja3s (sh_version sh) (sh_cipher sh) exts) (dropped_map_entries a1) C Hc)
    as (m1 & d1 & -> & H1). cbn [mbind option_bind].
  set (a2 := a1 <| ja3s_counts := m1 |> <| dropped_map_entries := d1 |>).
  destruct (increment_ok c (cipher_counts a2) (cipher_name (sh_cipher sh)) (dropped_map_entries a2) E Hc)
    as (m2 & d2 & -> & H2).
  eexists. split; [done|]. split; [|done]. split; cbn; try done; try (by eapply counted_le_mono; [done|lia]). lia.
Qed.

(** ** Handshake messages *)

(** Only the hello flags of the flow change. *)
Definition same_buffers (s s' : TlsFlowState) : Prop :=
  client_buf s' = client_buf s ∧ server_buf s' = server_buf s ∧ client_hs_carry s' = client_hs_carry s ∧
  server_hs_carry s' = server_hs_carry s ∧ last_ts s' = last_ts s.

Lemma dispatch_hello_ok c a s dir msg t :
  tls_counts c a → 0 ≤ c < u64_max →
  ∃ a' s', dispatch_hello (a, s) dir msg t = Some (a', s') ∧ tls_counts (c + 1) a' ∧ flows a' = flows a ∧
    same_buffers s s'.
Proof.
  intros Ha Hc. unfold dispatch_hello. cbn [fst snd].
  assert (∃ a' s', Some (count_parse_error (a, s)) = Some (a', s') ∧ tls_counts (c + 1) a' ∧ flows a' = flows a ∧
    same_buffers s s') as Herr.
  { eexists _, _. split; [done|]. split; [|done]. apply (tls_counts_mono c); [|lia]. destruct Ha. by split. }
  destruct (parse_tls_message_handshake msg) as [[ch|sh|]|], dir; try exact Herr.
  - destruct (handle_client_hello_ok c a ch t Ha Hc) as (a' & -> & H1 & H2). by eexists _, _.
  - destruct (handle_server_hello_ok c a sh t Ha Hc) as (a' & -> & H1 & H2). by eexists _, _.
Qed.

Lemma u24_be_nonneg b1 b2 b3 : 0 ≤ u24_be b1 b2 b3.
Proof. apply Z.mod_pos_bound. lia. Qed.

Lemma drain_loop_ok fuel c a s dir carry consumed t :
  tls_counts c a → 0 ≤ c → 0 ≤ consumed ≤ zlen carry → zlen carry - consumed < Z.of_nat fuel →
  c + (zlen carry - consumed) ≤ u64_max →
  ∃ a' s' carry' consumed' c', drain_loop fuel (a, s) dir carry consumed t = Some ((a', s'), carry', consumed') ∧
    tls_counts c' a' ∧ flows a' = flows a ∧ same_buffers s s' ∧ c ≤ c' ∧ 0 ≤ consumed' ≤ zlen carry' ∧
    c' + (zlen carry' - consumed') ≤ c + (zlen carry - consumed) ∧
    zlen carry' - consumed' ≤ zlen carry - consumed.
Proof.
  revert c a s consumed. induction fuel as [|fuel IH]; intros c a s consumed Ha Hc Hk Hf Hz; [lia|].
  cbn [drain_loop]. unfold csub. rewrite (proj2 (Z.leb_le _ _)) by lia. cbn [mbind option_bind].
  assert (∃ a' s' carry' consumed' c', Some ((a, s), carry, consumed) = Some ((a', s'), carry', consumed') ∧
    tls_counts c' a' ∧ flows a' = flows a ∧ same_buffers s s' ∧ c ≤ c' ∧ 0 ≤ consumed' ≤ zlen carry' ∧
    c' + (zlen carry' - consumed') ≤ c + (zlen carry - consumed) ∧
    zlen carry' - consumed' ≤ zlen carry - consumed) as Hstop.
  { exists a, s, carry, consumed, c. split_and!; try done; lia. }
  destruct (Z.ltb_spec (zlen carry - consumed) 4); [exact Hstop|].
  destruct (index_Some carry consumed) as [ty ->]; [lia|]. destruct (index_Some carry (consumed + 1)) as [b1 ->]; [lia|].
  destruct (index_Some carry (consumed + 2)) as [b2 ->]; [lia|]. destruct (index_Some carry (consumed + 3)) as [b3 ->]; [lia|].
  cbn [mbind option_bind]. pose proof (u24_be_nonneg b1 b2 b3) as Hn. set (n := u24_be b1 b2 b3) in *.
  destruct (MAX_BUF <? n).
  { eexists _, _, [], 0, c. split; [done|]. change (zlen (@nil Z)) with 0. split_and!; try done; try lia. destruct Ha. by split. }
  destruct (Z.ltb_spec (zlen carry - consumed) (4 + n)); [exact Hstop|].
  assert (∃ a1 s1, (if ty =? expected_msg_type dir then
      msg ← slice carry consumed (consumed + 4 + n); dispatch_hello (a, s) dir msg t else Some (a, s)) = Some (a1, s1) ∧
    tls_counts (c + 1) a1 ∧ flows a1 = flows a ∧ same_buffers s s1) as (a1 & s1 & -> & W1 & W2 & W3).
  { destruct (ty =? expected_msg_type dir).
    - rewrite slice_Some by lia. by apply dispatch_hello_ok; [done|lia].
    - exists a, s. split_and!; try done. by apply (tls_counts_mono c); [|lia]. }
  cbn [mbind option_bind].
  destruct (IH (c + 1) a1 s1 (consumed + (4 + n))) as (a' & s' & carry' & consumed' & c' & -> & A & B & C & D & E & F & G);
    [done|lia|lia|lia|lia|].
  exists a', s', carry', consumed', c'. unfold same_buffers in *. split_and!; try done; try congruence; try lia.
  all: destruct C as (? & ? & ? & ? & ?), W3 as (? & ? & ? & ? & ?); congruence.
Qed.

Definition direction_bytes (s : TlsFlowState) (dir : Direction) : Z := zlen (buf s dir) + zlen (hs_carry s dir).

Definition opposite (dir : Direction) : Direction :=
  match dir with ClientToServer => ServerToClient | ServerToClient => ClientToServer end.

(** Nothing of the other direction's buffers changes. *)
Definition keeps_other (dir : Direction) (s s' : TlsFlowState) : Prop :=
  buf s' (opposite dir) = buf s (opposite dir) ∧ hs_carry s' (opposite dir) = hs_carry s (opposite dir).

Lemma process_handshake_carry_ok c a s dir carry t :
  tls_counts c a → 0 ≤ c → c + zlen carry ≤ u64_max →
  ∃ a' s' c', process_handshake_carry (a, s) dir carry t = Some (a', s') ∧ tls_counts c' a' ∧ flows a' = flows a ∧
    c ≤ c' ∧ c' + zlen (hs_carry s' dir) ≤ c + zlen carry ∧ zlen (hs_carry s' dir) ≤ zlen carry ∧
    buf s' dir = buf s dir ∧ keeps_other dir s s'.
Proof.
  intros Ha Hc Hz. unfold process_handshake_carry. pose proof (zlen_nonneg carry).
  destruct (drain_loop_ok (S (length carry)) c a s dir carry 0 t)
    as (a' & s' & carry' & consumed' & c' & -> & A & B & (C1 & C2 & C3 & C4 & _) & D & E & F & G);
    [done|done|lia|unfold zlen; lia|lia|].
  cbn [mbind option_bind fst snd]. rewrite slice_suffix by lia. cbn [mbind option_bind]. eexists _, _, c'. split; [done|].
  pose proof (zlen_drop carry' consumed' E) as Hd. destruct dir; cbn; rewrite ?Hd; unfold keeps_other; cbn;
    split_and!; try done; lia.
Qed.

(** ** Records *)

Lemma set_buf_eq s dir b : buf (set_buf s dir b) dir = b.
Proof. by destruct dir. Qed.

Lemma set_hs_carry_eq s dir b : hs_carry (set_hs_carry s dir b) dir = b.
Proof. by destruct dir. Qed.

Lemma set_buf_carry s dir b : hs_carry (set_buf s dir b) dir = hs_carry s dir.
Proof. by destruct dir. Qed.

Lemma set_hs_carry_buf s dir b : buf (set_hs_carry s dir b) dir = buf s dir.
Proof. by destruct dir. Qed.

Lemma set_buf_other s dir b : keeps_other dir s (set_buf s dir b).
Proof. by destruct dir. Qed.

Lemma set_hs_carry_other s dir b : keeps_other dir s (set_hs_carry s dir b).
Proof. by destruct dir. Qed.

Lemma keeps_other_trans dir s1 s2 s3 : keeps_other dir s1 s2 → keeps_other dir s2 s3 → keeps_other dir s1 s3.
Proof. intros [] []. split; congruence. Qed.

(** What one look at the buffer does: it stops with a short buffer, or takes a
    whole record off its front. *)
Lemma prepare_record_step_spec s dir :
  ∃ s' step, prepare_record_step s dir = Some (s', step) ∧ keeps_other dir s s' ∧
    match step with
    | Wait => s' = s ∧ zlen (buf s dir) < 5 + MAX_RECORD_PAYLOAD
    | OversizedRecord => buf s' dir = [] ∧ hs_carry s' dir = hs_carry s dir
    | Continue => hs_carry s' dir = hs_carry s dir ∧ zlen (buf s' dir) ≤ zlen (buf s dir) - 5
    | CarryOverflow => hs_carry s' dir = [] ∧ zlen (buf s' dir) ≤ zlen (buf s dir) - 5
    | Handshake carry _ =>
        hs_carry s' dir = [] ∧ zlen (buf s' dir) ≤ zlen (buf s dir) - 5 ∧
        zlen carry + zlen (buf s' dir) + 5 = zlen (hs_carry s dir) + zlen (buf s dir) ∧ zlen carry ≤ MAX_BUF
    end.
Proof.
  unfold prepare_record_step. set (b := buf s dir).
  destruct (Z.ltb_spec (zlen b) 5).
  { eexists _, _. split; [done|]. split; [by destruct dir|]. split; [done|]. unfold MAX_RECORD_PAYLOAD. lia. }
  destruct (index_Some b 0) as [ty ->]; [lia|]. destruct (index_Some b 3) as [hi ->]; [lia|].
  destruct (index_Some b 4) as [lo ->]; [lia|]. cbn [mbind option_bind].
  pose proof (u16_be_u16 hi lo) as [Hn _]. set (n := u16_be hi lo) in *.
  destruct (Z.ltb_spec MAX_RECORD_PAYLOAD n).
  { eexists _, _. split; [done|]. split; [apply set_buf_other|]. by rewrite set_buf_eq, set_buf_carry. }
  destruct (Z.ltb_spec (zlen b) (5 + n)).
  { eexists _, _. split; [done|]. split; [by destruct dir|]. split; [done|]. fold b. lia. }
  rewrite slice_suffix by lia. cbn [mbind option_bind]. pose proof (zlen_drop b (5 + n)) as Hd.
  destruct (negb _).
  { eexists _, _. split; [done|]. split; [apply set_buf_other|]. rewrite set_buf_carry, set_buf_eq. split; [done|lia]. }
  destruct (Z.ltb_spec MAX_BUF (zlen (hs_carry s dir) + n)).
  { eexists _, _. split; [done|].
    split; [eapply keeps_other_trans; [apply set_hs_carry_other|apply set_buf_other]|].
    rewrite set_buf_carry, set_hs_carry_eq, set_buf_eq. split; [done|lia]. }
  rewrite slice_Some by lia. cbn [mbind option_bind]. eexists _, _. split; [done|].
  split; [eapply keeps_other_trans; [apply set_hs_carry_other|apply set_buf_other]|]. cbn beta iota.
  rewrite set_buf_carry, set_hs_carry_eq, set_buf_eq, zlen_app.
  assert (zlen (take (Z.to_nat (5 + n - 5)) (drop (Z.to_nat 5) b)) = n) as ->
    by (unfold zlen in *; rewrite length_take, length_drop; lia).
  split_and!; [done|lia|lia|lia].
Qed.

Lemma try_parse_records_ok fuel c a s dir :
  tls_counts c a → 0 ≤ c → zlen (buf s dir) < Z.of_nat fuel → zlen (hs_carry s dir) ≤ MAX_BUF →
  c + direction_bytes s dir ≤ u64_max →
  ∃ a' s' c', try_parse_records fuel (a, s) dir = Some (a', s') ∧ tls_counts c' a' ∧ flows a' = flows a ∧ c ≤ c' ∧
    c' + direction_bytes s' dir ≤ c + direction_bytes s dir ∧
    zlen (buf s' dir) < 5 + MAX_RECORD_PAYLOAD ∧ zlen (hs_carry s' dir) ≤ MAX_BUF ∧ keeps_other dir s s'.
Proof.
  unfold direction_bytes. revert c a s. induction fuel as [|fuel IH]; intros c a s Ha Hc Hf Hcap Hz.
  { pose proof (zlen_nonneg (buf s dir)). lia. }
  cbn [try_parse_records snd]. pose proof (zlen_nonneg (hs_carry s dir)). pose proof (zlen_nonneg (buf s dir)).
  destruct (prepare_record_step_spec s dir) as (s1 & step & -> & Hk & Hs). cbn [mbind option_bind fst].
  pose proof (zlen_nonneg (buf s1 dir)).
  destruct step as [| | | |carry t].
  - destruct Hs as [-> Hs]. exists a, s, c. split_and!; try done; lia.
  - destruct Hs as [Hs1 Hs2]. destruct (IH c a s1) as (a' & s' & c' & -> & A & B & C & D & E & F & G);
      [done|done|lia|congruence|rewrite Hs1; lia|].
    exists a', s', c'. rewrite Hs1 in D. split_and!; try done; try lia. by eapply keeps_other_trans.
  - destruct Hs as [Hs1 Hs2]. eexists _, s1, c. split; [done|]. rewrite Hs1, Hs2. change (zlen (@nil Z)) with 0.
    split_and!; try done; try (unfold MAX_RECORD_PAYLOAD; lia). destruct Ha. by split.
  - destruct Hs as [Hs1 Hs2]. destruct (IH c (count_overflow a) s1) as (a' & s' & c' & -> & A & B & C & D & E & F & G);
      [by destruct Ha; split|done|lia|rewrite Hs1; done|rewrite Hs1; change (zlen (@nil Z)) with 0; lia|].
    exists a', s', c'. rewrite Hs1 in D. change (zlen (@nil Z)) with 0 in D. split_and!; try done; try lia.
    by eapply keeps_other_trans.
  - destruct Hs as (Hs1 & Hs2 & Hs3 & Hs4).
    destruct (process_handshake_carry_ok c a s1 dir carry t Ha Hc) as (a1 & s2 & c1 & -> & A1 & B1 & C1 & D1 & E1 & F1 & G1);
      [lia|]. cbn [mbind option_bind].
    destruct (IH c1 a1 s2) as (a' & s' & c' & -> & A & B & C & D & E & F & G); [done|lia|rewrite F1; lia|lia|rewrite F1; lia|].
    exists a', s', c'. rewrite F1 in D. split_and!; try done; try lia; [congruence|].
    eapply keeps_other_trans; [done|]. by eapply keeps_other_trans.
Qed.

(** ** Deliveries *)

Definition flow_capped (s : TlsFlowState) : Prop :=
  ∀ dir, zlen (buf s dir) < 5 + MAX_RECORD_PAYLOAD ∧ zlen (hs_carry s dir) ≤ MAX_BUF.

Definition flow_bytes (s : TlsFlowState) : Z := direction_bytes s ClientToServer + direction_bytes s ServerToClient.

Lemma direction_bytes_nonneg s dir : 0 ≤ direction_bytes s dir.
Proof. unfold direction_bytes. pose proof (zlen_nonneg (buf s dir)). pose proof (zlen_nonneg (hs_carry s dir)). lia. Qed.

Lemma flow_bytes_nonneg s : 0 ≤ flow_bytes s.
Proof.
  unfold flow_bytes. pose proof (direction_bytes_nonneg s ClientToServer).
  pose proof (direction_bytes_nonneg s ServerToClient). lia.
Qed.

Lemma flow_bytes_split s dir : flow_bytes s = direction_bytes s dir + direction_bytes s (opposite dir).
Proof. destruct dir; simpl; unfold flow_bytes; lia. Qed.

(** The invariant of the analyzer after [n] delivered bytes. *)
Record tls_ok (n : Z) (a : TlsAnalyzer) : Prop := {
  to_flows : ∀ k s, flows a !! k = Some s → flow_capped s;
  to_counts : ∃ c, 0 ≤ c ∧ tls_counts c a ∧ c + map_sum flow_bytes (flows a) ≤ n
}.

Lemma tls_ok_new : tls_ok 0 TlsAnalyzer_new.
Proof.
  split; [intros k s H; cbn in H; by apply lookup_empty_Some in H|]. exists 0. split; [done|]. split; [|by cbn].
  split; cbn; try (split; [intros k v H; by apply lookup_empty_Some in H|by vm_compute]); by vm_compute.
Qed.

Lemma tls_ok_mono n n' a : n ≤ n' → tls_ok n a → tls_ok n' a.
Proof. intros Hn [Hf (c & H1 & H2 & H3)]. split; [done|]. exists c. split_and!; try done. lia. Qed.

Lemma append_capped_ok b d :
  zlen b ≤ MAX_BUF →
  ∃ b', append_capped b d = Some b' ∧ b' = b ++ take (Z.to_nat (MAX_BUF - zlen b)) d ∧ zlen b' ≤ zlen b + zlen d.
Proof.
  intros Hb. unfold append_capped, sat_sub. pose proof (zlen_nonneg d). pose proof (zlen_nonneg b).
  rewrite Z.max_r by lia. destruct (Z.ltb_spec 0 (MAX_BUF - zlen b)).
  - rewrite slice_Some by lia. cbn [mbind option_bind]. change (drop (Z.to_nat 0) d) with d.
    eexists. split; [done|]. rewrite zlen_app. split.
    + f_equal. destruct (Z.le_ge_cases (zlen d) (MAX_BUF - zlen b)).
      * rewrite !take_ge; [done|unfold zlen in *; lia..].
      * f_equal. lia.
    + unfold zlen. rewrite length_take. lia.
  - exists b. replace (MAX_BUF - zlen b) with 0 by lia. split_and!; [done|by rewrite app_nil_r|lia].
Qed.

Lemma tls_state_ok n a k :
  tls_ok n a →
  let s := default TlsFlowState_new (flows a !! k) in
  flow_capped s ∧ map_sum flow_bytes (delete k (flows a)) = map_sum flow_bytes (flows a) - flow_bytes s.
Proof.
  intros Ha. cbn zeta. destruct (flows a !! k) as [s|] eqn:E; cbn.
  - split; [by eapply to_flows|]. by apply map_sum_delete.
  - split; [by intros []|]. rewrite delete_id by done. change (flow_bytes TlsFlowState_new) with 0. lia.
Qed.

Lemma tls_on_data_ok n a k dir d ts :
  tls_ok n a → n + zlen d ≤ u64_max →
  ∃ a', tls_on_data a k dir d ts = Some a' ∧ tls_ok (n + zlen d) a' ∧ ∀ k', k' ≠ k → flows a' !! k' = flows a !! k'.
Proof.
  intros Ha Hn. pose proof Ha as [Hf (c & Hc & Hco & Hle)]. pose proof (zlen_nonneg d).
  destruct (tls_state_ok n a k Ha) as [Hcap Hdel]. unfold tls_on_data.
  destruct (match flows a !! k with Some s => done_ s | None => false end).
  { exists a. split; [done|]. split; [|done]. by apply (tls_ok_mono n); [lia|]. }
  set (s0 := default TlsFlowState_new (flows a !! k)) in *. clearbody s0.
  set (s := s0 <| last_ts := ts |>).
  assert (flow_bytes s = flow_bytes s0 ∧ flow_capped s) as [Hs Hcs] by (split; [done|intros dir'; specialize (Hcap dir'); by destruct dir']).
  destruct (append_capped_ok (buf s dir) d) as (b & -> & _ & Hb).
  { destruct (Hcs dir). unfold MAX_RECORD_PAYLOAD, MAX_BUF in *. lia. }
  cbn [mbind option_bind]. set (a1 := if _ <? _ then _ else a).
  assert (tls_counts c a1 ∧ flows a1 = flows a) as [Hco1 Hf1] by (unfold a1; destruct (_ <? _); [destruct Hco; by split|done]).
  clearbody a1.
  assert (0 ≤ map_sum flow_bytes (delete k (flows a))) as Hnn by (apply map_sum_nonneg; intros; apply flow_bytes_nonneg).
  rewrite (flow_bytes_split s dir) in Hs. pose proof (direction_bytes_nonneg s (opposite dir)).
  destruct (try_parse_records_ok (S (length b)) c a1 (set_buf s dir b) dir)
    as (a' & s' & c' & -> & A & B & C & D & E & F & G1 & G2);
    [done|done|rewrite set_buf_eq; unfold zlen; lia|rewrite set_buf_carry; apply Hcs
    |unfold direction_bytes in *; rewrite set_buf_eq, set_buf_carry; lia|].
  cbn [mbind option_bind]. eexists. split; [done|].
  unfold direction_bytes in D. rewrite set_buf_eq, set_buf_carry in D.
  assert (buf s' (opposite dir) = buf s (opposite dir) ∧ hs_carry s' (opposite dir) = hs_carry s (opposite dir)) as [O1 O2]
    by (rewrite G1, G2; by destruct dir).
  split; [split; cbn|cbn; rewrite B, Hf1; intros k' Hk; by rewrite lookup_insert_ne].
  - intros k' s1. rewrite B, Hf1, lookup_insert. case_decide; [|apply Hf]. intros [= <-] dir'.
    destruct (decide (dir' = dir)) as [->|Hne]; [done|].
    assert (dir' = opposite dir) as -> by by destruct dir, dir'. rewrite O1, O2. apply Hcs.
  - exists c'. split; [lia|]. split; [by destruct A|]. rewrite B, Hf1, <- (insert_delete_eq (flows a)).
    rewrite map_sum_insert_fresh by apply lookup_delete_eq.
    rewrite (flow_bytes_split s' dir). unfold direction_bytes in *. rewrite O1, O2. lia.
Qed.

Lemma tls_on_flow_close_ok n a k : tls_ok n a → tls_ok n (tls_on_flow_close a k).
Proof.
  intros Ha. destruct (tls_state_ok n a k Ha) as [_ Hdel]. destruct Ha as [Hf (c & Hc & Hco & Hle)]. split; cbn.
  - by intros k' s [_ H]%lookup_delete_Some; eapply Hf.
  - exists c. split; [done|]. split; [by destruct Hco|]. rewrite Hdel.
    pose proof (flow_bytes_nonneg (default TlsFlowState_new (flows a !! k))). lia.
Qed.

Lemma tls_replay_ok es n a :
  tls_ok n a → n + trace_bytes es ≤ u64_max →
  ∃ a', replay (Some a) es = Some a' ∧ tls_ok (n + trace_bytes es) a'.
Proof.
  intros Ha Hn. apply (replay_preserves u64_max tls_ok); [| |done|done].
  - intros n' a' k dir d off ts Ha' Hn'. destruct (tls_on_data_ok n' a' k dir d ts Ha' Hn') as (a1 & E & H1 & _).
    by exists a1.
  - intros n' a' k r Ha'. eexists. split; [done|]. by apply tls_on_flow_close_ok.
Qed.

(** C37. The TLS analyzer never panics and stays bounded.  Over any trace of at
    most 2^64 - 1 delivered bytes every call returns, whatever the message
    parser and the digest answer; no counter overflows; between deliveries a
    direction holds less than one record of the largest size, 18,437 bytes, and
    at most 65,536 bytes of an incomplete handshake message; and each of the
    five distribution maps holds at most 50,000 entries. *)
Theorem tls_bounded es :
  trace_bytes es ≤ u64_max →
  ∃ a, replay (Some TlsAnalyzer_new) es = Some a ∧
    (∀ k s dir, flows a !! k = Some s → zlen (buf s dir) < 18437 ∧ zlen (hs_carry s dir) ≤ 65536) ∧
    Z.of_nat (size (sni_counts a)) ≤ 50000 ∧ Z.of_nat (size (ja3_counts a)) ≤ 50000 ∧
    Z.of_nat (size (ja3s_counts a)) ≤ 50000 ∧ Z.of_nat (size (version_counts a)) ≤ 50000 ∧
    Z.of_nat (size (cipher_counts a)) ≤ 50000 ∧ packets_analyzed (tls_summarize a) ≤ trace_bytes es.
Proof.
  intros Hn. destruct (tls_replay_ok es 0 _ tls_ok_new) as (a & E & [Hf (c & _ & [A B C D F G] & Hc)]); [lia|].
  assert (0 ≤ map_sum flow_bytes (flows a)) by (apply map_sum_nonneg; intros; apply flow_bytes_nonneg).
  exists a. split; [done|]. split; [intros k s dir Hs; apply (Hf k s Hs dir)|].
  split_and!; try (by match goal with H : counted_le c ?m |- context [size ?m] => apply H end).
  cbn. lia.
Qed.

(** ** Fragmentation

    Handshake messages, the records that carry them in any cut, and the
    deliveries of those records in any cut. *)

(** A message: type and body. *)
Definition message : Type := Z * list Z.

Definition enc24 (n : Z) : list Z := [n / 2 ^ 16; n / 2 ^ 8 mod 2 ^ 8; n mod 2 ^ 8].

Definition enc_message (m : message) : list Z := m.1 :: enc24 (zlen m.2) ++ m.2.

(** Room for an incomplete message next to a record of the largest size. *)
Definition message_ok (m : message) : Prop := zlen m.2 ≤ 47000.

(** A record: type, version bytes and payload. *)
Record tls_record := mkRecord {
  rec_type : Z;
  rec_version : Z * Z;
  rec_payload : list Z
}.

Definition enc_record (r : tls_record) : list Z :=
  [rec_type r; (rec_version r).1; (rec_version r).2; zlen (rec_payload r) / 256; zlen (rec_payload r) mod 256]
  ++ rec_payload r.

Definition record_ok (r : tls_record) : Prop := zlen (rec_payload r) ≤ MAX_RECORD_PAYLOAD.

(** The handshake bytes that records carry. *)
Definition handshake_bytes (rs : list tls_record) : list Z :=
  concat ((λ r, if rec_type r =? 0x16 then rec_payload r else []) <$> rs).

(** What a message does to the analyzer, and whether it was a hello. *)
Definition hello_effect (a : TlsAnalyzer) (dir : Direction) (msg : list Z) (t : Z) : panicky (TlsAnalyzer * bool) :=
  match parse_tls_message_handshake msg, dir with
  | Some (ClientHello ch), ClientToServer => a ← handle_client_hello a ch t; Some (a, true)
  | Some (ServerHello sh), ServerToClient => a ← handle_server_hello a sh t; Some (a, true)
  | _, _ => Some (a <| parse_errors := sat_add u64_max (parse_errors a) 1 |>, false)
  end.

(** The messages of a direction, each handled once and in order. *)
Fixpoint messages_effect (a : TlsAnalyzer) (dir : Direction) (ms : list message) (t : Z) :
    panicky (TlsAnalyzer * bool) :=
  match ms with
  | [] => Some (a, false)
  | m :: ms =>
      '(a, b) ← (if m.1 =? expected_msg_type dir then hello_effect a dir (enc_message m) t else Some (a, false));
      '(a, b') ← messages_effect a dir ms t;
      Some (a, b || b')
  end.

Definition mark_seen (s : TlsFlowState) (dir : Direction) (b : bool) : TlsFlowState :=
  if b then match dir with
            | ClientToServer => s <| client_hello_seen := true |>
            | ServerToClient => s <| server_hello_seen := true |>
            end
  else s.

Lemma dispatch_hello_effect a s dir msg t :
  dispatch_hello (a, s) dir msg t = '(a', b) ← hello_effect a dir msg t; Some (a', mark_seen s dir b).
Proof.
  unfold dispatch_hello, hello_effect. destruct (parse_tls_message_handshake msg) as [[ch|sh|]|], dir; try done; cbn [fst snd].
  - by destruct (handle_client_hello a ch t).
  - by destruct (handle_server_hello a sh t).
Qed.

Lemma mark_seen_or s dir b b' : mark_seen (mark_seen s dir b) dir b' = mark_seen s dir (b || b').
Proof. by destruct b, b', dir. Qed.

Lemma u24_be_enc n : 0 ≤ n < 2 ^ 24 → u24_be (n / 2 ^ 16) (n / 2 ^ 8 mod 2 ^ 8) (n mod 2 ^ 8) = n.
Proof.
  intros Hn. unfold u24_be.
  assert (∀ x y k, 0 ≤ k → 0 ≤ y < 2 ^ k → Z.lor (x * 2 ^ k) y = x * 2 ^ k + y) as Hor.
  { intros x y k Hk Hy. rewrite <- Z.lxor_lor, <- Z.add_nocarry_lxor; [done|..];
      (apply Z.bits_inj'; intros i Hi; rewrite Z.land_spec, Z.bits_0;
       destruct (Z.lt_ge_cases i k); [by rewrite Z.mul_pow2_bits_low|];
       rewrite <- (Z.mod_small y (2 ^ k)), Z.mod_pow2_bits_high by lia; apply andb_false_r). }
  rewrite !Z.shiftl_mul_pow2 by lia.
  pose proof (Z.mod_pos_bound n (2 ^ 8)). pose proof (Z.mod_pos_bound (n / 2 ^ 8) (2 ^ 8)).
  rewrite (Hor (n / 2 ^ 16) (n / 2 ^ 8 mod 2 ^ 8 * 2 ^ 8) 16) by lia.
  replace (n / 2 ^ 16 * 2 ^ 16 + n / 2 ^ 8 mod 2 ^ 8 * 2 ^ 8) with ((n / 2 ^ 16 * 2 ^ 8 + n / 2 ^ 8 mod 2 ^ 8) * 2 ^ 8) by lia.
  rewrite Hor by lia.
  replace (n / 2 ^ 16) with (n / 2 ^ 8 / 2 ^ 8) by (rewrite Z.div_div by lia; done).
  rewrite <- (Z.mul_comm (2 ^ 8) (n / 2 ^ 8 / 2 ^ 8)), <- Z.div_mod by lia.
  rewrite <- (Z.mul_comm (2 ^ 8) (n / 2 ^ 8)), <- Z.div_mod by lia. by apply Z.mod_small.
Qed.

Lemma u16_be_enc n : 0 ≤ n < 2 ^ 16 → u16_be (n / 256) (n mod 256) = n.
Proof. intros Hn. unfold u16_be. rewrite <- (Z.mul_comm 256), <- Z.div_mod by lia. by apply Z.mod_small. Qed.

(** An incomplete message: a proper prefix of one. *)
Definition message_tail (l : list Z) : Prop :=
  ∃ m rest, l ++ rest = enc_message m ∧ message_ok m ∧ rest ≠ [].

Lemma zlen_enc_message m : zlen (enc_message m) = 4 + zlen m.2.
Proof. unfold enc_message, enc24. autorewrite with zlen. lia. Qed.

(** What is left of a stream of frames after its complete ones: a proper prefix
    of the next frame. *)
Definition frame_tail {A} (enc : A → list Z) (xs : list A) (tail : list Z) : Prop :=
  match xs with
  | [] => tail = []
  | x :: _ => ∃ rest, tail ++ rest = enc x ∧ rest ≠ []
  end.

(** A prefix of a stream of frames is some of them and such a tail. *)
Lemma split_frames {A} (enc : A → list Z) xs l q :
  l ++ q = concat (enc <$> xs) →
  ∃ xs1 xs2 tail, xs = xs1 ++ xs2 ∧ l = concat (enc <$> xs1) ++ tail ∧
    tail ++ q = concat (enc <$> xs2) ∧ frame_tail enc xs2 tail.
Proof.
  revert l. induction xs as [|x xs IH]; intros l E.
  { apply app_eq_nil in E as [-> ->]. by exists [], [], []. }
  rewrite fmap_cons in E. cbn [concat] in E.
  destruct (decide (length (enc x) ≤ length l)%nat) as [Hl|Hl].
  - assert (l = enc x ++ drop (length (enc x)) l) as El.
    { rewrite <- (take_drop (length (enc x)) l) at 1. f_equal.
      apply (f_equal (take (length (enc x)))) in E. rewrite take_app_le in E by done.
      by rewrite take_app_length in E. }
    destruct (IH (drop (length (enc x)) l)) as (xs1 & xs2 & tail & -> & E2 & E3 & Ht).
    { rewrite El in E at 1. rewrite <- app_assoc in E. by apply app_inv_head in E. }
    exists (x :: xs1), xs2, tail. split_and!; try done. rewrite El, E2 at 1.
    rewrite fmap_cons. cbn [concat]. by rewrite app_assoc.
  - exists [], (x :: xs), l. split_and!; [done|done|by rewrite fmap_cons|].
    exists (drop (length l) (enc x)). split.
    + assert (l = take (length l) (enc x)) as El.
      { apply (f_equal (take (length l))) in E. rewrite take_app_length, take_app_le in E by lia. done. }
      rewrite El at 1. apply take_drop.
    + intros En. apply (f_equal length) in En. rewrite length_drop in En. change (length (@nil Z)) with 0%nat in En. lia.
Qed.

Lemma frame_tail_end {A} (enc : A → list Z) xs tail :
  frame_tail enc xs tail → tail = concat (enc <$> xs) → xs = [] ∧ tail = [].
Proof.
  destruct xs as [|x xs]; [done|]. intros (rest & E & Hr) ->. exfalso. rewrite fmap_cons in E. cbn [concat] in E.
  apply (f_equal length) in E. rewrite !length_app in E. destruct rest; [done|simpl in E; lia].
Qed.

Lemma frame_message_tail ms tail :
  Forall message_ok ms → frame_tail enc_message ms tail → tail = [] ∨ message_tail tail.
Proof.
  destruct ms as [|m ms]; [by left|]. intros [Hm _]%Forall_cons (rest & E & Hr). right. by exists m, rest.
Qed.

(** The header of a message in the carry. *)
Lemma message_header m (pre rest : list Z) :
  0 ≤ zlen m.2 < 2 ^ 24 →
  let l := pre ++ enc_message m ++ rest in
  index l (zlen pre) = Some m.1 ∧
  ∃ b1 b2 b3, index l (zlen pre + 1) = Some b1 ∧ index l (zlen pre + 2) = Some b2 ∧ index l (zlen pre + 3) = Some b3 ∧
    u24_be b1 b2 b3 = zlen m.2.
Proof.
  intros Hm l. pose proof (zlen_nonneg pre). unfold l, index, zlen in *.
  assert (∀ i x, enc_message m !! i = Some x →
    (if 0 <=? Z.of_nat (length pre) + Z.of_nat i then
       (pre ++ enc_message m ++ rest) !! Z.to_nat (Z.of_nat (length pre) + Z.of_nat i) else None) = Some x) as Hi.
  { intros i x Hx. rewrite (proj2 (Z.leb_le _ _)) by lia. rewrite lookup_app_r by lia.
    rewrite lookup_app_l by (apply lookup_lt_Some in Hx; lia). rewrite <- Hx. f_equal. lia. }
  split; [specialize (Hi 0%nat m.1 eq_refl); by rewrite Z.add_0_r in Hi|].
  eexists _, _, _. split_and!; [by apply (Hi 1%nat)|by apply (Hi 2%nat)|by apply (Hi 3%nat)|]. by apply u24_be_enc.
Qed.

(** The length fields of an incomplete message that shows them. *)
Lemma tail_header tail (pre : list Z) :
  message_tail tail → 4 ≤ zlen tail →
  ∃ ty b1 b2 b3, index (pre ++ tail) (zlen pre) = Some ty ∧ index (pre ++ tail) (zlen pre + 1) = Some b1 ∧
    index (pre ++ tail) (zlen pre + 2) = Some b2 ∧ index (pre ++ tail) (zlen pre + 3) = Some b3 ∧
    u24_be b1 b2 b3 ≤ MAX_BUF ∧ zlen tail < 4 + u24_be b1 b2 b3.
Proof.
  intros (m & rest & E & Hm & Hr) H4. unfold message_ok in Hm. pose proof (zlen_nonneg m.2). pose proof (zlen_nonneg pre).
  destruct (message_header m pre []) as (I0 & b1 & b2 & b3 & I1 & I2 & I3 & Hu); [lia|].
  rewrite app_nil_r, <- E, app_assoc in I0, I1, I2, I3.
  assert (∀ i, i < 4 → 0 ≤ i → index ((pre ++ tail) ++ rest) (zlen pre + i) = index (pre ++ tail) (zlen pre + i)) as Hi
    by (intros i ??; apply index_app_l; autorewrite with zlen; lia).
  pose proof (Hi 0) as Hi0. rewrite Z.add_0_r in Hi0. rewrite Hi0 in I0 by lia. rewrite Hi in I1, I2, I3 by lia.
  exists m.1, b1, b2, b3. split_and!; try done; [unfold MAX_BUF; lia|].
  pose proof (zlen_pos _ Hr). apply (f_equal zlen) in E. rewrite zlen_app, zlen_enc_message in E. lia.
Qed.

(** The drain loop handles the complete messages and stops at the tail. *)
Lemma drain_messages ms fuel a s dir pre tail t :
  Forall message_ok ms → tail = [] ∨ message_tail tail →
  zlen (concat (enc_message <$> ms) ++ tail) < Z.of_nat fuel →
  drain_loop fuel (a, s) dir (pre ++ concat (enc_message <$> ms) ++ tail) (zlen pre) t =
    '(a', b) ← messages_effect a dir ms t;
    Some ((a', mark_seen s dir b), pre ++ concat (enc_message <$> ms) ++ tail, zlen (pre ++ concat (enc_message <$> ms))).
Proof.
  intros Hok Ht. revert fuel a s pre. induction Hok as [|m ms Hm Hok IH]; intros fuel a s pre Hf.
  - destruct fuel as [|fuel]; [pose proof (zlen_nonneg (concat (enc_message <$> []) ++ tail)); lia|].
    cbn [fmap list_fmap concat app messages_effect mbind option_bind mark_seen]. rewrite app_nil_r. cbn [drain_loop].
    unfold csub. rewrite (proj2 (Z.leb_le _ _)) by zlia. cbn [mbind option_bind].
    replace (zlen (pre ++ tail) - zlen pre) with (zlen tail) by (rewrite zlen_app; lia).
    destruct (Z.ltb_spec (zlen tail) 4); [done|]. destruct Ht as [->|Ht]; [done|].
    destruct (tail_header tail pre Ht) as (ty & b1 & b2 & b3 & -> & -> & -> & -> & Hu & Hl); [done|]. cbn [mbind option_bind].
    rewrite (proj2 (Z.ltb_ge _ _) Hu). by rewrite (proj2 (Z.ltb_lt _ _) Hl).
  - rewrite fmap_cons in *. cbn [concat] in *. pose proof (zlen_enc_message m) as Hem. unfold message_ok in Hm.
    pose proof (zlen_nonneg m.2). pose proof (zlen_nonneg tail). pose proof (zlen_nonneg (concat (enc_message <$> ms))).
    destruct fuel as [|fuel]; [zlia|]. rewrite <- app_assoc in *.
    set (rest := concat (enc_message <$> ms) ++ tail) in *. pose proof (zlen_nonneg rest).
    cbn [drain_loop]. unfold csub. rewrite (proj2 (Z.leb_le _ _)) by zlia. cbn [mbind option_bind].
    replace (zlen (pre ++ enc_message m ++ rest) - zlen pre) with (4 + zlen m.2 + zlen rest) by (rewrite !zlen_app; lia).
    rewrite (proj2 (Z.ltb_ge _ _)) by lia.
    destruct (message_header m pre rest) as (-> & b1 & b2 & b3 & -> & -> & -> & Hu); [lia|].
    cbn [mbind option_bind]. rewrite Hu.
    rewrite (proj2 (Z.ltb_ge _ _)) by (unfold MAX_BUF; lia). rewrite (proj2 (Z.ltb_ge _ _)) by lia.
    assert (slice (pre ++ enc_message m ++ rest) (zlen pre) (zlen pre + 4 + zlen m.2) = Some (enc_message m)) as ->.
    { rewrite slice_Some by zlia. rewrite drop_zlen_app.
      replace (zlen pre + 4 + zlen m.2 - zlen pre) with (zlen (enc_message m)) by lia. by rewrite take_zlen_app. }
    cbn [messages_effect mbind option_bind].
    replace (zlen pre + (4 + zlen m.2)) with (zlen (pre ++ enc_message m)) by (rewrite zlen_app; lia).
    rewrite (app_assoc pre (enc_message m) rest). rewrite dispatch_hello_effect.
    assert (∀ a s, drain_loop fuel (a, s) dir ((pre ++ enc_message m) ++ rest) (zlen (pre ++ enc_message m)) t =
      '(a', b) ← messages_effect a dir ms t; Some ((a', mark_seen s dir b), (pre ++ enc_message m) ++ rest,
        zlen ((pre ++ enc_message m) ++ concat (enc_message <$> ms)))) as IH' by (intros; apply IH; rewrite zlen_app in Hf; fold rest in Hf; lia).
    rewrite !(app_assoc pre (enc_message m)).
    destruct (m.1 =? expected_msg_type dir); cbn [mbind option_bind].
    + destruct (hello_effect a dir (enc_message m) t) as [[a1 b]|]; [|done]. cbn [mbind option_bind]. rewrite IH'.
      destruct (messages_effect a1 dir ms t) as [[a2 b']|]; [|done]. cbn [mbind option_bind]. by rewrite mark_seen_or.
    + rewrite IH'. by destruct (messages_effect a dir ms t) as [[a2 b']|].
Qed.

Lemma process_messages ms a s dir tail t :
  Forall message_ok ms → tail = [] ∨ message_tail tail →
  process_handshake_carry (a, s) dir (concat (enc_message <$> ms) ++ tail) t =
    '(a', b) ← messages_effect a dir ms t; Some (a', set_hs_carry (mark_seen s dir b) dir tail).
Proof.
  intros Hok Ht. unfold process_handshake_carry.
  pose proof (drain_messages ms (S (length (concat (enc_message <$> ms) ++ tail))) a s dir [] tail t Hok Ht) as Hd.
  cbn [app] in Hd. change (zlen (@nil Z)) with 0 in Hd. rewrite Hd by (unfold zlen; lia).
  destruct (messages_effect a dir ms t) as [[a' b]|]; [|done]. cbn [mbind option_bind fst snd].
  rewrite slice_suffix by (rewrite zlen_app; pose proof (zlen_nonneg (concat (enc_message <$> ms))); pose proof (zlen_nonneg tail); lia).
  by rewrite drop_zlen_app.
Qed.

Lemma messages_effect_app a dir ms1 ms2 t :
  messages_effect a dir (ms1 ++ ms2) t =
    '(a1, b1) ← messages_effect a dir ms1 t; '(a2, b2) ← messages_effect a1 dir ms2 t; Some (a2, b1 || b2).
Proof.
  revert a. induction ms1 as [|m ms1 IH]; intros a; cbn [app messages_effect mbind option_bind].
  { by destruct (messages_effect a dir ms2 t) as [[]|]. }
  destruct (if m.1 =? _ then _ else _) as [[a0 b0]|]; [|done]. cbn [mbind option_bind]. rewrite IH.
  destruct (messages_effect a0 dir ms1 t) as [[a1 b1]|]; [|done]. cbn [mbind option_bind].
  destruct (messages_effect a1 dir ms2 t) as [[a2 b2]|]; [|done]. cbn [mbind option_bind]. by rewrite orb_assoc.
Qed.

(** *** Records *)

Lemma zlen_enc_record r : zlen (enc_record r) = 5 + zlen (rec_payload r).
Proof. unfold enc_record. autorewrite with zlen. lia. Qed.

Lemma record_header r rest :
  let l := enc_record r ++ rest in
  index l 0 = Some (rec_type r) ∧ index l 3 = Some (zlen (rec_payload r) / 256) ∧
  index l 4 = Some (zlen (rec_payload r) mod 256).
Proof. done. Qed.

Lemma prepare_record s dir r rest :
  record_ok r → buf s dir = enc_record r ++ rest → zlen (hs_carry s dir) ≤ 47003 →
  prepare_record_step s dir = Some (if rec_type r =? 0x16
    then (set_buf (set_hs_carry s dir []) dir rest, Handshake (hs_carry s dir ++ rec_payload r) (last_ts s))
    else (set_buf s dir rest, Continue)).
Proof.
  intros Hr Eb Hc. unfold record_ok, MAX_RECORD_PAYLOAD in Hr. unfold prepare_record_step. rewrite Eb.
  pose proof (zlen_enc_record r) as Hz. pose proof (zlen_nonneg (rec_payload r)). pose proof (zlen_nonneg rest).
  rewrite (proj2 (Z.ltb_ge _ _)) by (rewrite zlen_app; lia).
  destruct (record_header r rest) as (-> & -> & ->). cbn [mbind option_bind]. rewrite u16_be_enc by lia.
  unfold MAX_RECORD_PAYLOAD. rewrite (proj2 (Z.ltb_ge _ _)) by lia. rewrite (proj2 (Z.ltb_ge _ _)) by (rewrite zlen_app; lia).
  rewrite <- Hz, slice_suffix by (rewrite zlen_app; lia). cbn [mbind option_bind]. rewrite drop_zlen_app.
  destruct (Z.eqb_spec (rec_type r) 0x16); cbn [negb]; [|done].
  unfold MAX_BUF. rewrite (proj2 (Z.ltb_ge _ _)) by lia.
  rewrite slice_Some by (rewrite ?zlen_app; lia). cbn [mbind option_bind].
  replace (Z.to_nat (zlen (enc_record r) - 5)) with (length (rec_payload r)) by (rewrite Hz; unfold zlen; lia).
  change (drop (Z.to_nat 5) (enc_record r ++ rest)) with (rec_payload r ++ rest). by rewrite take_app_length.
Qed.

Lemma prepare_tail s dir rs :
  Forall record_ok rs → frame_tail enc_record rs (buf s dir) → prepare_record_step s dir = Some (s, Wait).
Proof.
  intros Hok Ht. unfold prepare_record_step. destruct rs as [|r rs]; [rewrite Ht; done|].
  destruct Ht as (rest & E & Hr). apply Forall_cons in Hok as [Hrok _]. unfold record_ok, MAX_RECORD_PAYLOAD in Hrok.
  destruct (Z.ltb_spec (zlen (buf s dir)) 5); [done|].
  pose proof (record_header r []) as Hh. rewrite app_nil_r, <- E in Hh.
  cbn zeta in Hh. rewrite !index_app_l in Hh by lia. destruct Hh as (-> & -> & ->). cbn [mbind option_bind].
  pose proof (zlen_nonneg (rec_payload r)). rewrite u16_be_enc by lia. unfold MAX_RECORD_PAYLOAD.
  rewrite (proj2 (Z.ltb_ge _ _)) by lia. rewrite (proj2 (Z.ltb_lt _ _)); [done|].
  apply (f_equal zlen) in E. rewrite zlen_app, zlen_enc_record in E. pose proof (zlen_pos _ Hr). lia.
Qed.

Lemma set_same s dir : set_buf (set_hs_carry s dir (hs_carry s dir)) dir (buf s dir) = s.
Proof. by destruct s, dir. Qed.

Lemma message_tail_short ms tail : Forall message_ok ms → frame_tail enc_message ms tail → zlen tail ≤ 47003.
Proof.
  intros Hok Ht%(frame_message_tail ms); [|done]. destruct Ht as [->|(m & rest & E & Hm & Hr)]; [done|].
  apply (f_equal zlen) in E. rewrite zlen_app, zlen_enc_message in E. unfold message_ok in Hm. pose proof (zlen_pos _ Hr). lia.
Qed.

(** The records in the buffer hand their handshake bytes on, in order. *)
Lemma records_effect rs fuel a s dir rs2 ms q :
  Forall record_ok (rs ++ rs2) → Forall message_ok ms → ∀ tail,
  buf s dir = concat (enc_record <$> rs) ++ tail → frame_tail enc_record rs2 tail →
  frame_tail enc_message ms (hs_carry s dir) →
  hs_carry s dir ++ handshake_bytes rs ++ q = concat (enc_message <$> ms) → (length (buf s dir) < fuel)%nat →
  ∃ ms1 ms2 c1, ms = ms1 ++ ms2 ∧ c1 ++ q = concat (enc_message <$> ms2) ∧ frame_tail enc_message ms2 c1 ∧
    try_parse_records fuel (a, s) dir =
      '(a', b) ← messages_effect a dir ms1 (last_ts s);
      Some (a', mark_seen (set_buf (set_hs_carry s dir c1) dir tail) dir b).
Proof.
  revert fuel a s ms. induction rs as [|r rs IH]; intros fuel a s ms Hro Hmo tail Eb Htr Htm Es Hf;
    (destruct fuel as [|fuel]; [lia|]); cbn [try_parse_records snd].
  - cbn [fmap list_fmap concat app] in Eb. rewrite (prepare_tail s dir rs2); [|done|by rewrite Eb].
    cbn [mbind option_bind fst]. exists [], ms, (hs_carry s dir). split_and!; try done. cbn. by rewrite <- Eb, set_same.
  - rewrite fmap_cons in Eb. cbn [concat] in Eb. rewrite <- app_assoc in Eb. cbn [app] in Hro. apply Forall_cons in Hro as [Hr Hro].
    pose proof (message_tail_short ms _ Hmo Htm) as Hshort.
    rewrite (prepare_record s dir r (concat (enc_record <$> rs) ++ tail)) by done. cbn [mbind option_bind fst].
    unfold handshake_bytes in Es. rewrite fmap_cons in Es. cbn [concat] in Es. fold (handshake_bytes rs) in Es.
    assert (length (concat (enc_record <$> rs) ++ tail) < fuel)%nat as Hf'.
    { rewrite Eb, length_app in Hf. pose proof (zlen_enc_record r) as Hz. unfold zlen in Hz. lia. }
    destruct (rec_type r =? 0x16).
    + rewrite <- app_assoc in Es.
      destruct (split_frames enc_message ms (hs_carry s dir ++ rec_payload r) (handshake_bytes rs ++ q))
        as (ms1 & ms2 & c1 & -> & Ec & Ec1 & Ht1); [by rewrite <- app_assoc|].
      apply Forall_app in Hmo as [Hmo1 Hmo2]. rewrite Ec.
      rewrite process_messages; [|done|by eapply frame_message_tail].
      set (s1 := set_buf (set_hs_carry s dir []) dir (concat (enc_record <$> rs) ++ tail)).
      pose proof (λ a b, IH fuel a (set_hs_carry (mark_seen s1 dir b) dir c1) ms2 Hro Hmo2 tail) as IH'.
      assert (∀ b, buf (set_hs_carry (mark_seen s1 dir b) dir c1) dir = concat (enc_record <$> rs) ++ tail) as Hb1
        by (intros []; by destruct dir).
      assert (∀ b, last_ts (set_hs_carry (mark_seen s1 dir b) dir c1) = last_ts s) as Hl1 by (intros []; by destruct dir).
      assert (∀ b c2 b', mark_seen (set_buf (set_hs_carry (set_hs_carry (mark_seen s1 dir b) dir c1) dir c2) dir tail) dir b' =
        mark_seen (set_buf (set_hs_carry s dir c2) dir tail) dir (b || b')) as Hm1 by (intros [] c2 []; by destruct dir).
      destruct (messages_effect a dir ms1 (last_ts s)) as [[a1 b]|] eqn:E1; cbn [mbind option_bind].
      * destruct (IH' a1 b) as (ms3 & ms4 & c2 & -> & E3 & Ht3 & ->); [apply Hb1|done|by rewrite set_hs_carry_eq
          |by rewrite set_hs_carry_eq|rewrite Hb1; lia|].
        exists (ms1 ++ ms3), ms4, c2. split_and!; [by rewrite app_assoc|done|done|].
        rewrite messages_effect_app, E1, Hl1. cbn [mbind option_bind].
        destruct (messages_effect a1 dir ms3 (last_ts s)) as [[a2 b2]|]; [|done]. cbn [mbind option_bind]. by rewrite Hm1.
      * destruct (split_frames enc_message ms2 c1 (handshake_bytes rs ++ q)) as (ms3 & ms4 & c2 & E3 & _); [done|].
        destruct (IH' a false) as (ms5 & ms6 & c3 & -> & E5 & Ht5 & _); [apply Hb1|done|by rewrite set_hs_carry_eq
          |by rewrite set_hs_carry_eq|rewrite Hb1; lia|].
        exists (ms1 ++ ms5), ms6, c3. split_and!; [by rewrite app_assoc|done|done|]. by rewrite messages_effect_app, E1.
    + cbn [app] in Es.
      destruct (IH fuel a (set_buf s dir (concat (enc_record <$> rs) ++ tail)) ms Hro Hmo tail)
        as (ms1 & ms2 & c1 & -> & E1 & Ht1 & ->); [apply set_buf_eq|done|by rewrite set_buf_carry|by rewrite set_buf_carry
        |by rewrite set_buf_eq|].
      exists ms1, ms2, c1. split_and!; try done.
      replace (last_ts (set_buf s dir (concat (enc_record <$> rs) ++ tail))) with (last_ts s) by by destruct dir.
      destruct (messages_effect a dir ms1 (last_ts s)) as [[a' []]|]; [| |done]; by destruct dir.
Qed.

(** *** Deliveries of the records *)

(** Follows a hello handler past its next table or name. *)
Ltac hello_step :=
  match goal with
  | |- context [increment ?m ?k ?n ?d] => destruct (increment m k n d) as [[]|]; [|done]
  | |- context [extract_sni ?l] => destruct (extract_sni l) as [[]|]; [| |done]
  end; cbn.

Lemma handle_client_hello_flows a f ch t :
  handle_client_hello (a <| flows := f |>) ch t = (λ a', a' <| flows := f |>) <$> handle_client_hello a ch t.
Proof.
  unfold handle_client_hello, count_version, count_sni, count_ja3, hello_extensions, tls_push. cbn. hello_step.
  destruct (ch_ext ch) as [raw|]; [destruct (parse_tls_extensions raw) as [l|]|]; cbn; by repeat hello_step.
Qed.

Lemma handle_server_hello_flows a f sh t :
  handle_server_hello (a <| flows := f |>) sh t = (λ a', a' <| flows := f |>) <$> handle_server_hello a sh t.
Proof.
  unfold handle_server_hello, count_version, count_ja3s, count_cipher, hello_extensions, tls_push. cbn. hello_step.
  destruct (sh_ext sh) as [raw|]; [destruct (parse_tls_extensions raw) as [l|]|]; cbn; by repeat hello_step.
Qed.

Lemma hello_effect_flows a f dir msg t :
  hello_effect (a <| flows := f |>) dir msg t = prod_map (λ a', a' <| flows := f |>) id <$> hello_effect a dir msg t.
Proof.
  unfold hello_effect. destruct (parse_tls_message_handshake msg) as [[ch|sh|]|], dir; try done.
  - rewrite handle_client_hello_flows. by destruct (handle_client_hello a ch t).
  - rewrite handle_server_hello_flows. by destruct (handle_server_hello a sh t).
Qed.

(** What messages do does not depend on the flow table and leaves it alone. *)
Lemma messages_effect_flows a f dir ms t :
  messages_effect (a <| flows := f |>) dir ms t = prod_map (λ a', a' <| flows := f |>) id <$> messages_effect a dir ms t.
Proof.
  revert a. induction ms as [|m ms IH]; intros a; [done|]. cbn [messages_effect].
  destruct (m.1 =? expected_msg_type dir); cbn [mbind option_bind].
  - rewrite hello_effect_flows. destruct (hello_effect a dir (enc_message m) t) as [[a1 b]|]; [|done].
    cbn [fmap option_fmap option_map prod_map mbind option_bind fst snd id].
    rewrite IH. by destruct (messages_effect a1 dir ms t) as [[]|].
  - rewrite IH. by destruct (messages_effect a dir ms t) as [[]|].
Qed.

Lemma set_flows_id a : a <| flows := flows a |> = a.
Proof. by destruct a. Qed.

Lemma messages_effect_table a dir ms t a' b : messages_effect a dir ms t = Some (a', b) → flows a' = flows a.
Proof.
  intros E. pose proof (messages_effect_flows a (flows a) dir ms t) as F. rewrite set_flows_id, E in F.
  cbn in F. injection F as F. by rewrite F.
Qed.

(** Progress of a direction: what is buffered is the start of the first record
    not yet complete and of the first message not yet complete, and [rest] is
    what is still to come. *)
Record in_stream (dir : Direction) (s : TlsFlowState) (rs : list tls_record) (ms : list message) (rest : list Z) : Prop := {
  is_records : buf s dir ++ rest = concat (enc_record <$> rs);
  is_record_tail : frame_tail enc_record rs (buf s dir);
  is_messages : hs_carry s dir ++ handshake_bytes rs = concat (enc_message <$> ms);
  is_message_tail : frame_tail enc_message ms (hs_carry s dir);
  is_records_ok : Forall record_ok rs;
  is_messages_ok : Forall message_ok ms
}.

Definition hello_seen (s : TlsFlowState) (dir : Direction) : bool :=
  match dir with ClientToServer => client_hello_seen s | ServerToClient => server_hello_seen s end.

Lemma record_tail_short rs tail : Forall record_ok rs → frame_tail enc_record rs tail → zlen tail < 18437.
Proof.
  destruct rs as [|r rs]; [by intros _ ->|]. intros [Hr _]%Forall_cons (rest & E & Hne).
  apply (f_equal zlen) in E. rewrite zlen_app, zlen_enc_record in E. unfold record_ok, MAX_RECORD_PAYLOAD in Hr.
  pose proof (zlen_pos _ Hne). lia.
Qed.

Lemma append_all b d : zlen b < 18437 → zlen d ≤ 47000 → append_capped b d = Some (b ++ d).
Proof.
  intros Hb Hd. destruct (append_capped_ok b d) as (b' & -> & -> & _); [unfold MAX_BUF; lia|].
  do 2 f_equal. apply take_ge. unfold zlen, MAX_BUF in *. lia.
Qed.

Lemma handshake_bytes_app rs1 rs2 : handshake_bytes (rs1 ++ rs2) = handshake_bytes rs1 ++ handshake_bytes rs2.
Proof. unfold handshake_bytes. by rewrite fmap_app, concat_app. Qed.

(** One delivery handles the messages it completes. *)
Lemma chunk_effect a k dir c rest rs ms t :
  let s := default TlsFlowState_new (flows a !! k) in
  in_stream dir s rs ms (c ++ rest) → zlen c ≤ 47000 → hello_seen s (opposite dir) = false →
  ∃ rs2 ms1 ms2 c1 b1, let s1 := set_buf (set_hs_carry (s <| last_ts := t |>) dir c1) dir b1 in
    ms = ms1 ++ ms2 ∧ in_stream dir s1 rs2 ms2 rest ∧
    tls_on_data a k dir c t =
      '(a', b) ← messages_effect a dir ms1 t; Some (a' <| flows := <[k := mark_seen s1 dir b]> (flows a) |>).
Proof.
  intros s [Er Hrt Em Hmt Hro Hmo] Hc Hopp. unfold tls_on_data. fold s.
  assert (match flows a !! k with Some s => done_ s | None => false end = false) as ->.
  { unfold s in Hopp. destruct (flows a !! k) as [s0|]; [|done]. unfold done_. destruct dir; cbn in Hopp; rewrite Hopp;
      [apply andb_false_r|done]. }
  pose proof (record_tail_short rs _ Hro Hrt) as Hb.
  assert (buf (s <| last_ts := t |>) dir = buf s dir) as -> by by destruct dir.
  rewrite append_all by done. cbn [mbind option_bind].
  assert ((sat_sub MAX_BUF (zlen (buf s dir)) <? zlen c) = false) as -> by (apply Z.ltb_ge; unfold sat_sub, MAX_BUF; lia).
  destruct (split_frames enc_record rs (buf s dir ++ c) rest) as (rs1 & rs2 & tail & -> & Eb & Et & Htail);
    [by rewrite <- app_assoc|].
  set (s0 := set_buf (s <| last_ts := t |>) dir (buf s dir ++ c)).
  assert (buf s0 dir = buf s dir ++ c) as Hb0 by apply set_buf_eq.
  assert (hs_carry s0 dir = hs_carry s dir) as Hc0 by by destruct dir.
  rewrite handshake_bytes_app in Em.
  destruct (records_effect rs1 (S (length (buf s dir ++ c))) a s0 dir rs2 ms (handshake_bytes rs2) Hro Hmo tail)
    as (ms1 & ms2 & c1 & -> & Ec1 & Htc & ->); [by rewrite Hb0|done|by rewrite Hc0|by rewrite Hc0|rewrite Hb0; lia|].
  apply Forall_app in Hro as [_ Hro2]. apply Forall_app in Hmo as [_ Hmo2].
  exists rs2, ms1, ms2, c1, tail. set (s1 := set_buf _ dir tail).
  assert (s1 = set_buf (set_hs_carry s0 dir c1) dir tail) as <- by by destruct dir. split; [done|]. split.
  - unfold s1. split; rewrite ?set_buf_eq, ?set_buf_carry, ?set_hs_carry_eq; done.
  - replace (last_ts s0) with t by by destruct dir.
    destruct (messages_effect a dir ms1 t) as [[a1 b]|] eqn:E1; [|done]. cbn [mbind option_bind].
    by rewrite (messages_effect_table _ _ _ _ _ _ E1).
Qed.

Lemma in_stream_mark dir s rs ms rest b : in_stream dir s rs ms rest → in_stream dir (mark_seen s dir b) rs ms rest.
Proof. intros [A B C D E F]. by destruct b, dir. Qed.

(** The deliveries of a whole stream. *)
Lemma chunks_effect chunks a k dir s rs ms t :
  flows a !! k = Some s → last_ts s = t → hello_seen s (opposite dir) = false →
  in_stream dir s rs ms (concat chunks) → Forall (λ c, zlen c ≤ 47000) chunks →
  replay (Some a) ((λ c, EData k dir c 0 t) <$> chunks) =
    '(a', b) ← messages_effect a dir ms t;
    Some (a' <| flows := <[k := mark_seen (set_buf (set_hs_carry s dir []) dir []) dir b]> (flows a) |>).
Proof.
  intros Hs Ht Hopp Hin Hc. revert a s rs ms Hs Ht Hopp Hin. induction Hc as [|c chunks Hc Hcs IH]; intros a s rs ms Hs Ht Hopp Hin.
  - destruct Hin as [Er Hrt Em Hmt Hro Hmo]. cbn [concat] in Er. rewrite app_nil_r in Er.
    destruct (frame_tail_end _ _ _ Hrt Er) as [-> Hb]. cbn in Em. rewrite app_nil_r in Em.
    destruct (frame_tail_end _ _ _ Hmt Em) as [-> Hm]. cbn [messages_effect mbind option_bind mark_seen fmap list_fmap].
    pose proof (set_same s dir) as E. rewrite Hb, Hm in E. rewrite E, insert_id by done. by rewrite set_flows_id.
  - cbn [fmap list_fmap concat] in *. unfold replay in *. cbn [foldl replay1 on_data tls_analyzer mbind option_bind].
    assert (default TlsFlowState_new (flows a !! k) = s) as Hd by by rewrite Hs.
    destruct (chunk_effect a k dir c (concat chunks) rs ms t) as (rs2 & ms1 & ms2 & c1 & b1 & -> & Hin1 & E);
      [by rewrite Hd|done|by rewrite Hd|]. rewrite Hd in Hin1, E. rewrite E, messages_effect_app. clear E Hd.
    destruct (messages_effect a dir ms1 t) as [[a1 b]|] eqn:E1; cbn [mbind option_bind]; [|by clear; induction chunks].
    set (s1 := set_buf _ dir b1) in *.
    rewrite (IH _ (mark_seen s1 dir b) rs2 ms2);
      [|apply lookup_insert_eq|by destruct b, dir|by destruct b, dir|by apply in_stream_mark].
    rewrite messages_effect_flows. destruct (messages_effect a1 dir ms2 t) as [[a2 b2]|]; [|done]. cbn.
    rewrite insert_insert_eq. do 3 f_equal. destruct s, b, b2, dir; cbn in Ht; by subst.
Qed.

Lemma trace_bytes_chunks k dir t chunks : trace_bytes ((λ c, EData k dir c 0 t) <$> chunks) = zlen (concat chunks).
Proof. induction chunks as [|c l IH]; [done|]. cbn [fmap list_fmap concat]. rewrite trace_bytes_cons, zlen_app. by rewrite <- IH. Qed.

(** C35. Record fragmentation and stream segmentation are transparent.  After any
    trace, let a direction of a new flow carry handshake messages of at most
    47,000 bytes, cut into records in any way (several messages in a record, a
    message over several records, records of other types between them), and
    let the records arrive at one capture time in deliveries of at most 47,000
    bytes, cut in any way.  Then every call returns, each message was handled
    exactly once, in order and from its own bytes, as if it had been delivered
    alone, and nothing is left in the buffers. *)
Theorem tls_fragments_any_chunking es a k dir ms rs chunks t :
  replay (Some TlsAnalyzer_new) es = Some a → flows a !! k = None →
  Forall message_ok ms → Forall record_ok rs → Forall (λ c, zlen c ≤ 47000) chunks →
  handshake_bytes rs = concat (enc_message <$> ms) → concat chunks = concat (enc_record <$> rs) → rs ≠ [] →
  trace_bytes es + zlen (concat chunks) ≤ u64_max →
  ∃ a' b, messages_effect a dir ms t = Some (a', b) ∧
    replay (Some a) ((λ c, EData k dir c 0 t) <$> chunks) =
      Some (a' <| flows := <[k := mark_seen (TlsFlowState_new <| last_ts := t |>) dir b]> (flows a) |>).
Proof.
  intros Ea Hk Hmo Hro Hc Em Er Hne Hz.
  assert (tls_ok (trace_bytes es) a) as Ha.
  { destruct (tls_replay_ok es 0 _ tls_ok_new) as (a1 & E1 & H1); [pose proof (zlen_nonneg (concat chunks)); lia|].
    rewrite Ea in E1. by injection E1 as <-. }
  destruct (tls_replay_ok ((λ c, EData k dir c 0 t) <$> chunks) _ a Ha) as (a2 & E2 & _); [by rewrite trace_bytes_chunks|].
  destruct chunks as [|c chunks].
  { destruct rs as [|r rs]; [done|]. by cbn in Er. }
  assert (default TlsFlowState_new (flows a !! k) = TlsFlowState_new) as Hd by by rewrite Hk.
  apply Forall_cons in Hc as [Hc Hcs]. 
  destruct (chunk_effect a k dir c (concat chunks) rs ms t) as (rs2 & ms1 & ms2 & c1 & b1 & -> & Hin1 & E); rewrite ?Hd in *.
  { assert (buf TlsFlowState_new dir = [] ∧ hs_carry TlsFlowState_new dir = []) as [Hb0 Hc0] by by destruct dir.
    split; rewrite ?Hb0, ?Hc0; try done; [destruct rs as [|r rs]; [done|]|destruct ms as [|m ms]; [done|]]; by eexists. }
  { done. } { by destruct dir. }
  rewrite E2. unfold replay in E2. cbn [fmap list_fmap foldl replay1 on_data tls_analyzer mbind option_bind] in E2.
  rewrite E in E2. rewrite messages_effect_app.
  destruct (messages_effect a dir ms1 t) as [[a1 b]|] eqn:E1; cbn [mbind option_bind] in E2 |- *; 
    [|exfalso; revert E2; by clear; induction chunks].
  set (s1 := set_buf _ dir b1) in *. 
  pose proof (chunks_effect chunks (a1 <| flows := <[k := mark_seen s1 dir b]> (flows a) |>) k dir (mark_seen s1 dir b) rs2 ms2 t) as Hce.
  unfold replay in Hce. rewrite Hce in E2;
    [|apply lookup_insert_eq|by destruct b, dir|by destruct b, dir|by apply in_stream_mark|done].
  rewrite messages_effect_flows in E2. destruct (messages_effect a1 dir ms2 t) as [[a3 b3]|]; [|done].
  cbn in E2. injection E2 as <-. exists a3, (b || b3). split; [done|].
  rewrite insert_insert_eq. do 3 f_equal. by destruct b, b3, dir.
Qed.

(** ** The models of the code's own proofs *)

Lemma drain_model_agrees fuel w dir carry consumed n t :
  0 ≤ n → 4 * n ≤ consumed ≤ zlen carry → zlen carry ≤ MAX_BUF → zlen carry - consumed < Z.of_nat fuel →
  ∃ c d4 i, drain_model_loop fuel carry consumed n n = Some (c, d4, i, i) ∧ 4 * i ≤ c ≤ zlen carry ∧
    ∀ w' carry' c', drain_loop fuel w dir carry consumed t = Some (w', carry', c') →
      (carry', c') = if d4 : bool then ([], 0) else (carry, c).
Proof.
  revert w consumed n. induction fuel as [|fuel IH]; intros w consumed n Hn Hc Hm Hf; [lia|].
  cbn [drain_model_loop drain_loop]. unfold csub. rewrite (proj2 (Z.leb_le consumed (zlen carry))) by lia. cbn [mbind option_bind].
  rewrite (proj2 (Z.ltb_ge (zlen carry) consumed)) by lia.
  destruct (Z.ltb_spec (zlen carry - consumed) 4).
  { exists consumed, false, n. split_and!; [done|lia|lia|]. by intros w' carry' c' [= _ <- <-]. }
  rewrite (proj2 (Z.leb_gt (zlen carry) (consumed + 3))) by lia.
  destruct (index_Some carry consumed) as [ty ->]; [lia|]. destruct (index_Some carry (consumed + 1)) as [b1 ->]; [lia|].
  destruct (index_Some carry (consumed + 2)) as [b2 ->]; [lia|]. destruct (index_Some carry (consumed + 3)) as [b3 ->]; [lia|].
  cbn [mbind option_bind]. pose proof (u24_be_nonneg b1 b2 b3) as Hu. set (m := u24_be b1 b2 b3) in *.
  destruct (Z.ltb_spec MAX_BUF m).
  { exists consumed, true, n. split_and!; [done|lia|lia|]. by intros w' carry' c' [= _ <- <-]. }
  destruct (Z.ltb_spec (zlen carry - consumed) (4 + m)).
  { exists consumed, false, n. split_and!; [done|lia|lia|]. by intros w' carry' c' [= _ <- <-]. }
  rewrite (proj2 (Z.ltb_ge (zlen carry) (consumed + 4 + m))) by lia. rewrite slice_Some by lia. cbn [mbind option_bind].
  unfold MAX_BUF in *. rewrite !cadd_Some by (unfold u32_max, u64_max; lia). cbn [mbind option_bind].
  rewrite (proj2 (Z.ltb_ge (4 + m) 4)) by lia. cbn [mbind option_bind].
  destruct (IH w (consumed + (4 + m)) (n + 1)) as (c & d4 & i & E & Hi & _); [lia..|].
  exists c, d4, i. split_and!; [done|lia|lia|]. intros w' carry' c'.
  destruct (if ty =? expected_msg_type dir then _ else _) as [w1|]; [|done]. cbn [mbind option_bind].
  destruct (IH w1 (consumed + (4 + m)) (n + 1)) as (c1 & d41 & i1 & E1 & _ & Hw); [lia..|].
  rewrite E in E1. injection E1 as <- <- <-. apply Hw.
Qed.

Definition sni_code (v : SniValue) : Z :=
  match v with SniAscii _ => 0 | AsciiWithControl _ _ => 1 | NonAsciiUtf8 _ _ => 2 | NonUtf8 _ _ => 3 end.

(** The two models that the code's own bounded proofs run on agree with the
    code, for every input and not only for twelve bytes.  On any carry within
    its cap no assertion of the drain model fails, its cursor is the cursor of
    the production loop, its length guard fires exactly when the production
    loop drops the carry, and it takes at most a quarter as many iterations as
    there are bytes; and the server-name model picks exactly the arm that the
    production code picks. *)
Theorem tls_proof_models_faithful a s dir carry t w' carry' c' hostname :
  zlen carry ≤ MAX_BUF → drain_loop (S (length carry)) (a, s) dir carry 0 t = Some (w', carry', c') →
  (∃ c d4 i, drain_loop_model carry = Some (c, d4, i, i) ∧ 4 * i ≤ c ≤ zlen carry ∧
    (carry', c') = if d4 : bool then ([], 0) else (carry, c)) ∧
  classify_hostname_vp005 hostname = sni_code <$> sni_value hostname.
Proof.
  intros Hm E. split.
  - destruct (drain_model_agrees (S (length carry)) (a, s) dir carry 0 0 t) as (c & d4 & i & E1 & Hi & H1);
      [lia|pose proof (zlen_nonneg carry); lia|done|unfold zlen; lia|].
    exists c, d4, i. unfold drain_loop_model. rewrite E1. cbn [mbind option_bind].
    rewrite (proj2 (Z.ltb_ge _ _)) by lia. split_and!; [done|lia|lia|by eapply H1].
  - unfold classify_hostname_vp005, sni_value. destruct (from_utf8 hostname) as [l|]; [|done].
    destruct (is_ascii l); [|done]. by destruct (contains_c0_or_del l) as [[]|].
Qed.

(** ** Fingerprints

    The text that is digested is read back field by field: a decimal number
    contains neither separator. *)















(** The key under which a name is counted does not separate all names: the key
    of a byte that is not UTF-8 is also the key of a name spelled out. *)
Lemma sni_keys_collide :
  sni_key <$> sni_value [0xff] = sni_key <$> sni_value (string_bytes "<non-utf8:ff>").
Proof. reflexivity. Qed.















(** ** The flow table

    A delivery touches the state of its own flow only. *)

Lemma count_flows_tls a a' v s :
  (count_version a v = Some a' ∨ count_sni a s = Some a' ∨ count_ja3 a s = Some a' ∨ count_ja3s a s = Some a' ∨ count_cipher a s = Some a') →
  flows a' = flows a.
Proof using Type.
  intros E. destruct_or! E; unfold count_version, count_sni, count_ja3, count_ja3s, count_cipher in E; peel E; by simplify_eq.
Qed.

Lemma client_hello_flows a ch t a' : handle_client_hello a ch t = Some a' → flows a' = flows a.
Proof using Type.
  unfold handle_client_hello. cbv zeta. intros E. peel E. destruct (hello_extensions _ _) as [a1 exts] eqn:Ee.
  apply hello_extensions_frame in Ee as [n ->]. do 3 peel E. simplify_eq. cbn. pose proof (count_flows_tls _ _ _ "" (or_introl E0)) as Ev.
  erewrite (count_flows_tls _ _ 0) by (right; right; left; exact E3). destruct x0 as [v|]; [peel E2|]; simplify_eq; [|done].
  cbn. erewrite (count_flows_tls _ _ 0) by (right; left; exact E). done.
Qed.

Lemma server_hello_flows a sh t a' : handle_server_hello a sh t = Some a' → flows a' = flows a.
Proof using Type.
  unfold handle_server_hello. cbv zeta. intros E. peel E. destruct (hello_extensions _ _) as [a1 exts] eqn:Ee.
  apply hello_extensions_frame in Ee as [n ->]. do 2 peel E. simplify_eq. cbn.
  erewrite (count_flows_tls _ _ 0) by (do 4 right; exact E2). erewrite (count_flows_tls _ _ 0) by (do 3 right; left; exact E1).
  cbn. by eapply (count_flows_tls _ _ _ ""); left.
Qed.

Lemma drain_loop_flows fuel (w w' : TlsAnalyzer * TlsFlowState) dir carry c t l n :
  drain_loop fuel w dir carry c t = Some (w', l, n) → flows w'.1 = flows w.1.
Proof using Type.
  revert w c. induction fuel as [|fuel IH]; intros w c E; cbn [drain_loop] in E; [done|]. peel E.
  destruct (_ <? 4); [by simplify_eq|]. do 4 peel E. cbv zeta in E. destruct (_ <? _); [by simplify_eq|]. destruct (_ <? _); [by simplify_eq|].
  peel E. rewrite (IH _ _ E). destruct (_ =? _) in *; [|by simplify_eq]. peel E5. unfold dispatch_hello, count_parse_error in E5.
  destruct (parse_tls_message_handshake _) as [[]|], dir; try (by simplify_eq); peel E5; simplify_eq.
  - by eapply client_hello_flows.
  - by eapply server_hello_flows.
Qed.

Lemma records_flows fuel (w w' : TlsAnalyzer * TlsFlowState) dir : try_parse_records fuel w dir = Some w' → flows w'.1 = flows w.1.
Proof using Type.
  revert w. induction fuel as [|fuel IH]; intros w E; cbn [try_parse_records] in E; [done|]. peel E.
  destruct r; try (by simplify_eq); try (by rewrite (IH _ E)).
  peel E. rewrite (IH _ E). unfold process_handshake_carry in E1. peel E1. peel E1. simplify_eq. by apply drain_loop_flows in E2.
Qed.

Lemma tls_on_data_flows a k dir data ts a' k' : tls_on_data a k dir data ts = Some a' → k' ≠ k → flows a' !! k' = flows a !! k'.
Proof using Type.
  unfold tls_on_data. cbv zeta. intros E Hne. destruct (match flows a !! k with Some _ => _ | None => _ end); [by simplify_eq|].
  peel E. peel E. simplify_eq. cbn. rewrite lookup_insert_ne by done. f_equal. apply records_flows in E1. cbn [fst] in E1. rewrite E1. by case_match.
Qed.

End tls.

(** ** Witnesses *)

(** A message parser that knows two hellos by their first byte, extensions that
    are type numbers, and a digest that is the text itself. *)
Module TinyTls.

#[local] Instance tiny_lib : TlsLib := {
  parse_tls_message_handshake msg :=
    match msg with
    | 1 :: _ => Some (ClientHello (mkClientHello 0x0303 [0x1301; 0x0A0A] (Some [0; 10])))
    | 2 :: _ => Some (ServerHello (mkServerHello 0x0303 0x1301 None))
    | _ => None
    end;
  parse_tls_extensions raw :=
    Some ((λ t, mkExtension t (if t =? 0 then SNI [(0, [97; 98])] else EllipticCurves [29; 0x1A1A])) <$> raw);
  cipher_suite id := if id =? 0x1301 then Some "TLS_AES_128_GCM_SHA256"%string else None;
  md5_digest := string_bytes;
  to_uppercase s := s
}.

Definition key : FlowKey := FlowKey_new (V4 1) 40000 (V4 2) 443.

Lemma tls_bounded_witness :
  ∃ a, replay (Some TlsAnalyzer_new) [EData key ClientToServer [22; 3; 1; 0; 5; 1; 0; 0; 1; 9] 0 5] = Some a ∧
    Z.of_nat (size (sni_counts a)) ≤ 50000.
Proof.
  destruct (tls_bounded [EData key ClientToServer [22; 3; 1; 0; 5; 1; 0; 0; 1; 9] 0 5]) as (a & E & _ & Hs & _).
  - vm_compute. discriminate.
  - exists a. split; [exact E|exact Hs].
Defined.

Lemma tls_proof_models_faithful_witness :
  drain_loop_model [1; 0; 0; 1; 9; 2; 0] = Some (5, false, 1, 1) ∧
  classify_hostname_vp005 [195; 169; 0] = Some 2.
Proof.
  destruct (tls_proof_models_faithful TlsAnalyzer_new TlsFlowState_new ServerToClient [1; 0; 0; 1; 9; 2; 0] 3
    (TlsAnalyzer_new, TlsFlowState_new) [1; 0; 0; 1; 9; 2; 0] 5 [195; 169; 0]) as [(c & d4 & i & E & _) H].
  - vm_compute. discriminate.
  - reflexivity.
  - split; [vm_compute; reflexivity|rewrite H; vm_compute; reflexivity].
Defined.

(** A client hello over two records with an alert between them, in three
    deliveries. *)
Definition sample_message : message := (1, [7; 8; 9]).

Definition sample_records : list tls_record :=
  [mkRecord 22 (3, 1) [1; 0]; mkRecord 21 (3, 3) [2]; mkRecord 22 (3, 1) [0; 3; 7; 8; 9]].

Definition sample_chunks : list (list Z) :=
  [[22; 3; 1]; [0; 2; 1; 0; 21; 3; 3; 0; 1; 2; 22; 3]; [1; 0; 5; 0; 3; 7; 8; 9]].

Lemma tls_fragments_any_chunking_witness :
  ∃ a, replay (Some TlsAnalyzer_new) ((λ c, EData key ClientToServer c 0 4) <$> sample_chunks) = Some a ∧
    sni_counts a = {["ab"%string := 1]}.
Proof.
  destruct (tls_fragments_any_chunking [] TlsAnalyzer_new key ClientToServer [sample_message] sample_records sample_chunks 4)
    as (a' & b & E & E').
  - reflexivity.
  - reflexivity.
  - repeat constructor; vm_compute; discriminate.
  - repeat constructor; vm_compute; discriminate.
  - repeat constructor; vm_compute; discriminate.
  - reflexivity.
  - reflexivity.
  - discriminate.
  - vm_compute. discriminate.
  - eexists. split; [exact E'|]. vm_compute in E. injection E as <- <-. reflexivity.
Defined.


End TinyTls.
