(* ===== verification/Display.v ===== *)
(** * Text (the formatting of src/findings.rs, src/reporter/terminal.rs and src/reporter/csv.rs)

    A [String] as the reporters see it, the list of its characters (scalar
    values): decoding of the UTF-8 bytes that the analyzers hold, the formatted
    pieces of a finding, addresses and numbers, and the two sanitizers,
    [escape_for_terminal] and [neutralize_csv_injection], with their theorems. *)

From S2P Require Import Prelude FlowKey Handler Findings Tls.

#[local] Open Scope Z_scope.

(** ** Characters *)

Abbreviation Text := (list Z).

(** The scalar value of a well-formed UTF-8 character. *)
Definition scalar (bytes : list Z) : Z :=
  let low b := Z.land b 0x3F in
  match bytes with
  | [a] => a
  | [a; b] => Z.lor (Z.shiftl (Z.land a 0x1F) 6) (low b)
  | [a; b; c] => Z.lor (Z.shiftl (Z.land a 0x0F) 12) (Z.lor (Z.shiftl (low b) 6) (low c))
  | [a; b; c; d] =>
      Z.lor (Z.shiftl (Z.land a 0x07) 18) (Z.lor (Z.shiftl (low b) 12) (Z.lor (Z.shiftl (low c) 6) (low d)))
  | _ => 0xFFFD
  end.

Fixpoint decode_chars (fuel : nat) (l : list Z) : Text :=
  match fuel, l with
  | S fuel, b :: rest =>
      match utf8_next b rest with
      | inr n => scalar (take n l) :: decode_chars fuel (drop n l)
      | inl n => 0xFFFD :: decode_chars fuel (drop n l)
      end
  | _, _ => []
  end.

(** [s.chars()]. *)
Definition chars (s : string) : Text := decode_chars (String.length s) (string_bytes s).

(** [join] of a separator. *)
Fixpoint joined (sep : Text) (l : list Text) : Text :=
  match l with
  | [] => []
  | [x] => x
  | x :: l => x ++ sep ++ joined sep l
  end.

(** ** Numbers and addresses *)

Definition digits (n : Z) : Text := chars (decimal n).

Definition hex_char (upper : bool) (d : Z) : Z := if d <? 10 then 48 + d else (if upper then 55 else 87) + d.

(** The hexadecimal digits of a number below [16 ^ fuel], at least one. *)
Fixpoint hex_digits (fuel : nat) (upper : bool) (n : Z) : Text :=
  match fuel with
  | O => []
  | S fuel => if n <? 16 then [hex_char upper (n mod 16)] else hex_digits fuel upper (n / 16) ++ [hex_char upper (n mod 16)]
  end.

(** [{:x}] and [{:X}] of a number of at most 64 bits, padded with zeros. *)
Definition hex_text (upper : bool) (width n : Z) : Text :=
  let ds := hex_digits 16 upper n in replicate (Z.to_nat (width - zlen ds)) 48 ++ ds.

Definition ipv4_text (a : Z) : Text :=
  joined [46] ((λ i, digits ((a / 2 ^ i) mod 256)) <$> [24; 16; 8; 0]).

(** Start and length of a run of zero segments. *)
Definition span : Type := nat * nat.

Fixpoint longest_zeros (i : nat) (segments : list Z) (current longest : span) : span :=
  match segments with
  | [] => longest
  | s :: rest =>
      if s =? 0 then
        let start := if (current.2 =? 0)%nat then i else current.1 in
        let current := (start, S current.2) in
        longest_zeros (S i) rest current (if (longest.2 <? current.2)%nat then current else longest)
      else longest_zeros (S i) rest (O, O) longest
  end.

Definition ipv6_text (a : Z) : Text :=
  if a / 2 ^ 32 =? 0xFFFF then chars "::ffff:" ++ ipv4_text (a mod 2 ^ 32)
  else
    let segments := (λ i, (a / 2 ^ i) mod 2 ^ 16) <$> [112; 96; 80; 64; 48; 32; 16; 0] in
    let subslice l := joined [58] (hex_text false 1 <$> l) in
    let '(start, len) := longest_zeros 0 segments (O, O) (O, O) in
    if (1 <? len)%nat then subslice (take start segments) ++ [58; 58] ++ subslice (drop (start + len) segments)
    else subslice segments.

Definition ip_text (ip : IpAddr) : Text := match ip with V4 a => ipv4_text a | V6 a => ipv6_text a end.

(** [FlowKey]'s [Display]. *)
Definition flow_key_text (k : FlowKey) : Text :=
  ip_text (lower_ip k) ++ [58] ++ digits (lower_port k) ++ chars " → " ++ ip_text (upper_ip k) ++ [58] ++ digits (upper_port k).

(** ** Findings *)

Definition fmt_text (p : fmt) : Text :=
  match p with
  | Lit s => chars s
  | Num n => digits n
  | Hex w n => chars "0x" ++ hex_text true w n
  | HexLower w n => chars "0x" ++ hex_text false w n
  | FKey k => flow_key_text k
  | FIp ip => ip_text ip
  end.

(** The [String] that a [format!] gave. *)
Definition formatted (t : text) : Text := concat (fmt_text <$> t).

Definition verdict_text (v : Verdict) : Text :=
  chars match v with Likely => "LIKELY" | Unlikely => "UNLIKELY" | Inconclusive => "INCONCLUSIVE" | Possible => "POSSIBLE" end.

Definition confidence_text (c : Confidence) : Text :=
  chars match c with High => "HIGH" | Medium => "MEDIUM" | Low => "LOW" end.

Definition category_text (c : ThreatCategory) : Text :=
  chars match c with
  | Reconnaissance => "Reconnaissance"
  | LateralMovement => "LateralMovement"
  | C2 => "C2"
  | Exfiltration => "Exfiltration"
  | CredentialAccess => "CredentialAccess"
  | Persistence => "Persistence"
  | Execution => "Execution"
  | Anomaly => "Anomaly"
  | Suspicious => "Suspicious"
  | Impact => "Impact"
  end.

(** [Finding]'s [Display]; it does not escape. *)
Definition finding_text (f : Finding) : Text :=
  [91] ++ category_text (category f) ++ chars "] " ++ verdict_text (verdict f) ++ chars " (" ++
  confidence_text (confidence f) ++ chars ") — " ++ formatted (summary f).

Definition direction_text (d : Direction) : Text :=
  chars match d with ClientToServer => "ClientToServer" | ServerToClient => "ServerToClient" end.

(** ** The sanitizers *)

Definition is_ascii_control (c : Z) : bool := (c <? 0x20) || (c =? 0x7F).

Definition is_c1 (c : Z) : bool := (0x80 <=? c) && (c <=? 0x9F).

(** [char::escape_default]. *)
Definition escape_default (c : Z) : Text :=
  if c =? 9 then chars "\t"
  else if c =? 13 then chars "\r"
  else if c =? 10 then chars "\n"
  else if (c =? 39) || (c =? 34) || (c =? 92) then [92; c]
  else if (0x20 <=? c) && (c <=? 0x7E) then [c]
  else chars "\u{" ++ hex_text false 1 c ++ [125].

Definition escape_char (c : Z) : Text :=
  if is_ascii_control c || is_c1 c || (c =? 92) then escape_default c else [c].

Definition escape_for_terminal (s : Text) : Text := concat (escape_char <$> s).

(** The first characters that make a cell a formula. *)
Definition is_formula_trigger (c : Z) : bool := bool_decide (c ∈ [61; 43; 45; 64; 9; 13]).

Definition neutralize_csv_injection (s : Text) : Text :=
  match s with
  | c :: _ => if is_formula_trigger c then 39 :: s else s
  | [] => []
  end.

(** ** Theorems *)

Definition is_control (c : Z) : bool := is_ascii_control c || is_c1 c.

(** Undoing [escape_for_terminal]. *)
Definition hex_value (d : Z) : Z := if d <? 58 then d - 48 else d - 87.

Fixpoint unescape (l : Text) : Text :=
  match l with
  | 92 :: 116 :: rest => 9 :: unescape rest
  | 92 :: 114 :: rest => 13 :: unescape rest
  | 92 :: 110 :: rest => 10 :: unescape rest
  | 92 :: 92 :: rest => 92 :: unescape rest
  | 92 :: 117 :: 123 :: a :: 125 :: rest => hex_value a :: unescape rest
  | 92 :: 117 :: 123 :: a :: b :: 125 :: rest => 16 * hex_value a + hex_value b :: unescape rest
  | c :: rest => c :: unescape rest
  | [] => []
  end.

Example ip_texts :
  ip_text (V4 0xC0A80001) = chars "192.168.0.1" ∧
  ip_text (V6 0x20010DB8000000000000000000000001) = chars "2001:db8::1" ∧
  ip_text (V6 1) = chars "::1" ∧ ip_text (V6 0) = chars "::" ∧
  ip_text (V6 0xFFFF0A000001) = chars "::ffff:10.0.0.1" ∧
  ip_text (V6 0x20010000000000010000000000000001) = chars "2001:0:0:1::1".
Proof. vm_compute. repeat split. Qed.

Example escapes :
  escape_for_terminal (chars "\é" ++ [27; 0x9B; 7; 10]) = chars "\\é\u{1b}\u{9b}\u{7}\n".
Proof. vm_compute. reflexivity. Qed.

(** The characters up to the C1 block, one by one. *)
Lemma low_chars (P : Z → Prop) : Forall P (seqZ 0 160) → ∀ c, 0 ≤ c < 160 → P c.
Proof. rewrite Forall_forall. intros H c Hc. apply H, elem_of_seqZ. lia. Qed.

Lemma is_control_high c : 160 ≤ c → is_control c = false.
Proof.
  intros Hc. unfold is_control, is_ascii_control, is_c1.
  by rewrite (proj2 (Z.ltb_ge c 0x20)), (proj2 (Z.eqb_neq c 0x7F)), (proj2 (Z.leb_gt c 0x9F)), andb_false_r by lia.
Qed.

Lemma escape_char_high c : 160 ≤ c → escape_char c = [c].
Proof.
  intros Hc. unfold escape_char. fold (is_control c). rewrite is_control_high by done.
  by rewrite (proj2 (Z.eqb_neq c 92)) by lia.
Qed.

Lemma escape_char_clean c : 0 ≤ c → Forall (λ x, is_control x = false) (escape_char c).
Proof.
  intros Hc. destruct (Z.lt_ge_cases c 160) as [Hl|Hh].
  - revert c Hc Hl. assert (∀ c, 0 ≤ c < 160 → forallb (λ x, negb (is_control x)) (escape_char c) = true) as H.
    { apply low_chars. repeat (apply Forall_cons; split; [reflexivity|]). apply Forall_nil, I. }
    intros c Hc Hl. specialize (H c (conj Hc Hl)). rewrite forallb_forall in H. apply Forall_forall. intros x Hx.
    apply negb_true_iff, H. by apply list_elem_of_In.
  - rewrite escape_char_high by done. apply Forall_singleton. by apply is_control_high.
Qed.

Lemma unescape_other c rest : c ≠ 92 → unescape (c :: rest) = c :: unescape rest.
Proof. intros Hc. cbn. repeat case_match; congruence. Qed.

Lemma unescape_char c rest : 0 ≤ c → unescape (escape_char c ++ rest) = c :: unescape rest.
Proof.
  intros Hc. destruct (Z.lt_ge_cases c 160) as [Hl|Hh].
  - revert rest. pattern c. apply low_chars; [|done]. repeat (apply Forall_cons; split; [intros rest; reflexivity|]). apply Forall_nil, I.
  - rewrite escape_char_high by done. apply unescape_other. lia.
Qed.

(** C32. Escaping for the terminal is safe and loses nothing.  Of any string
    the escaped form has no control character of the C0 and C1 blocks and no
    delete character; the string can be recovered from it, so two strings that
    differ are shown differently; and a string without control characters and
    backslashes is shown as it is. *)
Theorem escape_roundtrip s :
  Forall (λ c, 0 ≤ c) s →
  Forall (λ c, is_control c = false) (escape_for_terminal s) ∧
  unescape (escape_for_terminal s) = s ∧
  (Forall (λ c, is_control c = false ∧ c ≠ 92) s → escape_for_terminal s = s).
Proof.
  intros Hs. unfold escape_for_terminal. split_and!.
  - induction Hs as [|c s Hc Hs IH]; cbn; [done|]. apply Forall_app. split; [by apply escape_char_clean|done].
  - induction Hs as [|c s Hc Hs IH]; cbn; [done|]. by rewrite unescape_char, IH.
  - intros Hp. induction Hp as [|c s [Hc Hb] Hp IH]; cbn; [done|]. apply Forall_cons in Hs as [_ Hs].
    rewrite (IH Hs). unfold escape_char. fold (is_control c). by rewrite Hc, (proj2 (Z.eqb_neq _ _) Hb).
Qed.

Lemma escape_roundtrip_witness :
  Forall (λ c, is_control c = false) (escape_for_terminal [0x9B; 92; 233; 10]) ∧
  unescape (escape_for_terminal [0x9B; 92; 233; 10]) = [0x9B; 92; 233; 10].
Proof.
  destruct (escape_roundtrip [0x9B; 92; 233; 10]) as (H1 & H2 & _).
  - repeat constructor; discriminate.
  - split; [exact H1|exact H2].
Defined.

Lemma escape_clean s : Forall (λ c, 0 ≤ c) s → Forall (λ c, is_control c = false) (escape_for_terminal s).
Proof.
  intros Hs. unfold escape_for_terminal. induction Hs as [|c s Hc Hs IH]; cbn; [done|].
  apply Forall_app. split; [by apply escape_char_clean|done].
Qed.

(** ** Characters are scalar values *)

Lemma scalar_nonneg l : Forall (λ b, 0 ≤ b) l → 0 ≤ scalar l.
Proof.
  intros H. unfold scalar. destruct l as [|a [|b [|c [|d [|]]]]]; try done; repeat (apply Forall_cons in H as [? H]);
    rewrite ?Z.lor_nonneg, ?Z.shiftl_nonneg, ?Z.land_nonneg; lia.
Qed.

Lemma decode_chars_nonneg fuel l : Forall (λ b, 0 ≤ b) l → Forall (λ c, 0 ≤ c) (decode_chars fuel l).
Proof.
  revert l. induction fuel as [|fuel IH]; intros l Hl; cbn; [done|]. destruct l as [|b rest]; [done|].
  destruct (utf8_next b rest); (apply Forall_cons; split; [|by apply IH, Forall_drop]); [done|].
  by apply scalar_nonneg, Forall_take.
Qed.

Lemma chars_nonneg s : Forall (λ c, 0 ≤ c) (chars s).
Proof. apply decode_chars_nonneg. unfold string_bytes. apply Forall_fmap, Forall_true. intros c. cbn. lia. Qed.

(** ** Numbers and addresses are printable *)

Lemma decode_ascii fuel l : Forall (λ b, 0 ≤ b < 0x80) l → (length l ≤ fuel)%nat → decode_chars fuel l = l.
Proof.
  revert l. induction fuel as [|fuel IH]; intros l Hl Hf; destruct l as [|b l]; cbn in *; try done; [lia|].
  apply Forall_cons in Hl as [Hb Hl]. unfold utf8_next. rewrite (proj2 (Z.ltb_lt _ _)) by lia. cbn.
  by rewrite drop_0, IH by (done || lia).
Qed.

Definition is_digit (c : Z) : Prop := 48 ≤ c ≤ 57.

Lemma pretty_go_digits x s : Forall is_digit (string_bytes s) → Forall is_digit (string_bytes (pretty_N_go x s)).
Proof.
  revert s. induction (N.lt_wf_0 x) as [x _ IH]; intros s Hs.
  destruct (decide (0 < x)%N) as [Hx|Hx]; [|by replace x with 0%N by lia].
  rewrite pretty_N_go_step by done. apply IH; [by apply N.div_lt|]. unfold string_bytes. cbn.
  apply Forall_cons. split; [|done]. unfold is_digit, pretty_N_char. repeat case_match; cbn; lia.
Qed.

Lemma decimal_bytes n : Forall is_digit (string_bytes (decimal n)).
Proof.
  unfold decimal, pretty, pretty_N. case_decide; [|by apply pretty_go_digits].
  unfold string_bytes. cbn. apply Forall_singleton. unfold is_digit. cbn. lia.
Qed.

Lemma digits_digits n : Forall is_digit (digits n).
Proof.
  unfold digits, chars. pose proof (decimal_bytes n) as H. rewrite decode_ascii; [done|..].
  - eapply Forall_impl; [exact H|]. unfold is_digit. intros. lia.
  - unfold string_bytes. rewrite length_fmap. generalize (decimal n) as s. induction s; cbn; lia.
Qed.

Lemma hex_digits_range fuel u n : Forall (λ c, 48 ≤ c ≤ 102) (hex_digits fuel u n).
Proof.
  assert (∀ d, 0 ≤ d < 16 → 48 ≤ hex_char u d ≤ 102) as Hd.
  { intros d Hd. unfold hex_char. destruct (Z.ltb_spec d 10), u; lia. }
  revert n. induction fuel as [|fuel IH]; intros n; cbn; [done|]. destruct (n <? 16).
  - apply Forall_singleton, Hd, Z.mod_pos_bound. lia.
  - apply Forall_app. split; [apply IH|]. apply Forall_singleton, Hd, Z.mod_pos_bound. lia.
Qed.

(** Characters that need no escape and are no line ends. *)
Abbreviation printable := (Forall (λ c, 0x20 ≤ c < 0x7F ∨ 0xA0 ≤ c)).

Lemma hex_text_printable u w n : printable (hex_text u w n).
Proof.
  unfold hex_text. apply Forall_app. split; [apply Forall_replicate; lia|].
  eapply Forall_impl; [apply hex_digits_range|]. cbn. lia.
Qed.

Lemma digits_printable n : printable (digits n).
Proof. eapply Forall_impl; [apply digits_digits|]. unfold is_digit. cbn. lia. Qed.

Lemma joined_forall (P : Z → Prop) sep l : Forall P sep → Forall (Forall P) l → Forall P (joined sep l).
Proof.
  intros Hs. induction 1 as [|x l Hx Hl IH]; [done|]. destruct l as [|y l]; [done|].
  cbn [joined]. by rewrite !Forall_app.
Qed.

(** A literal is checked by evaluation. *)
Definition printableb (t : Text) : bool := forallb (λ c, (0x20 <=? c) && (c <? 0x7F) || (0xA0 <=? c)) t.

Lemma printable_lit t : printableb t = true → printable t.
Proof.
  unfold printableb. rewrite forallb_forall, Forall_forall. intros H c Hc%list_elem_of_In.
  apply H in Hc. apply orb_true_iff in Hc as [Hc|Hc]; [apply andb_true_iff in Hc as [??]|]; lia.
Qed.

Create HintDb printing.
#[export] Hint Resolve hex_text_printable digits_printable : printing.

Ltac printing :=
  repeat match goal with
  | |- Forall _ [] => apply Forall_nil; exact I
  | |- Forall _ (chars (String _ _)) => apply printable_lit; vm_compute; reflexivity
  | |- Forall _ (_ :: _) => apply Forall_cons; split; [lia|]
  | |- Forall _ (_ ++ _) => apply Forall_app; split
  | |- Forall _ (joined _ _) => apply joined_forall
  | |- Forall _ (concat _) => apply Forall_concat
  | |- Forall _ (_ <$> _) => apply Forall_fmap, Forall_true; intros ?; unfold compose; cbn beta
  | |- Forall _ _ => solve [auto with printing]
  end.

Lemma ipv4_printable a : printable (ipv4_text a).
Proof.
  unfold ipv4_text. printing.
Qed.
#[export] Hint Resolve ipv4_printable : printing.

Lemma ip_printable ip : printable (ip_text ip).
Proof.
  destruct ip as [a|a]; cbn [ip_text]; [printing|]. unfold ipv6_text.
  destruct (_ =? _); [printing|]. destruct (longest_zeros _ _ _ _) as [start len]. case_match; printing.
Qed.
#[export] Hint Resolve ip_printable : printing.

Lemma printable_nonneg t : printable t → Forall (λ c, 0 ≤ c) t.
Proof. intros H. eapply Forall_impl; [exact H|]. cbn. lia. Qed.

Lemma formatted_nonneg t : Forall (λ c, 0 ≤ c) (formatted t).
Proof.
  unfold formatted. apply Forall_concat, Forall_fmap, Forall_true. intros p. unfold fmt_text. destruct p; [apply chars_nonneg|..];
    apply printable_nonneg; unfold flow_key_text; printing.
Qed.

(** Escaped text is printable. *)
Lemma escape_printable s : Forall (λ c, 0 ≤ c) s → printable (escape_for_terminal s).
Proof.
  intros Hs. eapply Forall_impl; [apply (escape_clean s Hs)|]. cbn. intros c. unfold is_control, is_ascii_control, is_c1.
  destruct (Z.ltb_spec c 0x20), (Z.eqb_spec c 0x7F), (Z.leb_spec 0x80 c), (Z.leb_spec c 0x9F); cbn; lia || done.
Qed.

Lemma string_bytes_append s t : string_bytes (s +:+ t) = string_bytes s ++ string_bytes t.
Proof.
  unfold string_bytes. rewrite <- fmap_app. f_equal. induction s as [|c s IH]; [done|].
  change (String c s +:+ t) with (String c (s +:+ t)). cbn. by rewrite IH.
Qed.

Lemma chars_ascii s : Forall (λ b, 0x20 ≤ b < 0x7F) (string_bytes s) → printable (chars s).
Proof.
  intros Hs. unfold chars. rewrite decode_ascii.
  - eapply Forall_impl; [exact Hs|]. cbn. lia.
  - eapply Forall_impl; [exact Hs|]. cbn. lia.
  - unfold string_bytes. rewrite length_fmap. clear. induction s; cbn; lia.
Qed.
