(* ===== verification/Decoder.v ===== *)
(** * The frame decoder (src/decoder.rs)

    From a captured frame and its link type to a decoded packet or ARP frame:
    the strict parse, the lax parse of truncated captures, and the
    classification of ARP frames that neither can slice.  Headers are sliced by
    the [etherparse] crate, a parameter ([Etherparse]) whose slices are the
    records of what their accessors return.  The theorems are in
    [DecoderProps]. *)

From S2P Require Import Prelude FlowKey Findings Reader.

#[local] Open Scope Z_scope.

(** ** The slices of [etherparse] *)

(** [LinkSlice]: only the source address of an Ethernet header is used. *)
Inductive LinkSlice :=
  | Ethernet2 (source : Mac)
  | OtherLink.

Record ArpPacketSlice := mkArpSlice {
  hw_addr_type : Z;
  proto_addr_type : Z;
  hw_addr_size : Z;
  proto_addr_size : Z;
  arp_operation : Z;
  sender_hw_addr : list Z;
  sender_protocol_addr : list Z;
  target_hw_addr : list Z;
  target_protocol_addr : list Z
}.

(** The fields of a network slice that are read: addresses and protocol
    number of an IPv4 header; addresses of an IPv6 header and the number of its
    payload. *)
Inductive NetSlice :=
  | NetIpv4 (source_addr destination_addr ip_protocol : Z)
  | NetIpv6 (source_addr destination_addr payload_ip_number : Z)
  | NetArp (arp : ArpPacketSlice).

Inductive LaxNetSlice :=
  | LaxIpv4 (source_addr destination_addr ip_protocol : Z)
  | LaxIpv6 (source_addr destination_addr payload_ip_number : Z)
  | LaxArp (arp : ArpPacketSlice).

Inductive TransportSlice :=
  | SliceTcp (source_port destination_port sequence_number : Z) (syn ack fin rst : bool)
      (tcp_payload : list Z)
  | SliceUdp (source_port destination_port : Z) (udp_payload : list Z)
  | SliceIcmpv4
  | SliceIcmpv6.

Record SlicedPacket := mkSliced {
  link : option LinkSlice;
  net : option NetSlice;
  transport_slice : option TransportSlice
}.

(** [SliceError]: a length error, or any other with its [Display] text. *)
Inductive SliceError :=
  | SliceLen
  | SliceOther (display : string).

(** The crate: the layers at which lax slicing can stop, the result of lax
    slicing (of a link extension its [header_len()], of [stop_err] the layer),
    the strict and lax slicers, and [Debug] of a link type. *)
Class Etherparse `{PcapFile} := {
  Layer : Type;
  #[global] Layer_eq_dec :: EqDecision Layer;
  Layer_Arp : Layer;
  LaxSlicedPacket : Type;
  lax_link : LaxSlicedPacket → option LinkSlice;
  lax_link_exts : LaxSlicedPacket → list Z;
  lax_net : LaxSlicedPacket → option LaxNetSlice;
  lax_transport : LaxSlicedPacket → option TransportSlice;
  lax_stop_layer : LaxSlicedPacket → option Layer;
  from_ethernet : list Z → SliceError + SlicedPacket;
  from_ip : list Z → SliceError + SlicedPacket;
  from_linux_sll : list Z → SliceError + SlicedPacket;
  lax_from_ethernet : list Z → string + LaxSlicedPacket;
  lax_from_ip : list Z → string + LaxSlicedPacket;
  lax_from_ether_type : Z → list Z → LaxSlicedPacket;
  datalink_debug : DataLink → string
}.

(** ** Port hints *)

(** [ParsedPacket::app_protocol_hint]. *)
Definition app_protocol_hint (p : ParsedPacket) : option string :=
  let hint (src dst : Z) : option string :=
    let either n := (src =? n) || (dst =? n) in
    (if either 53 then Some "DNS"
     else if either 80 then Some "HTTP"
     else if either 443 then Some "TLS"
     else if either 22 then Some "SSH"
     else if either 445 then Some "SMB"
     else if either 502 then Some "Modbus"
     else if either 20000 then Some "DNP3"
     else None)%string in
  match transport p with
  | TTcp src dst _ _ _ _ _ => hint src dst
  | TUdp src dst => hint src dst
  | TNone => None
  end.

(** ** Results *)

Inductive DecodedFrame :=
  | DIp (p : ParsedPacket)
  | DArp (f : ArpFrame).

(** The errors, one constructor for each [anyhow!]. *)
Inductive DecodeError :=
  | UnsupportedLink (debug : string)
  | NonEthernetArp
  | NoIpLayer
  | TruncatedArp
  | SllTruncated
  | ParseError (display : string).

#[global] Instance DecodeError_eq_dec : EqDecision DecodeError.
Proof. solve_decision. Defined.

(** The message of an error, by which [main.rs] tells ARP frames apart. *)
Definition decode_error_text (e : DecodeError) : string :=
  match e with
  | UnsupportedLink d => "Unsupported link type: " +:+ d
  | NonEthernetArp => "Non-Ethernet/IPv4 ARP frame"
  | NoIpLayer => "No IP layer found"
  | TruncatedArp => "truncated ARP frame"
  | SllTruncated => "Parse error: SLL header truncated"
  | ParseError d => "Parse error: " +:+ d
  end%string.

Abbreviation decoding A := (panicky (DecodeError + A)) (only parsing).

Definition SLL_HEADER_LEN : Z := 16.

(** ** ARP frames *)

(** [<[u8; 6]>::try_from] and [<[u8; 4]>::try_from]. *)
Definition mac_of (l : list Z) : option Mac :=
  match l with [a; b; c; d; e; f] => Some (a, b, c, d, e, f) | _ => None end.

Definition ip4_of (l : list Z) : option Ip4 :=
  match l with [a; b; c; d] => Some (a, b, c, d) | _ => None end.

(** [extract_arp_frame]; the conversions are [expect]ed. *)
Definition extract_arp_frame (arp : ArpPacketSlice) (outer_src_mac : option Mac) (packet_len : Z) :
    panicky (option ArpFrame) :=
  if negb (hw_addr_type arp =? 1) || negb (proto_addr_type arp =? 0x0800)
     || negb (hw_addr_size arp =? 6) || negb (proto_addr_size arp =? 4)
  then Some None else
  sender_mac ← mac_of (sender_hw_addr arp);
  sender_ip ← ip4_of (sender_protocol_addr arp);
  target_mac ← mac_of (target_hw_addr arp);
  target_ip ← ip4_of (target_protocol_addr arp);
  Some (Some {|
    operation := arp_operation arp;
    sender_mac := sender_mac; sender_ip := sender_ip;
    target_mac := target_mac; target_ip := target_ip;
    outer_src_mac := outer_src_mac;
    arp_packet_len := packet_len
  |}).

(** The source address of an Ethernet link, for the mismatch detector. *)
Definition link_source (l : option LinkSlice) : option Mac :=
  match l with Some (Ethernet2 source) => Some source | _ => None end.

(** The two arms that meet an ARP slice. *)
Definition decode_arp (arp : ArpPacketSlice) (l : option LinkSlice) (len : Z) : decoding DecodedFrame :=
  f ← extract_arp_frame arp (link_source l) len;
  Some (match f with Some f => inr (DArp f) | None => inl NonEthernetArp end).

(** ** IP packets *)

Definition strict_ip_triple (n : NetSlice) : panicky (IpAddr * IpAddr * Z) :=
  match n with
  | NetIpv4 s d p => Some (V4 s, V4 d, p)
  | NetIpv6 s d p => Some (V6 s, V6 d, p)
  | NetArp _ => None
  end.

Definition lax_ip_triple (n : LaxNetSlice) : panicky (IpAddr * IpAddr * Z) :=
  match n with
  | LaxIpv4 s d p => Some (V4 s, V4 d, p)
  | LaxIpv6 s d p => Some (V6 s, V6 d, p)
  | LaxArp _ => None
  end.

Definition build_parsed (ip : IpAddr * IpAddr * Z) (ts : option TransportSlice) (packet_len : Z) :
    ParsedPacket :=
  let '(src, dst, ip_protocol) := ip in
  let '(proto, info) :=
    match ts with
    | Some (SliceTcp sp dp sq syn ack fin rst _) => (PTcp, TTcp sp dp sq syn ack fin rst)
    | Some (SliceUdp sp dp _) => (PUdp, TUdp sp dp)
    | Some (SliceIcmpv4 | SliceIcmpv6) => (PIcmp, TNone)
    | None => (POther ip_protocol, TNone)
    end in
  {| src_ip := src; dst_ip := dst; protocol := proto; transport := info;
     payload := match ts with
                | Some (SliceTcp _ _ _ _ _ _ _ d) => d
                | Some (SliceUdp _ _ d) => d
                | _ => []
                end;
     packet_len := packet_len |}.

Section decoder.
Context `{Etherparse}.

(** ** Truncated captures *)

Definition lax_parse (data : list Z) (datalink : DataLink) : decoding LaxSlicedPacket :=
  if decide (datalink = ETHERNET) then
    Some (match lax_from_ethernet data with inl e => inl (ParseError e) | inr s => inr s end)
  else if decide (datalink = RAW ∨ datalink = IPV4 ∨ datalink = IPV6) then
    Some (match lax_from_ip data with inl e => inl (ParseError e) | inr s => inr s end)
  else if decide (datalink = LINUX_SLL) then
    match slice data (SLL_HEADER_LEN - 2) SLL_HEADER_LEN with
    | None => Some (inl SllTruncated)
    | Some proto =>
        hi ← index proto 0;
        lo ← index proto 1;
        rest ← slice data SLL_HEADER_LEN (zlen data);
        Some (inr (lax_from_ether_type (u16_be hi lo) rest))
    end
  else Some (inl (UnsupportedLink (datalink_debug datalink))).

(** Where the ARP payload of an Ethernet frame starts. *)
Definition arp_offset (lax : LaxSlicedPacket) : panicky (option Z) :=
  match lax_link lax with
  | Some (Ethernet2 _) =>
      n ← checked_sum (lax_link_exts lax);
      o ← cadd usize_max 14 n;
      Some (Some o)
  | _ => Some None
  end.

(** Whether the fixed ARP header can be read and is not that of an
    Ethernet/IPv4 frame. *)
Definition arp_header_malformed (data : list Z) (offset : option Z) : panicky bool :=
  match offset with
  | None => Some false
  | Some o =>
      e ← cadd usize_max o 8;
      match slice data o e with
      | None => Some false
      | Some h =>
          h0 ← index h 0; h1 ← index h 1; h2 ← index h 2; h3 ← index h 3;
          hlen ← index h 4; plen ← index h 5;
          Some (negb (u16_be h0 h1 =? 0x0001) || negb (u16_be h2 h3 =? 0x0800)
            || negb (hlen =? 6) || negb (plen =? 4))
      end
  end.

(** The lax arm without a network slice. *)
Definition decode_unsliced (data : list Z) (lax : LaxSlicedPacket) : decoding DecodedFrame :=
  if decide (lax_stop_layer lax = Some Layer_Arp) then
    o ← arp_offset lax;
    malformed ← arp_header_malformed data o;
    Some (inl (if malformed : bool then NonEthernetArp else TruncatedArp))
  else Some (inl NoIpLayer).

Definition decode_lax (data : list Z) (lax : LaxSlicedPacket) : decoding DecodedFrame :=
  match lax_net lax with
  | Some (LaxArp arp) => decode_arp arp (lax_link lax) (zlen data)
  | Some n =>
      ip ← lax_ip_triple n;
      Some (inr (DIp (build_parsed ip (lax_transport lax) (zlen data))))
  | None => decode_unsliced data lax
  end.

Definition decode_strict (data : list Z) (s : SlicedPacket) : decoding DecodedFrame :=
  match net s with
  | Some (NetArp arp) => decode_arp arp (link s) (zlen data)
  | Some n =>
      ip ← strict_ip_triple n;
      Some (inr (DIp (build_parsed ip (transport_slice s) (zlen data))))
  | None => Some (inl NoIpLayer)
  end.

(** The strict slicer of a link type. *)
Definition strict_parse (data : list Z) (datalink : DataLink) : option (SliceError + SlicedPacket) :=
  if decide (datalink = ETHERNET) then Some (from_ethernet data)
  else if decide (datalink = RAW ∨ datalink = IPV4 ∨ datalink = IPV6) then Some (from_ip data)
  else if decide (datalink = LINUX_SLL) then Some (from_linux_sll data)
  else None.

Definition decode_packet (data : list Z) (datalink : DataLink) : decoding DecodedFrame :=
  match strict_parse data datalink with
  | None => Some (inl (UnsupportedLink (datalink_debug datalink)))
  | Some (inr s) => decode_strict data s
  | Some (inl SliceLen) =>
      r ← lax_parse data datalink;
      match r with inl e => Some (inl e) | inr lax => decode_lax data lax end
  | Some (inl (SliceOther e)) => Some (inl (ParseError e))
  end.

End decoder.
