(* ===== verification/DecoderProps.v ===== *)
(** * Properties of the frame decoder

    Every frame decodes to a packet, an ARP frame or an error, without a panic
    and within the widths the engine relies on, and which of them is exactly
    what the answers of the slicers call for; ARP frames are classified by
    their fixed header alone, whichever parse path they take; the text test by
    which [main.rs] picks out malformed ARP frames is exact. *)

From S2P Require Import Prelude FlowKey Findings Reader Decoder.

#[local] Open Scope Z_scope.

(** ** What the code relies on of [etherparse] *)

(** [d] is a contiguous part of [data]. *)
Definition within {A} (d data : list A) : Prop := ∃ pre post, data = pre ++ d ++ post.

Lemma within_nil {A} (data : list A) : within [] data.
Proof. by exists [], data. Qed.

Lemma within_drop {A} n (d data : list A) : within d (drop n data) → within d data.
Proof.
  intros (pre & post & E). exists (take n data ++ pre), post.
  rewrite <-app_assoc, <-E. by rewrite take_drop.
Qed.

Lemma within_take {A} n (d data : list A) : within d (take n data) → within d data.
Proof.
  intros (pre & post & E). exists pre, (post ++ drop n data).
  rewrite !app_assoc, <-(app_assoc pre), <-E. by rewrite take_drop.
Qed.

Lemma within_refl {A} (d : list A) : within d d.
Proof. exists [], []. by rewrite app_nil_r. Qed.

Lemma within_trans {A} (d e f : list A) : within d e → within e f → within d f.
Proof.
  intros (p & q & ->) (p' & q' & ->). exists (p' ++ p), (q ++ q'). by rewrite <-!app_assoc.
Qed.

Lemma within_zlen {A} (d data : list A) : within d data → zlen d ≤ zlen data.
Proof.
  intros (pre & post & ->). rewrite !zlen_app. pose proof (zlen_nonneg pre). pose proof (zlen_nonneg post). lia.
Qed.

Lemma within_Forall {A} (P : A → Prop) (d data : list A) : within d data → Forall P data → Forall P d.
Proof. intros (pre & post & ->). rewrite !Forall_app. tauto. Qed.

Definition mac_bytes (m : Mac) : list Z := let '(a, b, c, d, e, f) := m in [a; b; c; d; e; f].
Definition ip4_bytes (i : Ip4) : list Z := let '(a, b, c, d) := i in [a; b; c; d].

(** What a network slice says, whichever parse found it. *)
Inductive NetView :=
  | IpView (src dst : IpAddr) (number : Z)
  | ArpView (arp : ArpPacketSlice).

Definition strict_view (n : NetSlice) : NetView :=
  match n with
  | NetIpv4 s d p => IpView (V4 s) (V4 d) p
  | NetIpv6 s d p => IpView (V6 s) (V6 d) p
  | NetArp a => ArpView a
  end.

Definition lax_view (n : LaxNetSlice) : NetView :=
  match n with
  | LaxIpv4 s d p => IpView (V4 s) (V4 d) p
  | LaxIpv6 s d p => IpView (V6 s) (V6 d) p
  | LaxArp a => ArpView a
  end.

(** The address accessors return slices of the declared sizes. *)
Definition arp_sized (arp : ArpPacketSlice) : Prop :=
  zlen (sender_hw_addr arp) = hw_addr_size arp ∧
  zlen (sender_protocol_addr arp) = proto_addr_size arp ∧
  zlen (target_hw_addr arp) = hw_addr_size arp ∧
  zlen (target_protocol_addr arp) = proto_addr_size arp.

Definition addr_sized (ip : IpAddr) : Prop :=
  match ip with V4 a => is_u32 a | V6 a => 0 ≤ a ≤ u128_max end.

(** The fields of a network slice have their widths, and the addresses of an
    ARP packet are parts of what was sliced. *)
Definition view_sized (input : list Z) (v : NetView) : Prop :=
  match v with
  | IpView s d n => addr_sized s ∧ addr_sized d ∧ is_u8 n
  | ArpView arp =>
      arp_sized arp ∧ is_u16 (arp_operation arp) ∧
      within (sender_hw_addr arp) input ∧ within (sender_protocol_addr arp) input ∧
      within (target_hw_addr arp) input ∧ within (target_protocol_addr arp) input
  end.

(** Ports are [u16], sequence numbers [u32], and the payload is a part of what
    was sliced. *)
Definition transport_sized (input : list Z) (ts : option TransportSlice) : Prop :=
  match ts with
  | Some (SliceTcp sp dp sq _ _ _ _ d) => is_u16 sp ∧ is_u16 dp ∧ is_u32 sq ∧ within d input
  | Some (SliceUdp sp dp d) => is_u16 sp ∧ is_u16 dp ∧ within d input
  | _ => True
  end.

Record layers_sized (input : list Z) (l : option LinkSlice) (n : option NetView)
    (ts : option TransportSlice) : Prop := {
  ls_link m : l = Some (Ethernet2 m) → Forall is_u8 (mac_bytes m);
  ls_net v : n = Some v → view_sized input v;
  ls_transport : transport_sized input ts
}.

(** Each slicer, relative to the bytes it is given. *)
Class EtherparseLaws `{Etherparse} : Prop := {
  strict_sized input s :
    Forall is_u8 input →
    from_ethernet input = inr s ∨ from_ip input = inr s ∨ from_linux_sll input = inr s →
    layers_sized input (link s) (strict_view <$> net s) (transport_slice s);
  lax_sized input l :
    Forall is_u8 input →
    lax_from_ethernet input = inr l ∨ lax_from_ip input = inr l ∨
      (∃ ty, l = lax_from_ether_type ty input) →
    layers_sized input (lax_link l) (lax_view <$> lax_net l) (lax_transport l) ∧
    (∀ m, lax_link l = Some (Ethernet2 m) →
      Forall (λ n, 0 ≤ n) (lax_link_exts l) ∧ 14 + foldr Z.add 0 (lax_link_exts l) ≤ zlen input)
}.

(** ** Every frame decodes *)

(** What a decoded frame promises to the pipeline. *)
Definition frame_ok (data : list Z) (f : DecodedFrame) : Prop :=
  match f with
  | DIp p =>
      packet_len p = zlen data ∧ within (payload p) data ∧
      addr_sized (src_ip p) ∧ addr_sized (dst_ip p) ∧
      match transport p with
      | TTcp sp dp sq _ _ _ _ => protocol p = PTcp ∧ is_u16 sp ∧ is_u16 dp ∧ is_u32 sq
      | TUdp sp dp => protocol p = PUdp ∧ is_u16 sp ∧ is_u16 dp
      | TNone => payload p = [] ∧ (protocol p = PIcmp ∨ ∃ n, protocol p = POther n ∧ is_u8 n)
      end
  | DArp f =>
      arp_packet_len f = zlen data ∧ is_u16 (operation f) ∧
      Forall is_u8 (mac_bytes (sender_mac f) ++ ip4_bytes (sender_ip f) ++
        mac_bytes (target_mac f) ++ ip4_bytes (target_ip f)) ∧
      (∀ m, outer_src_mac f = Some m → Forall is_u8 (mac_bytes m))
  end.

Lemma mac_of_Some l : zlen l = 6 → ∃ m, mac_of l = Some m ∧ mac_bytes m = l.
Proof.
  intros H. destruct l as [|a [|b [|c [|d [|e [|f [|g l]]]]]]]; try (unfold zlen in H; simpl in H; lia). by eexists.
Qed.

Lemma ip4_of_Some l : zlen l = 4 → ∃ i, ip4_of l = Some i ∧ ip4_bytes i = l.
Proof.
  intros H. destruct l as [|a [|b [|c [|d [|e l]]]]]; try (unfold zlen in H; simpl in H; lia). by eexists.
Qed.

(** Whether an ARP slice is that of an Ethernet/IPv4 packet. *)
Definition ethernet_ipv4 (arp : ArpPacketSlice) : Prop :=
  hw_addr_type arp = 1 ∧ proto_addr_type arp = 0x0800 ∧ hw_addr_size arp = 6 ∧ proto_addr_size arp = 4.

#[global] Instance ethernet_ipv4_dec arp : Decision (ethernet_ipv4 arp).
Proof. unfold ethernet_ipv4. apply _. Defined.

(** [f] has the fields of the ARP slice. *)
Definition arp_reads (arp : ArpPacketSlice) (f : ArpFrame) : Prop :=
  operation f = arp_operation arp ∧
  mac_bytes (sender_mac f) = sender_hw_addr arp ∧ ip4_bytes (sender_ip f) = sender_protocol_addr arp ∧
  mac_bytes (target_mac f) = target_hw_addr arp ∧ ip4_bytes (target_ip f) = target_protocol_addr arp.

Lemma extract_arp_frame_exact arp m n :
  arp_sized arp →
  if decide (ethernet_ipv4 arp)
  then ∃ f, extract_arp_frame arp m n = Some (Some f) ∧ arp_reads arp f ∧
         outer_src_mac f = m ∧ arp_packet_len f = n
  else extract_arp_frame arp m n = Some None.
Proof.
  intros (H1 & H2 & H3 & H4). unfold extract_arp_frame, ethernet_ipv4.
  destruct (Z.eqb_spec (hw_addr_type arp) 1); [|by rewrite decide_False by tauto].
  destruct (Z.eqb_spec (proto_addr_type arp) 0x0800); [|by rewrite decide_False by tauto].
  destruct (Z.eqb_spec (hw_addr_size arp) 6); [|by rewrite decide_False by tauto].
  destruct (Z.eqb_spec (proto_addr_size arp) 4); [|by rewrite decide_False by tauto].
  rewrite decide_True by done. simpl.
  destruct (mac_of_Some (sender_hw_addr arp)) as (sm & -> & ?); [lia|].
  destruct (ip4_of_Some (sender_protocol_addr arp)) as (si & -> & ?); [lia|].
  destruct (mac_of_Some (target_hw_addr arp)) as (tm & -> & ?); [lia|].
  destruct (ip4_of_Some (target_protocol_addr arp)) as (ti & -> & ?); [lia|].
  simpl. eexists. split; [done|]. by repeat split.
Qed.

Lemma build_parsed_ok data src dst n ts :
  addr_sized src → addr_sized dst → is_u8 n → transport_sized data ts →
  frame_ok data (DIp (build_parsed (src, dst, n) ts (zlen data))).
Proof.
  intros Hs Hd Hn Ht. pose proof (within_nil data).
  destruct ts as [[]|]; simpl in *; naive_solver.
Qed.

Section decoder.
Context `{EP : Etherparse}.

Lemma arp_header_malformed_total data o :
  zlen data ≤ isize_max → (∀ n, o = Some n → 0 ≤ n ≤ zlen data) → ∃ b, arp_header_malformed data o = Some b.
Proof.
  intros Hz Ho. destruct o as [n|]; [|by eexists]. specialize (Ho n eq_refl).
  unfold arp_header_malformed. rewrite (cadd_Some _ n 8) by ulia. simpl.
  destruct (slice data n (n + 8)) as [h|] eqn:E; [|by eexists]. apply slice_inv in E as (_ & _ & Hl & _).
  destruct (index_Some h 0) as [? ->]; [lia|]. destruct (index_Some h 1) as [? ->]; [lia|].
  destruct (index_Some h 2) as [? ->]; [lia|]. destruct (index_Some h 3) as [? ->]; [lia|].
  destruct (index_Some h 4) as [? ->]; [lia|]. destruct (index_Some h 5) as [? ->]; [lia|].
  by eexists.
Qed.

Lemma lax_parse_inv data dl l :
  lax_parse data dl = Some (inr l) →
  lax_from_ethernet data = inr l ∨ lax_from_ip data = inr l ∨ (∃ ty, l = lax_from_ether_type ty (drop 16 data)).
Proof.
  unfold lax_parse. case_decide; [destruct (lax_from_ethernet data); naive_solver|].
  case_decide; [destruct (lax_from_ip data); naive_solver|]. case_decide; [|done].
  destruct (slice data _ _) as [proto|] eqn:Ep; [|done]. apply slice_inv in Ep as (_ & Hl & _).
  destruct (index proto 0); [|done]. destruct (index proto 1); [|done]. simpl.
  rewrite slice_suffix by (split; [done|exact Hl]). simpl. intros [= <-]. right; right. by eexists.
Qed.

Lemma lax_parse_total data dl : ∃ r, lax_parse data dl = Some r.
Proof.
  unfold lax_parse. repeat (case_decide; [by eexists|]). case_decide; [|by eexists].
  destruct (slice data _ _) as [proto|] eqn:Ep; [|by eexists]. apply slice_inv in Ep as (_ & Hl & Hn & _).
  destruct (index_Some proto 0) as [? ->]; [rewrite Hn; done|].
  destruct (index_Some proto 1) as [? ->]; [rewrite Hn; done|]. simpl.
  rewrite slice_suffix by (split; [done|exact Hl]). by eexists.
Qed.

Lemma strict_parse_inv data dl s :
  strict_parse data dl = Some (inr s) →
  from_ethernet data = inr s ∨ from_ip data = inr s ∨ from_linux_sll data = inr s.
Proof. unfold strict_parse. repeat case_decide; naive_solver. Qed.

Context `{!EtherparseLaws}.

Lemma layers_sized_drop data l n ts k : layers_sized (drop k data) l n ts → layers_sized data l n ts.
Proof.
  intros [Hl Hn Ht]. split; [done| |].
  - intros v Hv. specialize (Hn v Hv). destruct v; simpl in *; [done|]. intuition eauto using within_drop.
  - destruct ts as [[]|]; simpl in *; intuition eauto using within_drop.
Qed.

Lemma strict_layers data dl s :
  Forall is_u8 data → strict_parse data dl = Some (inr s) →
  layers_sized data (link s) (strict_view <$> net s) (transport_slice s).
Proof. intros Hu E%strict_parse_inv. by apply strict_sized. Qed.

Lemma lax_layers data dl l :
  Forall is_u8 data → lax_parse data dl = Some (inr l) →
  layers_sized data (lax_link l) (lax_view <$> lax_net l) (lax_transport l) ∧
  (∀ m, lax_link l = Some (Ethernet2 m) →
    Forall (λ n, 0 ≤ n) (lax_link_exts l) ∧ 14 + foldr Z.add 0 (lax_link_exts l) ≤ zlen data).
Proof.
  intros Hu [E|[E|E]]%lax_parse_inv; [apply lax_sized; auto..|].
  destruct (lax_sized (drop 16 data) l) as [Hl Hx]; [by apply Forall_drop|by auto|].
  split; [by eapply layers_sized_drop|]. intros m Hm. destruct (Hx m Hm) as [? ?]. split; [done|].
  etransitivity; [done|]. unfold zlen. rewrite length_drop. lia.
Qed.

Lemma decode_arp_total data arp l ts :
  Forall is_u8 data → layers_sized data l (Some (ArpView arp)) ts →
  ∃ r, decode_arp arp l (zlen data) = Some r ∧ ∀ f, r = inr f → frame_ok data f.
Proof.
  intros Hu [Hl Hn _]. destruct (Hn _ eq_refl) as (Hs & Ho & W1 & W2 & W3 & W4).
  pose proof (extract_arp_frame_exact arp (link_source l) (zlen data) Hs) as Hx.
  unfold decode_arp. case_decide; [|rewrite Hx; by eexists].
  destruct Hx as (f & -> & (R1 & R2 & R3 & R4 & R5) & Hm & Hz). simpl. eexists. split; [done|].
  intros ? [= <-]. simpl. rewrite R1, R2, R3, R4, R5, Hz. split_and!; [done|done| |].
  - rewrite !Forall_app. split_and!; by eapply within_Forall.
  - rewrite Hm. destruct l as [[]|]; simpl; try done. intros ? [= ->]. by apply Hl.
Qed.

Lemma decode_strict_total data dl s :
  Forall is_u8 data → strict_parse data dl = Some (inr s) → ∃ r, decode_strict data s = Some r ∧ ∀ f, r = inr f → frame_ok data f.
Proof.
  intros Hu E%strict_layers; [|done]. unfold decode_strict. destruct (net s) as [[]|]; simpl in *.
  3: by eapply decode_arp_total. 3: by eexists.
  all: destruct E as [_ Hn Ht]; destruct (Hn _ eq_refl) as (? & ? & ?); eexists; split; [done|];
    intros ? [= <-]; by apply build_parsed_ok.
Qed.

Lemma decode_unsliced_total data l :
  zlen data ≤ isize_max →
  (∀ m, lax_link l = Some (Ethernet2 m) →
    Forall (λ n, 0 ≤ n) (lax_link_exts l) ∧ 14 + foldr Z.add 0 (lax_link_exts l) ≤ zlen data) →
  ∃ e, decode_unsliced data l = Some (inl e).
Proof.
  intros Hz Hl. unfold decode_unsliced. case_decide; [|by eexists].
  assert (∃ o, arp_offset l = Some o ∧ ∀ n, o = Some n → 0 ≤ n ≤ zlen data) as (o & -> & Ho).
  { unfold arp_offset. destruct (lax_link l) as [[m|]|]; [|by eexists..].
    destruct (Hl m eq_refl) as [Hp Hs]. unfold checked_sum.
    assert (0 ≤ foldr Z.add 0 (lax_link_exts l)) by (clear - Hp; induction Hp; simpl; lia).
    rewrite checked_sum_Some by (done || ulia). simpl. rewrite (cadd_Some usize_max 14) by ulia. simpl.
    eexists. split; [done|]. intros ? [= <-]. lia. }
  simpl. destruct (arp_header_malformed_total data o Hz Ho) as [b ->]. by eexists.
Qed.

Lemma decode_lax_total data dl l :
  Forall is_u8 data → zlen data ≤ isize_max → lax_parse data dl = Some (inr l) →
  ∃ r, decode_lax data l = Some r ∧ ∀ f, r = inr f → frame_ok data f.
Proof.
  intros Hu Hz [E Hx]%lax_layers; [|done]. unfold decode_lax. destruct (lax_net l) as [[]|]; simpl in *.
  3: by eapply decode_arp_total. 3: by destruct (decode_unsliced_total data l Hz Hx) as [e ->]; eexists.
  all: destruct E as [_ Hn Ht]; destruct (Hn _ eq_refl) as (? & ? & ?); eexists; split; [done|];
    intros ? [= <-]; by apply build_parsed_ok.
Qed.

Lemma decode_packet_ok data dl :
  Forall is_u8 data → zlen data ≤ isize_max → ∃ r, decode_packet data dl = Some r ∧ ∀ f, r = inr f → frame_ok data f.
Proof.
  intros Hu Hz. unfold decode_packet. destruct (strict_parse data dl) as [[[|e]|s]|] eqn:E.
  - destruct (lax_parse_total data dl) as [[e|l] El]; rewrite El; simpl; [by eexists|].
    by eapply decode_lax_total.
  - by eexists.
  - by eapply decode_strict_total.
  - by eexists.
Qed.

End decoder.

(** ** ARP frames on Ethernet *)

(** An Ethernet frame of type ARP with 802.1Q tags. *)
Definition vlan_tag (tci : Z * Z) : list Z := [0x81; 0x00; tci.1; tci.2].

Definition ethernet_arp (dst src : Mac) (tags : list (Z * Z)) (body : list Z) : list Z :=
  mac_bytes dst ++ mac_bytes src ++ concat (vlan_tag <$> tags) ++ [0x08; 0x06] ++ body.

(** [ArpPacketSlice::from_slice] as the crate documents it: the fixed header is
    eight bytes and is followed by two pairs of addresses of the sizes it
    declares. *)
Definition arp_from_slice (body : list Z) : option ArpPacketSlice :=
  match body with
  | b0 :: b1 :: b2 :: b3 :: hlen :: plen :: b6 :: b7 :: rest =>
      let h := Z.to_nat hlen in
      let p := Z.to_nat plen in
      if 2 * hlen + 2 * plen <=? zlen rest then Some {|
        hw_addr_type := u16_be b0 b1; proto_addr_type := u16_be b2 b3;
        hw_addr_size := hlen; proto_addr_size := plen; arp_operation := u16_be b6 b7;
        sender_hw_addr := take h rest;
        sender_protocol_addr := take p (drop h rest);
        target_hw_addr := take h (drop (h + p) rest);
        target_protocol_addr := take p (drop (h + p + h) rest)
      |} else None
  | _ => None
  end.

(** Both slicers look through at most three tags.  When the addresses are cut
    off, the strict one reports a length error and the lax one stops at the ARP
    layer. *)
Class ArpSlicing `{Etherparse} : Prop := {
  strict_arp dst src tags body :
    (length tags ≤ 3)%nat →
    from_ethernet (ethernet_arp dst src tags body) =
      match arp_from_slice body with
      | Some a => inr (mkSliced (Some (Ethernet2 src)) (Some (NetArp a)) None)
      | None => inl SliceLen
      end;
  lax_arp dst src tags body :
    (length tags ≤ 3)%nat →
    ∃ l, lax_from_ethernet (ethernet_arp dst src tags body) = inr l ∧
      lax_link l = Some (Ethernet2 src) ∧ lax_link_exts l = replicate (length tags) 4 ∧
      match arp_from_slice body with
      | Some a => lax_net l = Some (LaxArp a)
      | None => lax_net l = None ∧ lax_stop_layer l = Some Layer_Arp
      end
}.

(** The fixed header of an Ethernet/IPv4 ARP packet up to the operation. *)
Definition eth_ipv4_arp : list Z := [0x00; 0x01; 0x08; 0x00; 6; 4].

Lemma zlen_ethernet_arp dst src tags body :
  zlen (ethernet_arp dst src tags body) = 14 + 4 * zlen tags + zlen body.
Proof.
  assert (zlen (concat (vlan_tag <$> tags)) = 4 * zlen tags) as Ht.
  { clear. induction tags as [|t tags IH]; [done|].
    rewrite fmap_cons. cbn [concat vlan_tag app]. rewrite !zlen_cons, IH. lia. }
  unfold ethernet_arp. rewrite !zlen_app, Ht. destruct dst as [[[[[]]]]], src as [[[[[]]]]].
  unfold mac_bytes. autorewrite with zlen. lia.
Qed.

Lemma ethernet_arp_header dst src tags body n :
  0 ≤ n ≤ zlen body →
  slice (ethernet_arp dst src tags body) (14 + 4 * zlen tags) (14 + 4 * zlen tags + n) =
    Some (take (Z.to_nat n) body).
Proof.
  intros Hn. pose proof (zlen_ethernet_arp dst src tags body) as Hz. pose proof (zlen_nonneg tags).
  rewrite slice_Some by lia. f_equal.
  set (pre := mac_bytes dst ++ mac_bytes src ++ concat (vlan_tag <$> tags) ++ [0x08; 0x06]).
  assert (ethernet_arp dst src tags body = pre ++ body) as E by (unfold ethernet_arp, pre; by rewrite <-!app_assoc).
  rewrite E in *. rewrite zlen_app in Hz. replace (14 + 4 * zlen tags) with (zlen pre) by lia.
  rewrite drop_zlen_app. f_equal. lia.
Qed.

Lemma fixed_header_cases (body : list Z) :
  8 ≤ zlen body → ∃ b0 b1 b2 b3 h p b6 b7 rest, body = b0 :: b1 :: b2 :: b3 :: h :: p :: b6 :: b7 :: rest.
Proof.
  intros H. destruct body as [|b0 [|b1 [|b2 [|b3 [|h [|p [|b6 [|b7 rest]]]]]]]]; try (unfold zlen in H; simpl in H; lia).
  by eexists _, _, _, _, _, _, _, _, _.
Qed.

(** The guard of the code is inequality with the header above. *)
Lemma header_guard b0 b1 b2 b3 h p :
  is_u8 b0 → is_u8 b1 → is_u8 b2 → is_u8 b3 →
  negb (u16_be b0 b1 =? 1) || negb (u16_be b2 b3 =? 0x0800) || negb (h =? 6) || negb (p =? 4) =
  negb (bool_decide ([b0; b1; b2; b3; h; p] = eth_ipv4_arp)).
Proof.
  intros H0 H1 H2 H3. rewrite !u16_be_small by done. unfold is_u8, u8_max in *.
  destruct (Z.eqb_spec (b0 * 256 + b1) 1), (Z.eqb_spec (b2 * 256 + b3) 0x0800), (Z.eqb_spec h 6), (Z.eqb_spec p 4);
    simpl; case_bool_decide as E; try done; exfalso;
    (first [injection E as -> -> -> -> -> ->; lia | apply E; unfold eth_ipv4_arp; repeat f_equal; lia]).
Qed.

Lemma arp_header_malformed_at data o b0 b1 b2 b3 h p b6 b7 :
  o + 8 ≤ usize_max → slice data o (o + 8) = Some [b0; b1; b2; b3; h; p; b6; b7] →
  arp_header_malformed data (Some o) =
    Some (negb (u16_be b0 b1 =? 1) || negb (u16_be b2 b3 =? 0x0800) || negb (h =? 6) || negb (p =? 4)).
Proof. intros Ho E. unfold arp_header_malformed. rewrite cadd_Some by done. cbn [mbind option_bind]. by rewrite E. Qed.

Section arp.
Context `{EP : Etherparse, !ArpSlicing}.
Variables (dst src : Mac) (tags : list (Z * Z)) (body : list Z).
Hypothesis tags_few : (length tags ≤ 3)%nat.
Hypothesis body_bytes : Forall is_u8 body.

Let frame := ethernet_arp dst src tags body.

(** An unsliced frame is malformed when its fixed header is there and wrong. *)
Lemma decode_unsliced_arp :
  zlen frame ≤ isize_max → arp_from_slice body = None →
  decode_packet frame ETHERNET =
    Some (inl (if (8 <=? zlen body) && negb (bool_decide (take 6 body = eth_ipv4_arp))
               then NonEthernetArp else TruncatedArp)).
Proof.
  intros Hz Hs. unfold decode_packet, strict_parse. rewrite decide_True by done.
  unfold frame. rewrite strict_arp, Hs by done. unfold lax_parse. rewrite decide_True by done.
  destruct (lax_arp dst src tags body tags_few) as (l & -> & Hl & He & Hn). rewrite Hs in Hn.
  destruct Hn as [Hn Hst]. simpl. unfold decode_lax. rewrite Hn. unfold decode_unsliced.
  rewrite decide_True by done. unfold arp_offset. rewrite Hl, He. fold frame.
  assert (foldr Z.add 0 (replicate (length tags) 4) = 4 * zlen tags) as Hf.
  { unfold zlen. clear. induction (length tags); simpl; lia. }
  pose proof (zlen_ethernet_arp dst src tags body) as Hzf. fold frame in Hzf. pose proof (zlen_nonneg body).
  pose proof (zlen_nonneg tags).
  unfold checked_sum. rewrite checked_sum_Some; [|clear; induction (length tags); simpl; constructor; done || lia|ulia].
  rewrite Hf, Z.add_0_l. cbn [mbind option_bind]. rewrite (cadd_Some usize_max 14) by ulia. cbn [mbind option_bind].
  destruct (Z.leb_spec 8 (zlen body)) as [H8|H8].
  - pose proof (ethernet_arp_header dst src tags body 8) as Eh.
    destruct (fixed_header_cases body H8) as (b0 & b1 & b2 & b3 & h & p & b6 & b7 & rest & Eb).
    rewrite (arp_header_malformed_at _ _ b0 b1 b2 b3 h p b6 b7); [|ulia|unfold frame; rewrite Eh by lia; by rewrite Eb].
    rewrite Eb in body_bytes |- *. do 4 (apply Forall_cons in body_bytes as [? body_bytes]).
    rewrite header_guard by done. cbn. by destruct (negb _).
  - unfold arp_header_malformed.
    rewrite (cadd_Some usize_max (14 + 4 * zlen tags) 8) by ulia. cbn [mbind option_bind].
    unfold slice. rewrite (proj2 (Z.leb_gt (14 + 4 * zlen tags + 8) (zlen frame))) by lia.
    by rewrite andb_false_r.
Qed.

(** A sliced frame is admitted exactly when the header is right. *)
Lemma decode_sliced_arp a :
  arp_from_slice body = Some a →
  decode_packet frame ETHERNET = decode_arp a (Some (Ethernet2 src)) (zlen frame).
Proof.
  intros Hs. unfold decode_packet, strict_parse. rewrite decide_True by done.
  unfold frame. by rewrite strict_arp, Hs.
Qed.
End arp.

(** C39. ARP frames are classified by their fixed header alone.  For an Ethernet
    frame of type ARP with up to three VLAN tags and any body, on whichever of
    the strict and the lax path it is decoded: a body too short for the fixed
    header is a truncated frame; a readable header that is not that of
    Ethernet/IPv4 is a malformed frame, however long the body; a right header
    with cut-off addresses is a truncated frame; and an encoded ARP packet,
    padded or not, decodes to exactly its operation and addresses with the
    source address of the Ethernet header. *)
Theorem arp_classification `{EP : Etherparse, !ArpSlicing} dst src tags body :
  (length tags ≤ 3)%nat → Forall is_u8 body → zlen (ethernet_arp dst src tags body) ≤ isize_max →
  let result := decode_packet (ethernet_arp dst src tags body) ETHERNET in
  (zlen body < 8 → result = Some (inl TruncatedArp)) ∧
  (8 ≤ zlen body → take 6 body ≠ eth_ipv4_arp → result = Some (inl NonEthernetArp)) ∧
  (8 ≤ zlen body < 28 → take 6 body = eth_ipv4_arp → result = Some (inl TruncatedArp)) ∧
  (∀ o1 o2 sm si tm ti padding,
    body = eth_ipv4_arp ++ [o1; o2] ++ mac_bytes sm ++ ip4_bytes si ++ mac_bytes tm ++ ip4_bytes ti ++ padding →
    result = Some (inr (DArp (mkArpFrame (u16_be o1 o2) sm si tm ti (Some src)
      (zlen (ethernet_arp dst src tags body)))))).
Proof.
  intros Ht Hb Hz result. unfold result. split_and!.
  - intros Hl. rewrite decode_unsliced_arp; [|done..|].
    + destruct (Z.leb_spec 8 (zlen body)); [lia|done].
    + destruct body as [|? [|? [|? [|? [|? [|? [|? [|? ?]]]]]]]]; try done.
      exfalso. unfold zlen in Hl. simpl in Hl. lia.
  - intros Hl Hne. destruct (arp_from_slice body) as [a|] eqn:Ea.
    + erewrite decode_sliced_arp by done. unfold decode_arp, extract_arp_frame.
      destruct (fixed_header_cases body Hl) as (b0 & b1 & b2 & b3 & h & p & b6 & b7 & rest & ->).
      cbn in Ea. destruct (_ <=? _); [|done]. injection Ea as <-. cbn [hw_addr_type proto_addr_type hw_addr_size proto_addr_size].
      do 4 (apply Forall_cons in Hb as [? Hb]). rewrite header_guard by done.
      rewrite bool_decide_eq_false_2 by exact Hne. done.
    + rewrite decode_unsliced_arp by done. rewrite bool_decide_eq_false_2 by done.
      destruct (Z.leb_spec 8 (zlen body)); [done|lia].
  - intros Hl Hh. rewrite decode_unsliced_arp; [|done..|].
    + by rewrite bool_decide_eq_true_2, andb_false_r.
    + destruct (fixed_header_cases body) as (b0 & b1 & b2 & b3 & h & p & b6 & b7 & rest & ->); [lia|].
      cbn in Hh. injection Hh as -> -> -> -> -> ->. autorewrite with zlen in Hl. unfold arp_from_slice.
      by rewrite (proj2 (Z.leb_gt (2 * 6 + 2 * 4) (zlen rest))) by lia.
  - intros o1 o2 [[[[[s1 s2] s3] s4] s5] s6] [[[i1 i2] i3] i4] [[[[[t1 t2] t3] t4] t5] t6] [[[j1 j2] j3] j4] padding ->.
    erewrite decode_sliced_arp; [|done|].
    2: { unfold eth_ipv4_arp, mac_bytes, ip4_bytes, arp_from_slice. cbn [app]. pose proof (zlen_nonneg padding).
         by rewrite (proj2 (Z.leb_le _ _)) by zlia. }
    done.
Qed.

(** ** What the decoder makes of a frame

    The outcome as relations on what the slicers answered: which answer counts,
    and how each layer it holds is read. *)

(** The result read off the layers: every field of a packet from its own
    accessor, an ARP frame only from an Ethernet/IPv4 packet. *)
Inductive view_reads (len : Z) (l : option LinkSlice) :
    NetView → option TransportSlice → DecodeError + DecodedFrame → Prop :=
  | reads_tcp src dst n sp dp sq syn ack fin rst d :
      view_reads len l (IpView src dst n) (Some (SliceTcp sp dp sq syn ack fin rst d))
        (inr (DIp {| src_ip := src; dst_ip := dst; protocol := PTcp;
                     transport := TTcp sp dp sq syn ack fin rst; payload := d; packet_len := len |}))
  | reads_udp src dst n sp dp d :
      view_reads len l (IpView src dst n) (Some (SliceUdp sp dp d))
        (inr (DIp {| src_ip := src; dst_ip := dst; protocol := PUdp;
                     transport := TUdp sp dp; payload := d; packet_len := len |}))
  | reads_icmp src dst n icmp :
      icmp = SliceIcmpv4 ∨ icmp = SliceIcmpv6 →
      view_reads len l (IpView src dst n) (Some icmp)
        (inr (DIp {| src_ip := src; dst_ip := dst; protocol := PIcmp;
                     transport := TNone; payload := []; packet_len := len |}))
  | reads_other src dst n :
      view_reads len l (IpView src dst n) None
        (inr (DIp {| src_ip := src; dst_ip := dst; protocol := POther n;
                     transport := TNone; payload := []; packet_len := len |}))
  | reads_arp arp ts f :
      ethernet_ipv4 arp → arp_reads arp f →
      outer_src_mac f = link_source l → arp_packet_len f = len →
      view_reads len l (ArpView arp) ts (inr (DArp f))
  | reads_foreign_arp arp ts :
      ¬ ethernet_ipv4 arp → view_reads len l (ArpView arp) ts (inl NonEthernetArp).

Lemma mac_bytes_inj m m' : mac_bytes m = mac_bytes m' → m = m'.
Proof. destruct m as [[[[[]]]]], m' as [[[[[]]]]]. simpl. congruence. Qed.

Lemma ip4_bytes_inj i i' : ip4_bytes i = ip4_bytes i' → i = i'.
Proof. destruct i as [[[]]], i' as [[[]]]. simpl. congruence. Qed.

Lemma arp_reads_unique arp f g :
  arp_reads arp f → arp_reads arp g → outer_src_mac f = outer_src_mac g →
  arp_packet_len f = arp_packet_len g → f = g.
Proof.
  intros (A1 & A2 & A3 & A4 & A5) (B1 & B2 & B3 & B4 & B5) Hm Hl. destruct f, g. simpl in *.
  f_equal; [congruence|apply mac_bytes_inj|apply ip4_bytes_inj|apply mac_bytes_inj|apply ip4_bytes_inj|done..];
    congruence.
Qed.

(** Both parses treat a network layer alike. *)
Definition decode_view (len : Z) (l : option LinkSlice) (v : NetView) (ts : option TransportSlice) :
    decoding DecodedFrame :=
  match v with
  | IpView src dst n => Some (inr (DIp (build_parsed (src, dst, n) ts len)))
  | ArpView arp => decode_arp arp l len
  end.

Lemma view_reads_iff input len l v ts r :
  view_sized input v → view_reads len l v ts r ↔ decode_view len l v ts = Some r.
Proof.
  intros Hv. destruct v as [src dst n|arp]; simpl.
  { split; [by inversion 1; naive_solver|]. intros [= <-].
    destruct ts as [[]|]; simpl; constructor; auto. }
  destruct Hv as (Hs & _). pose proof (extract_arp_frame_exact arp (link_source l) len Hs) as Hx.
  unfold decode_arp. case_decide as Ha.
  - destruct Hx as (f & -> & Hr & Hm & Hz). simpl. split.
    + inversion 1 as [| | | |? ? g ? Hg Hgm Hgl|]; [|done]. subst.
      do 3 f_equal. apply (arp_reads_unique arp); congruence.
    + intros [= <-]. by constructor.
  - rewrite Hx. simpl. split; [by inversion 1|]. intros [= <-]. by constructor.
Qed.

Section outcome.
Context `{EP : Etherparse}.

(** The answer of the strict slicer of the link type. *)
Inductive strict_of (data : list Z) (dl : DataLink) : SliceError + SlicedPacket → Prop :=
  | strict_of_ethernet : dl = ETHERNET → strict_of data dl (from_ethernet data)
  | strict_of_ip : dl ≠ ETHERNET → dl ∈ [RAW; IPV4; IPV6] → strict_of data dl (from_ip data)
  | strict_of_sll : dl ∉ [ETHERNET; RAW; IPV4; IPV6] → dl = LINUX_SLL → strict_of data dl (from_linux_sll data).

Definition or_parse_error (r : string + LaxSlicedPacket) : DecodeError + LaxSlicedPacket :=
  match r with inl e => inl (ParseError e) | inr l => inr l end.

(** The answer of the lax one.  The crate has none for Linux cooked captures:
    what follows the sixteen bytes of the header is sliced by the protocol type
    in its last two. *)
Inductive lax_of (data : list Z) (dl : DataLink) : DecodeError + LaxSlicedPacket → Prop :=
  | lax_of_ethernet : dl = ETHERNET → lax_of data dl (or_parse_error (lax_from_ethernet data))
  | lax_of_ip :
      dl ≠ ETHERNET → dl ∈ [RAW; IPV4; IPV6] → lax_of data dl (or_parse_error (lax_from_ip data))
  | lax_of_sll header hi lo rest :
      dl ∉ [ETHERNET; RAW; IPV4; IPV6] → dl = LINUX_SLL →
      zlen header = 14 → data = header ++ hi :: lo :: rest →
      lax_of data dl (inr (lax_from_ether_type (hi * 256 + lo) rest))
  | lax_of_short :
      dl ∉ [ETHERNET; RAW; IPV4; IPV6] → dl = LINUX_SLL → zlen data < 16 →
      lax_of data dl (inl SllTruncated).

(** The fixed ARP header after the link layer is there and is not that of an
    Ethernet/IPv4 packet. *)
Definition foreign_header (data : list Z) (l : LaxSlicedPacket) : Prop :=
  ∃ m before header rest,
    lax_link l = Some (Ethernet2 m) ∧ data = before ++ header ++ rest ∧
    zlen before = 14 + foldr Z.add 0 (lax_link_exts l) ∧ zlen header = 6 ∧ 2 ≤ zlen rest ∧
    header ≠ eth_ipv4_arp.

Inductive outcome (data : list Z) (dl : DataLink) : DecodeError + DecodedFrame → Prop :=
  | out_unsupported :
      dl ∉ [ETHERNET; RAW; IPV4; IPV6; LINUX_SLL] →
      outcome data dl (inl (UnsupportedLink (datalink_debug dl)))
  | out_parse_error e :
      strict_of data dl (inl (SliceOther e)) → outcome data dl (inl (ParseError e))
  | out_strict s n r :
      strict_of data dl (inr s) → net s = Some n →
      view_reads (zlen data) (link s) (strict_view n) (transport_slice s) r → outcome data dl r
  | out_no_ip s : strict_of data dl (inr s) → net s = None → outcome data dl (inl NoIpLayer)
  | out_lax_error e :
      strict_of data dl (inl SliceLen) → lax_of data dl (inl e) → outcome data dl (inl e)
  | out_lax l n r :
      strict_of data dl (inl SliceLen) → lax_of data dl (inr l) → lax_net l = Some n →
      view_reads (zlen data) (lax_link l) (lax_view n) (lax_transport l) r → outcome data dl r
  | out_lax_no_ip l :
      strict_of data dl (inl SliceLen) → lax_of data dl (inr l) → lax_net l = None →
      lax_stop_layer l ≠ Some Layer_Arp → outcome data dl (inl NoIpLayer)
  | out_lax_foreign_arp l :
      strict_of data dl (inl SliceLen) → lax_of data dl (inr l) → lax_net l = None →
      lax_stop_layer l = Some Layer_Arp → foreign_header data l → outcome data dl (inl NonEthernetArp)
  | out_lax_truncated_arp l :
      strict_of data dl (inl SliceLen) → lax_of data dl (inr l) → lax_net l = None →
      lax_stop_layer l = Some Layer_Arp → ¬ foreign_header data l → outcome data dl (inl TruncatedArp).

Lemma strict_of_iff data dl x : strict_of data dl x ↔ strict_parse data dl = Some x.
Proof.
  unfold strict_parse. split.
  - destruct 1 as [->|Hne Hin|Hni ->]; [by rewrite decide_True| |].
    + rewrite decide_False, decide_True by (done || set_solver). done.
    + rewrite !decide_False, decide_True by (done || set_solver). done.
  - repeat case_decide; intros [= <-]; constructor; set_solver.
Qed.

Lemma sll_split (data : list Z) :
  16 ≤ zlen data → ∃ header hi lo rest, zlen header = 14 ∧ data = header ++ hi :: lo :: rest.
Proof.
  intros Hl. exists (take 14 data). destruct (drop 14 data) as [|hi [|lo rest]] eqn:E.
  3: { exists hi, lo, rest. rewrite <-E, take_drop. split; [|done]. unfold zlen in *. rewrite length_take. lia. }
  all: apply (f_equal length) in E; rewrite length_drop in E; unfold zlen in Hl; simpl in E; lia.
Qed.

Lemma slice_cons2 (header : list Z) hi lo rest :
  zlen header = 14 →
  slice (header ++ hi :: lo :: rest) (SLL_HEADER_LEN - 2) SLL_HEADER_LEN = Some [hi; lo] ∧
  slice (header ++ hi :: lo :: rest) SLL_HEADER_LEN (zlen (header ++ hi :: lo :: rest)) = Some rest.
Proof.
  intros Hh. unfold SLL_HEADER_LEN. pose proof (zlen_nonneg rest).
  split; rewrite slice_Some by (autorewrite with zlen; lia); f_equal.
  - replace (16 - 2) with (zlen header) by lia. rewrite drop_zlen_app. by replace (16 - zlen header) with 2 by lia.
  - change (header ++ hi :: lo :: rest) with (header ++ [hi; lo] ++ rest). rewrite app_assoc.
    replace 16 with (zlen (header ++ [hi; lo])) by (autorewrite with zlen; lia). rewrite drop_zlen_app.
    rewrite zlen_app. apply take_ge. unfold zlen. lia.
Qed.

Lemma lax_of_iff data dl y x :
  Forall is_u8 data → strict_of data dl y → lax_of data dl x ↔ lax_parse data dl = Some x.
Proof.
  intros Hu Hy. unfold lax_parse. split.
  - destruct 1 as [->|Hne Hin|header hi lo rest Hni -> Hh ->|Hni -> Hs]; [by rewrite decide_True| | |].
    + rewrite decide_False, decide_True by (done || set_solver). done.
    + rewrite !decide_False, decide_True by (done || set_solver).
      destruct (slice_cons2 header hi lo rest Hh) as [-> E]. cbn [mbind option_bind index]. simpl index.
      change (index [hi; lo] 0) with (Some hi). change (index [hi; lo] 1) with (Some lo).
      cbn [mbind option_bind]. rewrite E. cbn [mbind option_bind].
      apply Forall_app in Hu as [_ Hu]. inversion_clear Hu as [|? ? Hhi Hu']. inversion_clear Hu' as [|? ? Hlo _].
      by rewrite u16_be_small.
    + rewrite !decide_False, decide_True by (done || set_solver).
      destruct (slice data _ _) eqn:E; [|done]. apply slice_inv in E as (_ & Hl & _).
      unfold SLL_HEADER_LEN in Hl. lia.
  - case_decide; [intros [= <-]; by constructor|]. case_decide; [intros [= <-]; constructor; set_solver|].
    case_decide as Hsll; [|destruct Hy; set_solver]. destruct (decide (zlen data < 16)) as [Hs|Hs].
    + destruct (slice data _ _) eqn:E.
      { apply slice_inv in E as (_ & Hl & _). unfold SLL_HEADER_LEN in Hl. lia. }
      intros [= <-]. constructor; set_solver.
    + destruct (sll_split data) as (header & hi & lo & rest & Hh & ->); [lia|].
      destruct (slice_cons2 header hi lo rest Hh) as [-> E].
      change (index [hi; lo] 0) with (Some hi). change (index [hi; lo] 1) with (Some lo).
      cbn [mbind option_bind]. rewrite E. intros [= <-].
      apply Forall_app in Hu as [_ Hu]. inversion_clear Hu as [|? ? Hhi Hu']. inversion_clear Hu' as [|? ? Hlo _].
      rewrite u16_be_small by done. eapply lax_of_sll; [set_solver|done|done|done].
Qed.

(** The code's reading of the header agrees. *)
Lemma arp_header_malformed_iff data l o :
  Forall is_u8 data → zlen data ≤ isize_max →
  (∀ m, lax_link l = Some (Ethernet2 m) → Forall (λ n, 0 ≤ n) (lax_link_exts l) ∧
    14 + foldr Z.add 0 (lax_link_exts l) ≤ zlen data) →
  arp_offset l = Some o → ∃ b : bool, arp_header_malformed data o = Some b ∧ (b ↔ foreign_header data l).
Proof.
  intros Hu Hz Hx Eo. unfold arp_offset in Eo. destruct (lax_link l) as [[m|]|] eqn:El.
  2,3: simplify_eq; exists false; split; [done|]; split; [done|]; intros (? & ? & ? & ? & ? & _); congruence.
  destruct (Hx m eq_refl) as [Hp Hs]. unfold checked_sum in Eo.
  assert (0 ≤ foldr Z.add 0 (lax_link_exts l)) by (clear - Hp; induction Hp; simpl; lia).
  rewrite checked_sum_Some in Eo by (done || ulia). cbn [mbind option_bind] in Eo.
  rewrite (cadd_Some usize_max 14) in Eo by ulia. cbn [mbind option_bind] in Eo. injection Eo as <-.
  set (n := 14 + (0 + foldr Z.add 0 (lax_link_exts l))) in *.
  destruct (decide (n + 8 ≤ zlen data)) as [Hl|Hl].
  - assert (∃ b0 b1 b2 b3 h p b6 b7 rest, drop (Z.to_nat n) data = b0 :: b1 :: b2 :: b3 :: h :: p :: b6 :: b7 :: rest)
      as (b0 & b1 & b2 & b3 & h & p & b6 & b7 & rest & Ed).
    { apply fixed_header_cases. rewrite zlen_drop by lia. lia. }
    assert (Forall is_u8 (drop (Z.to_nat n) data)) as Hd by by apply Forall_drop. rewrite Ed in Hd.
    do 4 (apply Forall_cons in Hd as [? Hd]).
    erewrite arp_header_malformed_at; [|ulia|].
    2: { rewrite slice_Some by lia. replace (n + 8 - n) with 8 by lia. by rewrite Ed. }
    rewrite header_guard by done. eexists. split; [done|]. rewrite Is_true_true, negb_true_iff, bool_decide_eq_false. split.
    + intros Hne. exists m, (take (Z.to_nat n) data), [b0; b1; b2; b3; h; p], (b6 :: b7 :: rest).
      split_and!; [done| | |done|autorewrite with zlen; pose proof (zlen_nonneg rest); lia|done].
      * rewrite <-(take_drop (Z.to_nat n) data) at 1. by rewrite Ed.
      * unfold zlen in *. rewrite length_take. lia.
    + intros (m' & before & header & tail & _ & -> & Hb & Hh & _ & Hne) Eh. apply Hne. rewrite <-Eh.
      assert (n = zlen before) as En by lia. rewrite En, drop_zlen_app in Ed.
      destruct header as [|? [|? [|? [|? [|? [|? []]]]]]]; try (unfold zlen in Hh; simpl in Hh; lia). simpl in Ed. congruence.
  - exists false. split.
    + unfold arp_header_malformed. rewrite cadd_Some by ulia. cbn [mbind option_bind].
      destruct (slice data n (n + 8)) eqn:E; [|done]. apply slice_inv in E as (_ & ? & _). lia.
    + split; [done|]. intros (m' & before & header & tail & _ & -> & Hb & Hh & Ht & _).
      rewrite !zlen_app in Hl. lia.
Qed.

Lemma decode_strict_view data s n :
  net s = Some n →
  decode_strict data s = decode_view (zlen data) (link s) (strict_view n) (transport_slice s).
Proof. unfold decode_strict. intros ->. by destruct n. Qed.

Lemma decode_lax_view data l n :
  lax_net l = Some n →
  decode_lax data l = decode_view (zlen data) (lax_link l) (lax_view n) (lax_transport l).
Proof. unfold decode_lax. intros ->. by destruct n. Qed.

Lemma decode_truncated data dl x :
  Forall is_u8 data → strict_of data dl (inl SliceLen) → lax_of data dl x →
  decode_packet data dl = match x with inl e => Some (inl e) | inr l => decode_lax data l end.
Proof.
  intros Hu Hs Hl. pose proof (proj1 (lax_of_iff data dl _ x Hu Hs) Hl) as El.
  apply strict_of_iff in Hs. unfold decode_packet. by rewrite Hs, El.
Qed.

Context `{!EtherparseLaws}.

Lemma lax_of_sized data dl y l :
  Forall is_u8 data → strict_of data dl y → lax_of data dl (inr l) →
  layers_sized data (lax_link l) (lax_view <$> lax_net l) (lax_transport l) ∧
  (∀ m, lax_link l = Some (Ethernet2 m) → Forall (λ n, 0 ≤ n) (lax_link_exts l) ∧
    14 + foldr Z.add 0 (lax_link_exts l) ≤ zlen data).
Proof. intros Hu Hs Hl. apply (lax_layers data dl); [done|]. by apply (lax_of_iff data dl y). Qed.

(** Where the lax slicer stopped at the ARP layer. *)
Lemma decode_unsliced_exact data dl l :
  Forall is_u8 data → zlen data ≤ isize_max →
  strict_of data dl (inl SliceLen) → lax_of data dl (inr l) →
  lax_net l = None → lax_stop_layer l = Some Layer_Arp →
  ∃ b : bool, decode_packet data dl = Some (inl (if b then NonEthernetArp else TruncatedArp)) ∧
    (b ↔ foreign_header data l).
Proof.
  intros Hu Hz Hs Hl Hn Hst. rewrite (decode_truncated data dl (inr l)) by done.
  destruct (lax_of_sized data dl _ l Hu Hs Hl) as [_ Hx]. unfold decode_lax. rewrite Hn.
  destruct (decode_unsliced_total data l Hz Hx) as [e E]. unfold decode_unsliced in *.
  rewrite decide_True in E |- * by done. peel E. rewrite E0.
  destruct (arp_header_malformed_iff data l x Hu Hz Hx E0) as (b & Eb & Hb).
  cbn [mbind option_bind]. rewrite Eb. by exists b.
Qed.

Lemma outcome_decode data dl r :
  Forall is_u8 data → zlen data ≤ isize_max → outcome data dl r → decode_packet data dl = Some r.
Proof.
  intros Hu Hz. destruct 1 as [Hn|e Hs|s n r Hs Hn Hr|s Hs Hn|e Hs Hl|l n r Hs Hl Hn Hr|l Hs Hl Hn Hst
    |l Hs Hl Hn Hst Hf|l Hs Hl Hn Hst Hf].
  - assert (strict_parse data dl = None) as E.
    { unfold strict_parse. rewrite !decide_False by set_solver. done. }
    unfold decode_packet. by rewrite E.
  - apply strict_of_iff in Hs. unfold decode_packet. by rewrite Hs.
  - apply strict_of_iff in Hs. unfold decode_packet. rewrite Hs, (decode_strict_view _ _ n) by done.
    apply (view_reads_iff data); [|done].
    apply (ls_net _ _ _ _ (strict_layers data dl s Hu Hs)). by rewrite Hn.
  - apply strict_of_iff in Hs. unfold decode_packet. rewrite Hs. unfold decode_strict. by rewrite Hn.
  - by rewrite (decode_truncated data dl (inl e)).
  - rewrite (decode_truncated data dl (inr l)), (decode_lax_view _ _ n) by done.
    apply (view_reads_iff data); [|done].
    destruct (lax_of_sized data dl _ l Hu Hs Hl) as [Hx _]. apply (ls_net _ _ _ _ Hx). by rewrite Hn.
  - rewrite (decode_truncated data dl (inr l)) by done. unfold decode_lax, decode_unsliced.
    by rewrite Hn, decide_False.
  - destruct (decode_unsliced_exact data dl l) as (b & -> & Hb); [done..|]. apply Hb in Hf. by destruct b.
  - destruct (decode_unsliced_exact data dl l) as (b & -> & Hb); [done..|].
    destruct b; [|done]. by destruct Hf; apply Hb.
Qed.

(** Some outcome always applies. *)
Lemma outcome_total data dl :
  Forall is_u8 data → zlen data ≤ isize_max → ∃ r, outcome data dl r.
Proof.
  intros Hu Hz. destruct (strict_parse data dl) as [y|] eqn:Es.
  2: { eexists. apply out_unsupported. unfold strict_parse in Es. repeat case_decide; set_solver. }
  pose proof (proj2 (strict_of_iff data dl y) Es) as Hy. destruct y as [[|e]|s].
  - destruct (lax_parse_total data dl) as [x El]. pose proof (proj2 (lax_of_iff data dl _ x Hu Hy) El) as Hl.
    destruct x as [e|l]; [eexists; by apply out_lax_error|].
    destruct (lax_net l) as [n|] eqn:Hn.
    + destruct (decode_lax_total data dl l Hu Hz El) as (r & Er & _). exists r. eapply out_lax; [done..|].
      rewrite (decode_lax_view _ _ n) in Er by done. apply (view_reads_iff data); [|done].
      destruct (lax_of_sized data dl _ l Hu Hy Hl) as [Hx _]. apply (ls_net _ _ _ _ Hx). by rewrite Hn.
    + destruct (decide (lax_stop_layer l = Some Layer_Arp)) as [Hst|Hst]; [|eexists; by eapply out_lax_no_ip].
      destruct (decode_unsliced_exact data dl l) as (b & _ & Hb); [done..|].
      destruct b; [eexists; by eapply out_lax_foreign_arp, Hb|].
      eexists. eapply out_lax_truncated_arp; [done..|]. by intros Hf%Hb.
  - eexists. by apply out_parse_error.
  - destruct (net s) as [n|] eqn:Hn; [|eexists; by eapply out_no_ip].
    destruct (decode_strict_total data dl s Hu Es) as (r & Er & _). exists r. eapply out_strict; [done..|].
    rewrite (decode_strict_view _ _ n) in Er by done. apply (view_reads_iff data); [|done].
    apply (ls_net _ _ _ _ (strict_layers data dl s Hu Es)). by rewrite Hn.
Qed.

(** C38. The decoder is total and its result is exact.  Any frame of any link
    type decodes without a panic, and the result is the one outcome that the
    answers of the slicers allow ([outcome]): a packet whose addresses, ports,
    sequence number, flags and payload are those of the layers the strict
    slicer found, or the lax one exactly when the strict one ran out of bytes;
    an ARP frame with the addresses of the slice and the link's source, only
    for Ethernet/IPv4; or the error that says why not.  What is decoded keeps
    within its types: the captured length, a payload that is a contiguous part
    of the frame, every number within its width, and no payload when no
    transport header was recovered. *)
Theorem decode_packet_exact data dl :
  Forall is_u8 data → zlen data ≤ isize_max →
  ∃ r, decode_packet data dl = Some r ∧ (∀ r', outcome data dl r' ↔ r' = r) ∧
    ∀ f, r = inr f → frame_ok data f.
Proof.
  intros Hu Hz. destruct (decode_packet_ok data dl Hu Hz) as (r & E & Hok).
  exists r. split_and!; [done| |done]. intros r'. split.
  - intros Ho%outcome_decode; [congruence|done..].
  - intros ->. destruct (outcome_total data dl Hu Hz) as [r' Ho].
    pose proof (outcome_decode data dl r' Hu Hz Ho). congruence.
Qed.
End outcome.

(** ** Telling malformed ARP frames apart by text *)

Lemma contains_skip x sub c s :
  c ≠ x → contains (String x sub) (String c s) = contains (String x sub) s.
Proof.
  intros Hc. unfold contains. cbn [String.index String.prefix].
  destruct (Ascii.ascii_dec x c) as [->|_]; [done|]. by destruct (String.index 0 (String x sub) s).
Qed.

(** The text test is exact.  An error of the decoder contains the text
    "Non-Ethernet/IPv4 ARP frame", the test by which [main.rs] recognises
    malformed ARP frames, exactly when it is that error, provided the messages
    of the crates do not contain it. *)
Theorem malformed_arp_text e :
  (∀ d, e = UnsupportedLink d ∨ e = ParseError d → contains "Non-Ethernet/IPv4 ARP frame" d = false) →
  contains "Non-Ethernet/IPv4 ARP frame" (decode_error_text e) = bool_decide (e = NonEthernetArp).
Proof.
  intros Hd. destruct e as [d| | | | |d]; try (vm_compute; reflexivity); rewrite bool_decide_eq_false_2 by done;
    lazy beta iota delta [decode_error_text String.append]; rewrite !contains_skip by discriminate; apply Hd; auto.
Qed.

(** ** A small slicer

    Ethernet frames of type ARP with up to three tags, and IPv4 packets without
    options over TCP or UDP: a concrete crate that meets the laws. *)

Module TinySlicer.

Fixpoint strip_tags (n : nat) (l : list Z) : nat * list Z :=
  match n, l with
  | S n, a :: b :: _ :: _ :: rest =>
      if (a =? 0x81) && (b =? 0) then let '(k, rest) := strip_tags n rest in (S k, rest) else (0%nat, l)
  | _, _ => (0%nat, l)
  end.

(** Source address, number of tags and body of an ARP frame. *)
Definition arp_of_ethernet (data : list Z) : option (Mac * nat * list Z) :=
  src ← mac_of (take 6 (drop 6 data));
  let '(k, l) := strip_tags 3 (drop 12 data) in
  match l with
  | a :: b :: body => if (a =? 0x08) && (b =? 0x06) then Some (src, k, body) else None
  | _ => None
  end.

Definition byte_at (data : list Z) (i : nat) : Z := default 0 (data !! i).
Definition u16_at (data : list Z) (i : nat) : Z := u16_be (byte_at data i) (byte_at data (S i)).
Definition u32_at (data : list Z) (i : nat) : Z :=
  u32_be (byte_at data i) (byte_at data (S i)) (byte_at data (S (S i))) (byte_at data (S (S (S i)))).

Definition slice_ipv4 (data : list Z) : SliceError + SlicedPacket :=
  if negb (byte_at data 0 =? 0x45) then inl (SliceOther "bad version or header length")
  else if zlen data <? 28 then inl SliceLen
  else
    let proto := byte_at data 9 in
    inr (mkSliced None (Some (NetIpv4 (u32_at data 12) (u32_at data 16) proto))
      (if proto =? 6 then
         let flag n := Z.testbit (byte_at data 33) n in
         Some (SliceTcp (u16_at data 20) (u16_at data 22) (u32_at data 24)
           (flag 1) (flag 4) (flag 0) (flag 2) (drop 40 data))
       else if proto =? 17 then Some (SliceUdp (u16_at data 20) (u16_at data 22) (drop 28 data))
       else None)).

Definition slice_ethernet (data : list Z) : SliceError + SlicedPacket :=
  match arp_of_ethernet data with
  | Some (src, _, body) =>
      match arp_from_slice body with
      | Some a => inr (mkSliced (Some (Ethernet2 src)) (Some (NetArp a)) None)
      | None => inl SliceLen
      end
  | None => inr (mkSliced None None None)
  end.

(** Link, extensions, network slice and whether it stopped at the ARP layer. *)
Definition tiny_lax : Type := option LinkSlice * list Z * option LaxNetSlice * option bool.

Definition lax_slice_ethernet (data : list Z) : string + tiny_lax :=
  match arp_of_ethernet data with
  | Some (src, k, body) =>
      inr (Some (Ethernet2 src), replicate k 4, LaxArp <$> arp_from_slice body,
        match arp_from_slice body with Some _ => None | None => Some true end)
  | None => inl "no lax result"%string
  end.

(** Records of a time, a length and that many bytes. *)
Fixpoint tiny_records (fuel : nat) (l : list Z) : list (unit + (Z * Z * list Z)) :=
  match fuel, l with
  | S fuel, ts :: len :: rest => inr (ts, 0, take (Z.to_nat len) rest) :: tiny_records fuel (drop (Z.to_nat len) rest)
  | _, _ => []
  end.

(** Classic files of a magic, a link type and records. *)
Definition tiny_pcap_file : PcapFile := {|
  DataLink := Z;
  DataLink_eq_dec := _;
  DataLink_from n := n;
  ETHERNET := 1; RAW := 101; IPV4 := 228; IPV6 := 229; LINUX_SLL := 113;
  PcapError := unit;
  invalid_field _ := None;
  error_string _ := EmptyString;
  PcapNgParser := unit;
  ng_new _ := inl tt;
  section_major _ := 1;
  section_endianness _ := Little;
  next_raw_block _ _ := inl tt;
  pcap_new src :=
    match filled src with
    | Some (_ :: _ :: _ :: _ :: link :: rest) => inr (link, MicroSecond, tiny_records (length rest) rest)
    | _ => inl tt
    end
|}.

#[export] Existing Instance tiny_pcap_file.

#[export] Instance tiny_etherparse : Etherparse := {|
  Layer := bool;
  Layer_eq_dec := _;
  Layer_Arp := true;
  LaxSlicedPacket := tiny_lax;
  lax_link l := l.1.1.1;
  lax_link_exts l := l.1.1.2;
  lax_net l := l.1.2;
  lax_transport _ := None;
  lax_stop_layer l := l.2;
  from_ethernet := slice_ethernet;
  from_ip := slice_ipv4;
  from_linux_sll _ := inl (SliceOther "unsupported");
  lax_from_ethernet := lax_slice_ethernet;
  lax_from_ip _ := inl "no lax result"%string;
  lax_from_ether_type _ _ := (None, [], None, None);
  datalink_debug _ := "DataLink"%string
|}.

Lemma arp_from_slice_sized data body a :
  Forall is_u8 data → within body data → arp_from_slice body = Some a → view_sized data (ArpView a).
Proof.
  intros Hu Hw. assert (Forall is_u8 body) as Hb by by eapply within_Forall.
  assert (∀ n l, within (take n l) body → within (take n l) data) as Ht
    by (intros; by eapply within_trans). unfold arp_from_slice.
  destruct body as [|b0 [|b1 [|b2 [|b3 [|h [|p [|b6 [|b7 rest]]]]]]]]; try done.
  destruct (Z.leb_spec (2 * h + 2 * p) (zlen rest)) as [Hl|]; [|done]. intros [= <-].
  assert (∀ n k, within (take n (drop k rest)) data) as Hr.
  { intros n k. apply Ht. exists ([b0; b1; b2; b3; h; p; b6; b7] ++ take k rest), (drop n (drop k rest)).
    rewrite <-!app_assoc, !take_drop. done. }
  do 4 (apply Forall_cons in Hb as [_ Hb]). apply Forall_cons in Hb as [Hh Hb]. apply Forall_cons in Hb as [Hp _].
  split; [|split_and!; [apply u16_be_u16|exact (Hr _ 0%nat)|apply Hr..]].
  unfold is_u8, arp_sized, zlen in *. cbn -[Z.mul] in *. rewrite !length_take, !length_drop. lia.
Qed.

Lemma strip_tags_suffix n l : let '(k, rest) := strip_tags n l in
  4 * Z.of_nat k + zlen rest = zlen l ∧ within rest l.
Proof.
  revert l. induction n as [|n IH]; intros l; simpl; [split; [done|apply within_refl]|].
  destruct l as [|a [|b [|c [|d l]]]]; try (split; [done|apply within_refl]).
  destruct (_ && _); [|split; [done|apply within_refl]].
  specialize (IH l). destruct (strip_tags n l) as [k rest]. destruct IH as [IH1 IH2]. split.
  - autorewrite with zlen. lia.
  - by apply (within_drop 4).
Qed.

Lemma strip_tags_vlan n tags l :
  (length tags ≤ n)%nat → hd 0 l ≠ 0x81 →
  strip_tags n (concat (vlan_tag <$> tags) ++ l) = (length tags, l).
Proof.
  revert n. induction tags as [|t tags IH]; intros n Hn Hl.
  - destruct n, l as [|a [|b [|c [|d l]]]]; try done. simpl in *. by rewrite (proj2 (Z.eqb_neq _ _) Hl).
  - destruct n as [|n]; simpl in Hn; [lia|].
    rewrite fmap_cons. cbn [concat vlan_tag app strip_tags Z.eqb andb]. simpl. by rewrite (IH n) by (done || lia).
Qed.

Lemma arp_of_ethernet_arp dst src tags body :
  (length tags ≤ 3)%nat → arp_of_ethernet (ethernet_arp dst src tags body) = Some (src, length tags, body).
Proof.
  intros Ht. unfold arp_of_ethernet, ethernet_arp.
  destruct dst as [[[[[d1 d2] d3] d4] d5] d6], src as [[[[[s1 s2] s3] s4] s5] s6].
  cbn [mac_bytes app drop take mac_of mbind option_bind]. rewrite take_0, drop_0. cbn [mbind option_bind].
  by rewrite (strip_tags_vlan 3 tags (8 :: 6 :: body)) by done.
Qed.

Lemma mac_of_inv l m : mac_of l = Some m → l = mac_bytes m.
Proof. destruct l as [|? [|? [|? [|? [|? [|? []]]]]]]; try done. by intros [= <-]. Qed.

Lemma arp_of_ethernet_inv data src k body :
  arp_of_ethernet data = Some (src, k, body) →
  14 + 4 * Z.of_nat k ≤ zlen data ∧ within body data ∧ within (mac_bytes src) data.
Proof.
  unfold arp_of_ethernet. destruct (mac_of _) as [m|] eqn:Em; [|done]. cbn [mbind option_bind].
  apply mac_of_inv in Em. assert (within (mac_bytes m) data) as Hm.
  { rewrite <-Em. apply (within_drop 6), (within_take 6), within_refl. }
  assert (12 ≤ zlen data) as Hd.
  { assert (zlen (take 6 (drop 6 data)) = 6) as H6 by (rewrite Em; by destruct m as [[[[[]]]]]).
    unfold zlen in *. rewrite length_take, length_drop in H6. lia. }
  pose proof (strip_tags_suffix 3 (drop 12 data)) as Hs. destruct (strip_tags 3 (drop 12 data)) as [k' rest].
  destruct Hs as [Hs1 Hs2]. pose proof (zlen_drop data 12) as H12. change (Z.to_nat 12) with 12%nat in H12. rewrite H12 in Hs1 by lia.
  destruct rest as [|a [|b rest]]; cbn [mbind option_bind]; [done..|].
  destruct ((a =? 8) && (b =? 6)); [|done]. intros [= <- <- <-].
  split; [autorewrite with zlen in Hs1; pose proof (zlen_nonneg rest); lia|]. split; [|done].
  apply (within_drop 12). eapply within_trans; [|exact Hs2]. by apply (within_drop 2), within_refl.
Qed.

#[export] Instance tiny_arp_slicing : ArpSlicing.
Proof.
  split.
  - intros dst src tags body Ht. cbn [from_ethernet tiny_etherparse]. unfold slice_ethernet.
    by rewrite arp_of_ethernet_arp.
  - intros dst src tags body Ht. eexists. cbn [lax_from_ethernet tiny_etherparse]. unfold lax_slice_ethernet.
    rewrite arp_of_ethernet_arp by done. split; [done|]. simpl. by destruct (arp_from_slice body).
Qed.

Lemma tiny_arp_layers data src k body :
  Forall is_u8 data → arp_of_ethernet data = Some (src, k, body) →
  layers_sized data (Some (Ethernet2 src)) (ArpView <$> arp_from_slice body) None.
Proof.
  intros Hu (_ & Hb & Hm)%arp_of_ethernet_inv. split; [|..|done].
  - intros ? [= <-]. by eapply within_Forall.
  - intros v Hv. destruct (arp_from_slice body) as [a|] eqn:Es; simplify_eq/=.
    exact (arp_from_slice_sized data body a Hu Hb Es).
Qed.

Lemma byte_at_u8 data i : Forall is_u8 data → is_u8 (byte_at data i).
Proof.
  intros Hu. unfold byte_at. destruct (data !! i) as [b|] eqn:E; [|done].
  exact (proj1 (Forall_lookup _ _) Hu _ _ E).
Qed.

#[export] Instance tiny_laws : EtherparseLaws.
Proof.
  split.
  - intros data s Hu. cbn [from_ethernet from_ip from_linux_sll tiny_etherparse]. intros [E|[E|E]]; [| |done].
    + unfold slice_ethernet in E. destruct (arp_of_ethernet data) as [[[src k] body]|] eqn:Ea.
      2: { by simplify_eq. }
      pose proof (tiny_arp_layers _ _ _ _ Hu Ea) as Hs.
      destruct (arp_from_slice body) as [a|]; by simplify_eq.
    + unfold slice_ipv4 in E. destruct (negb _); [done|]. destruct (_ <? _); simplify_eq. split; [done|..].
      * intros v [= <-]. split_and!; [apply u32_be_u32..|by apply byte_at_u8].
      * pose proof (λ n, within_drop n _ _ (within_refl (drop n data))).
        cbn [transport_slice]. destruct (_ =? 6); [|destruct (_ =? 17)]; simpl;
          split_and?; try done; apply u16_be_u16 || apply u32_be_u32.
  - intros data l Hu. cbn [lax_from_ethernet lax_from_ip lax_from_ether_type tiny_etherparse].
    intros [E|[E|[_ ->]]]; [|done|by split; [split|]].
    unfold lax_slice_ethernet in E. destruct (arp_of_ethernet data) as [[[src k] body]|] eqn:Ea; [|done]. simplify_eq.
    pose proof (tiny_arp_layers _ _ _ _ Hu Ea) as Hs. apply arp_of_ethernet_inv in Ea as [Hl _]. simpl. split.
    + by destruct (arp_from_slice body).
    + intros m _. assert (foldr Z.add 0 (replicate k 4) = 4 * Z.of_nat k) as -> by (clear; induction k; simpl; lia).
      split; [apply Forall_replicate; lia|done].
Qed.

(** ** The theorems on concrete frames *)

(** A gratuitous ARP reply behind one VLAN tag, with two bytes of padding. *)
Definition sample_arp_body : list Z :=
  eth_ipv4_arp ++ [0; 2] ++ [2; 0; 0; 0; 0; 9] ++ [10; 0; 0; 7] ++ [255; 255; 255; 255; 255; 255]
  ++ [10; 0; 0; 7] ++ [0; 0].

Definition sample_arp_frame : list Z :=
  ethernet_arp (255, 255, 255, 255, 255, 255) (2, 0, 0, 0, 0, 9) [(0, 5)] sample_arp_body.

(** A TCP segment of two bytes to port 502. *)
Definition sample_ip_frame : list Z :=
  [0x45; 0; 0; 42; 0; 0; 0; 0; 64; 6; 0; 0; 10; 0; 0; 1; 10; 0; 0; 2]
  ++ [0x9C; 0x40; 0x01; 0xF6; 0; 0; 0; 100; 0; 0; 0; 0; 0x50; 0x10; 0; 0; 0; 0; 0; 0] ++ [1; 2].

Ltac solve_bytes := repeat constructor; vm_compute; discriminate.

Lemma decode_packet_exact_witness :
  decode_packet sample_ip_frame RAW = Some (inr (DIp {|
    src_ip := V4 0x0A000001; dst_ip := V4 0x0A000002; protocol := PTcp;
    transport := TTcp 40000 502 100 false true false false; payload := [1; 2]; packet_len := 42 |})) ∧
  ∀ f, decode_packet sample_ip_frame RAW = Some (inr f) → frame_ok sample_ip_frame f.
Proof.
  destruct (decode_packet_exact sample_ip_frame RAW) as (r & E & _ & Hf);
    [solve_bytes|vm_compute; discriminate|].
  split; [vm_compute; reflexivity|]. intros f Ef. apply Hf. congruence.
Defined.

Lemma arp_classification_witness :
  decode_packet sample_arp_frame ETHERNET =
    Some (inr (DArp (mkArpFrame 2 (2, 0, 0, 0, 0, 9) (10, 0, 0, 7) (255, 255, 255, 255, 255, 255) (10, 0, 0, 7)
      (Some (2, 0, 0, 0, 0, 9)) 48))).
Proof.
  apply (arp_classification (255, 255, 255, 255, 255, 255) (2, 0, 0, 0, 0, 9) [(0, 5)] sample_arp_body)
    with (o1 := 0) (o2 := 2) (sm := (2, 0, 0, 0, 0, 9)) (si := (10, 0, 0, 7))
         (tm := (255, 255, 255, 255, 255, 255)) (ti := (10, 0, 0, 7)) (padding := [0; 0]);
    [simpl; lia|solve_bytes|vm_compute; discriminate|reflexivity].
Defined.

Lemma malformed_arp_text_witness :
  contains "Non-Ethernet/IPv4 ARP frame" (decode_error_text (ParseError "bad version or header length")) = false.
Proof.
  rewrite (malformed_arp_text (ParseError "bad version or header length")); [reflexivity|].
  intros d [E|E]; [discriminate|]. injection E as <-. reflexivity.
Defined.
End TinySlicer.
