(* ===== verification/Triage.v ===== *)
(** * Capture totals and DNS statistics (src/summary.rs, src/analyzer/dns.rs)

    The two consumers of decoded packets that keep counters only.  The theorems
    say that the counters are the counts over the packets seen. *)

From S2P Require Import Prelude FlowKey Findings Decoder.

#[local] Open Scope Z_scope.

#[global] Instance Protocol_countable : Countable Protocol.
Proof.
  apply (inj_countable'
    (λ p, match p with PTcp => inl 0 | PUdp => inl 1 | PIcmp => inl 2 | POther n => inr n end)
    (λ s, match s with inl 0 => PTcp | inl 1 => PUdp | inl _ => PIcmp | inr n => POther n end)).
  by intros [].
Defined.

(** [*map.entry(k).or_insert(0) += 1]. *)
Definition count_entry {K} `{Countable K} (m : gmap K Z) (k : K) : panicky (gmap K Z) :=
  n ← cadd u64_max (default 0 (m !! k)) 1;
  Some (<[k := n]> m).

(** ** Summary *)

Module Summary.

Record Summary := mkTotals {
  total_packets : Z;
  total_bytes : Z;
  skipped_packets : Z;
  hosts : gset IpAddr;
  protocols : gmap Protocol Z;
  services : gmap string Z
}.

#[global] Instance Summary_eta : Eta Summary := λ s,
  mkTotals (total_packets s) (total_bytes s) (skipped_packets s) (hosts s) (protocols s) (services s).

Definition Summary_new : Summary := mkTotals 0 0 0 ∅ ∅ ∅.

Definition ingest (s : Summary) (packet : ParsedPacket) : panicky Summary :=
  let s := s <| total_packets := sat_add u64_max (total_packets s) 1 |> in
  bytes ← cadd u64_max (total_bytes s) (packet_len packet);
  let s := s <| total_bytes := bytes |> in
  let s := s <| hosts := {[src_ip packet]} ∪ hosts s |> in
  let s := s <| hosts := {[dst_ip packet]} ∪ hosts s |> in
  ps ← count_entry (protocols s) (protocol packet);
  let s := s <| protocols := ps |> in
  match app_protocol_hint packet with
  | Some svc => sv ← count_entry (services s) svc; Some (s <| services := sv |>)
  | None => Some s
  end.

(** The order of [IpAddr] as a relation. *)
Definition ip_le (x y : IpAddr) : Prop := ip_cmp x y ≠ Gt.

#[global] Instance ip_le_dec : RelDecision ip_le.
Proof. intros x y. unfold ip_le. apply _. Defined.

(** [unique_hosts]: the set as a vector, sorted. *)
Definition unique_hosts (s : Summary) : list IpAddr := merge_sort ip_le (elements (hosts s)).

End Summary.

(** ** DNS *)

Module Dns.

Record DnsAnalyzer := mkDns {
  query_count : Z;
  response_count : Z
}.

#[global] Instance DnsAnalyzer_eta : Eta DnsAnalyzer := λ a, mkDns (query_count a) (response_count a).

Definition DnsAnalyzer_new : DnsAnalyzer := mkDns 0 0.

Definition is_dns_port (src dst : Z) : bool := (src =? 53) || (dst =? 53).

Definition is_query (payload : list Z) : panicky bool :=
  if zlen payload <? 12 then Some false else
  b ← index payload 2;
  Some (Z.land b 0x80 =? 0).

Definition can_decode (packet : ParsedPacket) : bool :=
  match transport packet with
  | TUdp sp dp => is_dns_port sp dp
  | TTcp sp dp _ _ _ _ _ => is_dns_port sp dp
  | TNone => false
  end.

(** [analyze]: the analyzer afterwards and its findings, always none. *)
Definition dns_analyze (a : DnsAnalyzer) (packet : ParsedPacket) : panicky (DnsAnalyzer * list Finding) :=
  q ← is_query (payload packet);
  Some (if q : bool then (a <| query_count := sat_add u64_max (query_count a) 1 |>, [])
        else (a <| response_count := sat_add u64_max (response_count a) 1 |>, [])).

Definition dns_summarize (a : DnsAnalyzer) : panicky AnalysisSummary :=
  n ← cadd u64_max (query_count a) (response_count a);
  Some (mkSummary "DNS" n
    (<["dns_responses"%string := JNum (response_count a)]>
      {["dns_queries"%string := JNum (query_count a)]})).

End Dns.

(** ** Counting *)

(** The number of elements of a list whose image is [k]. *)
Definition occurrences {A K} `{EqDecision K} (f : A → option K) (k : K) (l : list A) : Z :=
  zlen (filter (λ x, f x = Some k) l).

Lemma occurrences_cons {A K} `{EqDecision K} (f : A → option K) k x l :
  occurrences f k (x :: l) = (if decide (f x = Some k) then 1 else 0) + occurrences f k l.
Proof.
  unfold occurrences. rewrite filter_cons. case_decide; [by rewrite zlen_cons|lia].
Qed.

Lemma occurrences_bounds {A K} `{EqDecision K} (f : A → option K) k l : 0 ≤ occurrences f k l ≤ zlen l.
Proof.
  induction l as [|x l IH]; [done|]. rewrite occurrences_cons, zlen_cons. case_decide; lia.
Qed.

(** A map that holds, of each key, how often it was counted. *)
Definition counts {A K} `{Countable K} (m : gmap K Z) (f : A → option K) (l : list A) : Prop :=
  ∀ k, m !! k = if decide (occurrences f k l = 0) then None else Some (occurrences f k l).

Lemma counts_nil {A K} `{Countable K} (f : A → option K) : counts ∅ f [].
Proof. intros k. by rewrite lookup_empty. Qed.

Lemma occurrences_snoc {A K} `{EqDecision K} (f : A → option K) k l x :
  occurrences f k (l ++ [x]) = occurrences f k l + (if decide (f x = Some k) then 1 else 0).
Proof.
  induction l as [|y l IH]; simpl; rewrite ?occurrences_cons; [|rewrite IH; lia].
  unfold occurrences. simpl. rewrite Z.add_0_r, Z.add_0_l. done.
Qed.

Lemma counts_skip {A K} `{Countable K} (m : gmap K Z) (f : A → option K) l x :
  counts m f l → f x = None → counts m f (l ++ [x]).
Proof.
  intros Hm Hx k. rewrite Hm, occurrences_snoc, Hx. rewrite (decide_False (P := None = _)) by done.
  by rewrite Z.add_0_r.
Qed.

Lemma counts_entry {A K} `{Countable K} (m : gmap K Z) (f : A → option K) l x k :
  counts m f l → f x = Some k → zlen l < u64_max →
  ∃ m', count_entry m k = Some m' ∧ counts m' f (l ++ [x]).
Proof.
  intros Hm Hx Hl. unfold count_entry.
  assert (default 0 (m !! k) = occurrences f k l) as -> by (rewrite Hm; case_decide; simpl; lia).
  pose proof (occurrences_bounds f k l) as Ho. rewrite cadd_Some by lia. eexists. split; [done|].
  intros k'. rewrite occurrences_snoc, Hx. destruct (decide (k = k')) as [<-|Hne].
  - rewrite lookup_insert_eq, decide_False, (decide_True (P := Some k = _)) by (done || rewrite decide_True by done; lia). done.
  - rewrite lookup_insert_ne, Hm, (decide_False (P := Some k = _)) by (done || congruence). by rewrite Z.add_0_r.
Qed.

(** ** Totals are exact *)

Module TriageFacts.
Import Summary Dns.

Definition bytes_total (ps : list ParsedPacket) : Z := foldr (λ p n, packet_len p + n) 0 ps.

Lemma bytes_total_snoc ps p : bytes_total (ps ++ [p]) = bytes_total ps + packet_len p.
Proof. induction ps as [|q ps IH]; simpl; [lia|]. rewrite IH. lia. Qed.

(** The totals of the packets [ps]. *)
Record totals_of (ps : list ParsedPacket) (s : Summary) : Prop := {
  to_packets : total_packets s = zlen ps;
  to_bytes : total_bytes s = bytes_total ps;
  to_hosts ip : ip ∈ hosts s ↔ ∃ p, p ∈ ps ∧ (ip = src_ip p ∨ ip = dst_ip p);
  to_protocols : counts (protocols s) (λ p, Some (protocol p)) ps;
  to_services : counts (services s) app_protocol_hint ps
}.

Lemma totals_of_new : totals_of [] Summary_new.
Proof.
  split; try done; [|apply counts_nil..].
  intros ip. simpl. rewrite elem_of_empty. split; [done|]. intros (p & Hp & _). by apply not_elem_of_nil in Hp.
Qed.

Lemma ingest_totals ps s p :
  totals_of ps s → 0 ≤ packet_len p → zlen ps < u64_max → bytes_total ps + packet_len p ≤ u64_max →
  ∃ s', ingest s p = Some s' ∧ totals_of (ps ++ [p]) s'.
Proof.
  intros [Hn Hb Hh Hp Hs] Hl Hz Ht. unfold ingest. simpl. rewrite Hb, cadd_Some by done. simpl.
  destruct (counts_entry (protocols s) _ ps p (protocol p) Hp eq_refl Hz) as (m & Em & Hm).
  cbn [protocols update_field]. rewrite Em. simpl.
  assert (∀ sv, counts sv app_protocol_hint (ps ++ [p]) → totals_of (ps ++ [p])
    (mkTotals (sat_add u64_max (total_packets s) 1) (bytes_total ps + packet_len p) (skipped_packets s)
      ({[dst_ip p]} ∪ ({[src_ip p]} ∪ hosts s)) m sv)) as Hgo.
  { intros sv Hsv. split; simpl; [rewrite Hn; unfold sat_add; autorewrite with zlen; lia|by rewrite bytes_total_snoc| |done..].
    intros ip. rewrite !elem_of_union, !elem_of_singleton, Hh. setoid_rewrite elem_of_app.
    setoid_rewrite list_elem_of_singleton. naive_solver. }
  destruct (app_protocol_hint p) as [svc|] eqn:Esv.
  - destruct (counts_entry (services s) _ ps p svc Hs Esv Hz) as (sv & Ev & Hv).
    cbn [services update_field]. rewrite Ev. simpl. eexists. split; [done|]. by apply Hgo.
  - eexists. split; [done|]. apply Hgo. by apply counts_skip.
Qed.

Lemma ingest_skipped s p s' : ingest s p = Some s' → skipped_packets s' = skipped_packets s.
Proof.
  unfold ingest. simpl. destruct (cadd _ _ _); [|done]. simpl. destruct (count_entry _ _); [|done]. simpl.
  destruct (app_protocol_hint p); [destruct (count_entry _ _); [|done]|]; simpl; intros [= <-]; done.
Qed.

#[local] Instance ip_le_total : Total ip_le.
Proof. intros [a|a] [b|b]; unfold ip_le; simpl; auto; destruct (Z.compare_spec a b), (Z.compare_spec b a); auto; lia. Qed.

#[local] Instance ip_le_trans : Transitive ip_le.
Proof.
  intros [a|a] [b|b] [c|c]; unfold ip_le; simpl; try done;
    destruct (Z.compare_spec a b), (Z.compare_spec b c), (Z.compare_spec a c); try done; lia.
Qed.

Lemma unique_hosts_sorted s : StronglySorted ip_le (unique_hosts s) ∧ NoDup (unique_hosts s) ∧
  ∀ ip, ip ∈ unique_hosts s ↔ ip ∈ hosts s.
Proof.
  unfold unique_hosts. pose proof (merge_sort_Permutation ip_le (elements (hosts s))) as Hp.
  split; [apply (StronglySorted_merge_sort ip_le)|]. split.
  - apply (proj2 (NoDup_Permutation_proper _ _ Hp)), NoDup_elements.
  - intros ip. rewrite <-elem_of_elements. split; apply elem_of_Permutation_proper; [done..|]; by symmetry.
Qed.

(** *** DNS *)

Definition is_dns_query (p : ParsedPacket) : bool :=
  (12 <=? zlen (payload p)) && negb (Z.testbit (default 0 (payload p !! 2%nat)) 7).

Lemma is_query_spec p : is_query (payload p) = Some (is_dns_query p).
Proof.
  unfold is_query, is_dns_query. destruct (Z.ltb_spec (zlen (payload p)) 12), (Z.leb_spec 12 (zlen (payload p))); try lia; [done|].
  unfold index. destruct (lookup_lt_is_Some_2 (payload p) 2) as [b Eb]; [unfold zlen in *; lia|].
  change (Z.to_nat 2) with 2%nat. change (0 <=? 2) with true. cbn iota. rewrite Eb. cbn [mbind option_bind default].
  f_equal. change 0x80 with (2 ^ 7). unfold default, id.
  destruct (Z.testbit b 7) eqn:Et; cbn [negb andb]; [apply Z.eqb_neq|apply Z.eqb_eq].
  - intros E. apply (f_equal (λ z, Z.testbit z 7)) in E. rewrite Z.land_spec, Et, Z.pow2_bits_true in E by lia. done.
  - apply Z.bits_inj'. intros n Hn. rewrite Z.land_spec, Z.bits_0, Z.pow2_bits_eqb by lia.
    destruct (Z.eqb_spec 7 n) as [<-|]; [by rewrite Et|by rewrite andb_false_r].
Qed.

(** The analyzer after the packets [ps]. *)
Definition dns_of (ps : list ParsedPacket) (a : DnsAnalyzer) : Prop :=
  query_count a = zlen (filter (λ p, is_dns_query p = true) ps) ∧
  response_count a = zlen (filter (λ p, is_dns_query p = false) ps).

Lemma dns_of_split ps a : dns_of ps a → query_count a + response_count a = zlen ps.
Proof.
  intros [-> ->]. induction ps as [|p ps IH]; [done|]. rewrite !filter_cons, !zlen_cons.
  destruct (is_dns_query p); simpl; rewrite ?zlen_cons; lia.
Qed.

Lemma analyze_counts ps a p :
  dns_of ps a → zlen ps < u64_max → ∃ a', dns_analyze a p = Some (a', []) ∧ dns_of (ps ++ [p]) a'.
Proof.
  intros Hd Hz. pose proof (dns_of_split _ _ Hd). destruct Hd as [Hq Hr]. unfold dns_analyze. rewrite is_query_spec. simpl.
  unfold dns_of. rewrite !filter_app, !zlen_app. pose proof (zlen_nonneg (filter (λ p, is_dns_query p = true) ps)).
  pose proof (zlen_nonneg (filter (λ p, is_dns_query p = false) ps)).
  destruct (is_dns_query p) eqn:E; (eexists; split; [done|]); rewrite !filter_cons, E; simpl;
    unfold sat_add, zlen in *; simpl; lia.
Qed.
End TriageFacts.
