(* ===== verification/Catalog.v ===== *)
(** * Static catalogues (src/protocols.rs, src/mitre.rs)

    The protocol coverage catalogue with its partition into dissected and other
    protocols, and the ATT&CK technique table with its projections.  The text of
    the entries is that of the source. *)

From S2P Require Import Prelude Findings.

#[local] Open Scope Z_scope.
#[local] Open Scope string_scope.

(** ** Protocols *)

Module Protocols.

Inductive ProtocolCategory := ICS | IT.
Inductive Transport := TransTcp | TransUdp | LinkLayer.

#[global] Instance Transport_eq_dec : EqDecision Transport.
Proof. solve_decision. Defined.

Record KnownProtocol := mkProtocol {
  name : string;
  category : ProtocolCategory;
  transport : Transport;
  canonical_ports : list Z;
  ethertype : option Z;
  port_detectable : bool;
  description : string
}.

#[global] Instance KnownProtocol_eq_dec : EqDecision KnownProtocol.
Proof. assert (EqDecision ProtocolCategory) by solve_decision. solve_decision. Defined.

Definition SUPPORTED_PORTS : list Z := [502; 20000; 44818; 2404; 443; 8443; 80; 8080; 53].

(** The sections of the catalogue, in the order of their declaration. *)
Definition dissected_block : list KnownProtocol := [
  mkProtocol "Modbus/TCP" ICS TransTcp [502] None true
    "Modbus over TCP — IANA/Modbus App Protocol v1.1b3; ICS field-device register read/write";
  mkProtocol "DNP3" ICS TransTcp [20000] None true
    "Distributed Network Protocol 3 over TCP — IEEE Std 1815-2012; SCADA/substation master-to-outstation";
  mkProtocol "EtherNet/IP + CIP" ICS TransTcp [44818] None true
    "EtherNet/IP with Common Industrial Protocol — ODVA; TCP port 44818 (explicit messaging)";
  mkProtocol "TLS" IT TransTcp [443; 8443] None true
    "Transport Layer Security — RFC 8446; encrypted tunnel for HTTPS and OT-over-TLS";
  mkProtocol "ARP" IT LinkLayer [] None false
    "Address Resolution Protocol — RFC 826; detected via DecodedFrame::Arp (EtherType 0x0806)";
  mkProtocol "DNS" IT TransUdp [53] None true
    "Domain Name System — RFC 1035; dissected via decode-loop path (no DispatchTarget::Dns variant — by design)";
  mkProtocol "HTTP" IT TransTcp [80; 8080] None true
    "Hypertext Transfer Protocol — RFC 9110; HMI web interfaces, historian REST APIs"
].

Definition ics_tier1_block : list KnownProtocol := [
  mkProtocol "S7comm" ICS TransTcp [102] None true
    "Siemens S7 communication protocol — ISO-on-TCP/TPKT (RFC 1006); Siemens S7-300/400 PLCs; port 102 collision (S7comm/S7comm-plus/MMS/ICCP)";
  mkProtocol "S7comm-plus" ICS TransTcp [102] None true
    "Siemens S7comm+ (TIA Portal) — ISO-on-TCP/TPKT (RFC 1006); S7-1200/1500 PLCs; port 102 collision (S7comm/S7comm-plus/MMS/ICCP)";
  mkProtocol "IEC 60870-5-104" ICS TransTcp [2404] None true
    "IEC 60870-5-104 (IEC-104) — TCP-mapped IEC 60870-5-101; SCADA telecontrol; IANA-registered TCP port 2404";
  mkProtocol "IEC 61850 MMS" ICS TransTcp [102] None true
    "IEC 61850 Manufacturing Message Specification — ISO-on-TCP/TPKT (RFC 1006); substation automation; port 102 collision";
  mkProtocol "BACnet/IP" ICS TransUdp [47808] None true
    "BACnet over IP — ASHRAE 135-2016 Annex J; UDP port 47808 (0xBAC0); building automation and control";
  mkProtocol "OPC-UA" ICS TransTcp [4840] None true
    "OPC Unified Architecture binary — OPC Foundation; IANA-registered TCP port 4840; ICS data exchange";
  mkProtocol "PROFINET RPC" ICS TransUdp [34962; 34963; 34964] None true
    "PROFINET RPC (cyclic data / IO) — UDP ports 34962–34964; distinct from PROFINET RT/DCP (L2/EtherType 0x8892)";
  mkProtocol "ICCP/TASE.2" ICS TransTcp [102] None true
    "Inter-Control Center Communications Protocol / TASE.2 — IEC 60870-6; ISO-on-TCP/TPKT (RFC 1006); port 102 collision";
  mkProtocol "HART-IP" ICS TransUdp [5094] None true
    "HART-IP — FieldComm Group; UDP port 5094 (canonical); TCP also supported per HART-IP specification"
].

Definition link_layer_block : list KnownProtocol := [
  mkProtocol "IEC 61850 GOOSE" ICS LinkLayer [] (Some 0x88B8) false
    "IEC 61850 Generic Object Oriented Substation Event — EtherType 0x88B8 (35000); L2 multicast; substation protection";
  mkProtocol "IEC 61850 Sampled Values" ICS LinkLayer [] (Some 0x88BA) false
    "IEC 61850 Sampled Values — EtherType 0x88BA (35002); L2 multicast; merging unit current/voltage samples";
  mkProtocol "PROFINET RT/DCP" ICS LinkLayer [] (Some 0x8892) false
    "PROFINET Real-Time / Device Configuration Protocol — EtherType 0x8892 (34962); L2; Siemens/Profibus device discovery";
  mkProtocol "EtherCAT" ICS LinkLayer [] (Some 0x88A4) false
    "EtherCAT — EtherType 0x88A4 (34980); L2; Beckhoff real-time fieldbus for motion control";
  mkProtocol "Ethernet POWERLINK" ICS LinkLayer [] (Some 0x88AB) false
    "Ethernet POWERLINK — EtherType 0x88AB (34987); L2; EPSG V2 (current); obsolete V1 value 0x3E3F intentionally excluded"
].

Definition it_core_block : list KnownProtocol := [
  mkProtocol "SSH" IT TransTcp [22] None true
    "Secure Shell — RFC 4253; remote admin of PLCs/gateways; lateral movement vector in OT environments";
  mkProtocol "SMB" IT TransTcp [445] None true
    "Server Message Block — MS-SMB2; engineering workstations; WannaCry/Industroyer attack vector";
  mkProtocol "RDP" IT TransTcp [3389] None true
    "Remote Desktop Protocol — MS-RDPBCGR; HMI/EWS remote access; top OT intrusion vector";
  mkProtocol "FTP" IT TransTcp [21] None true
    "File Transfer Protocol — RFC 959; firmware and configuration transfer to/from field devices";
  mkProtocol "Telnet" IT TransTcp [23] None true
    "Telnet — RFC 854; legacy cleartext device CLI; common on older PLCs and network equipment";
  mkProtocol "SNMP" IT TransUdp [161; 162] None true
    "Simple Network Management Protocol — RFC 3411; device management and monitoring (traps on UDP/162)";
  mkProtocol "NTP" IT TransUdp [123] None true
    "Network Time Protocol — RFC 5905; time synchronisation critical for SV/GOOSE/SCADA timestamps";
  mkProtocol "SMTP" IT TransTcp [25] None true
    "Simple Mail Transfer Protocol — RFC 5321; alarm email from historians and RTUs";
  mkProtocol "LDAP" IT TransTcp [389] None true
    "Lightweight Directory Access Protocol — RFC 4511; Active Directory authentication in IT/OT DMZ environments"
].

Definition KNOWN_PROTOCOLS : list KnownProtocol :=
  dissected_block ++ ics_tier1_block ++ link_layer_block ++ it_core_block.

Definition all_protocols : list KnownProtocol := KNOWN_PROTOCOLS.

Definition port_supported (port : Z) : bool := bool_decide (port ∈ SUPPORTED_PORTS).

Definition supported_protocols : list KnownProtocol :=
  filter (λ p, existsb port_supported (canonical_ports p) || (name p =? "ARP")) KNOWN_PROTOCOLS.

Definition unsupported_protocols : list KnownProtocol :=
  let supported := name <$> supported_protocols in
  filter (λ p, name p ∉ supported) KNOWN_PROTOCOLS.

End Protocols.

(** ** ATT&CK techniques *)

Module Mitre.

Inductive MitreTactic :=
  | TReconnaissance
  | TResourceDevelopment
  | TInitialAccess
  | TExecution
  | TPersistence
  | TPrivilegeEscalation
  | TDefenseEvasion
  | TCredentialAccess
  | TDiscovery
  | TLateralMovement
  | TCollection
  | TCommandAndControl
  | TExfiltration
  | TImpact
  | TIcsInhibitResponseFunction
  | TIcsImpairProcessControl
  | TIcsImpact
  | TIcsDiscovery
  | TIcsCollection
  | TIcsCommandAndControl
  | TIcsExecution.

#[global] Instance MitreTactic_eq_dec : EqDecision MitreTactic.
Proof. solve_decision. Defined.

(** [Display]. *)
Definition tactic_name (t : MitreTactic) : string :=
  match t with
  | TReconnaissance => "Reconnaissance"
  | TResourceDevelopment => "Resource Development"
  | TInitialAccess => "Initial Access"
  | TExecution => "Execution"
  | TPersistence => "Persistence"
  | TPrivilegeEscalation => "Privilege Escalation"
  | TDefenseEvasion => "Defense Evasion"
  | TCredentialAccess => "Credential Access"
  | TDiscovery => "Discovery"
  | TLateralMovement => "Lateral Movement"
  | TCollection => "Collection"
  | TCommandAndControl => "Command and Control"
  | TExfiltration => "Exfiltration"
  | TImpact => "Impact"
  | TIcsInhibitResponseFunction => "Inhibit Response Function"
  | TIcsImpairProcessControl => "Impair Process Control"
  | TIcsImpact => "Impact (ICS)"
  | TIcsDiscovery => "Discovery (ICS)"
  | TIcsCollection => "Collection (ICS)"
  | TIcsCommandAndControl => "Command and Control (ICS)"
  | TIcsExecution => "Execution (ICS)"
  end.

Definition tactic_id (t : MitreTactic) : string :=
  match t with
  | TReconnaissance => "TA0043"
  | TResourceDevelopment => "TA0042"
  | TInitialAccess => "TA0001"
  | TExecution => "TA0002"
  | TPersistence => "TA0003"
  | TPrivilegeEscalation => "TA0004"
  | TDefenseEvasion => "TA0005"
  | TCredentialAccess => "TA0006"
  | TDiscovery => "TA0007"
  | TLateralMovement => "TA0008"
  | TCollection => "TA0009"
  | TCommandAndControl => "TA0011"
  | TExfiltration => "TA0010"
  | TImpact => "TA0040"
  | TIcsInhibitResponseFunction => "TA0107"
  | TIcsImpairProcessControl => "TA0106"
  | TIcsImpact => "TA0105"
  | TIcsDiscovery => "TA0102"
  | TIcsCollection => "TA0100"
  | TIcsCommandAndControl => "TA0101"
  | TIcsExecution => "TA0104"
  end.

Definition all_tactics_in_report_order : list MitreTactic :=
  [TReconnaissance; TResourceDevelopment; TInitialAccess; TExecution; TPersistence; TPrivilegeEscalation; TDefenseEvasion; TCredentialAccess; TDiscovery; TLateralMovement; TCollection; TCommandAndControl; TExfiltration; TImpact; TIcsInhibitResponseFunction; TIcsImpairProcessControl; TIcsImpact; TIcsDiscovery; TIcsCollection; TIcsCommandAndControl; TIcsExecution].

(** The arms of the [match] of [technique_info], in order. *)
Definition technique_arms : list (string * (string * MitreTactic)) := [
  ("T1027", ("Obfuscated Files or Information", TDefenseEvasion));
  ("T1036", ("Masquerading", TDefenseEvasion));
  ("T1040", ("Network Sniffing", TCredentialAccess));
  ("T1046", ("Network Service Discovery", TDiscovery));
  ("T1071", ("Application Layer Protocol", TCommandAndControl));
  ("T1071.001", ("Web Protocols", TCommandAndControl));
  ("T1071.004", ("DNS", TCommandAndControl));
  ("T1083", ("File and Directory Discovery", TDiscovery));
  ("T1499.002", ("Service Exhaustion Flood", TImpact));
  ("T1505.003", ("Web Shell", TPersistence));
  ("T1573", ("Encrypted Channel", TCommandAndControl));
  ("T0846", ("Remote System Discovery", TIcsDiscovery));
  ("T1692.001", ("Unauthorized Message: Command Message", TIcsImpairProcessControl));
  ("T1692.002", ("Unauthorized Message: Reporting Message", TIcsImpairProcessControl));
  ("T0885", ("Commonly Used Port", TIcsCommandAndControl));
  ("T0836", ("Modify Parameter", TIcsImpairProcessControl));
  ("T0814", ("Denial of Service", TIcsInhibitResponseFunction));
  ("T0806", ("Brute Force I/O", TIcsImpairProcessControl));
  ("T0835", ("Manipulate I/O Image", TIcsImpairProcessControl));
  ("T0831", ("Manipulation of Control", TIcsImpact));
  ("T0888", ("Remote System Information Discovery", TIcsDiscovery));
  ("T1691.001", ("Block Operational Technology Message: Command Message", TIcsInhibitResponseFunction));
  ("T0827", ("Loss of Control", TIcsImpact));
  ("T0830", ("Adversary-in-the-Middle", TIcsCollection));
  ("T1557.002", ("Adversary-in-the-Middle: ARP Cache Poisoning", TCredentialAccess));
  ("T0858", ("Change Operating Mode", TIcsExecution));
  ("T0816", ("Device Restart/Shutdown", TIcsInhibitResponseFunction));
  ("T1693.001", ("Modify Firmware: System Firmware", TIcsInhibitResponseFunction));
  ("T0881", ("Service Stop", TIcsInhibitResponseFunction))
].

Definition technique_info (id : string) : option (string * MitreTactic) :=
  snd <$> List.find (λ arm, arm.1 =? id) technique_arms.

Definition technique_name (id : string) : option string := fst <$> technique_info id.

Definition technique_tactic (id : string) : option MitreTactic := snd <$> technique_info id.

Definition technique_tactic_id (id : string) : option string :=
  tactic ← technique_tactic id;
  Some (match tactic with
  | TReconnaissance => "TA0043"
  | TResourceDevelopment => "TA0042"
  | TInitialAccess => "TA0001"
  | TExecution => "TA0002"
  | TPersistence => "TA0003"
  | TPrivilegeEscalation => "TA0004"
  | TDefenseEvasion => "TA0005"
  | TCredentialAccess => "TA0006"
  | TDiscovery => "TA0007"
  | TLateralMovement => "TA0008"
  | TCollection => "TA0009"
  | TCommandAndControl => "TA0011"
  | TExfiltration => "TA0010"
  | TImpact => "TA0040"
  | TIcsInhibitResponseFunction => "TA0107"
  | TIcsImpairProcessControl => "TA0106"
  | TIcsImpact => "TA0105"
  | TIcsDiscovery => "TA0102"
  | TIcsCollection => "TA0100"
  | TIcsCommandAndControl => "TA0101"
  | TIcsExecution => "TA0104"
  end).

Definition SEEDED_TECHNIQUE_IDS : list string :=
  ["T1027"; "T1036"; "T1040"; "T1046"; "T1071"; "T1071.001"; "T1071.004"; "T1083"; "T1499.002"; "T1505.003"; "T1573"; "T0846"; "T1692.001"; "T1692.002"; "T0885"; "T0836"; "T0814"; "T0806"; "T0835"; "T0831"; "T0888"; "T1691.001"; "T0827"; "T0830"; "T1557.002"; "T0858"; "T0816"; "T1693.001"; "T0881"].

Definition SEEDED_TECHNIQUE_ID_COUNT : Z := 29.

Definition is_ascii_digit (c : Ascii.ascii) : bool :=
  (48 <=? Ascii.nat_of_ascii c)%nat && (Ascii.nat_of_ascii c <=? 57)%nat.

Definition letter_T : Ascii.ascii := Ascii.ascii_of_nat 84.
Definition full_stop : Ascii.ascii := Ascii.ascii_of_nat 46.

Definition is_valid_technique_id_format (id : string) : bool :=
  let digits i j := forallb is_ascii_digit (take (j - i) (drop i (String.list_ascii_of_string id))) in
  let at_ i c := bool_decide (String.list_ascii_of_string id !! i = Some c) in
  let parent_ok := (String.length id =? 5)%nat && at_ 0%nat letter_T && digits 1%nat 5%nat in
  let sub_ok := (String.length id =? 9)%nat && at_ 0%nat letter_T && digits 1%nat 5%nat
    && at_ 5%nat full_stop && digits 6%nat 9%nat in
  parent_ok || sub_ok.

(** The identifiers the analyzers attach, as the proof harness lists them. *)
Definition EMITTED_IDS : list string :=
  ["T1027"; "T1036"; "T1046"; "T1083"; "T1499.002"; "T1505.003"; "T1692.001"; "T0836"; "T0814"; "T0806"; "T0835"; "T0831"; "T0888"; "T1691.001"; "T0827"; "T0830"; "T1557.002"; "T0858"; "T0816"; "T0846"; "T0881"].

End Mitre.

(** ** The technique table is complete *)

Module MitreFacts.
Import Mitre.

(** The technique table is exact.  An identifier resolves precisely when it
    is one of the 29 seeded ones, and these are distinct and of the form
    [T] followed by four digits with an optional suffix of three; the two
    projections and the tactic identifier resolve together, the two tables of
    tactic identifiers agree, distinct tactics have distinct identifiers and
    names, and every tactic has its place in the report order exactly once. *)
Theorem technique_table_exact :
  (∀ id, is_Some (technique_info id) ↔ id ∈ SEEDED_TECHNIQUE_IDS) ∧
  NoDup SEEDED_TECHNIQUE_IDS ∧ zlen SEEDED_TECHNIQUE_IDS = SEEDED_TECHNIQUE_ID_COUNT ∧
  Forall (λ id, is_valid_technique_id_format id = true) SEEDED_TECHNIQUE_IDS ∧
  (∀ id, technique_tactic_id id = tactic_id <$> technique_tactic id) ∧
  (∀ t u, tactic_id t = tactic_id u ∨ tactic_name t = tactic_name u → t = u) ∧
  (∀ t, t ∈ all_tactics_in_report_order) ∧ NoDup all_tactics_in_report_order ∧
  (∀ id, id ∈ EMITTED_IDS → is_Some (technique_info id)).
Proof.
  assert (∀ id, is_Some (technique_info id) ↔ id ∈ technique_arms.*1) as Ha.
  { intros id. unfold technique_info. rewrite fmap_is_Some. generalize technique_arms as l. clear.
    induction l as [|[k v] l IH]; [split; [by intros []|by intros ?%not_elem_of_nil]|]. simpl.
    rewrite elem_of_cons. destruct (String.eqb_spec k id) as [->|Hne]; [split; [by left|by eexists]|].
    rewrite IH. split; [by right|intros [->|?]; [congruence|done]]. }
  assert (technique_arms.*1 = SEEDED_TECHNIQUE_IDS) as Hs by (vm_compute; reflexivity).
  split_and!; try (apply (bool_decide_eq_true _); vm_compute; reflexivity).
  - intros id. by rewrite Ha, Hs.
  - intros id. unfold technique_tactic_id. destruct (technique_tactic id) as [t|]; [|done]. by destruct t.
  - intros t u [H|H]; destruct t, u; done.
  - intros t. apply (bool_decide_eq_true _). by destruct t.
  - intros id Hid. rewrite Ha, Hs. revert id Hid. apply Forall_forall. apply (bool_decide_eq_true _). vm_compute. reflexivity.
Qed.
End MitreFacts.
