(* ===== verification/Coverage.v ===== *)
(** * Coverage gaps (src/main.rs, the [--coverage-gaps] report and [protocols])

    The classification of an unhandled transport and port against the protocol
    catalogue, the merge of the TCP and UDP counters, and the rows of the report
    as the terminal shows them and as the fields of the JSON entries. *)

From S2P Require Import Prelude FlowKey Handler Findings Dispatcher Catalog.

#[local] Open Scope Z_scope.
Import Protocols.

Inductive ProtocolGapState :=
  | KnownUnsupported
  | Unknown
  | KnownSupported.

#[global] Instance ProtocolGapState_eq_dec : EqDecision ProtocolGapState.
Proof. solve_decision. Defined.

Definition catalog_transport (t : TransportProto) : Transport :=
  match t with Tcp => TransTcp | Udp => TransUdp end.

(** The first entry of the catalogue with this transport and port. *)
Definition catalog_entry (t : TransportProto) (port : Z) : option KnownProtocol :=
  List.find (λ p, bool_decide (transport p = catalog_transport t) && bool_decide (port ∈ canonical_ports p))
    KNOWN_PROTOCOLS.

Definition lookup_protocol_state (t : TransportProto) (port : Z) : ProtocolGapState :=
  match catalog_entry t port with
  | Some p => if existsb port_supported (canonical_ports p) then KnownSupported else KnownUnsupported
  | None => Unknown
  end.

(** [is_protocol_supported]. *)
Definition is_protocol_supported (p : KnownProtocol) : bool :=
  if bool_decide (name p = "ARP"%string) then true
  else existsb (λ sp, bool_decide (name sp = name p)) supported_protocols.

(** Two maps of counters added up with [+=]; the order of iteration cannot
    matter since the keys of a map are distinct. *)
Definition add_counts (all m : gmap (TransportProto * Z) Z) : panicky (gmap (TransportProto * Z) Z) :=
  foldl (λ acc '(k, v), all ← acc; n ← cadd u64_max (default 0 (all !! k)) v; Some (<[k := n]> all))
    (Some all) (map_to_list m).

Definition collect_all_gaps (tcp udp : gmap (TransportProto * Z) Z) : panicky (gmap (TransportProto * Z) Z) :=
  all ← add_counts ∅ tcp;
  add_counts all udp.

(** Sorted by port, then transport. *)
Definition transport_rank (t : TransportProto) : Z := match t with Tcp => 0 | Udp => 1 end.

Definition gap_le (x y : (TransportProto * Z) * Z) : Prop :=
  x.1.2 < y.1.2 ∨ (x.1.2 = y.1.2 ∧ transport_rank x.1.1 ≤ transport_rank y.1.1).

#[global] Instance gap_le_dec : RelDecision gap_le.
Proof. intros x y. unfold gap_le. apply _. Defined.

Definition gap_entries (all : gmap (TransportProto * Z) Z) : list ((TransportProto * Z) * Z) :=
  merge_sort gap_le (map_to_list all).

(** ** Rows *)

Definition L2_CAVEAT_TEXT : string :=
  "Dynamic gap detection covers TCP and UDP flows. Layer-2 protocols (e.g., GOOSE, Sampled Values, PROFINET-RT/DCP, EtherCAT, Ethernet POWERLINK) have no TCP/UDP port and are not represented in the gap report. Consult `wirerust protocols --unsupported` for L2 protocol coverage.".

Definition PORT_102_NOTE : string :=
  "TCP/102 gap: S7comm, S7comm-plus, IEC 61850 MMS, and ICCP/TASE.2 all share this port (ISO-on-TCP/TPKT). This gap cannot be attributed to a single protocol.".

Definition transport_str (t : TransportProto) : string := match t with Tcp => "TCP" | Udp => "UDP" end.

Definition state_str (s : ProtocolGapState) : string :=
  match s with
  | KnownUnsupported => "known-unsupported"
  | Unknown => "unknown"
  | KnownSupported => "known-supported"
  end.

Definition is_tcp102 (t : TransportProto) (port : Z) : bool :=
  match t with Tcp => port =? 102 | Udp => false end.

(** The name shown for a row: none for TCP/102, which four protocols share. *)
Definition gap_name (t : TransportProto) (port : Z) : option string :=
  if is_tcp102 t port then None
  else match lookup_protocol_state t port with
       | KnownUnsupported | KnownSupported => name <$> catalog_entry t port
       | Unknown => None
       end.

Definition newline : string := String (Ascii.ascii_of_nat 10) EmptyString.

Definition gap_row (e : (TransportProto * Z) * Z) : string :=
  let '((t, port), count) := e in
  ("  " +:+ transport_str t +:+ "/" +:+ decimal port +:+ "  count=" +:+ decimal count +:+ "  "
   +:+ state_str (lookup_protocol_state t port)
   +:+ match gap_name t port with Some n => "  " +:+ n | None => "" end +:+ newline
   +:+ if is_tcp102 t port then "    " +:+ PORT_102_NOTE +:+ newline else "")%string.

Definition render_coverage_gaps_terminal (all : gmap (TransportProto * Z) Z) : string :=
  (newline +:+ "--- CoverageGapsSummary ---" +:+ newline +:+ newline +:+ L2_CAVEAT_TEXT +:+ newline
   +:+ match gap_entries all with
       | [] => newline +:+ "No unclassified port gaps detected." +:+ newline
       | es => newline +:+ foldr (λ e s, gap_row e +:+ s) "" es
       end)%string.

(** The fields of an entry of the JSON report. *)
Definition gap_json_entry (e : (TransportProto * Z) * Z) : list (string * json) :=
  let '((t, port), count) := e in
  ([("transport"%string, JStr (transport_str t)); ("port"%string, JNum port); ("count"%string, JNum count);
    ("state"%string, JStr (state_str (lookup_protocol_state t port)))]
   ++ if is_tcp102 t port then [("collision_note"%string, JStr PORT_102_NOTE)]
      else match lookup_protocol_state t port with
           | KnownUnsupported | KnownSupported =>
               match catalog_entry t port with Some p => [("name"%string, JStr (name p))] | None => [] end
           | Unknown => []
           end).

(** ** The catalogue is consistent with itself and with the dispatcher *)

(** An entry that lists a transport and port. *)
Definition lists (t : TransportProto) (port : Z) (p : KnownProtocol) : Prop :=
  p ∈ KNOWN_PROTOCOLS ∧ transport p = catalog_transport t ∧ port ∈ canonical_ports p.

Lemma catalog_entry_Some t port p : catalog_entry t port = Some p → lists t port p.
Proof.
  intros [Hin Hp]%List.find_some. apply andb_prop in Hp as [?%bool_decide_eq_true ?%bool_decide_eq_true].
  split; [by apply list_elem_of_In|done].
Qed.

Lemma catalog_entry_None t port p : catalog_entry t port = None → ¬ lists t port p.
Proof.
  intros Hn (Hin%list_elem_of_In & Ht & Hp). apply (List.find_none _ _ Hn) in Hin.
  rewrite !bool_decide_eq_true_2 in Hin by done. done.
Qed.

(** Entries that share a transport and a port are all dissected or all not. *)
Definition sharing_agrees : bool :=
  forallb (λ p, forallb (λ q,
    negb (bool_decide (transport p = transport q) && existsb (λ port, bool_decide (port ∈ canonical_ports q)) (canonical_ports p))
    || eqb (existsb port_supported (canonical_ports p)) (existsb port_supported (canonical_ports q)))
    KNOWN_PROTOCOLS) KNOWN_PROTOCOLS.

Lemma lists_agree t port p q :
  lists t port p → lists t port q →
  existsb port_supported (canonical_ports p) = existsb port_supported (canonical_ports q).
Proof.
  intros (Hp%list_elem_of_In & Tp & Pp) (Hq%list_elem_of_In & Tq & Pq).
  assert (sharing_agrees = true) as Hs by (vm_compute; reflexivity). unfold sharing_agrees in Hs.
  apply (proj1 (forallb_forall _ _) Hs) in Hp. apply (proj1 (forallb_forall _ _) Hp) in Hq.
  rewrite bool_decide_eq_true_2 in Hq by congruence.
  assert (existsb (λ port, bool_decide (port ∈ canonical_ports q)) (canonical_ports p) = true) as E.
  { apply existsb_exists. exists port. split; [by apply list_elem_of_In|by apply bool_decide_eq_true_2]. }
  rewrite E in Hq. simpl in Hq. by apply eqb_prop in Hq.
Qed.

(** An entry is dissected when it is among [supported_protocols]. *)
Lemma supported_entry p t port :
  lists t port p → existsb port_supported (canonical_ports p) = true ↔ p ∈ supported_protocols.
Proof.
  intros (Hin & Ht & Hp). unfold supported_protocols. rewrite list_elem_of_filter. split.
  - intros E. rewrite E. done.
  - intros [E _]. apply Is_true_eq_true, orb_prop in E as [E|E]; [done|]. exfalso.
    assert (forallb (λ p, negb (String.eqb (name p) "ARP") || bool_decide (canonical_ports p = [])) KNOWN_PROTOCOLS = true)
      as Ha by (vm_compute; reflexivity).
    apply list_elem_of_In, (proj1 (forallb_forall _ _) Ha) in Hin. rewrite E in Hin. simpl in Hin.
    apply bool_decide_eq_true in Hin. rewrite Hin in Hp. by apply not_elem_of_nil in Hp.
Qed.

(** Names are unique, so the complement by name is the complement. *)
Lemma unsupported_entry p :
  p ∈ unsupported_protocols ↔ p ∈ KNOWN_PROTOCOLS ∧ p ∉ supported_protocols.
Proof.
  assert (NoDup (name <$> KNOWN_PROTOCOLS)) as Hn by (apply (bool_decide_eq_true _); vm_compute; reflexivity).
  unfold unsupported_protocols. rewrite list_elem_of_filter. split; intros [H1 H2]; (split; [|done || idtac]).
  - done.
  - intros Hs. apply H1. by apply list_elem_of_fmap_2.
  - intros (q & Eq & Hq)%list_elem_of_fmap. apply H2. assert (q ∈ KNOWN_PROTOCOLS) as Hk.
    { unfold supported_protocols in Hq. by apply list_elem_of_filter in Hq as [_ ?]. }
    apply list_elem_of_lookup in H1 as [i Hi], Hk as [j Hj].
    assert (i = j) as <- by (eapply (NoDup_lookup _ _ _ _ Hn); rewrite list_lookup_fmap, ?Hi, ?Hj; simpl; by rewrite ?Eq).
    rewrite Hi in Hj. by injection Hj as ->.
Qed.

(** The gap report classifies by the whole catalogue.  A transport and port
    is known-supported exactly when some entry that lists them is among
    [supported_protocols], known-unsupported exactly when entries list them and
    all of them are among [unsupported_protocols], and unknown exactly when
    none lists them, although the code looks at the first match only; and every
    entry of the catalogue is in exactly one of the two sets. *)
Theorem gap_state_exact t port :
  (lookup_protocol_state t port = KnownSupported ↔ ∃ p, lists t port p ∧ p ∈ supported_protocols) ∧
  (lookup_protocol_state t port = KnownUnsupported ↔
    (∃ p, lists t port p) ∧ ∀ p, lists t port p → p ∈ unsupported_protocols) ∧
  (lookup_protocol_state t port = Unknown ↔ ∀ p, ¬ lists t port p) ∧
  (∀ p, p ∈ KNOWN_PROTOCOLS ↔ p ∈ supported_protocols ++ unsupported_protocols) ∧
  (∀ p, p ∈ supported_protocols → p ∉ unsupported_protocols).
Proof.
  assert (∀ p, p ∈ supported_protocols → p ∈ KNOWN_PROTOCOLS) as Hk.
  { intros p. unfold supported_protocols. rewrite list_elem_of_filter. by intros [_ ?]. }
  assert ((∀ p, p ∈ KNOWN_PROTOCOLS ↔ p ∈ supported_protocols ++ unsupported_protocols) ∧
    (∀ p, p ∈ supported_protocols → p ∉ unsupported_protocols)) as Hpart.
  { split; intros p; rewrite ?elem_of_app, unsupported_entry; [|naive_solver].
    destruct (decide (p ∈ supported_protocols)); naive_solver. }
  assert (∀ A B C D : Prop, A ∧ B ∧ C → D → A ∧ B ∧ C ∧ D) as Hsplit by tauto. apply Hsplit; [|exact Hpart]. clear Hsplit.
  unfold lookup_protocol_state. destruct (catalog_entry t port) as [p|] eqn:E.
  - apply catalog_entry_Some in E. pose proof (supported_entry p t port E) as Hs.
    assert (∀ q, lists t port q → q ∈ supported_protocols ↔ p ∈ supported_protocols) as Hall.
    { intros q Hq. by rewrite <-(supported_entry q t port Hq), <-Hs, (lists_agree t port p q E Hq). }
    destruct (existsb _ (canonical_ports p)); [assert (p ∈ supported_protocols) by by apply Hs
      |assert (p ∉ supported_protocols) by (rewrite <-Hs; done)]; setoid_rewrite unsupported_entry.
    + split_and!; [split; [by exists p|done]|split; [done|]|split; [done|intros Hno; by destruct (Hno p E)]].
      intros [_ Hu]. by destruct (Hu p E).
    + split_and!; [split; [done|]|split; [|done]|split; [done|intros Hno; by destruct (Hno p E)]].
      * intros (q & Hq & Hqs). by apply (Hall q Hq) in Hqs.
      * intros _. split; [by exists p|]. intros q Hq. split; [apply Hq|]. by rewrite (Hall q Hq).
  - assert (∀ p, ¬ lists t port p) by (intros p; by apply catalog_entry_None).
    split_and!; [..|done]; (split; [done|naive_solver]).
Qed.

(** The TCP ports of dissected protocols. *)
Lemma supported_tcp_ports port :
  lookup_protocol_state Tcp port = KnownSupported ↔ port ∈ [443; 8443; 80; 8080; 502; 20000; 44818; 2404].
Proof.
  split.
  - unfold lookup_protocol_state. destruct (catalog_entry Tcp port) as [p|] eqn:E; [|done].
    destruct (existsb _ _) eqn:Es; [|done]. intros _. apply catalog_entry_Some in E as (Hin & Ht & Hp).
    assert (forallb (λ p, negb (bool_decide (transport p = TransTcp) && existsb port_supported (canonical_ports p))
      || forallb (λ n, bool_decide (n ∈ [443; 8443; 80; 8080; 502; 20000; 44818; 2404])) (canonical_ports p))
      KNOWN_PROTOCOLS = true) as Ha by (vm_compute; reflexivity).
    apply list_elem_of_In, (proj1 (forallb_forall _ _) Ha) in Hin.
    rewrite Es, bool_decide_eq_true_2 in Hin by done. simpl in Hin.
    apply list_elem_of_In, (proj1 (forallb_forall _ _) Hin), bool_decide_eq_true in Hp. done.
  - intros H. assert (Forall (λ n, lookup_protocol_state Tcp n = KnownSupported)
      [443; 8443; 80; 8080; 502; 20000; 44818; 2404]) as Hf by (repeat constructor).
    by apply (proj1 (Forall_forall _ _) Hf).
Qed.

(** A chunk classifies whatever its bytes exactly on those ports. *)
Lemma classify_covers_catalog k :
  (∀ data, classify data k ≠ NoTarget) ↔
  lookup_protocol_state Tcp (lower_port k) = KnownSupported ∨
  lookup_protocol_state Tcp (upper_port k) = KnownSupported.
Proof.
  rewrite !supported_tcp_ports. set_unfold. unfold classify, on_port.
  split.
  - intros H. specialize (H []). revert H. change (is_tls_record []) with false. change (is_http []) with false. cbn iota.
    repeat match goal with |- context [?a =? ?b] => destruct (Z.eqb_spec a b); [tauto|] end. simpl. congruence.
  - intros H data. destruct (is_tls_record data); [done|]. destruct (is_http data); [done|].
    repeat match goal with |- context [?a =? ?b] => destruct (Z.eqb_spec a b); [rewrite ?orb_true_r; simpl; repeat case_match; done|] end.
    exfalso. tauto.
Qed.

(** ** What reaches the analyzers

    An analyzer that only writes down the chunks it is given, in each of the
    six slots of the dispatcher. *)

Definition chunk : Type := FlowKey * Direction * list Z * Z.

#[local] Instance recorder_handler : StreamHandler (list chunk) := {
  on_data r k dir data offset ts := r ++ [(k, dir, data, ts)];
  on_flow_close r k reason := r
}.

#[local] Instance recorder_analyzer : FlowAnalyzer (list chunk) := {
  flow_on_data r k data ts dir := r ++ [(k, dir, data, ts)];
  flow_on_close r k := r
}.

#[local] Abbreviation recorder :=
  (StreamDispatcher (list chunk) (list chunk) (list chunk) (list chunk) (list chunk) (list chunk)).

(** Every analyzer enabled, the default retry budget. *)
Definition all_recording (gaps : bool) : recorder :=
  with_coverage_gaps
    (StreamDispatcher_new (Some []) (Some []) (Some []) (Some []) (Some []) (Some [])) gaps.

(** What the six analyzers wrote down. *)
Definition recorded (d : recorder) : list chunk :=
  default [] (http d) ++ default [] (tls d) ++ default [] (modbus d) ++
  default [] (dnp3 d) ++ default [] (enip d) ++ default [] (iec104 d).

Definition event_chunk (e : event) : option chunk :=
  match e with EData k dir data _ ts => Some (k, dir, data, ts) | EClose _ _ => None end.

(** The chunks of flow [k] among some chunks. *)
Definition of_flow (k : FlowKey) (cs : list chunk) : list chunk :=
  filter (λ c : chunk, c.1.1.1 = k) cs.

Lemma replay_recorder `{StreamHandler (list chunk)} r es :
  (∀ r k dir data off ts, on_data r k dir data off ts = r ++ [(k, dir, data, ts)]) →
  (∀ r k reason, on_flow_close r k reason = r) →
  replay r es = r ++ omap event_chunk es.
Proof.
  intros Hd Hc. revert r. induction es as [|e es IH]; intros r; [by rewrite app_nil_r|].
  change (replay r (e :: es)) with (replay (replay1 r e) es). rewrite IH.
  destruct e; simpl; [rewrite Hd, <-app_assoc|rewrite Hc]; done.
Qed.

(** The dispatcher splits the events among its targets. *)
Lemma seen_by_split l :
  seen_by Http l ++ seen_by Tls l ++ seen_by Modbus l ++ seen_by Dnp3 l ++ seen_by Enip l ++
  seen_by Iec104 l ++ seen_by NoTarget l ≡ₚ l.*2.
Proof.
  induction l as [|[t e] l IH]; [done|]. rewrite fmap_cons, <-IH. unfold seen_by.
  destruct t; simpl; solve_Permutation.
Qed.

Lemma recorded_assigned gaps es :
  let l := assignments DEFAULT_MAX_CLASSIFICATION_ATTEMPTS no_fates es in
  recorded (replay (all_recording gaps) es) =
  omap event_chunk (seen_by Http l ++ seen_by Tls l ++ seen_by Modbus l ++ seen_by Dnp3 l ++
    seen_by Enip l ++ seen_by Iec104 l).
Proof.
  destruct (replay_refines es no_fates (all_recording gaps)) as ([F1 F2 F3 F4 F5 F6] & _ & _).
  - exact (tracks_new _ _ _ _ _ _ DEFAULT_MAX_CLASSIFICATION_ATTEMPTS).
  - done.
  - by vm_compute.
  - by vm_compute.
  - intros l. unfold recorded. rewrite F1, F2, F3, F4, F5, F6. simpl.
    rewrite !replay_recorder by done. simpl. by rewrite !omap_app.
Qed.

(** A flow all of whose chunks classify never has a chunk without a target. *)
Lemma assigned_somewhere max s es k :
  (∀ data, classify data k ≠ NoTarget) → s k ≠ Committed NoTarget →
  of_flow k (omap event_chunk (seen_by NoTarget (assignments max s es))) = [].
Proof.
  intros Hk. revert s. induction es as [|e es IH]; intros s Hs; [done|]. simpl.
  destruct (assign max s e) as [s' t] eqn:Ha.
  assert (s' k ≠ Committed NoTarget ∧ (t = NoTarget → of_flow k (omap event_chunk [e]) = [])) as [Hs' Ht].
  { destruct e as [k' dir data off ts|k' reason]; simpl in Ha.
    - destruct (note_chunk max (s k') k' data) as [x t'] eqn:En. simplify_eq. unfold set_fate, of_flow.
      destruct (decide (k' = k)) as [-> |Hne].
      + unfold note_chunk in En. rewrite decide_True by done. specialize (Hk data).
        destruct (s k); simplify_eq; [rewrite decide_False by done|]; split; congruence.
      + rewrite decide_False by congruence. split; [done|]. intros _. simpl.
        by rewrite filter_cons_False.
    - simplify_eq. unfold set_fate. case_decide; done. }
  change ((t, e) :: assignments max s' es) with ([(t, e)] ++ assignments max s' es).
  rewrite seen_by_app, omap_app. unfold of_flow. rewrite list.filter_app.
  fold (of_flow k (omap event_chunk (seen_by NoTarget (assignments max s' es)))).
  rewrite IH, app_nil_r by done. unfold seen_by. rewrite filter_cons. simpl.
  case_decide; [by apply Ht|done].
Qed.

(** C40. The dispatcher covers what the catalogue promises, and no other port.
    Take a dispatcher with all six analyzers enabled and the default retry
    budget, with coverage gaps counted or not, and any sequence of chunks and
    closes of any flows.  The analyzers together are given every chunk of flow
    [k] exactly once, whatever its bytes, exactly when one of the ports of the
    flow is known-supported over TCP. *)
Theorem dispatcher_covers_catalog k gaps :
  (∀ es, of_flow k (recorded (replay (all_recording gaps) es)) ≡ₚ of_flow k (omap event_chunk es)) ↔
  lookup_protocol_state Tcp (lower_port k) = KnownSupported ∨
  lookup_protocol_state Tcp (upper_port k) = KnownSupported.
Proof.
  rewrite <-classify_covers_catalog. setoid_rewrite recorded_assigned. split.
  - intros H data Hn. specialize (H [EData k ClientToServer data 0 0]). revert H.
    simpl. rewrite Hn. unfold of_flow. simpl. rewrite filter_cons_True by done.
    by intros ?%Permutation_nil_cons.
  - intros Hk es. set (l := assignments _ _ es).
    pose proof (assigned_somewhere DEFAULT_MAX_CLASSIFICATION_ATTEMPTS no_fates es k Hk ltac:(done)) as Hz.
    unfold of_flow in *. fold l in Hz.
    rewrite <-(assignments_events DEFAULT_MAX_CLASSIFICATION_ATTEMPTS no_fates es) at 1. fold l.
    rewrite <-(seen_by_split l), !omap_app, !list.filter_app, Hz. by rewrite app_nil_r.
Qed.

(** ** The merged counters *)

Lemma add_counts_disjoint all m :
  all ##ₘ m → map_Forall (λ _ v, v ≤ u64_max) m → add_counts all m = Some (m ∪ all).
Proof.
  unfold add_counts. intros Hd Hm.
  assert (∀ (l : list ((TransportProto * Z) * Z)) (a : gmap (TransportProto * Z) Z), NoDup l.*1 → (∀ k v, (k, v) ∈ l → a !! k = None ∧ v ≤ u64_max) →
    foldl (λ acc '(k, v), all ← acc; n ← cadd u64_max (default 0 (all !! k)) v; Some (<[k := n]> all)) (Some a) l =
    Some (list_to_map l ∪ a)) as Hgo.
  { clear. induction l as [|[k v] l IH]; intros a Hn Hl; simpl; [by rewrite (left_id_L _ _)|].
    apply NoDup_cons in Hn as [Hk Hn]. destruct (Hl k v) as [Ha Hv]; [left|].
    rewrite Ha. simpl. rewrite cadd_Some by lia. simpl. rewrite IH; [|done|].
    - f_equal. rewrite <-insert_union_r, insert_union_l by by apply not_elem_of_list_to_map. done.
    - intros k' v' Hin. destruct (Hl k' v') as [Ha' Hv']; [by right|]. split; [|done].
      rewrite lookup_insert_ne; [done|]. intros ->. apply Hk. by apply list_elem_of_fmap_2' with (k', v'). }
  rewrite Hgo; [by rewrite list_to_map_to_list|apply NoDup_fst_map_to_list|].
  intros k v Hin%elem_of_map_to_list. split; [|by eapply Hm]. by eapply map_disjoint_Some_r.
Qed.

(** The merged map and its rows. *)
Lemma collect_all_gaps_ok (tcp udp : gmap (TransportProto * Z) Z) :
  map_Forall (λ k v, k.1 = Tcp ∧ 0 ≤ v ≤ u64_max) tcp →
  map_Forall (λ k v, k.1 = Udp ∧ 0 ≤ v ≤ u64_max) udp →
  ∃ all, collect_all_gaps tcp udp = Some all ∧
    (∀ port, all !! (Tcp, port) = tcp !! (Tcp, port) ∧ all !! (Udp, port) = udp !! (Udp, port)) ∧
    StronglySorted gap_le (gap_entries all) ∧ NoDup (gap_entries all).*1 ∧
    (∀ k v, (k, v) ∈ gap_entries all ↔ all !! k = Some v).
Proof.
  intros Ht Hu. unfold collect_all_gaps.
  rewrite add_counts_disjoint; [|apply map_disjoint_empty_l|by intros k v [_ [_ ?]]%Ht]. cbn [mbind option_bind].
  rewrite (right_id_L ∅ _), add_counts_disjoint; [| |by intros k v [_ [_ ?]]%Hu].
  2: { apply map_disjoint_spec. intros k v w [E _]%Ht [E' _]%Hu. congruence. }
  eexists. split; [done|]. split.
  { intros port. split; rewrite lookup_union.
    - assert (udp !! (Tcp, port) = None) as -> by (apply eq_None_not_Some; intros [v [E _]%Hu]; done).
      by destruct (tcp !! _).
    - assert (tcp !! (Udp, port) = None) as -> by (apply eq_None_not_Some; intros [v [E _]%Ht]; done).
      by destruct (udp !! _). }
  set (all := udp ∪ tcp). pose proof (merge_sort_Permutation gap_le (map_to_list all)) as Hp. fold (gap_entries all) in Hp.
  split_and!.
  - assert (Total gap_le) by (intros [[]] [[]]; unfold gap_le; simpl; lia).
    assert (Transitive gap_le) by (intros [[]] [[]] [[]]; unfold gap_le; simpl; lia).
    apply (StronglySorted_merge_sort gap_le).
  - apply (NoDup_Permutation_proper _ _ (fmap_Permutation fst _ _ Hp)), NoDup_fst_map_to_list.
  - intros k v. rewrite <-elem_of_map_to_list. by apply elem_of_Permutation_proper.
Qed.

(** No gap is lost or counted twice.  The TCP counters of the dispatcher and
    the UDP counters of the decode loop are merged without overflow into one map
    that holds exactly their counts, and the report has one row for every
    counter, in ascending order of port with TCP before UDP. *)
Theorem gap_report_complete (tcp udp : gmap (TransportProto * Z) Z) :
  map_Forall (λ k v, k.1 = Tcp ∧ 0 ≤ v ≤ u64_max) tcp →
  map_Forall (λ k v, k.1 = Udp ∧ 0 ≤ v ≤ u64_max) udp →
  ∃ all, collect_all_gaps tcp udp = Some all ∧
    (∀ port, all !! (Tcp, port) = tcp !! (Tcp, port) ∧ all !! (Udp, port) = udp !! (Udp, port)) ∧
    StronglySorted gap_le (gap_entries all) ∧ NoDup (gap_entries all).*1 ∧
    (∀ k v, (k, v) ∈ gap_entries all ↔ all !! k = Some v).
Proof. apply collect_all_gaps_ok. Qed.

(** *** A report *)

Lemma gap_report_complete_witness :
  ∃ all, collect_all_gaps {[(Tcp, 102) := 3]} {[(Udp, 47808) := 2]} = Some all ∧
    (∀ k v, (k, v) ∈ gap_entries all ↔ all !! k = Some v) ∧
    all !! (Tcp, 102) = Some 3.
Proof.
  destruct (gap_report_complete {[(Tcp, 102) := 3]} {[(Udp, 47808) := 2]}) as (all & E & Hl & _ & _ & He);
    [apply map_Forall_singleton; vm_compute; repeat split; discriminate..|].
  exists all. split; [exact E|]. split; [exact He|]. destruct (Hl 102) as [-> _]. reflexivity.
Defined.
