(* ===== verification/Pipeline.v ===== *)
(** * The pipeline: engine, dispatcher and analyzers together

    The reassembly engine drives the dispatcher, which drives the Modbus,
    DNP3, EtherNet/IP and IEC-104 analyzers; the HTTP and TLS analyzers are
    known through their interfaces, which the analyzers of the program meet.
    The theorems combine the engine's guarantees about the events it emits, the
    dispatcher's refinement theorem and the analyzers' invariants. *)

From S2P Require Import Prelude FlowKey Handler Findings Http HttpProps Tls TlsProps Flow Segment Reassembly.
From S2P Require Import ReassemblyFacts ReassemblyProps Dispatcher Modbus ModbusProps.
From S2P Require Import Dnp3 Dnp3Facts Enip EnipProps Iec104 Iec104Props.

#[local] Open Scope Z_scope.

(** An analyzer sees no more bytes than the dispatcher. *)
Lemma trace_bytes_seen_by t l : trace_bytes (seen_by t l) ≤ trace_bytes l.*2.
Proof.
  unfold seen_by. induction l as [|[t' e] l IH]; [done|]. rewrite filter_cons, fmap_cons.
  rewrite trace_bytes_cons. pose proof (event_bytes_nonneg e).
  case_decide; rewrite ?fmap_cons, ?trace_bytes_cons; cbn [snd] in *; lia.
Qed.

(** The orders in which the two analyzers that iterate over a hash map see it. *)
Class ScanOrders := {
  pending_order :: IterOrder (Z * Z) Z;
  errors_order :: IterOrder Z Z
}.

(** The thresholds of the command line. *)
Record thresholds := mkThresholds {
  modbus_burst : Z;
  modbus_sustained : Z;
  dnp3_operates : Z;
  enip_writes : Z;
  enip_errors : Z
}.

Section pipeline.
Context {HTTP TLS : Type} `{!StreamHandler HTTP, !StreamHandler TLS, !ScanOrders}.
Context (h : option HTTP) (t : option TLS).

(** The dispatcher [main] builds when the four analyzers are enabled, for any
    classification budget; [main] keeps the default one. *)
Definition pipeline (th : thresholds) (max : Z) (coverage_gaps : bool) :=
  with_coverage_gaps
    (with_max_classification_attempts
       (StreamDispatcher_new h t
          (Some (Some (ModbusAnalyzer_new (modbus_burst th) (modbus_sustained th))))
          (Some (Some (Dnp3Analyzer_new (dnp3_operates th))))
          (Some (Some (EnipAnalyzer_new (enip_writes th) (enip_errors th))))
          (Some (Some Iec104Analyzer_new))) max) coverage_gaps.

(** What the four analyzers are after any events. *)
Lemma pipeline_replay th max gaps es :
  max ≤ u32_max →
  let l := assignments max no_fates es in
  let d := replay (pipeline th max gaps) es in
  http d = (λ a, replay a (seen_by Dispatcher.Http l)) <$> h ∧
  tls d = (λ a, replay a (seen_by Dispatcher.Tls l)) <$> t ∧
  modbus d = Some (replay (Some (ModbusAnalyzer_new (modbus_burst th) (modbus_sustained th)))
    (seen_by Dispatcher.Modbus l)) ∧
  dnp3 d = Some (@replay _ flow_handler (Some (Dnp3Analyzer_new (dnp3_operates th)))
    (seen_by Dispatcher.Dnp3 l)) ∧
  enip d = Some (@replay _ flow_handler (Some (EnipAnalyzer_new (enip_writes th) (enip_errors th)))
    (seen_by Dispatcher.Enip l)) ∧
  iec104 d = Some (@replay _ flow_handler (Some Iec104Analyzer_new) (seen_by Dispatcher.Iec104 l)).
Proof.
  intros Hm l d. destruct (replay_refines es no_fates (pipeline th max gaps)) as ([] & _ & _).
  - exact (tracks_new _ _ _ _ _ _ _).
  - unfold any_analyzer. simpl. by destruct h, t.
  - done.
  - by vm_compute.
  - by split_and!.
Qed.
End pipeline.

(** ** Per-flow state of an analyzer

    What the pipeline needs to know about an analyzer's flow table: a chunk
    adds at most its own flow, and a close removes its flow. *)

Class FlowTable (A : Type) `{StreamHandler A} := {
  holds_flow : A → FlowKey → Prop;
  holds_flow_data a k dir data off ts k' :
    holds_flow (on_data a k dir data off ts) k' → k' = k ∨ holds_flow a k';
  holds_flow_close a k reason k' :
    holds_flow (on_flow_close a k reason) k' → k' ≠ k ∧ holds_flow a k'
}.

#[global] Instance modbus_table : FlowTable (option ModbusAnalyzer).
Proof.
  refine {| holds_flow oa k := ∃ a, oa = Some a ∧ is_Some (Modbus.flows a !! k) |}.
  - intros oa k dir data off ts k' (a' & E & Hk'). destruct oa as [a|]; [|done].
    simpl in E. unfold modbus_on_data in E.
    destruct (decide (k' = k)) as [->|Hne]; [by left|right]. exists a. split; [done|].
    destruct (is_non_modbus _).
    { simplify_eq. simpl in Hk'. by rewrite lookup_insert_ne, lookup_delete_ne in Hk' by done. }
    destruct (walk _ _ _ _ _ _ _) as [[a1 f]|] eqn:Ew; [|done]. simpl in E. simplify_eq.
    apply walk_all_flows with (n := length (carry (default ModbusFlowState_default
      (Modbus.flows a !! k)) dir ++ data)) in Ew; [|done].
    simpl in Hk', Ew. by rewrite lookup_insert_ne, Ew, lookup_delete_ne in Hk' by done.
  - intros oa k reason k' (a' & E & Hk'). destruct oa as [a|]; [|done]. simpl in E. simplify_eq.
    simpl in Hk'. destruct (decide (k' = k)) as [->|Hne].
    + rewrite lookup_delete_eq in Hk'. by destruct Hk'.
    + split; [done|]. exists a. by rewrite lookup_delete_ne in Hk'.
Defined.

#[local] Existing Instance flow_handler.

#[global] Instance iec104_table : FlowTable (option Iec104Analyzer).
Proof.
  refine {| holds_flow oa k := ∃ a, oa = Some a ∧ is_Some (Iec104.flows a !! k) |}.
  - intros oa k dir data off ts k' (a' & E & Hk'). destruct oa as [a|]; [|done].
    simpl in E. unfold iec_on_data in E. destruct (check_carry_overflow _ _) as [s l0].
    destruct (iec_walk _ _ _ _ _ _) as [[s' f]|]; [|done]. simpl in E. simplify_eq.
    rewrite (proj1 (extend_findings_rest _ _)) in Hk'. simpl in Hk'.
    destruct (decide (k' = k)) as [->|Hne]; [by left|right]. exists a.
    by rewrite lookup_insert_ne in Hk'.
  - intros oa k reason k' (a' & E & Hk'). destruct oa as [a|]; [|done]. simpl in E. simplify_eq.
    unfold iec_on_flow_close in Hk'. destruct (Iec104.flows a !! k) as [s|] eqn:Es.
    + simpl in Hk'. destruct (decide (k' = k)) as [->|Hne].
      * rewrite lookup_delete_eq in Hk'. by destruct Hk'.
      * split; [done|]. exists a. by rewrite lookup_delete_ne in Hk'.
    + split; [|by exists a]. intros ->. rewrite Es in Hk'. by destruct Hk'.
Defined.

#[global] Instance dnp3_table `{!IterOrder (Z * Z) Z} : FlowTable (option Dnp3Analyzer).
Proof.
  refine {| holds_flow oa k := ∃ a, oa = Some a ∧ is_Some (Dnp3.flows a !! k) |}.
  - intros oa k dir data off ts k' (a' & E & Hk'). destruct oa as [a|]; [|done].
    destruct (decide (k' = k)) as [->|Hne]; [by left|right]. exists a. split; [done|].
    by rewrite (dnp3_on_data_flows a k data ts dir a' k' E Hne) in Hk'.
  - intros oa k reason k' (a' & E & Hk'). destruct oa as [a|]; [|done]. simpl in E. simplify_eq.
    unfold dnp3_on_flow_close in Hk'. destruct (Dnp3.flows a !! k) as [s|] eqn:Es.
    + simpl in Hk'. destruct (decide (k' = k)) as [->|Hne].
      * rewrite lookup_delete_eq in Hk'. by destruct Hk'.
      * split; [done|]. exists a. by rewrite lookup_delete_ne in Hk'.
    + split; [|by exists a]. intros ->. rewrite Es in Hk'. by destruct Hk'.
Defined.

#[global] Instance enip_table `{!IterOrder Z Z} : FlowTable (option EnipAnalyzer).
Proof.
  refine {| holds_flow oa k := ∃ a, oa = Some a ∧ is_Some (Enip.flows a !! k) |}.
  - intros oa k dir data off ts k' (a' & E & Hk'). destruct oa as [a|]; [|done].
    destruct (decide (k' = k)) as [->|Hne]; [by left|right]. exists a. split; [done|].
    by rewrite (enip_on_data_flows a k data ts dir a' k' E Hne) in Hk'.
  - intros oa k reason k' (a' & E & Hk'). destruct oa as [a|]; [|done]. simpl in E. simplify_eq.
    unfold enip_on_flow_close in Hk'. destruct (Enip.flows a !! k) as [s|] eqn:Es.
    + simpl in Hk'. destruct (decide (k' = k)) as [->|Hne].
      * rewrite lookup_delete_eq in Hk'. by destruct Hk'.
      * split; [done|]. exists a. by rewrite lookup_delete_ne in Hk'.
    + split; [|by exists a]. intros ->. rewrite Es in Hk'. by destruct Hk'.
Defined.

#[global] Instance http_table `{HttpLib} : FlowTable (option HttpAnalyzer).
Proof.
  refine {| holds_flow oa k := ∃ a, oa = Some a ∧ is_Some (Http.flows a !! k) |}.
  - intros oa k dir data off ts k' (a' & E & Hk'). destruct oa as [a|]; [|done].
    destruct (decide (k' = k)) as [->|Hne]; [by left|right]. exists a. split; [done|].
    by rewrite (http_on_data_flows a k dir data ts a' k' E Hne) in Hk'.
  - intros oa k reason k' (a' & E & Hk'). destruct oa as [a|]; [|done]. simpl in E. simplify_eq. cbn in Hk'.
    apply lookup_delete_is_Some in Hk' as [Hne Hk']. split; [done|]. by exists a.
Defined.

#[global] Instance tls_table `{TlsLib} : FlowTable (option TlsAnalyzer).
Proof.
  refine {| holds_flow oa k := ∃ a, oa = Some a ∧ is_Some (Tls.flows a !! k) |}.
  - intros oa k dir data off ts k' (a' & E & Hk'). destruct oa as [a|]; [|done].
    destruct (decide (k' = k)) as [->|Hne]; [by left|right]. exists a. split; [done|].
    by rewrite (tls_on_data_flows a k dir data ts a' k' E Hne) in Hk'.
  - intros oa k reason k' (a' & E & Hk'). destruct oa as [a|]; [|done]. simpl in E. simplify_eq. cbn in Hk'.
    apply lookup_delete_is_Some in Hk' as [Hne Hk']. split; [done|]. by exists a.
Defined.

(** An analyzer only holds flows that are committed to it, and a committed
    flow has delivered bytes since it was opened; once every cursor is back
    at the start, nothing is held. *)
Lemma released `{FlowTable A} max t c es c' s (a : A) :
  ordered c es c' → t ≠ NoTarget → (∀ k dir, 1 ≤ c k dir) →
  (∀ k u, s k = Committed u → ∃ dir, 1 < c k dir) →
  (∀ k, holds_flow a k → s k = Committed t) →
  ∀ k, holds_flow (replay a (seen_by t (assignments max s es))) k → ∃ dir, 1 < c' k dir.
Proof.
  intros Ho Ht. revert s a.
  induction Ho as [c c' He|c c' k dir data off ts es -> Hd _ IH|c c' k reason es _ IH];
    intros s a Hc Hs Ha k0 Hk0.
  - destruct (Hs k0 t (Ha k0 Hk0)) as [dir ?]. exists dir. by rewrite He.
  - simpl in Hk0. destruct (note_chunk max (s k) k data) as [x u] eqn:En.
    unfold seen_by in Hk0. rewrite filter_cons in Hk0.
    pose proof (zlen_pos _ Hd).
    eapply (IH (set_fate s k x) (if decide (u = t) then on_data a k dir data (c k dir) ts else a)).
    + clear Hk0. intros k' dir'. unfold advance. specialize (Hc k' dir').
      case_decide as E; [|done]. destruct E as [-> ->]. lia.
    + clear Hk0. intros k' u'. unfold set_fate. case_decide as E.
      * intros _. subst k'. exists dir. unfold advance. rewrite decide_True by done.
        specialize (Hc k dir). lia.
      * intros Hu. destruct (Hs k' u' Hu) as [dir' ?]. exists dir'. unfold advance.
        rewrite decide_False by (intros [? _]; done). done.
    + clear Hk0. intros k' Hk'. unfold set_fate. destruct (decide (k' = k)) as [->|E].
      * assert (s k = Committed t ∨ u = t) as Hor.
        { case_decide as Eu; [by right|]. left. by apply Ha. }
        unfold note_chunk in En. destruct (s k) as [n|v].
        -- destruct Hor as [| ->]; [done|]. simplify_eq. by rewrite decide_False.
        -- simplify_eq. destruct Hor as [[= ->]| ->]; done.
      * case_decide; [|by apply Ha]. by destruct (holds_flow_data _ _ _ _ _ _ _ Hk') as [|?%Ha].
    + revert Hk0. cbn [fst]. by destruct (decide (u = t)).
  - simpl in Hk0. unfold seen_by in Hk0. rewrite filter_cons in Hk0.
    set (u := match s k with Committed v => v | Trying _ => NoTarget end) in *.
    eapply (IH (set_fate s k (Trying 0)) (if decide (u = t) then on_flow_close a k reason else a)).
    + clear Hk0. intros k' dir'. unfold restart. by case_decide.
    + clear Hk0. intros k' u'. unfold set_fate. case_decide as E; [done|]. intros Hu.
      destruct (Hs k' u' Hu) as [dir' ?]. exists dir'. unfold restart. by rewrite decide_False.
    + clear Hk0. intros k' Hk'. unfold set_fate. destruct (decide (k' = k)) as [->|E].
      * exfalso. case_decide as Eu.
        -- by destruct (holds_flow_close _ _ _ _ Hk').
        -- apply Eu. unfold u. by rewrite (Ha _ Hk').
      * case_decide; [|by apply Ha]. apply Ha. by eapply holds_flow_close.
    + revert Hk0. cbn [fst]. by destruct (decide (u = t)).
Qed.

(** C2. The assembled pipeline never panics.  Any capture of at most 2^32 - 1
    payload bytes, with any configuration accepted by [TcpReassembler::new],
    runs to the end through the engine, the dispatcher and the Modbus, DNP3,
    EtherNet/IP and IEC-104 analyzers, whatever the HTTP and TLS analyzers are
    and in whatever order the hash maps iterate; afterwards all four analyzers
    are within their bounds for the bytes of the capture. *)
Theorem pipeline_never_panics {HTTP TLS : Type}
    `{!StreamHandler HTTP, !StreamHandler TLS, !ScanOrders}
    (HO : HashOrder) (h : option HTTP) (t : option TLS) th max gaps c packets :
  max ≤ u32_max → cfg_ok c → Forall (λ pt, packet_ok pt.1) packets →
  zlen packets ≤ u64_max → payload_total packets ≤ u32_max →
  ∃ r0 r1 r2 d1 d2 m d e i, TcpReassembler_new c = Some r0 ∧
    run_packets r0 (pipeline h t th max gaps) packets = Some (r1, d1) ∧
    finalize r1 d1 = Some (r2, d2) ∧
    modbus d2 = Some (Some m) ∧ dnp3 d2 = Some (Some d) ∧
    enip d2 = Some (Some e) ∧ iec104 d2 = Some (Some i) ∧
    modbus_ok (payload_total packets) m ∧ dnp3_ok (payload_total packets) d ∧
    enip_ok (payload_total packets) e ∧ iec_ok (payload_total packets) i.
Proof.
  intros Hm Hc Hp Hn Hb.
  destruct (whole_capture_spec HO c packets)
    as (r0 & r1 & r2 & es1 & es2 & E0 & E1 & E2 & _ & _ & Hbytes); [done|done|done|ulia|].
  destruct (pipeline_replay h t th max gaps (es1 ++ es2) Hm) as (_ & _ & Hmod & Hdnp & Heni & Hiec).
  set (p := pipeline h t th max gaps) in *.
  set (l := assignments max no_fates (es1 ++ es2)) in *.
  assert (∀ u, trace_bytes (seen_by u l) ≤ payload_total packets) as Hl.
  { intros u. pose proof (trace_bytes_seen_by u l) as Hu. unfold l in Hu at 2.
    rewrite assignments_events in Hu. lia. }
  destruct (modbus_replay_ok (seen_by Dispatcher.Modbus l) 0
    (ModbusAnalyzer_new (modbus_burst th) (modbus_sustained th)))
    as (m & Em & Wm); [apply modbus_ok_new|done|specialize (Hl Dispatcher.Modbus); lia|].
  destruct (dnp3_replay_ok (seen_by Dispatcher.Dnp3 l) 0 _ (dnp3_ok_new (dnp3_operates th)))
    as (d & Ed & Wd); [specialize (Hl Dispatcher.Dnp3); ulia|].
  destruct (enip_replay_ok (seen_by Dispatcher.Enip l) 0 _ (enip_ok_new (enip_writes th) (enip_errors th)))
    as (e & Ee & We); [specialize (Hl Dispatcher.Enip); ulia|].
  destruct (iec_replay_ok (seen_by Dispatcher.Iec104 l) 0 Iec104Analyzer_new iec_ok_new)
    as (i & Ei & Wi).
  exists r0, r1, r2, (replay p es1), (replay p (es1 ++ es2)), m, d, e, i.
  split_and!; [done|apply E1|by rewrite E2, replay_app|by rewrite Hmod, Em|by rewrite Hdnp, Ed
    |by rewrite Heni, Ee|by rewrite Hiec, Ei|..].
  - eapply modbus_ok_mono; [|done]. apply Hl.
  - eapply dnp3_ok_mono; [|done]. apply Hl.
  - eapply enip_ok_mono; [|done]. apply Hl.
  - eapply iec_ok_mono; [|done]. apply Hl.
Qed.

(** An analyzer that starts with no flow holds none at the end. *)
Lemma released_all `{FlowTable A} max t es (a : A) :
  ordered (λ _ _, 1) es (λ _ _, 1) → t ≠ NoTarget → (∀ k, ¬ holds_flow a k) →
  ∀ k, ¬ holds_flow (replay a (seen_by t (assignments max no_fates es))) k.
Proof.
  intros Ho Ht Ha k Hk.
  destruct (released max t _ _ _ no_fates a Ho) with (k := k) as [dir ?]; try done; try lia.
  intros k' ?%Ha. done.
Qed.

Lemma empty_flows {V} (m : gmap FlowKey V) : (∀ k, ¬ is_Some (m !! k)) → m = ∅.
Proof. intros Hm. apply map_empty. intros k. apply eq_None_not_Some, Hm. Qed.

(** A slot of the dispatcher at the end of a capture, whose analyzer [a0] was
    new. *)
Lemma slot_released {A V} `{FlowTable (option A)} (flows_of : A → gmap FlowKey V) max u es (a0 a : A) :
  (∀ x k, is_Some (flows_of x !! k) ↔ holds_flow (Some x) k) →
  ordered (λ _ _, 1) es (λ _ _, 1) → u ≠ NoTarget → flows_of a0 = ∅ →
  replay (Some a0) (seen_by u (assignments max no_fates es)) = Some a → flows_of a = ∅.
Proof.
  intros Hh Ho Hu Hnew Ea. apply empty_flows. intros k Hk%Hh. rewrite <- Ea in Hk. revert Hk. apply released_all; [done|done|].
  intros k' Hk'%Hh. rewrite Hnew, lookup_empty in Hk'. by destruct Hk'.
Qed.

(** C3. No flow state outlives the capture.  After [finalize], none of the six
    stream analyzers holds a flow: every flow the engine ever handed to one of
    them has been closed there too, whatever was evicted, expired or reopened in
    between. *)
Theorem pipeline_releases_flow_state `{!HttpLib, !TlsLib, !ScanOrders} (HO : HashOrder) th max gaps c packets :
  max ≤ u32_max → cfg_ok c → Forall (λ pt, packet_ok pt.1) packets →
  zlen packets ≤ u64_max → payload_total packets ≤ u64_max →
  ∃ r0 r1 r2 d1 d2, TcpReassembler_new c = Some r0 ∧
    run_packets r0 (pipeline (Some (Some HttpAnalyzer_new)) (Some (Some TlsAnalyzer_new)) th max gaps) packets = Some (r1, d1) ∧
    finalize r1 d1 = Some (r2, d2) ∧
    (∀ a, http d2 = Some (Some a) → Http.flows a = ∅) ∧
    (∀ a, tls d2 = Some (Some a) → Tls.flows a = ∅) ∧
    (∀ m, modbus d2 = Some (Some m) → Modbus.flows m = ∅) ∧
    (∀ d, dnp3 d2 = Some (Some d) → Dnp3.flows d = ∅) ∧
    (∀ e, enip d2 = Some (Some e) → Enip.flows e = ∅) ∧
    (∀ i, iec104 d2 = Some (Some i) → Iec104.flows i = ∅).
Proof.
  intros Hm Hc Hp Hn Hb.
  destruct (whole_capture_spec HO c packets)
    as (r0 & r1 & r2 & es1 & es2 & E0 & E1 & E2 & O & _ & _); [done..|].
  set (h := Some (Some HttpAnalyzer_new)). set (t := Some (Some TlsAnalyzer_new)).
  destruct (pipeline_replay h t th max gaps (es1 ++ es2) Hm) as (Hhttp & Htls & Hmod & Hdnp & Heni & Hiec).
  set (p := pipeline h t th max gaps) in *.
  exists r0, r1, r2, (replay p es1), (replay p (es1 ++ es2)).
  split_and!; [done|apply E1|by rewrite E2, replay_app|..].
  - intros a. rewrite Hhttp. intros Ea%(inj Some). eapply (slot_released Http.flows); [..|exact Ea]; try done. naive_solver.
  - intros a. rewrite Htls. intros Ea%(inj Some). eapply (slot_released Tls.flows); [..|exact Ea]; try done. naive_solver.
  - intros a. rewrite Hmod. intros Ea%(inj Some). eapply (slot_released Modbus.flows); [..|exact Ea]; try done. naive_solver.
  - intros a. rewrite Hdnp. intros Ea%(inj Some). eapply (slot_released Dnp3.flows); [..|exact Ea]; try done. naive_solver.
  - intros a. rewrite Heni. intros Ea%(inj Some). eapply (slot_released Enip.flows); [..|exact Ea]; try done. naive_solver.
  - intros a. rewrite Hiec. intros Ea%(inj Some). eapply (slot_released Iec104.flows); [..|exact Ea]; try done. naive_solver.
Qed.

#[local] Existing Instance list_order.

#[local] Existing Instance list_iter_order.
#[local] Instance list_scan_orders : ScanOrders := {}.

(** A capture of two flows: a Modbus write request to port 502 in two segments,
    the second one first, and an EtherNet/IP ListIdentity to port 44818. *)
Definition sample_packet (port sq : Z) (data : list Z) : ParsedPacket := {|
  src_ip := ReassemblyProps.client_ip; dst_ip := ReassemblyProps.server_ip; protocol := PTcp;
  transport := TTcp 40000 port sq false true false false;
  payload := data; packet_len := 54 + zlen data
|}.

Definition mixed_capture : list (ParsedPacket * Z) :=
  [(sample_packet 502 100 [0; 1; 0; 0; 0], 1);
   (sample_packet 502 109 [0; 0; 3], 2);
   (sample_packet 44818 7 sample_identity, 2);
   (sample_packet 502 105 [6; 1; 6; 0], 3)].

Lemma mixed_capture_ok : Forall (λ pt, packet_ok pt.1) mixed_capture.
Proof. repeat constructor; vm_compute; discriminate. Qed.

Definition sample_thresholds : thresholds := mkThresholds 20 10 10 50 10.

Definition sample_pipeline : StreamDispatcher trace trace (option ModbusAnalyzer)
    (option Dnp3Analyzer) (option EnipAnalyzer) (option Iec104Analyzer) :=
  pipeline None None sample_thresholds 3 false.

Lemma pipeline_never_panics_witness :
  ∃ r0 r1 r2 d1 d2 m d e i, TcpReassembler_new ReassemblyConfig_default = Some r0 ∧
    run_packets r0 sample_pipeline mixed_capture = Some (r1, d1) ∧
    finalize r1 d1 = Some (r2, d2) ∧
    modbus d2 = Some (Some m) ∧ dnp3 d2 = Some (Some d) ∧
    enip d2 = Some (Some e) ∧ iec104 d2 = Some (Some i) ∧
    Modbus.total_pdu_count m = 1 ∧ zlen (Modbus.all_findings m) = 1 ∧
    Enip.total_pdu_count e = 1 ∧ zlen (Enip.all_findings e) = 1.
Proof.
  destruct (pipeline_never_panics (HTTP := trace) (TLS := trace) list_order None None
    sample_thresholds 3 false ReassemblyConfig_default mixed_capture)
    as (r0 & r1 & r2 & d1 & d2 & m & d & e & i & E0 & E1 & E2 & Em & Ed & Ee & Ei & _).
  - vm_compute. discriminate.
  - exact cfg_ok_default.
  - exact mixed_capture_ok.
  - vm_compute. discriminate.
  - vm_compute. discriminate.
  - exists r0, r1, r2, d1, d2, m, d, e, i.
    split; [exact E0|split; [exact E1|split; [exact E2|split; [exact Em|split; [exact Ed|
      split; [exact Ee|split; [exact Ei|]]]]]]].
    vm_compute in E0. injection E0 as <-. vm_compute in E1. injection E1 as <- <-.
    vm_compute in E2. injection E2 as <- <-. vm_compute in Em. injection Em as <-.
    vm_compute in Ee. injection Ee as <-. vm_compute. repeat split; reflexivity.
Defined.

#[local] Existing Instance sample_http_lib.
#[local] Existing Instance TinyTls.tiny_lib.

(** The capture with the start of a request to port 80 in front. *)
Definition web_capture : list (ParsedPacket * Z) := (sample_packet 80 7 [71; 69; 84; 32], 1) :: mixed_capture.

Lemma pipeline_releases_flow_state_witness :
  ∃ r0 r1 r2 d1 d2, TcpReassembler_new ReassemblyConfig_default = Some r0 ∧
    run_packets r0 (pipeline (Some (Some HttpAnalyzer_new)) (Some (Some TlsAnalyzer_new)) sample_thresholds 3 false) web_capture = Some (r1, d1) ∧
    finalize r1 d1 = Some (r2, d2) ∧
    (∀ a, http d2 = Some (Some a) → Http.flows a = ∅) ∧
    (∀ m, modbus d2 = Some (Some m) → Modbus.flows m = ∅).
Proof.
  destruct (pipeline_releases_flow_state list_order sample_thresholds 3 false ReassemblyConfig_default web_capture)
    as (r0 & r1 & r2 & d1 & d2 & E0 & E1 & E2 & Hh & _ & Hm & _).
  - vm_compute. discriminate.
  - exact cfg_ok_default.
  - apply Forall_cons. split; [repeat constructor; vm_compute; discriminate|exact mixed_capture_ok].
  - vm_compute. discriminate.
  - vm_compute. discriminate.
  - exists r0, r1, r2, d1, d2.
    split; [exact E0|split; [exact E1|split; [exact E2|split; [exact Hh|exact Hm]]]].
Defined.
