(* ===== verification/Analyze.v ===== *)
(** * The command (src/main.rs, src/cli.rs)

    [run_analyze] and [run_summary]: the targets and the files they name, the
    decode loop that feeds the totals, the DNS and ARP analyzers, the engine
    with its dispatcher and the coverage counters, finalization, and the
    collection of the results into a report.  The file system is a record of
    what its calls answer; lines on stderr are values; the report carries what
    the reporters are given and where their output goes.  The progress bar is
    output only.  The theorems are in [AnalyzeProps], [CommandProps] and
    [OutputProps]. *)

From S2P Require Import Prelude FlowKey Handler Findings Reader Decoder Triage Catalog Coverage.
From S2P Require Import Flow Segment Reassembly Modbus Dnp3 Enip Iec104 Arp Http Tls Dispatcher Pipeline.
Import Summary Dns Catalog.Protocols.

#[local] Open Scope Z_scope.

(** ** The command line *)

(** A path is the list of its components. *)
Abbreviation Path := (list string).

Inductive OutputFormat := Json | Csv.

Record Cli := mkCli {
  no_color : bool;
  output_format : option OutputFormat;
  json : option (option Path);
  csv : option (option Path);
  reassemble : bool;
  no_reassemble : bool;
  reassembly_depth : Z;
  reassembly_memcap : Z;
  overlap_threshold : option Z;
  small_segment_threshold : option Z;
  small_segment_max : option Z;
  small_segment_ports : option (list Z);
  out_of_window_threshold : option Z;
  flow_timeout : Z
}.

(** The arguments of [analyze] and of [summary]. *)
Record AnalyzeArgs := mkAnalyzeArgs {
  targets : list Path;
  arg_dns : bool;
  arg_http : bool;
  arg_tls : bool;
  arg_all : bool;
  arg_mitre : bool;
  arg_no_collapse : bool;
  arg_modbus : bool;
  modbus_write_burst_threshold : Z;
  modbus_write_sustained_threshold : Z;
  arg_dnp3 : bool;
  dnp3_direct_operate_threshold : Z;
  arg_arp : bool;
  arp_spoof_threshold : Z;
  arp_storm_rate : Z;
  arg_enip : bool;
  enip_write_burst_threshold : Z;
  enip_error_burst_threshold : Z;
  arg_iec104 : bool;
  arg_coverage_gaps : bool
}.

Inductive ProtocolFilter := FilterAll | FilterSupported | FilterUnsupported.

Inductive Commands :=
  | Analyze (args : AnalyzeArgs)
  | SummaryCommand (targets : list Path) (hosts : bool)
  | Protocols (supported unsupported : bool).

(** The arguments of [run_analyze]: what [--all] implies is resolved. *)
Record RunOptions := mkOptions {
  run_targets : list Path;
  enable_dns : bool;
  enable_http : bool;
  enable_tls : bool;
  enable_modbus : bool;
  enable_dnp3 : bool;
  enable_arp : bool;
  enable_enip : bool;
  enable_iec104 : bool;
  run_thresholds : thresholds;
  spoof : Z;
  storm : Z;
  show_mitre_grouping : bool;
  collapse_findings : bool;
  use_color : bool;
  coverage_gaps : bool
}.

#[global] Instance RunOptions_eta : Eta RunOptions := λ o,
  mkOptions (run_targets o) (enable_dns o) (enable_http o) (enable_tls o) (enable_modbus o) (enable_dnp3 o)
    (enable_arp o) (enable_enip o) (enable_iec104 o) (run_thresholds o) (spoof o) (storm o)
    (show_mitre_grouping o) (collapse_findings o) (use_color o) (coverage_gaps o).

Definition collapse_findings_from_flag (no_collapse : bool) : bool := negb no_collapse.

Definition options_of (a : AnalyzeArgs) (color : bool) : RunOptions := {|
  run_targets := targets a;
  enable_dns := arg_dns a || arg_all a;
  enable_http := arg_http a || arg_all a;
  enable_tls := arg_tls a || arg_all a;
  enable_modbus := arg_modbus a || arg_all a;
  enable_dnp3 := arg_dnp3 a || arg_all a;
  enable_arp := arg_arp a || arg_all a;
  enable_enip := arg_enip a || arg_all a;
  enable_iec104 := arg_iec104 a || arg_all a;
  run_thresholds := mkThresholds (modbus_write_burst_threshold a) (modbus_write_sustained_threshold a)
    (dnp3_direct_operate_threshold a) (enip_write_burst_threshold a) (enip_error_burst_threshold a);
  spoof := arp_spoof_threshold a;
  storm := arp_storm_rate a;
  show_mitre_grouping := arg_mitre a;
  collapse_findings := collapse_findings_from_flag (arg_no_collapse a);
  use_color := color;
  coverage_gaps := arg_coverage_gaps a
|}.

Inductive Grouping := Flat | Grouped.
Inductive Collapse := Collapsed | Expanded.

Definition grouping_from_flag (show : bool) : Grouping := if show then Grouped else Flat.

Definition resolve_format (cli : Cli) : option OutputFormat :=
  match json cli with
  | Some _ => Some Json
  | None => match csv cli with Some _ => Some Csv | None => output_format cli end
  end.

(** Where the output goes. *)
Inductive Destination := ToFile (p : Path) | Stdout.

Definition destination (cli : Cli) : Destination :=
  match json cli, csv cli with
  | Some (Some path), _ => ToFile path
  | _, Some (Some path) => ToFile path
  | _, _ => Stdout
  end.

(** ** Targets *)

(** What the file system answers; [read_dir] yields its entries one by one,
    each of which can fail; [write_ok] is whether the output can be written to
    a path. *)
Record filesystem := mkFs {
  is_file : Path → bool;
  is_dir : Path → bool;
  read_dir : Path → option (list (option Path));
  open_file : Path → option file;
  write_ok : Path → bool
}.

(** [read_exact] of four bytes. *)
Definition read_magic (fs : filesystem) (p : Path) : option (list Z) :=
  f ← open_file fs p;
  first ← filled (contents f);
  bytes ← (if 4 <=? zlen first then Some first
           else rest ← remaining (contents f); Some (first ++ rest));
  if 4 <=? zlen bytes then Some (take 4 bytes) else None.

Definition CAPTURE_MAGICS : list (list Z) := [
  [0xA1; 0xB2; 0xC3; 0xD4];
  [0xD4; 0xC3; 0xB2; 0xA1];
  [0xA1; 0xB2; 0x3C; 0x4D];
  [0x4D; 0x3C; 0xB2; 0xA1];
  [0x0A; 0x0D; 0x0D; 0x0A]
].

(** The order of paths: component by component. *)
Fixpoint path_leb (p q : Path) : bool :=
  match p, q with
  | [], _ => true
  | _ :: _, [] => false
  | a :: p, b :: q =>
      match String.compare a b with Lt => true | Gt => false | Eq => path_leb p q end
  end.

Definition path_le (p q : Path) : Prop := path_leb p q = true.

#[global] Instance path_le_dec : RelDecision path_le.
Proof. intros p q. unfold path_le. apply _. Defined.

Inductive TargetError := ReadDirFailed | EntryFailed | TargetNotFound (p : Path).

Definition is_capture (fs : filesystem) (p : Path) : bool :=
  is_file fs p && match read_magic fs p with Some m => bool_decide (m ∈ CAPTURE_MAGICS) | None => false end.

(** The entries of a directory that are captures, up to the first entry that
    cannot be read. *)
Fixpoint capture_entries (fs : filesystem) (entries : list (option Path)) : TargetError + list Path :=
  match entries with
  | [] => inr []
  | None :: _ => inl EntryFailed
  | Some p :: rest =>
      match capture_entries fs rest with
      | inl e => inl e
      | inr files => inr (if is_capture fs p then p :: files else files)
      end
  end.

Definition resolve_targets (fs : filesystem) (target : Path) : TargetError + list Path :=
  if is_file fs target then inr [target]
  else if is_dir fs target then
    match read_dir fs target with
    | None => inl ReadDirFailed
    | Some entries =>
        match capture_entries fs entries with
        | inl e => inl e
        | inr files => inr (merge_sort path_le files)
        end
    end
  else inl (TargetNotFound target).

(** ** Lines on stderr *)

Inductive diagnostic `{PcapFile} :=
  | HttpTlsSkipped
  | ModbusSkipped
  | Dnp3Skipped
  | EnipSkipped
  | Iec104Skipped
  | FileFailed (p : Path) (e : ReadError)
  | NoPackets (text : string)
  | DecodeFailed (e : DecodeError).

(** [path.display()]; the root is an empty first component. *)
Definition path_display (p : Path) : string := join "/" p.

Definition format_zero_packet_notice `{PcapFile} (p : Path) (source : PcapSource) : string :=
  let file_kind := (if is_pcapng source then "pcapng file" else "pcap file")%string in
  let base := ("notice: " +:+ path_display p +:+ ": 0 packets read from " +:+ file_kind)%string in
  let g := sat_sub (skipped_blocks source) (opb_skipped source) in
  let n := opb_skipped source in
  let generic := (" (" +:+ decimal g +:+ " block(s) skipped as unsupported)")%string in
  let obsolete := (" (includes " +:+ decimal n
    +:+ " obsolete Packet Block(s) whose data was not analyzed; re-save with mergecap)")%string in
  match (0 <? g)%Z, (0 <? n)%Z with
  | false, false => base
  | true, false => (base +:+ generic)%string
  | false, true => (base +:+ obsolete)%string
  | true, true => (base +:+ generic +:+ obsolete)%string
  end.

(** ** The decode loop *)

Section run.
Context `{Etherparse, !HashOrder, !ScanOrders}.
Context `{!IterOrder Ip4 BindingEntry, !IterOrder Mac StormCounter, !IterOrder FlowKey Dnp3FlowState}.
Context `{HttpLib, TlsLib}.

(** The dispatcher with the analyzers of the program.  [None] inside an
    analyzer slot is an analyzer that panicked; it stays so, and the panic is
    taken up when the analyzer is read at the end. *)
Abbreviation Dispatcher := (StreamDispatcher (option HttpAnalyzer) (option TlsAnalyzer) (option ModbusAnalyzer)
  (option Dnp3Analyzer) (option EnipAnalyzer) (option Iec104Analyzer)).

(** The locals of [run_analyze] that the loop changes. *)
Record Run := mkRun {
  totals : Summary;
  dns_analyzer : DnsAnalyzer;
  arp_analyzer : ArpAnalyzer;
  loop_findings : list Finding;
  total_decode_errors : Z;
  udp_unclassified_counts : gmap (TransportProto * Z) Z;
  reassembler : option TcpReassembler;
  dispatcher : Dispatcher;
  any_error : bool;
  stderr : list diagnostic
}.

#[global] Instance Run_eta : Eta Run := λ s,
  mkRun (totals s) (dns_analyzer s) (arp_analyzer s) (loop_findings s) (total_decode_errors s)
    (udp_unclassified_counts s) (reassembler s) (dispatcher s) (any_error s) (stderr s).

(** The arm of an IP packet, by consumer. *)
Definition feed_dns (o : RunOptions) (s : Run) (p : ParsedPacket) : panicky Run :=
  if enable_dns o && can_decode p then
    '(a, fs) ← dns_analyze (dns_analyzer s) p;
    Some (s <| dns_analyzer := a |> <| loop_findings := loop_findings s ++ fs |>)
  else Some s.

Definition feed_engine (s : Run) (p : ParsedPacket) (ts : Z) : panicky Run :=
  match reassembler s with
  | Some r =>
      '(r, d) ← process_packet r (dispatcher s) p ts;
      Some (s <| reassembler := Some r |> <| dispatcher := d |>)
  | None => Some s
  end.

Definition count_udp_gap (o : RunOptions) (s : Run) (p : ParsedPacket) : Run :=
  if coverage_gaps o then
    match udp_gap_key p (can_decode p) with
    | Some key =>
        let c := sat_add u64_max (default 0 (udp_unclassified_counts s !! key)) 1 in
        s <| udp_unclassified_counts := <[key := c]> (udp_unclassified_counts s) |>
    | None => s
    end
  else s.

Definition on_ip (o : RunOptions) (s : Run) (p : ParsedPacket) (ts : Z) : panicky Run :=
  t ← ingest (totals s) p;
  s ← feed_dns o (s <| totals := t |>) p;
  s ← feed_engine s p ts;
  Some (count_udp_gap o s p).

Definition on_arp (o : RunOptions) (s : Run) (f : ArpFrame) (ts : Z) : panicky Run :=
  if enable_arp o then
    '(a, fs) ← process_arp (arp_analyzer s) f ts;
    Some (s <| arp_analyzer := a |> <| loop_findings := loop_findings s ++ fs |>)
  else Some s.

Definition on_malformed_arp (o : RunOptions) (s : Run) (len : Z) : Run :=
  if enable_arp o then
    let '(a, fs) := record_malformed (arp_analyzer s) len in
    s <| arp_analyzer := a |> <| loop_findings := loop_findings s ++ fs |>
  else
    s <| arp_analyzer := (arp_analyzer s) <| malformed_frames := sat_add u64_max (malformed_frames (arp_analyzer s)) 1 |> |>.

Definition on_decode_error (s : Run) (e : DecodeError) : Run :=
  let s := if total_decode_errors s =? 0 then s <| stderr := stderr s ++ [DecodeFailed e] |> else s in
  s <| total_decode_errors := sat_add u64_max (total_decode_errors s) 1 |>.

(** The guard by which malformed ARP frames are told from other errors. *)
Definition is_malformed_arp (e : DecodeError) : bool := contains "Non-Ethernet/IPv4 ARP frame" (decode_error_text e).

Definition analyze_packet (o : RunOptions) (dl : DataLink) (s : Run) (raw : RawPacket) : panicky Run :=
  r ← decode_packet (Reader.data raw) dl;
  match r with
  | inr (DIp p) => on_ip o s p (timestamp_secs raw)
  | inr (DArp f) => on_arp o s f (timestamp_secs raw)
  | inl e =>
      Some (if is_malformed_arp e then on_malformed_arp o s (zlen (Reader.data raw)) else on_decode_error s e)
  end.

Fixpoint analyze_packets (o : RunOptions) (dl : DataLink) (s : Run) (raws : list RawPacket) : panicky Run :=
  match raws with
  | [] => Some s
  | raw :: rest => s ← analyze_packet o dl s raw; analyze_packets o dl s rest
  end.

(** One file: a reader error is reported and the batch goes on. *)
Definition analyze_file (fs : filesystem) (o : RunOptions) (s : Run) (path : Path) : panicky Run :=
  source ← from_file (open_file fs path);
  match source with
  | inl e => Some (s <| stderr := stderr s ++ [FileFailed path e] |> <| any_error := true |>)
  | inr source =>
      match packets source with
      | [] => Some (s <| stderr := stderr s ++ [NoPackets (format_zero_packet_notice path source)] |>)
      | raws => analyze_packets o (datalink source) s raws
      end
  end.

Fixpoint analyze_files (fs : filesystem) (o : RunOptions) (s : Run) (paths : list Path) : panicky Run :=
  match paths with
  | [] => Some s
  | p :: rest => s ← analyze_file fs o s p; analyze_files fs o s rest
  end.

(** The targets in turn; one that cannot be resolved ends the run. *)
Fixpoint analyze_targets (fs : filesystem) (o : RunOptions) (s : Run) (ts : list Path) : panicky (TargetError + Run) :=
  match ts with
  | [] => Some (inr s)
  | t :: rest =>
      match resolve_targets fs t with
      | inl e => Some (inl e)
      | inr paths => s ← analyze_files fs o s paths; analyze_targets fs o s rest
      end
  end.

(** ** Set-up *)

Definition MIB : Z := 1048576.

(** The engine's configuration; the products are checked. *)
Definition build_config (cli : Cli) : panicky ReassemblyConfig :=
  depth ← cmul usize_max (reassembly_depth cli) MIB;
  cap ← cmul usize_max (reassembly_memcap cli) MIB;
  let d := ReassemblyConfig_default in
  Some {|
    max_depth := depth;
    memcap := cap;
    flow_timeout_secs := Z.min (flow_timeout cli) u32_max;
    max_flows := max_flows d;
    max_segments_per_direction := max_segments_per_direction d;
    max_receive_window := max_receive_window d;
    overlap_alert_threshold := default (overlap_alert_threshold d) (overlap_threshold cli);
    small_segment_alert_threshold := default (small_segment_alert_threshold d) (small_segment_threshold cli);
    small_segment_max_bytes := default (small_segment_max_bytes d) (small_segment_max cli);
    small_segment_ignore_ports := default (small_segment_ignore_ports d) (small_segment_ports cli);
    out_of_window_alert_threshold := default (out_of_window_alert_threshold d) (out_of_window_threshold cli);
    expiry_sweep_interval := expiry_sweep_interval d;
    idle_packet_threshold := idle_packet_threshold d
  |}.

Definition needs_reassembly (o : RunOptions) (cli : Cli) : bool :=
  reassemble cli || enable_http o || enable_tls o || enable_modbus o || enable_dnp3 o || enable_enip o || enable_iec104 o.

Definition build_reassembler (o : RunOptions) (cli : Cli) : panicky (option TcpReassembler) :=
  if needs_reassembly o cli && negb (no_reassemble cli) then
    config ← build_config cli;
    r ← TcpReassembler_new config;
    Some (Some r)
  else Some None.

(** An analyzer that is enabled and can be fed. *)
Definition if_fed {A} (enabled : bool) (cli : Cli) (a : A) : option (option A) :=
  if enabled && negb (no_reassemble cli) then Some (Some a) else None.

Definition build_dispatcher (o : RunOptions) (cli : Cli) : Dispatcher :=
  let th := run_thresholds o in
  with_coverage_gaps
    (StreamDispatcher_new (if_fed (enable_http o) cli HttpAnalyzer_new) (if_fed (enable_tls o) cli TlsAnalyzer_new)
      (if_fed (enable_modbus o) cli (ModbusAnalyzer_new (modbus_burst th) (modbus_sustained th)))
      (if_fed (enable_dnp3 o) cli (Dnp3Analyzer_new (dnp3_operates th)))
      (if_fed (enable_enip o) cli (EnipAnalyzer_new (enip_writes th) (enip_errors th)))
      (if_fed (enable_iec104 o) cli Iec104Analyzer_new))
    (coverage_gaps o).

Definition skip_warnings (o : RunOptions) (cli : Cli) : list diagnostic :=
  let warn b d := if (b : bool) && no_reassemble cli then [d] else [] in
  warn (enable_http o || enable_tls o) HttpTlsSkipped ++ warn (enable_modbus o) ModbusSkipped
  ++ warn (enable_dnp3 o) Dnp3Skipped ++ warn (enable_enip o) EnipSkipped ++ warn (enable_iec104 o) Iec104Skipped.

Definition initial_run (o : RunOptions) (cli : Cli) : panicky Run :=
  r ← build_reassembler o cli;
  Some {|
    totals := Summary_new;
    dns_analyzer := DnsAnalyzer_new;
    arp_analyzer := ArpAnalyzer_new (spoof o) (storm o);
    loop_findings := [];
    total_decode_errors := 0;
    udp_unclassified_counts := ∅;
    reassembler := r;
    dispatcher := build_dispatcher o cli;
    any_error := false;
    stderr := skip_warnings o cli
  |}.

(** ** Results *)

Inductive Reporter :=
  | JsonReporter
  | CsvReporter
  | TerminalReporter (color show_hosts_breakdown : bool) (grouping : Grouping) (collapse : Collapse).

(** What the reporter is given, where its output goes, and how the process
    ends. *)
Record Report := mkReport {
  rep_totals : Summary;
  rep_findings : list Finding;
  rep_summaries : list AnalysisSummary;
  rep_gaps : option (gmap (TransportProto * Z) Z);
  rep_reporter : Reporter;
  rep_destination : Destination;
  rep_exit : Z;
  rep_stderr : list diagnostic
}.

(** An analyzer slot read at the end. *)
Definition settled {A} (slot : option (option A)) : panicky (option A) :=
  match slot with
  | None => Some None
  | Some None => None
  | Some (Some a) => Some (Some a)
  end.

Definition settled_list {A B} (f : A → B) (a : option A) : list B :=
  match a with Some a => [f a] | None => [] end.

(** The six analyzers of the dispatcher. *)
Record Analyzers := mkAnalyzers {
  an_http : option HttpAnalyzer;
  an_tls : option TlsAnalyzer;
  an_modbus : option ModbusAnalyzer;
  an_dnp3 : option Dnp3Analyzer;
  an_enip : option EnipAnalyzer;
  an_iec104 : option Iec104Analyzer
}.

Definition take_analyzers (d : Dispatcher) : panicky Analyzers :=
  h ← settled (http d);
  t ← settled (tls d);
  m ← settled (modbus d);
  n ← settled (dnp3 d);
  e ← settled (enip d);
  i ← settled (iec104 d);
  Some (mkAnalyzers h t m n e i).

Definition analyzer_findings (a : Analyzers) : list Finding :=
  concat (settled_list Http.all_findings (an_http a)) ++ concat (settled_list Tls.all_findings (an_tls a))
  ++ concat (settled_list Modbus.all_findings (an_modbus a)) ++ concat (settled_list Dnp3.all_findings (an_dnp3 a))
  ++ concat (settled_list Enip.all_findings (an_enip a)) ++ concat (settled_list Iec104.all_findings (an_iec104 a)).

(** [finalize], when there is an engine. *)
Definition finish_engine (s : Run) : panicky Run :=
  match reassembler s with
  | Some r =>
      '(r, d) ← finalize r (dispatcher s);
      Some (s <| reassembler := Some r |> <| dispatcher := d |>)
  | None => Some s
  end.

Definition engine_summary (s : Run) : panicky (list AnalysisSummary) :=
  match reassembler s with
  | Some r =>
      m ← summarize r;
      Some [mkSummary (analyzer_name m) (packets_analyzed m)
        (<["unclassified_flows"%string := JNum (unclassified_flows (dispatcher s))]> (detail m))]
  | None => Some []
  end.

(** An optional summary of an analyzer whose [summarize] can overflow. *)
Definition settled_summary {A} (f : A → panicky AnalysisSummary) (a : option A) : panicky (list AnalysisSummary) :=
  match a with Some a => m ← f a; Some [m] | None => Some [] end.

Definition collect_summaries (o : RunOptions) (s : Run) (a : Analyzers) : panicky (list AnalysisSummary) :=
  engine ← engine_summary s;
  dns ← (if enable_dns o then m ← dns_summarize (dns_analyzer s); Some [m] else Some []);
  dnp3 ← settled_summary dnp3_summarize (an_dnp3 a);
  iec ← settled_summary iec_summarize (an_iec104 a);
  Some (engine ++ dns ++ settled_list http_summarize (an_http a) ++ settled_list tls_summarize (an_tls a)
    ++ settled_list modbus_summarize (an_modbus a) ++ dnp3 ++ settled_list enip_summarize (an_enip a) ++ iec
    ++ (if enable_arp o then [arp_summarize (arp_analyzer s)] else [])).

Definition choose_reporter (cli : Cli) (terminal : Reporter) : Reporter :=
  match resolve_format cli with
  | Some Json => JsonReporter
  | Some Csv => CsvReporter
  | None => terminal
  end.

(** Everything after the loop. *)
Definition conclude (o : RunOptions) (cli : Cli) (s : Run) : panicky Report :=
  let t := (totals s) <| skipped_packets := total_decode_errors s |> in
  s ← finish_engine s;
  a ← take_analyzers (dispatcher s);
  let engine_findings := match reassembler s with Some r => findings r | None => [] end in
  summaries ← collect_summaries o s a;
  gaps ← (if coverage_gaps o then
            all ← collect_all_gaps (unclassified_port_counts (dispatcher s)) (udp_unclassified_counts s);
            Some (Some all)
          else Some None);
  Some {|
    rep_totals := t;
    rep_findings := loop_findings s ++ engine_findings ++ analyzer_findings a;
    rep_summaries := summaries;
    rep_gaps := gaps;
    rep_reporter := choose_reporter cli (TerminalReporter (use_color o) false
      (grouping_from_flag (show_mitre_grouping o)) (if collapse_findings o then Collapsed else Expanded));
    rep_destination := destination cli;
    rep_exit := if any_error s then 1 else 0;
    rep_stderr := stderr s
  |}.

(** The errors that end a run without a report. *)
Inductive RunError :=
  | ZeroThreshold (flag : string)
  | BadTarget (e : TargetError)
  | WriteFailed (format : OutputFormat) (path : Path)
  | CsvUnsupported.

(** The file that [--json] or [--csv] names is written, which can fail;
    otherwise the output is printed, and the standard streams take it. *)
Definition write_output (fs : filesystem) (cli : Cli) : RunError + Destination :=
  match json cli, csv cli with
  | Some (Some path), _ => if write_ok fs path then inr (ToFile path) else inl (WriteFailed Json path)
  | _, Some (Some path) => if write_ok fs path then inr (ToFile path) else inl (WriteFailed Csv path)
  | _, _ => inr Stdout
  end.

Definition check_thresholds (o : RunOptions) : option RunError :=
  if modbus_burst (run_thresholds o) =? 0 then Some (ZeroThreshold "--modbus-write-burst-threshold")
  else if modbus_sustained (run_thresholds o) =? 0 then Some (ZeroThreshold "--modbus-write-sustained-threshold")
  else if storm o =? 0 then Some (ZeroThreshold "--arp-storm-rate")
  else if spoof o =? 0 then Some (ZeroThreshold "--arp-spoof-threshold")
  else None.

Definition run_analyze (fs : filesystem) (o : RunOptions) (cli : Cli) : panicky (RunError + Report) :=
  match check_thresholds o with
  | Some e => Some (inl e)
  | None =>
      s ← initial_run o cli;
      r ← analyze_targets fs o s (run_targets o);
      match r with
      | inl e => Some (inl (BadTarget e))
      | inr s =>
          rep ← conclude o cli s;
          Some (match write_output fs cli with inl e => inl e | inr _ => inr rep end)
      end
  end.

(** ** The summary command *)

Record Triage := mkTriage {
  tr_totals : Summary;
  tr_decode_errors : Z;
  tr_error : bool;
  tr_stderr : list diagnostic
}.

#[global] Instance Triage_eta : Eta Triage := λ s,
  mkTriage (tr_totals s) (tr_decode_errors s) (tr_error s) (tr_stderr s).

Definition summarize_packet (dl : DataLink) (s : Triage) (raw : RawPacket) : panicky Triage :=
  r ← decode_packet (Reader.data raw) dl;
  match r with
  | inr (DIp p) => t ← ingest (tr_totals s) p; Some (s <| tr_totals := t |>)
  | inr (DArp _) => Some s
  | inl e =>
      let s := if tr_decode_errors s =? 0 then s <| tr_stderr := tr_stderr s ++ [DecodeFailed e] |> else s in
      Some (s <| tr_decode_errors := sat_add u64_max (tr_decode_errors s) 1 |>)
  end.

Fixpoint summarize_packets (dl : DataLink) (s : Triage) (raws : list RawPacket) : panicky Triage :=
  match raws with
  | [] => Some s
  | raw :: rest => s ← summarize_packet dl s raw; summarize_packets dl s rest
  end.

Definition summarize_file (fs : filesystem) (s : Triage) (path : Path) : panicky Triage :=
  source ← from_file (open_file fs path);
  match source with
  | inl e => Some (s <| tr_stderr := tr_stderr s ++ [FileFailed path e] |> <| tr_error := true |>)
  | inr source =>
      match packets source with
      | [] => Some (s <| tr_stderr := tr_stderr s ++ [NoPackets (format_zero_packet_notice path source)] |>)
      | raws => summarize_packets (datalink source) s raws
      end
  end.

Fixpoint summarize_files (fs : filesystem) (s : Triage) (paths : list Path) : panicky Triage :=
  match paths with
  | [] => Some s
  | p :: rest => s ← summarize_file fs s p; summarize_files fs s rest
  end.

Fixpoint summarize_targets (fs : filesystem) (s : Triage) (ts : list Path) : panicky (TargetError + Triage) :=
  match ts with
  | [] => Some (inr s)
  | t :: rest =>
      match resolve_targets fs t with
      | inl e => Some (inl e)
      | inr paths => s ← summarize_files fs s paths; summarize_targets fs s rest
      end
  end.

Definition run_summary (fs : filesystem) (ts : list Path) (show_hosts color : bool) (cli : Cli) :
    panicky (RunError + Report) :=
  r ← summarize_targets fs (mkTriage Summary_new 0 false []) ts;
  Some (match r with
        | inl e => inl (BadTarget e)
        | inr s =>
            let rep := {|
              rep_totals := (tr_totals s) <| skipped_packets := tr_decode_errors s |>;
              rep_findings := [];
              rep_summaries := [];
              rep_gaps := None;
              rep_reporter := choose_reporter cli (TerminalReporter color show_hosts Flat Collapsed);
              rep_destination := destination cli;
              rep_exit := if tr_error s then 1 else 0;
              rep_stderr := tr_stderr s
            |} in
            match write_output fs cli with inl e => inl e | inr _ => inr rep end
        end).

(** ** The protocols command *)

(** The rows that are shown; CSV is refused, and only the JSON goes through
    [write_output]. *)
Definition run_protocols (fs : filesystem) (filter : ProtocolFilter) (cli : Cli) : RunError + list KnownProtocol :=
  let protocols := match filter with
    | FilterAll => all_protocols
    | FilterSupported => supported_protocols
    | FilterUnsupported => unsupported_protocols
    end in
  match resolve_format cli with
  | Some Json => match write_output fs cli with inl e => inl e | inr _ => inr protocols end
  | Some Csv => inl CsvUnsupported
  | None => inr protocols
  end.

Inductive Outcome :=
  | Reported (r : Report)
  | Failed (e : RunError)
  | Listed (ps : list KnownProtocol).

Definition main (fs : filesystem) (no_color_env : bool) (command : Commands) (cli : Cli) : panicky Outcome :=
  let color := negb (no_color cli) && negb no_color_env in
  let outcome (r : RunError + Report) := match r with inl e => Failed e | inr rep => Reported rep end in
  match command with
  | Analyze args => r ← run_analyze fs (options_of args color) cli; Some (outcome r)
  | SummaryCommand ts hosts => r ← run_summary fs ts hosts color cli; Some (outcome r)
  | Protocols supported unsupported =>
      Some (match run_protocols fs
          (if supported then FilterSupported else if unsupported then FilterUnsupported else FilterAll) cli with
        | inl e => Failed e
        | inr ps => Listed ps
        end)
  end.
End run.
