(* ===== verification/AnalyzeProps.v ===== *)
(** * Theorems about the command

    The decode loop is the composition of its consumers: each of the totals,
    the DNS analyzer, the engine with its dispatcher, the ARP analyzer and the
    counters is exactly what it would be alone on its own share of the frames.
    From this follow that no run panics ([run_analyze_ok]), that every frame is
    accounted for once and what the report holds. *)

From S2P Require Import Prelude FlowKey Handler Findings Reader ReaderProps Decoder DecoderProps Triage Catalog Coverage.
From S2P Require Import Flow Segment Reassembly ReassemblyFacts ReassemblyProps EngineCounts.
From S2P Require Import Modbus ModbusProps Dnp3 Dnp3Facts Dnp3Props Enip EnipProps Iec104 Iec104Props Arp ArpProps.
From S2P Require Import Http HttpProps Tls TlsProps Dispatcher Pipeline Analyze.
Import Summary Dns TriageFacts.

#[local] Open Scope Z_scope.

Section analyze.
Context `{PF : PcapFile, EP : !Etherparse, EL : !EtherparseLaws, HO : !HashOrder, SO : !ScanOrders}.
Context `{!IterOrder Ip4 BindingEntry, !IterOrder Mac StormCounter, !IterOrder FlowKey Dnp3FlowState}.
Context `{HL : HttpLib, HW : !HttpLaws, TL : TlsLib}.

Abbreviation Dispatcher_t := (StreamDispatcher (option HttpAnalyzer) (option TlsAnalyzer) (option ModbusAnalyzer)
  (option Dnp3Analyzer) (option EnipAnalyzer) (option Iec104Analyzer)).

(** ** The frames of a run and their shares *)

(** A captured frame and the link type of its file. *)
Definition frame : Type := RawPacket * DataLink.

Definition decoded (f : frame) : panicky (DecodeError + DecodedFrame) := decode_packet (Reader.data f.1) f.2.

Definition ip_share (f : frame) : option (ParsedPacket * Z) :=
  match decoded f with Some (inr (DIp p)) => Some (p, timestamp_secs f.1) | _ => None end.

(** What the ARP analyzer is told. *)
Inductive arp_event :=
  | ArpSeen (a : ArpFrame) (ts : Z)
  | ArpMalformed (len : Z).

Definition arp_share (f : frame) : option arp_event :=
  match decoded f with
  | Some (inr (DArp a)) => Some (ArpSeen a (timestamp_secs f.1))
  | Some (inl e) => if is_malformed_arp e then Some (ArpMalformed (zlen (Reader.data f.1))) else None
  | _ => None
  end.

Definition error_share (f : frame) : option DecodeError :=
  match decoded f with
  | Some (inl e) => if is_malformed_arp e then None else Some e
  | _ => None
  end.

Definition ips (fs : list frame) : list (ParsedPacket * Z) := omap ip_share fs.
Definition arps (fs : list frame) : list arp_event := omap arp_share fs.
Definition errors (fs : list frame) : list DecodeError := omap error_share fs.

Definition frame_bytes (fs : list frame) : Z := foldr (λ f n, zlen (Reader.data f.1) + n) 0 fs.

(** Frames are byte strings that fit in memory. *)
Definition frame_wf (f : frame) : Prop := Forall is_u8 (Reader.data f.1) ∧ zlen (Reader.data f.1) ≤ isize_max.

(** ** Each consumer alone *)

(** The ARP analyzer on its events, with and without [--arp]. *)
Definition arp_step (enabled : bool) (a : ArpAnalyzer) (e : arp_event) : panicky (ArpAnalyzer * list Finding) :=
  match e, enabled with
  | ArpSeen f ts, true => process_arp a f ts
  | ArpSeen _ _, false => Some (a, [])
  | ArpMalformed len, true => Some (record_malformed a len)
  | ArpMalformed _, false => Some (a <| malformed_frames := sat_add u64_max (malformed_frames a) 1 |>, [])
  end.

Fixpoint arp_alone (enabled : bool) (a : ArpAnalyzer) (es : list arp_event) : panicky (ArpAnalyzer * list Finding) :=
  match es with
  | [] => Some (a, [])
  | e :: es => '(a, fs) ← arp_step enabled a e; '(a, gs) ← arp_alone enabled a es; Some (a, fs ++ gs)
  end.

(** The packets the DNS analyzer is given. *)
Definition dns_share (o : RunOptions) (fs : list frame) : list ParsedPacket :=
  if enable_dns o then filter (λ p, can_decode p = true) (ips fs).*1 else [].

(** The key under which a packet counts as a UDP gap. *)
Definition gap_of (p : ParsedPacket) : option (TransportProto * Z) := udp_gap_key p (can_decode p).

(** The run after the frames [fs], from the engine [r0] and dispatcher [d0]. *)
Record after (o : RunOptions) (s0 : Run) (fs : list frame) (s : Run) : Prop := {
  af_totals : totals_of (ips fs).*1 (totals s);
  af_dns : dns_of (dns_share o fs) (dns_analyzer s);
  af_engine : match reassembler s0 with
    | Some r0 => ∃ r, reassembler s = Some r ∧ run_packets r0 (dispatcher s0) (ips fs) = Some (r, dispatcher s)
    | None => reassembler s = None ∧ dispatcher s = dispatcher s0
    end;
  af_arp : arp_alone (enable_arp o) (arp_analyzer s0) (arps fs) = Some (arp_analyzer s, loop_findings s);
  af_errors : total_decode_errors s = zlen (errors fs);
  af_gaps : if coverage_gaps o then counts (udp_unclassified_counts s) gap_of (ips fs).*1
    else udp_unclassified_counts s = ∅
}.

(** ** Shares of more frames *)

Lemma frame_bytes_app l1 l2 : frame_bytes (l1 ++ l2) = frame_bytes l1 + frame_bytes l2.
Proof. unfold frame_bytes. induction l1 as [|f l IH]; [done|]. cbn [app foldr] in *. rewrite IH. lia. Qed.

Lemma frame_bytes_nonneg l : 0 ≤ frame_bytes l.
Proof. unfold frame_bytes. induction l as [|f l IH]; [done|]. cbn [foldr]. pose proof (zlen_nonneg (Reader.data f.1)). lia. Qed.

Lemma omap_snoc {A B} (g : A → option B) l x : omap g (l ++ [x]) = omap g l ++ option_list (g x).
Proof. rewrite omap_app. cbn. by destruct (g x). Qed.

Lemma zlen_omap {A B} (g : A → option B) l : zlen (omap g l) ≤ zlen l.
Proof. induction l as [|x l IH]; [done|]. cbn. destruct (g x); rewrite ?zlen_cons; lia. Qed.

(** Decoded packets keep within their frames. *)
Lemma ips_bounds fs :
  Forall frame_wf fs →
  Forall (λ pt, packet_ok pt.1) (ips fs) ∧ payload_total (ips fs) ≤ frame_bytes fs ∧
  bytes_total (ips fs).*1 ≤ frame_bytes fs ∧ Forall (λ pt, 0 ≤ packet_len pt.1) (ips fs).
Proof.
  induction 1 as [|f fs [Hu Hz] Hfs IH]; [by repeat constructor|].
  destruct (decode_packet_ok (Reader.data f.1) f.2 Hu Hz) as (r & E & Hok).
  change (ips (f :: fs)) with (match ip_share f with Some x => x :: ips fs | None => ips fs end).
  change (frame_bytes (f :: fs)) with (zlen (Reader.data f.1) + frame_bytes fs).
  unfold ip_share, decoded. rewrite E. pose proof (zlen_nonneg (Reader.data f.1)). destruct IH as (I1 & I2 & I3 & I4).
  destruct r as [e|[p|a]]; [split_and!; (done || lia)| |split_and!; (done || lia)].
  destruct (Hok (DIp p) eq_refl) as (P1 & P2%within_zlen & _ & _ & P4).
  change (payload_total ((p, timestamp_secs f.1) :: ips fs)) with (zlen (payload p) + payload_total (ips fs)).
  change (bytes_total ((p, timestamp_secs f.1) :: ips fs).*1) with (packet_len p + bytes_total (ips fs).*1).
  split_and!; [constructor; [|done]|lia|lia|constructor; [cbn; lia|done]].
  split; [cbn; lia|]. cbn. destruct (transport p); try done. apply P4.
Qed.

Lemma run_packets_snoc {A} `{StreamHandler A} r (h : A) ps p ts :
  run_packets r h (ps ++ [(p, ts)]) = '(r, h) ← run_packets r h ps; process_packet r h p ts.
Proof.
  revert r h. induction ps as [|[q u] ps IH]; intros r h; cbn [app run_packets].
  - cbn [mbind option_bind]. by destruct (process_packet r h p ts) as [[]|].
  - destruct (process_packet r h q u) as [[r1 h1]|]; [|done]. cbn [mbind option_bind]. apply IH.
Qed.

Lemma arp_alone_snoc b a es e :
  arp_alone b a (es ++ [e]) = '(a, fs) ← arp_alone b a es; '(a, gs) ← arp_step b a e; Some (a, fs ++ gs).
Proof.
  revert a. induction es as [|e0 es IH]; intros a; cbn [app arp_alone mbind option_bind].
  - destruct (arp_step b a e) as [[a1 fs]|]; [|done]. cbn. by rewrite app_nil_r.
  - destruct (arp_step b a e0) as [[a1 fs]|]; [|done]. cbn [mbind option_bind]. rewrite IH.
    destruct (arp_alone b a1 es) as [[a2 gs]|]; [|done]. cbn [mbind option_bind].
    destruct (arp_step b a2 e) as [[a3 hs]|]; [|done]. cbn [mbind option_bind]. by rewrite app_assoc.
Qed.

Lemma arp_step_ok b a e : arp_ok a → ∃ a' fs, arp_step b a e = Some (a', fs) ∧ arp_ok a'.
Proof.
  intros Ha. destruct e as [f ts|len], b; cbn [arp_step].
  - destruct (process_arp_ok a f ts Ha) as (a' & fs & E & Ha' & _). by exists a', fs.
  - by exists a, [].
  - eexists _, _. split; [done|]. destruct Ha. by split.
  - eexists _, _. split; [done|]. destruct Ha. by split.
Qed.

Lemma arp_alone_ok b a es a' fs : arp_ok a → arp_alone b a es = Some (a', fs) → arp_ok a'.
Proof.
  revert a fs. induction es as [|e es IH]; intros a fs Ha E; cbn [arp_alone] in E; [by simplify_eq|].
  destruct (arp_step_ok b a e Ha) as (a1 & gs & E1 & Ha1). rewrite E1 in E. cbn [mbind option_bind] in E.
  destruct (arp_alone b a1 es) as [[a2 hs]|] eqn:E2; [|done]. cbn in E. simplify_eq. by eapply IH.
Qed.

(** ** One frame *)

(** The engine a run starts with. *)
Definition engine_fresh (s0 : Run) : Prop :=
  match reassembler s0 with
  | Some r0 => eng_wf r0 ∧ packet_index r0 = 0 ∧ budget r0 = 0 ∧ finalized r0 = false
  | None => True
  end.

(** The frames of a run stay countable. *)
Definition frames_fit (fs : list frame) : Prop :=
  Forall frame_wf fs ∧ zlen fs ≤ u64_max ∧ frame_bytes fs ≤ u64_max.

Lemma feed_dns_ok o s fs p ts :
  dns_of (dns_share o fs) (dns_analyzer s) → zlen fs < u64_max →
  ∃ s', feed_dns o s p = Some (s <| dns_analyzer := s' |>) ∧
    dns_of (if enable_dns o then filter (λ p, can_decode p = true) (ips fs ++ [(p, ts)]).*1 else []) s'.
Proof.
  intros Hd Hz. unfold feed_dns, dns_share in *. destruct (enable_dns o); cbn [andb].
  - rewrite fmap_app, filter_app. cbn [fmap list_fmap fst]. rewrite filter_cons. destruct (can_decode p).
    + rewrite decide_True by done. destruct (analyze_counts _ _ p Hd) as (a & -> & Ha).
      { eapply Z.le_lt_trans; [|exact Hz]. etransitivity; [|apply (zlen_omap ip_share)]. unfold zlen.
        pose proof (length_filter (λ p, can_decode p = true) (ips fs).*1). rewrite length_fmap in *. unfold ips in *. lia. }
      exists a. cbn [mbind option_bind]. rewrite app_nil_r. split; [by destruct s|done].
    + rewrite decide_False by done. exists (dns_analyzer s). split; [by destruct s|]. by rewrite app_nil_r.
  - exists (dns_analyzer s). split; [by destruct s|done].
Qed.

Lemma feed_engine_ok o s0 s fs p ts :
  engine_fresh s0 → after o s0 fs s → Forall (λ pt, packet_ok pt.1) (ips fs ++ [(p, ts)]) →
  zlen (ips fs ++ [(p, ts)]) ≤ u64_max → payload_total (ips fs ++ [(p, ts)]) ≤ u64_max →
  ∃ r d, (∀ s1, reassembler s1 = reassembler s → dispatcher s1 = dispatcher s →
      feed_engine s1 p ts = Some (s1 <| reassembler := r |> <| dispatcher := d |>)) ∧
    match reassembler s0 with
    | Some r0 => ∃ r', r = Some r' ∧ run_packets r0 (dispatcher s0) (ips fs ++ [(p, ts)]) = Some (r', d)
    | None => r = None ∧ d = dispatcher s0
    end.
Proof.
  intros H0 Ha Hp Hz Hb. unfold engine_fresh, feed_engine in *. pose proof (af_engine _ _ _ _ Ha) as He.
  destruct (reassembler s0) as [r0|].
  - destruct H0 as (W & I0 & B0 & F0). destruct He as (r & Er & E).
    destruct (run_packets_spec (ips fs ++ [(p, ts)]) r0) as (r' & es & E' & _); [done|done|lia|lia|].
    pose proof (E' _ _ (dispatcher s0)) as E1. pose proof E1 as E2. rewrite run_packets_snoc, E in E2. cbn [mbind option_bind] in E2.
    exists (Some r'), (replay (dispatcher s0) es). split; [|by exists r'].
    intros s1 -> ->. rewrite Er, E2. done.
  - destruct He as [Er Ed]. exists None, (dispatcher s0). split; [|done].
    intros s1 Hr Hd. rewrite Hr, Er. rewrite <- Ed, <- Hd, <- Er, <- Hr. by destruct s1.
Qed.

Lemma count_udp_gap_ok o s fs p ts :
  (if coverage_gaps o then counts (udp_unclassified_counts s) gap_of (ips fs).*1 else udp_unclassified_counts s = ∅) →
  zlen (ips fs) < u64_max →
  ∃ m, count_udp_gap o s p = s <| udp_unclassified_counts := m |> ∧
    if coverage_gaps o then counts m gap_of (ips fs ++ [(p, ts)]).*1 else m = ∅.
Proof.
  intros Hm Hz. unfold count_udp_gap. rewrite fmap_app. cbn [fmap list_fmap fst]. destruct (coverage_gaps o).
  - fold (gap_of p). destruct (gap_of p) as [key|] eqn:Ek.
    + destruct (counts_entry (udp_unclassified_counts s) gap_of (ips fs).*1 p key Hm Ek) as (m & Em & Hm').
      { unfold zlen in *. by rewrite length_fmap. }
      exists m. split; [|done]. unfold count_entry in Em. unfold cadd in Em.
      destruct (Z.leb_spec (default 0 (udp_unclassified_counts s !! key) + 1) u64_max); [|done].
      cbn in Em. injection Em as <-. unfold sat_add. by rewrite Z.min_r by lia.
    + exists (udp_unclassified_counts s). split; [by destruct s|]. by apply counts_skip.
  - exists (udp_unclassified_counts s). split; [by destruct s|done].
Qed.

Lemma ips_snoc fs f : ips (fs ++ [f]) = ips fs ++ option_list (ip_share f).
Proof. apply omap_snoc. Qed.

Lemma arps_snoc fs f : arps (fs ++ [f]) = arps fs ++ option_list (arp_share f).
Proof. apply omap_snoc. Qed.

Lemma errors_snoc fs f : errors (fs ++ [f]) = errors fs ++ option_list (error_share f).
Proof. apply omap_snoc. Qed.

(** The files that stderr reports as unreadable. *)
Definition failure_of (d : diagnostic) : option (Path * ReadError) :=
  match d with FileFailed p e => Some (p, e) | _ => None end.

Definition failures (s : Run) : list (Path * ReadError) := omap failure_of (stderr s).

(** A frame is not about files. *)
Definition same_errors (s s' : Run) : Prop := any_error s' = any_error s ∧ failures s' = failures s.

Lemma on_ip_ok o s0 fs s f p :
  engine_fresh s0 → after o s0 fs s → frames_fit (fs ++ [f]) → decoded f = Some (inr (DIp p)) →
  ∃ s', on_ip o s p (timestamp_secs f.1) = Some s' ∧ after o s0 (fs ++ [f]) s' ∧ same_errors s s'.
Proof.
  intros H0 Ha (Hw & Hz & Hb) Ed.
  assert (ips (fs ++ [f]) = ips fs ++ [(p, timestamp_secs f.1)]) as Ei by (rewrite ips_snoc; unfold ip_share; by rewrite Ed).
  assert (arps (fs ++ [f]) = arps fs) as Ea by (rewrite arps_snoc; unfold arp_share; rewrite Ed; apply app_nil_r).
  assert (errors (fs ++ [f]) = errors fs) as Ee by (rewrite errors_snoc; unfold error_share; rewrite Ed; apply app_nil_r).
  destruct (ips_bounds _ Hw) as (I1 & I2 & I3 & I4). pose proof (zlen_omap ip_share (fs ++ [f])) as Hl. fold (ips (fs ++ [f])) in Hl.
  rewrite Ei in I1, I2, I3, I4, Hl. rewrite !zlen_app in Hl. rewrite zlen_app in Hz.
  change (zlen [_]) with 1 in Hl. change (zlen [f]) with 1 in Hl, Hz.
  pose proof Ha as [Ht Hd He Hr Hn Hg]. unfold on_ip.
  destruct (ingest_totals (ips fs).*1 (totals s) p Ht) as (t & -> & Ht').
  { apply Forall_app in I4 as [_ I4]. by apply Forall_inv in I4. }
  { unfold zlen in *. rewrite length_fmap. lia. }
  { rewrite fmap_app in I3. cbn in I3. rewrite bytes_total_snoc in I3. lia. }
  cbn [mbind option_bind]. set (s1 := s <| totals := t |>).
  destruct (feed_dns_ok o s1 fs p (timestamp_secs f.1)) as (a & -> & Hd'); [done|lia|]. cbn [mbind option_bind].
  set (s2 := s1 <| dns_analyzer := a |>).
  destruct (feed_engine_ok o s0 s fs p (timestamp_secs f.1) H0 Ha I1) as (r & d & Ef & He'); [|lia|].
  { rewrite zlen_app. change (zlen [_]) with 1. lia. }
  rewrite (Ef s2 eq_refl eq_refl). cbn [mbind option_bind]. set (s3 := s2 <| reassembler := r |> <| dispatcher := d |>).
  destruct (count_udp_gap_ok o s3 fs p (timestamp_secs f.1)) as (m & -> & Hg'); [done|lia|].
  eexists. split; [done|]. split; [|done]. split; cbn.
  - rewrite Ei, fmap_app. done.
  - unfold dns_share. by rewrite Ei.
  - rewrite Ei. destruct (reassembler s0); [|done]. done.
  - by rewrite Ea.
  - by rewrite Ee.
  - by rewrite Ei.
Qed.

Lemma arp_share_ok o s0 fs s f e a gs :
  after o s0 fs s → ip_share f = None → arp_share f = Some e → error_share f = None →
  arp_step (enable_arp o) (arp_analyzer s) e = Some (a, gs) →
  after o s0 (fs ++ [f]) (s <| arp_analyzer := a |> <| loop_findings := loop_findings s ++ gs |>).
Proof.
  intros [Ht Hd He Hr Hn Hg] Ei Ea Ee Es.
  assert (ips (fs ++ [f]) = ips fs) as Ei' by (rewrite ips_snoc, Ei; apply app_nil_r).
  assert (errors (fs ++ [f]) = errors fs) as Ee' by (rewrite errors_snoc, Ee; apply app_nil_r).
  split; cbn; rewrite ?Ei', ?Ee'; try done; [unfold dns_share; by rewrite Ei'|].
  rewrite arps_snoc, Ea. change (option_list (Some e)) with [e]. rewrite arp_alone_snoc, Hr. cbn [mbind option_bind]. by rewrite Es.
Qed.

Lemma error_share_ok o s0 fs s f e :
  after o s0 fs s → ip_share f = None → arp_share f = None → error_share f = Some e → zlen (fs ++ [f]) ≤ u64_max →
  after o s0 (fs ++ [f]) (on_decode_error s e) ∧ same_errors s (on_decode_error s e).
Proof.
  intros [Ht Hd He Hr Hn Hg] Ei Ea Ee Hz.
  assert (ips (fs ++ [f]) = ips fs) as Ei' by (rewrite ips_snoc, Ei; apply app_nil_r).
  assert (arps (fs ++ [f]) = arps fs) as Ea' by (rewrite arps_snoc, Ea; apply app_nil_r).
  assert (errors (fs ++ [f]) = errors fs ++ [e]) as Ee' by (rewrite errors_snoc; by rewrite Ee).
  assert (sat_add u64_max (total_decode_errors s) 1 = zlen (errors (fs ++ [f]))) as Es.
  { pose proof (zlen_omap error_share (fs ++ [f])) as Hl. fold (errors (fs ++ [f])) in Hl. rewrite Ee', zlen_app in *.
    change (zlen [e]) with 1 in *. unfold sat_add. lia. }
  unfold on_decode_error. split.
  - destruct (_ =? 0); split; cbn; rewrite ?Ei', ?Ea'; try done; unfold dns_share; by rewrite Ei'.
  - unfold same_errors, failures. destruct (_ =? 0); cbn; [|done]. rewrite omap_app. cbn. by rewrite app_nil_r.
Qed.

Lemma run_arp_ok o s0 fs s : arp_ok (arp_analyzer s0) → after o s0 fs s → arp_ok (arp_analyzer s).
Proof. intros H0 Ha. eapply arp_alone_ok; [exact H0|apply Ha]. Qed.

(** One more frame: the run goes on, and each consumer got its share. *)
Lemma analyze_packet_ok o s0 fs s raw dl :
  engine_fresh s0 → arp_ok (arp_analyzer s0) → after o s0 fs s → frames_fit (fs ++ [(raw, dl)]) →
  ∃ s', analyze_packet o dl s raw = Some s' ∧ after o s0 (fs ++ [(raw, dl)]) s' ∧ same_errors s s'.
Proof.
  intros H0 Ha0 Ha Hf. pose proof Hf as (Hw & Hz & _). apply Forall_app in Hw as [_ Hw]. apply Forall_inv in Hw as [Hu Hi].
  destruct (decode_packet_ok (Reader.data raw) dl Hu Hi) as (r & E & _). unfold analyze_packet. rewrite E. cbn [mbind option_bind].
  pose proof (run_arp_ok o s0 fs s Ha0 Ha) as Hok.
  assert (decoded (raw, dl) = Some r) as Ed by exact E.
  destruct r as [e|[p|a]].
  - destruct (is_malformed_arp e) eqn:Em.
    + destruct (arp_step_ok (enable_arp o) (arp_analyzer s) (ArpMalformed (zlen (Reader.data raw))) Hok) as (a & gs & Es & _).
      exists (s <| arp_analyzer := a |> <| loop_findings := loop_findings s ++ gs |>). split; [|split; [|done]].
      * unfold on_malformed_arp. cbn [arp_step] in Es. destruct (enable_arp o); [by injection Es as <- <-|].
        injection Es as <- <-. rewrite app_nil_r. by destruct s.
      * eapply arp_share_ok; [done| | | |exact Es]; unfold ip_share, arp_share, error_share; rewrite Ed; [done|by rewrite Em..].
    + eexists. split; [done|]. apply error_share_ok; [done| | | |done];
        unfold ip_share, arp_share, error_share; rewrite Ed; [done|by rewrite Em..].
  - by apply (on_ip_ok o s0 fs s (raw, dl) p).
  - destruct (arp_step_ok (enable_arp o) (arp_analyzer s) (ArpSeen a (timestamp_secs raw)) Hok) as (a1 & gs & Es & _).
    exists (s <| arp_analyzer := a1 |> <| loop_findings := loop_findings s ++ gs |>). split; [|split; [|done]].
    + unfold on_arp. cbn [arp_step] in Es. destruct (enable_arp o); [by rewrite Es|].
      injection Es as <- <-. rewrite app_nil_r. by destruct s.
    + eapply arp_share_ok; [done| | | |exact Es]; unfold ip_share, arp_share, error_share; by rewrite Ed.
Qed.

Lemma frames_fit_prefix l1 l2 : frames_fit (l1 ++ l2) → frames_fit l1.
Proof.
  intros (Hw & Hz & Hb). apply Forall_app in Hw as [Hw _]. rewrite zlen_app in Hz. rewrite frame_bytes_app in Hb.
  pose proof (zlen_nonneg l2). pose proof (frame_bytes_nonneg l2). split_and!; [done|lia|lia].
Qed.

(** ** Files and targets *)

Definition frames_of (dl : DataLink) (raws : list RawPacket) : list frame := (λ raw, (raw, dl)) <$> raws.

Lemma analyze_packets_ok o s0 dl raws fs s :
  engine_fresh s0 → arp_ok (arp_analyzer s0) → after o s0 fs s → frames_fit (fs ++ frames_of dl raws) →
  ∃ s', analyze_packets o dl s raws = Some s' ∧ after o s0 (fs ++ frames_of dl raws) s' ∧ same_errors s s'.
Proof.
  intros H0 Ha0. revert fs s. induction raws as [|raw raws IH]; intros fs s Ha Hf.
  { exists s. split; [done|]. cbn. by rewrite app_nil_r. }
  change (frames_of dl (raw :: raws)) with ([(raw, dl)] ++ frames_of dl raws) in *. rewrite app_assoc in *.
  destruct (analyze_packet_ok o s0 fs s raw dl H0 Ha0 Ha) as (s1 & E1 & Ha1 & [S1 S2]); [by eapply frames_fit_prefix|].
  destruct (IH _ _ Ha1 Hf) as (s2 & E2 & Ha2 & [S3 S4]). exists s2. cbn [analyze_packets]. rewrite E1. cbn [mbind option_bind].
  split_and!; [done|done|split; congruence].
Qed.

(** What a file contributes. *)
Definition file_frames (fsys : filesystem) (p : Path) : list frame :=
  match from_file (open_file fsys p) with
  | Some (inr src) => frames_of (datalink src) (packets src)
  | _ => []
  end.

Definition file_failure (fsys : filesystem) (p : Path) : option (Path * ReadError) :=
  match from_file (open_file fsys p) with Some (inl e) => Some (p, e) | _ => None end.

Definition files_frames (fsys : filesystem) (ps : list Path) : list frame := concat (file_frames fsys <$> ps).

Definition files_failures (fsys : filesystem) (ps : list Path) : list (Path * ReadError) := omap (file_failure fsys) ps.

Definition failed (l : list (Path * ReadError)) : bool := match l with [] => false | _ => true end.

(** The run after files with these frames and failures. *)
Definition after_files (o : RunOptions) (s0 : Run) (fs : list frame) (bad : list (Path * ReadError)) (s : Run) : Prop :=
  after o s0 fs s ∧ failures s = bad ∧ any_error s = failed bad.

Lemma failed_app l x : failed (l ++ [x]) = true.
Proof. by destruct l. Qed.

Lemma analyze_file_ok fsys o s0 fs bad s p :
  bodies_are_slices → engine_fresh s0 → arp_ok (arp_analyzer s0) → after_files o s0 fs bad s →
  frames_fit (fs ++ file_frames fsys p) →
  ∃ s', analyze_file fsys o s p = Some s' ∧
    after_files o s0 (fs ++ file_frames fsys p) (bad ++ option_list (file_failure fsys p)) s'.
Proof.
  intros Hb H0 Ha0 (Ha & Hbad & Herr) Hf. unfold analyze_file, file_frames, file_failure in *.
  destruct (from_file_total (open_file fsys p) Hb) as [r Er]. rewrite Er in *. cbn [mbind option_bind]. destruct r as [e|src].
  - eexists. split; [done|]. cbn [option_list]. rewrite app_nil_r. split_and!.
    + destruct Ha. by split.
    + unfold failures in *. cbn. rewrite omap_app, Hbad. done.
    + cbn. by rewrite failed_app.
  - cbn [option_list]. rewrite app_nil_r. destruct (packets src) as [|raw raws] eqn:Ep.
    + eexists. split; [done|]. cbn. rewrite app_nil_r. split_and!; [by destruct Ha|unfold failures in *; cbn; by rewrite omap_app, Hbad, app_nil_r|done].
    + destruct (analyze_packets_ok o s0 (datalink src) (raw :: raws) fs s) as (s' & E & Ha' & [S1 S2]); [done..|].
      exists s'. split; [done|]. split_and!; [done|congruence|congruence].
Qed.

Lemma analyze_files_ok fsys o s0 ps fs bad s :
  bodies_are_slices → engine_fresh s0 → arp_ok (arp_analyzer s0) → after_files o s0 fs bad s →
  frames_fit (fs ++ files_frames fsys ps) →
  ∃ s', analyze_files fsys o s ps = Some s' ∧
    after_files o s0 (fs ++ files_frames fsys ps) (bad ++ files_failures fsys ps) s'.
Proof.
  intros Hb H0 Ha0. revert fs bad s. induction ps as [|p ps IH]; intros fs bad s Ha Hf.
  { exists s. split; [done|]. cbn. by rewrite !app_nil_r. }
  change (files_frames fsys (p :: ps)) with (file_frames fsys p ++ files_frames fsys ps) in *. rewrite app_assoc in *.
  destruct (analyze_file_ok fsys o s0 fs bad s p Hb H0 Ha0 Ha) as (s1 & E1 & Ha1); [by eapply frames_fit_prefix|].
  destruct (IH _ _ _ Ha1 Hf) as (s2 & E2 & Ha2). exists s2. cbn [analyze_files]. rewrite E1. cbn [mbind option_bind].
  split; [done|]. rewrite <- (app_assoc bad) in Ha2. revert Ha2. unfold files_failures. cbn. by destruct (file_failure fsys p).
Qed.

(** The files of the targets up to the first that cannot be resolved. *)
Fixpoint resolved (fsys : filesystem) (ts : list Path) : list Path * option TargetError :=
  match ts with
  | [] => ([], None)
  | t :: rest =>
      match resolve_targets fsys t with
      | inl e => ([], Some e)
      | inr ps => let '(qs, e) := resolved fsys rest in (ps ++ qs, e)
      end
  end.

Definition run_frames (fsys : filesystem) (ts : list Path) : list frame := files_frames fsys (resolved fsys ts).1.

Lemma files_frames_app fsys ps qs : files_frames fsys (ps ++ qs) = files_frames fsys ps ++ files_frames fsys qs.
Proof. unfold files_frames. by rewrite fmap_app, concat_app. Qed.

Lemma files_failures_app fsys ps qs : files_failures fsys (ps ++ qs) = files_failures fsys ps ++ files_failures fsys qs.
Proof. apply omap_app. Qed.

Lemma analyze_targets_ok fsys o s0 ts fs bad s :
  bodies_are_slices → engine_fresh s0 → arp_ok (arp_analyzer s0) → after_files o s0 fs bad s →
  frames_fit (fs ++ run_frames fsys ts) →
  ∃ s', after_files o s0 (fs ++ run_frames fsys ts) (bad ++ files_failures fsys (resolved fsys ts).1) s' ∧
    analyze_targets fsys o s ts = Some (match (resolved fsys ts).2 with Some e => inl e | None => inr s' end).
Proof.
  intros Hb H0 Ha0. unfold run_frames. revert fs bad s. induction ts as [|t ts IH]; intros fs bad s Ha Hf.
  { exists s. split; [|done]. cbn. by rewrite !app_nil_r. }
  cbn [resolved analyze_targets] in *. destruct (resolve_targets fsys t) as [e|ps].
  { exists s. split; [|done]. cbn. by rewrite !app_nil_r. }
  destruct (resolved fsys ts) as [qs e] eqn:Er. cbn [fst snd] in *.
  rewrite files_frames_app, files_failures_app, !app_assoc in *.
  destruct (analyze_files_ok fsys o s0 ps fs bad s Hb H0 Ha0 Ha) as (s1 & E1 & Ha1); [by eapply frames_fit_prefix|].
  destruct (IH _ _ _ Ha1 Hf) as (s2 & Ha2 & E2). exists s2. split; [done|]. rewrite E1. exact E2.
Qed.

(** ** Set-up *)

(** Limits that fit the address space. *)
Definition cli_ok (cli : Cli) : Prop :=
  1 ≤ reassembly_depth cli ∧ reassembly_depth cli * MIB ≤ isize_max ∧
  1 ≤ reassembly_memcap cli ∧ reassembly_memcap cli * MIB ≤ usize_max.

Lemma build_config_ok cli : cli_ok cli → ∃ c, build_config cli = Some c ∧ cfg_ok c.
Proof.
  intros (H1 & H2 & H3 & H4). unfold build_config. rewrite cmul_Some by ulia. cbn [mbind option_bind].
  rewrite cmul_Some by ulia. cbn [mbind option_bind]. eexists. split; [done|]. unfold MIB in *.
  split; [split|..]; cbn; try lia.
Qed.

Definition engine_wanted (o : RunOptions) (cli : Cli) : bool := needs_reassembly o cli && negb (no_reassemble cli).

Lemma skip_warnings_silent o cli : omap failure_of (skip_warnings o cli) = [].
Proof. unfold skip_warnings. rewrite !omap_app. by repeat case_match. Qed.

Lemma initial_run_ok o cli :
  cli_ok cli →
  ∃ s0 c, initial_run o cli = Some s0 ∧ cfg_ok c ∧ engine_fresh s0 ∧ arp_ok (arp_analyzer s0) ∧
    after_files o s0 [] [] s0 ∧ dispatcher s0 = build_dispatcher o cli ∧
    arp_analyzer s0 = ArpAnalyzer_new (spoof o) (storm o) ∧
    if engine_wanted o cli then build_config cli = Some c ∧ reassembler s0 = TcpReassembler_new c ∧ is_Some (reassembler s0)
    else reassembler s0 = None.
Proof.
  intros Hc. destruct (build_config_ok cli Hc) as (c & Ec & Hok).
  destruct (TcpReassembler_new_Some c Hok) as (r & Er & W & _ & _ & F & I & B & _).
  assert (∀ r', (match r' with Some r0 => eng_wf r0 ∧ packet_index r0 = 0 ∧ budget r0 = 0 ∧ finalized r0 = false | None => True end) →
    let s0 := mkRun Summary_new DnsAnalyzer_new (ArpAnalyzer_new (spoof o) (storm o)) [] 0 ∅ r' (build_dispatcher o cli) false (skip_warnings o cli) in
    engine_fresh s0 ∧ arp_ok (arp_analyzer s0) ∧ after_files o s0 [] [] s0) as Hs.
  { intros r' Hr s0. split; [done|]. split; [apply arp_ok_new|]. split_and!; [|apply skip_warnings_silent|done].
    split; cbn; try done.
    - apply totals_of_new.
    - unfold dns_share. by destruct (enable_dns o).
    - destruct r'; [by eexists|done].
    - destruct (coverage_gaps o); [apply counts_nil|done]. }
  unfold initial_run, build_reassembler. fold (engine_wanted o cli). destruct (engine_wanted o cli) eqn:Ew; cbn [mbind option_bind].
  - rewrite Ec. cbn [mbind option_bind]. rewrite Er. cbn [mbind option_bind]. eexists _, c. split; [done|]. split; [done|].
    destruct (Hs (Some r)) as (A & C & D); [done|]. split_and!; try done; by eexists.
  - eexists _, c. split; [done|]. split; [done|]. destruct (Hs None) as (A & C & D); [done|]. by split_and!.
Qed.

(** ** The analyzers at the end *)

Lemma replay_no_analyzer (d : Dispatcher_t) es :
  any_analyzer d = false →
  http (replay d es) = None ∧ tls (replay d es) = None ∧ modbus (replay d es) = None ∧
  dnp3 (replay d es) = None ∧ enip (replay d es) = None ∧ iec104 (replay d es) = None.
Proof.
  unfold replay. revert d. induction es as [|e es IH]; intros d Ha; cbn [foldl].
  { unfold any_analyzer in Ha. by destruct (http d), (tls d), (modbus d), (dnp3 d), (enip d), (iec104 d). }
  apply IH. destruct e as [k dir data off ts|k reason]; cbn [replay1 on_data on_flow_close dispatcher_handler].
  - unfold dispatcher_on_data. by rewrite Ha.
  - unfold any_analyzer in Ha. destruct (http d) eqn:?, (tls d) eqn:?, (modbus d) eqn:?, (dnp3 d) eqn:?, (enip d) eqn:?, (iec104 d) eqn:?;
      try done. unfold dispatcher_on_flow_close, any_analyzer, count_unclassified, any_analyzer. cbn.
    destruct (routes d !! k) as [[]|]; cbn;
      repeat (match goal with E : ?x = None |- context [?x] => rewrite E end; cbn); done.
Qed.

Lemma settled_slot {A} `{StreamHandler (option A)} b cli (a0 : A) es (P : A → Prop) :
  (∃ a, replay (Some a0) es = Some a ∧ P a) →
  ∃ x, settled ((λ a, replay a es) <$> if_fed b cli a0) = Some x ∧ ∀ a, x = Some a → P a.
Proof.
  intros (a & E & Ha). unfold if_fed. destruct (_ && _); cbn [fmap option_fmap option_map settled].
  - rewrite E. exists (Some a). split; [done|]. by intros ? [= <-].
  - by exists None.
Qed.

(** The six slots after events of at most [n] bytes each. *)
Section slots.
Context (o : RunOptions) (cli : Cli) (l : list (DispatchTarget * event)) (n : Z).
Context (Hl : ∀ u, trace_bytes (seen_by u l) ≤ n) (Hn : n ≤ u32_max).

Lemma http_slot : ∃ x, settled ((λ a, replay a (seen_by Dispatcher.Http l)) <$> if_fed (enable_http o) cli HttpAnalyzer_new) = Some x.
Proof using Hl Hn HW.
  destruct (settled_slot (enable_http o) cli HttpAnalyzer_new (seen_by Dispatcher.Http l) (λ _, True)) as (x & E & _); [|by exists x].
  destruct (http_replay_ok (seen_by Dispatcher.Http l) 0 _ http_ok_new) as (a & E & _); [specialize (Hl Dispatcher.Http); ulia|by exists a].
Qed.

Lemma tls_slot : ∃ x, settled ((λ a, replay a (seen_by Dispatcher.Tls l)) <$> if_fed (enable_tls o) cli TlsAnalyzer_new) = Some x.
Proof using Hl Hn.
  destruct (settled_slot (enable_tls o) cli TlsAnalyzer_new (seen_by Dispatcher.Tls l) (λ _, True)) as (x & E & _); [|by exists x].
  destruct (tls_replay_ok (seen_by Dispatcher.Tls l) 0 _ tls_ok_new) as (a & E & _); [specialize (Hl Dispatcher.Tls); ulia|by exists a].
Qed.

Lemma modbus_slot burst sustained :
  ∃ x, settled ((λ a, replay a (seen_by Dispatcher.Modbus l)) <$> if_fed (enable_modbus o) cli (ModbusAnalyzer_new burst sustained)) = Some x.
Proof using Hl Hn.
  destruct (settled_slot (enable_modbus o) cli (ModbusAnalyzer_new burst sustained) (seen_by Dispatcher.Modbus l) (λ _, True))
    as (x & E & _); [|by exists x].
  destruct (modbus_replay_ok (seen_by Dispatcher.Modbus l) 0 _ (modbus_ok_new 0 burst sustained)) as (a & E & _);
    [done|specialize (Hl Dispatcher.Modbus); lia|by exists a].
Qed.

#[local] Existing Instance flow_handler.

Lemma dnp3_slot operates :
  ∃ x, settled ((λ a, replay a (seen_by Dispatcher.Dnp3 l)) <$> if_fed (enable_dnp3 o) cli (Dnp3Analyzer_new operates)) = Some x ∧
    ∀ a, x = Some a → dnp3_ok n a.
Proof using Hl Hn.
  apply settled_slot. destruct (dnp3_replay_ok (seen_by Dispatcher.Dnp3 l) 0 _ (dnp3_ok_new operates)) as (a & E & W);
    [specialize (Hl Dispatcher.Dnp3); ulia|]. exists a. split; [done|]. eapply dnp3_ok_mono; [|done]. apply Hl.
Qed.

Lemma enip_slot writes errs :
  ∃ x, settled ((λ a, replay a (seen_by Dispatcher.Enip l)) <$> if_fed (enable_enip o) cli (EnipAnalyzer_new writes errs)) = Some x.
Proof using Hl Hn.
  destruct (settled_slot (enable_enip o) cli (EnipAnalyzer_new writes errs) (seen_by Dispatcher.Enip l) (λ _, True)) as (x & E & _); [|by exists x].
  destruct (enip_replay_ok (seen_by Dispatcher.Enip l) 0 _ (enip_ok_new writes errs)) as (a & E & _);
    [specialize (Hl Dispatcher.Enip); ulia|by exists a].
Qed.

Lemma iec_slot :
  ∃ x, settled ((λ a, replay a (seen_by Dispatcher.Iec104 l)) <$> if_fed (enable_iec104 o) cli Iec104Analyzer_new) = Some x ∧
    ∀ a, x = Some a → iec_ok n a.
Proof using Hl.
  apply settled_slot. destruct (iec_replay_ok (seen_by Dispatcher.Iec104 l) 0 _ iec_ok_new) as (a & E & W). exists a. split; [done|].
  eapply iec_ok_mono; [|done]. apply Hl.
Qed.
End slots.

(** The analyzers return from whatever the engine delivers. *)
Lemma slots_settle o cli es :
  trace_bytes es ≤ u32_max →
  ∃ a, take_analyzers (replay (build_dispatcher o cli) es) = Some a ∧
    (∀ x, an_dnp3 a = Some x → dnp3_ok (trace_bytes es) x) ∧ (∀ x, an_iec104 a = Some x → iec_ok (trace_bytes es) x).
Proof.
  intros Hb. set (d0 := build_dispatcher o cli). unfold take_analyzers. destruct (any_analyzer d0) eqn:Ha.
  2: { destruct (replay_no_analyzer d0 es Ha) as (-> & -> & -> & -> & -> & ->). by eexists. }
  destruct (replay_refines es no_fates d0) as ([F1 F2 F3 F4 F5 F6] & _);
    [exact (tracks_new _ _ _ _ _ _ _)|done|by vm_compute|by vm_compute|].
  set (l := assignments _ _ _) in *. rewrite F1, F2, F3, F4, F5, F6. clear F1 F2 F3 F4 F5 F6.
  assert (∀ u, trace_bytes (seen_by u l) ≤ trace_bytes es) as Hl.
  { intros u. pose proof (trace_bytes_seen_by u l) as Hu. unfold l in Hu at 2. by rewrite assignments_events in Hu. }
  destruct (http_slot o cli l _ Hl Hb) as (x1 & E1). destruct (tls_slot o cli l _ Hl Hb) as (x2 & E2).
  destruct (modbus_slot o cli l _ Hl Hb (modbus_burst (run_thresholds o)) (modbus_sustained (run_thresholds o))) as (x3 & E3).
  destruct (dnp3_slot o cli l _ Hl Hb (dnp3_operates (run_thresholds o))) as (x4 & E4 & H4).
  destruct (enip_slot o cli l _ Hl Hb (enip_writes (run_thresholds o)) (enip_errors (run_thresholds o))) as (x5 & E5).
  destruct (iec_slot o cli l _ Hl) as (x6 & E6 & H6).
  unfold d0, build_dispatcher. cbn [http tls modbus dnp3 enip iec104 with_coverage_gaps StreamDispatcher_new update_field].
  exists (mkAnalyzers x1 x2 x3 x4 x5 x6). split; [|done].
  transitivity (h ← Some x1; t ← Some x2; m ← Some x3; n ← Some x4; e ← Some x5; i ← Some x6; Some (mkAnalyzers h t m n e i)); [|done].
  rewrite <- E1, <- E2, <- E3, <- E4, <- E5, <- E6. done.
Qed.

(** ** The coverage counters *)

Definition tcp_counter (k : TransportProto * Z) (v : Z) : Prop := k.1 = Tcp ∧ 0 ≤ v ≤ u64_max.

Lemma port_counts_replay (d : Dispatcher_t) es :
  map_Forall tcp_counter (unclassified_port_counts d) → map_Forall tcp_counter (unclassified_port_counts (replay d es)).
Proof.
  unfold replay. revert d. induction es as [|e es IH]; intros d Hd; cbn [foldl]; [done|]. apply IH. clear IH.
  destruct e as [k dir data off ts|k reason]; cbn [replay1 on_data on_flow_close dispatcher_handler].
  - unfold dispatcher_on_data. destruct (negb _); [done|]. destruct (route d k data) as [d1 t] eqn:Er.
    assert (unclassified_port_counts d1 = unclassified_port_counts d) as E1
      by (unfold route in Er; repeat case_match; by simplify_eq).
    destruct t; cbn; by rewrite E1.
  - unfold dispatcher_on_flow_close, count_unclassified. repeat case_match; try done;
      (apply map_Forall_insert_2; [|done]); cbn; (split; [done|]);
      (match goal with |- context [unclassified_port_counts d !! ?key] => destruct (unclassified_port_counts d !! key) as [v|] eqn:Ev end;
       cbn; unfold sat_add; [apply Hd in Ev as [_ Ev]|]; ulia).
Qed.

Lemma udp_counter_fit (fs : list frame) (m : gmap (TransportProto * Z) Z) :
  counts m gap_of (ips fs).*1 → zlen fs ≤ u64_max → map_Forall (λ k v, k.1 = Udp ∧ 0 ≤ v ≤ u64_max) m.
Proof.
  intros Hm Hz k v Hk. rewrite Hm in Hk. case_decide as Ho; [done|]. injection Hk as <-.
  pose proof (occurrences_bounds gap_of k (ips fs).*1) as Hb. pose proof (zlen_omap ip_share fs) as Hl. fold (ips fs) in Hl.
  split; [|unfold zlen in *; rewrite length_fmap in *; lia]. unfold occurrences in Ho.
  destruct (filter (λ x, gap_of x = Some k) (ips fs).*1) as [|p l] eqn:Ef; [done|].
  assert (p ∈ filter (λ x, gap_of x = Some k) (ips fs).*1) as Hp by (rewrite Ef; apply list_elem_of_here).
  apply list_elem_of_filter in Hp as [Hp _]. unfold gap_of, udp_gap_key in Hp. destruct (can_decode p); [done|].
  destruct (transport p); by simplify_eq.
Qed.

(** ** The report *)

(** The engine and dispatcher alone on the packets [ps]. *)
Definition engine_alone (o : RunOptions) (cli : Cli) (ps : list (ParsedPacket * Z)) (fs : list Finding) (d : Dispatcher_t) : Prop :=
  if engine_wanted o cli then
    ∃ c r0 r1 d1 r2, build_config cli = Some c ∧ TcpReassembler_new c = Some r0 ∧
      run_packets r0 (build_dispatcher o cli) ps = Some (r1, d1) ∧ finalize r1 d1 = Some (r2, d) ∧ fs = findings r2
  else fs = [] ∧ d = build_dispatcher o cli.

(** What the report of a run over the frames [fs] holds. *)
Record report_ok (o : RunOptions) (cli : Cli) (fs : list frame) (bad : list (Path * ReadError)) (rep : Report) : Prop := {
  ro_totals : totals_of (ips fs).*1 (rep_totals rep);
  ro_skipped : skipped_packets (rep_totals rep) = zlen (errors fs);
  ro_results : ∃ arp arp_findings engine_findings d a,
    arp_alone (enable_arp o) (ArpAnalyzer_new (spoof o) (storm o)) (arps fs) = Some (arp, arp_findings) ∧
    engine_alone o cli (ips fs) engine_findings d ∧ take_analyzers d = Some a ∧
    rep_findings rep = arp_findings ++ engine_findings ++ analyzer_findings a ∧
    if coverage_gaps o then ∃ all, rep_gaps rep = Some all ∧ ∀ port,
      all !! (Tcp, port) = unclassified_port_counts d !! (Tcp, port) ∧
      default 0 (all !! (Udp, port)) = occurrences gap_of (Udp, port) (ips fs).*1
    else rep_gaps rep = None;
  ro_exit : rep_exit rep = if failed bad then 1 else 0;
  ro_stderr : omap failure_of (rep_stderr rep) = bad
}.

(** The engine at the end of the loop. *)
Lemma finish_engine_ok o cli s0 c fs s :
  (if engine_wanted o cli then build_config cli = Some c ∧ reassembler s0 = TcpReassembler_new c ∧ is_Some (reassembler s0)
   else reassembler s0 = None) →
  cfg_ok c → dispatcher s0 = build_dispatcher o cli → after o s0 fs s → frames_fit fs →
  ∃ r es m, finish_engine s = Some (s <| reassembler := r |> <| dispatcher := replay (build_dispatcher o cli) es |>) ∧
    engine_alone o cli (ips fs) (match r with Some r => findings r | None => [] end) (replay (build_dispatcher o cli) es) ∧
    trace_bytes es ≤ frame_bytes fs ∧
    engine_summary (s <| reassembler := r |> <| dispatcher := replay (build_dispatcher o cli) es |>) = Some m.
Proof.
  intros Hw Hc Ed [_ _ He _ _ _] (Hwf & Hz & Hb). unfold finish_engine, engine_alone, engine_summary.
  pose proof (zlen_omap ip_share fs) as Hl. fold (ips fs) in Hl. destruct (ips_bounds fs Hwf) as (I1 & I2 & _).
  destruct (engine_wanted o cli).
  - destruct Hw as (Eb & Er & [r0 Er0]). rewrite Er0 in He. destruct He as (r1 & E1 & Erun). rewrite Er0 in Er. rewrite Ed in Erun.
    destruct (whole_capture_spec HO c (ips fs)) as (r0' & r1' & r2 & es1 & es2 & N & R & F & _ & _ & B); [done|done|lia|lia|].
    rewrite N in Er. injection Er as <-. rewrite R in Erun. injection Erun as <- Edisp.
    destruct (engine_summary_counts _ _ _ _ _ _ _ _ N (R _ _ (build_dispatcher o cli)) (F _ _ _)) as (m & Em & _); [lia|].
    rewrite E1, <- Edisp, F. cbn [mbind option_bind]. exists (Some r2), (es1 ++ es2). rewrite replay_app. eexists.
    split_and!; [done|by exists c, r0, r1', (replay (build_dispatcher o cli) es1), r2; split_and!|lia|].
    cbn. by rewrite Em.
  - rewrite Hw in He. destruct He as [E1 E2]. rewrite Ed in E2. rewrite E1. exists None, [], [].
    split_and!; [destruct s; cbn in *; by subst|done|done|cbn; apply frame_bytes_nonneg|done].
Qed.

Lemma collect_summaries_ok o s fs a m n :
  engine_summary s = Some m → dns_of (dns_share o fs) (dns_analyzer s) → zlen fs ≤ u64_max → n ≤ u64_max →
  (∀ x, an_dnp3 a = Some x → dnp3_ok n x) → (∀ x, an_iec104 a = Some x → iec_ok n x) →
  ∃ l, collect_summaries o s a = Some l.
Proof.
  intros Em Hd Hz Hn H3 H4. unfold collect_summaries. rewrite Em. cbn [mbind option_bind].
  assert (∃ x, (if enable_dns o then m ← dns_summarize (dns_analyzer s); Some [m] else Some []) = Some x) as [x ->].
  { destruct (enable_dns o) eqn:E; [|by eexists]. unfold dns_summarize. rewrite cadd_Some; [by eexists|].
    rewrite (dns_of_split _ _ Hd). unfold dns_share. rewrite E. etransitivity; [|exact Hz]. etransitivity; [|apply (zlen_omap ip_share)].
    unfold zlen. pose proof (length_filter (λ p, can_decode p = true) (ips fs).*1). rewrite length_fmap in *. unfold ips in *. lia. }
  assert (∃ x, settled_summary dnp3_summarize (an_dnp3 a) = Some x) as [x3 E3].
  { destruct (an_dnp3 a) as [d|]; cbn; [|by eexists]. destruct (dnp3_summarize_ok n d (H3 d eq_refl) Hn) as (q & -> & _). by eexists. }
  assert (∃ x, settled_summary iec_summarize (an_iec104 a) = Some x) as [x4 E4].
  { destruct (an_iec104 a) as [d|]; cbn; [|by eexists]. destruct (iec_summarize_ok n d (H4 d eq_refl) Hn) as (q & -> & _). by eexists. }
  cbn [mbind option_bind]. rewrite E3. cbn [mbind option_bind]. rewrite E4. by eexists.
Qed.

Lemma gaps_ok (o : RunOptions) (d : Dispatcher_t) (fs : list frame) (udp : gmap (TransportProto * Z) Z) :
  map_Forall tcp_counter (unclassified_port_counts d) → zlen fs ≤ u64_max →
  (if coverage_gaps o then counts udp gap_of (ips fs).*1 else udp = ∅) →
  ∃ g, (if coverage_gaps o then all ← collect_all_gaps (unclassified_port_counts d) udp; Some (Some all) else Some None) = Some g ∧
    if coverage_gaps o then ∃ all, g = Some all ∧ ∀ port,
      all !! (Tcp, port) = unclassified_port_counts d !! (Tcp, port) ∧
      default 0 (all !! (Udp, port)) = occurrences gap_of (Udp, port) (ips fs).*1
    else g = None.
Proof.
  intros Ht Hz Hu. destruct (coverage_gaps o); [|by eexists].
  destruct (collect_all_gaps_ok (unclassified_port_counts d) udp) as (all & -> & Hall & _); [done|by eapply udp_counter_fit|].
  exists (Some all). split; [done|]. exists all. split; [done|]. intros port. destruct (Hall port) as [-> ->]. split; [done|].
  rewrite Hu. case_decide as E; [by rewrite E|done].
Qed.

Lemma conclude_ok o cli s0 c fs bad s :
  (if engine_wanted o cli then build_config cli = Some c ∧ reassembler s0 = TcpReassembler_new c ∧ is_Some (reassembler s0)
   else reassembler s0 = None) →
  cfg_ok c → dispatcher s0 = build_dispatcher o cli → arp_analyzer s0 = ArpAnalyzer_new (spoof o) (storm o) →
  after_files o s0 fs bad s → frames_fit fs → frame_bytes fs ≤ u32_max →
  ∃ rep, conclude o cli s = Some rep ∧ report_ok o cli fs bad rep.
Proof.
  intros Hw Hc Ed Ea (Ha & Hbad & Herr) Hf Hb. pose proof Hf as (_ & Hz & _).
  destruct (finish_engine_ok o cli s0 c fs s Hw Hc Ed Ha Hf) as (r & es & m & E1 & Heng & Hes & Em).
  destruct (slots_settle o cli es) as (a & E2 & H3 & H4); [lia|].
  unfold conclude. rewrite E1. cbn [mbind option_bind]. set (s1 := s <| reassembler := r |> <| dispatcher := _ |>) in *.
  change (dispatcher s1) with (replay (build_dispatcher o cli) es). rewrite E2. cbn [mbind option_bind].
  destruct (collect_summaries_ok o s1 fs a m (trace_bytes es)) as (l & ->); [done|apply Ha|done|ulia|done|done|]. cbn [mbind option_bind].
  destruct (gaps_ok o (replay (build_dispatcher o cli) es) fs (udp_unclassified_counts s)) as (g & Eg & Hg);
    [apply port_counts_replay, map_Forall_empty|done|apply Ha|].
  change (udp_unclassified_counts s1) with (udp_unclassified_counts s). rewrite Eg. cbn [mbind option_bind].
  eexists. split; [done|]. destruct Ha as [Ht _ _ Har He _]. split; cbn.
  - destruct Ht. by split.
  - done.
  - rewrite Ea in Har. eexists _, _, _, _, a. by split_and!.
  - by rewrite Herr.
  - done.
Qed.

(** A run of [analyze]: its errors, and its report. *)
Lemma run_analyze_ok fsys o cli :
  bodies_are_slices → cli_ok cli →
  let fs := run_frames fsys (run_targets o) in
  frames_fit fs → frame_bytes fs ≤ u32_max →
  ∃ r, run_analyze fsys o cli = Some r ∧
    match check_thresholds o, (resolved fsys (run_targets o)).2, write_output fsys cli with
    | Some e, _, _ => r = inl e
    | None, Some e, _ => r = inl (BadTarget e)
    | None, None, inl e => r = inl e
    | None, None, inr _ => ∃ rep, r = inr rep ∧ report_ok o cli fs (files_failures fsys (resolved fsys (run_targets o)).1) rep
    end.
Proof.
  intros Hs Hc fs Hf Hb. unfold run_analyze. destruct (check_thresholds o) as [e|]; [by eexists|].
  destruct (initial_run_ok o cli Hc) as (s0 & c & -> & Hcfg & H0 & Ha0 & Haf & Ed & Ea & Hw). cbn [mbind option_bind].
  destruct (analyze_targets_ok fsys o s0 (run_targets o) [] [] s0 Hs H0 Ha0 Haf Hf) as (s & Ha & ->). cbn [mbind option_bind].
  destruct (resolved fsys (run_targets o)).2 as [e|]; [by eexists|].
  destruct (conclude_ok o cli s0 c fs (files_failures fsys (resolved fsys (run_targets o)).1) s) as (rep & -> & Hr); [done..|].
  cbn [mbind option_bind]. destruct (write_output fsys cli) as [e|d]; [by eexists|].
  eexists. split; [done|]. by exists rep.
Qed.

(** ** Theorems *)

(** Every frame is in exactly one share. *)
Lemma shares_partition fs : Forall frame_wf fs → zlen fs = zlen (ips fs) + zlen (arps fs) + zlen (errors fs).
Proof.
  induction 1 as [|f fs [Hu Hz] _ IH]; [done|]. destruct (decode_packet_ok (Reader.data f.1) f.2 Hu Hz) as (r & E & _).
  unfold ips, arps, errors in *. cbn. unfold ip_share at 1, arp_share at 1, error_share at 1, decoded. rewrite E.
  destruct r as [e|[p|a]]; [destruct (is_malformed_arp e)|..]; rewrite !zlen_cons; unfold zlen in *; lia.
Qed.

(** C13. Every frame is accounted for exactly once.  In the report of a run, the
    packet, byte, host, protocol and service totals are those of the frames
    that decoded to IP packets, the skipped packets are the decode errors, and
    together with the ARP frames and the malformed ARP frames these are all the
    frames of all readable files; with coverage gaps enabled, the UDP entries
    are the exact counts of the datagrams no dissector handles, by their lower
    port. *)
Theorem analyze_accounts_for_every_frame fsys o cli rep :
  bodies_are_slices → cli_ok cli →
  frames_fit (run_frames fsys (run_targets o)) → frame_bytes (run_frames fsys (run_targets o)) ≤ u32_max →
  run_analyze fsys o cli = Some (inr rep) →
  let fs := run_frames fsys (run_targets o) in
  totals_of (ips fs).*1 (rep_totals rep) ∧
  zlen fs = total_packets (rep_totals rep) + zlen (arps fs) + skipped_packets (rep_totals rep) ∧
  (coverage_gaps o = true → ∃ all, rep_gaps rep = Some all ∧
    ∀ port, default 0 (all !! (Udp, port)) = occurrences gap_of (Udp, port) (ips fs).*1).
Proof.
  intros Hs Hc Hf Hb E fs. destruct (run_analyze_ok fsys o cli Hs Hc Hf Hb) as (r & E' & Hr). rewrite E in E'. injection E' as <-.
  destruct (check_thresholds o), (resolved fsys (run_targets o)).2, (write_output fsys cli) as [err|dest]; try done.
  destruct Hr as (rep' & [= <-] & Hr).
  destruct Hr as [Ht Hsk (arp & af & ef & d & a & _ & _ & _ & _ & Hg) _ _]. split; [done|]. split.
  - rewrite Hsk, (to_packets _ _ Ht), (shares_partition fs (proj1 Hf)). unfold zlen. rewrite length_fmap. done.
  - intros Hcov. rewrite Hcov in Hg. destruct Hg as (all & -> & Hall). exists all. split; [done|]. intros port. apply Hall.
Qed.

(** C12. The run is the composition of its components.  Although the loop feeds
    them frame by frame and file by file, the findings of the report are exactly
    those of the ARP analyzer alone on the ARP frames, of the engine with its
    dispatcher alone on the IP packets, run to the end and finalized, and of the
    analyzers behind that dispatcher, in this order; nothing is lost, added or
    reordered.  The TCP entries of the gap report are that dispatcher's. *)
Theorem analyze_composes fsys o cli rep :
  bodies_are_slices → cli_ok cli →
  frames_fit (run_frames fsys (run_targets o)) → frame_bytes (run_frames fsys (run_targets o)) ≤ u32_max →
  run_analyze fsys o cli = Some (inr rep) →
  let fs := run_frames fsys (run_targets o) in
  ∃ arp arp_findings engine_findings d a,
    arp_alone (enable_arp o) (ArpAnalyzer_new (spoof o) (storm o)) (arps fs) = Some (arp, arp_findings) ∧
    engine_alone o cli (ips fs) engine_findings d ∧ take_analyzers d = Some a ∧
    rep_findings rep = arp_findings ++ engine_findings ++ analyzer_findings a ∧
    (coverage_gaps o = true → ∃ all, rep_gaps rep = Some all ∧
      ∀ port, all !! (Tcp, port) = unclassified_port_counts d !! (Tcp, port)).
Proof.
  intros Hs Hc Hf Hb E fs. destruct (run_analyze_ok fsys o cli Hs Hc Hf Hb) as (r & E' & Hr). rewrite E in E'. injection E' as <-.
  destruct (check_thresholds o), (resolved fsys (run_targets o)).2, (write_output fsys cli) as [err|dest]; try done.
  destruct Hr as (rep' & [= <-] & Hr).
  destruct Hr as [_ _ (arp & af & ef & d & a & H1 & H2 & H3 & H4 & Hg) _ _]. exists arp, af, ef, d, a. split_and!; try done.
  intros Hcov. rewrite Hcov in Hg. destruct Hg as (all & -> & Hall). exists all. split; [done|]. intros port. apply Hall.
Qed.

(** Limits that do not fit the address space: the product of the command-line
    value with the megabyte is checked by the compiler's overflow checks only,
    so the run panics instead of reporting an error. *)
Lemma huge_depth_panics fsys o cli :
  usize_max < reassembly_depth cli * MIB → engine_wanted o cli = true → check_thresholds o = None →
  run_analyze fsys o cli = None.
Proof.
  intros Hd He Hc. unfold run_analyze, initial_run, build_reassembler. rewrite Hc. fold (engine_wanted o cli). rewrite He.
  unfold build_config, cmul. by rewrite (proj2 (Z.leb_gt _ _) Hd).
Qed.

End analyze.

(** ** A run

    Two files of a directory: a capture of three frames, and a file that
    cannot be opened.  Every analyzer is on. *)

Module TinyRun.
Import TinySlicer.

#[local] Existing Instance list_order.
#[local] Existing Instance list_iter_order.
#[local] Existing Instance list_scan_orders.
#[local] Existing Instance sample_http_lib.
#[local] Existing Instance sample_http_laws.
#[local] Existing Instance TinyTls.tiny_lib.

(** A TCP segment to port 80, a datagram to a port without an analyzer, and
    bytes that are not IP. *)
Definition tcp_frame : list Z :=
  [0x45; 0; 0; 44; 0; 0; 0; 0; 64; 6; 0; 0; 10; 0; 0; 1; 10; 0; 0; 2;
   0x9C; 0x40; 0; 80; 0; 0; 0; 100; 0; 0; 0; 0; 0x50; 0x18; 255; 255; 0; 0; 0; 0; 71; 69; 84; 32].
Definition udp_frame : list Z :=
  [0x45; 0; 0; 28; 0; 0; 0; 0; 64; 17; 0; 0; 10; 0; 0; 1; 10; 0; 0; 2; 0x9C; 0x40; 0; 161; 0; 8; 0; 0].
Definition record_bytes (ts : Z) (l : list Z) : list Z := ts :: zlen l :: l.

Definition tiny_capture : list Z :=
  [0xA1; 0xB2; 0xC3; 0xD4; 101] ++ record_bytes 1 tcp_frame ++ record_bytes 2 udp_frame ++ record_bytes 3 [9; 9].

Definition tiny_fs : filesystem := {|
  is_file p := bool_decide (p ∈ [["d"; "a.pcap"]; ["d"; "b.pcap"]])%string;
  is_dir p := bool_decide (p = ["d"])%string;
  read_dir p := if decide (p = ["d"])%string then Some [Some ["d"; "b.pcap"]; Some ["d"; "a.pcap"]]%string else None;
  open_file p := if decide (p = ["d"; "a.pcap"])%string then Some (mkFile {| filled := Some tiny_capture; remaining := Some [] |} (Some 90)) else None;
  write_ok p := bool_decide (p = ["out.json"])%string
|}.

Definition tiny_cli : Cli := mkCli false None None None false false 1 64 None None None None None 300.

Definition tiny_options : RunOptions :=
  options_of (mkAnalyzeArgs [["d"; "a.pcap"]; ["d"; "b.pcap"]]%string false false false true false false false 20 100 false 10 false 3 50 false 20 20 false true) true.

Definition tiny_frames : list frame := run_frames tiny_fs (run_targets tiny_options).

Definition tiny_report : Report :=
  match run_analyze tiny_fs tiny_options tiny_cli with
  | Some (inr rep) => rep
  | _ => mkReport Summary_new [] [] None JsonReporter Stdout 0 []
  end.

Lemma tiny_reports : run_analyze tiny_fs tiny_options tiny_cli = Some (inr tiny_report).
Proof. vm_compute. reflexivity. Qed.

Lemma tiny_slices : bodies_are_slices.
Proof. intros parser src rem t body parser'. discriminate. Qed.

Lemma tiny_cli_ok : cli_ok tiny_cli.
Proof. unfold cli_ok. cbn. unfold MIB. ulia. Qed.

Lemma tiny_frames_fit : frames_fit tiny_frames.
Proof.
  split; [|vm_compute; split; discriminate]. unfold tiny_frames.
  assert (run_frames tiny_fs (run_targets tiny_options) =
    [(mkRawPacket 1 0 tcp_frame, 101); (mkRawPacket 2 0 udp_frame, 101); (mkRawPacket 3 0 [9; 9], 101)]) as -> by (vm_compute; reflexivity).
  repeat (apply Forall_cons; split); [..|by apply Forall_nil]; (split; [|vm_compute; discriminate]);
    repeat (apply Forall_cons; split); try (by apply Forall_nil); unfold is_u8; ulia.
Qed.

Lemma analyze_accounts_for_every_frame_witness :
  zlen tiny_frames = 3 ∧ total_packets (rep_totals tiny_report) = 2 ∧ skipped_packets (rep_totals tiny_report) = 1 ∧
  zlen tiny_frames = total_packets (rep_totals tiny_report) + zlen (arps tiny_frames) + skipped_packets (rep_totals tiny_report).
Proof.
  destruct (analyze_accounts_for_every_frame tiny_fs tiny_options tiny_cli tiny_report) as (_ & H & _).
  - exact tiny_slices.
  - exact tiny_cli_ok.
  - exact tiny_frames_fit.
  - vm_compute. discriminate.
  - exact tiny_reports.
  - split; [vm_compute; reflexivity|]. split; [vm_compute; reflexivity|]. split; [vm_compute; reflexivity|exact H].
Defined.

Lemma analyze_composes_witness :
  zlen (rep_findings tiny_report) = 2 ∧
  ∃ arp arp_findings, arp_alone true (ArpAnalyzer_new 3 50) (arps tiny_frames) = Some (arp, arp_findings).
Proof.
  destruct (analyze_composes tiny_fs tiny_options tiny_cli tiny_report) as (arp & af & ef & d & a & H & _).
  - exact tiny_slices.
  - exact tiny_cli_ok.
  - exact tiny_frames_fit.
  - vm_compute. discriminate.
  - exact tiny_reports.
  - split; [vm_compute; reflexivity|]. exists arp, af. exact H.
Defined.

End TinyRun.
