(* ===== verification/CommandProps.v ===== *)
(** * More theorems about the command

    Unreadable files do not disturb the others, directories are scanned
    exactly, and the [summary] command agrees with [analyze]. *)

From S2P Require Import Prelude FlowKey Handler Findings Reader ReaderProps Decoder DecoderProps Triage Catalog Coverage.
From S2P Require Import Flow Segment Reassembly ReassemblyFacts ReassemblyProps.
From S2P Require Import Modbus Dnp3 Enip Iec104 Arp ArpProps Http HttpProps Tls TlsProps Dispatcher Pipeline Analyze AnalyzeProps.
Import Summary Dns TriageFacts.

#[local] Open Scope Z_scope.

(** ** Directories *)

Lemma capture_entries_spec fsys es :
  capture_entries fsys es =
    if decide (None ∈ es) then inl EntryFailed
    else inr (filter (λ p, is_capture fsys p = true) (omap id es)).
Proof.
  induction es as [|[p|] es IH]; cbn [capture_entries].
  - done.
  - rewrite IH. destruct (decide (None ∈ es)) as [H|H].
    + by rewrite decide_True by (by right).
    + rewrite decide_False by (intros [?|?]%elem_of_cons; done).
      change (omap id (Some p :: es)) with (p :: omap id es). rewrite filter_cons.
      destruct (is_capture fsys p); [by rewrite decide_True|by rewrite decide_False].
  - by rewrite decide_True by (by left).
Qed.

#[local] Instance path_le_total : Total path_le.
Proof.
  intros p. unfold path_le. induction p as [|a p IH]; intros [|b q]; cbn; auto.
  rewrite (String.compare_antisym a b). destruct (String.compare b a) eqn:E; cbn; auto.
Qed.

Lemma compare_trans_lt a b c : String.compare a b = Lt → String.compare b c = Lt → String.compare a c = Lt.
Proof.
  revert b c. induction a as [|x a IH]; intros [|y b] [|z c]; cbn; try done.
  unfold Ascii.compare. intros H1 H2.
  destruct (N.compare_spec (Ascii.N_of_ascii x) (Ascii.N_of_ascii y)) as [E1|E1|E1]; try done;
  destruct (N.compare_spec (Ascii.N_of_ascii y) (Ascii.N_of_ascii z)) as [E2|E2|E2]; try done;
  destruct (N.compare_spec (Ascii.N_of_ascii x) (Ascii.N_of_ascii z)) as [E3|E3|E3]; try done; try lia.
  by eapply IH.
Qed.

#[local] Instance path_le_trans : Transitive path_le.
Proof.
  intros p. unfold path_le. induction p as [|a p IH]; intros [|b q] [|c r]; cbn; try done.
  destruct (String.compare a b) eqn:E1; [apply String.compare_eq_iff in E1 as ->| |done].
  - destruct (String.compare b c) eqn:E2; [|done|done]. apply IH.
  - intros _. destruct (String.compare b c) eqn:E2; [apply String.compare_eq_iff in E2 as <-| |done].
    + by rewrite E1.
    + by rewrite (compare_trans_lt a b c).
Qed.

(** C16. Targets resolve to exactly the captures they name.  A file stands for
    itself, whatever it holds; a directory stands for those of its entries that
    are files and start with one of the five magic numbers, each as often as it
    is listed, in ascending order of their paths and independently of the order
    in which the directory lists them; an entry that cannot be read, or a path
    that is neither, is an error. *)
Theorem resolve_targets_exact fsys t :
  match resolve_targets fsys t with
  | inr ps =>
      (is_file fsys t = true ∧ ps = [t]) ∨
      (is_file fsys t = false ∧ is_dir fsys t = true ∧ ∃ es, read_dir fsys t = Some es ∧ (None ∉ es) ∧
        StronglySorted path_le ps ∧ ps ≡ₚ filter (λ p, is_capture fsys p = true) (omap id es))
  | inl e =>
      is_file fsys t = false ∧
      match e with
      | TargetNotFound p => p = t ∧ is_dir fsys t = false
      | ReadDirFailed => is_dir fsys t = true ∧ read_dir fsys t = None
      | EntryFailed => is_dir fsys t = true ∧ ∃ es, read_dir fsys t = Some es ∧ None ∈ es
      end
  end.
Proof.
  unfold resolve_targets. destruct (is_file fsys t); [by left|]. destruct (is_dir fsys t); [|done].
  destruct (read_dir fsys t) as [es|]; [|done]. rewrite capture_entries_spec. case_decide as Hn.
  - split; [done|]. split; [done|]. by exists es.
  - right. split; [done|]. split; [done|]. exists es. split_and!; [done|done| |apply merge_sort_Permutation].
    apply (StronglySorted_merge_sort path_le).
Qed.

(** ** Unreadable files *)

Section files.
Context `{PF : PcapFile, EP : !Etherparse, HO : !HashOrder, SO : !ScanOrders}.
Context `{!IterOrder Ip4 BindingEntry, !IterOrder Mac StormCounter, !IterOrder FlowKey Dnp3FlowState}.
Context `{HL : HttpLib, TL : TlsLib}.

(** A run but for its error flag and stderr. *)
Definition results (s : Run) : Run := s <| any_error := false |> <| stderr := [] |>.

(** Steps that only depend on the results. *)
Definition blind (f : Run → option Run) : Prop := ∀ s, results <$> f s = results <$> f (results s).

Lemma blind_bind f g : blind f → blind g → blind (λ s, s ← f s; g s).
Proof.
  intros Hf Hg s. specialize (Hf s). destruct (f s) as [s1|], (f (results s)) as [s2|]; cbn [fmap option_fmap option_map mbind option_bind] in *; try done.
  apply (inj Some) in Hf. by rewrite (Hg s1), (Hg s2), Hf.
Qed.

Lemma on_ip_blind o p ts : blind (λ s, on_ip o s p ts).
Proof.
  intros s. unfold on_ip. change (totals (results s)) with (totals s). destruct (ingest (totals s) p) as [t|]; [|done].
  cbn [mbind option_bind]. unfold feed_dns. destruct (enable_dns o && can_decode p).
  - change (dns_analyzer (?x <| totals := t |>)) with (dns_analyzer x). change (dns_analyzer (results s)) with (dns_analyzer s).
    destruct (dns_analyze (dns_analyzer s) p) as [[a fs]|]; [|done]. cbn [mbind option_bind]. unfold feed_engine. cbn.
    destruct (reassembler s) as [r|]; [destruct (process_packet r (dispatcher s) p ts) as [[r' d]|]; [|done]|];
      cbn; unfold count_udp_gap; by destruct (coverage_gaps o), (udp_gap_key p (can_decode p)).
  - cbn [mbind option_bind]. unfold feed_engine. cbn.
    destruct (reassembler s) as [r|]; [destruct (process_packet r (dispatcher s) p ts) as [[r' d]|]; [|done]|];
      cbn; unfold count_udp_gap; by destruct (coverage_gaps o), (udp_gap_key p (can_decode p)).
Qed.

Lemma analyze_packet_blind o dl raw : blind (λ s, analyze_packet o dl s raw).
Proof.
  intros s. unfold analyze_packet. destruct (decode_packet (Reader.data raw) dl) as [[e|[p|a]]|]; [| | |done]; cbn [mbind option_bind].
  - destruct (is_malformed_arp e).
    + unfold on_malformed_arp. by destruct (enable_arp o).
    + unfold on_decode_error. cbn. by destruct (total_decode_errors s =? 0).
  - apply on_ip_blind.
  - unfold on_arp. destruct (enable_arp o); [|done]. cbn. by destruct (process_arp (arp_analyzer s) a (timestamp_secs raw)) as [[]|].
Qed.

Lemma analyze_packets_blind o dl raws : blind (λ s, analyze_packets o dl s raws).
Proof.
  induction raws as [|raw raws IH]; [by intros s|]. cbn [analyze_packets].
  apply (blind_bind (λ s, analyze_packet o dl s raw) (λ s, analyze_packets o dl s raws)); [apply analyze_packet_blind|exact IH].
Qed.

Lemma analyze_file_blind fsys o p : blind (λ s, analyze_file fsys o s p).
Proof.
  intros s. unfold analyze_file. destruct (from_file (open_file fsys p)) as [[e|src]|]; [done| |done]. cbn [mbind option_bind].
  destruct (packets src); [done|]. apply analyze_packets_blind.
Qed.

Lemma analyze_files_blind fsys o ps : blind (λ s, analyze_files fsys o s ps).
Proof.
  induction ps as [|p ps IH]; [by intros s|]. cbn [analyze_files].
  apply (blind_bind (λ s, analyze_file fsys o s p) (λ s, analyze_files fsys o s ps)); [apply analyze_file_blind|exact IH].
Qed.

(** Leaving out the files that cannot be read changes no result. *)
Definition readable (fsys : filesystem) (p : Path) : bool := negb (bool_decide (is_Some (file_failure fsys p))).

Lemma analyze_files_readable fsys o s ps :
  results <$> analyze_files fsys o s ps = results <$> analyze_files fsys o s (filter (λ p, readable fsys p = true) ps).
Proof.
  revert s. induction ps as [|p ps IH]; intros s; [done|]. rewrite filter_cons. unfold readable at 1.
  case_decide as Hr; cbn [analyze_files].
  - destruct (analyze_file fsys o s p) as [s1|]; [|done]. apply IH.
  - assert (∃ e, from_file (open_file fsys p) = Some (inl e)) as [e E].
    { unfold file_failure in Hr. destruct (from_file (open_file fsys p)) as [[e|]|]; [by exists e|done..]. }
    unfold analyze_file. rewrite E. cbn [mbind option_bind].
    transitivity (results <$> analyze_files fsys o (results s) ps); [exact (analyze_files_blind fsys o ps _)|].
    rewrite <- IH. symmetry. exact (analyze_files_blind fsys o ps s).
Qed.
Lemma analyze_targets_files fsys o s ts :
  Forall (λ t, is_file fsys t = true) ts → analyze_targets fsys o s ts = inr <$> analyze_files fsys o s ts.
Proof.
  intros Hts. revert s. induction Hts as [|t ts Ht Hts IH]; intros s; [done|]. cbn [analyze_targets analyze_files].
  unfold resolve_targets. rewrite Ht. cbn [analyze_files]. destruct (analyze_file fsys o s t) as [s1|]; [|done].
  cbn [mbind option_bind]. apply IH.
Qed.

(** The rest of a report depends on the results only. *)
Lemma conclude_blind o cli s :
  conclude o cli s = (λ rep, mkReport (rep_totals rep) (rep_findings rep) (rep_summaries rep) (rep_gaps rep)
    (rep_reporter rep) (rep_destination rep) (if any_error s then 1 else 0) (stderr s)) <$> conclude o cli (results s).
Proof.
  unfold conclude, finish_engine. change (reassembler (results s)) with (reassembler s). change (dispatcher (results s)) with (dispatcher s).
  destruct (reassembler s) as [r|] eqn:Er.
  - destruct (finalize r (dispatcher s)) as [[r' d]|]; [|done]. cbn [mbind option_bind].
    cbn. destruct (take_analyzers d) as [a|]; [|done]. cbn.
    unfold collect_summaries, engine_summary. cbn.
    repeat (match goal with |- context [mbind _ ?m] => destruct m; cbn; [|done] end). done.
  - cbn. destruct (take_analyzers (dispatcher s)) as [a|]; [|done]. cbn.
    unfold collect_summaries, engine_summary. cbn. rewrite Er. cbn.
    repeat (match goal with |- context [mbind _ ?m] => destruct m; cbn; [|done] end). done.
Qed.

(** Frames raise no file error. *)
Lemma on_ip_frame o s p ts s' :
  on_ip o s p ts = Some s' →
  ingest (totals s) p = Some (totals s') ∧ any_error s' = any_error s ∧ total_decode_errors s' = total_decode_errors s.
Proof.
  unfold on_ip, feed_dns. intros (t & Et & (s1 & E1 & (s2 & E2 & E3)%bind_Some)%bind_Some)%bind_Some.
  assert (totals s1 = t ∧ any_error s1 = any_error s ∧ total_decode_errors s1 = total_decode_errors s) as (<- & <- & <-).
  { destruct (enable_dns o && can_decode p); [|by injection E1 as <-]. by apply bind_Some in E1 as ([a fs] & _ & [= <-]). }
  assert (totals s2 = totals s1 ∧ any_error s2 = any_error s1 ∧ total_decode_errors s2 = total_decode_errors s1) as (H1 & <- & <-).
  { unfold feed_engine in E2. destruct (reassembler s1) as [r|]; [|by injection E2 as <-].
    by apply bind_Some in E2 as ([r' d] & _ & [= <-]). }
  rewrite Et, <- H1. injection E3 as <-. unfold count_udp_gap. by destruct (coverage_gaps o), (udp_gap_key p (can_decode p)).
Qed.

Lemma analyze_packet_any_error o dl s raw s' : analyze_packet o dl s raw = Some s' → any_error s' = any_error s.
Proof.
  unfold analyze_packet. destruct (decode_packet (Reader.data raw) dl) as [[e|[p|a]]|]; [| | |done]; cbn [mbind option_bind].
  - intros [= <-]. unfold on_malformed_arp, on_decode_error. by repeat case_match.
  - intros E. by apply on_ip_frame in E as (_ & ? & _).
  - unfold on_arp. destruct (enable_arp o); [|by intros [= <-]]. destruct (process_arp _ _ _) as [[]|]; [|done]. by intros [= <-].
Qed.

Lemma analyze_packets_any_error o dl s raws s' : analyze_packets o dl s raws = Some s' → any_error s' = any_error s.
Proof.
  revert s. induction raws as [|raw raws IH]; intros s; cbn [analyze_packets]; [by intros [= <-]|].
  intros (s1 & E1 & E2)%bind_Some. by rewrite (IH _ E2), (analyze_packet_any_error _ _ _ _ _ E1).
Qed.

Lemma analyze_files_any_error fsys o s ps s' :
  analyze_files fsys o s ps = Some s' → any_error s' = any_error s || negb (forallb (readable fsys) ps).
Proof.
  revert s. induction ps as [|p ps IH]; intros s; cbn [analyze_files forallb]; [intros [= <-]; by rewrite orb_false_r|].
  intros (s1 & E1 & E2)%bind_Some. rewrite (IH _ E2). unfold readable at 2, file_failure. unfold analyze_file in E1.
  destruct (from_file (open_file fsys p)) as [[e|src]|]; [| |done]; cbn [mbind option_bind] in E1.
  - injection E1 as <-. by destruct (any_error s).
  - assert (any_error s1 = any_error s) as ->; [|done].
    destruct (packets src); [by injection E1 as <-|]. exact (analyze_packets_any_error _ _ _ _ _ E1).
Qed.

(** The steps do not look at the targets. *)
Lemma analyze_files_retarget fsys o ts s ps : analyze_files fsys (o <| run_targets := ts |>) s ps = analyze_files fsys o s ps.
Proof.
  assert (∀ dl raws s, analyze_packets (o <| run_targets := ts |>) dl s raws = analyze_packets o dl s raws) as Hp.
  { intros dl raws. induction raws as [|raw raws IH]; intros s1; [done|]. cbn [analyze_packets].
    change (analyze_packet (o <| run_targets := ts |>) dl s1 raw) with (analyze_packet o dl s1 raw).
    destruct (analyze_packet o dl s1 raw); [apply IH|done]. }
  revert s. induction ps as [|p ps IH]; intros s; [done|]. cbn [analyze_files].
  assert (analyze_file fsys (o <| run_targets := ts |>) s p = analyze_file fsys o s p) as ->.
  { unfold analyze_file. destruct (from_file (open_file fsys p)) as [[e|src]|]; [done| |done]. cbn [mbind option_bind].
    destruct (packets src); [done|]. apply Hp. }
  destruct (analyze_file fsys o s p); [apply IH|done].
Qed.

Lemma initial_run_any_error o cli s : initial_run o cli = Some s → any_error s = false.
Proof. unfold initial_run. by intros (r & _ & [= <-])%bind_Some. Qed.

(** C14. A file that cannot be read costs nothing but itself.  A run over a list
    of files gives the same totals, findings, summaries and coverage gaps as
    the run over those of them that can be read, and ends in the same way if
    it ends without a report; the exit status is 1 exactly when one of them
    could not be read. *)
Theorem unreadable_files_isolated fsys o cli :
  Forall (λ t, is_file fsys t = true) (run_targets o) →
  let o' := o <| run_targets := filter (λ p, readable fsys p = true) (run_targets o) |> in
  match run_analyze fsys o cli, run_analyze fsys o' cli with
  | Some (inr rep), Some (inr rep') =>
      rep_totals rep = rep_totals rep' ∧ rep_findings rep = rep_findings rep' ∧
      rep_summaries rep = rep_summaries rep' ∧ rep_gaps rep = rep_gaps rep' ∧
      rep_exit rep' = 0 ∧ rep_exit rep = (if forallb (readable fsys) (run_targets o) then 0 else 1)
  | r, r' => r = r'
  end.
Proof.
  intros Hts o'. unfold run_analyze. change (check_thresholds o') with (check_thresholds o).
  destruct (check_thresholds o) as [e|]; [done|]. change (initial_run o' cli) with (initial_run o cli).
  destruct (initial_run o cli) as [s0|] eqn:E0; [|done]. cbn [mbind option_bind]. apply initial_run_any_error in E0.
  assert (Forall (λ t, is_file fsys t = true) (run_targets o')) as Hts'.
  { apply Forall_forall. intros p Hp. rewrite Forall_forall in Hts. apply Hts. by apply list_elem_of_filter in Hp as [_ ?]. }
  rewrite (analyze_targets_files fsys o _ _ Hts), (analyze_targets_files fsys o' _ _ Hts').
  change (run_targets o') with (filter (λ p, readable fsys p = true) (run_targets o)).
  unfold o'. rewrite analyze_files_retarget.
  pose proof (analyze_files_readable fsys o s0 (run_targets o)) as Hr.
  destruct (analyze_files fsys o s0 (run_targets o)) as [s|] eqn:E1,
    (analyze_files fsys o s0 (filter (λ p, readable fsys p = true) (run_targets o))) as [s'|] eqn:E2; try done.
  cbn [fmap option_fmap option_map mbind option_bind] in *. apply (inj Some) in Hr.
  apply analyze_files_any_error in E1, E2. rewrite E0 in E1, E2. cbn [orb] in E1, E2.
  assert (forallb (readable fsys) (filter (λ p, readable fsys p = true) (run_targets o)) = true) as Hall.
  { apply forallb_forall. intros p Hp. by apply list_elem_of_In, list_elem_of_filter in Hp as [? _]. }
  rewrite Hall in E2. change (conclude (o <| run_targets := _ |>) cli s') with (conclude o cli s').
  rewrite (conclude_blind o cli s), (conclude_blind o cli s'), Hr, E1, E2.
  destruct (conclude o cli (results s')) as [rep|]; [|done]. cbn [fmap option_fmap option_map mbind option_bind].
  destruct (write_output fsys cli); [done|]. cbn. split_and!; try done. by destruct (forallb _ _).
Qed.

(** ** The summary command *)

(** The frames that do not decode, malformed ARP included. *)
Definition undecodable (f : frame) : option DecodeError :=
  match decoded f with Some (inl e) => Some e | _ => None end.

(** The two commands after the same frames. *)
Record agree (fs : list frame) (t : Triage) (s : Run) : Prop := {
  ag_totals : tr_totals t = totals s;
  ag_error : tr_error t = any_error s;
  ag_summary : tr_decode_errors t = Z.min u64_max (zlen (omap undecodable fs));
  ag_analyze : total_decode_errors s = Z.min u64_max (zlen (errors fs))
}.

Lemma count_snoc {A B} (g : A → option B) n l x :
  n = Z.min u64_max (zlen (omap g l)) →
  match g x with Some _ => sat_add u64_max n 1 | None => n end = Z.min u64_max (zlen (omap g (l ++ [x]))).
Proof.
  intros ->. rewrite omap_snoc, zlen_app. pose proof (zlen_nonneg (omap g l)). destruct (g x) as [b|].
  - change (option_list (Some b)) with [b]. change (zlen [b]) with 1. unfold sat_add. ulia.
  - change (zlen (option_list (@None B))) with 0. by rewrite Z.add_0_r.
Qed.

Lemma summarize_packet_agrees o dl fs t s raw s' :
  agree fs t s → analyze_packet o dl s raw = Some s' →
  ∃ t', summarize_packet dl t raw = Some t' ∧ agree (fs ++ [(raw, dl)]) t' s'.
Proof.
  intros [Ht He Hs Ha]. unfold analyze_packet, summarize_packet.
  pose proof (count_snoc undecodable _ _ (raw, dl) Hs) as Hs'. pose proof (count_snoc error_share _ _ (raw, dl) Ha) as Ha'.
  unfold undecodable at 1, decoded in Hs'. unfold error_share at 1, decoded in Ha'. cbn [fst snd] in *.
  destruct (decode_packet (Reader.data raw) dl) as [[e|[p|a]]|]; [| | |done]; cbn [mbind option_bind].
  - intros [= <-]. eexists. split; [done|]. unfold on_malformed_arp, on_decode_error, record_malformed.
    destruct (is_malformed_arp e); repeat case_match; by split.
  - intros (E1 & E2 & E3)%on_ip_frame. rewrite Ht, E1. cbn [mbind option_bind]. eexists. split; [done|]. split; cbn; [done|congruence|done|by rewrite E3].
  - intros E. eexists. split; [done|]. unfold on_arp in E. destruct (enable_arp o); [|injection E as <-; by split].
    apply bind_Some in E as ([] & _ & [= <-]). by split.
Qed.

Lemma summarize_packets_agrees o dl raws fs t s s' :
  agree fs t s → analyze_packets o dl s raws = Some s' →
  ∃ t', summarize_packets dl t raws = Some t' ∧ agree (fs ++ frames_of dl raws) t' s'.
Proof.
  revert fs t s. induction raws as [|raw raws IH]; intros fs t s Hag; cbn [analyze_packets summarize_packets].
  { intros [= <-]. exists t. split; [done|]. unfold frames_of. cbn. by rewrite app_nil_r. }
  intros (s1 & E1 & E2)%bind_Some. destruct (summarize_packet_agrees _ _ _ _ _ _ _ Hag E1) as (t1 & -> & Hag1).
  cbn [mbind option_bind]. destruct (IH _ _ _ Hag1 E2) as (t2 & -> & Hag2). exists t2. split; [done|].
  rewrite <- app_assoc in Hag2. exact Hag2.
Qed.

Lemma summarize_files_agrees fsys o ps fs t s s' :
  agree fs t s → analyze_files fsys o s ps = Some s' →
  ∃ t', summarize_files fsys t ps = Some t' ∧ agree (fs ++ files_frames fsys ps) t' s'.
Proof.
  revert fs t s. induction ps as [|p ps IH]; intros fs t s Hag; cbn [analyze_files summarize_files].
  { intros [= <-]. exists t. split; [done|]. cbn. by rewrite app_nil_r. }
  intros (s1 & E1 & E2)%bind_Some.
  assert (∃ t1, summarize_file fsys t p = Some t1 ∧ agree (fs ++ file_frames fsys p) t1 s1) as (t1 & -> & Hag1).
  { unfold analyze_file, summarize_file, file_frames in *. destruct (from_file (open_file fsys p)) as [[e|src]|]; [| |done];
      cbn [mbind option_bind] in *.
    - injection E1 as <-. eexists. split; [done|]. rewrite app_nil_r. destruct Hag. by split.
    - destruct (packets src) as [|raw raws].
      + injection E1 as <-. eexists. split; [done|]. rewrite app_nil_r. destruct Hag. by split.
      + exact (summarize_packets_agrees _ _ _ _ _ _ _ Hag E1). }
  cbn [mbind option_bind]. destruct (IH _ _ _ Hag1 E2) as (t2 & -> & Hag2). exists t2. split; [done|].
  rewrite <- app_assoc in Hag2. exact Hag2.
Qed.

Lemma summarize_targets_agrees fsys o ts fs t s s' :
  agree fs t s → analyze_targets fsys o s ts = Some (inr s') →
  ∃ t', summarize_targets fsys t ts = Some (inr t') ∧ agree (fs ++ run_frames fsys ts) t' s'.
Proof.
  unfold run_frames. revert fs t s. induction ts as [|x ts IH]; intros fs t s Hag; cbn [analyze_targets summarize_targets resolved].
  { intros [= <-]. exists t. split; [done|]. cbn. by rewrite app_nil_r. }
  destruct (resolve_targets fsys x) as [e|ps]; [done|]. intros (s1 & E1 & E2)%bind_Some.
  destruct (summarize_files_agrees _ _ _ _ _ _ _ Hag E1) as (t1 & -> & Hag1). cbn [mbind option_bind].
  destruct (IH _ _ _ Hag1 E2) as (t2 & -> & Hag2). exists t2. split; [done|].
  destruct (resolved fsys ts) as [qs e]. cbn [fst snd] in *. by rewrite files_frames_app, app_assoc.
Qed.

Lemma conclude_totals o cli s rep :
  conclude o cli s = Some rep →
  rep_totals rep = (totals s) <| skipped_packets := total_decode_errors s |> ∧ rep_exit rep = (if any_error s then 1 else 0).
Proof.
  rewrite conclude_blind. unfold conclude. intros (rep1 & E & ->)%fmap_Some. cbn. split; [|done].
  repeat (apply bind_Some in E as (? & _ & E)). by injection E as <-.
Qed.

(** C15. The two commands agree on a capture.  Whenever [analyze] reports on its
    targets, with any analyzers, [summary] reports on the same targets, with
    the same packets, bytes, hosts, protocols and services and the same exit
    status; what it skips is every frame that does not decode, where
    [analyze] leaves the malformed ARP frames to the ARP analyzer. *)
Theorem summary_agrees_with_analyze fsys o cli show_hosts color rep :
  run_analyze fsys o cli = Some (inr rep) →
  let fs := run_frames fsys (run_targets o) in
  ∃ rep', run_summary fsys (run_targets o) show_hosts color cli = Some (inr rep') ∧ rep_exit rep' = rep_exit rep ∧
    rep_totals rep' = (rep_totals rep) <| skipped_packets := Z.min u64_max (zlen (omap undecodable fs)) |> ∧
    skipped_packets (rep_totals rep) = Z.min u64_max (zlen (errors fs)).
Proof.
  unfold run_analyze. destruct (check_thresholds o); [done|]. intros (s0 & E0 & E)%bind_Some.
  apply bind_Some in E as ([e|s] & E1 & E2); [done|]. apply bind_Some in E2 as (rep1 & [Et Ee]%conclude_totals & E2).
  destruct (write_output fsys cli) as [|d] eqn:Ew; [done|]. injection E2 as <-.
  destruct (summarize_targets_agrees fsys o (run_targets o) [] (mkTriage Summary_new 0 false []) s0 s) as (t & E' & [A1 A2 A3 A4]);
    [|exact E1|].
  { unfold initial_run in E0. apply bind_Some in E0 as (r & _ & [= <-]). by split. }
  unfold run_summary. rewrite E'. cbn [mbind option_bind]. rewrite Ew. eexists. split; [done|]. cbn. rewrite Et, Ee, A2, A1, A3. split_and!; done.
Qed.

End files.

Module TinyCommands.
Import TinySlicer TinyRun.

#[local] Existing Instance list_order.
#[local] Existing Instance list_iter_order.
#[local] Existing Instance list_scan_orders.
#[local] Existing Instance sample_http_lib.
#[local] Existing Instance TinyTls.tiny_lib.

(** The second file of the run cannot be opened. *)
Lemma unreadable_files_isolated_witness :
  rep_exit tiny_report = 1 ∧
  ∃ rep', run_analyze tiny_fs (tiny_options <| run_targets := [["d"; "a.pcap"]]%string |>) tiny_cli = Some (inr rep') ∧
    rep_findings tiny_report = rep_findings rep' ∧ rep_exit rep' = 0.
Proof.
  pose proof (unreadable_files_isolated tiny_fs tiny_options tiny_cli) as H. cbv zeta in H. rewrite tiny_reports in H.
  assert (filter (λ p, readable tiny_fs p = true) (run_targets tiny_options) = [["d"; "a.pcap"]]%string) as E by (vm_compute; reflexivity).
  rewrite E in H. split; [vm_compute; reflexivity|].
  assert (∃ rep', run_analyze tiny_fs (tiny_options <| run_targets := [["d"; "a.pcap"]]%string |>) tiny_cli = Some (inr rep')) as [rep' E'].
  { eexists. vm_compute. reflexivity. }
  exists rep'. split; [exact E'|]. rewrite E' in H.
  assert (Forall (λ t, is_file tiny_fs t = true) (run_targets tiny_options)) as Hf by (repeat constructor).
  destruct (H Hf) as (_ & Hfs & _ & _ & Hx & _). split; [exact Hfs|exact Hx].
Defined.

Lemma summary_agrees_with_analyze_witness :
  ∃ rep', run_summary tiny_fs (run_targets tiny_options) true false tiny_cli = Some (inr rep') ∧
    rep_exit rep' = 1 ∧ total_packets (rep_totals rep') = 2.
Proof.
  destruct (summary_agrees_with_analyze tiny_fs tiny_options tiny_cli true false tiny_report) as (rep' & E & Hx & Ht & _).
  - exact tiny_reports.
  - exists rep'. split; [exact E|]. rewrite Hx, Ht. split; vm_compute; reflexivity.
Defined.

End TinyCommands.
