(* ===== verification/Render.v ===== *)
(** * The reporters (src/reporter/ and the rendering functions of src/main.rs)

    The terminal report with its four views of the findings, the CSV table, the
    JSON document, the list of protocols and the final output of a command.
    The colouring, CSV, JSON and time crates are parameters.  The theorems are
    in [RenderProps]. *)

From S2P Require Import Prelude FlowKey Handler Findings Reader Triage Catalog Coverage Dispatcher Display Analyze.
Import Summary Catalog.Mitre.

#[local] Open Scope Z_scope.

(** ** Libraries *)

(** [serde_json::Value]. *)
Inductive value :=
  | VNull
  | VBool (b : bool)
  | VNum (n : Z)
  | VStr (s : Text)
  | VArr (l : list value)
  | VObj (fields : list (Text * value)).

(** [owo_colors], [chrono] ([to_rfc3339] and its [Serialize]), [serde_json]
    ([Value]'s [Display], [to_string_pretty], [from_str]) and the table that the
    [csv] writer makes of its records. *)
Class ReportLib := {
  red : Text → Text;
  yellow : Text → Text;
  cyan : Text → Text;
  bold : Text → Text;
  underline : Text → Text;
  dimmed : Text → Text;
  to_rfc3339 : Z → Text;
  timestamp_json : Z → Text;
  value_to_string : value → Text;
  to_string_pretty : value → Text;
  from_str : Text → option value;
  csv_table : list (list Text) → Text
}.

Definition nl : Text := [10].

(** The entries of a [BTreeMap] in the order of its keys. *)
Definition key_le {A} (x y : string * A) : Prop := String.compare x.1 y.1 ≠ Gt.

#[global] Instance key_le_dec {A} : RelDecision (@key_le A).
Proof. intros x y. unfold key_le. apply _. Defined.

Definition sorted_entries {A} (m : gmap string A) : list (string * A) := merge_sort key_le (map_to_list m).

(** [json!] of a detail value. *)
Fixpoint value_of (j : Findings.json) : value :=
  match j with
  | JNum n => VNum n
  | JStr s => VStr (chars s)
  | JArr l => VArr (VStr ∘ chars <$> l)
  | JObj m => VObj (prod_map chars VNum <$> sorted_entries m)
  | JMap fields =>
      let fix go (l : list (string * Findings.json)) := match l with
        | [] => []
        | (k, j) :: l => (chars k, value_of j) :: go l
        end in
      VObj (go fields)
  end.

(** A finding with its position, and the findings by tactic. *)
Abbreviation item := (Z * Finding)%type.

#[global] Instance tactic_countable : Countable MitreTactic.
Proof.
  refine (inj_countable (λ t, fst <$> list_find (λ u, u = t) all_tactics_in_report_order)
    (λ i, i ← i; all_tactics_in_report_order !! i) _).
  intros []; reflexivity.
Defined.

Abbreviation buckets := (gmap (option MitreTactic) (list item)).

Section render.
Context `{ReportLib}.

(** ** The terminal *)

Definition section (color : bool) (title : Text) : Text :=
  (if color then underline (bold title) else title) ++ nl ++ concat (replicate 40 (chars "─")) ++ nl.

Definition verdict_rank (v : Verdict) : Z :=
  match v with Likely => 0 | Possible => 1 | Inconclusive => 2 | Unlikely => 3 end.

Definition confidence_rank (c : Confidence) : Z :=
  match c with High => 0 | Medium => 1 | Low => 2 end.

Definition COLLAPSE_EVIDENCE_SAMPLES : nat := 3.

(** The colour of a header line. *)
Definition colorize (color : bool) (v : Verdict) (c : Confidence) (line : Text) : Text :=
  if color then
    match v with
    | Likely => match c with High => bold (red line) | _ => yellow line end
    | Possible => yellow line
    | Inconclusive => cyan line
    | Unlikely => dimmed line
    end
  else line.

Definition header_text (f : Finding) : Text :=
  [91] ++ category_text (category f) ++ chars "] " ++ verdict_text (verdict f) ++ chars " (" ++
  confidence_text (confidence f) ++ chars ") - " ++ escape_for_terminal (formatted (summary f)).

Definition evidence_line (ev : text) : Text := chars "    > " ++ escape_for_terminal (formatted ev) ++ nl.

Definition render_finding_prefix (color : bool) (f : Finding) : Text :=
  chars "  " ++ colorize color (verdict f) (confidence f) (header_text f) ++ nl ++
  concat (evidence_line <$> evidence f).

Definition technique_ids (f : Finding) : Text := joined (chars ", ") (chars <$> mitre_techniques f).

(** The two forms of the MITRE line. *)
Definition mitre_line (f : Finding) : Text :=
  match mitre_techniques f with
  | [] => []
  | _ => chars "    MITRE: " ++ technique_ids f ++ nl
  end.

Definition mitre_line_named (f : Finding) : Text :=
  match mitre_techniques f with
  | [] => []
  | first :: _ =>
      match technique_name first with
      | Some name => chars "    MITRE: " ++ technique_ids f ++ chars " — " ++ chars name ++ nl
      | None => chars "    MITRE: " ++ technique_ids f ++ chars " (unknown)" ++ nl
      end
  end.

Definition render_finding_flat (color : bool) (f : Finding) : Text := render_finding_prefix color f ++ mitre_line f.

Definition render_finding_grouped (color : bool) (f : Finding) : Text := render_finding_prefix color f ++ mitre_line_named f.

(** *** Collapsing *)

Record CollapseKey := mkKey {
  key_category : ThreatCategory;
  key_verdict : Verdict;
  key_confidence : Confidence;
  key_summary : Text
}.

#[global] Instance CollapseKey_eq_dec : EqDecision CollapseKey.
Proof. solve_decision. Defined.

Definition collapse_key (f : Finding) : CollapseKey :=
  mkKey (category f) (verdict f) (confidence f) (formatted (summary f)).

(** Into the first group with the key, or a new one at the end. *)
Fixpoint push_group (key : CollapseKey) (f : Finding) (gs : list (CollapseKey * list Finding)) : list (CollapseKey * list Finding) :=
  match gs with
  | [] => [(key, [f])]
  | (k, members) :: rest =>
      if decide (k = key) then (k, members ++ [f]) :: rest else (k, members) :: push_group key f rest
  end.

Definition collapse_findings_pass_refs (refs : list Finding) : list (CollapseKey * list Finding) :=
  foldl (λ gs f, push_group (collapse_key f) f gs) [] refs.

(** A group in either view: a single member as in the expanded view, several
    under one header with a count and samples of their evidence.  [members[0]]
    panics on an empty group. *)
Definition render_group (color : bool) (single line : Finding → Text) (members : list Finding) : panicky Text :=
  match members with
  | [] => None
  | [f] => Some (single f)
  | rep :: _ =>
      let header := header_text rep ++ chars " (x" ++ digits (zlen members) ++ [41] in
      let samples := take COLLAPSE_EVIDENCE_SAMPLES members in
      Some (chars "  " ++ colorize color (verdict rep) (confidence rep) header ++ nl ++
        concat ((λ m, match evidence m with ev :: _ => evidence_line ev | [] => [] end) <$> samples) ++ line rep)
  end.

Definition render_groups (color : bool) (single line : Finding → Text) (gs : list (CollapseKey * list Finding)) : panicky Text :=
  ts ← mapM (λ g, render_group color single line g.2) gs; Some (concat ts).

Definition render_findings_collapsed (color : bool) (fs : list Finding) : panicky Text :=
  render_groups color (render_finding_flat color) mitre_line (collapse_findings_pass_refs fs).

(** *** Grouping by tactic *)


Definition finding_tactic (f : Finding) : option MitreTactic :=
  match mitre_techniques f with first :: _ => technique_tactic first | [] => None end.

Definition add_item (b : buckets) (it : item) : buckets :=
  let tactic := finding_tactic it.2 in
  <[tactic := default [] (b !! tactic) ++ [it]]> b.

Definition enumerate (fs : list Finding) : list item := imap (λ i f, (Z.of_nat i, f)) fs.

(** The order by verdict rank, confidence rank and position. *)
Definition item_le (x y : item) : Prop :=
  verdict_rank (verdict x.2) < verdict_rank (verdict y.2) ∨
  verdict_rank (verdict x.2) = verdict_rank (verdict y.2) ∧
    (confidence_rank (confidence x.2) < confidence_rank (confidence y.2) ∨
     confidence_rank (confidence x.2) = confidence_rank (confidence y.2) ∧ x.1 ≤ y.1).

#[global] Instance item_le_dec : RelDecision item_le.
Proof. intros x y. unfold item_le. apply _. Defined.

Definition sorted_buckets (fs : list Finding) : buckets :=
  merge_sort item_le <$> foldl add_item ∅ (enumerate fs).

Definition tactic_header (t : option MitreTactic) : Text :=
  chars "  ## " ++ chars (match t with Some t => tactic_name t | None => "Uncategorized"%string end) ++ nl.

(** The buckets in report order, the uncategorized one last. *)
Definition bucket_order : list (option MitreTactic) := (Some <$> all_tactics_in_report_order) ++ [None].

Definition render_bucket (body : list item → panicky Text) (b : buckets) (t : option MitreTactic) : panicky Text :=
  match b !! t with
  | Some items => body ← body items; Some (tactic_header t ++ body)
  | None => Some []
  end.

Definition render_buckets (body : list item → panicky Text) (fs : list Finding) : panicky Text :=
  ts ← mapM (render_bucket body (sorted_buckets fs)) bucket_order; Some (concat ts).

Definition render_findings_grouped (color : bool) : list Finding → panicky Text :=
  render_buckets (λ items, Some (concat (render_finding_grouped color <$> items.*2))).

Definition render_findings_grouped_collapsed (color : bool) : list Finding → panicky Text :=
  render_buckets (λ items,
    render_groups color (render_finding_grouped color) mitre_line_named (collapse_findings_pass_refs items.*2)).

Definition render_findings (color : bool) (g : Grouping) (c : Collapse) (fs : list Finding) : panicky Text :=
  match g, c with
  | Grouped, Expanded => render_findings_grouped color fs
  | Grouped, Collapsed => render_findings_grouped_collapsed color fs
  | Flat, Collapsed => render_findings_collapsed color fs
  | Flat, Expanded => Some (concat (render_finding_flat color <$> fs))
  end.

(** *** The whole report *)

(** [Protocol]'s [Debug]. *)
Definition protocol_name (p : Protocol) : string :=
  match p with PTcp => "Tcp" | PUdp => "Udp" | PIcmp => "Icmp" | POther n => "Other(" +:+ decimal n +:+ ")" end%string.

(** Counters in descending order, equal ones by name. *)
Definition count_le (x y : string * Z) : Prop :=
  y.2 < x.2 ∨ x.2 = y.2 ∧ String.compare x.1 y.1 ≠ Gt.

#[global] Instance count_le_dec : RelDecision count_le.
Proof. intros x y. unfold count_le. apply _. Defined.

Definition count_lines (l : list (string * Z)) : Text :=
  concat ((λ e, chars "  " ++ chars e.1 ++ chars ": " ++ digits e.2 ++ nl) <$> merge_sort count_le l).

Definition report_header (color : bool) (s : Summary) : Text :=
  section color (chars "WIRERUST TRIAGE REPORT") ++
  chars "  Packets: " ++ digits (total_packets s) ++ chars "  Bytes: " ++ digits (total_bytes s) ++
  chars "  Hosts: " ++ digits (zlen (unique_hosts s)) ++ nl ++
  (if 0 <? skipped_packets s then
     let warning := chars "  Skipped: " ++ digits (skipped_packets s) ++ chars " packets (decode errors)" ++ nl in
     if color then yellow warning else warning
   else []) ++ nl.

Definition host_lines (color show : bool) (s : Summary) : Text :=
  if show then
    match unique_hosts s with
    | [] => []
    | hosts => section color (chars "HOSTS") ++ concat ((λ h, chars "  " ++ ip_text h ++ nl) <$> hosts) ++ nl
    end
  else [].

Definition protocol_lines (color : bool) (s : Summary) : Text :=
  section color (chars "PROTOCOLS") ++ count_lines (prod_map protocol_name id <$> map_to_list (protocols s)) ++ nl.

Definition service_lines (color : bool) (s : Summary) : Text :=
  if decide (services s = ∅) then []
  else section color (chars "SERVICES") ++ count_lines (map_to_list (services s)) ++ nl.

Definition analyzer_lines (color : bool) (a : AnalysisSummary) : Text :=
  section color (chars "ANALYZER: " ++ chars (analyzer_name a)) ++
  chars "  Packets analyzed: " ++ digits (packets_analyzed a) ++ nl ++
  concat ((λ e, chars "  " ++ chars e.1 ++ chars ": " ++ escape_for_terminal (value_to_string (value_of e.2)) ++ nl)
    <$> sorted_entries (detail a)) ++ nl.

Definition render_terminal (color show_hosts : bool) (g : Grouping) (c : Collapse)
    (s : Summary) (fs : list Finding) (analyzers : list AnalysisSummary) : panicky Text :=
  body ← (match fs with
          | [] => Some []
          | _ => body ← render_findings color g c fs; Some (section color (chars "FINDINGS") ++ body ++ nl)
          end);
  Some (report_header color s ++ host_lines color show_hosts s ++ protocol_lines color s ++ service_lines color s ++
    body ++ concat (analyzer_lines color <$> analyzers)).

(** ** CSV *)

Definition csv_header : list Text := chars <$>
  ["category"; "verdict"; "confidence"; "summary"; "evidence"; "mitre_techniques"; "source_ip"; "direction"; "timestamp"]%string.

Definition csv_row (f : Finding) : list Text := neutralize_csv_injection <$>
  [category_text (category f); verdict_text (verdict f); confidence_text (confidence f);
   formatted (summary f); joined (chars "; ") (formatted <$> evidence f);
   joined [59] (chars <$> mitre_techniques f);
   from_option ip_text [] (source_ip f); from_option direction_text [] (direction f);
   from_option to_rfc3339 [] (timestamp f)].

Definition csv_records (fs : list Finding) : list (list Text) := csv_header :: (csv_row <$> fs).

Definition render_csv (fs : list Finding) : Text := csv_table (csv_records fs).

(** ** JSON *)

(** The names that [Serialize] gives the enums of a finding. *)
Definition category_json (c : ThreatCategory) : Text :=
  chars match c with
  | Reconnaissance => "reconnaissance"
  | LateralMovement => "lateral_movement"
  | C2 => "c2"
  | Exfiltration => "exfiltration"
  | CredentialAccess => "credential_access"
  | Persistence => "persistence"
  | Execution => "execution"
  | Anomaly => "anomaly"
  | Suspicious => "suspicious"
  | Impact => "impact"
  end.

Definition verdict_json (v : Verdict) : Text :=
  chars match v with Likely => "likely" | Unlikely => "unlikely" | Inconclusive => "inconclusive" | Possible => "possible" end.

Definition confidence_json (c : Confidence) : Text :=
  chars match c with High => "high" | Medium => "medium" | Low => "low" end.

(** A field of an object, and one left out when there is nothing. *)
Definition field (k : string) (v : value) : list (Text * value) := [(chars k, v)].

Definition optional {A} (k : string) (f : A → value) (o : option A) : list (Text * value) :=
  match o with Some a => field k (f a) | None => [] end.

Definition unless_empty {A} (k : string) (f : A → value) (l : list A) : list (Text * value) :=
  match l with [] => [] | _ => field k (VArr (f <$> l)) end.

Record MitreAttackEntry := mkEntry {
  entry_id : string;
  entry_name : option string;
  entry_tactic_id : option string;
  entry_tactic_name : option string;
  entry_reference : string
}.

Definition mitre_attack_entry (id : string) : MitreAttackEntry :=
  let '(name, tactic, tid) := match technique_info id with
    | Some (n, t) => (Some n, Some (tactic_name t), technique_tactic_id id)
    | None => (None, None, None)
    end in
  mkEntry id name tid tactic ("https://attack.mitre.org/techniques/" +:+ id +:+ "/").

Definition entry_json (e : MitreAttackEntry) : value :=
  let str s := VStr (chars s) in
  VObj (field "id" (str (entry_id e)) ++ optional "name" str (entry_name e) ++
    optional "tactic_id" str (entry_tactic_id e) ++ optional "tactic_name" str (entry_tactic_name e) ++
    field "reference" (str (entry_reference e))).

(** The fields of a finding and its enrichment. *)
Definition finding_fields (f : Finding) : list (Text * value) :=
  field "category" (VStr (category_json (category f))) ++
  field "verdict" (VStr (verdict_json (verdict f))) ++
  field "confidence" (VStr (confidence_json (confidence f))) ++
  field "summary" (VStr (formatted (summary f))) ++
  field "evidence" (VArr (VStr ∘ formatted <$> evidence f)) ++
  unless_empty "mitre_techniques" (VStr ∘ chars) (mitre_techniques f) ++
  optional "source_ip" (VStr ∘ ip_text) (source_ip f) ++
  optional "timestamp" (VStr ∘ timestamp_json) (timestamp f) ++
  optional "direction" (VStr ∘ direction_text) (direction f).

Definition finding_json (f : Finding) : list (Text * value) :=
  finding_fields f ++ unless_empty "mitre_attack" entry_json (mitre_attack_entry <$> mitre_techniques f).

Definition summary_json (a : AnalysisSummary) : value :=
  VObj (field "analyzer_name" (VStr (chars (analyzer_name a))) ++ field "packets_analyzed" (VNum (packets_analyzed a)) ++
    field "detail" (VObj (prod_map chars value_of <$> sorted_entries (detail a)))).

Definition MITRE_DOMAIN : string := "ics-attack".
Definition MITRE_ATTACK_VERSION : string := "ics-attack-19.1".
Definition SCHEMA_VERSION : string := "2".

Definition counts_json (l : list (string * Z)) : value := VObj (prod_map chars VNum <$> merge_sort key_le l).

Definition totals_json (s : Summary) : value :=
  VObj (field "total_packets" (VNum (total_packets s)) ++ field "total_bytes" (VNum (total_bytes s)) ++
    field "skipped_packets" (VNum (skipped_packets s)) ++
    field "unique_hosts" (VArr (VStr ∘ ip_text <$> unique_hosts s)) ++
    field "protocols" (counts_json (prod_map protocol_name id <$> map_to_list (protocols s))) ++
    field "services" (counts_json (map_to_list (services s)))).

Definition json_document (s : Summary) (fs : list Finding) (analyzers : list AnalysisSummary) : value :=
  VObj (field "summary" (totals_json s) ++ field "findings" (VArr (VObj ∘ finding_json <$> fs)) ++
    field "analyzers" (VArr (summary_json <$> analyzers)) ++ field "mitre_domain" (VStr (chars MITRE_DOMAIN)) ++
    field "mitre_attack_version" (VStr (chars MITRE_ATTACK_VERSION)) ++
    field "schema_version" (VStr (chars SCHEMA_VERSION))).

Definition render_json (s : Summary) (fs : list Finding) (analyzers : list AnalysisSummary) : Text :=
  to_string_pretty (json_document s fs analyzers).

(** ** The output of a command *)

(** [root[key] = v]: an object, or null, which becomes one. *)
Definition set_field (root : value) (key : Text) (v : value) : panicky value :=
  match root with
  | VObj fields => Some (VObj (filter (λ e, e.1 ≠ key) fields ++ [(key, v)]))
  | VNull => Some (VObj [(key, v)])
  | _ => None
  end.

Definition coverage_gaps_value (all : gmap (TransportProto * Z) Z) : value :=
  VObj (field "caveat_l2" (VStr (chars L2_CAVEAT_TEXT)) ++
    field "entries" (VArr ((λ e, VObj (prod_map chars value_of <$> gap_json_entry e)) <$> gap_entries all))).

Definition inject_coverage_gaps_json (existing : Text) (all : gmap (TransportProto * Z) Z) : panicky Text :=
  root ← from_str existing;
  root ← set_field root (chars "coverage_gaps") (coverage_gaps_value all);
  Some (to_string_pretty root).

Definition report_output `{PcapFile} (rep : Report) : panicky Text :=
  match rep_reporter rep with
  | JsonReporter =>
      let output := render_json (rep_totals rep) (rep_findings rep) (rep_summaries rep) in
      match rep_gaps rep with Some all => inject_coverage_gaps_json output all | None => Some output end
  | CsvReporter => Some (render_csv (rep_findings rep))
  | TerminalReporter color hosts g c =>
      output ← render_terminal color hosts g c (rep_totals rep) (rep_findings rep) (rep_summaries rep);
      Some (output ++ from_option (λ all, chars (render_coverage_gaps_terminal all)) [] (rep_gaps rep))
  end.

(** ** The list of protocols *)

(** [{:<w}]. *)
Definition padded (w : nat) (s : Text) : Text := s ++ replicate (w - length s) 32.

Definition category_label (c : Protocols.ProtocolCategory) : string :=
  match c with Protocols.ICS => "ICS" | Protocols.IT => "IT" end.

Definition transport_label (l2 : string) (t : Protocols.Transport) : string :=
  match t with Protocols.TransTcp => "TCP" | Protocols.TransUdp => "UDP" | Protocols.LinkLayer => l2 end.

(** The five columns and the last word of a line. *)
Definition table_line (name category transport ports ethertype supported : Text) : Text :=
  padded 32 name ++ [32] ++ padded 8 category ++ [32] ++ padded 9 transport ++ [32] ++ padded 22 ports ++ [32] ++
  padded 18 ethertype ++ [32] ++ supported ++ nl.

Definition protocol_row (p : Protocols.KnownProtocol) : Text :=
  table_line (chars (Protocols.name p)) (chars (category_label (Protocols.category p)))
    (chars (transport_label "[L2]" (Protocols.transport p)))
    (match Protocols.canonical_ports p with [] => chars "—" | ports => joined (chars ", ") (digits <$> ports) end)
    (match Protocols.ethertype p with
     | Some et => chars "0x" ++ hex_text true 4 et ++ chars " (" ++ digits et ++ [41]
     | None => chars "—"
     end)
    (chars (if is_protocol_supported p then "yes" else "no")).

Definition PORT_102_NAMES : list string := ["S7comm"; "S7comm-plus"; "IEC 61850 MMS"; "ICCP/TASE.2"]%string.

Definition render_protocols_terminal (ps : list Protocols.KnownProtocol) : Text :=
  let has_port_102 := existsb (λ p, bool_decide (Protocols.name p ∈ PORT_102_NAMES)) ps in
  let has_l2 := existsb (λ p, bool_decide (Protocols.transport p = Protocols.LinkLayer)) ps in
  table_line (chars "Name") (chars "Category") (chars "Transport") (chars "Port(s)") (chars "EtherType") (chars "Supported") ++
  replicate (32 + 1 + 8 + 1 + 9 + 1 + 22 + 1 + 18 + 1 + 9) 45 ++ nl ++
  concat (protocol_row <$> ps) ++
  (if has_port_102 then nl ++ chars
     "NOTE: TCP/102 hosts S7comm, S7comm-plus, IEC 61850 MMS, and ICCP/TASE.2 — gap reports on port 102 cannot be attributed to a single protocol."
     ++ nl else []) ++
  (if has_l2 then nl ++ chars
     "NOTE: [L2] entries use EtherType-based detection and do not appear in gap reports (coverage gap reports track TCP/UDP port coverage only)."
     ++ nl else []).

Definition protocol_json (p : Protocols.KnownProtocol) : value :=
  VObj (field "name" (VStr (chars (Protocols.name p))) ++
    field "category" (VStr (chars (category_label (Protocols.category p)))) ++
    field "transport" (VStr (chars (transport_label "LinkLayer" (Protocols.transport p)))) ++
    field "canonical_ports" (VArr (VNum <$> Protocols.canonical_ports p)) ++
    field "ethertype" (from_option VNum VNull (Protocols.ethertype p)) ++
    field "port_detectable" (VBool (Protocols.port_detectable p)) ++
    field "supported" (VBool (is_protocol_supported p))).

Definition render_protocols_json (ps : list Protocols.KnownProtocol) : Text :=
  to_string_pretty (VObj (field "protocols" (VArr (protocol_json <$> ps)))).

(** What [run_protocols] puts out, or the error it ends with. *)
Definition protocols_output (fs : filesystem) (filter : ProtocolFilter) (cli : Cli) : RunError + Text :=
  match run_protocols fs filter cli with
  | inl e => inl e
  | inr ps => inr (match resolve_format cli with
                   | Some Json => render_protocols_json ps
                   | _ => render_protocols_terminal ps
                   end)
  end.
End render.
