(* ===== verification/RenderProps.v ===== *)
(** * Theorems about the reporters

    Collapsing and tactic grouping rearrange the findings and lose none; the
    terminal report holds no control character that a packet could have put
    there; the cells of the CSV table are no formulas; the objects of the JSON
    document have distinct keys. *)

From S2P Require Import Prelude FlowKey Handler Findings Reader Triage Catalog Coverage Dispatcher Display Analyze Render.
Import Summary Catalog.Mitre Catalog.MitreFacts.

#[local] Open Scope Z_scope.

(** ** Splitting a list by a key *)

Section split.
Context {A K} `{EqDecision K} (key : A → K).

Lemma filter_cut (l : list A) k : l ≡ₚ filter (λ x, key x = k) l ++ filter (λ x, key x ≠ k) l.
Proof.
  induction l as [|x l IH]; [done|]. rewrite !filter_cons. destruct (decide (key x = k)) as [E|E].
  - rewrite decide_False by naive_solver. cbn. by constructor.
  - rewrite decide_True by done. by rewrite <- Permutation_middle, <- IH.
Qed.

(** The parts with the keys of a list that covers them. *)
Lemma filter_partition ks (l : list A) :
  NoDup ks → (∀ x, x ∈ l → key x ∈ ks) → concat ((λ k, filter (λ x, key x = k) l) <$> ks) ≡ₚ l.
Proof.
  intros Hn. revert l. induction Hn as [|k ks Hk Hn IH]; intros l Hl.
  { destruct l as [|x l]; [done|]. specialize (Hl x (list_elem_of_here _ _)). by apply not_elem_of_nil in Hl. }
  cbn. etrans; [|symmetry; apply (filter_cut l k)]. apply Permutation_app; [done|].
  rewrite <- (IH (filter (λ x, key x ≠ k) l)).
  - apply Permutation_refl'. f_equal. apply list_fmap_ext. intros i k' Hk'%list_elem_of_lookup_2.
    rewrite list_filter_filter. apply list_filter_iff. intros x. split; [|tauto]. intros <-. split; [done|]. intros E. subst k. by apply Hk.
  - intros x [Hx Hxl]%list_elem_of_filter. specialize (Hl x Hxl). by apply elem_of_cons in Hl as [?|?].
Qed.

(** The keys in order of first occurrence. *)
Fixpoint distinct (l : list A) : list K :=
  match l with
  | [] => []
  | x :: l => key x :: filter (λ k, k ≠ key x) (distinct l)
  end.

Lemma elem_of_distinct l k : k ∈ distinct l ↔ ∃ x, x ∈ l ∧ key x = k.
Proof.
  induction l as [|x l IH]; cbn.
  { split; [by intros ?%not_elem_of_nil|]. by intros (x & ?%not_elem_of_nil & _). }
  rewrite elem_of_cons, list_elem_of_filter, IH. split.
  - intros [->|(_ & y & Hy & <-)]; [exists x; split; [by left|done]|exists y; split; [by right|done]].
  - intros (y & [->|Hy]%elem_of_cons & <-); [by left|]. destruct (decide (key y = key x)); [by left|right; naive_solver].
Qed.

Lemma distinct_NoDup l : NoDup (distinct l).
Proof.
  induction l as [|x l IH]; cbn; constructor; [|by apply NoDup_filter].
  intros [? _]%list_elem_of_filter. done.
Qed.

Lemma distinct_snoc l x : distinct (l ++ [x]) = distinct l ++ (if decide (key x ∈ distinct l) then [] else [key x]).
Proof.
  induction l as [|y l IH]; cbn; [by rewrite decide_False by apply not_elem_of_nil|]. f_equal. rewrite IH, filter_app. f_equal.
  destruct (decide (key x ∈ distinct l)) as [Hx|Hx]; cbn.
  - destruct (decide (key x = key y)) as [E|E].
    + rewrite decide_True; [done|]. rewrite E. left.
    + rewrite decide_True; [done|]. right. by apply list_elem_of_filter.
  - change (filter (λ k, k ≠ key y) [key x]) with (if decide (key x ≠ key y) then [key x] else []). case_decide as E.
    + rewrite decide_False; [done|]. rewrite elem_of_cons, list_elem_of_filter. tauto.
    + rewrite decide_True; [done|]. destruct (decide (key x = key y)) as [->|]; [left|by destruct E].
Qed.

(** One more element joins the part of its key. *)
Lemma part_snoc (l : list A) y k :
  filter (λ z, key z = k) (l ++ [y]) = if decide (key y = k) then filter (λ z, key z = k) l ++ [y] else filter (λ z, key z = k) l.
Proof. rewrite filter_app, filter_cons, filter_nil. case_decide; [done|apply app_nil_r]. Qed.

End split.

(** ** Collapsing *)

Lemma push_group_spec k f (members : CollapseKey → list Finding) ks :
  NoDup ks →
  push_group k f ((λ x, (x, members x)) <$> ks) =
    ((λ x, (x, members x ++ (if decide (k = x) then [f] else []))) <$> ks) ++ (if decide (k ∈ ks) then [] else [(k, [f])]).
Proof.
  induction 1 as [|x ks Hx Hn IH]; cbn; [by rewrite decide_False by apply not_elem_of_nil|].
  destruct (decide (x = k)) as [->|Hne].
  - rewrite (decide_True (P := k = k)), (decide_True (P := k ∈ k :: ks)) by (done || left). rewrite app_nil_r. f_equal.
    apply list_fmap_ext. intros i y Hy%list_elem_of_lookup_2. rewrite decide_False by congruence. by rewrite app_nil_r.
  - rewrite (decide_False (P := k = x)) by congruence. rewrite app_nil_r, IH. cbn. f_equal. f_equal.
    apply decide_ext. rewrite elem_of_cons. naive_solver.
Qed.

(** The groups are the distinct keys with their members. *)
Lemma collapse_groups fs :
  collapse_findings_pass_refs fs =
    (λ k, (k, filter (λ f, collapse_key f = k) fs)) <$> distinct collapse_key fs.
Proof.
  unfold collapse_findings_pass_refs. induction fs as [|f fs IH] using rev_ind; [done|].
  rewrite foldl_snoc, IH, push_group_spec by apply distinct_NoDup. rewrite distinct_snoc, fmap_app. f_equal.
  - apply list_fmap_ext. intros i k _. rewrite part_snoc. case_decide; [done|]. by rewrite app_nil_r.
  - case_decide as Hk; [done|]. cbn. rewrite part_snoc, decide_True by done. f_equal. f_equal.
    destruct (filter _ fs) as [|y l] eqn:E; [done|]. exfalso. apply Hk, elem_of_distinct. exists y.
    assert (y ∈ filter (λ x, collapse_key x = collapse_key f) fs) as [Hy Hyf]%list_elem_of_filter by (rewrite E; left).
    by split.
Qed.

Lemma mapM_total {A B} (f : A → option B) (g : A → B) l : (∀ x, x ∈ l → f x = Some (g x)) → mapM f l = Some (g <$> l).
Proof.
  induction l as [|x l IH]; intros H; [done|]. cbn. rewrite (H x) by left. cbn. rewrite IH; [done|].
  intros y Hy. apply H. by right.
Qed.

Lemma collapse_nonempty fs : Forall (λ g, g.2 ≠ []) (collapse_findings_pass_refs fs).
Proof.
  rewrite collapse_groups. apply Forall_fmap, Forall_forall. intros k (x & Hx & Hk)%elem_of_distinct. cbn. intros E.
  assert (x ∈ filter (λ f, collapse_key f = k) fs) as H1 by by apply list_elem_of_filter.
  rewrite E in H1. by apply not_elem_of_nil in H1.
Qed.

Lemma render_groups_total `{ReportLib} color single line fs :
  is_Some (render_groups color single line (collapse_findings_pass_refs fs)).
Proof.
  unfold render_groups. pose proof (collapse_nonempty fs) as Hl. generalize dependent (collapse_findings_pass_refs fs). intros l Hl.
  rewrite (mapM_total _ (λ g, default [] (render_group color single line g.2))); [by eexists|].
  intros g Hg. rewrite Forall_forall in Hl. specialize (Hl g Hg). by destruct g as [k [|f [|f' ms]]].
Qed.

(** C33. Collapsing loses nothing.  The groups are the distinct (category,
    verdict, confidence, summary) of the findings in order of first occurrence,
    each with exactly the findings that have it, in order; no group is empty, so
    rendering them cannot panic; and the groups together hold every finding
    exactly once. *)
Theorem collapse_exact `{ReportLib} color single line fs :
  let gs := collapse_findings_pass_refs fs in
  gs = ((λ k, (k, filter (λ f, collapse_key f = k) fs)) <$> distinct collapse_key fs) ∧
  NoDup gs.*1 ∧ Forall (λ g, g.2 ≠ []) gs ∧ concat gs.*2 ≡ₚ fs ∧
  ∃ t, render_groups color single line gs = Some t.
Proof.
  intros gs. split_and!; [apply collapse_groups| |apply collapse_nonempty| |apply render_groups_total]; unfold gs; rewrite collapse_groups.
  - rewrite <- list_fmap_compose. unfold compose. cbn. rewrite list_fmap_id. apply distinct_NoDup.
  - rewrite <- list_fmap_compose. unfold compose. cbn. apply filter_partition; [apply distinct_NoDup|].
    intros x Hx. apply elem_of_distinct. by exists x.
Qed.

(** ** Grouping by tactic *)

(** The findings of a tactic, in the order of its bucket. *)
Definition tactic_items (fs : list Finding) (t : option MitreTactic) : list item :=
  merge_sort item_le (filter (λ it, finding_tactic it.2 = t) (enumerate fs)).

(** A list that is there when it is not empty. *)
Definition present {A} (l : list A) : option (list A) := match l with [] => None | _ => Some l end.

Lemma add_items_lookup items t :
  foldl add_item ∅ items !! t = present (filter (λ it, finding_tactic it.2 = t) items).
Proof.
  induction items as [|it items IH] using rev_ind; [apply lookup_empty|].
  rewrite foldl_snoc, (part_snoc (λ it : item, finding_tactic it.2)). unfold add_item at 1.
  destruct (decide (finding_tactic it.2 = t)) as [->|Hne].
  - rewrite lookup_insert_eq, IH. by destruct (filter _ items).
  - by rewrite lookup_insert_ne, IH.
Qed.

Lemma sorted_buckets_lookup fs t : sorted_buckets fs !! t = present (tactic_items fs t).
Proof.
  unfold sorted_buckets, tactic_items. rewrite lookup_fmap, add_items_lookup.
  destruct (filter _ (enumerate fs)) as [|it l] eqn:E; [done|]. cbn [present fmap option_fmap option_map].
  pose proof (merge_sort_Permutation item_le (it :: l)) as Hp. destruct (merge_sort item_le (it :: l)); [|done].
  by apply Permutation_nil_l in Hp.
Qed.

Lemma enumerate_snd fs : (enumerate fs).*2 = fs.
Proof. unfold enumerate. rewrite fmap_imap. apply list_eq. intros i. rewrite list_lookup_imap. by destruct (fs !! i). Qed.

Lemma bucket_order_complete : NoDup bucket_order ∧ ∀ t, t ∈ bucket_order.
Proof.
  split; [apply (bool_decide_eq_true _); vm_compute; reflexivity|].
  intros [t|]; unfold bucket_order; apply elem_of_app; [left|right; left].
  apply list_elem_of_fmap_2. destruct t; apply (bool_decide_eq_true _); vm_compute; reflexivity.
Qed.

(** The items of all buckets are the findings. *)
Lemma tactic_items_partition fs : concat (tactic_items fs <$> bucket_order) ≡ₚ enumerate fs.
Proof.
  destruct bucket_order_complete as [Hn Hc].
  etrans; [|apply (filter_partition (λ it : item, finding_tactic it.2) bucket_order); [done|intros; apply Hc]].
  generalize bucket_order as ts. induction ts as [|t ts IH]; [done|]. cbn. apply Permutation_app; [|done].
  apply merge_sort_Permutation.
Qed.

#[local] Instance item_le_total : Total item_le.
Proof. intros x y. unfold item_le. lia. Qed.

#[local] Instance item_le_trans : Transitive item_le.
Proof. intros x y z. unfold item_le. lia. Qed.

(** A view by tactic from the way a bucket is shown. *)
Definition by_tactic (body : list item → Text) (fs : list Finding) : Text :=
  concat ((λ t, match tactic_items fs t with [] => [] | items => tactic_header t ++ body items end) <$> bucket_order).

Lemma render_buckets_spec body body' fs :
  (∀ items, body items = Some (body' items)) → render_buckets body fs = Some (by_tactic body' fs).
Proof.
  intros Hb. unfold render_buckets, by_tactic. rewrite (mapM_total _
    (λ t, match tactic_items fs t with [] => [] | items => tactic_header t ++ body' items end)); [done|].
  intros t _. unfold render_bucket. rewrite sorted_buckets_lookup. destruct (tactic_items fs t); [done|].
  cbn [present]. by rewrite Hb.
Qed.

(** Every view renders. *)
Lemma render_findings_total `{ReportLib} color g c fs : is_Some (render_findings color g c fs).
Proof.
  destruct g, c; cbn [render_findings]; [by apply render_groups_total|by eexists| |].
  - unfold render_findings_grouped_collapsed. eexists. apply (render_buckets_spec _
      (λ items, default [] (render_groups color (render_finding_grouped color) mitre_line_named
        (collapse_findings_pass_refs items.*2)))). intros items.
    by destruct (render_groups_total color (render_finding_grouped color) mitre_line_named items.*2) as [x ->].
  - eexists. by apply render_buckets_spec.
Qed.

Lemma render_terminal_total `{ReportLib} color hosts g c s fs analyzers :
  is_Some (render_terminal color hosts g c s fs analyzers).
Proof.
  unfold render_terminal. destruct fs as [|f fs]; [by eexists|].
  destruct (render_findings_total color g c (f :: fs)) as [x ->]. by eexists.
Qed.

(** C34. The view by tactic shows every finding exactly once and in order.  It
    is the sections of the tactics in report order, the uncategorized findings
    last and empty sections left out; a section lists the findings whose first
    technique has its tactic, the most likely and most confident first and
    equals in the order of their emission; and the sections together hold
    exactly the findings, whether collapsed or not, so rendering never panics. *)
Theorem grouped_view_complete `{ReportLib} color fs :
  render_findings_grouped color fs =
    Some (by_tactic (λ items, concat (render_finding_grouped color <$> items.*2)) fs) ∧
  (∃ body, render_findings_grouped_collapsed color fs = Some (by_tactic body fs) ∧
    ∀ items, render_groups color (render_finding_grouped color) mitre_line_named (collapse_findings_pass_refs items.*2) = Some (body items)) ∧
  (concat (tactic_items fs <$> bucket_order)).*2 ≡ₚ fs ∧
  (∀ t, StronglySorted item_le (tactic_items fs t) ∧ Forall (λ it, finding_tactic it.2 = t) (tactic_items fs t)).
Proof.
  split_and!.
  - by apply render_buckets_spec.
  - exists (λ items, default [] (render_groups color (render_finding_grouped color) mitre_line_named
      (collapse_findings_pass_refs items.*2))).
    assert (∀ items : list item, is_Some (render_groups color (render_finding_grouped color) mitre_line_named
      (collapse_findings_pass_refs items.*2))) as Hs.
    { intros items. apply render_groups_total. }
    split; [apply render_buckets_spec|]; intros items; by destruct (Hs items) as [x ->].
  - rewrite tactic_items_partition. by rewrite enumerate_snd.
  - intros t. split; [apply (StronglySorted_merge_sort item_le)|]. unfold tactic_items.
    rewrite merge_sort_Permutation. apply Forall_forall. by intros it [? _]%list_elem_of_filter.
Qed.

(** ** What reaches the terminal *)

(** Printable characters and line ends. *)
Abbreviation on_screen := (Forall (λ c, c = 10 ∨ 0x20 ≤ c < 0x7F ∨ 0xA0 ≤ c)).

Lemma printable_on_screen t : printable t → on_screen t.
Proof. intros Ht. eapply Forall_impl; [exact Ht|]. cbn. tauto. Qed.

(** Literals, numbers and lists of lines; the rest is left. *)
Ltac on_screen :=
  repeat match goal with
  | |- Forall _ [] => apply Forall_nil; exact I
  | |- Forall _ nl => apply Forall_singleton; by left
  | |- Forall _ (chars (String _ _)) => apply printable_on_screen, printable_lit; vm_compute; reflexivity
  | |- Forall _ (digits _) => apply printable_on_screen, digits_printable
  | |- Forall _ (ip_text _) => apply printable_on_screen, ip_printable
  | |- Forall _ (_ :: _) => apply Forall_cons; split; [lia|]
  | |- Forall _ (_ ++ _) => apply Forall_app; split
  | |- Forall _ (concat (_ <$> _)) => apply Forall_concat, Forall_fmap, Forall_forall; intros ? ?; unfold compose; cbn beta
  end.

Lemma section_on_screen `{ReportLib} title : on_screen title → on_screen (section false title).
Proof. intros Ht. unfold section. on_screen; [done|]. apply printable_on_screen, printable_lit. vm_compute. reflexivity. Qed.

Lemma escaped_on_screen t : on_screen (escape_for_terminal (formatted t)).
Proof. apply printable_on_screen, escape_printable, formatted_nonneg. Qed.

Lemma header_printable f : printable (header_text f).
Proof.
  unfold header_text. printing.
  - by destruct (category f); apply printable_lit; vm_compute.
  - by destruct (verdict f); apply printable_lit; vm_compute.
  - by destruct (confidence f); apply printable_lit; vm_compute.
  - apply escape_printable, formatted_nonneg.
Qed.

(** Technique identifiers without control characters. *)
Definition plain_techniques (f : Finding) : Prop := Forall (λ id, printable (chars id)) (mitre_techniques f).

Lemma technique_name_printable id n : technique_name id = Some n → printable (chars n).
Proof.
  unfold technique_name, technique_info. intros ([n' t] & ([k v] & Hf & E)%fmap_Some & ->)%fmap_Some. cbn [snd fst] in *. subst v.
  apply find_some in Hf as [Hin _].
  assert (forallb (λ arm, printableb (chars arm.2.1)) technique_arms = true) as Ha by (vm_compute; reflexivity).
  rewrite forallb_forall in Ha. specialize (Ha _ Hin). by apply printable_lit.
Qed.

Lemma technique_ids_printable f : plain_techniques f → printable (technique_ids f).
Proof. intros Hf. apply joined_forall; [printing|by apply Forall_fmap]. Qed.

Lemma mitre_line_on_screen f : plain_techniques f → on_screen (mitre_line f) ∧ on_screen (mitre_line_named f).
Proof.
  intros Hf. pose proof (printable_on_screen _ (technique_ids_printable f Hf)) as Hi. unfold mitre_line, mitre_line_named.
  destruct (mitre_techniques f) as [|id ids]; [done|]. split; [by on_screen|].
  destruct (technique_name id) as [n|] eqn:E; [|by on_screen]. on_screen; [done|].
  by eapply printable_on_screen, technique_name_printable.
Qed.

Lemma evidence_line_on_screen ev : on_screen (evidence_line ev).
Proof. unfold evidence_line. on_screen. apply escaped_on_screen. Qed.

Lemma prefix_on_screen `{ReportLib} f : on_screen (render_finding_prefix false f).
Proof.
  unfold render_finding_prefix, colorize. on_screen; [apply printable_on_screen, header_printable|apply evidence_line_on_screen].
Qed.

Lemma render_group_on_screen `{ReportLib} single line ms t :
  (∀ f, plain_techniques f → on_screen (single f) ∧ on_screen (line f)) → Forall plain_techniques ms →
  render_group false single line ms = Some t → on_screen t.
Proof.
  intros Hf Hm. unfold render_group, colorize. destruct ms as [|f [|f' ms]]; [done| |]; intros <-%(inj Some).
  - apply Forall_inv in Hm. by apply Hf.
  - apply Forall_cons in Hm as [Hm _]. cbv zeta. on_screen; [apply printable_on_screen, header_printable| |by apply Hf].
    case_match; [done|apply evidence_line_on_screen].
Qed.

Lemma mapM_forall {A B} (f : A → option B) (P : B → Prop) l ys :
  (∀ x y, x ∈ l → f x = Some y → P y) → mapM f l = Some ys → Forall P ys.
Proof.
  revert ys. induction l as [|x l IH]; intros ys Hf; cbn; [by intros [= <-]|].
  intros (y & Ey & (zs & Ez & [= <-])%bind_Some)%bind_Some. constructor; [apply (Hf x y); [left|done]|].
  apply IH; [|done]. intros x' y' Hx'. apply Hf. by right.
Qed.

Lemma render_groups_on_screen `{ReportLib} single line fs t :
  (∀ f, plain_techniques f → on_screen (single f) ∧ on_screen (line f)) → Forall plain_techniques fs →
  render_groups false single line (collapse_findings_pass_refs fs) = Some t → on_screen t.
Proof.
  intros Hf Hfs. unfold render_groups. intros (ts & Em & [= <-])%bind_Some. apply Forall_concat.
  eapply mapM_forall; [|exact Em]. intros [k ms] y Hg. eapply render_group_on_screen; [exact Hf|].
  rewrite collapse_groups in Hg. apply list_elem_of_fmap in Hg as (k' & [= -> ->] & _).
  apply Forall_forall. intros f [_ Hin]%list_elem_of_filter. rewrite Forall_forall in Hfs. by apply Hfs.
Qed.

Lemma flat_on_screen `{ReportLib} f : plain_techniques f → on_screen (render_finding_flat false f) ∧ on_screen (mitre_line f).
Proof. intros Hf. destruct (mitre_line_on_screen f Hf). split; [|done]. unfold render_finding_flat. apply Forall_app. split; [apply prefix_on_screen|done]. Qed.

Lemma grouped_on_screen `{ReportLib} f : plain_techniques f → on_screen (render_finding_grouped false f) ∧ on_screen (mitre_line_named f).
Proof. intros Hf. destruct (mitre_line_on_screen f Hf). split; [|done]. unfold render_finding_grouped. apply Forall_app. split; [apply prefix_on_screen|done]. Qed.

Lemma tactic_items_plain fs t : Forall plain_techniques fs → Forall plain_techniques (tactic_items fs t).*2.
Proof.
  intros Hfs. unfold tactic_items. rewrite merge_sort_Permutation. apply Forall_fmap, Forall_forall.
  intros it [_ Hin]%list_elem_of_filter. rewrite Forall_forall in Hfs. apply Hfs. rewrite <- (enumerate_snd fs). by apply list_elem_of_fmap_2.
Qed.

Lemma by_tactic_on_screen body fs :
  (∀ items : list item, Forall plain_techniques items.*2 → on_screen (body items)) → Forall plain_techniques fs →
  on_screen (by_tactic body fs).
Proof.
  intros Hb Hfs. unfold by_tactic. apply Forall_concat, Forall_fmap, Forall_true. intros t. unfold compose. cbn beta.
  pose proof (tactic_items_plain fs t Hfs) as Hp. destruct (tactic_items fs t) as [|it its]; [done|]. apply Forall_app. split; [|by apply Hb].
  unfold tactic_header. on_screen. apply printable_on_screen, printable_lit. destruct t as [[]|]; vm_compute; reflexivity.
Qed.

Lemma render_findings_on_screen `{ReportLib} g c fs :
  Forall plain_techniques fs → ∃ t, render_findings false g c fs = Some t ∧ on_screen t.
Proof.
  intros Hfs. destruct g, c; cbn [render_findings].
  - destruct (render_groups_total false (render_finding_flat false) mitre_line fs) as [t Et]. exists t. split; [exact Et|].
    eapply render_groups_on_screen; [apply flat_on_screen|done|exact Et].
  - eexists. split; [done|]. apply Forall_concat, Forall_fmap. eapply Forall_impl; [exact Hfs|]. intros f Hf. by apply flat_on_screen.
  - set (body items := default [] (render_groups false (render_finding_grouped false) mitre_line_named
      (collapse_findings_pass_refs (items : list item).*2))).
    assert (∀ items : list item, render_groups false (render_finding_grouped false) mitre_line_named
      (collapse_findings_pass_refs items.*2) = Some (body items)) as Hb.
    { intros items. unfold body. by destruct (render_groups_total false (render_finding_grouped false) mitre_line_named items.*2) as [x ->]. }
    exists (by_tactic body fs). split; [by apply render_buckets_spec|]. apply by_tactic_on_screen; [|done].
    intros items Hi. eapply render_groups_on_screen; [apply grouped_on_screen|exact Hi|apply Hb].
  - eexists. split; [by apply render_buckets_spec|]. apply by_tactic_on_screen; [|done]. intros items Hi.
    apply Forall_concat, Forall_fmap. eapply Forall_impl; [exact Hi|]. intros f Hf. by apply grouped_on_screen.
Qed.

(** The strings of a report that are not from packets. *)
Record plain_labels `{ReportLib} (s : Summary) (fs : list Finding) (analyzers : list AnalysisSummary) : Prop := {
  pl_services : map_Forall (λ svc _, printable (chars svc)) (services s);
  pl_techniques : Forall plain_techniques fs;
  pl_names : Forall (λ a, printable (chars (analyzer_name a))) analyzers;
  pl_details : Forall (λ a, map_Forall (λ k _, printable (chars k)) (detail a)) analyzers
}.

Lemma protocol_name_printable p : printable (chars (protocol_name p)).
Proof.
  destruct p as [| | |n]; cbn [protocol_name]; [by apply printable_lit; vm_compute..|]. apply chars_ascii.
  rewrite !string_bytes_append, !Forall_app. split_and!.
  - repeat (apply Forall_cons; split; [by vm_compute|]). by apply Forall_nil.
  - eapply Forall_impl; [apply decimal_bytes|]. unfold is_digit. cbn. lia.
  - repeat (apply Forall_cons; split; [by vm_compute|]). by apply Forall_nil.
Qed.

Lemma count_lines_on_screen l : Forall (λ e, printable (chars e.1)) l → on_screen (count_lines l).
Proof.
  intros Hl. unfold count_lines. on_screen. apply printable_on_screen.
  rewrite Forall_forall in Hl. apply Hl. by rewrite <- (merge_sort_Permutation count_le).
Qed.

Lemma totals_on_screen `{ReportLib} hosts (s : Summary) :
  map_Forall (λ svc _, printable (chars svc)) (services s) →
  on_screen (report_header false s) ∧ on_screen (host_lines false hosts s) ∧
  on_screen (protocol_lines false s) ∧ on_screen (service_lines false s).
Proof.
  intros Hs. split_and!.
  - unfold report_header. on_screen; [apply section_on_screen; on_screen|]. case_match; cbv zeta; on_screen.
  - unfold host_lines. destruct hosts; [|done]. destruct (unique_hosts s); [done|]. on_screen. apply section_on_screen. on_screen.
  - unfold protocol_lines. on_screen; [apply section_on_screen; on_screen|]. apply count_lines_on_screen.
    apply Forall_fmap, Forall_true. intros [p n]. apply protocol_name_printable.
  - unfold service_lines. case_decide; [done|]. on_screen; [apply section_on_screen; on_screen|]. apply count_lines_on_screen.
    apply Forall_forall. intros [svc n] Hin%elem_of_map_to_list. exact (Hs svc n Hin).
Qed.

Lemma analyzer_on_screen `{ReportLib} a :
  (∀ v, Forall (λ c, 0 ≤ c) (value_to_string v)) → printable (chars (analyzer_name a)) →
  map_Forall (λ k _, printable (chars k)) (detail a) → on_screen (analyzer_lines false a).
Proof.
  intros Hv Hn Hd. unfold analyzer_lines. on_screen.
  - apply section_on_screen. on_screen. by apply printable_on_screen.
  - match goal with H : ?e ∈ sorted_entries _ |- _ => destruct e as [k v]; unfold sorted_entries in H;
      rewrite (merge_sort_Permutation key_le) in H; apply elem_of_map_to_list in H; exact (printable_on_screen _ (Hd k v H)) end.
  - apply printable_on_screen, escape_printable, Hv.
Qed.

Lemma terminal_on_screen `{ReportLib} hosts g c s fs analyzers :
  (∀ v, Forall (λ ch, 0 ≤ ch) (value_to_string v)) → plain_labels s fs analyzers →
  ∃ t, render_terminal false hosts g c s fs analyzers = Some t ∧ on_screen t.
Proof.
  intros Hv [Hs Hf Hn Hd]. destruct (totals_on_screen hosts s Hs) as (H1 & H2 & H3 & H4).
  assert (on_screen (concat (analyzer_lines false <$> analyzers))) as H5.
  { on_screen. rewrite Forall_forall in Hn, Hd. by apply analyzer_on_screen; [|apply Hn|apply Hd]. }
  unfold render_terminal. destruct fs as [|f fs]; cbn [mbind option_bind].
  - eexists. split; [done|]. rewrite !Forall_app. by split_and!.
  - destruct (render_findings_on_screen g c (f :: fs) Hf) as (t & -> & Ht). cbn [mbind option_bind].
    eexists. split; [done|]. rewrite !Forall_app. split_and!; try done; [|by apply Forall_singleton; left].
    apply section_on_screen. on_screen.
Qed.

Lemma on_screen_clean t : on_screen t → Forall (λ ch, ch = 10 ∨ is_control ch = false) t.
Proof.
  intros Ht. eapply Forall_impl; [exact Ht|]. cbn. unfold is_control, is_ascii_control, is_c1. intros ch.
  intros [->|Hc]; [by left|right]. destruct (Z.ltb_spec ch 0x20), (Z.eqb_spec ch 0x7F), (Z.leb_spec 0x80 ch), (Z.leb_spec ch 0x9F); cbn; done || lia.
Qed.

(** No finding can write to the terminal.  Without colours the report always
    renders, in each of the four views, and whatever bytes the findings and
    the details of the analyzers hold, the only control character in it is the
    line end: no escape sequence, of the C0 or the C1 block, gets through.  The
    labels that are not from packets (services, techniques, names of analyzers
    and of their details) are taken to be plain; those of a run are, as
    [OutputProps] shows. *)
Theorem terminal_report_clean `{ReportLib} hosts g c s fs analyzers :
  (∀ v, Forall (λ ch, 0 ≤ ch) (value_to_string v)) → plain_labels s fs analyzers →
  ∃ t, render_terminal false hosts g c s fs analyzers = Some t ∧
    Forall (λ ch, ch = 10 ∨ is_control ch = false) t.
Proof.
  intros Hv Hl. destruct (terminal_on_screen hosts g c s fs analyzers Hv Hl) as (t & Et & Ht). exists t. split; [done|].
  by apply on_screen_clean.
Qed.

(** ** Tables and documents *)

(** A cell that a spreadsheet does not take for a formula. *)
Definition inert (cell : Text) : Prop := match cell with c :: _ => is_formula_trigger c = false | [] => True end.

Lemma neutralize_inert s : inert (neutralize_csv_injection s) ∧ (inert s → neutralize_csv_injection s = s).
Proof.
  destruct s as [|c s]; [done|]. cbn. destruct (is_formula_trigger c) eqn:E; cbn; by split.
Qed.

(** The table has a header and one row for every finding, in order; every row
    has the nine columns of the header, no cell of it is a formula, and the text
    of a finding that is none itself is exported as it is. *)
Theorem csv_table_inert `{ReportLib} fs :
  length (csv_records fs) = S (length fs) ∧
  Forall (λ row, length row = 9%nat ∧ Forall inert row) (csv_records fs) ∧
  (∀ i f, fs !! i = Some f → csv_records fs !! S i = Some (csv_row f)) ∧
  (∀ f, inert (formatted (summary f)) → csv_row f !! 3%nat = Some (formatted (summary f))).
Proof.
  split_and!.
  - cbn. by rewrite length_fmap.
  - apply Forall_cons. split.
    + split; [done|]. repeat (apply Forall_cons; split; [by vm_compute|]). by apply Forall_nil.
    + apply Forall_fmap, Forall_true. intros f. split; [done|]. apply Forall_fmap, Forall_true. intros t. apply neutralize_inert.
  - intros i f Hf. unfold csv_records. rewrite lookup_cons. cbn iota. by rewrite list_lookup_fmap, Hf.
  - intros f Hf. cbn. f_equal. by apply neutralize_inert.
Qed.

(** The keys of a finding, by what it has. *)
Definition finding_keys (techniques ip time dir : bool) : list Text :=
  let has (b : bool) k := if b then [chars k] else [] in
  (chars <$> ["category"; "verdict"; "confidence"; "summary"; "evidence"]%string) ++ has techniques "mitre_techniques"%string ++
  has ip "source_ip"%string ++ has time "timestamp"%string ++ has dir "direction"%string ++ has techniques "mitre_attack"%string.

Lemma finding_keys_ok b1 b2 b3 b4 :
  bool_decide (NoDup (finding_keys b1 b2 b3 b4)) = true ∧
  bool_decide (chars "mitre_attack" ∈ finding_keys b1 b2 b3 b4) = b1.
Proof. split; destruct b1, b2, b3, b4; vm_compute; reflexivity. Qed.

(** The object of a finding has no key twice, so the enrichment hides no field
    of it; it has the text of the finding unescaped; and every technique gets
    one entry, with a name, a tactic and its identifier together when the table
    knows it and without them otherwise. *)
Theorem finding_json_exact `{ReportLib} f :
  NoDup (finding_json f).*1 ∧ (chars "summary", VStr (formatted (summary f))) ∈ finding_json f ∧
  (chars "mitre_attack" ∈ (finding_json f).*1 ↔ mitre_techniques f ≠ []) ∧
  (∀ id, entry_id (mitre_attack_entry id) = id ∧
    match technique_info id with
    | Some (n, t) => entry_name (mitre_attack_entry id) = Some n ∧ entry_tactic_name (mitre_attack_entry id) = Some (tactic_name t) ∧
        entry_tactic_id (mitre_attack_entry id) = Some (tactic_id t)
    | None => entry_name (mitre_attack_entry id) = None ∧ entry_tactic_name (mitre_attack_entry id) = None ∧
        entry_tactic_id (mitre_attack_entry id) = None
    end).
Proof.
  assert (∃ b1 b2 b3 b4, (finding_json f).*1 = finding_keys b1 b2 b3 b4 ∧ (b1 = true ↔ mitre_techniques f ≠ []))
    as (b1 & b2 & b3 & b4 & Ek & Hb).
  { exists (negb (bool_decide (mitre_techniques f = []))), (bool_decide (is_Some (source_ip f))),
      (bool_decide (is_Some (timestamp f))), (bool_decide (is_Some (direction f))). split.
    - unfold finding_json, finding_fields. destruct (mitre_techniques f), (source_ip f), (timestamp f), (direction f); reflexivity.
    - by rewrite negb_true_iff, bool_decide_eq_false. }
  destruct (finding_keys_ok b1 b2 b3 b4) as [Hn Hm]. rewrite bool_decide_eq_true in Hn.
  split; [by rewrite Ek|]. split; [|split].
  - unfold finding_json, finding_fields, field. set_solver.
  - rewrite Ek, <- Hb. by rewrite <- (bool_decide_eq_true (chars "mitre_attack" ∈ _)), Hm.
  - intros id. unfold mitre_attack_entry, technique_tactic_id, technique_tactic.
    destruct (technique_info id) as [[n t]|]; cbn; [|done]. by destruct t.
Qed.

(** ** A report *)

Module TinyReport.

Definition tiny_report_lib : ReportLib := {|
  red := id; yellow := id; cyan := id; bold := id; underline := id; dimmed := id;
  to_rfc3339 n := digits n; timestamp_json n := digits n;
  value_to_string _ := [123; 125]; to_string_pretty _ := [123; 125]; from_str _ := Some (VObj []);
  csv_table rows := concat (joined [44] <$> rows)
|}.

#[local] Existing Instance tiny_report_lib.

(** A summary with an escape sequence in it. *)
Definition hostile : Finding :=
  mkFinding Anomaly Likely High [Lit "host "; Lit (String (Ascii.ascii_of_nat 27) "[2J")] [[Lit "a"]] ["T1083"%string] None (Some 5) None.

Definition tiny_totals : Summary := Summary_new <| services := {["HTTP"%string := 2]} |>.

Definition tiny_summary : AnalysisSummary := mkSummary "HTTP" 2 {["k"%string := JNum 1]}.

Example hostile_text :
  render_finding_flat false hostile =
    chars "  [Anomaly] LIKELY (HIGH) - host \u{1b}[2J" ++ nl ++ chars "    > a" ++ nl ++ chars "    MITRE: T1083" ++ nl.
Proof. vm_compute. reflexivity. Qed.

Lemma terminal_report_clean_witness :
  ∃ t, render_terminal false true Grouped Collapsed tiny_totals [hostile; hostile] [tiny_summary] = Some t ∧
    Forall (λ ch, ch = 10 ∨ is_control ch = false) t.
Proof.
  apply (terminal_report_clean true Grouped Collapsed tiny_totals [hostile; hostile] [tiny_summary]).
  - intros v. repeat constructor; discriminate.
  - split.
    + intros svc n E. change (({["HTTP"%string := 2]} : gmap string Z) !! svc = Some n) in E. apply lookup_singleton_Some in E as [<- _]. apply printable_lit. reflexivity.
    + repeat (apply Forall_cons; split; [apply Forall_singleton, printable_lit; reflexivity|]). apply Forall_nil. exact I.
    + apply Forall_singleton, printable_lit. reflexivity.
    + apply Forall_singleton. intros k v E. change (({["k"%string := JNum 1]} : gmap string Findings.json) !! k = Some v) in E. apply lookup_singleton_Some in E as [<- _]. apply printable_lit. reflexivity.
Defined.

End TinyReport.
