(* ===== verification/Emitted.v ===== *)
(** * The techniques of findings

    Every finding that the engine or an analyzer emits is tagged with
    techniques of [EMITTED_IDS] only, the list that src/mitre.rs keeps of them.
    One module per emitter, over whatever it is given. *)

From S2P Require Import Prelude FlowKey Handler Findings Catalog Flow Segment Reassembly Dispatcher.
From S2P Require Import Modbus Iec104 Dnp3 Enip Arp Http Tls Reader Decoder Triage Pipeline Analyze.
Import Catalog.Mitre.

#[local] Open Scope Z_scope.

(** A finding whose techniques are all listed. *)
Definition tagged (f : Finding) : Prop := forallb (λ id, bool_decide (id ∈ EMITTED_IDS)) (mitre_techniques f) = true.

Abbreviation all_tagged := (Forall tagged).

(** Findings with literal techniques, whatever decides which. *)
Ltac tags :=
  repeat match goal with
  | |- all_tagged [] => apply Forall_nil; exact I
  | |- all_tagged (_ :: _) => apply Forall_cons; split
  | |- all_tagged (_ ++ _) => apply Forall_app; split
  | |- all_tagged (option_list (Some _)) => apply Forall_singleton
  | |- all_tagged (option_list None) => apply Forall_nil; exact I
  | |- all_tagged (option_list (if ?b then _ else _)) => destruct b
  | |- all_tagged (if ?b then _ else _) => destruct b
  | |- all_tagged (match ?x with _ => _ end) => destruct x
  | |- tagged _ => reflexivity
  end; try done.

(** ** The engine

    And a property of the handler that its calls keep. *)

Import Reassembly.

Section engine.
Context {H : Type} `{SH : StreamHandler H} `{HO : HashOrder} (P : H → Prop).
Context (Pdata : ∀ h k dir data off ts, P h → P (on_data h k dir data off ts)).
Context (Pclose : ∀ h k reason, P h → P (on_flow_close h k reason)).

(** The engine's findings and the handler. *)
Definition kept (r : TcpReassembler) (h : H) : Prop := all_tagged (findings r) ∧ P h.

Lemma deliver_all_kept k dir ts flushed r (h : H) r' h' :
  deliver_all k dir ts flushed r h = Some (r', h') → kept r h → kept r' h'.
Proof using Pdata.
  revert r h. induction flushed as [|[o d] l IH]; intros r h E K; cbn [deliver_all] in E; [by simplify_eq|].
  peel E. eapply IH; [exact E|]. destruct K. split; [done|]. by apply Pdata.
Qed.

Lemma close_flush_dir_kept k ts dir f r (h : H) f' r' h' :
  close_flush_dir k ts dir f r h = Some (f', r', h') → kept r h → kept r' h'.
Proof using Pdata. intros E K. unfold close_flush_dir in E. peel E. peel E. simplify_eq. eapply deliver_all_kept; [done|]. by destruct K. Qed.

Lemma close_flow_kept r (h : H) k reason r' h' : close_flow r h k reason = Some (r', h') → kept r h → kept r' h'.
Proof using Pdata Pclose.
  unfold close_flow. destruct (flows r !! k) as [f|]; [|by intros [= <- <-]]. intros E K.
  peel E. peel E. peel E. peel E. simplify_eq.
  eapply close_flush_dir_kept in E1; [|by destruct K]. eapply close_flush_dir_kept in E2; [|done].
  destruct E2. split; [done|]. by apply Pclose.
Qed.

Lemma evict_loop_kept target victims r (h : H) r' h' : evict_loop target victims r h = Some (r', h') → kept r h → kept r' h'.
Proof using Pdata Pclose.
  revert r h. induction victims as [|[[k ?] ?] l IH]; intros r h E K; cbn [evict_loop] in E; [by simplify_eq|].
  destruct (_ && _); [by simplify_eq|]. peel E. eapply IH; [exact E|]. eapply close_flow_kept; [exact E0|]. by destruct K.
Qed.

Lemma evict_flows_kept r (h : H) trigger r' h' : evict_flows r h trigger = Some (r', h') → kept r h → kept r' h'.
Proof using Pdata Pclose. unfold evict_flows. intros E. peel E. by eapply evict_loop_kept. Qed.

Lemma expire_keys_kept keys r (h : H) r' h' : expire_keys keys r h = Some (r', h') → kept r h → kept r' h'.
Proof using Pdata Pclose.
  revert r h. induction keys as [|k l IH]; intros r h E K; cbn [expire_keys] in E; [by simplify_eq|].
  peel E. eapply IH; [exact E|]. eapply close_flow_kept; [exact E0|]. by destruct K.
Qed.

Lemma sweeps_kept r (h : H) ts r1 h1 r' h' :
  sweep_by_time r h ts = Some (r1, h1) → sweep_by_index r1 h1 = Some (r', h') → kept r h → kept r' h'.
Proof using Pdata Pclose.
  unfold sweep_by_time, sweep_by_index. intros E1 E2 K.
  assert (kept r1 h1) as K1. { destruct (_ <? _); [|by simplify_eq]. eapply expire_keys_kept; [exact E1|by destruct K]. }
  destruct (is_multiple_of _ _); [|by simplify_eq]. eapply expire_keys_kept; [exact E2|by destruct K1].
Qed.

Lemma get_or_create_flow_kept r (h : H) k ts r' h' b : get_or_create_flow r h k ts = Some (r', h', b) → kept r h → kept r' h'.
Proof using Pdata Pclose.
  unfold get_or_create_flow. intros E K. peel E.
  assert (kept x h0) as K1.
  { unfold admit_flow in E0. case_decide; [by simplify_eq|]. peel E0.
    assert (kept x0 h1) as K0. { destruct (_ <=? _); [|by simplify_eq]. peel E1. simplify_eq. by eapply evict_flows_kept. }
    destruct b1; simplify_eq; by destruct K0. }
  destruct (negb b0); [by simplify_eq|]. peel E. simplify_eq. by destruct K1.
Qed.

Lemma apply_handshake_flags_kept r (h : H) packet k tcp r' h' post :
  apply_handshake_flags r h packet k tcp = Some (r', h', post) → kept r h → kept r' h'.
Proof using Pdata Pclose.
  unfold apply_handshake_flags. intros E K. peel E. destruct (rst tcp); [|simplify_eq; by destruct K].
  peel E. simplify_eq. eapply close_flow_kept; [exact E1|]. by destruct K.
Qed.

Lemma push_finding_tagged r f : all_tagged (findings r) → tagged f → all_tagged (findings (push_finding r f)).
Proof using Type. intros Hr Hf. unfold push_finding. case_match; [|done]. cbn. tags. Qed.

Lemma record_result_tagged r k src ts n res : all_tagged (findings r) → all_tagged (findings (record_result r k src ts n res)).
Proof using Type.
  intros Hr. destruct res; cbn [record_result]; try done;
    unfold generate_conflicting_overlap_finding, generate_truncated_finding; case_match; cbn; tags.
Qed.

Lemma process_payload_kept r (h : H) packet k tcp ts r' h' :
  process_payload r h packet k tcp ts = Some (r', h') → kept r h → kept r' h'.
Proof using Pdata.
  unfold process_payload. case_decide; [by intros [= <- <-]|]. intros E K. peel E. peel E.
  assert (all_tagged (findings x)) as Hx.
  { unfold insert_payload_segment in E0. peel E0. destruct (infer_join r x1 packet tcp) as [r1 f1] eqn:Ej.
    assert (findings r1 = findings r) as Er by (unfold infer_join in Ej; case_decide; by simplify_eq).
    peel E0. peel E0. simplify_eq. apply record_result_tagged. cbn. rewrite Er. apply K. }
  assert (all_tagged (findings x0)) as Hx0.
  { unfold check_anomaly_thresholds in E1. peel E1.
    unfold overlap_alert, small_segment_alert, out_of_window_alert in E1. repeat case_match; simplify_eq;
      unfold put_flow; cbn [findings update_field]; repeat (apply push_finding_tagged; [|reflexivity]); exact Hx. }
  unfold flush_contiguous_data in E. peel E. peel E. peel E. peel E. eapply deliver_all_kept; [exact E|]. split; [done|apply K].
Qed.

Lemma process_packet_kept r (h : H) p ts r' h' : process_packet r h p ts = Some (r', h') → kept r h → kept r' h'.
Proof using Pdata Pclose.
  unfold process_packet. intros E K. peel E. peel E. peel E. rename x0 into r1, x1 into r2.
  eapply sweeps_kept in E2; [|exact E1|by destruct K]. clear E1 K.
  unfold extract_tcp_context in E. destruct (decide (protocol p = PTcp)) as [Hp|Hp].
  2: { rewrite decide_True in E by done. simplify_eq. by destruct E2. }
  rewrite decide_False in E by tauto. destruct (transport p) as [sp dp sq sy ak fi rs| |]; simplify_eq; [|by destruct E2..].
  peel E. rename x0 into r3. eapply get_or_create_flow_kept in E1; [|by destruct E2]. clear E2.
  destruct (negb b); [by simplify_eq|]. peel E. rename x0 into r4. eapply apply_handshake_flags_kept in E2; [|done].
  destruct p0; [|by simplify_eq]. peel E. rename x0 into r5. eapply process_payload_kept in E3; [|done].
  peel E. rename x0 into r6.
  assert (kept r6 h5) as K6.
  { unfold remove_if_closed in E4. destruct (flows r5 !! _) as [f|]; [|by simplify_eq]. case_decide; [|by simplify_eq].
    eapply close_flow_kept; [exact E4|]. by destruct E3. }
  unfold enforce_memcap in E. destruct (_ <? _); [by eapply evict_flows_kept|by simplify_eq].
Qed.

Lemma finalize_kept r (h : H) r' h' : finalize r h = Some (r', h') → kept r h → kept r' h'.
Proof using Pdata Pclose.
  unfold finalize. destruct (finalized r); [by intros [= <- <-]|]. intros E K. peel E.
  assert (∀ ks (r r' : TcpReassembler) (h h' : H), close_all ks r h = Some (r', h') → kept r h → kept r' h') as Hall.
  { clear -Pdata Pclose. induction ks as [|k ks IH]; intros r r' h h' E K; cbn [close_all] in E; [by simplify_eq|].
    peel E. eapply IH; [exact E|]. by eapply close_flow_kept. }
  apply Hall in E0; [|by destruct K]. destruct E0 as [Hx Hh]. injection E as <- <-. split; [|done]. case_match; cbn; [|done]. tags.
Qed.
End engine.

(** What an analyzer that has not panicked satisfies. *)
Definition settled_with {A} (P : A → Prop) (o : option A) : Prop := match o with Some a => P a | None => True end.

Lemma settled_with_bind {A B} (P : A → Prop) (Q : B → Prop) (o : option A) (f : A → option B) :
  (∀ a b, P a → f a = Some b → Q b) → settled_with P o → settled_with Q (o ≫= f).
Proof. intros Hf. destruct o as [a|]; cbn; [|done]. intros Ha. destruct (f a) as [b|] eqn:E; cbn; [by eapply Hf|done]. Qed.

(** ** Modbus *)

Module ModbusTags.
Import Modbus.

Definition tagged_modbus (a : ModbusAnalyzer) : Prop := all_tagged (all_findings a).

Lemma push_findings_tagged a l : tagged_modbus a → all_tagged l → tagged_modbus (push_findings a l).
Proof.
  intros Ha Hl. revert a Ha. induction Hl as [|f l Hf Hl IH]; intros a Ha; [done|]. apply IH.
  unfold push_one, tagged_modbus. case_match; [done|]. cbn. tags.
Qed.

Lemma write_tagged c b : tagged (write_finding c b).
Proof. unfold tagged, write_finding. cbn [mitre_techniques]. by repeat case_match. Qed.

Lemma request_path_tagged a f c a' f' l :
  request_path a f c = (a', f', l) → all_findings a' = all_findings a ∧ all_tagged l.
Proof.
  unfold request_path. destruct (if decide _ then _ else _) as [a1 f1] eqn:E1.
  assert (all_findings a1 = all_findings a) as <-.
  { case_decide; [|by simplify_eq]. unfold record_request in E1. repeat case_match; by simplify_eq. }
  destruct (classify_fc (fc c)); intros E; simplify_eq; try (by split).
  - unfold write_request in E. destruct (t0831_window _ _) as [f2 b]. destruct (burst_detector _ _ _) as [f3 l1] eqn:Eb.
    destruct (sustained_detector _ _ _) as [f4 l2] eqn:Es. simplify_eq. split; [done|].
    apply Forall_cons. split; [apply write_tagged|]. apply Forall_app. split.
    + unfold burst_detector in Eb. repeat case_match; simplify_eq; tags.
    + unfold sustained_detector in Es. repeat case_match; simplify_eq; tags.
  - split; [done|]. unfold diagnostic_findings. cbv zeta. tags.
Qed.

Lemma response_path_tagged a f c a' f' l :
  response_path a f c = Some (a', f', l) → all_findings a' = all_findings a ∧ all_tagged l.
Proof.
  unfold response_path. case_decide.
  - destruct (attribute_exception _ _ _ _) as [f1 o]. intros E. peel E. simplify_eq. split; [done|].
    unfold exception_window in E0. cbv zeta in E0. destruct (_ <? _); [by simplify_eq|]. peel E0.
    case_match; simplify_eq; [|done]. apply Forall_singleton. unfold tagged, exception_finding. cbn [mitre_techniques]. by case_match.
  - destruct (match_response _ _ _). intros E. by simplify_eq.
Qed.

Lemma modbus_process_pdu_tagged a f k dir h fc data ts a' f' l :
  process_pdu a f k dir h fc data ts = Some (a', f', l) → tagged_modbus a → tagged_modbus a'.
Proof.
  unfold process_pdu. destruct (endpoints k) as [ci si]. intros E Ha. peel E.
  assert (all_findings x = all_findings a) as Ex by (unfold count_pdu in E0; peel E0; simplify_eq; cbn; repeat case_match; done).
  peel E. simplify_eq.
  assert (all_findings x0 = all_findings x ∧ all_tagged l0) as [Ex0 Hl].
  { destruct dir; [apply (inj Some) in E1; by eapply request_path_tagged|by eapply response_path_tagged]. }
  apply push_findings_tagged; [unfold tagged_modbus; by rewrite Ex0, Ex|]. apply Forall_app. split; [|done].
  unfold recon_findings. tags.
Qed.

Lemma modbus_walk_tagged fuel a f k dir ts l a' f' : walk fuel a f k dir ts l = Some (a', f') → tagged_modbus a → tagged_modbus a'.
Proof.
  revert a f l. induction fuel as [|fuel IH]; intros a f l E Ha; (destruct l as [|b l]; cbn [walk] in E; [by simplify_eq|]); [done|].
  destruct (parse_mbap_header _); [|unfold stash in E; case_match; by simplify_eq].
  destruct (negb _); [by simplify_eq|]. cbv zeta in E. destruct (_ <? _); [unfold stash in E; case_match; by simplify_eq|].
  peel E. peel E. eapply IH; [exact E|]. by eapply modbus_process_pdu_tagged.
Qed.

Lemma modbus_on_data_tagged a k dir data off ts a' : tagged_modbus a → modbus_on_data a k dir data off ts = Some a' → tagged_modbus a'.
Proof.
  intros Ha. unfold modbus_on_data. cbv zeta. case_match; [by intros [= <-]|]. intros E. peel E. simplify_eq.
  apply modbus_walk_tagged in E0; [exact E0|exact Ha].
Qed.

Lemma modbus_handler_tagged h : settled_with tagged_modbus h →
  (∀ k dir data off ts, settled_with tagged_modbus (on_data h k dir data off ts)) ∧
  (∀ k reason, settled_with tagged_modbus (on_flow_close h k reason)).
Proof.
  intros Hh. split; intros.
  - cbn. eapply settled_with_bind; [|exact Hh]. intros a b. apply modbus_on_data_tagged.
  - by destruct h.
Qed.
End ModbusTags.

(** ** IEC 60870-5-104 *)

Module Iec104Tags.
Import Iec104.

Definition tagged_iec (a : Iec104Analyzer) : Prop := all_tagged (all_findings a).

Lemma threats_tagged a o : all_tagged (threats_of a o).
Proof. unfold threats_of, tagged_write_threats, reset_threats, reserved_threats. cbv zeta. tags. Qed.

Lemma process_frame_tagged s frame found o s' found' :
  process_frame s frame found o = Some (s', found') → all_tagged found → all_tagged found'.
Proof.
  unfold process_frame. intros E Hf. destruct (parse_apci_header frame) as [h|]; [|by simplify_eq]. cbv zeta in E.
  destruct (classify_frame_format (cf1 h)).
  - peel E. destruct (track_ns_desync _ _ _) as [s1 f] eqn:Et. simplify_eq. apply Forall_app. split.
    + destruct (parse_asdu x) as [asdu|]; [|done]. unfold detect_iec104_threats. apply Forall_app. split; [done|].
      pose proof (threats_tagged asdu o) as Ht. destruct (cot_test asdu); [apply Forall_fmap; exact Ht|exact Ht].
    + unfold track_ns_desync in Et. destruct (last_ns _ _); simplify_eq; tags.
  - by simplify_eq.
  - destruct (process_u_frame _ _ _) as [s1 f] eqn:Eu. simplify_eq. apply Forall_app. split; [done|].
    unfold process_u_frame in Eu. repeat case_match; simplify_eq; tags.
Qed.

Lemma report_malformed_len_tagged s len pos o s' l : report_malformed_len s len pos o = (s', l) → all_tagged l.
Proof. unfold report_malformed_len. intros E. repeat case_match; simplify_eq; tags. Qed.

Lemma iec_walk_tagged fuel s found pos l o s' found' :
  iec_walk fuel s found pos l o = Some (s', found') → all_tagged found → all_tagged found'.
Proof.
  revert s found pos l. induction fuel as [|fuel IH]; intros s found pos l E Hf; (destruct l as [|b l]; cbn [iec_walk] in E; [by simplify_eq|]); [done|].
  destruct (negb _); [by eapply IH|]. destruct l as [|len l]; [by simplify_eq|]. destruct (negb _).
  - destruct (report_malformed_len _ _ _ _) as [s1 new] eqn:Er. eapply IH; [exact E|]. apply Forall_app. split; [done|].
    by eapply report_malformed_len_tagged.
  - cbv zeta in E. destruct (_ <? _); [by simplify_eq|]. peel E. peel E. eapply IH; [exact E|]. by eapply process_frame_tagged.
Qed.

Lemma iec104_on_data_tagged a k data ts dir a' : tagged_iec a → iec_on_data a k data ts dir = Some a' → tagged_iec a'.
Proof.
  intros Ha. unfold iec_on_data. cbv zeta. destruct (check_carry_overflow _ _) as [s found] eqn:Ec. intros E. peel E. simplify_eq.
  apply iec_walk_tagged in E0.
  - unfold tagged_iec, extend_findings. cbv zeta. destruct (_ <? _); cbn; (apply Forall_app; split; [exact Ha|]); [by apply Forall_take|done].
  - unfold check_carry_overflow in Ec. repeat case_match; simplify_eq; tags.
Qed.

Lemma iec104_handler_tagged h : settled_with tagged_iec h →
  (∀ k data ts dir, settled_with tagged_iec (flow_on_data h k data ts dir)) ∧
  (∀ k, settled_with tagged_iec (flow_on_close h k)).
Proof.
  intros Hh. split; intros.
  - cbn. eapply settled_with_bind; [|exact Hh]. intros a b. apply iec104_on_data_tagged.
  - destruct h as [a|]; [|done]. cbn. unfold iec_on_flow_close. by case_match.
Qed.
End Iec104Tags.

(** ** DNP3 *)

Module Dnp3Tags.
Import Dnp3.

Definition tagged_dnp3 (a : Dnp3Analyzer) : Prop := all_tagged (all_findings a).

Lemma dnp3_emit_tagged a c v cf sm ev t d :
  bool_decide (t ∈ EMITTED_IDS) = true → tagged_dnp3 a → tagged_dnp3 (emit a (dnp3_finding c v cf sm ev t d)).
Proof.
  intros Ht Ha. unfold emit, tagged_dnp3. case_match; [|exact Ha]. cbn [all_findings update_field]. tags.
  unfold tagged. cbn. by rewrite Ht.
Qed.

Ltac step := repeat case_match; simplify_eq; cbn [fst snd]; try (apply dnp3_emit_tagged; [reflexivity|]); try done.

Lemma detectors_tagged (w : work) app_fc app_ctrl dest src d :
  tagged_dnp3 w.1 →
  tagged_dnp3 (detect_control_class_burst_split w app_fc dest src d).1 ∧
  tagged_dnp3 (detect_restart_split w app_fc dest src d).1 ∧
  tagged_dnp3 (detect_write_split w.1 dest src d) ∧
  tagged_dnp3 (detect_broadcast_anomaly w.1 app_fc dest src d) ∧
  tagged_dnp3 (detect_unexpected_source_split w app_fc dest src d).1 ∧
  tagged_dnp3 (detect_unsolicited_anomaly w app_fc app_ctrl dest src d).1 ∧
  tagged_dnp3 (detect_unsolicited_control w app_fc dest src d).1 ∧
  tagged_dnp3 (check_malformed_anomaly w d).1 ∧
  tagged_dnp3 (report_blocked w dest d).1.
Proof.
  destruct w as [a f]. cbn [fst]. intros Ha. split_and!.
  - unfold detect_control_class_burst_split. cbv zeta. step.
  - unfold detect_restart_split. step.
  - unfold detect_write_split. step.
  - unfold detect_broadcast_anomaly. step.
  - unfold detect_unexpected_source_split. step.
  - unfold detect_unsolicited_anomaly. step.
  - unfold detect_unsolicited_control. step.
  - unfold check_malformed_anomaly. cbv zeta. step.
  - unfold report_blocked. step.
Qed.

Lemma t0827_tagged (w w' : work) dest d : maybe_emit_t0827 w dest d = Some w' → tagged_dnp3 w.1 → tagged_dnp3 w'.1.
Proof. destruct w as [a f]. unfold maybe_emit_t0827. intros E Ha. peel E. simplify_eq. step. Qed.

Section walk.
Context `{!IterOrder (Z * Z) Z}.

Lemma scan_tagged (w w' : work) d : scan_block_timeouts w d = Some w' → tagged_dnp3 w.1 → tagged_dnp3 w'.1.
Proof.
  destruct w as [a f]. unfold scan_block_timeouts. cbv zeta. destruct (drop_timed_out _ _ _ _) as [[f1 first] m]. intros E Ha.
  assert (tagged_dnp3 (report_blocked (a, f1) m d).1) as Hr by by apply (detectors_tagged (a, f1) 0 0 m 0 d).
  destruct first; [by simplify_eq|]. by eapply t0827_tagged.
Qed.

Lemma dispatch_fc_tagged (w w' : work) b fc ctrl dest src d :
  dispatch_fc w b fc ctrl dest src d = Some w' → tagged_dnp3 w.1 → tagged_dnp3 w'.1.
Proof.
  destruct w as [a f]. unfold dispatch_fc. intros E Ha. peel E. peel E. cbv zeta in E.
  set (w1 := if _ || _ then _ else _) in E.
  assert (tagged_dnp3 w1.1) as H1. { unfold w1. destruct (_ || _); [|exact Ha]. by apply (detectors_tagged _ fc ctrl dest src d). }
  clearbody w1. destruct (classify_dnp3_fc fc); try (by simplify_eq).
  - injection E as <-. by apply (detectors_tagged w1 fc ctrl dest src d).
  - injection E as <-. unfold control_arm. cbv zeta. set (w2 := if is_broadcast_destination dest then _ else _).
    assert (tagged_dnp3 w2.1) as H2. { unfold w2. destruct (is_broadcast_destination dest); [|exact H1]. by apply (detectors_tagged w1 fc ctrl dest src d). }
    clearbody w2. set (w3 := if b then _ else _).
    assert (tagged_dnp3 w3.1) as H3. { unfold w3. destruct b; [|exact H2]. by apply (detectors_tagged w2 fc ctrl dest src d). }
    clearbody w3. apply (detectors_tagged _ fc ctrl dest src d). destruct w3 as [a3 f3]. unfold note_request. step.
  - eapply t0827_tagged; [exact E|]. by apply (detectors_tagged w1 fc ctrl dest src d).
  - injection E as <-. unfold response_arm. pose proof (detectors_tagged w1 fc ctrl dest src d H1) as Hd.
    destruct (detect_unsolicited_anomaly w1 fc ctrl dest src d) as [a2 f2]. cbn [fst] in Hd. case_match; apply Hd.
Qed.

Lemma process_valid_frame_tagged (w w' : work) h len carry d :
  process_valid_frame w h len carry d = Some w' → tagged_dnp3 w.1 → tagged_dnp3 w'.1.
Proof.
  destruct w as [a f]. unfold process_valid_frame. cbv zeta. intros E Ha. set (w1 := note_master _ _) in E.
  assert (tagged_dnp3 w1.1) as H1 by (unfold w1, note_master; step). clearbody w1.
  destruct (_ && _); [|by simplify_eq]. peel E. destruct (transport_is_fir x); [|by simplify_eq]. peel E. peel E.
  by eapply dispatch_fc_tagged.
Qed.

Definition round_work (r : round) : work := match r with Again w | Stop w => w end.

Lemma round_tagged b (w : work) d r : dnp3_round b w d = Some r → tagged_dnp3 w.1 → tagged_dnp3 (round_work r).1.
Proof.
  intros E Ha. assert (∀ a f w, check_malformed_anomaly (a, f) d = w → tagged_dnp3 a → tagged_dnp3 w.1) as Hm.
  { intros a f ? <- H. by apply (detectors_tagged (a, f) 0 0 0 0 d). }
  destruct w as [a f]. unfold dnp3_round, length_reject, header_reject in E. cbv zeta in E. destruct (_ <? 10).
  { peel E. simplify_eq. cbn [round_work]. unfold short_carry in E0. cbv zeta in E0.
    destruct (2 <=? _); [|by simplify_eq]. destruct (negb _); [simplify_eq; first [exact (Hm _ _ _ E0 Ha) | exact (Hm _ _ _ eq_refl Ha)]|].
    destruct (_ && _); [|by simplify_eq]. peel E0. destruct (compute_dnp3_frame_len _); simplify_eq; [done|first [exact (Hm _ _ _ E0 Ha) | exact (Hm _ _ _ eq_refl Ha)]]. }
  destruct (negb _).
  { pose proof (Hm a (count_malformed f) _ eq_refl Ha) as H1. destruct (check_malformed_anomaly _ _) as [a1 f1]. by simplify_eq. }
  peel E. destruct (compute_dnp3_frame_len x) as [len|]; [|simplify_eq; first [exact (Hm _ _ _ E0 Ha) | exact (Hm _ _ _ eq_refl Ha)]].
  destruct (_ <? len); [by simplify_eq|]. peel E. peel E.
  destruct (parse_dnp3_dl_header _) as [h|]; [|simplify_eq; first [exact (Hm _ _ _ E0 Ha) | exact (Hm _ _ _ eq_refl Ha)]].
  destruct (is_valid_dnp3_frame_header h); [|simplify_eq; first [exact (Hm _ _ _ E0 Ha) | exact (Hm _ _ _ eq_refl Ha)]].
  peel E. simplify_eq. by eapply process_valid_frame_tagged in E3.
Qed.

Lemma frame_walk_tagged fuel b (w w' : work) d : frame_walk fuel b w d = Some w' → tagged_dnp3 w.1 → tagged_dnp3 w'.1.
Proof.
  revert b w. induction fuel as [|fuel IH]; intros b w E Ha; cbn [frame_walk] in E; [done|]. peel E.
  pose proof (round_tagged _ _ _ _ E0 Ha) as Hr. destruct x; [by eapply IH|by simplify_eq].
Qed.

Lemma dnp3_on_data_tagged a k data ts dir a' : tagged_dnp3 a → dnp3_on_data a k data ts dir = Some a' → tagged_dnp3 a'.
Proof.
  intros Ha. unfold dnp3_on_data. cbv zeta. destruct (is_non_dnp3 _); [by intros [= <-]|]. destruct (desync _ _); [by intros [= <-]|].
  intros E. peel E. simplify_eq. unfold analyze in E0. cbv zeta in E0. peel E0. apply scan_tagged in E; [|done].
  peel E0. apply frame_walk_tagged in E0; [exact E0|]. unfold accumulate in E1. cbv zeta in E1. peel E1.
  destruct (_ <? _); [|by simplify_eq]. peel E1. apply (inj Some) in E1. change x1 with (x1, d1).1. rewrite <- E1. by apply (detectors_tagged (_, _) 0 0 0 0 _).
Qed.

Lemma dnp3_handler_tagged h : settled_with tagged_dnp3 h →
  (∀ k data ts dir, settled_with tagged_dnp3 (flow_on_data h k data ts dir)) ∧
  (∀ k, settled_with tagged_dnp3 (flow_on_close h k)).
Proof.
  intros Hh. split; intros.
  - cbn. eapply settled_with_bind; [|exact Hh]. intros a b. apply dnp3_on_data_tagged.
  - destruct h as [a|]; [|done]. cbn. unfold dnp3_on_flow_close. by case_match.
Qed.
End walk.
End Dnp3Tags.

(** ** EtherNet/IP *)

Module EnipTags.
Import Enip.

Definition tagged_enip (a : EnipAnalyzer) : Prop := all_tagged (all_findings a).

Lemma enip_emit_tagged a x : tagged x → tagged_enip a → tagged_enip (enip_emit a x).1.
Proof. intros Hx Ha. unfold enip_emit, tagged_enip. case_match; cbn; [|exact Ha]. tags. Qed.

Lemma enip_report_tagged (w : enip_work) x : tagged x → tagged_enip w.1 → tagged_enip (enip_report w x).1.
Proof. apply enip_emit_tagged. Qed.

(** One emission, whether or not it sets its guard. *)
Ltac emission :=
  cbv zeta;
  match goal with
  | |- context [enip_emit ?a ?x] =>
      let Hemit := fresh in
      assert (tagged_enip (enip_emit a x).1) as Hemit by (apply enip_emit_tagged; [reflexivity|done]); destruct (enip_emit a x)
  end; repeat case_match; done.

Lemma check_t0814_tagged (w : enip_work) o : tagged_enip w.1 → tagged_enip (check_t0814 w o).1.
Proof. destruct w as [a f]. intros Ha. unfold check_t0814. emission. Qed.

Lemma reject_tagged (w : enip_work) o : tagged_enip w.1 → tagged_enip (enip_reject w o).1.
Proof. destruct w as [a f]. intros Ha. by apply check_t0814_tagged. Qed.

Lemma services_tagged (w : enip_work) h class cip o :
  tagged_enip w.1 →
  tagged_enip (identity_read w class cip o).1 ∧ tagged_enip (stop_service w h class cip o).1 ∧
  tagged_enip (reset_service w h class cip o).1 ∧ tagged_enip (write_service w h class cip o).1 ∧
  tagged_enip (connection_service w h class cip o).1.
Proof.
  destruct w as [a f]. intros Ha. split_and!.
  - unfold identity_read. case_match; [by apply enip_report_tagged|done].
  - unfold stop_service. case_match; [by apply enip_report_tagged|done].
  - unfold reset_service. case_match; [by apply enip_report_tagged|done].
  - unfold write_service. emission.
  - unfold connection_service. repeat case_match; first [by apply enip_report_tagged|done].
Qed.

Lemma list_identity_tagged (w : enip_work) h o : tagged_enip w.1 → tagged_enip (list_identity w h o).1.
Proof. destruct w as [a f]. intros Ha. unfold list_identity. emission. Qed.

Section walk.
Context `{!IterOrder Z Z}.

Lemma error_response_tagged (w w' : enip_work) st o : error_response w st o = Some w' → tagged_enip w.1 → tagged_enip w'.1.
Proof.
  destruct w as [a f]. unfold error_response. cbv zeta. intros E Ha. peel E. peel E. injection E as <-. emission.
Qed.

Lemma process_item_tagged (w w' : enip_work) h item o : process_item w h item o = Some w' → tagged_enip w.1 → tagged_enip w'.1.
Proof.
  unfold process_item. intros E Ha. destruct (negb _); [by simplify_eq|]. destruct (parse_cip_header _) as [cip|]; [|by simplify_eq].
  cbv zeta in E. case_bool_decide.
  - destruct (_ <? _); [by simplify_eq|]. peel E. destruct (negb _); [by eapply error_response_tagged|by simplify_eq].
  - injection E as <-. apply (services_tagged _ h _ cip o), (services_tagged _ h _ cip o), (services_tagged _ h _ cip o),
      (services_tagged _ h _ cip o), (services_tagged _ h _ cip o), Ha.
Qed.

Lemma enip_process_pdu_tagged (w w' : enip_work) pdu o : enip_process_pdu w pdu o = Some w' → tagged_enip w.1 → tagged_enip w'.1.
Proof.
  assert (∀ items (w w' : enip_work) h, process_items w h items o = Some w' → tagged_enip w.1 → tagged_enip w'.1) as Hi.
  { induction items as [|x l IH]; intros v v' h E Ha; cbn [process_items] in E; [by simplify_eq|]. peel E.
    eapply IH; [exact E|]. by eapply process_item_tagged in E0. }
  destruct w as [a f]. unfold enip_process_pdu. cbv zeta. intros E Ha. destruct (is_non_enip f); [by simplify_eq|].
  destruct (parse_enip_header _) as [h|]; [|by simplify_eq].
  destruct (classify_enip_command _); try (by simplify_eq);
    try (destruct (_ <=? _); [by simplify_eq|]; peel E; by eapply Hi).
  apply (inj Some) in E. rewrite <- E. by apply list_identity_tagged.
Qed.

Lemma enip_dispatch_tagged pdus (w w' : enip_work) o : dispatch_pdus w pdus o = Some w' → tagged_enip w.1 → tagged_enip w'.1.
Proof.
  revert w. induction pdus as [|x l IH]; intros w E Ha; cbn [dispatch_pdus] in E; [by simplify_eq|]. peel E.
  eapply IH; [exact E|]. by eapply enip_process_pdu_tagged in E0.
Qed.

Lemma enip_walk_tagged fuel (w w' : enip_work) queue rest o q r :
  enip_walk fuel w queue rest o = Some (w', q, r) → tagged_enip w.1 → tagged_enip w'.1.
Proof.
  revert w queue rest. induction fuel as [|fuel IH]; intros w queue rest E Ha; cbn [enip_walk] in E; [done|].
  destruct (_ <? 24); [by simplify_eq|]. peel E. destruct (parse_enip_header _) as [h|]; [|by eapply IH].
  destruct w as [a f]. destruct (negb _).
  { peel E. eapply IH; [exact E|]. by apply reject_tagged. }
  cbv zeta in E. destruct (_ <? _).
  { peel E. eapply IH; [exact E|]. by apply reject_tagged. }
  destruct (_ <? _); [by simplify_eq|]. peel E. peel E. by eapply IH.
Qed.

Lemma enip_on_data_tagged a k data ts dir a' : tagged_enip a → enip_on_data a k data ts dir = Some a' → tagged_enip a'.
Proof.
  intros Ha. unfold enip_on_data. cbv zeta. case_match; [by intros [= <-]|]. intros E. peel E. simplify_eq.
  unfold enip_deliver in E0. cbv zeta in E0. peel E0. apply enip_dispatch_tagged in E0; [exact E0|].
  apply enip_walk_tagged in E; [|exact Ha]. unfold enip_carry_cap. case_match; [|exact E].
  match goal with |- context [enip_reject ?w ?o] => pose proof (reject_tagged w o E) as Hr; destruct (enip_reject w o) end. exact Hr.
Qed.

Lemma enip_handler_tagged h : settled_with tagged_enip h →
  (∀ k data ts dir, settled_with tagged_enip (flow_on_data h k data ts dir)) ∧
  (∀ k, settled_with tagged_enip (flow_on_close h k)).
Proof.
  intros Hh. split; intros.
  - cbn. eapply settled_with_bind; [|exact Hh]. intros a b. apply enip_on_data_tagged.
  - destruct h as [a|]; [|done]. cbn. unfold enip_on_flow_close. by case_match.
Qed.
End walk.
End EnipTags.

(** ** HTTP *)

Module HttpTags.
Import Http.

Definition tagged_http (a : HttpAnalyzer) : Prop := all_tagged (all_findings a).

(** The counters leave the findings alone. *)
Lemma counts_findings a a' k o :
  (count_method a k = Some a' ∨ count_host a o = Some a' ∨ count_user_agent a o = Some a') → all_findings a' = all_findings a.
Proof.
  intros [E|[E|E]]; [unfold count_method in E|unfold count_host in E; destruct o|unfold count_user_agent in E; destruct o];
    try (by simplify_eq); peel E; simplify_eq; by case_match.
Qed.

Section http.
Context `{HttpLib}.

Lemma request_findings_tagged p ts : all_tagged (request_findings p ts).
Proof. unfold request_findings, user_agent_findings. cbv zeta. tags. Qed.

Lemma request_success_tagged (w w' : http_work) p : request_success w p = Some w' → tagged_http w.1 → tagged_http w'.1.
Proof.
  destruct w as [a s]. unfold request_success. cbv zeta. intros E Ha. peel E. peel E. peel E. peel E. simplify_eq. unfold tagged_http. cbn.
  apply Forall_app. split; [|apply request_findings_tagged]. unfold record_uri.
  assert (all_tagged (all_findings x1)) as Hx; [|by case_match].
  rewrite (counts_findings x0 x1 ""%string (user_agent p)), (counts_findings x x0 ""%string (host p)),
    (counts_findings a x (method p) None) by tauto. exact Ha.
Qed.

Lemma failures_tagged (w : http_work) e b : tagged_http w.1 → tagged_http (request_failure w e b).1 ∧ tagged_http (response_failure w e b).1.
Proof.
  destruct w as [a s]. intros Ha. unfold tagged_http in *. cbn in Ha.
  split; [unfold request_failure|unfold response_failure]; unfold count_non_http; repeat case_match; simplify_eq; cbn; tags.
Qed.

Lemma requests_tagged fuel (w w' : http_work) b : try_parse_requests fuel w b = Some w' → tagged_http w.1 → tagged_http w'.1.
Proof.
  revert w b. induction fuel as [|fuel IH]; intros w b E Ha; cbn [try_parse_requests] in E; [done|].
  destruct (_ =? 0); [by simplify_eq|]. destruct (parse_one_request _) as [e|[p|]]; [|peel E|by simplify_eq].
  - injection E as <-. by apply failures_tagged.
  - eapply IH; [exact E|]. by eapply request_success_tagged in E0.
Qed.

Lemma responses_tagged fuel (w w' : http_work) b : try_parse_responses fuel w b = Some w' → tagged_http w.1 → tagged_http w'.1.
Proof.
  revert w b. induction fuel as [|fuel IH]; intros w b E Ha; cbn [try_parse_responses] in E; [done|].
  destruct (_ =? 0); [by simplify_eq|]. destruct (parse_one_response _) as [e|[p|]]; [|peel E|by simplify_eq].
  - injection E as <-. by apply failures_tagged.
  - eapply IH; [exact E|]. destruct w as [a s]. unfold response_success in E0. cbv zeta in E0. peel E0. peel E0. by simplify_eq.
Qed.

Lemma http_on_data_tagged a k dir data ts a' : tagged_http a → http_on_data a k dir data ts = Some a' → tagged_http a'.
Proof.
  intros Ha. unfold http_on_data. intros E. peel E. simplify_eq. unfold tagged_http. cbn. change (tagged_http x).
  unfold http_deliver in E0. cbv zeta in E0. destruct dir.
  - destruct (request_poisoned _); [unfold skip_poisoned in E0; peel E0; peel E; by simplify_eq|]. peel E0. by apply requests_tagged in E0.
  - destruct (response_poisoned _); [unfold skip_poisoned in E0; peel E0; peel E; by simplify_eq|]. peel E0. by apply responses_tagged in E0.
Qed.

Lemma http_handler_tagged h : settled_with tagged_http h →
  (∀ k dir data off ts, settled_with tagged_http (on_data h k dir data off ts)) ∧
  (∀ k reason, settled_with tagged_http (on_flow_close h k reason)).
Proof.
  intros Hh. split; intros.
  - cbn. eapply settled_with_bind; [|exact Hh]. intros a b. apply http_on_data_tagged.
  - by destruct h.
Qed.
End http.
End HttpTags.

(** ** TLS *)

Module TlsTags.
Import Tls.

Definition tagged_tls (a : TlsAnalyzer) : Prop := all_tagged (all_findings a).

Lemma push_tagged a l : tagged_tls a → all_tagged l → tagged_tls (tls_push a l).
Proof. intros Ha Hl. unfold tagged_tls, tls_push. cbn. tags. Qed.

(** The counters leave the findings alone. *)
Lemma counts_tagged a a' v s :
  (count_version a v = Some a' ∨ count_sni a s = Some a' ∨ count_ja3 a s = Some a' ∨ count_ja3s a s = Some a' ∨ count_cipher a s = Some a') →
  tagged_tls a → tagged_tls a'.
Proof.
  intros E Ha. destruct_or! E; unfold count_version, count_sni, count_ja3, count_ja3s, count_cipher in E; peel E; by simplify_eq.
Qed.

Section tls.
Context `{TlsLib}.

Lemma hello_findings_tagged v c t dir prefix ciphers :
  all_tagged (sni_findings v t) ∧ all_tagged (weak_findings ciphers t) ∧ all_tagged (version_findings prefix c t dir) ∧
  all_tagged (server_cipher_findings c t).
Proof.
  split_and!; [unfold sni_findings; cbv zeta; tags|unfold weak_findings; tags|unfold version_findings; cbv zeta; tags|].
  unfold server_cipher_findings. tags.
Qed.

Lemma extensions_tagged a ext a' l : hello_extensions a ext = (a', l) → tagged_tls a → tagged_tls a'.
Proof. unfold hello_extensions. intros E Ha. repeat case_match; by simplify_eq. Qed.

Lemma client_hello_tagged a ch t a' : handle_client_hello a ch t = Some a' → tagged_tls a → tagged_tls a'.
Proof.
  unfold handle_client_hello. cbv zeta. intros E Ha. peel E. destruct (hello_extensions _ _) as [a1 exts] eqn:Ee.
  assert (tagged_tls a1) as H1.
  { eapply extensions_tagged; [exact Ee|]. eapply (counts_tagged _ x _ ""%string); [left; exact E0|exact Ha]. }
  peel E. peel E. peel E. simplify_eq. apply push_tagged; [|apply (hello_findings_tagged (SniAscii "")); exact []].
  apply push_tagged; [|apply (hello_findings_tagged (SniAscii "") 0 t ClientToServer ""%string)].
  eapply (counts_tagged _ _ 0); [right; right; left; exact E3|].
  destruct x0 as [v|]; [|by simplify_eq]. peel E2. simplify_eq.
  apply push_tagged; [|apply (hello_findings_tagged v 0 t ClientToServer ""%string [])].
  eapply (counts_tagged _ _ 0); [right; left; exact E|exact H1].
Qed.

Lemma server_hello_tagged a sh t a' : handle_server_hello a sh t = Some a' → tagged_tls a → tagged_tls a'.
Proof.
  unfold handle_server_hello. cbv zeta. intros E Ha. peel E. destruct (hello_extensions _ _) as [a1 exts] eqn:Ee.
  assert (tagged_tls a1) as H1.
  { eapply extensions_tagged; [exact Ee|]. eapply (counts_tagged _ x _ ""%string); [left; exact E0|exact Ha]. }
  peel E. peel E. simplify_eq. apply push_tagged; [|apply (hello_findings_tagged (SniAscii "")); exact []].
  apply push_tagged; [|apply (hello_findings_tagged (SniAscii "") _ t ClientToServer ""%string [])].
  eapply (counts_tagged _ _ 0); [do 4 right; exact E2|]. eapply (counts_tagged _ _ 0); [do 3 right; left; exact E1|exact H1].
Qed.

Lemma tls_dispatch_tagged (w w' : (TlsAnalyzer * TlsFlowState)) dir msg t : dispatch_hello w dir msg t = Some w' → tagged_tls w.1 → tagged_tls w'.1.
Proof.
  unfold dispatch_hello. intros E Ha. destruct (parse_tls_message_handshake msg) as [[]|], dir; try (by simplify_eq); peel E; simplify_eq.
  - by eapply client_hello_tagged in E0.
  - by eapply server_hello_tagged in E0.
Qed.

Lemma drain_tagged fuel (w w' : (TlsAnalyzer * TlsFlowState)) dir carry c t l n :
  drain_loop fuel w dir carry c t = Some (w', l, n) → tagged_tls w.1 → tagged_tls w'.1.
Proof.
  revert w c. induction fuel as [|fuel IH]; intros w c E Ha; cbn [drain_loop] in E; [done|]. peel E.
  destruct (_ <? 4); [by simplify_eq|]. do 4 peel E. cbv zeta in E. destruct (_ <? _); [by simplify_eq|]. destruct (_ <? _); [by simplify_eq|].
  peel E. eapply IH; [exact E|]. destruct (_ =? _) in *; [peel E5; by eapply tls_dispatch_tagged in E5|by simplify_eq].
Qed.

Lemma records_tagged fuel (w w' : (TlsAnalyzer * TlsFlowState)) dir : try_parse_records fuel w dir = Some w' → tagged_tls w.1 → tagged_tls w'.1.
Proof.
  revert w. induction fuel as [|fuel IH]; intros w E Ha; cbn [try_parse_records] in E; [done|]. peel E.
  destruct r; try (by simplify_eq); try (by eapply IH; [exact E|]).
  peel E. eapply IH; [exact E|]. unfold process_handshake_carry in E1. peel E1. peel E1. simplify_eq. by eapply drain_tagged in E2.
Qed.

Lemma tls_on_data_tagged a k dir data ts a' : tagged_tls a → tls_on_data a k dir data ts = Some a' → tagged_tls a'.
Proof.
  intros Ha. unfold tls_on_data. cbv zeta. case_match; [by intros [= <-]|]. intros E. peel E. peel E. simplify_eq.
  apply records_tagged in E1; [exact E1|]. by case_match.
Qed.

Lemma tls_handler_tagged h : settled_with tagged_tls h →
  (∀ k dir data off ts, settled_with tagged_tls (on_data h k dir data off ts)) ∧
  (∀ k reason, settled_with tagged_tls (on_flow_close h k reason)).
Proof.
  intros Hh. split; intros.
  - cbn. eapply settled_with_bind; [|exact Hh]. intros a b. apply tls_on_data_tagged.
  - by destruct h.
Qed.
End tls.
End TlsTags.

(** ** ARP *)

Module ArpTags.
Import Arp.

Section arp.
Context `{!IterOrder Ip4 BindingEntry, !IterOrder Mac StormCounter}.

Lemma d1_tagged e ip m m' ts th e' f : emit_d1_spoof_finding_impl e ip m m' ts th = Some (e', f) → tagged f.
Proof. unfold emit_d1_spoof_finding_impl. cbv zeta. intros E. peel E. by simplify_eq. Qed.

Lemma process_arp_tagged a frame ts a' l : process_arp a frame ts = Some (a', l) → all_tagged l.
Proof.
  unfold process_arp. cbv zeta. destruct (filtered frame); [by intros [= <- <-]|].
  destruct (check_mismatch _ _) as [a1 l1] eqn:E1. destruct (check_storm _ _ _) as [a2 l2] eqn:E2. intros E. peel E. simplify_eq.
  apply Forall_app. split; [|apply Forall_app; split].
  - unfold check_mismatch in E1. repeat case_match; simplify_eq; tags.
  - unfold check_storm, detect_storm in E2. cbv zeta in E2. repeat case_match; simplify_eq; tags.
  - destruct (is_gratuitous_arp frame); [destruct (has_conflict a2 frame)|].
    + unfold garp_conflict, apply_garp_conflict_escalation_impl in E0. cbv zeta in E0. peel E0. peel E0. peel E0. simplify_eq.
      match goal with H : _ ≫= _ = Some _ |- _ => peel H end. simplify_eq. tags. by eapply d1_tagged.
    + unfold garp_benign in E0. simplify_eq. tags.
    + unfold observe in E0. destruct (bindings a2 !! _); [|by simplify_eq]. cbv zeta in E0. case_decide; [|by simplify_eq].
      peel E0. peel E0. simplify_eq. tags. by eapply d1_tagged.
Qed.
End arp.

Lemma malformed_tagged a n : all_tagged (record_malformed a n).2.
Proof. apply Forall_singleton. reflexivity. Qed.
End ArpTags.

(** ** A run *)

Import Summary Dns.

(** A service that some packet is counted under. *)
Definition known_service (svc : string) : Prop := ∃ p, app_protocol_hint p = Some svc.

Lemma ingest_services s p s' :
  ingest s p = Some s' → map_Forall (λ svc _, known_service svc) (services s) → map_Forall (λ svc _, known_service svc) (services s').
Proof.
  unfold ingest. cbv zeta. intros E Hs. peel E. peel E. destruct (app_protocol_hint p) as [svc|] eqn:Eh; [|by simplify_eq].
  peel E. simplify_eq. cbn [services update_field]. unfold count_entry in E2. peel E2. simplify_eq.
  apply map_Forall_insert_2; [by exists p|exact Hs].
Qed.

Section run.
Context `{EP : Etherparse, HO : !HashOrder, SO : !ScanOrders}.
Context `{!IterOrder Ip4 BindingEntry, !IterOrder Mac StormCounter, !IterOrder FlowKey Dnp3FlowState}.
Context `{HL : HttpLib, TL : TlsLib}.

Abbreviation Dispatcher_t := (StreamDispatcher (option HttpAnalyzer) (option TlsAnalyzer) (option ModbusAnalyzer)
  (option Dnp3Analyzer) (option EnipAnalyzer) (option Iec104Analyzer)).

(** An analyzer slot of the dispatcher. *)
Abbreviation slot P := (λ o, match o with Some a => settled_with P a | None => True end).

Record tagged_dispatcher (d : Dispatcher_t) : Prop := {
  td_http : slot HttpTags.tagged_http (http d);
  td_tls : slot TlsTags.tagged_tls (tls d);
  td_modbus : slot ModbusTags.tagged_modbus (modbus d);
  td_dnp3 : slot Dnp3Tags.tagged_dnp3 (dnp3 d);
  td_enip : slot EnipTags.tagged_enip (enip d);
  td_iec104 : slot Iec104Tags.tagged_iec (iec104 d)
}.

Lemma dispatcher_data_tagged d k dir data off ts : tagged_dispatcher d → tagged_dispatcher (on_data d k dir data off ts).
Proof using Type.
  intros Hd. change (on_data d k dir data off ts) with (dispatcher_on_data d k dir data off ts).
  unfold dispatcher_on_data. destruct (negb _); [done|]. destruct (route d k data) as [d1 t] eqn:Er.
  assert (tagged_dispatcher d1) as [Hh Ht Hm Hn He Hi].
  { unfold route in Er. cbv zeta in Er. destruct (routes d !! k); [by simplify_eq|].
    destruct (decide _); [destruct (_ <=? _)|]; simplify_eq; by destruct Hd. }
  destruct t; cbn [forward_data]; try done; split; cbn [http tls modbus dnp3 enip iec104 update_field]; try done.
  - destruct (http d1); [|done]. exact (proj1 (HttpTags.http_handler_tagged _ Hh) k dir data off ts).
  - destruct (tls d1); [|done]. exact (proj1 (TlsTags.tls_handler_tagged _ Ht) k dir data off ts).
  - destruct (modbus d1); [|done]. exact (proj1 (ModbusTags.modbus_handler_tagged _ Hm) k dir data off ts).
  - destruct (dnp3 d1); [|done]. exact (proj1 (Dnp3Tags.dnp3_handler_tagged _ Hn) k data ts dir).
  - destruct (enip d1); [|done]. exact (proj1 (EnipTags.enip_handler_tagged _ He) k data ts dir).
  - destruct (iec104 d1); [|done]. exact (proj1 (Iec104Tags.iec104_handler_tagged _ Hi) k data ts dir).
Qed.

Lemma dispatcher_close_tagged d k reason : tagged_dispatcher d → tagged_dispatcher (on_flow_close d k reason).
Proof using Type.
  intros [Hh Ht Hm Hn He Hi]. change (on_flow_close d k reason) with (dispatcher_on_flow_close d k reason).
  unfold dispatcher_on_flow_close, count_unclassified. cbv zeta.
  match goal with |- context [?m !! k] => destruct (m !! k) as [[]|] end;
    try (destruct (any_analyzer _); [destruct (coverage_gaps_enabled _)|]; by split);
    split; cbn [http tls modbus dnp3 enip iec104 update_field]; try done.
  - destruct (http d); [|done]. exact (proj2 (HttpTags.http_handler_tagged _ Hh) k reason).
  - destruct (tls d); [|done]. exact (proj2 (TlsTags.tls_handler_tagged _ Ht) k reason).
  - destruct (modbus d); [|done]. exact (proj2 (ModbusTags.modbus_handler_tagged _ Hm) k reason).
  - destruct (dnp3 d); [|done]. exact (proj2 (Dnp3Tags.dnp3_handler_tagged _ Hn) k).
  - destruct (enip d); [|done]. exact (proj2 (EnipTags.enip_handler_tagged _ He) k).
  - destruct (iec104 d); [|done]. exact (proj2 (Iec104Tags.iec104_handler_tagged _ Hi) k).
Qed.

(** What a run has so far. *)
Record tagged_run (s : Run) : Prop := {
  tr_loop : all_tagged (loop_findings s);
  tr_engine : ∀ r, reassembler s = Some r → all_tagged (findings r);
  tr_dispatcher : tagged_dispatcher (dispatcher s);
  tr_services : map_Forall (λ svc _, known_service svc) (services (totals s))
}.

Lemma analyze_packet_tagged o dl s raw s' : analyze_packet o dl s raw = Some s' → tagged_run s → tagged_run s'.
Proof using Type.
  unfold analyze_packet. intros E Hs. peel E. destruct x as [e|[p|f]].
  - injection E as <-. pose proof Hs as [Hl He Hd Hv].
    destruct (is_malformed_arp e); [unfold on_malformed_arp|unfold on_decode_error; case_match; by split].
    case_match; [|by split]. split; cbn; [|done..]. apply Forall_app. split; [done|exact (ArpTags.malformed_tagged (arp_analyzer s) _)].
  - unfold on_ip in E. peel E.
    assert (tagged_run (s <| totals := x |>)) as H1.
    { destruct Hs. split; try done. cbn. by eapply ingest_services. }
    peel E. assert (tagged_run x0) as H2.
    { unfold feed_dns in E2. case_match; [|by simplify_eq]. peel E2. simplify_eq.
      assert (l = []) as -> by (unfold dns_analyze in E3; peel E3; case_match; by simplify_eq).
      destruct H1. split; try done. cbn. by rewrite app_nil_r. }
    peel E. injection E as <-. assert (tagged_run x1) as H3.
    { unfold feed_engine in E3. destruct (reassembler x0) as [r|] eqn:Er; [|by simplify_eq]. peel E3. simplify_eq.
      destruct H2 as [Hl He Hd Hv]. apply (process_packet_kept tagged_dispatcher) in E as [Hk Hd'].
      - split; try done. intros ? [= <-]. exact Hk.
      - intros *. apply dispatcher_data_tagged.
      - intros *. apply dispatcher_close_tagged.
      - split; [by apply He|done]. }
    unfold count_udp_gap. repeat case_match; try exact H3. by destruct H3.
  - unfold on_arp in E. case_match; [|by simplify_eq]. peel E. simplify_eq. destruct Hs. split; try done. cbn.
    apply Forall_app. split; [done|]. by eapply ArpTags.process_arp_tagged.
Qed.

Lemma report_kept (s : Run) ds b : tagged_run s → tagged_run (s <| stderr := ds |> <| any_error := b |>) ∧ tagged_run (s <| stderr := ds |>).
Proof using Type. intros []. by split; split. Qed.

Lemma analyze_file_tagged fsys o s path s' : analyze_file fsys o s path = Some s' → tagged_run s → tagged_run s'.
Proof using Type.
  assert (∀ dl raws s s', analyze_packets o dl s raws = Some s' → tagged_run s → tagged_run s') as Hp.
  { intros dl. induction raws as [|raw raws IH]; intros t t' E Ht; cbn [analyze_packets] in E; [by simplify_eq|]. peel E.
    eapply IH; [exact E|]. by eapply analyze_packet_tagged. }
  unfold analyze_file. intros E Hs. peel E. destruct x as [e|source]; [injection E as <-; by apply report_kept|].
  destruct (packets source); [injection E as <-; by apply (report_kept s _ false)|by eapply Hp].
Qed.

Lemma analyze_targets_tagged fsys o ts s s' : analyze_targets fsys o s ts = Some (inr s') → tagged_run s → tagged_run s'.
Proof using Type.
  assert (∀ paths s s', analyze_files fsys o s paths = Some s' → tagged_run s → tagged_run s') as Hf.
  { induction paths as [|p ps IH]; intros t t' E Ht; cbn [analyze_files] in E; [by simplify_eq|]. peel E.
    eapply IH; [exact E|]. by eapply analyze_file_tagged. }
  revert s. induction ts as [|t ts IH]; intros s E Hs; cbn [analyze_targets] in E; [by simplify_eq|].
  destruct (resolve_targets fsys t); [done|]. peel E. eapply IH; [exact E|]. by eapply Hf.
Qed.

Lemma initial_run_tagged o cli s : initial_run o cli = Some s → tagged_run s.
Proof using Type.
  unfold initial_run. intros E. peel E. injection E as <-. split; cbn [loop_findings reassembler dispatcher totals].
  - by apply Forall_nil.
  - intros r ->. unfold build_reassembler in E0. destruct (_ && _); [|done]. peel E0. peel E0. simplify_eq.
    unfold TcpReassembler_new in E1. repeat case_match; simplify_eq. by apply Forall_nil.
  - unfold build_dispatcher, if_fed. cbv zeta. split; cbn [http tls modbus dnp3 enip iec104 update_field with_coverage_gaps StreamDispatcher_new];
      (destruct (_ && _); [|done]); by apply Forall_nil.
  - apply map_Forall_empty.
Qed.

Lemma finish_engine_tagged s s' : finish_engine s = Some s' → tagged_run s → tagged_run s'.
Proof using Type.
  unfold finish_engine. intros E Hs. destruct (reassembler s) as [r|] eqn:Er; [|by simplify_eq]. peel E. simplify_eq.
  destruct Hs as [Hl He Hd Hv]. apply (finalize_kept tagged_dispatcher) in E0 as [Hk Hd'].
  - split; try done. intros ? [= <-]. exact Hk.
  - intros *. apply dispatcher_data_tagged.
  - intros *. apply dispatcher_close_tagged.
  - split; [by apply He|done].
Qed.

Lemma slot_tagged {A} (P : A → Prop) (g : A → list Finding) o a :
  settled o = Some a → slot P o → (∀ x, P x → all_tagged (g x)) → all_tagged (concat (settled_list g a)).
Proof using Type.
  intros E Hs Hg. destruct o as [[x|]|]; simplify_eq/=; [|by apply Forall_nil]. rewrite app_nil_r. by apply Hg.
Qed.

Lemma analyzer_findings_tagged d a : take_analyzers d = Some a → tagged_dispatcher d → all_tagged (analyzer_findings a).
Proof using Type.
  unfold take_analyzers. intros E [Hh Ht Hm Hn He Hi]. do 6 peel E. injection E as <-. unfold analyzer_findings.
  cbn [an_http an_tls an_modbus an_dnp3 an_enip an_iec104].
  rewrite !Forall_app. split_and!; eapply slot_tagged; try eassumption; done.
Qed.

(** The findings and the services of a report. *)
Lemma report_tagged fsys o cli rep :
  run_analyze fsys o cli = Some (inr rep) →
  all_tagged (rep_findings rep) ∧ map_Forall (λ svc _, known_service svc) (services (rep_totals rep)).
Proof using Type.
  unfold run_analyze. destruct (check_thresholds o); [done|]. intros E. peel E. apply initial_run_tagged in E0. peel E.
  destruct x0 as [e|s]; [done|]. apply analyze_targets_tagged in E1; [|done]. peel E. destruct (write_output fsys cli); [done|]. injection E as <-.
  unfold conclude in E2. cbv zeta in E2. peel E2. apply finish_engine_tagged in E; [|done]. peel E2.
  apply analyzer_findings_tagged in E3; [|apply E]. peel E2. peel E2. injection E2 as <-. cbn [rep_findings rep_totals services update_field].
  split; [|apply E1]. rewrite !Forall_app. split_and!; [apply E| |done].
  destruct (reassembler _) eqn:Er; [|by apply Forall_nil]. by apply E.
Qed.
End run.
