(* ===== verification/OutputProps.v ===== *)
(** * Theorems about the output of a run

    What [Emitted] shows of findings, the literals of the summaries and the
    theorems about the reporters put together: every technique of a report is in
    the table, a report on the terminal holds no control character of a packet,
    whatever files the run was given, and a run always ends, with a report that
    renders or with the error the code meets first. *)

From S2P Require Import Prelude FlowKey Handler Findings Reader ReaderProps Decoder Triage Catalog Coverage.
From S2P Require Import Flow Segment Reassembly Modbus Dnp3 Enip Iec104 Arp Http Tls Dispatcher Pipeline.
From S2P Require Import Display Analyze Render ReassemblyProps DecoderProps HttpProps TlsProps AnalyzeProps RenderProps Emitted.
Import Summary Dns Catalog.Mitre Catalog.MitreFacts.

#[local] Open Scope Z_scope.

(** ** Labels that are literals *)

Definition plain_summary (a : AnalysisSummary) : Prop :=
  printable (chars (analyzer_name a)) ∧ map_Forall (λ k _, printable (chars k)) (detail a).

Lemma plain_keys (l : list (string * Findings.json)) :
  forallb (λ kv, printableb (chars kv.1)) l = true → map_Forall (λ k _, printable (chars k)) (list_to_map (M := gmap string Findings.json) l).
Proof.
  intros Hl k v E%elem_of_list_to_map_2. rewrite forallb_forall in Hl. apply list_elem_of_In, Hl in E. by apply printable_lit.
Qed.

Ltac plain := split; [apply printable_lit; vm_compute; reflexivity|apply plain_keys; vm_compute; reflexivity].

Lemma known_service_printable svc : known_service svc → printable (chars svc).
Proof. intros [p Hp]. unfold app_protocol_hint in Hp. repeat case_match; simplify_eq; apply printable_lit; vm_compute; reflexivity. Qed.

Section summaries.
Context `{!IterOrder FlowKey Dnp3FlowState}.

Lemma stream_summaries_plain (h : HttpAnalyzer) (t : TlsAnalyzer) (m : ModbusAnalyzer) (e : EnipAnalyzer) (a : ArpAnalyzer) :
  plain_summary (http_summarize h) ∧ plain_summary (tls_summarize t) ∧ plain_summary (modbus_summarize m) ∧
  plain_summary (enip_summarize e) ∧ plain_summary (arp_summarize a).
Proof.
  split_and!; try plain. unfold enip_summarize. destruct (enip_totals e) as [[[pdus errs] open] dist]. split.
  - apply printable_lit. vm_compute. reflexivity.
  - cbn [detail]. apply map_Forall_singleton, printable_lit. vm_compute. reflexivity.
Qed.

Lemma checked_summaries_plain m :
  (∀ r, summarize r = Some m → plain_summary m) ∧ (∀ a, dns_summarize a = Some m → plain_summary m) ∧
  (∀ a, dnp3_summarize a = Some m → plain_summary m) ∧ (∀ a, iec_summarize a = Some m → plain_summary m).
Proof.
  split_and!; intros x E.
  - unfold summarize in E. cbv zeta in E. peel E. simplify_eq. plain.
  - unfold dns_summarize in E. peel E. simplify_eq. split; [apply printable_lit; vm_compute; reflexivity|]. cbn [detail].
    apply map_Forall_insert_2; [|apply map_Forall_singleton]; apply printable_lit; vm_compute; reflexivity.
  - unfold dnp3_summarize in E. cbv zeta in E. peel E. peel E. simplify_eq. plain.
  - unfold iec_summarize in E. peel E. simplify_eq. plain.
Qed.
End summaries.

(** ** Coverage gaps on the terminal *)

Abbreviation ascii_lines := (Forall (λ b, b = 10 ∨ 0x20 ≤ b < 0x7F)).

Lemma chars_on_screen s : ascii_lines (string_bytes s) → on_screen (chars s).
Proof.
  intros Hs. unfold chars. rewrite decode_ascii; [|eapply Forall_impl; [exact Hs|cbn; lia]|].
  - eapply Forall_impl; [exact Hs|]. cbn. tauto.
  - unfold string_bytes. rewrite length_fmap. clear. induction s; cbn; lia.
Qed.

Lemma ascii_literal s : forallb (λ b, (b =? 10) || (0x20 <=? b) && (b <? 0x7F)) (string_bytes s) = true → ascii_lines (string_bytes s).
Proof. rewrite forallb_forall, Forall_forall. intros Hs b Hb%list_elem_of_In. specialize (Hs b Hb). lia. Qed.

Lemma decimal_lines n : ascii_lines (string_bytes (decimal n)).
Proof. eapply Forall_impl; [apply decimal_bytes|]. unfold is_digit. cbn. lia. Qed.

Ltac lines :=
  repeat match goal with
  | |- Forall _ (string_bytes (_ +:+ _)) => rewrite string_bytes_append; apply Forall_app; split
  | |- Forall _ (string_bytes (decimal _)) => apply decimal_lines
  | |- _ => first [apply ascii_literal; vm_compute; reflexivity]
  end.

Lemma gap_name_lines t port n : gap_name t port = Some n → ascii_lines (string_bytes n).
Proof.
  unfold gap_name. intros E. destruct (is_tcp102 t port); [done|].
  assert (∃ p, catalog_entry t port = Some p ∧ n = Protocols.name p) as (p & Hp & ->).
  { destruct (lookup_protocol_state t port); try done; by apply fmap_Some in E as (p & ? & ?); exists p. }
  apply catalog_entry_Some in Hp as (Hin%list_elem_of_In & _).
  assert (forallb (λ p, forallb (λ b, (b =? 10) || (0x20 <=? b) && (b <? 0x7F)) (string_bytes (Protocols.name p)))
    Protocols.KNOWN_PROTOCOLS = true) as Ha by (vm_compute; reflexivity).
  rewrite forallb_forall in Ha. by apply ascii_literal, Ha.
Qed.

Lemma gaps_on_screen all : on_screen (chars (render_coverage_gaps_terminal all)).
Proof.
  apply chars_on_screen. unfold render_coverage_gaps_terminal. lines. destruct (gap_entries all) as [|e es]; [lines|].
  rewrite string_bytes_append. apply Forall_app. split; [lines|]. generalize (e :: es) as l. clear. induction l as [|[[t port] n] l IH]; [lines|].
  cbn [foldr]. rewrite string_bytes_append. apply Forall_app. split; [|exact IH]. unfold gap_row. lines.
  - by destruct t; lines.
  - by destruct (lookup_protocol_state t port); lines.
  - destruct (gap_name t port) as [name|] eqn:E; [lines; by eapply gap_name_lines|lines].
  - destruct (is_tcp102 t port); lines.
Qed.

(** ** Reports *)

Section output.
Context `{EP : Etherparse, HO : !HashOrder, SO : !ScanOrders}.
Context `{!IterOrder Ip4 BindingEntry, !IterOrder Mac StormCounter, !IterOrder FlowKey Dnp3FlowState}.
Context `{HL : HttpLib, TL : TlsLib, RL : ReportLib}.

Lemma collect_summaries_plain o s a l : collect_summaries o s a = Some l → Forall plain_summary l.
Proof using Type.
  unfold collect_summaries. intros E. do 4 peel E. injection E as <-.
  assert (∀ A (f : A → AnalysisSummary) (y : option A), (∀ x, plain_summary (f x)) → Forall plain_summary (settled_list f y)) as Hl.
  { intros A f [y|] Hf; [by apply Forall_singleton|by apply Forall_nil]. }
  rewrite !Forall_app. split_and!.
  - unfold engine_summary in E0. destruct (reassembler s) as [r|]; [|simplify_eq; by apply Forall_nil]. peel E0. simplify_eq.
    apply (proj1 (checked_summaries_plain _)) in E as [Hn Hd]. apply Forall_singleton. split; [exact Hn|]. cbn [detail].
    apply map_Forall_insert_2; [apply printable_lit; vm_compute; reflexivity|exact Hd].
  - destruct (enable_dns o); [|simplify_eq; by apply Forall_nil]. peel E1. simplify_eq. apply Forall_singleton.
    exact (proj1 (proj2 (checked_summaries_plain _)) _ E).
  - apply Hl. intros y. apply (stream_summaries_plain y TlsAnalyzer_new (ModbusAnalyzer_new 0 0) (EnipAnalyzer_new 0 0) ArpAnalyzer_default).
  - apply Hl. intros y. apply (stream_summaries_plain HttpAnalyzer_new y (ModbusAnalyzer_new 0 0) (EnipAnalyzer_new 0 0) ArpAnalyzer_default).
  - apply Hl. intros y. apply (stream_summaries_plain HttpAnalyzer_new TlsAnalyzer_new y (EnipAnalyzer_new 0 0) ArpAnalyzer_default).
  - unfold settled_summary in E2. destruct (an_dnp3 a); [|simplify_eq; by apply Forall_nil]. peel E2. simplify_eq.
    apply Forall_singleton. exact (proj1 (proj2 (proj2 (checked_summaries_plain _))) _ E).
  - apply Hl. intros y. apply (stream_summaries_plain HttpAnalyzer_new TlsAnalyzer_new (ModbusAnalyzer_new 0 0) y ArpAnalyzer_default).
  - unfold settled_summary in E3. destruct (an_iec104 a); [|simplify_eq; by apply Forall_nil]. peel E3. simplify_eq.
    apply Forall_singleton. exact (proj2 (proj2 (proj2 (checked_summaries_plain _))) _ E).
  - destruct (enable_arp o); [|by apply Forall_nil]. apply Forall_singleton.
    apply (stream_summaries_plain HttpAnalyzer_new TlsAnalyzer_new (ModbusAnalyzer_new 0 0) (EnipAnalyzer_new 0 0)).
Qed.

(** The parts of a report of [analyze] that do not depend on the packets. *)
Lemma run_analyze_shape fsys o cli rep :
  run_analyze fsys o cli = Some (inr rep) →
  Forall plain_summary (rep_summaries rep) ∧
  rep_reporter rep = choose_reporter cli (TerminalReporter (use_color o) false
    (grouping_from_flag (show_mitre_grouping o)) (if collapse_findings o then Collapsed else Expanded)).
Proof using Type.
  unfold run_analyze. destruct (check_thresholds o); [done|]. intros E. peel E. peel E. destruct x0 as [e|s]; [done|]. peel E.
  destruct (write_output fsys cli); [done|]. injection E as <-. unfold conclude in E2. cbv zeta in E2. do 4 peel E2. injection E2 as <-. cbn [rep_summaries rep_reporter].
  split; [|done]. by eapply collect_summaries_plain.
Qed.

(** The same of [summary], which has only totals. *)
Lemma run_summary_shape fsys ts hosts color cli rep :
  run_summary fsys ts hosts color cli = Some (inr rep) →
  rep_findings rep = [] ∧ rep_summaries rep = [] ∧ map_Forall (λ svc _, known_service svc) (services (rep_totals rep)) ∧
  rep_reporter rep = choose_reporter cli (TerminalReporter color hosts Flat Collapsed).
Proof using Type.
  set (ok := λ s : Triage, map_Forall (λ svc _, known_service svc) (services (tr_totals s))).
  assert (∀ dl raws s s', summarize_packets dl s raws = Some s' → ok s → ok s') as Hp.
  { intros dl. induction raws as [|raw raws IH]; intros s s' E Hs; cbn [summarize_packets] in E; [by simplify_eq|]. peel E.
    eapply IH; [exact E|]. unfold summarize_packet in E0. peel E0. destruct x0 as [e|[p|f]].
    - injection E0 as <-. unfold ok. by case_match.
    - peel E0. simplify_eq. unfold ok. cbn. by eapply ingest_services.
    - by simplify_eq. }
  assert (∀ ps s s', summarize_files fsys s ps = Some s' → ok s → ok s') as Hf.
  { induction ps as [|p ps IH]; intros s s' E Hs; cbn [summarize_files] in E; [by simplify_eq|]. peel E.
    eapply IH; [exact E|]. unfold summarize_file in E0. peel E0. destruct x0 as [e|source]; [by simplify_eq|].
    destruct (packets source); [by simplify_eq|by eapply Hp]. }
  assert (∀ ts s s', summarize_targets fsys s ts = Some (inr s') → ok s → ok s') as Ht.
  { induction ts0 as [|t ts' IH]; intros s s' E Hs; cbn [summarize_targets] in E; [by simplify_eq|].
    destruct (resolve_targets fsys t); [done|]. peel E. eapply IH; [exact E|]. by eapply Hf. }
  unfold run_summary. intros E. peel E. destruct x as [e|s]; [done|].
  cbv zeta in E. destruct (write_output fsys cli); [done|]. injection E as <-. split_and!; try done.
  apply Ht in E0; [exact E0|]. apply map_Forall_empty.
Qed.

(** Listed techniques are in the table. *)
Lemma tagged_known f id : tagged f → id ∈ mitre_techniques f → id ∈ SEEDED_TECHNIQUE_IDS ∧ id ∈ EMITTED_IDS.
Proof using Type.
  unfold tagged. rewrite forallb_forall. intros Hf Hin%list_elem_of_In%Hf%bool_decide_eq_true. split; [|done].
  destruct technique_table_exact as (Hs & _ & _ & _ & _ & _ & _ & _ & He). by apply Hs, He.
Qed.

Lemma tagged_techniques_plain f : tagged f → plain_techniques f.
Proof using Type.
  intros Hf. apply Forall_forall. intros id [_ Hid]%(tagged_known f id Hf).
  assert (forallb (λ id, printableb (chars id)) EMITTED_IDS = true) as Ha by (vm_compute; reflexivity).
  rewrite forallb_forall in Ha. apply printable_lit, Ha. by apply list_elem_of_In.
Qed.

Lemma report_on_screen rep hosts g c :
  (∀ v, Forall (λ ch, 0 ≤ ch) (value_to_string v)) → rep_reporter rep = TerminalReporter false hosts g c →
  all_tagged (rep_findings rep) → map_Forall (λ svc _, known_service svc) (services (rep_totals rep)) →
  Forall plain_summary (rep_summaries rep) → ∃ t, report_output rep = Some t ∧ on_screen t.
Proof using Type.
  intros Hv Er Hf Hs Hp. unfold report_output. rewrite Er.
  destruct (terminal_on_screen hosts g c (rep_totals rep) (rep_findings rep) (rep_summaries rep) Hv) as (t & -> & Ht).
  - split.
    + intros svc n E. by eapply known_service_printable, Hs.
    + eapply Forall_impl; [exact Hf|]. apply tagged_techniques_plain.
    + eapply Forall_impl; [exact Hp|]. by intros a [? _].
    + eapply Forall_impl; [exact Hp|]. by intros a [_ ?].
  - eexists. split; [done|]. apply Forall_app. split; [done|]. destruct (rep_gaps rep); [apply gaps_on_screen|by apply Forall_nil].
Qed.

(** C31. Every technique of a report is known.  Whatever files are analyzed with
    whatever options, a technique attached to a finding of the report, by the
    engine or by any analyzer, is one of those the code lists as emitted; so it
    resolves in the technique table, to a name and a tactic, and is of the
    published form. *)
Theorem report_techniques_known fsys o cli rep :
  run_analyze fsys o cli = Some (inr rep) →
  ∀ f id, f ∈ rep_findings rep → id ∈ mitre_techniques f →
    id ∈ EMITTED_IDS ∧ is_Some (technique_name id) ∧ is_Some (technique_tactic id) ∧ is_valid_technique_id_format id = true.
Proof using Type.
  intros E f id Hf Hid. destruct (report_tagged fsys o cli rep E) as [Ht _]. rewrite Forall_forall in Ht.
  destruct (tagged_known f id (Ht f Hf) Hid) as [Hs He]. split; [done|].
  destruct technique_table_exact as (Hk & _ & _ & Hv & _). destruct (proj2 (Hk id) Hs) as [[n t] Ei].
  unfold technique_name, technique_tactic. rewrite Ei. split; [by eexists|]. split; [by eexists|].
  rewrite Forall_forall in Hv. by apply Hv.
Qed.

(** C30. No packet can write to the terminal.  When colours are off and no other
    format is asked for, whatever the files hold, the output of [analyze] and of
    [summary] renders, and the only control character in it is the line end: no
    escape sequence, of the C0 or the C1 block, gets from a packet to the
    screen.  This covers the totals, the findings in each of the four views,
    the details of the analyzers and the coverage gaps. *)
Theorem main_terminal_clean fsys no_color_env command cli rep :
  (∀ v, Forall (λ ch, 0 ≤ ch) (value_to_string v)) →
  main fsys no_color_env command cli = Some (Reported rep) → resolve_format cli = None → no_color cli || no_color_env = true →
  ∃ t, report_output rep = Some t ∧ Forall (λ ch, ch = 10 ∨ is_control ch = false) t.
Proof using Type.
  intros Hv E Hr Hc. assert (∃ t, report_output rep = Some t ∧ on_screen t) as (t & Et & Ht);
    [|exists t; split; [done|by apply on_screen_clean]].
  assert (negb (no_color cli) && negb no_color_env = false) as Hn by (destruct (no_color cli), no_color_env; done).
  unfold main in E. cbv zeta in E. rewrite Hn in E. destruct command as [args|ts hosts|]; [| |by repeat case_match]; peel E.
  - destruct x as [|rep']; simplify_eq. destruct (run_analyze_shape _ _ _ _ E0) as [Hp He]. destruct (report_tagged _ _ _ _ E0) as [Hf Hs].
    unfold choose_reporter in He. rewrite Hr in He. by eapply report_on_screen.
  - destruct x as [|rep']; simplify_eq. destruct (run_summary_shape _ _ _ _ _ _ E0) as (Hf & Hp & Hs & He).
    unfold choose_reporter in He. rewrite Hr in He. eapply report_on_screen; [done|exact He| |exact Hs|]; rewrite ?Hf, ?Hp; by apply Forall_nil.
Qed.
End output.

(** ** The whole run *)

(** A printed object is read back as an object: what [inject_coverage_gaps_json]
    relies on of [serde_json]. *)
Definition objects_reparse `{ReportLib} : Prop :=
  ∀ fields, ∃ fields', from_str (to_string_pretty (VObj fields)) = Some (VObj fields').

Lemma report_output_total `{PF : PcapFile, RL : ReportLib} rep : objects_reparse → is_Some (report_output rep).
Proof.
  intros Ho. unfold report_output. destruct (rep_reporter rep) as [| |color hosts g c]; [|by eexists|].
  - destruct (rep_gaps rep) as [all|]; [|by eexists]. unfold inject_coverage_gaps_json, render_json, json_document.
    match goal with |- context [VObj ?fields] => destruct (Ho fields) as [fields' ->] end. by eexists.
  - destruct (render_terminal_total color hosts g c (rep_totals rep) (rep_findings rep) (rep_summaries rep)) as [t ->].
    by eexists.
Qed.

Section run.
Context `{PF : PcapFile, EP : !Etherparse, EL : !EtherparseLaws, HO : !HashOrder, SO : !ScanOrders}.
Context `{!IterOrder Ip4 BindingEntry, !IterOrder Mac StormCounter, !IterOrder FlowKey Dnp3FlowState}.
Context `{HL : HttpLib, HW : !HttpLaws, TL : TlsLib, RL : ReportLib}.

Lemma write_output_spec fsys cli :
  write_output fsys cli =
  match destination cli with
  | ToFile p =>
      if write_ok fsys p then inr (ToFile p)
      else inl (WriteFailed (if decide (json cli = Some (Some p)) then Json else Csv) p)
  | Stdout => inr Stdout
  end.
Proof.
  unfold write_output, destination. destruct (json cli) as [[p|]|]; [by rewrite decide_True|..];
    (destruct (csv cli) as [[q|]|]; [by rewrite decide_False|done..]).
Qed.

Lemma run_analyze_destination fsys o cli rep :
  run_analyze fsys o cli = Some (inr rep) → rep_destination rep = destination cli.
Proof.
  unfold run_analyze. destruct (check_thresholds o); [done|]. intros E. peel E. peel E. destruct x0 as [e|s]; [done|]. peel E.
  destruct (write_output fsys cli); [done|]. injection E as <-. unfold conclude in E2. cbv zeta in E2. do 4 peel E2.
  by injection E2 as <-.
Qed.

(** The run ended with a report that renders. *)
Definition reported (cli : Cli) (r : RunError + Report) : Prop :=
  ∃ rep t, r = inr rep ∧ rep_destination rep = destination cli ∧ report_output rep = Some t.

(** C11. A run of [analyze] never panics, and its errors are exact.  Whatever the
    files hold, whatever the crates answer within their contracts and whichever
    analyzers are enabled, over frames of at most 2^32 - 1 bytes in total and
    with limits that fit the address space, the run ends.  It ends with the
    first of three errors in the order the code meets them: a threshold is
    zero; a target cannot be resolved; or, after all targets are analyzed, the
    file named by [--json] or [--csv] cannot be written.  Otherwise it ends
    with a report that renders, bound for that file or for the standard
    output. *)
Theorem run_analyze_never_panics fsys o cli :
  objects_reparse → bodies_are_slices → cli_ok cli →
  frames_fit (run_frames fsys (run_targets o)) → frame_bytes (run_frames fsys (run_targets o)) ≤ u32_max →
  ∃ r, run_analyze fsys o cli = Some r ∧
    match check_thresholds o, (resolved fsys (run_targets o)).2, destination cli with
    | Some e, _, _ => r = inl e
    | None, Some e, _ => r = inl (BadTarget e)
    | None, None, ToFile p =>
        if write_ok fsys p then reported cli r
        else r = inl (WriteFailed (if decide (json cli = Some (Some p)) then Json else Csv) p)
    | None, None, Stdout => reported cli r
    end.
Proof using Type*.
  intros Ho Hs Hc Hf Hb. destruct (run_analyze_ok fsys o cli Hs Hc Hf Hb) as (r & E & Hr).
  exists r. split; [done|]. rewrite write_output_spec in Hr.
  assert (∀ rep, r = inr rep → reported cli r) as Hrep.
  { intros rep ->. destruct (report_output_total rep Ho) as [t Et]. exists rep, t.
    split_and!; [done|by eapply run_analyze_destination|done]. }
  destruct (check_thresholds o); [done|]. destruct (resolved fsys (run_targets o)).2; [done|].
  destruct (destination cli) as [p|]; [destruct (write_ok fsys p); [|done]|]; destruct Hr as (rep & -> & _); eauto.
Qed.
End run.

(** ** A run with a finding

    A Modbus write to a register, analyzed with every analyzer on. *)

Module TinyOutput.
Import TinySlicer TinyRun TinyReport.

#[local] Existing Instance list_order.
#[local] Existing Instance list_iter_order.
#[local] Existing Instance list_scan_orders.
#[local] Existing Instance sample_http_lib.
#[local] Existing Instance sample_http_laws.
#[local] Existing Instance TinyTls.tiny_lib.
#[local] Existing Instance tiny_report_lib.

Definition write_frame : list Z :=
  [0x45; 0; 0; 52; 0; 0; 0; 0; 64; 6; 0; 0; 10; 0; 0; 1; 10; 0; 0; 2;
   0x9C; 0x40; 1; 0xF6; 0; 0; 0; 100; 0; 0; 0; 0; 0x50; 0x18; 255; 255; 0; 0; 0; 0;
   0; 1; 0; 0; 0; 6; 1; 6; 0; 0; 0; 1].

Definition write_fs : filesystem := {|
  is_file p := bool_decide (p = ["w.pcap"])%string;
  is_dir _ := false;
  read_dir _ := None;
  open_file p := if decide (p = ["w.pcap"])%string
    then Some (mkFile {| filled := Some ([0xA1; 0xB2; 0xC3; 0xD4; 101] ++ record_bytes 1 write_frame); remaining := Some [] |} (Some 90))
    else None;
  write_ok _ := false
|}.

Definition write_args : AnalyzeArgs :=
  mkAnalyzeArgs [["w.pcap"]]%string false false false true true false false 20 100 false 10 false 3 50 false 20 20 false true.

Definition write_report : Report :=
  match run_analyze write_fs (options_of write_args false) tiny_cli with
  | Some (inr rep) => rep
  | _ => mkReport Summary_new [] [] None JsonReporter Stdout 0 []
  end.

Lemma write_reports : run_analyze write_fs (options_of write_args false) tiny_cli = Some (inr write_report).
Proof. vm_compute. reflexivity. Qed.

Example write_techniques : mjoin (mitre_techniques <$> rep_findings write_report) = ["T1692.001"; "T0836"]%string.
Proof. vm_compute. reflexivity. Qed.

(** A run to a file that can be written, and one to a file that cannot. *)
Definition json_cli : Cli :=
  mkCli false None (Some (Some ["out.json"%string])) None false false 1 64 None None None None None 300.
Definition csv_cli : Cli :=
  mkCli false None None (Some (Some ["ro.csv"%string])) false false 1 64 None None None None None 300.

Lemma run_analyze_never_panics_witness :
  (∃ rep, run_analyze tiny_fs tiny_options json_cli = Some (inr rep) ∧
    rep_destination rep = ToFile ["out.json"%string]) ∧
  run_analyze tiny_fs tiny_options csv_cli =
    Some (inl (WriteFailed Csv ["ro.csv"%string])).
Proof.
  split.
  - destruct (run_analyze_never_panics tiny_fs tiny_options json_cli) as (r & E & H).
    + intros fields. exists []. reflexivity.
    + exact tiny_slices.
    + exact tiny_cli_ok.
    + exact tiny_frames_fit.
    + vm_compute. discriminate.
    + destruct H as (rep & t & -> & Hd & _). exists rep. split; [exact E|exact Hd].
  - destruct (run_analyze_never_panics tiny_fs tiny_options csv_cli) as (r & E & H).
    + intros fields. exists []. reflexivity.
    + exact tiny_slices.
    + exact tiny_cli_ok.
    + exact tiny_frames_fit.
    + vm_compute. discriminate.
    + rewrite E. f_equal. exact H.
Defined.

Lemma report_techniques_known_witness :
  ∃ f, f ∈ rep_findings write_report ∧ "T0836"%string ∈ mitre_techniques f ∧ is_Some (technique_tactic "T0836").
Proof.
  destruct (rep_findings write_report) as [|f l] eqn:E; [exfalso; revert E; vm_compute; discriminate|].
  assert (f ∈ rep_findings write_report) as Hf by (rewrite E; left).
  assert ("T0836"%string ∈ mitre_techniques f) as Hid.
  { assert (mitre_techniques f = ["T1692.001"; "T0836"]%string) as ->; [|right; left].
    revert E. vm_compute. by intros [= <- _]. }
  exists f. split; [by left|]. split; [exact Hid|].
  exact (proj1 (proj2 (proj2 (report_techniques_known write_fs (options_of write_args false) tiny_cli write_report write_reports f _ Hf Hid)))).
Defined.

Lemma main_terminal_clean_witness :
  main write_fs true (Analyze write_args) tiny_cli = Some (Reported write_report) ∧
  ∃ t, report_output write_report = Some t ∧ Forall (λ ch, ch = 10 ∨ is_control ch = false) t.
Proof.
  assert (main write_fs true (Analyze write_args) tiny_cli = Some (Reported write_report)) as E.
  { unfold main. cbn [no_color tiny_cli negb andb]. by rewrite write_reports. }
  split; [exact E|]. apply (main_terminal_clean write_fs true (Analyze write_args) tiny_cli write_report).
  - intros v. repeat constructor; discriminate.
  - exact E.
  - reflexivity.
  - reflexivity.
Defined.

End TinyOutput.
